(* ===== verification/_CoqProject ===== *)
-Q . S2P
Prelude.v
Str.v
Spinlock.v
Sleeplock.v
Memide.v
Port.v
Ide.v
Bio.v
Log.v
BlockLayer.v
LogTx.v
Fs.v
FsAlloc.v
FsFile.v
FsDir.v
Ring.v
Pipe.v
Kalloc.v
Mp.v
Vm.v
VmSpace.v
VmUser.v
VmSystem.v
Proc.v
ProcInv.v
File.v
Kernel.v
Exec.v
ExecMem.v
Boot.v
Sysfile.v
Syscalls.v
Printf.v
Mkfs.v
MkfsInv.v
MkfsBoot.v
Grep.v
Sh.v
ShRun.v
OldEditor.v
Editor.v
EditorInv.v
EditorFile.v
Console.v
Procdump.v
Kbd.v
Umalloc.v
Lapic.v
Ioapic.v
Uart.v
Usys.v
UserProgs.v
Init.v
Cpu.v
Main.v
