(* ===== verification/Prelude.v ===== *)
(** * Verification of xv6 (src/XV6-code)

    xv6 is a small Unix for 32-bit x86: a kernel in C with a file system that
    survives power failures, processes, pipes and a console, and a user space
    with a shell, a C library and some programs.  This library translates the
    C code into executable definitions, function by function, and proves what
    makes it correct.

    ** How the code is translated

    A C integer is a [Z] with its width written out where it matters ([u8],
    [u16], [u32], [s16], [s32] below); a byte array is a list of [Z] or a byte
    memory [Z → Z].  A pointer into a fixed table is an index.  Kernel code is
    in the monad [M] below: it returns with a new state, panics, sleeps on a
    channel, or (in the model only) runs out of the fuel given to a loop that
    is not structural.  A critical section of a lock is one atomic step:
    Spinlock proves that critical sections exclude each other, and the other
    files rely on it.  Concurrency is explicit: a step relation or a sequence
    of steps interleaves the critical sections of all CPUs or processes.

    Components that call each other meet at interfaces: [BlockLayer] (what
    fs.c asks of bio.c and log.c), [LogOps] (begin_op and end_op, for file.c)
    and [ProcEnv] (what proc.c asks of memory, files and inodes) are classes
    with laws; the clients are proved against the class, and LogTx, File and
    Kernel give the instances.  Drivers talk to hardware through [PortIO], the
    loads, stores and port accesses; what a device answers is a class over it:
    [AtaDisk], [LocalApic], [CmosClock], [IoApic] and [Serial], each with a
    device that satisfies its laws.  User programs are interaction trees over
    the system calls (Usys), so that a program that never ends is one, too.

    ** The files

    - Prelude: this header; integers, the monad, little-endian fields,
      sub-arrays, loops.
    - Str: string.c, the pure part of ulib.c, the string stores of x86.h.
    - Spinlock, Sleeplock: spinlock.c and sleeplock.c, on one CPU and under
      all interleavings.
    - Memide: buf.h and the in-memory disk of memide.c, with the history of
      its writes.  Port: ports and registers; Ide: ide.c.
    - Bio: bio.c, the linked cache of buffers; Log: log.c, the redo log;
      BlockLayer: the interface above them; LogTx: transactions and crashes.
    - Fs: fs.c as a whole; FsAlloc, FsFile, FsDir: theorems on the block
      allocator, on file contents and on directories and path names.
    - Mkfs: mkfs.c; MkfsInv: the image it builds; MkfsBoot: the kernel on it.
    - Ring: queues in arrays with 32-bit counters, used by Pipe (pipe.c) and
      Console.
    - Kalloc: kalloc.c; Vm: the paging functions of vm.c; VmSpace: an address
      space and the pages it owns; VmUser: what a program reads in it, and
      copyout, clearpteu and inituvm; VmSystem: all address spaces together.
    - Proc: proc.c; ProcInv: all CPUs and processes together; Procdump:
      procdump and forkret.
    - File: file.c and pipealloc; Kernel: the components put together, and the
      argument fetching of syscall.c; Exec: exec.c and loaduvm; ExecMem: what
      exec does to the memory.
    - Sysfile: sysfile.c; Syscalls: sysproc.c, the dispatcher of syscall.c and
      trap of trap.c.
    - Boot: bootmain.c; Mp: mp.c; Lapic: lapic.c; Ioapic: ioapic.c and
      picirq.c; Uart: uart.c; Cpu: segments, task state, the interrupt table
      and the current CPU (mmu.h, parts of vm.c, trap.c and proc.c); Main:
      the memory at the start of main, startothers, mpenter, mpmain and the
      first page table of main.c.
    - Console: console.c; Kbd: kbd.c and the tables of kbd.h.
    - Printf: printf.c; Umalloc: umalloc.c; Grep: grep.c; Sh: the parser of
      sh.c; ShRun: the rest of sh.c and gets of ulib.c.
    - Editor: editor.c; EditorInv: its list of lines and cursor; EditorFile:
      loading and saving, whole sessions; OldEditor: editor_old.c.
    - Usys: the system calls a program makes, and a world of files that
      answers them; UserProgs: cat, echo, echo_reversal, kill, ln, ls, mkdir,
      rm and wc; Init: init.c and zombie.c.

    State and operations keep the names of the source, with a prefix or suffix
    where a name is taken ([match_], [panic_], [cons_panic]); loops of a
    function are definitions of their own, named after it.

    ** What is proved

    Crash safety: a file-system call between begin_op and end_op is atomic for
    every prefix of its disk writes, and recovery may itself be interrupted
    (LogTx, Log); the buffer cache refines an array of blocks and recycles the
    least recently used buffer (Bio); the disk driver serves requests in order,
    each exactly once (Ide).  File system: the block allocator, reads and
    writes of file contents, inode encoding and path resolution do exactly what
    they should and nothing else (FsAlloc, FsFile, FsDir, Fs); mkfs builds the
    image its files mean, and the kernel reads them back from it (MkfsInv,
    MkfsBoot).  Processes: no process on two CPUs, a sound process tree, no
    lost wakeup in wait, a fair scheduler (ProcInv).  Memory: no page handed
    out twice (Kalloc); for every sequence of calls on address spaces no page
    is lost or shared, processes cannot touch each other's memory, and fork
    copies it (Vm, VmSpace, VmUser, VmSystem); no overlapping blocks from malloc
    (Umalloc).  Start-up: the boot loader puts the kernel into memory, the
    tables that announce the CPUs are read as they are meant, every CPU is
    started on its own stack (Boot, Mp, Main), and user code enters the kernel
    only by a system call, on its own kernel stack (Cpu).  Devices: interrupts
    are routed as asked, the clock is never read torn, the serial port delivers
    what was sent (Ioapic, Lapic, Uart).  System calls: arguments stay inside
    the process, exec succeeds or changes nothing, neither a
    process nor the memory, a killed process never returns to user mode however
    its trap goes on (yields and sleeps included), descriptors are allocated and released correctly,
    reference counts are exact (Kernel, ExecMem, Syscalls, Sysfile, File).  Queues:
    pipes are first-in first-out and block exactly when they should; the console
    is a line discipline on lists (Pipe, Console).  Programs: the shell's parser
    ends on every line and its words are intact, the programs it starts have
    exactly the descriptors the command means, grep prints exactly the matching
    lines, wc counts, init keeps a shell running (Sh, ShRun, Grep, UserProgs,
    Init); the editors' texts behave like a list of lines, and a session of
    loading, editing and saving leaves exactly the edited lines in the file, for
    commands within the limits that the theorems state; outside them the
    editors go wrong, which is shown as well (EditorInv, EditorFile,
    OldEditor).

    ** Fuel

    Loops over tables and lists are structural.  The others have fuel: walks of
    the buffer ring ([NBUF] + 1), of the inode and process tables (their
    sizes), of page ranges (the number of pages), of the shell's line (4 per
    character, one for each level of the grammar), of malloc's list (the break
    bounds the number of nodes), of the editor's list (the number of nodes),
    of strings (the memory they are in).  A loop that waits for a device or
    another CPU has the fuel as an argument, and the theorems say how much is
    enough: more than the latency of the device.  The
    theorems state results, not partial correctness: running out of fuel is
    excluded by them, and [Sh.parsecmd_terminates] is that statement for the
    recursive parser.

    ** What is not modelled

    The rest of the calls in [main] of main.c, assembly (context switch, trap
    entry, the first instructions of a CPU, system call stubs), messages
    printed for debugging, and the test programs (usertests.c, forktest.c,
    stressfs.c), which exercise the system and are not part of it.  The memory
    order of the hardware is taken to be sequential.  What the models take from outside (what a device delivers,
    whether sbrk succeeds, which programs exist) is an argument, with its
    documented behaviour as a hypothesis where a theorem needs it. *)
From Stdlib Require Export ZArith Lia.
From stdpp Require Export base list gmap strings numbers.
From stdpp Require Import options.

#[export] Set Warnings "-clear-no-such-hyp".
Open Scope Z_scope.
Coercion Z.of_nat : nat >-> Z.

(** ** Machine integers

    A w-bit unsigned C integer is a [Z] in [0, 2^w); the conversions below
    are the implicit and explicit casts of the source.  Signed types use two's
    complement, as gcc for i386 does. *)

Definition u8 (x : Z) : Z := x `mod` 2 ^ 8.
Definition u16 (x : Z) : Z := x `mod` 2 ^ 16.
Definition u32 (x : Z) : Z := x `mod` 2 ^ 32.

Definition s16 (x : Z) : Z :=
  let y := u16 x in if y <? 2 ^ 15 then y else y - 2 ^ 16.
Definition s32 (x : Z) : Z :=
  let y := u32 x in if y <? 2 ^ 31 then y else y - 2 ^ 32.

Definition is_u8 (x : Z) : Prop := 0 ≤ x < 2 ^ 8.
Definition is_u16 (x : Z) : Prop := 0 ≤ x < 2 ^ 16.
Definition is_u32 (x : Z) : Prop := 0 ≤ x < 2 ^ 32.
Definition is_s32 (x : Z) : Prop := - 2 ^ 31 ≤ x < 2 ^ 31.

(** C truth values. *)
Definition truthy (x : Z) : bool := negb (x =? 0).
Definition b2z (b : bool) : Z := if b then 1 else 0.

Lemma u32_range x : is_u32 (u32 x).
Proof. apply Z.mod_pos_bound; lia. Qed.
Lemma u16_range x : is_u16 (u16 x).
Proof. apply Z.mod_pos_bound; lia. Qed.
Lemma u8_range x : is_u8 (u8 x).
Proof. apply Z.mod_pos_bound; lia. Qed.

Lemma u32_small x : is_u32 x → u32 x = x.
Proof. intros; apply Z.mod_small; assumption. Qed.
Lemma u16_small x : is_u16 x → u16 x = x.
Proof. intros; apply Z.mod_small; assumption. Qed.
Lemma u8_small x : is_u8 x → u8 x = x.
Proof. intros; apply Z.mod_small; assumption. Qed.

Lemma s32_small x : is_s32 x → s32 x = x.
Proof.
  unfold is_s32, s32, u32. intros H.
  destruct (decide (0 ≤ x)) as [Hx|Hx].
  - rewrite Z.mod_small by lia. destruct (Z.ltb_spec x (2 ^ 31)); lia.
  - rewrite <- (Z.mod_unique_pos x (2 ^ 32) (-1) (x + 2 ^ 32)) by lia.
    destruct (Z.ltb_spec (x + 2 ^ 32) (2 ^ 31)); lia.
Qed.

Lemma s32_range x : is_s32 (s32 x).
Proof.
  pose proof (u32_range x) as H. unfold is_s32, is_u32, s32 in *.
  destruct (Z.ltb_spec (u32 x) (2 ^ 31)); lia.
Qed.

(** ** Results: return, panic, sleep, out of fuel

    Kernel code either returns with a new state, panics, goes to sleep on a
    channel (the state at the time of the [sleep] call is kept), or, in the
    model only, exhausts the fuel given to a loop that is not structural. *)

(** A sleep channel: the C code uses the address of an object; the model uses
    the object's name and its index in its table. *)
Inductive chan : Type := Chan (obj : string) (idx : Z).

Inductive res (S A : Type) : Type :=
| Ok (a : A) (s : S)
| Panic (msg : string)
| Sleeping (c : chan) (s : S)
| Fuel.
Arguments Ok {S A} a s.
Arguments Panic {S A} msg.
Arguments Sleeping {S A} c s.
Arguments Fuel {S A}.

Definition M (S A : Type) : Type := S → res S A.

Definition ret {S A} (a : A) : M S A := λ s, Ok a s.
Definition bind {S A B} (m : M S A) (k : A → M S B) : M S B := λ s,
  match m s with
  | Ok a s' => k a s'
  | Panic msg => Panic msg
  | Sleeping c s' => Sleeping c s'
  | Fuel => Fuel
  end.
Definition panic {S A} (msg : string) : M S A := λ _, Panic msg.
Definition get {S} : M S S := λ s, Ok s s.
Definition gets {S A} (f : S → A) : M S A := λ s, Ok (f s) s.
Definition modify {S} (f : S → S) : M S unit := λ s, Ok tt (f s).

(** Run an operation of a component on the part of a larger state it owns. *)
Definition zoom {S T A} (sel : T → S) (upd : S → T → T) (m : M S A) : M T A := λ t,
  match m (sel t) with
  | Ok a s' => Ok a (upd s' t)
  | Panic msg => Panic msg
  | Sleeping c s' => Sleeping c (upd s' t)
  | Fuel => Fuel
  end.

Declare Scope kernel_scope.
Delimit Scope kernel_scope with kernel.
Notation "'let!' x := m 'in' k" := (bind m (λ x, k))
  (at level 10, x pattern, m at level 100, k at level 200,
   format "'[v' 'let!'  x  :=  m  'in' '/' k ']'") : kernel_scope.
Notation "'do!' m 'in' k" := (bind m (λ _, k))
  (at level 10, m at level 100, k at level 200,
   format "'[v' 'do!'  m  'in' '/' k ']'") : kernel_scope.
Open Scope kernel_scope.

Section monad.
Context {S : Type}.

Lemma bind_Ok {A B} (m : M S A) (k : A → M S B) s a s' :
  m s = Ok a s' → bind m k s = k a s'.
Proof. unfold bind. by intros ->. Qed.

Lemma bind_Panic {A B} (m : M S A) (k : A → M S B) s msg :
  m s = Panic msg → bind m k s = Panic msg.
Proof. unfold bind. by intros ->. Qed.

Lemma bind_assoc {A B C} (m : M S A) (f : A → M S B) (g : B → M S C) s :
  bind (bind m f) g s = bind m (λ a, bind (f a) g) s.
Proof. unfold bind. by destruct (m s). Qed.

Lemma bind_Ok_inv {A B} (m : M S A) (k : A → M S B) s b s'' :
  bind m k s = Ok b s'' → ∃ a s', m s = Ok a s' ∧ k a s' = Ok b s''.
Proof. unfold bind. destruct (m s) eqn:?; naive_solver. Qed.

Lemma bind_Sleeping_inv {A B} (m : M S A) (k : A → M S B) s ch s' :
  bind m k s = Sleeping ch s' → m s = Sleeping ch s' ∨ ∃ a s1, m s = Ok a s1 ∧ k a s1 = Sleeping ch s'.
Proof. unfold bind. destruct (m s) eqn:?; naive_solver. Qed.

(** Code that never gives the CPU up. *)
Definition awake {A} (m : M S A) : Prop := ∀ s ch s', m s ≠ Sleeping ch s'.

Lemma awake_ret {A} (a : A) : awake (ret a).
Proof. done. Qed.
Lemma awake_panic {A} msg : awake (@panic S A msg).
Proof. done. Qed.
Lemma awake_gets {A} (f : S → A) : awake (gets f).
Proof. done. Qed.
Lemma awake_modify (f : S → S) : awake (modify f).
Proof. done. Qed.
Lemma awake_bind {A B} (m : M S A) (k : A → M S B) : awake m → (∀ a, awake (k a)) → awake (bind m k).
Proof. intros Hm Hk s ch s' [H|(a & s1 & _ & H)]%bind_Sleeping_inv; [by eapply Hm|by eapply Hk]. Qed.

Lemma bind_ret {A B} (a : A) (k : A → M S B) s : bind (ret a) k s = k a s.
Proof. done. Qed.
Lemma bind_gets {A B} (f : S → A) (k : A → M S B) s :
  bind (gets f) k s = k (f s) s.
Proof. done. Qed.
Lemma bind_modify {B} (f : S → S) (k : unit → M S B) s :
  bind (modify f) k s = k tt (f s).
Proof. done. Qed.
End monad.

(** [mstep H]: run the first operation of a bind with the equation [H]. *)
Tactic Notation "mstep" uconstr(H) :=
  erewrite bind_Ok; [|first [apply H | eapply H]].
Ltac mpure := repeat first [rewrite bind_ret | rewrite bind_gets | rewrite bind_modify].

(** Evaluate conditions that are closed. *)
Ltac eval_ifs :=
  repeat match goal with
  | |- context [if ?b then _ else _] =>
      let v := eval vm_compute in b in
      match v with
      | true => change b with true
      | false => change b with false
      end; cbn iota beta
  end.

(** ** Little-endian encoding *)

Fixpoint le_bytes (n : nat) (x : Z) : list Z :=
  match n with
  | O => []
  | S n => x `mod` 256 :: le_bytes n (x / 256)
  end.

Fixpoint le_val (l : list Z) : Z :=
  match l with
  | [] => 0
  | b :: l => b + 256 * le_val l
  end.

Abbreviation bytes := (list Z).
Definition is_bytes (l : list Z) : Prop := Forall is_u8 l.

Lemma length_le_bytes n x : length (le_bytes n x) = n.
Proof. revert x; induction n; intros; simpl; auto. Qed.

Lemma le_bytes_is_bytes n x : is_bytes (le_bytes n x).
Proof.
  revert x; induction n as [|n IH]; intros x; simpl; constructor; [|apply IH].
  apply Z.mod_pos_bound; lia.
Qed.

Lemma le_val_le_bytes n x : le_val (le_bytes n x) = x `mod` 256 ^ n.
Proof.
  revert x; induction n as [|n IH]; intros x; simpl le_bytes; simpl le_val.
  - by rewrite Z.mod_1_r.
  - rewrite IH, Nat2Z.inj_succ, Z.pow_succ_r by lia.
    rewrite Z.rem_mul_r; [done|lia|]. apply Z.pow_pos_nonneg; lia.
Qed.

Lemma le_val_range l : is_bytes l → 0 ≤ le_val l < 256 ^ length l.
Proof.
  induction 1 as [|b l Hb _ IH]; simpl length; simpl le_val; [lia|].
  rewrite Nat2Z.inj_succ, Z.pow_succ_r by lia. unfold is_u8 in Hb. lia.
Qed.

Lemma le_bytes_le_val l : is_bytes l → le_bytes (length l) (le_val l) = l.
Proof.
  induction 1 as [|b l Hb _ IH]; simpl; [done|]. unfold is_u8 in Hb.
  assert ((b + 256 * le_val l) `mod` 256 = b) as ->.
  { rewrite Z.mul_comm, Z_mod_plus_full, Z.mod_small; lia. }
  assert ((b + 256 * le_val l) / 256 = le_val l) as ->; [|by rewrite IH].
  rewrite Z.mul_comm, Z.div_add, Z.div_small; lia.
Qed.

(** ** Byte arrays: reading and writing a sub-array *)

Definition subarr {A} (l : list A) (off n : nat) : list A := take n (drop off l).

Lemma length_subarr {A} (l : list A) off n :
  (off + n ≤ length l)%nat → length (subarr l off n) = n.
Proof. intros. unfold subarr. rewrite length_take, length_drop. lia. Qed.

Lemma lookup_subarr {A} (l : list A) off n i :
  (i < n)%nat → subarr l off n !! i = l !! (off + i)%nat.
Proof. intros. unfold subarr. by rewrite lookup_take_lt, lookup_drop. Qed.

Lemma subarr_inserts_eq {A} (l k : list A) off :
  (off + length k ≤ length l)%nat →
  subarr (list_inserts off k l) off (length k) = k.
Proof.
  intros Hlen. apply list_eq; intros i.
  destruct (decide (i < length k)%nat) as [Hi|Hi].
  - rewrite lookup_subarr by done. rewrite list_lookup_inserts by lia.
    f_equal; lia.
  - rewrite !lookup_ge_None_2; [done|lia|].
    rewrite length_subarr; [lia|]. by rewrite length_inserts.
Qed.

Lemma subarr_inserts_ne {A} (l k : list A) off off' n :
  (off' + n ≤ off ∨ off + length k ≤ off')%nat →
  subarr (list_inserts off k l) off' n = subarr l off' n.
Proof.
  intros Hd. apply list_eq; intros i.
  destruct (decide (i < n)%nat) as [Hi|Hi].
  - rewrite !lookup_subarr by done. destruct Hd.
    + by rewrite list_lookup_inserts_lt by lia.
    + by rewrite list_lookup_inserts_ge by lia.
  - rewrite !lookup_ge_None_2; [done| |]; unfold subarr;
      rewrite length_take, length_drop; lia.
Qed.

Lemma subarr_subarr {A} (l : list A) off n off' n' :
  (off' + n' ≤ n)%nat →
  subarr (subarr l off n) off' n' = subarr l (off + off') n'.
Proof.
  intros H. apply list_eq; intros i.
  destruct (decide (i < n')%nat) as [Hi|Hi].
  - rewrite !lookup_subarr by lia. f_equal; lia.
  - unfold subarr. rewrite !lookup_take_ge by lia. done.
Qed.

Lemma Forall_inserts {A} (P : A → Prop) (l k : list A) off :
  Forall P l → Forall P k → Forall P (list_inserts off k l).
Proof.
  intros Hl Hk. apply Forall_lookup. intros i x.
  rewrite list_lookup_inserts_Some. rewrite Forall_lookup in Hl, Hk.
  intros [[_ H]|(_ & _ & H)]; eauto.
Qed.

Lemma Forall_subarr {A} (P : A → Prop) (l : list A) off n :
  Forall P l → Forall P (subarr l off n).
Proof. intros. unfold subarr. by apply Forall_take, Forall_drop. Qed.

(** 16- and 32-bit little-endian fields of a byte array. *)
Definition rd16 (d : bytes) (off : nat) : Z := le_val (subarr d off 2).
Definition rd32 (d : bytes) (off : nat) : Z := le_val (subarr d off 4).
Definition wr16 (d : bytes) (off : nat) (x : Z) : bytes := list_inserts off (le_bytes 2 x) d.
Definition wr32 (d : bytes) (off : nat) (x : Z) : bytes := list_inserts off (le_bytes 4 x) d.

Lemma length_wr16 d off x : length (wr16 d off x) = length d.
Proof. apply length_inserts. Qed.
Lemma length_wr32 d off x : length (wr32 d off x) = length d.
Proof. apply length_inserts. Qed.

Lemma rd32_wr32_eq d off x :
  (off + 4 ≤ length d)%nat → rd32 (wr32 d off x) off = u32 x.
Proof.
  intros H. unfold rd32, wr32.
  replace 4%nat with (length (le_bytes 4 x)) at 2 by apply length_le_bytes.
  rewrite subarr_inserts_eq by (by rewrite length_le_bytes).
  apply le_val_le_bytes.
Qed.

Lemma rd32_wr32_ne d off off' x :
  (off' + 4 ≤ off ∨ off + 4 ≤ off')%nat → rd32 (wr32 d off x) off' = rd32 d off'.
Proof. intros H. unfold rd32, wr32. rewrite subarr_inserts_ne; [done|]. rewrite length_le_bytes. lia. Qed.

Lemma rd16_wr16_eq d off x :
  (off + 2 ≤ length d)%nat → rd16 (wr16 d off x) off = u16 x.
Proof.
  intros H. unfold rd16, wr16.
  replace 2%nat with (length (le_bytes 2 x)) at 2 by apply length_le_bytes.
  rewrite subarr_inserts_eq by (by rewrite length_le_bytes).
  apply le_val_le_bytes.
Qed.

Lemma rd16_wr16_ne d off off' x :
  (off' + 2 ≤ off ∨ off + 2 ≤ off')%nat → rd16 (wr16 d off x) off' = rd16 d off'.
Proof. intros H. unfold rd16, wr16. rewrite subarr_inserts_ne; [done|]. rewrite length_le_bytes. lia. Qed.

Lemma rd32_range d off : is_bytes d → (off + 4 ≤ length d)%nat → is_u32 (rd32 d off).
Proof.
  intros Hd Hl. unfold rd32, is_u32.
  replace (2 ^ 32) with (256 ^ length (subarr d off 4)).
  - apply le_val_range, Forall_subarr, Hd.
  - by rewrite length_subarr.
Qed.

Lemma wr32_is_bytes d off x : is_bytes d → is_bytes (wr32 d off x).
Proof. intros. apply Forall_inserts; [done|apply le_bytes_is_bytes]. Qed.
Lemma wr16_is_bytes d off x : is_bytes d → is_bytes (wr16 d off x).
Proof. intros. apply Forall_inserts; [done|apply le_bytes_is_bytes]. Qed.

Create HintDb kernel.
#[export] Hint Resolve awake_ret awake_panic awake_gets awake_modify awake_bind : kernel.
#[export] Hint Resolve u8_range u16_range u32_range s32_range : kernel.
#[export] Hint Resolve le_bytes_is_bytes wr32_is_bytes wr16_is_bytes : kernel.
Create Rewrite HintDb kernel_len.
#[export] Hint Rewrite @length_inserts @length_replicate length_le_bytes
  length_wr16 length_wr32 @length_insert @length_app : kernel_len.

(** ** Loops over a list of indices *)
Fixpoint for_each {S A} (l : list A) (f : A → M S unit) : M S unit :=
  match l with
  | [] => ret tt
  | x :: l => do! f x in for_each l f
  end.

Lemma awake_for_each {S A} (l : list A) (f : A → M S unit) : (∀ x, awake (f x)) → awake (for_each l f).
Proof. intros Hf. induction l; simpl; [done|]. by apply awake_bind. Qed.

Lemma for_each_app {S A} (l1 l2 : list A) (f : A → M S unit) s :
  for_each (l1 ++ l2) f s = bind (for_each l1 f) (λ _, for_each l2 f) s.
Proof.
  revert s; induction l1 as [|x l1 IH]; intros s; simpl; [done|].
  rewrite bind_assoc. unfold bind. destruct (f x s); auto.
Qed.

(** A loop whose every iteration keeps an invariant indexed by what is done. *)
Lemma for_each_inv {S A} (f : A → M S unit) (I : list A → S → Prop) l s :
  I [] s →
  (∀ done x rest s, l = done ++ x :: rest → I done s →
     ∃ s', f x s = Ok tt s' ∧ I (done ++ [x]) s') →
  ∃ s', for_each l f s = Ok tt s' ∧ I l s'.
Proof.
  intros H0 Hstep.
  cut (∀ rest done s, l = done ++ rest → I done s →
         ∃ s', for_each rest f s = Ok tt s' ∧ I l s').
  { intros H. by apply (H l []). }
  induction rest as [|x rest IH]; intros done s' Hl HI; simpl.
  - exists s'. split; [done|]. by rewrite Hl, app_nil_r.
  - destruct (Hstep done x rest s' Hl HI) as (s1 & Hf & HI1).
    erewrite bind_Ok by exact Hf. apply IH with (done := done ++ [x]); [|done].
    by rewrite Hl, <- app_assoc.
Qed.

(** [for(i = 0; i < n; i++)] with an invariant indexed by [i]. *)
Lemma for_seq_inv {S} (f : nat → M S unit) (I : nat → S → Prop) n s :
  I O s →
  (∀ i s, (i < n)%nat → I i s → ∃ s', f i s = Ok tt s' ∧ I (Datatypes.S i) s') →
  ∃ s', for_each (seq 0 n) f s = Ok tt s' ∧ I n s'.
Proof.
  intros H0 Hstep.
  destruct (for_each_inv f (λ l s, I (length l) s) (seq 0 n) s H0) as (s' & R & HI).
  - intros l1 i l2 s1 Hseq HI.
    assert (seq 0 n !! length l1 = Some i) as Hi by (rewrite Hseq; by rewrite list_lookup_middle).
    apply lookup_seq in Hi as [-> Hlt]. rewrite length_app, Nat.add_1_r. by apply Hstep.
  - exists s'. by rewrite length_seq in HI.
Qed.

Lemma elem_of_prefix {A} (l : list A) k x : x ∈ take k l → x ∈ l.
Proof. intros H. rewrite <- (take_drop k l). set_solver. Qed.

(** A loop that stops at the first turn with a result. *)
Fixpoint first_some {S A B} (l : list A) (f : A → M S (option B)) : M S (option B) :=
  match l with
  | [] => ret None
  | x :: l =>
      let! r := f x in
      match r with
      | Some y => ret (Some y)
      | None => first_some l f
      end
  end.
