(* ===== verification/Str.v ===== *)
(** * Strings and memory blocks: string.c (kernel) and ulib.c (user library)

    Routines that write through possibly overlapping pointers ([memset],
    [memmove]) act on a flat byte memory.  Routines that only read take a
    reader [nat → Z] for each pointer argument, [p i] being the byte [p[i]].
    The string copies, which the callers use on disjoint objects only, return
    the bytes they store from the destination pointer on. *)
From S2P Require Import Prelude.

(** ** Byte memory *)

Definition mem : Type := Z → Z.
Definition st8 (m : mem) (a v : Z) : mem := λ x, if x =? a then v else m x.

(** Two memories are the same when they agree at every address. *)
#[global] Instance mem_equiv : Equiv mem := λ m m', ∀ a, m a = m' a.
#[global] Instance mem_equivalence : Equivalence (≡@{mem}).
Proof.
  split.
  - by intros m a.
  - intros m m' H a. by rewrite H.
  - intros m1 m2 m3 H1 H2 a. by rewrite H1, H2.
Qed.
#[global] Instance st8_proper : Proper ((≡) ==> (=) ==> (=) ==> (≡)) st8.
Proof. intros m m' H a ? <- v ? <- x. unfold st8. by rewrite H. Qed.

(** The effect a block copy should have, overlap or not. *)
Definition blit (m : mem) (dst src n : Z) : mem := λ a,
  if (dst <=? a) && (a <? dst + n) then m (src + (a - dst)) else m a.

(** ** x86 string stores (x86.h) and the kernel's [memset] *)

Fixpoint stosb_loop (m : mem) (a data : Z) (cnt : nat) : mem :=
  match cnt with
  | O => m
  | S c => stosb_loop (st8 m a (u8 data)) (a + 1) data c
  end.
Definition stosb (m : mem) (a data cnt : Z) : mem := stosb_loop m a data (Z.to_nat cnt).

Definition st32 (m : mem) (a v : Z) : mem :=
  st8 (st8 (st8 (st8 m a (u8 v)) (a + 1) (u8 (Z.shiftr v 8)))
           (a + 2) (u8 (Z.shiftr v 16))) (a + 3) (u8 (Z.shiftr v 24)).
Fixpoint stosl_loop (m : mem) (a data : Z) (cnt : nat) : mem :=
  match cnt with
  | O => m
  | S c => stosl_loop (st32 m a data) (a + 4) data c
  end.
Definition stosl (m : mem) (a data cnt : Z) : mem := stosl_loop m a data (Z.to_nat cnt).

Definition memset (m : mem) (dst c n : Z) : mem :=
  if (dst `mod` 4 =? 0) && (n `mod` 4 =? 0) then
    let c := Z.land c 0xFF in
    stosl m dst (Z.lor (Z.lor (Z.lor (Z.shiftl c 24) (Z.shiftl c 16)) (Z.shiftl c 8)) c)
          (n / 4)
  else stosb m dst c n.

(** ** [memmove] of string.c and of ulib.c *)

Fixpoint copy_up (m : mem) (d s : Z) (n : nat) : mem :=
  match n with
  | O => m
  | S n => copy_up (st8 m d (m s)) (d + 1) (s + 1) n
  end.

Fixpoint copy_down (m : mem) (d s : Z) (n : nat) : mem :=
  match n with
  | O => m
  | S n => let d := d - 1 in let s := s - 1 in copy_down (st8 m d (m s)) d s n
  end.

Definition memmove (m : mem) (dst src n : Z) : mem :=
  if (src <? dst) && (dst <? src + n) then
    copy_down m (dst + n) (src + n) (Z.to_nat n)
  else copy_up m dst src (Z.to_nat n).

Definition memcpy (m : mem) (dst src n : Z) : mem := memmove m dst src n.

(** The user library's version has no backward branch; [n] is an [int]. *)
Definition ulib_memmove (m : mem) (vdst vsrc n : Z) : mem :=
  copy_up m vdst vsrc (Z.to_nat n).

(** ** Readers *)

(** The reader of a C string held in a list: the terminating NUL follows. *)
Definition cstr (l : list Z) : nat → Z := λ i, nth i l 0.

Fixpoint memcmp_from (s1 s2 : nat → Z) (i n : nat) : Z :=
  match n with
  | O => 0
  | S n => if negb (s1 i =? s2 i) then s1 i - s2 i else memcmp_from s1 s2 (S i) n
  end.
Definition memcmp (s1 s2 : nat → Z) (n : nat) : Z := memcmp_from s1 s2 0 n.

Fixpoint strncmp_from (p q : nat → Z) (i n : nat) : Z :=
  match n with
  | O => 0
  | S n =>
      if truthy (p i) && (p i =? q i) then strncmp_from p q (S i) n
      else u8 (p i) - u8 (q i)
  end.
Definition strncmp (p q : nat → Z) (n : nat) : Z := strncmp_from p q 0 n.

(** [strlen] and the user library's unbounded string functions scan for a NUL;
    the fuel bounds the scan. *)
Fixpoint strlen_from (s : nat → Z) (n fuel : nat) : option nat :=
  match fuel with
  | O => None
  | S fuel => if truthy (s n) then strlen_from s (S n) fuel else Some n
  end.
Definition strlen (s : nat → Z) (fuel : nat) : option nat := strlen_from s 0 fuel.

Fixpoint strcmp_from (p q : nat → Z) (i fuel : nat) : option Z :=
  match fuel with
  | O => None
  | S fuel =>
      if truthy (p i) && (p i =? q i) then strcmp_from p q (S i) fuel
      else Some (u8 (p i) - u8 (q i))
  end.
Definition strcmp (p q : nat → Z) (fuel : nat) : option Z := strcmp_from p q 0 fuel.

(** [strchr s c]: [Some (Some i)] when the result points at [s + i],
    [Some None] for the null pointer. *)
Fixpoint strchr_from (s : nat → Z) (c : Z) (i fuel : nat) : option (option nat) :=
  match fuel with
  | O => None
  | S fuel =>
      if truthy (s i) then
        if s i =? c then Some (Some i) else strchr_from s c (S i) fuel
      else Some None
  end.
Definition strchr (s : nat → Z) (c : Z) (fuel : nat) : option (option nat) :=
  strchr_from s c 0 fuel.

(** ['0'] is 48 and ['9'] is 57; [n] is an [int]. *)
Fixpoint atoi_from (s : nat → Z) (i : nat) (n : Z) (fuel : nat) : option Z :=
  match fuel with
  | O => None
  | S fuel =>
      if (48 <=? s i) && (s i <=? 57)
      then atoi_from s (S i) (s32 (n * 10 + s i - 48)) fuel
      else Some n
  end.
Definition atoi (s : nat → Z) (fuel : nat) : option Z := atoi_from s 0 0 fuel.

(** ** Bounded string copies: the bytes stored *)

Fixpoint strncpy_from (t : nat → Z) (i n : nat) : list Z :=
  match n with
  | O => []
  | S n => t i :: (if truthy (t i) then strncpy_from t (S i) n else replicate n 0)
  end.
Definition strncpy (t : nat → Z) (n : Z) : list Z := strncpy_from t 0 (Z.to_nat n).

(** The loop body of [safestrcpy]; [n] counts the iterations [--n > 0] allows. *)
Fixpoint safestrcpy_from (t : nat → Z) (i n : nat) : list Z :=
  match n with
  | O => [0]
  | S n => t i :: (if truthy (t i) then safestrcpy_from t (S i) n else [0])
  end.
Definition safestrcpy (t : nat → Z) (n : Z) : list Z :=
  if n <=? 0 then [] else safestrcpy_from t 0 (Z.to_nat (n - 1)).

Fixpoint strcpy_from (t : nat → Z) (i fuel : nat) : option (list Z) :=
  match fuel with
  | O => None
  | S fuel =>
      if truthy (t i) then cons (t i) <$> strcpy_from t (S i) fuel else Some [0]
  end.
Definition strcpy (t : nat → Z) (fuel : nat) : option (list Z) := strcpy_from t 0 fuel.

(** ** What the routines compute *)

(** The characters of a string before its NUL, at most [n] of them. *)
Fixpoint cprefix_from (p : nat → Z) (i n : nat) : list Z :=
  match n with
  | O => []
  | S n => if truthy (p i) then p i :: cprefix_from p (S i) n else []
  end.
Definition cprefix (p : nat → Z) (n : nat) : list Z := cprefix_from p 0 n.

Lemma truthy_false x : truthy x = false ↔ x = 0.
Proof. unfold truthy. destruct (Z.eqb_spec x 0); simpl; split; congruence. Qed.
Lemma truthy_true x : truthy x = true ↔ x ≠ 0.
Proof. unfold truthy. destruct (Z.eqb_spec x 0); simpl; split; congruence. Qed.

Ltac break_if :=
  match goal with
  | |- context [if ?b then _ else _] => destruct b eqn:?
  end.

Ltac bool_to_prop :=
  repeat match goal with
  | H : truthy _ = true |- _ => apply truthy_true in H
  | H : truthy _ = false |- _ => apply truthy_false in H
  | H : (_ && _) = true |- _ => apply andb_true_iff in H; destruct H
  | H : (_ && _) = false |- _ => apply andb_false_iff in H
  | H : negb _ = true |- _ => apply negb_true_iff in H
  | H : negb _ = false |- _ => apply negb_false_iff in H
  | H : (_ =? _) = true |- _ => apply Z.eqb_eq in H
  | H : (_ =? _) = false |- _ => apply Z.eqb_neq in H
  | H : (_ <? _) = true |- _ => apply Z.ltb_lt in H
  | H : (_ <? _) = false |- _ => apply Z.ltb_ge in H
  | H : (_ <=? _) = true |- _ => apply Z.leb_le in H
  | H : (_ <=? _) = false |- _ => apply Z.leb_gt in H
  end.

(** Decide every boolean comparison in the goal, then finish arithmetic. *)
Ltac zcases :=
  repeat match goal with
  | |- context [?x =? ?y] => destruct (Z.eqb_spec x y); simpl
  | |- context [?x <=? ?y] => destruct (Z.leb_spec x y); simpl
  | |- context [?x <? ?y] => destruct (Z.ltb_spec x y); simpl
  end.

Section blocks.
Implicit Types m : mem.

Lemma copy_up_spec m d s (n : nat) a :
  d ≤ s ∨ s + n ≤ d →
  copy_up m d s n a = blit m d s n a.
Proof.
  revert m d s; induction n as [|n IH]; intros m d s Hd; simpl.
  - unfold blit. zcases; (done || lia).
  - rewrite IH by lia. unfold blit, st8. zcases; try (done || lia); f_equal; lia.
Qed.

Lemma copy_down_spec m d s (n : nat) a :
  s < d →
  copy_down m (d + n) (s + n) n a = blit m d s n a.
Proof.
  revert m; induction n as [|n IH]; intros m Hd; simpl copy_down.
  - unfold blit. zcases; (done || lia).
  - replace (d + S n - 1) with (d + n) by lia.
    replace (s + S n - 1) with (s + n) by lia.
    rewrite IH by lia. unfold blit, st8. zcases; try (done || lia); f_equal; lia.
Qed.

Lemma stosb_loop_spec m a data (cnt : nat) x :
  stosb_loop m a data cnt x =
  if (a <=? x) && (x <? a + cnt) then u8 data else m x.
Proof.
  revert m a; induction cnt as [|c IH]; intros m a; simpl stosb_loop.
  - zcases; (done || lia).
  - rewrite IH. unfold st8. zcases; (done || lia).
Qed.

Lemma stosl_loop_spec m a data (cnt : nat) x :
  stosl_loop m a data cnt x =
  if (a <=? x) && (x <? a + 4 * cnt)
  then u8 (Z.shiftr data (8 * ((x - a) `mod` 4))) else m x.
Proof.
  revert m a; induction cnt as [|c IH]; intros m a; simpl stosl_loop.
  - zcases; (done || lia).
  - rewrite IH. replace (x - (a + 4)) with (x - a + (-1) * 4) by lia.
    rewrite Z.mod_add by lia. unfold st32, st8.
    destruct (decide (a ≤ x < a + 4)) as [Hx|Hx].
    + rewrite (Z.mod_small (x - a)) by lia.
      assert (x = a + 3 ∨ x = a + 2 ∨ x = a + 1 ∨ x = a + 0) as Hc by lia.
      destruct Hc as [->|[->|[->| ->]]]; rewrite Z.add_simpl_l; zcases; try lia; try done.
    + zcases; (done || lia).
Qed.

(** The word [memset] hands to [stosl] repeats its low byte four times. *)
Lemma memset_word_byte c i :
  0 ≤ i < 4 → let b := Z.land c 0xFF in
  u8 (Z.shiftr (Z.lor (Z.lor (Z.lor (Z.shiftl b 24) (Z.shiftl b 16)) (Z.shiftl b 8)) b)
        (8 * i)) = u8 c.
Proof.
  intros Hi b. unfold u8, b. change 0xFF with (Z.ones 8).
  rewrite <- !Z.land_ones by lia.
  apply Z.bits_inj'; intros k Hk. rewrite !Z.land_spec.
  destruct (decide (k < 8)) as [Hk8|Hk8].
  - rewrite Z.ones_spec_low by lia. rewrite !andb_true_r.
    rewrite Z.shiftr_spec by lia. rewrite !Z.lor_spec, !Z.shiftl_spec by lia.
    rewrite !Z.land_spec.
    assert (i = 0 ∨ i = 1 ∨ i = 2 ∨ i = 3) as [->|[->|[->| ->]]] by lia.
    all: repeat match goal with
      | |- context [Z.testbit (Z.ones 8) ?e] =>
          first [rewrite (Z.ones_spec_low 8 e) by lia
                |rewrite (Z.ones_spec_high 8 e) by lia
                |rewrite (Z.testbit_neg_r (Z.ones 8) e) by lia]
      end.
    all: rewrite ?andb_false_r, ?andb_true_r, ?orb_false_r; simpl; try done.
    all: f_equal; lia.
  - rewrite Z.ones_spec_high by lia. by rewrite !andb_false_r.
Qed.
End blocks.

(** The kernel's [memmove] copies [n] bytes as if through a temporary, for
    every overlap of source and destination, and changes nothing else. *)
Lemma memmove_correct (m : mem) (dst src n : Z) :
  0 ≤ n → memmove m dst src n ≡ blit m dst src n.
Proof.
  intros Hn a. destruct (Z_of_nat_complete n Hn) as [k ->].
  unfold memmove. rewrite Nat2Z.id.
  destruct (Z.ltb_spec src dst), (Z.ltb_spec dst (src + k)); simpl;
    first [apply copy_down_spec; lia | apply copy_up_spec; lia].
Qed.

Lemma memmove_correct_witness :
  memmove (λ a, a) 2 0 4 ≡ blit (λ a, a) 2 0 4.
Proof. apply (memmove_correct (λ a, a) 2 0 4). lia. Defined.

(** The user library's forward-only copy agrees with [memmove] as long as the
    destination does not start inside the source. *)
Lemma ulib_memmove_correct (m : mem) (dst src n : Z) :
  0 ≤ n → dst ≤ src ∨ src + n ≤ dst → ulib_memmove m dst src n ≡ blit m dst src n.
Proof.
  intros Hn Hd a. destruct (Z_of_nat_complete n Hn) as [k ->].
  unfold ulib_memmove. rewrite Nat2Z.id. by apply copy_up_spec.
Qed.

(** With the destination inside the source it is not a [memmove]. *)
Lemma ulib_memmove_overlap :
  ulib_memmove (λ a, a) 1 0 2 2 ≠ blit (λ a, a) 1 0 2 2.
Proof. vm_compute. done. Qed.

(** [memset] stores the low byte of [c] in [n] bytes, on the word path (aligned
    destination and length) and on the byte path alike. *)
Lemma memset_correct (m : mem) (dst c n a : Z) :
  0 ≤ n →
  memset m dst c n a = if (dst <=? a) && (a <? dst + n) then u8 c else m a.
Proof.
  intros Hn. unfold memset.
  destruct (Z.eqb_spec (dst `mod` 4) 0), (Z.eqb_spec (n `mod` 4) 0); simpl.
  2-4: unfold stosb; rewrite stosb_loop_spec; by rewrite Z2Nat.id.
  unfold stosl. rewrite stosl_loop_spec.
  pose proof (Z.div_mod n 4). pose proof (Z.div_pos n 4).
  rewrite Z2Nat.id by lia. replace (4 * (n / 4)) with n by lia.
  rewrite (memset_word_byte c ((a - dst) `mod` 4)); [done|].
  apply Z.mod_pos_bound. lia.
Qed.

(** ** Comparisons *)

Section compare.
Implicit Types p q : nat → Z.

Lemma strncmp_from_zero p q i n :
  (∀ j, is_u8 (p j)) → (∀ j, is_u8 (q j)) →
  strncmp_from p q i n = 0 ↔ cprefix_from p i n = cprefix_from q i n.
Proof.
  intros Hp Hq. revert i; induction n as [|n IH]; intros i; simpl; [done|].
  pose proof (Hp i). pose proof (Hq i).
  rewrite (u8_small (p i)), (u8_small (q i)) by done.
  destruct (Z.eqb_spec (p i) (q i)) as [Heq|Hne].
  - rewrite <- Heq. destruct (truthy (p i)) eqn:Ht; simpl.
    + rewrite IH. split; [by intros ->|congruence].
    + split; [done|lia].
  - rewrite andb_false_r. split; [lia|].
    destruct (truthy (p i)) eqn:Hp0, (truthy (q i)) eqn:Hq0; bool_to_prop; congruence.
Qed.

Lemma memcmp_from_zero p q i n :
  memcmp_from p q i n = 0 ↔ ∀ j, (i ≤ j < i + n)%nat → p j = q j.
Proof.
  revert i; induction n as [|n IH]; intros i; simpl; [split; [lia|done]|].
  destruct (Z.eqb_spec (p i) (q i)) as [Heq|Hne]; simpl.
  - rewrite IH. split; intros H j Hj; [|apply H; lia].
    destruct (decide (j = i)) as [->|]; [done|apply H; lia].
  - split; [lia|]. intros H. destruct Hne. apply H. lia.
Qed.

Lemma strlen_from_spec p i fuel k :
  strlen_from p i fuel = Some k ↔
  (i ≤ k < i + fuel)%nat ∧ p k = 0 ∧ ∀ j, (i ≤ j < k)%nat → p j ≠ 0.
Proof.
  revert i; induction fuel as [|fuel IH]; intros i; simpl; [split; [done|lia]|].
  destruct (truthy (p i)) eqn:Ht; bool_to_prop.
  - rewrite IH. split; intros (H1 & H2 & H3).
    + split; [lia|]. split; [done|]. intros j Hj.
      destruct (decide (j = i)) as [->|]; [done|apply H3; lia].
    + destruct (decide (k = i)) as [->|]; [done|].
      split; [lia|]. split; [done|]. intros j Hj. apply H3. lia.
  - split.
    + intros [= <-]. split; [lia|]. split; [done|]. lia.
    + intros (H1 & H2 & H3). f_equal. destruct (decide (k = i)); [done|].
      exfalso. apply (H3 i); [lia|done].
Qed.

Lemma cprefix_from_nonzero p i n : Forall (λ x, x ≠ 0) (cprefix_from p i n).
Proof.
  revert i; induction n as [|n IH]; intros i; simpl; [constructor|].
  destruct (truthy (p i)) eqn:Ht; bool_to_prop; constructor; [done|apply IH].
Qed.

Lemma length_cprefix_from p i n : (length (cprefix_from p i n) ≤ n)%nat.
Proof.
  revert i; induction n as [|n IH]; intros i; simpl; [lia|].
  destruct (truthy (p i)); simpl; [|lia]. specialize (IH (S i)). lia.
Qed.
End compare.

(** ** Scanning for a character and reading a string back *)

Lemma strchr_from_found s c i n fuel :
  (∀ k : nat, (k < n)%nat → s (i + k)%nat ≠ 0 ∧ s (i + k)%nat ≠ c) → (n < fuel)%nat →
  s (i + n)%nat = 0 ∨ s (i + n)%nat = c →
  strchr_from s c i fuel = if truthy (s (i + n)%nat) then Some (Some (i + n)%nat) else Some None.
Proof.
  revert i fuel. induction n as [|n IH]; intros i fuel Hk Hf Hn; (destruct fuel as [|fuel]; [lia|]); cbn [strchr_from].
  - rewrite Nat.add_0_r in *. destruct (truthy (s i)) eqn:Ht; [|done]. bool_to_prop.
    destruct Hn as [Hn| ->]; [done|]. by rewrite Z.eqb_refl.
  - destruct (Hk 0%nat ltac:(lia)) as [H0 Hc]. rewrite Nat.add_0_r in H0, Hc.
    rewrite (proj2 (truthy_true _) H0), (proj2 (Z.eqb_neq _ _) Hc), Nat.add_succ_r.
    apply IH; [|lia|by rewrite Nat.add_succ_r in Hn]. intros k Hk'. specialize (Hk (S k) ltac:(lia)).
    by rewrite Nat.add_succ_r in Hk.
Qed.

Lemma cprefix_from_holds s l i n :
  0 ∉ l → (∀ k : nat, (k ≤ length l)%nat → s (i + k)%nat = cstr l k) → (length l < n)%nat →
  cprefix_from s i n = l.
Proof.
  revert i n. induction l as [|x l IH]; intros i n H0 Hs Hn; (destruct n as [|n]; [simpl in Hn; lia|]); cbn [cprefix_from].
  - pose proof (Hs 0%nat ltac:(simpl; lia)) as E. rewrite Nat.add_0_r in E. by rewrite E.
  - apply not_elem_of_cons in H0 as [Hx H0]. pose proof (Hs 0%nat ltac:(simpl; lia)) as E.
    rewrite Nat.add_0_r in E. rewrite E. change (cstr (x :: l) 0) with x.
    rewrite (proj2 (truthy_true x)) by congruence. f_equal. apply IH; [done| |simpl in Hn; lia].
    intros k Hk. specialize (Hs (S k) ltac:(simpl; lia)). by rewrite Nat.add_succ_r in Hs.
Qed.

Lemma cstr_ne l (k : nat) x : (k < length l)%nat → x ∉ l → cstr l k ≠ x.
Proof. intros Hk Hx <-. apply Hx. unfold cstr. apply list_elem_of_In, nth_In, Hk. Qed.

(** [strncmp] is zero exactly when the two strings have the same characters up
    to their NUL, [n] characters at most. *)
Lemma strncmp_zero p q n :
  (∀ j, is_u8 (p j)) → (∀ j, is_u8 (q j)) →
  strncmp p q n = 0 ↔ cprefix p n = cprefix q n.
Proof. apply strncmp_from_zero. Qed.

(** ** Bounded copies *)

Lemma strncpy_from_spec t i n :
  strncpy_from t i n =
  cprefix_from t i n ++ replicate (n - length (cprefix_from t i n)) 0.
Proof.
  revert i; induction n as [|n IH]; intros i; simpl; [done|].
  destruct (truthy (t i)) eqn:Ht; simpl; [by rewrite IH|].
  bool_to_prop. by rewrite Ht.
Qed.

(** [strncpy] stores exactly [n] bytes: the string, cut at [n], then zeros. *)
Lemma strncpy_correct t (n : nat) :
  strncpy t n = cprefix t n ++ replicate (n - length (cprefix t n)) 0.
Proof. unfold strncpy. rewrite Nat2Z.id. apply strncpy_from_spec. Qed.

Lemma length_strncpy t (n : nat) : length (strncpy t n) = n.
Proof.
  rewrite strncpy_correct, length_app, length_replicate.
  pose proof (length_cprefix_from t 0 n). unfold cprefix. lia.
Qed.

Lemma safestrcpy_from_spec t i n :
  ∃ k, safestrcpy_from t i n = cprefix_from t i n ++ replicate (S k) 0 ∧
       (length (cprefix_from t i n) + S k ≤ S n)%nat.
Proof.
  revert i; induction n as [|n IH]; intros i; simpl; [by exists O|].
  destruct (truthy (t i)) eqn:Ht; simpl.
  - destruct (IH (S i)) as (k & -> & Hk). exists k. split; [done|lia].
  - bool_to_prop. exists 1%nat. rewrite Ht. split; [done|lia].
Qed.

(** [safestrcpy] stores at most [n] bytes and the result is always
    NUL-terminated: the string cut at [n - 1] characters, then at least one
    NUL. *)
Lemma safestrcpy_correct t n :
  0 < n →
  ∃ k, safestrcpy t n = cprefix t (Z.to_nat (n - 1)) ++ replicate (S k) 0 ∧
       length (safestrcpy t n) ≤ n.
Proof.
  intros Hn. unfold safestrcpy. destruct (Z.leb_spec n 0); [lia|].
  destruct (safestrcpy_from_spec t 0 (Z.to_nat (n - 1))) as (k & Heq & Hk).
  exists k. split; [exact Heq|]. rewrite Heq, length_app, length_replicate. lia.
Qed.

(** Reading back the list form of a string. *)
Lemma cstr_u8 l j : is_bytes l → is_u8 (cstr l j).
Proof.
  intros H. unfold cstr. destruct (nth_lookup_or_length l j 0) as [Hj|Hj].
  - eapply Forall_lookup in Hj; [|exact H]. done.
  - rewrite nth_overflow by done. unfold is_u8. lia.
Qed.
