(* ===== verification/Spinlock.v ===== *)
(** * Spin locks: spinlock.c

    The sequential part translates the code as CPU [me] runs it, on its own
    [struct cpu] and on one [struct spinlock].  The concurrent part lets any
    number of CPUs interleave the atomic sub-steps of [acquire] and [release]
    on a shared lock and proves mutual exclusion by rule induction. *)
From S2P Require Import Prelude Str.

(** ** State *)

(** The fields of [struct cpu] (proc.h) the locks use, with the interrupt flag
    [FL_IF] of the CPU's eflags register. *)
Record cpu := mkCpu { ncli : Z; intena : bool; fl_if : bool }.

(** [struct spinlock]; [lk_cpu] is the [cpu] pointer, [None] for null. *)
Record spinlock := mkSpin { locked : Z; lk_cpu : option nat; pcs : list Z }.

Record sst := mkSst { this : cpu; lk : spinlock }.
Definition set_this (c : cpu) (s : sst) : sst := mkSst c (lk s).
Definition set_lk (l : spinlock) (s : sst) : sst := mkSst (this s) l.

Lemma lk_set_this c s : lk (set_this c s) = lk s.
Proof. done. Qed.

Definition initlock : spinlock := mkSpin 0 None (replicate 10 0).

(** ** Interrupt nesting *)

Section ops.
Context (me : nat).

Definition cli : M sst unit :=
  modify (λ s, set_this (mkCpu (ncli (this s)) (intena (this s)) false) s).
Definition sti : M sst unit :=
  modify (λ s, set_this (mkCpu (ncli (this s)) (intena (this s)) true) s).
Definition readeflags_if : M sst bool := gets (λ s, fl_if (this s)).

Definition pushcli : M sst unit :=
  let! eflags := readeflags_if in
  do! cli in
  let! s := get in
  do! (if ncli (this s) =? 0
       then modify (λ s, set_this (mkCpu (ncli (this s)) eflags (fl_if (this s))) s)
       else ret tt) in
  modify (λ s, set_this (mkCpu (ncli (this s) + 1) (intena (this s)) (fl_if (this s))) s).

Definition popcli : M sst unit :=
  let! fl := readeflags_if in
  if fl then panic "popcli - interruptible" else
  do! modify (λ s, set_this (mkCpu (ncli (this s) - 1) (intena (this s)) (fl_if (this s))) s) in
  let! s := get in
  if ncli (this s) <? 0 then panic "popcli" else
  if (ncli (this s) =? 0) && intena (this s) then sti else ret tt.

(** ** The lock operations *)

Definition holding : M sst bool :=
  do! pushcli in
  let! s := get in
  let r := truthy (locked (lk s)) && bool_decide (lk_cpu (lk s) = Some me) in
  do! popcli in
  ret r.

(** [xchg(&lk->locked, v)]: one atomic instruction. *)
Definition xchg_locked (v : Z) (l : spinlock) : Z * spinlock :=
  (locked l, mkSpin v (lk_cpu l) (pcs l)).
Definition record_owner (stack : list Z) (l : spinlock) : spinlock :=
  mkSpin (locked l) (Some me) stack.
Definition clear_owner (l : spinlock) : spinlock :=
  mkSpin (locked l) None (<[0%nat := 0]> (pcs l)).
Definition store_unlocked (l : spinlock) : spinlock :=
  mkSpin 0 (lk_cpu l) (pcs l).

(** [while(xchg(&lk->locked, 1) != 0) ;] *)
Fixpoint spin (fuel : nat) : M sst unit :=
  match fuel with
  | O => λ _, Fuel
  | S fuel =>
      let! s := get in
      let (old, l) := xchg_locked 1 (lk s) in
      do! modify (set_lk l) in
      if truthy old then spin fuel else ret tt
  end.

Definition acquire (stack : list Z) (fuel : nat) : M sst unit :=
  do! pushcli in
  let! h := holding in
  if h then panic "acquire" else
  do! spin fuel in
  modify (λ s, set_lk (record_owner stack (lk s)) s).

Definition release : M sst unit :=
  let! h := holding in
  if negb h then panic "release" else
  do! modify (λ s, set_lk (clear_owner (lk s)) s) in
  do! modify (λ s, set_lk (store_unlocked (lk s)) s) in
  popcli.
End ops.

(** [getcallerpcs]: follow the saved frame pointers from [v - 8]; [rd] reads a
    word of kernel memory.  Ten slots are always filled. *)
Definition KERNBASE : Z := 0x80000000.
Fixpoint getcallerpcs_loop (rd : Z → Z) (ebp : Z) (n : nat) : list Z :=
  match n with
  | O => []
  | S n =>
      if (ebp =? 0) || (ebp <? KERNBASE) || (ebp =? 0xffffffff) then replicate (S n) 0
      else rd (u32 (ebp + 4)) :: getcallerpcs_loop rd (rd ebp) n
  end.
Definition getcallerpcs (rd : Z → Z) (v : Z) : list Z :=
  getcallerpcs_loop rd (u32 (v - 8)) 10.

Lemma length_getcallerpcs rd v : length (getcallerpcs rd v) = 10%nat.
Proof.
  unfold getcallerpcs. generalize (u32 (v - 8)). generalize 10%nat.
  induction n as [|n IH]; intros ebp; simpl; [done|].
  destruct (_ || _ || _); simpl; [by rewrite length_replicate|by rewrite IH].
Qed.

(** ** Nesting of pushcli and popcli *)

(** Interrupts are off whenever the nesting depth is positive. *)
Definition cpu_wf (c : cpu) : Prop := 0 ≤ ncli c ∧ (0 < ncli c → fl_if c = false).

Lemma pushcli_run s :
  pushcli s = Ok tt (set_this (mkCpu (ncli (this s) + 1)
                (if ncli (this s) =? 0 then fl_if (this s) else intena (this s)) false) s).
Proof. unfold pushcli. cbn. by destruct (ncli (this s) =? 0). Qed.

Lemma popcli_run s :
  fl_if (this s) = false → 0 < ncli (this s) →
  popcli s = Ok tt (set_this (mkCpu (ncli (this s) - 1) (intena (this s))
                ((ncli (this s) =? 1) && intena (this s))) s).
Proof.
  intros Hif Hn. unfold popcli. cbn. rewrite Hif. cbn.
  replace (ncli (this s) - 1 =? 0) with (ncli (this s) =? 1) by (zcases; (done || lia)).
  destruct (Z.ltb_spec (ncli (this s) - 1) 0); [lia|].
  destruct (Z.eqb_spec (ncli (this s)) 1); simpl; unfold sti, ret, modify;
    rewrite ?Hif; [|done].
  by destruct (intena (this s)); simpl; rewrite ?Hif.
Qed.

Inductive cli_op := Push | Pop.
Definition run_cli_op (o : cli_op) : M sst unit :=
  match o with Push => pushcli | Pop => popcli end.
Fixpoint run_cli (l : list cli_op) : M sst unit :=
  match l with
  | [] => ret tt
  | o :: l => do! run_cli_op o in run_cli l
  end.

Inductive balanced : list cli_op → Prop :=
| bal_nil : balanced []
| bal_nest l : balanced l → balanced (Push :: l ++ [Pop])
| bal_app l1 l2 : balanced l1 → balanced l2 → balanced (l1 ++ l2).

Lemma run_cli_app l1 l2 s s' :
  run_cli l1 s = Ok tt s' → run_cli (l1 ++ l2) s = run_cli l2 s'.
Proof.
  revert s; induction l1 as [|o l1 IH]; intros s; simpl.
  - by intros [= ->].
  - intros ([] & s1 & H1 & H2)%bind_Ok_inv. erewrite bind_Ok by exact H1. by apply IH.
Qed.

(** Inside a nested section the whole state is restored, [intena] included. *)
Lemma run_balanced_nested l s :
  balanced l → 0 < ncli (this s) → fl_if (this s) = false → run_cli l s = Ok tt s.
Proof.
  intros Hb. revert s; induction Hb as [|l _ IH|l1 l2 _ IH1 _ IH2]; intros s Hn Hif.
  - done.
  - simpl. erewrite bind_Ok by apply pushcli_run.
    erewrite run_cli_app; [|apply IH; simpl; [lia|done]].
    simpl. erewrite bind_Ok; [|apply popcli_run; simpl; [done|lia]].
    unfold ret. f_equal. destruct s as [[n i f] l']; simpl in *; subst.
    unfold set_this; simpl. f_equal.
    destruct (Z.eqb_spec n 0); [lia|]. destruct (Z.eqb_spec (n + 1) 1); [lia|]. f_equal. lia.
  - erewrite run_cli_app by by apply IH1. by apply IH2.
Qed.

(** At any depth the nesting depth and the interrupt flag are restored. *)
Lemma run_balanced_outer l s :
  balanced l → cpu_wf (this s) →
  ∃ s', run_cli l s = Ok tt s' ∧ lk s' = lk s ∧
        ncli (this s') = ncli (this s) ∧ fl_if (this s') = fl_if (this s).
Proof.
  intros Hb. revert s; induction Hb as [|l Hl _|l1 l2 _ IH1 _ IH2]; intros s [Hn Hif].
  - by exists s.
  - simpl. erewrite bind_Ok by apply pushcli_run.
    erewrite run_cli_app; [|apply run_balanced_nested; simpl; [done|lia|done]].
    simpl. eexists. split.
    { erewrite bind_Ok; [done|]. apply popcli_run; simpl; [done|lia]. }
    simpl. split_and!; [done|lia|].
    destruct (Z.eqb_spec (ncli (this s)) 0) as [H0|H0], (Z.eqb_spec (ncli (this s) + 1) 1);
      simpl; try lia; [done|]. rewrite Hif by lia. done.
  - destruct (IH1 s) as (s1 & H1 & Hk1 & Hn1 & Hf1); [done|].
    destruct (IH2 s1) as (s2 & H2 & Hk2 & Hn2 & Hf2).
    { split; [lia|]. rewrite Hn1, Hf1. done. }
    exists s2. erewrite run_cli_app by done. split_and!; [done|congruence..].
Qed.

(** Pushcli and popcli are matched.  A balanced sequence of calls run on a
    CPU whose interrupts are off whenever it is nested never panics and leaves
    the nesting depth and the interrupt flag as they were (so it takes two
    popcli to undo two pushcli, and interrupts that were off stay off). *)
Lemma cli_nesting (l : list cli_op) (s : sst) :
  balanced l → cpu_wf (this s) →
  ∃ s', run_cli l s = Ok tt s' ∧ lk s' = lk s ∧
        ncli (this s') = ncli (this s) ∧ fl_if (this s') = fl_if (this s).
Proof. apply run_balanced_outer. Qed.

Lemma cli_nesting_witness :
  let s := mkSst (mkCpu 0 false true) initlock in
  ∃ s', run_cli [Push; Push; Pop; Pop] s = Ok tt s' ∧ lk s' = lk s ∧
        ncli (this s') = ncli (this s) ∧ fl_if (this s') = fl_if (this s).
Proof.
  apply (cli_nesting [Push; Push; Pop; Pop] (mkSst (mkCpu 0 false true) initlock)).
  - apply (bal_nest [Push; Pop]). apply (bal_nest []). apply bal_nil.
  - split; simpl; lia.
Defined.

(** ** acquire and release, run alone *)

Lemma holding_run me s :
  cpu_wf (this s) →
  ∃ s', holding me s =
    Ok (truthy (locked (lk s)) && bool_decide (lk_cpu (lk s) = Some me)) s' ∧
    lk s' = lk s ∧ ncli (this s') = ncli (this s) ∧ fl_if (this s') = fl_if (this s) ∧
    (0 < ncli (this s) → s' = s).
Proof.
  intros Hwf.
  destruct (run_balanced_outer [Push; Pop] s) as (s' & Hrun & Hlk & Hn & Hif);
    [apply (bal_nest []), bal_nil|done|].
  exists s'. simpl in Hrun. unfold holding.
  erewrite bind_Ok in Hrun by apply pushcli_run.
  apply bind_Ok_inv in Hrun as ([] & s1 & Hpop & [= ->]).
  erewrite bind_Ok by apply pushcli_run. cbn [bind get]. erewrite bind_Ok by exact Hpop.
  split_and!; try done.
  intros H0. assert (Ok tt s' = Ok tt s) as [= ->]; [|done].
  rewrite <- (run_balanced_nested [Push; Pop] s); [|apply (bal_nest []), bal_nil|lia|by apply Hwf].
  simpl. erewrite bind_Ok by apply pushcli_run. by erewrite bind_Ok by exact Hpop.
Qed.

(** Acquiring a free lock takes it with interrupts off. *)
Lemma acquire_run me stack fuel s :
  cpu_wf (this s) → locked (lk s) = 0 → (0 < fuel)%nat →
  acquire me stack fuel s =
    Ok tt (mkSst (mkCpu (ncli (this s) + 1)
             (if ncli (this s) =? 0 then fl_if (this s) else intena (this s)) false)
             (mkSpin 1 (Some me) stack)).
Proof.
  intros [Hn Hif] Hfree Hfuel. unfold acquire. erewrite bind_Ok by apply pushcli_run.
  destruct (holding_run me (set_this (mkCpu (ncli (this s) + 1)
    (if ncli (this s) =? 0 then fl_if (this s) else intena (this s)) false) s))
    as (s' & Hh & _ & _ & _ & Heq); [split; simpl; [lia|done]|].
  erewrite bind_Ok by exact Hh. rewrite Heq by (simpl; lia).
  rewrite lk_set_this, Hfree. cbn [truthy negb Z.eqb andb].
  destruct fuel as [|fuel]; [lia|]. simpl.
  unfold bind, get, modify; simpl. by rewrite Hfree.
Qed.

(** A CPU that already holds the lock panics instead of deadlocking on it. *)
Lemma acquire_held me stack fuel s :
  cpu_wf (this s) → locked (lk s) ≠ 0 → lk_cpu (lk s) = Some me →
  acquire me stack fuel s = Panic "acquire".
Proof.
  intros [Hn Hif] Hl Hc. unfold acquire. erewrite bind_Ok by apply pushcli_run.
  destruct (holding_run me (set_this (mkCpu (ncli (this s) + 1)
    (if ncli (this s) =? 0 then fl_if (this s) else intena (this s)) false) s))
    as (s' & Hh & _); [split; simpl; [lia|done]|].
  erewrite bind_Ok by exact Hh. simpl.
  rewrite bool_decide_eq_true_2 by done.
  replace (truthy (locked (lk s))) with true by (symmetry; by apply truthy_true). done.
Qed.

(** [release] undoes [acquire]: the lock is free again, and depth and
    interrupt flag are those from before the critical section. *)
Lemma release_run me s :
  cpu_wf (this s) → 0 < ncli (this s) → truthy (locked (lk s)) = true →
  lk_cpu (lk s) = Some me →
  release me s = Ok tt (mkSst (mkCpu (ncli (this s) - 1) (intena (this s))
                  ((ncli (this s) =? 1) && intena (this s)))
                  (mkSpin 0 None (<[0%nat := 0]> (pcs (lk s))))).
Proof.
  intros Hwf Hn Hl Hc. unfold release.
  destruct (holding_run me s Hwf) as (s' & Hh & _ & _ & _ & Heq).
  erewrite bind_Ok by exact Hh. rewrite Heq by done. rewrite Hl, Hc.
  rewrite bool_decide_eq_true_2 by done. simpl.
  rewrite !bind_modify, popcli_run; [done|simpl; by apply Hwf|simpl; lia].
Qed.

(** ** Many CPUs, one lock *)

(** Where a CPU stands with respect to the lock: outside; in the [xchg] loop;
    after a successful [xchg] but before [lk->cpu] is set; in the critical
    section; in [release] after [lk->cpu = 0] but before the unlocking store. *)
Inductive pc := Outside | Spinning | Acquired | Critical | Releasing.

Record machine := mkMachine { mlk : spinlock; mpc : list pc }.

(** One atomic step of CPU [c].  A CPU calls [acquire] only from outside and
    [release] only from the critical section; the outcome of the [holding]
    test in each is the code's own. *)
Inductive step : machine → machine → Prop :=
| step_call m c :
    mpc m !! c = Some Outside →
    truthy (locked (mlk m)) && bool_decide (lk_cpu (mlk m) = Some c) = false →
    step m (mkMachine (mlk m) (<[c := Spinning]> (mpc m)))
| step_xchg m c old l :
    mpc m !! c = Some Spinning →
    xchg_locked 1 (mlk m) = (old, l) →
    step m (mkMachine l (<[c := if truthy old then Spinning else Acquired]> (mpc m)))
| step_record m c stack :
    mpc m !! c = Some Acquired →
    step m (mkMachine (record_owner c stack (mlk m)) (<[c := Critical]> (mpc m)))
| step_clear m c :
    mpc m !! c = Some Critical →
    truthy (locked (mlk m)) && bool_decide (lk_cpu (mlk m) = Some c) = true →
    step m (mkMachine (clear_owner (mlk m)) (<[c := Releasing]> (mpc m)))
| step_unlock m c :
    mpc m !! c = Some Releasing →
    step m (mkMachine (store_unlocked (mlk m)) (<[c := Outside]> (mpc m))).

Definition init_machine (n : nat) : machine := mkMachine initlock (replicate n Outside).
Definition reachable (n : nat) : machine → Prop := rtc step (init_machine n).

(** The CPUs between a successful [xchg] and the unlocking store. *)
Definition owns (p : pc) : Prop :=
  match p with Acquired | Critical | Releasing => True | _ => False end.

(** The lock is free and nobody owns it, or exactly one CPU owns it; [lk->cpu]
    names that CPU while it is in its critical section and nobody otherwise. *)
Definition recorded (c : nat) (p : pc) : option nat :=
  match p with Critical => Some c | _ => None end.

Inductive lock_inv (m : machine) : Prop :=
| inv_free :
    locked (mlk m) = 0 → lk_cpu (mlk m) = None →
    (∀ c p, mpc m !! c = Some p → ¬ owns p) → lock_inv m
| inv_held c p :
    mpc m !! c = Some p → owns p → locked (mlk m) = 1 →
    lk_cpu (mlk m) = recorded c p →
    (∀ c' p', mpc m !! c' = Some p' → owns p' → c' = c) → lock_inv m.

Lemma lock_inv_init n : lock_inv (init_machine n).
Proof. apply inv_free; [done..|]. intros c p [-> _]%lookup_replicate. auto. Qed.

(** The position of CPU [c'] after CPU [c] moved to [p]. *)
Lemma moved_lookup (l : list pc) c p c' p' :
  <[c := p]> l !! c' = Some p' → (c' = c ∧ p' = p) ∨ (c' ≠ c ∧ l !! c' = Some p').
Proof.
  intros H. apply list_lookup_insert_Some in H as [(-> & -> & _)|[Hne H]]; auto.
Qed.

Lemma moved_self (l : list pc) c p q : l !! c = Some q → <[c := p]> l !! c = Some p.
Proof. intros H. apply list_lookup_insert_eq. by eapply lookup_lt_Some. Qed.

(** A CPU that owns nothing moves to a place that owns nothing. *)
Lemma lock_inv_stay m c q p :
  mpc m !! c = Some q → ¬ owns q → ¬ owns p → lock_inv m →
  lock_inv (mkMachine (mlk m) (<[c := p]> (mpc m))).
Proof.
  intros Hc Hq Hp [Hl Hcpu Hn|o po Ho Hown Hl Hcpu Hu].
  - apply inv_free; [done..|]. intros c' p' [[-> ->]|[_ ?]]%moved_lookup; eauto.
  - assert (o ≠ c) by congruence.
    apply (inv_held _ o po); simpl; [by rewrite list_lookup_insert_ne|done..|].
    intros c' p' [[-> ->]|[_ ?]]%moved_lookup ?; [done|eauto].
Qed.

(** The only owner moves on. *)
Lemma lock_inv_owner_move m c q p l :
  mpc m !! c = Some q → owns q → owns p →
  locked l = 1 → lk_cpu l = recorded c p → lock_inv m →
  lock_inv (mkMachine l (<[c := p]> (mpc m))).
Proof.
  intros Hc Hq Hp Hl Hcpu [_ _ Hn|o po Ho Hown _ _ Hu]; [by destruct (Hn c q)|].
  assert (c = o) as -> by eauto.
  apply (inv_held _ o p); simpl; [by eapply moved_self|done..|].
  intros c' p' [[-> ->]|[_ ?]]%moved_lookup ?; eauto.
Qed.

Lemma lock_inv_owner m c q :
  lock_inv m → mpc m !! c = Some q → owns q →
  locked (mlk m) = 1 ∧ lk_cpu (mlk m) = recorded c q.
Proof.
  intros [_ _ Hn|o po Ho Hown Hl Hcpu Hu] Hc Hq; [by destruct (Hn c q)|].
  assert (c = o) as -> by eauto. by simplify_eq.
Qed.

Lemma lock_inv_step m m' : step m m' → lock_inv m → lock_inv m'.
Proof.
  intros Hstep Hinv.
  destruct Hstep as [m c Hc Ht|m c old l Hc Hx|m c stack Hc|m c Hc Ht|m c Hc].
  - eapply lock_inv_stay; [exact Hc|auto..|done].
  - injection Hx as <- <-. destruct (truthy (locked (mlk m))) eqn:Ht; bool_to_prop.
    + destruct Hinv as [?|o po Ho Hown Hl Hcpu Hu]; [done|].
      eapply (lock_inv_stay (mkMachine _ (mpc m))); [exact Hc|auto..|].
      by apply (inv_held _ o po).
    + destruct Hinv as [Hl Hcpu Hn|]; [|congruence].
      apply (inv_held _ c Acquired); simpl; [by eapply moved_self|done..|].
      intros c' p' [[-> ->]|[_ ?]]%moved_lookup ?; [done|]. by destruct (Hn c' p').
  - destruct (lock_inv_owner _ _ _ Hinv Hc I) as [Hl _].
    eapply lock_inv_owner_move; [exact Hc|done..].
  - destruct (lock_inv_owner _ _ _ Hinv Hc I) as [Hl _].
    eapply lock_inv_owner_move; [exact Hc|done..].
  - destruct Hinv as [_ _ Hn|o po Ho Hown Hl Hcpu Hu]; [by destruct (Hn c Releasing)|].
    assert (c = o) as -> by (eapply Hu; [exact Hc|exact I]). simplify_eq.
    apply inv_free; [done..|]. simpl.
    intros c' p' [[-> ->]|[Hne H]]%moved_lookup ?; [done|]. eauto.
Qed.

Lemma lock_inv_reachable n m : reachable n m → lock_inv m.
Proof.
  intros Hr. assert (lock_inv (init_machine n)) as Hi by apply lock_inv_init.
  induction Hr as [|m1 m2 m3 Hs _ IH]; [done|]. apply IH. by eapply lock_inv_step.
Qed.

(** C35: mutual exclusion.  However the CPUs' steps interleave, at most one of
    them is between its successful [xchg] and its unlocking store, and
    [holding] tells exactly the CPU in the critical section: neither test of
    [holding] in [acquire] and [release] can fail for a CPU that follows the
    protocol, so neither of the two panics is reachable. *)
Theorem spinlock_mutual_exclusion (n : nat) (m : machine) :
  reachable n m →
  (∀ c c' p p', mpc m !! c = Some p → mpc m !! c' = Some p' → owns p → owns p' → c = c') ∧
  (∀ c p, mpc m !! c = Some p →
     (truthy (locked (mlk m)) && bool_decide (lk_cpu (mlk m) = Some c) = true ↔ p = Critical)).
Proof.
  intros Hr%lock_inv_reachable. split.
  - intros c c' p p' Hc Hc' Hp Hp'.
    destruct Hr as [_ _ Hn|o po Ho Hown Hl Hcpu Hu]; [by destruct (Hn c p)|].
    transitivity o; [|symmetry]; eauto.
  - intros c p Hc. rewrite andb_true_iff, bool_decide_eq_true.
    destruct Hr as [Hl Hcpu Hn|o po Ho Hown Hl Hcpu Hu]; rewrite Hl, Hcpu.
    + split; [by intros [[=] _]|]. intros ->. by destruct (Hn c Critical).
    + split.
      * intros [_ Heq]. destruct po; try done. injection Heq as ->. congruence.
      * intros ->. assert (c = o) as -> by (eapply Hu; [exact Hc|exact I]). by simplify_eq.
Qed.

(** A run in which CPU 1 waits in the [xchg] loop while CPU 0 holds the lock. *)
Definition contended : machine :=
  mkMachine (mkSpin 1 (Some 0%nat) (replicate 10 0)) [Critical; Spinning].

Lemma contended_reachable : reachable 2 contended.
Proof.
  eapply rtc_l. { apply (step_call _ 0); [done|]. vm_compute. done. }
  eapply rtc_l. { by apply (step_xchg _ 0 0 (mkSpin 1 None (replicate 10 0))). }
  eapply rtc_l. { apply (step_record _ 0 (replicate 10 0)). done. }
  eapply rtc_l. { apply (step_call _ 1); [done|]. vm_compute. done. }
  apply rtc_refl.
Qed.

Lemma spinlock_mutual_exclusion_witness :
  (∀ c c' p p', mpc contended !! c = Some p → mpc contended !! c' = Some p' →
     owns p → owns p' → c = c') ∧
  (∀ c p, mpc contended !! c = Some p →
     (truthy (locked (mlk contended)) && bool_decide (lk_cpu (mlk contended) = Some c) = true
      ↔ p = Critical)).
Proof. apply (spinlock_mutual_exclusion 2 contended). exact contended_reachable. Defined.
