(* ===== verification/Sleeplock.v ===== *)
(** * Sleep locks: sleeplock.c

    Every operation runs under the sleep lock's own spin lock [lk->lk]
    (Spinlock.v proves that critical sections of one spin lock exclude each
    other), so each operation is one atomic step; [sleep] gives the spin lock up
    and puts the process to sleep in the same step (proc.c acquires ptable.lock
    before releasing it). *)
From S2P Require Import Prelude Str.

Record sleeplock := mkSleep { sl_locked : Z; sl_pid : Z }.

Definition initsleeplock : sleeplock := mkSleep 0 0.

Section ops.
(** [me] is [myproc()->pid], [c] the channel of this lock. *)
Context (me : Z) (c : chan).

Definition sleep_on {S} : M S unit := λ s, Sleeping c s.

(** One pass through [while(lk->locked) sleep(lk, &lk->lk)]: the process
    either takes the lock or goes to sleep, to run the test again when it
    is woken. *)
Definition acquiresleep : M sleeplock unit :=
  let! l := get in
  if truthy (sl_locked l) then sleep_on
  else modify (λ _, mkSleep 1 me).

(** The state of the lock after [releasesleep]; its wakeup, which changes the
    processes and not the lock, is part of [step_release] below. *)
Definition releasesleep : M sleeplock unit := modify (λ _, mkSleep 0 0).

Definition holdingsleep (l : sleeplock) : bool :=
  truthy (sl_locked l) && (sl_pid l =? me).
End ops.

Lemma acquiresleep_free me c l :
  sl_locked l = 0 → acquiresleep me c l = Ok tt (mkSleep 1 me).
Proof. intros H. unfold acquiresleep, bind, get. by rewrite H. Qed.

Lemma acquiresleep_busy me c l :
  sl_locked l ≠ 0 → acquiresleep me c l = Sleeping c l.
Proof. intros H%truthy_true. unfold acquiresleep, bind, get. by rewrite H. Qed.

Lemma holdingsleep_acquired me : holdingsleep me (mkSleep 1 me) = true.
Proof. unfold holdingsleep. simpl. apply Z.eqb_refl. Qed.

(** ** Many processes, one sleep lock *)

(** [Waking]: made RUNNABLE again (by [wakeup] or by [kill]) and about to run
    the loop's test once more. *)
Inductive pstate := Idle | Waking | Asleep | Holding.

Record sys := mkSys { slk : sleeplock; procs : list pstate }.

(** The pid of the process in slot [i]; pids are positive and distinct. *)
Definition pid_of (i : nat) : Z := i + 1.
Definition the_chan : chan := Chan "sleeplock" 0.

Definition wake (p : pstate) : pstate := match p with Asleep => Waking | p => p end.

Inductive step : sys → sys → Prop :=
| step_take s i p l :
    procs s !! i = Some p → (p = Idle ∨ p = Waking) →
    acquiresleep (pid_of i) the_chan (slk s) = Ok tt l →
    step s (mkSys l (<[i := Holding]> (procs s)))
| step_wait s i p c l :
    procs s !! i = Some p → (p = Idle ∨ p = Waking) →
    acquiresleep (pid_of i) the_chan (slk s) = Sleeping c l →
    step s (mkSys l (<[i := Asleep]> (procs s)))
| step_release s i l :
    procs s !! i = Some Holding →
    releasesleep (slk s) = Ok tt l →
    step s (mkSys l (wake <$> <[i := Idle]> (procs s)))
| step_kill s i :
    procs s !! i = Some Asleep →
    step s (mkSys (slk s) (<[i := Waking]> (procs s))).

Definition init_sys (n : nat) : sys := mkSys initsleeplock (replicate n Idle).
Definition reachable (n : nat) : sys → Prop := rtc step (init_sys n).

Inductive sl_inv (s : sys) : Prop :=
| sl_free :
    slk s = mkSleep 0 0 →
    (∀ i p, procs s !! i = Some p → p ≠ Holding ∧ p ≠ Asleep) → sl_inv s
| sl_held i :
    slk s = mkSleep 1 (pid_of i) → procs s !! i = Some Holding →
    (∀ j, procs s !! j = Some Holding → j = i) → sl_inv s.

Lemma insert_cases {A} (l : list A) i x j y :
  <[i := x]> l !! j = Some y → (j = i ∧ y = x) ∨ (j ≠ i ∧ l !! j = Some y).
Proof. intros [(-> & -> & _)|[? ?]]%list_lookup_insert_Some; auto. Qed.

(** Moves that neither take nor leave the lock. *)
Lemma sl_inv_move s i p q :
  procs s !! i = Some p → p ≠ Holding → q ≠ Holding →
  (q = Asleep → sl_locked (slk s) ≠ 0) →
  sl_inv s → sl_inv (mkSys (slk s) (<[i := q]> (procs s))).
Proof.
  intros Hi Hp Hq Hs [Hl Hn|o Hl Ho Hu].
  - apply sl_free; [done|]. simpl. intros j r [[-> ->]|[_ ?]]%insert_cases; [|eauto].
    split; [done|]. intros ->. by destruct (Hs eq_refl); rewrite Hl.
  - apply (sl_held _ o); simpl; [done| |].
    + rewrite list_lookup_insert_ne; [done|congruence].
    + intros j [[-> ?]|[_ ?]]%insert_cases; [done|eauto].
Qed.

Lemma sl_inv_step s s' : step s s' → sl_inv s → sl_inv s'.
Proof.
  intros Hstep Hinv. destruct Hstep as [s i p l Hi Hp Hrun|s i p c l Hi Hp Hrun|s i l Hi Hrun|s i Hi].
  - destruct Hinv as [Hl Hn|o Hl Ho Hu]; rewrite Hl in Hrun;
      [rewrite acquiresleep_free in Hrun by done|rewrite acquiresleep_busy in Hrun by done; done].
    injection Hrun as <-. apply (sl_held _ i); simpl; [done| |].
    + apply list_lookup_insert_eq. by eapply lookup_lt_Some.
    + intros j [[-> _]|[_ Hj]]%insert_cases; [done|]. by destruct (Hn j Holding).
  - assert (l = slk s ∧ sl_locked (slk s) ≠ 0) as [-> Hlk].
    { destruct (decide (sl_locked (slk s) = 0)) as [H0|H0].
      - by rewrite acquiresleep_free in Hrun.
      - rewrite acquiresleep_busy in Hrun by done. by simplify_eq. }
    eapply sl_inv_move; [exact Hi| | |done|done]; destruct Hp as [-> | ->]; done.
  - injection Hrun as <-.
    assert (∀ j, procs s !! j = Some Holding → j = i) as Hu.
    { destruct Hinv as [Hl Hn|o Hl Ho Hu]; [by destruct (Hn i Holding)|].
      intros j Hj. transitivity o; [|symmetry]; eauto. }
    apply sl_free; [done|]. simpl. intros j p Hj.
    rewrite list_lookup_fmap in Hj.
    destruct (<[i:=Idle]> (procs s) !! j) as [q|] eqn:Hq; [|done].
    injection Hj as <-. apply insert_cases in Hq as [[-> ->]|[Hne Hq]]; [done|].
    destruct q; try done. by apply Hu in Hq.
  - eapply sl_inv_move; [exact Hi|done..].
Qed.

Lemma sl_inv_reachable n s : reachable n s → sl_inv s.
Proof.
  intros Hr. assert (sl_inv (init_sys n)) as Hi.
  { apply sl_free; [done|]. intros i p [-> _]%lookup_replicate. done. }
  induction Hr as [|s1 s2 s3 Hs _ IH]; [done|]. apply IH. by eapply sl_inv_step.
Qed.

(** C36: sleep locks exclude and never lose a wakeup.  In every reachable state
    at most one process is past [acquiresleep], [holdingsleep] is true for
    exactly that process, and a process is asleep on the lock only while the
    lock is held (so a release always finds and wakes it). *)
Theorem sleeplock_safe (n : nat) (s : sys) :
  reachable n s →
  (∀ i j, procs s !! i = Some Holding → procs s !! j = Some Holding → i = j) ∧
  (∀ i p, procs s !! i = Some p → (holdingsleep (pid_of i) (slk s) = true ↔ p = Holding)) ∧
  (∀ i, procs s !! i = Some Asleep → ∃ j, procs s !! j = Some Holding).
Proof.
  intros [Hl Hn|o Hl Ho Hu]%sl_inv_reachable; split_and!.
  - intros i j Hi. by destruct (Hn i Holding).
  - intros i p Hi. unfold holdingsleep. rewrite Hl. simpl.
    split; [done|]. intros ->. by destruct (Hn i Holding).
  - intros i Hi. by destruct (Hn i Asleep) as [_ []].
  - intros i j Hi Hj. transitivity o; [|symmetry]; eauto.
  - intros i p Hi. unfold holdingsleep. rewrite Hl. simpl. rewrite Z.eqb_eq.
    unfold pid_of. split.
    + intros ?. assert (o = i) as <- by lia. congruence.
    + intros ->. by rewrite (Hu i).
  - intros i Hi. by exists o.
Qed.

Definition one_waits : sys := mkSys (mkSleep 1 1) [Holding; Asleep].

Lemma one_waits_reachable : reachable 2 one_waits.
Proof.
  eapply rtc_l. { apply (step_take _ 0 Idle (mkSleep 1 1)); [done|by left|done]. }
  eapply rtc_l. { apply (step_wait _ 1 Idle the_chan (mkSleep 1 1)); [done|by left|done]. }
  apply rtc_refl.
Qed.

Lemma sleeplock_safe_witness :
  (∀ i j, procs one_waits !! i = Some Holding → procs one_waits !! j = Some Holding → i = j) ∧
  (∀ i p, procs one_waits !! i = Some p →
     (holdingsleep (pid_of i) (slk one_waits) = true ↔ p = Holding)) ∧
  (∀ i, procs one_waits !! i = Some Asleep → ∃ j, procs one_waits !! j = Some Holding).
Proof. apply (sleeplock_safe 2 one_waits). exact one_waits_reachable. Defined.
