(* ===== verification/Memide.v ===== *)
(** * Block buffers (buf.h) and the in-memory disk driver (memide.c)

    [struct buf] is a record whose [prev]/[next] pointers are indices into the
    buffer array of bio.c.  The disk is the array of blocks the driver copies
    to and from; [md_hist] is a history variable recording the block writes
    performed so far, in order: it is never read by the driver, and the states
    a power failure can leave on the disk are the prefixes of it. *)
From S2P Require Import Prelude Str Sleeplock.

Definition BSIZE : nat := 512.
Definition B_VALID : Z := 0x2.
Definition B_DIRTY : Z := 0x4.

Record buf := mkBuf {
  b_flags : Z; b_dev : Z; b_blockno : Z; b_lock : sleeplock; b_refcnt : Z;
  b_prev : nat; b_next : nat; b_data : bytes }.

Definition set_flags (f : Z → Z) (b : buf) : buf :=
  mkBuf (f (b_flags b)) (b_dev b) (b_blockno b) (b_lock b) (b_refcnt b) (b_prev b) (b_next b) (b_data b).
Definition set_ident (dev blockno : Z) (b : buf) : buf :=
  mkBuf (b_flags b) dev blockno (b_lock b) (b_refcnt b) (b_prev b) (b_next b) (b_data b).
Definition set_lock (l : sleeplock) (b : buf) : buf :=
  mkBuf (b_flags b) (b_dev b) (b_blockno b) l (b_refcnt b) (b_prev b) (b_next b) (b_data b).
Definition set_refcnt (f : Z → Z) (b : buf) : buf :=
  mkBuf (b_flags b) (b_dev b) (b_blockno b) (b_lock b) (f (b_refcnt b)) (b_prev b) (b_next b) (b_data b).
Definition set_prev (p : nat) (b : buf) : buf :=
  mkBuf (b_flags b) (b_dev b) (b_blockno b) (b_lock b) (b_refcnt b) p (b_next b) (b_data b).
Definition set_next (n : nat) (b : buf) : buf :=
  mkBuf (b_flags b) (b_dev b) (b_blockno b) (b_lock b) (b_refcnt b) (b_prev b) n (b_data b).
Definition set_data (d : bytes) (b : buf) : buf :=
  mkBuf (b_flags b) (b_dev b) (b_blockno b) (b_lock b) (b_refcnt b) (b_prev b) (b_next b) d.

(** [f & B_VALID], [f & B_DIRTY] as tests, [|=] and [&= ~] as updates. *)
Definition is_valid (f : Z) : bool := truthy (Z.land f B_VALID).
Definition is_dirty (f : Z) : bool := truthy (Z.land f B_DIRTY).
Definition or_flag (k : Z) (f : Z) : Z := Z.lor f k.
Definition clear_flag (k : Z) (f : Z) : Z := Z.land f (Z.lnot k).

(** ** The driver *)

Record mdisk := mkDisk { md_size : Z; md_blocks : gmap Z bytes; md_hist : list (Z * bytes) }.

(** The image is a byte array of [size] bytes; its whole blocks are the disk. *)
Definition chop (img : bytes) (size : nat) : gmap Z bytes :=
  list_to_map ((λ i, (Z.of_nat i, subarr img (i * BSIZE) BSIZE)) <$> seq 0 (size / BSIZE)).
Definition ideinit (img : bytes) : mdisk :=
  mkDisk (length img / BSIZE)%nat (chop img (length img)) [].

Definition disk_write (b : Z) (d : bytes) (m : mdisk) : mdisk :=
  mkDisk (md_size m) (<[b := d]> (md_blocks m)) (md_hist m ++ [(b, d)]).

(** [iderw]: synchronise the buffer with the disk; [me] is the calling
    process, for the sleep-lock check. *)
Definition iderw (me : Z) (b : buf) : M mdisk buf :=
  if negb (holdingsleep me (b_lock b)) then panic "iderw: buf not locked" else
  if Z.land (b_flags b) (Z.lor B_VALID B_DIRTY) =? B_VALID then panic "iderw: nothing to do" else
  if negb (b_dev b =? 1) then panic "iderw: request not for disk 1" else
  let! size := gets md_size in
  if size <=? b_blockno b then panic "iderw: block out of range" else
  let! b := (if is_dirty (b_flags b) then
               let b := set_flags (clear_flag B_DIRTY) b in
               do! modify (disk_write (b_blockno b) (b_data b)) in
               ret b
             else
               let! blk := gets (λ m, md_blocks m !! b_blockno b) in
               match blk with
               | Some d => ret (set_data d b)
               | None => panic "page fault"
               end) in
  ret (set_flags (or_flag B_VALID) b).

(** ** Facts about the flag word *)

(** The combinations the buffer cache uses. *)
Inductive flags_ok : Z → Prop :=
| fl_none : flags_ok 0
| fl_valid : flags_ok B_VALID
| fl_valid_dirty : flags_ok (Z.lor B_VALID B_DIRTY).

(** ** Behaviour of the driver *)

Definition write_ok (me : Z) (m : mdisk) (b : buf) : Prop :=
  holdingsleep me (b_lock b) = true ∧ b_dev b = 1 ∧ 0 ≤ b_blockno b < md_size m.

Lemma iderw_write me m b :
  write_ok me m b → b_flags b = Z.lor B_VALID B_DIRTY →
  iderw me b m = Ok (set_flags (λ _, B_VALID) b) (disk_write (b_blockno b) (b_data b) m).
Proof.
  intros (Hl & Hd & Hb) Hf. unfold iderw. rewrite Hl, Hd, Hf. eval_ifs. rewrite bind_gets.
  destruct (Z.leb_spec (md_size m) (b_blockno b)); [lia|].
  cbn. unfold set_flags; cbn. by rewrite Hf.
Qed.

Lemma iderw_read me m b d :
  write_ok me m b → b_flags b = 0 → md_blocks m !! b_blockno b = Some d →
  iderw me b m = Ok (set_flags (λ _, B_VALID) (set_data d b)) m.
Proof.
  intros (Hl & Hd & Hb) Hf Hm. unfold iderw. rewrite Hl, Hd, Hf. eval_ifs. rewrite bind_gets.
  destruct (Z.leb_spec (md_size m) (b_blockno b)); [lia|].
  rewrite bind_assoc, bind_gets, Hm. cbn. unfold set_flags; cbn. by rewrite Hf.
Qed.
