(* ===== verification/Port.v ===== *)
(** * Devices: ports, device registers, and the ATA disk

    Drivers reach a device through the port instructions of x86.h and through
    memory-mapped registers.  [PortIO] is the hardware as a driver sees it; the
    code of the drivers is written against it.  [AtaDisk] states what the code
    of ide.c and bootmain.c relies on about a PIO disk, over an abstract disk
    controller [ata]; [ata] itself, run as a machine, is an instance. *)
From S2P Require Import Prelude.

(** ** Interrupt numbers *)

Definition T_IRQ0 : Z := 32.
Definition IRQ_TIMER : Z := 0.
Definition IRQ_KBD : Z := 1.
Definition IRQ_COM1 : Z := 4.
Definition IRQ_IDE : Z := 14.
Definition IRQ_ERROR : Z := 19.
Definition IRQ_SPURIOUS : Z := 31.

(** ** Ports and registers *)

Class PortIO (D : Type) := {
  p_in : Z → M D Z;
  p_out : Z → Z → M D unit;
  p_ins : Z → nat → M D bytes;
  p_outs : Z → bytes → M D unit;
  p_load : Z → M D Z;
  p_store : Z → Z → M D unit }.

Section x86.
Context {D : Type} {P : PortIO D}.

Definition inb (port : Z) : M D Z := let! x := p_in (u16 port) in ret (u8 x).
Definition outb (port data : Z) : M D unit := p_out (u16 port) (u8 data).
Definition outw (port data : Z) : M D unit := p_out (u16 port) (u16 data).
(** [insl] stores [4 * cnt] bytes, [outsl] takes them. *)
Definition insl (port : Z) (cnt : nat) : M D bytes := p_ins port (4 * cnt).
Definition outsl (port : Z) (data : bytes) (cnt : nat) : M D unit := p_outs port (take (4 * cnt) data).
End x86.

(** ** The ATA protocol *)

(** What the controller is doing: a sector to be read, a write command that
    waits for its data, a sector on its way to the medium. *)
Inductive ata_op :=
| ANone
| ARead (drive sector : Z)
| AWrite (drive sector : Z)
| AWriting (drive sector : Z) (data : bytes).

(** [a_busy] counts the status readings until the controller is ready,
    [a_latency] is how long a command takes. *)
Record ata := mkAta {
  a_regs : gmap Z Z; a_media : gmap (Z * Z) bytes; a_op : ata_op;
  a_busy : nat; a_err : bool; a_latency : nat }.

Definition reg (a : ata) (port : Z) : Z := default 0 (a_regs a !! port).
(** The sector in the LBA registers and the drive bit. *)
Definition lba (a : ata) : Z :=
  reg a 0x1f3 + 2 ^ 8 * reg a 0x1f4 + 2 ^ 16 * reg a 0x1f5 + 2 ^ 24 * (reg a 0x1f6 `mod` 16).
Definition drive (a : ata) : Z := (reg a 0x1f6 / 16) `mod` 2.

Definition ata_status (a : ata) : Z := if (0 <? a_busy a)%nat then 0x80 else if a_err a then 0x41 else 0x40.

(** The end of the pending command. *)
Definition ata_done (a : ata) : ata :=
  match a_op a with
  | AWriting dr sec d => mkAta (a_regs a) (<[(dr, sec) := d]> (a_media a)) ANone 0 (a_err a) (a_latency a)
  | op => mkAta (a_regs a) (a_media a) op 0 (a_err a) (a_latency a)
  end.
Definition ata_poll (a : ata) : ata :=
  match a_busy a with
  | O => a
  | S O => ata_done a
  | S n => mkAta (a_regs a) (a_media a) (a_op a) n (a_err a) (a_latency a)
  end.

(** A register or a command for one sector. *)
Definition ata_out (port v : Z) (a : ata) : ata :=
  if port =? 0x1f7 then
    if (reg a 0x1f2 =? 1) && (v =? 0x20) then mkAta (a_regs a) (a_media a) (ARead (drive a) (lba a)) (a_latency a) (a_err a) (a_latency a)
    else if (reg a 0x1f2 =? 1) && (v =? 0x30) then mkAta (a_regs a) (a_media a) (AWrite (drive a) (lba a)) 0 (a_err a) (a_latency a)
    else a
  else mkAta (<[port := v]> (a_regs a)) (a_media a) (a_op a) (a_busy a) (a_err a) (a_latency a).

Definition set_op (op : ata_op) (busy : nat) (a : ata) : ata :=
  mkAta (a_regs a) (a_media a) op busy (a_err a) (a_latency a).

Definition ata_ports : list Z := [0x1f2; 0x1f3; 0x1f4; 0x1f5; 0x1f6; 0x1f7; 0x3f6].

(** What the drivers rely on; [ata_finish]: the device ends its command (and
    raises the interrupt). *)
Class AtaDisk (D : Type) {P : PortIO D} := {
  ata_rep : D → ata → Prop;
  ata_finish : D → D → Prop;
  ata_inb_ok d a : ata_rep d a →
    ∃ d', p_in 0x1f7 d = Ok (ata_status a) d' ∧ ata_rep d' (ata_poll a);
  ata_outb_ok d a port v : ata_rep d a → port ∈ ata_ports → a_busy a = 0%nat →
    ∃ d', p_out port v d = Ok tt d' ∧ ata_rep d' (ata_out port v a);
  ata_outsl_ok d a dr sec data : ata_rep d a → a_op a = AWrite dr sec → length data = 512%nat →
    ∃ d', p_outs 0x1f0 data d = Ok tt d' ∧ ata_rep d' (set_op (AWriting dr sec data) (a_latency a) a);
  ata_insl_ok d a dr sec data : ata_rep d a → a_op a = ARead dr sec → a_busy a = 0%nat → a_media a !! (dr, sec) = Some data →
    ∃ d', p_ins 0x1f0 512 d = Ok data d' ∧ ata_rep d' (set_op ANone 0 a);
  ata_finish_ok d d' a : ata_rep d a → ata_finish d d' → ata_rep d' (ata_done a) }.

(** ** Derived laws, for the wrappers of x86.h *)

Section laws.
Context {D : Type} {P : PortIO D} {A : AtaDisk D}.
Implicit Types (d : D) (a : ata).

Lemma inb_status d a : ata_rep d a → ∃ d', inb 0x1f7 d = Ok (ata_status a) d' ∧ ata_rep d' (ata_poll a).
Proof.
  intros H. destruct (ata_inb_ok d a H) as (d' & R & H'). exists d'. split; [|done]. unfold inb.
  change (u16 0x1f7) with 0x1f7. mstep R. unfold ret. f_equal. unfold ata_status. by repeat case_match.
Qed.

Lemma outb_run d a port v : ata_rep d a → port ∈ ata_ports → a_busy a = 0%nat →
  ∃ d', outb port v d = Ok tt d' ∧ ata_rep d' (ata_out port (u8 v) a).
Proof.
  intros H Hp Hb. unfold outb. assert (u16 port = port) as -> by (revert Hp; unfold ata_ports; rewrite !list_elem_of_In; cbn; intuition (by subst)).
  by apply ata_outb_ok.
Qed.

(** A register write. *)
Lemma reg_out p v a p' : p ≠ 0x1f7 → reg (ata_out p v a) p' = if decide (p = p') then v else reg a p'.
Proof.
  intros Hp%Z.eqb_neq. unfold reg, ata_out. rewrite Hp. cbn. destruct (decide (p = p')) as [->|Hne]; [by rewrite lookup_insert_eq|by rewrite lookup_insert_ne].
Qed.
(** The registers apart, the controller is the same. *)
Definition same_disk a a' : Prop :=
  a_media a' = a_media a ∧ a_op a' = a_op a ∧ a_busy a' = a_busy a ∧ a_err a' = a_err a ∧ a_latency a' = a_latency a.
Lemma same_disk_out p v a a' : p ≠ 0x1f7 → same_disk a a' → same_disk a (ata_out p v a').
Proof. intros Hp%Z.eqb_neq (?&?&?&?&?). unfold same_disk, ata_out. by rewrite Hp. Qed.

End laws.

(** ** The reference controller *)

Section ram.
Definition ram_in (port : Z) : M ata Z := λ a, Ok (ata_status a) (ata_poll a).
Definition ram_out (port v : Z) : M ata unit := modify (ata_out port v).
Definition ram_ins (port : Z) (n : nat) : M ata bytes := λ a,
  match a_op a with
  | ARead dr sec => match a_media a !! (dr, sec) with Some d => Ok (take n d) (set_op ANone 0 a) | None => Panic "no such sector" end
  | _ => Panic "no data"
  end.
Definition ram_outs (port : Z) (data : bytes) : M ata unit := λ a,
  match a_op a with
  | AWrite dr sec => Ok tt (set_op (AWriting dr sec data) (a_latency a) a)
  | _ => Panic "no data expected"
  end.

#[export] Instance ata_port : PortIO ata := {|
  p_in := ram_in; p_out := ram_out; p_ins := ram_ins; p_outs := ram_outs;
  p_load := λ _, panic "no register"; p_store := λ _ _, panic "no register" |}.

(** Sectors, and data on its way, have 512 bytes. *)
Definition data_ok (a : ata) : Prop :=
  map_Forall (λ _ d, length d = 512%nat) (a_media a) ∧ ∀ dr sec d, a_op a = AWriting dr sec d → length d = 512%nat.

Lemma data_ok_done a : data_ok a → data_ok (ata_done a).
Proof.
  intros [Hm Hd]. unfold ata_done. destruct (a_op a) as [| | |dr sec d] eqn:E; try done.
  split; [|done]. apply map_Forall_insert_2; [by eapply Hd|done].
Qed.
Lemma data_ok_poll a : data_ok a → data_ok (ata_poll a).
Proof. intros H. unfold ata_poll. destruct (a_busy a) as [|[|n]]; [done|by apply data_ok_done|exact H]. Qed.
Lemma data_ok_out port v a : data_ok a → data_ok (ata_out port v a).
Proof. intros [Hm Hd]. unfold ata_out. repeat case_match; by split. Qed.

#[export] Program Instance ata_disk : AtaDisk ata := {|
  ata_rep := λ d a, d = a ∧ data_ok a;
  ata_finish := λ d d', d' = ata_done d |}.
Next Obligation. intros d a [-> H]. eexists. split; [reflexivity|]. split; [done|by apply data_ok_poll]. Qed.
Next Obligation. intros d a port v [-> H] _ _. eexists. split; [reflexivity|]. split; [done|by apply data_ok_out]. Qed.
Next Obligation.
  intros d a dr sec data [-> [Hm _]] Ho Hl. cbn. unfold ram_outs. rewrite Ho. eexists. split; [reflexivity|]. split; [done|].
  split; [done|]. cbn. by intros ? ? ? [= _ _ <-].
Qed.
Next Obligation.
  intros d a dr sec data [-> [Hm _]] Ho _ Hd. cbn. unfold ram_ins. rewrite Ho, Hd. eexists.
  rewrite take_ge by (by rewrite (Hm _ _ Hd)). split; [reflexivity|]. by split.
Qed.
Next Obligation. intros d d' a [-> H] ->. split; [done|by apply data_ok_done]. Qed.
End ram.
