(* ===== verification/Ide.v ===== *)
(** * The disk driver: ide.c

    The driver's state is the queue of buffers linked through [qnext], the
    buffers, and the device behind [PortIO].  idelock makes [ideintr] and every
    stretch of [iderw] between two sleeps one atomic step.  [iderw] puts the
    caller to sleep on its buffer; when it is woken it runs [iderw_wait], the
    rest of the call.  The theorems say that the driver, fed by any number of
    processes and interrupts, serves the requests in the order of the calls,
    each exactly as the in-memory driver of Memide.v does. *)
From S2P Require Import Prelude Str Sleeplock Memide Port.

Definition SECTOR_SIZE : Z := 512.
Definition IDE_BSY : Z := 0x80.
Definition IDE_DRDY : Z := 0x40.
Definition IDE_DF : Z := 0x20.
Definition IDE_ERR : Z := 0x01.
Definition IDE_CMD_READ : Z := 0x20.
Definition IDE_CMD_WRITE : Z := 0x30.
Definition IDE_CMD_RDMUL : Z := 0xc4.
Definition IDE_CMD_WRMUL : Z := 0xc5.
Definition FSSIZE : Z := 1000.

(** [qnext] of a buffer that is not in the map is the null pointer; [id_woken]
    lists the buffers passed to wakeup, newest first. *)
Record ide (D : Type) := mkIde {
  id_dev : D; id_bufs : gmap nat buf; qnext : gmap nat nat; idequeue : option nat; havedisk1 : bool; id_woken : list nat }.
Arguments mkIde {D}.
Arguments id_dev {D}.
Arguments id_bufs {D}.
Arguments qnext {D}.
Arguments idequeue {D}.
Arguments havedisk1 {D}.
Arguments id_woken {D}.

Definition set_dev {D} (d : D) (s : ide D) : ide D := mkIde d (id_bufs s) (qnext s) (idequeue s) (havedisk1 s) (id_woken s).
Definition set_bufs {D} (b : gmap nat buf) (s : ide D) : ide D := mkIde (id_dev s) b (qnext s) (idequeue s) (havedisk1 s) (id_woken s).
Definition set_queue {D} (n : gmap nat nat) (q : option nat) (s : ide D) : ide D :=
  mkIde (id_dev s) (id_bufs s) n q (havedisk1 s) (id_woken s).
Definition set_havedisk1 {D} (h : bool) (s : ide D) : ide D := mkIde (id_dev s) (id_bufs s) (qnext s) (idequeue s) h (id_woken s).
Definition set_woken {D} (w : list nat) (s : ide D) : ide D := mkIde (id_dev s) (id_bufs s) (qnext s) (idequeue s) (havedisk1 s) w.

Definition buf_chan (b : nat) : chan := Chan "buf" b.

Section driver.
(** [polls] bounds the status readings of one wait. *)
Context {D : Type} {P : PortIO D} (polls : nat).

Fixpoint idewait_loop (checkerr : bool) (fuel : nat) : M D Z :=
  match fuel with
  | O => λ _, Fuel
  | S fuel =>
      let! r := inb 0x1f7 in
      if negb (Z.land r (Z.lor IDE_BSY IDE_DRDY) =? IDE_DRDY) then idewait_loop checkerr fuel else
      if checkerr && truthy (Z.land r (Z.lor IDE_DF IDE_ERR)) then ret (-1) else ret 0
  end.
Definition idewait (checkerr : bool) : M D Z := idewait_loop checkerr polls.

Definition on_dev {A} (m : M D A) : M (ide D) A := zoom id_dev set_dev m.
Definition getb (b : nat) : M (ide D) buf := λ s,
  match id_bufs s !! b with Some x => Ok x s | None => Panic "page fault" end.
Definition putb (b : nat) (x : buf) : M (ide D) unit := modify (λ s, set_bufs (<[b := x]> (id_bufs s)) s).

(** The probe for a second disk: at most [n] readings. *)
Fixpoint probe (n : nat) : M D bool :=
  match n with
  | O => ret false
  | S n => let! r := inb 0x1f7 in if truthy r then ret true else probe n
  end.

(** The lock and the interrupt routing ([ioapicenable(IRQ_IDE, ncpu - 1)], an
    argument) come first. *)
Definition ideinit (ioapicenable : M D unit) : M (ide D) unit :=
  do! on_dev ioapicenable in
  do! on_dev (idewait false) in
  do! on_dev (outb 0x1f6 (Z.lor 0xe0 (Z.shiftl 1 4))) in
  let! found := on_dev (probe 1000) in
  do! (if found : bool then modify (set_havedisk1 true) else ret tt) in
  on_dev (outb 0x1f6 (Z.lor 0xe0 (Z.shiftl 0 4))).

Definition idestart (b : option nat) : M (ide D) unit :=
  match b with
  | None => panic "idestart"
  | Some b =>
      let! x := getb b in
      if FSSIZE <=? b_blockno x then panic "incorrect blockno" else
      let sector_per_block := BSIZE / SECTOR_SIZE in
      let sector := s32 (b_blockno x * sector_per_block) in
      let read_cmd := if sector_per_block =? 1 then IDE_CMD_READ else IDE_CMD_RDMUL in
      let write_cmd := if sector_per_block =? 1 then IDE_CMD_WRITE else IDE_CMD_WRMUL in
      if 7 <? sector_per_block then panic "idestart" else
      on_dev (
        do! idewait false in
        do! outb 0x3f6 0 in
        do! outb 0x1f2 sector_per_block in
        do! outb 0x1f3 (Z.land sector 0xff) in
        do! outb 0x1f4 (Z.land (Z.shiftr sector 8) 0xff) in
        do! outb 0x1f5 (Z.land (Z.shiftr sector 16) 0xff) in
        do! outb 0x1f6 (Z.lor (Z.lor 0xe0 (Z.shiftl (Z.land (b_dev x) 1) 4)) (Z.land (Z.shiftr sector 24) 0x0f)) in
        if is_dirty (b_flags x) then
          do! outb 0x1f7 write_cmd in
          outsl 0x1f0 (b_data x) (BSIZE / 4)
        else outb 0x1f7 read_cmd)
  end.

Definition ideintr : M (ide D) unit :=
  let! q := gets idequeue in
  match q with
  | None => ret tt
  | Some b =>
      do! modify (λ s, set_queue (qnext s) (qnext s !! b) s) in
      let! x := getb b in
      let! x := (if is_dirty (b_flags x) then ret x
                 else let! r := on_dev (idewait true) in
                      if 0 <=? r then let! d := on_dev (insl 0x1f0 (BSIZE / 4)) in ret (set_data d x) else ret x) in
      do! putb b (set_flags (λ f, clear_flag B_DIRTY (or_flag B_VALID f)) x) in
      do! modify (λ s, set_woken (b :: id_woken s) s) in
      let! q := gets idequeue in
      match q with None => ret tt | Some _ => idestart q end
  end.

(** The end of the queue from buffer [p] on. *)
Fixpoint queue_end (next : gmap nat nat) (p : nat) (fuel : nat) : option nat :=
  match fuel with
  | O => None
  | S fuel => match next !! p with None => Some p | Some p => queue_end next p fuel end
  end.

(** One pass through the loop at the end of [iderw]. *)
Definition iderw_wait (b : nat) : M (ide D) unit :=
  let! x := getb b in
  if negb (Z.land (b_flags x) (Z.lor B_VALID B_DIRTY) =? B_VALID) then sleep_on (buf_chan b) else ret tt.

Definition append (b : nat) : M (ide D) unit :=
  do! modify (λ s, set_queue (delete b (qnext s)) (idequeue s) s) in
  let! s := get in
  match idequeue s with
  | None => modify (set_queue (qnext s) (Some b))
  | Some p =>
      match queue_end (qnext s) p (S (size (qnext s))) with
      | Some e => modify (set_queue (<[e := b]> (qnext s)) (Some p))
      | None => λ _, Fuel
      end
  end.

Definition iderw (me : Z) (b : nat) : M (ide D) unit :=
  let! x := getb b in
  if negb (holdingsleep me (b_lock x)) then panic "iderw: buf not locked" else
  if Z.land (b_flags x) (Z.lor B_VALID B_DIRTY) =? B_VALID then panic "iderw: nothing to do" else
  let! h := gets havedisk1 in
  if negb (b_dev x =? 0) && negb h then panic "iderw: ide disk 1 not present" else
  do! append b in
  let! q := gets idequeue in
  do! (if decide (q = Some b) then idestart (Some b) else ret tt) in
  iderw_wait b.
End driver.

(** ** The linked queue *)

Definition linked (next : gmap nat nat) (q : list nat) : Prop := ∀ i b, q !! i = Some b → next !! b = q !! S i.

Lemma linked_size next q : linked next q → NoDup q → (length q ≤ S (size next))%nat.
Proof.
  intros Hl Hn. assert (size (list_to_set (take (length q - 1) q) : gset nat) ≤ size (dom next))%nat as H.
  { apply subseteq_size. intros b Hb. apply elem_of_list_to_set, list_elem_of_lookup in Hb as [i Hi].
    apply lookup_take_Some in Hi as [Hi Hlt]. apply elem_of_dom. rewrite (Hl i b Hi). apply lookup_lt_is_Some_2. lia. }
  rewrite size_list_to_set, length_take, size_dom in H by (eapply sublist_NoDup; [exact Hn|apply sublist_take]). lia.
Qed.

Lemma queue_end_spec next q fuel : ∀ i b, linked next q → q !! i = Some b → (length q - i ≤ fuel)%nat →
  queue_end next b fuel = q !! (length q - 1)%nat.
Proof.
  induction fuel as [|fuel IH]; intros i b Hl Hi Hf; [apply lookup_lt_Some in Hi; lia|]. cbn [queue_end].
  rewrite (Hl i b Hi). destruct (q !! S i) as [c|] eqn:E; [apply (IH (S i)); [done|done|lia]|].
  apply lookup_lt_Some in Hi as Hlt. apply lookup_ge_None_1 in E. by replace (length q - 1)%nat with i by lia.
Qed.

Lemma linked_delete next q b : linked next q → b ∉ q → linked (delete b next) q.
Proof.
  intros Hl Hb i c Hi. rewrite lookup_delete_ne; [by apply Hl|]. intros ->. apply Hb. by eapply list_elem_of_lookup_2.
Qed.

Lemma linked_snoc next q e b : linked next q → NoDup q → b ∉ q → next !! b = None → q !! (length q - 1)%nat = Some e →
  linked (<[e := b]> next) (q ++ [b]).
Proof.
  intros Hl Hn Hb Hnb He i c. intros Hi. destruct (decide (i < length q)%nat) as [Hlt|Hge].
  - rewrite lookup_app_l in Hi by done. destruct (decide (i = length q - 1)%nat) as [->|Hne].
    + rewrite He in Hi. injection Hi as <-. rewrite lookup_insert_eq, lookup_app_r by lia.
      by replace (S (length q - 1) - length q)%nat with 0%nat by lia.
    + rewrite lookup_insert_ne, lookup_app_l by (lia || intros ->; apply Hne; by eapply NoDup_lookup). by apply Hl.
  - pose proof (lookup_lt_Some _ _ _ Hi) as Hi'. rewrite length_app in Hi'. simpl in Hi'. replace i with (length q) in * by lia.
    rewrite list_lookup_middle in Hi by done. injection Hi as <-.
    rewrite lookup_insert_ne by (intros ->; apply Hb; by eapply list_elem_of_lookup_2).
    rewrite Hnb, lookup_ge_None_2; [done|]. rewrite length_app. simpl. lia.
Qed.

Lemma linked_tail next b q : linked next (b :: q) → linked next q.
Proof. intros Hl i c Hi. by apply (Hl (S i)). Qed.

(** ** The driver and its device *)

Section correct.
Context {D : Type} {P : PortIO D} {A : AtaDisk D} (polls : nat) (Hpolls : (0 < polls)%nat).
Implicit Types (s : ide D) (q : list nat) (m : mdisk) (a : ata) (x : buf).

(** A buffer that a caller may pass: locked by it, a read or a write, of an
    existing block of disk 1. *)
Record request x : Prop := {
  rq_flags : b_flags x = 0 ∨ b_flags x = Z.lor B_VALID B_DIRTY;
  rq_dev : b_dev x = 1;
  rq_block : 0 ≤ b_blockno x < FSSIZE;
  rq_data : length (b_data x) = BSIZE }.

(** The command the device executes for a buffer. *)
Definition op_of x : ata_op :=
  if is_dirty (b_flags x) then AWriting 1 (b_blockno x) (b_data x) else ARead 1 (b_blockno x).

(** The device agrees with the disk [m] of the in-memory driver. *)
Record dev_ok (d : D) (a : ata) (m : mdisk) : Prop := {
  do_rep : ata_rep d a;
  do_err : a_err a = false;
  do_size : md_size m = FSSIZE;
  do_media : ∀ bn, 0 ≤ bn < FSSIZE → a_media a !! (1, bn) = md_blocks m !! bn;
  do_full : ∀ bn, 0 ≤ bn < FSSIZE → is_Some (md_blocks m !! bn) }.

Record ide_rep s q m : Prop := {
  ir_head : idequeue s = head q;
  ir_linked : linked (qnext s) q;
  ir_nodup : NoDup q;
  ir_disk1 : havedisk1 s = true;
  ir_bufs : ∀ b, b ∈ q → ∃ x, id_bufs s !! b = Some x ∧ request x;
  ir_dev : ∃ a, dev_ok (id_dev s) a m ∧
    match q with
    | [] => a_op a = ANone ∧ a_busy a = 0%nat
    | b :: _ => ∀ x, id_bufs s !! b = Some x → a_op a = op_of x
    end }.

(** A wait ends at once when the device is ready. *)
Lemma idewait_ready d a c : ata_rep d a → a_busy a = 0%nat → a_err a = false →
  ∃ d', idewait polls c d = Ok 0 d' ∧ ata_rep d' a.
Proof.
  intros H Hb He. destruct (inb_status d a H) as (d' & R & H'). unfold idewait. destruct polls as [|n]; [lia|]. cbn [idewait_loop].
  mstep R. unfold ata_status, ata_poll in *. rewrite Hb, He in *. exists d'. split; [|done]. by destruct c.
Qed.

(** The six register writes select sector [sec] of disk 1. *)
Definition select sec a : ata :=
  ata_out 0x1f6 (u8 (Z.lor (Z.lor 0xe0 (Z.shiftl (Z.land 1 1) 4)) (Z.land (Z.shiftr sec 24) 0x0f)))
    (ata_out 0x1f5 (u8 (Z.land (Z.shiftr sec 16) 0xff)) (ata_out 0x1f4 (u8 (Z.land (Z.shiftr sec 8) 0xff))
    (ata_out 0x1f3 (u8 (Z.land sec 0xff)) (ata_out 0x1f2 (u8 1) (ata_out 0x3f6 (u8 0) a))))).

Lemma select_disk sec a : same_disk a (select sec a).
Proof. unfold select. repeat apply same_disk_out; try lia. by unfold same_disk. Qed.

Lemma select_regs sec a : 0 ≤ sec < FSSIZE →
  reg (select sec a) 0x1f2 = 1 ∧ lba (select sec a) = sec ∧ drive (select sec a) = 1.
Proof.
  intros Hs. unfold FSSIZE in Hs. unfold lba, drive, select. rewrite !reg_out by lia. repeat first [rewrite decide_False by lia | rewrite decide_True by done].
  rewrite !Z.shiftr_div_pow2 by lia. rewrite (Z.div_small sec (2 ^ 24)), (Z.div_small sec (2 ^ 16)) by lia.
  change 0xff with (Z.ones 8). rewrite !Z.land_ones by lia.
  rewrite (u8_small (sec `mod` 2 ^ 8)) by (apply Z.mod_pos_bound; lia).
  assert (0 ≤ sec / 2 ^ 8 < 4) as H4 by (split; [apply Z.div_pos; lia|apply Z.div_lt_upper_bound; lia]).
  rewrite (Z.mod_small (sec / 2 ^ 8)) by lia. rewrite (u8_small (sec / 2 ^ 8)) by (unfold is_u8; lia).
  split; [done|]. split; [|done]. pose proof (Z.div_mod sec (2 ^ 8) ltac:(lia)).
  match goal with |- context [2 ^ 24 * ?r] => change r with 0 end. change (u8 (0 `mod` 2 ^ 8)) with 0. lia.
Qed.

Lemma on_dev_run {B} (k : M D B) s r d' : k (id_dev s) = Ok r d' → on_dev k s = Ok r (set_dev d' s).
Proof. unfold on_dev, zoom. by intros ->. Qed.

Lemma ide_getb_run s b x : id_bufs s !! b = Some x → getb b s = Ok x s.
Proof. unfold getb. by intros ->. Qed.

(** The registers, then the command; a write also hands over its data. *)
Lemma command_run d a (sec : Z) x : ata_rep d a → a_busy a = 0%nat → a_err a = false → 0 ≤ sec < FSSIZE → length (b_data x) = BSIZE →
  ∃ d' a', (do! idewait polls false in
    do! outb 0x3f6 0 in do! outb 0x1f2 1 in do! outb 0x1f3 (Z.land sec 0xff) in
    do! outb 0x1f4 (Z.land (Z.shiftr sec 8) 0xff) in do! outb 0x1f5 (Z.land (Z.shiftr sec 16) 0xff) in
    do! outb 0x1f6 (Z.lor (Z.lor 0xe0 (Z.shiftl (Z.land 1 1) 4)) (Z.land (Z.shiftr sec 24) 0x0f)) in
    if is_dirty (b_flags x) then do! outb 0x1f7 IDE_CMD_WRITE in outsl 0x1f0 (b_data x) (BSIZE / 4) else outb 0x1f7 IDE_CMD_READ) d = Ok tt d' ∧
  ata_rep d' a' ∧ a_err a' = false ∧ a_media a' = a_media a ∧
  a_op a' = if is_dirty (b_flags x) then AWriting 1 sec (b_data x) else ARead 1 sec.
Proof.
  intros Hr Hb He Hs Hd. destruct (idewait_ready d a false Hr Hb He) as (d0 & R0 & H0). mstep R0. clear d R0 Hr.
  assert (∀ p, p ∈ [0x3f6; 0x1f2; 0x1f3; 0x1f4; 0x1f5; 0x1f6; 0x1f7] → p ∈ ata_ports) as Hin by (unfold ata_ports; set_solver).
  destruct (select_disk sec a) as (Em & Eo & Eb & Ee & El).
  assert (∀ p v d a, ata_rep d a → p ∈ ata_ports → a_busy a = 0%nat → p ≠ 0x1f7 →
    ∃ d', outb p v d = Ok tt d' ∧ ata_rep d' (ata_out p (u8 v) a) ∧ a_busy (ata_out p (u8 v) a) = 0%nat) as Hstep.
  { intros p v d1 a1 H1 H2 H3 H4%Z.eqb_neq. destruct (outb_run d1 a1 p v H1 H2 H3) as (d' & R & H'). exists d'. split; [done|]. split; [done|].
    unfold ata_out. by rewrite H4. }
  do 6 (match goal with H : ata_rep ?d1 ?a1 |- context [outb ?p ?v] => 
    destruct (Hstep p v d1 a1 H ltac:(apply Hin; set_solver) ltac:(done) ltac:(done)) as (?d' & ?R & ?H' & ?Hbz); mstep R; clear R H end).
  match goal with H : ata_rep ?d1 _ |- _ => change (ata_rep d1 (select sec a)) in H; rename H into H6; rename d1 into d6 end.
  destruct (select_regs sec a Hs) as (E1 & E2 & E3). rewrite Hb in Eb.
  destruct (is_dirty (b_flags x)).
  - destruct (outb_run d6 _ 0x1f7 IDE_CMD_WRITE H6 ltac:(apply Hin; set_solver) Eb) as (d7 & R7 & H7). mstep R7.
    unfold ata_out in H7. rewrite E1, E2, E3 in H7. change (u8 IDE_CMD_WRITE) with 0x30 in H7. cbn [Z.eqb Pos.eqb andb] in H7.
    unfold outsl. change (4 * (BSIZE / 4))%nat with 512%nat. rewrite take_ge by (rewrite Hd; done).
    destruct (ata_outsl_ok d7 _ 1 sec (b_data x) H7 eq_refl Hd) as (d8 & R8 & H8). rewrite R8. eexists _, _. split; [done|]. split; [exact H8|]. cbn [a_err a_media a_op set_op].
    by rewrite Ee, Em.
  - destruct (outb_run d6 _ 0x1f7 IDE_CMD_READ H6 ltac:(apply Hin; set_solver) Eb) as (d7 & R7 & H7). rewrite R7.
    unfold ata_out in H7. rewrite E1, E2, E3 in H7. change (u8 IDE_CMD_READ) with 0x20 in H7. cbn [Z.eqb Pos.eqb andb] in H7.
    eexists _, _. split; [done|]. split; [exact H7|]. cbn [a_err a_media a_op]. by rewrite Ee, Em.
Qed.

Lemma idestart_spec s a m b x :
  dev_ok (id_dev s) a m → a_busy a = 0%nat → id_bufs s !! b = Some x → request x →
  ∃ d' a', idestart polls (Some b) s = Ok tt (set_dev d' s) ∧ dev_ok d' a' m ∧ a_op a' = op_of x.
Proof.
  intros [Hr He Hsz Hm Hfull] Hb Hx [Hf Hdev Hbn Hd]. unfold idestart. mstep (ide_getb_run _ _ _ Hx).
  rewrite (proj2 (Z.leb_gt _ _)) by lia. change (BSIZE / SECTOR_SIZE) with 1. cbn [Z.eqb Pos.eqb Z.ltb Z.compare Pos.compare Pos.compare_cont].
  rewrite Z.mul_1_r, s32_small, Hdev by (unfold is_s32, FSSIZE in *; lia).
  destruct (command_run (id_dev s) a (b_blockno x) x Hr Hb He Hbn Hd) as (d' & a' & R & Hr' & He' & Hm' & Ho').
  exists d', a'. split; [by apply on_dev_run|]. split; [|done]. split; try done. intros bn Hbn'. rewrite Hm'. by apply Hm.
Qed.

(** [iderw] on a request: the caller sleeps, the buffer is last in the queue,
    and the disk works on the head of the queue. *)
Lemma append_spec s q b : idequeue s = head q → linked (qnext s) q → NoDup q → b ∉ q →
  ∃ n, append b s = Ok tt (set_queue n (head (q ++ [b])) s) ∧ linked n (q ++ [b]).
Proof.
  intros Hh Hl Hn Hb. unfold append. rewrite bind_modify. unfold bind, get. cbn [idequeue set_queue qnext].
  pose proof (linked_delete _ _ _ Hl Hb) as Hl'. rewrite Hh. destruct q as [|p q].
  - cbn. eexists. split; [reflexivity|]. intros i c Hi. destruct i; [|done]. injection Hi as <-. by rewrite lookup_delete_eq.
  - cbn [head]. pose proof (linked_size _ _ Hl' Hn) as Hsz.
    rewrite (queue_end_spec _ (p :: q) _ 0 p Hl' eq_refl) by lia.
    destruct (lookup_lt_is_Some_2 (p :: q) (length (p :: q) - 1)) as [e He]; [simpl; lia|]. rewrite He.
    eexists. split; [reflexivity|]. apply linked_snoc; try done. by rewrite lookup_delete_eq.
Qed.

Lemma iderw_wait_sleeps s b x : id_bufs s !! b = Some x → request x → iderw_wait b s = Sleeping (buf_chan b) s.
Proof. intros Hx [Hf _ _ _]. unfold iderw_wait. mstep (ide_getb_run _ _ _ Hx). by destruct Hf as [-> | ->]. Qed.

Lemma iderw_spec s q m me b x :
  ide_rep s q m → id_bufs s !! b = Some x → request x → holdingsleep me (b_lock x) = true → b ∉ q →
  ∃ s', iderw polls me b s = Sleeping (buf_chan b) s' ∧ ide_rep s' (q ++ [b]) m ∧ id_bufs s' = id_bufs s ∧ id_woken s' = id_woken s.
Proof.
  intros [Hh Hl Hn H1 Hbufs (a & Ha & Hop)] Hx Hrq Hlk Hb. unfold iderw. mstep (ide_getb_run _ _ _ Hx). rewrite Hlk. cbn [negb].
  assert ((Z.land (b_flags x) (Z.lor B_VALID B_DIRTY) =? B_VALID) = false) as -> by (by destruct (rq_flags _ Hrq) as [-> | ->]).
  rewrite bind_gets, H1. cbn [negb]. rewrite andb_false_r.
  destruct (append_spec s q b Hh Hl Hn Hb) as (n & R & Hl'). mstep R. rewrite bind_gets. cbn [idequeue set_queue].
  assert (NoDup (q ++ [b])) as Hn' by (apply list.NoDup_app; split; [done|]; split; [set_solver|apply NoDup_singleton]).
  assert (∀ c, c ∈ q ++ [b] → ∃ y, id_bufs s !! c = Some y ∧ request y) as Hbufs'.
  { intros c [Hc|Hc]%elem_of_app; [by apply Hbufs|]. apply list_elem_of_singleton in Hc as ->. by exists x. }
  destruct q as [|p q]; cbn [app head].
  - rewrite decide_True by done. destruct Hop as [Ho Hbz].
    destruct (idestart_spec (set_queue n (Some b) s) a m b x Ha Hbz Hx Hrq) as (d' & a' & R' & Ha' & Ho'). mstep R'.
    eexists. split; [by eapply iderw_wait_sleeps|]. split; [|done]. split; try done. exists a'. split; [done|]. cbn. intros y. rewrite Hx. by intros [= <-].
  - rewrite decide_False by (intros [= ->]; set_solver). rewrite bind_ret.
    eexists. split; [by eapply iderw_wait_sleeps|]. split; [|done]. split; try done. by exists a.
Qed.

(** The end of [ideintr]: the next request is started. *)
Lemma start_next s q m a : idequeue s = head q → linked (qnext s) q → NoDup q → havedisk1 s = true →
  (∀ b, b ∈ q → ∃ x, id_bufs s !! b = Some x ∧ request x) → dev_ok (id_dev s) a m → a_op a = ANone → a_busy a = 0%nat →
  ∃ s', (let! h := gets idequeue in match h with None => ret tt | Some _ => idestart polls h end) s = Ok tt s' ∧ ide_rep s' q m ∧
    id_bufs s' = id_bufs s ∧ id_woken s' = id_woken s.
Proof.
  intros Hh Hl Hn H1 Hbufs Ha Ho Hbz. rewrite bind_gets, Hh. destruct q as [|b q]; cbn [head].
  - exists s. split; [done|]. split; [|done]. split; try done. by exists a.
  - destruct (Hbufs b) as (x & Hx & Hrq); [set_solver|].
    destruct (idestart_spec s a m b x Ha Hbz Hx Hrq) as (d' & a' & R & Ha' & Ho'). rewrite R. eexists. split; [done|]. split; [|done].
    split; try done. exists a'. split; [done|]. cbn. intros y. rewrite Hx. by intros [= <-].
Qed.

(** What the device and the driver make of the request at the head. *)
Lemma complete_write d0 d a m x : dev_ok d0 a m → a_op a = op_of x → b_flags x = Z.lor B_VALID B_DIRTY → 0 ≤ b_blockno x < FSSIZE →
  ata_rep d (ata_done a) →
  dev_ok d (ata_done a) (disk_write (b_blockno x) (b_data x) m) ∧ a_op (ata_done a) = ANone ∧ a_busy (ata_done a) = 0%nat.
Proof.
  intros [_ He Hsz Hm Hfull] Ho Hf Hbn Hr. unfold op_of in Ho. rewrite Hf in Ho. change (is_dirty _) with true in Ho.
  unfold ata_done in *. rewrite Ho in *. split; [|done]. split; try done; cbn; intros bn Hb.
  - destruct (decide (bn = b_blockno x)) as [->|Hne]; [by rewrite !lookup_insert_eq|]. rewrite !lookup_insert_ne by congruence. by apply Hm.
  - destruct (decide (bn = b_blockno x)) as [->|Hne]; [by rewrite lookup_insert_eq|]. rewrite lookup_insert_ne by congruence. by apply Hfull.
Qed.

Lemma flags_end x : b_flags x = 0 ∨ b_flags x = Z.lor B_VALID B_DIRTY →
  set_flags (λ f, clear_flag B_DIRTY (or_flag B_VALID f)) x = set_flags (λ _, B_VALID) x.
Proof. unfold set_flags. by intros [-> | ->]. Qed.

(** The device ends its command and raises the interrupt; [ideintr] completes the
    head of the queue as the in-memory driver would, and starts the next one. *)
Lemma ideintr_spec s d' b q m x me :
  ide_rep s (b :: q) m → id_bufs s !! b = Some x → holdingsleep me (b_lock x) = true → ata_finish (id_dev s) d' →
  ∃ s' x' m', ideintr polls (set_dev d' s) = Ok tt s' ∧ Memide.iderw me x m = Ok x' m' ∧ ide_rep s' q m' ∧
    id_bufs s' = <[b := x']> (id_bufs s) ∧ id_woken s' = b :: id_woken s ∧
    b_flags x' = B_VALID ∧ b_lock x' = b_lock x.
Proof.
  intros [Hh Hl Hn H1 Hbufs (a & Ha & Hop)] Hx Hlk Hfin.
  destruct (Hbufs b) as (y & Hy & Hrq); [set_solver|]. rewrite Hx in Hy. injection Hy as <-. specialize (Hop x Hx).
  apply list.NoDup_cons in Hn as [Hbq Hn]. pose proof (ata_finish_ok _ _ _ (do_rep _ _ _ Ha) Hfin) as Hr'.
  pose proof (rq_block _ Hrq) as Hbn.
  assert (write_ok me m x) as Hw by (split; [done|]; split; [apply Hrq|]; by rewrite (do_size _ _ _ Ha)).
  assert (∀ x', ∀ c, c ∈ q → ∃ y, <[b := x']> (id_bufs s) !! c = Some y ∧ request y) as Hbufs'.
  { intros x' c Hc. rewrite lookup_insert_ne by (intros ->; done). apply Hbufs. set_solver. }
  assert (qnext s !! b = head q) as Hnext by (rewrite (Hl 0%nat b eq_refl); by destruct q).
  unfold ideintr. rewrite bind_gets. cbn [idequeue set_dev]. rewrite Hh. cbn [head]. rewrite bind_modify. cbn [qnext set_dev]. rewrite Hnext.
  erewrite bind_Ok; [|apply ide_getb_run; exact Hx]. destruct (rq_flags _ Hrq) as [Hf|Hf]; rewrite Hf.
  - change (is_dirty 0) with false. cbn iota. unfold op_of in Hop. rewrite Hf in Hop. change (is_dirty 0) with false in Hop. cbn in Hop.
    destruct (do_full _ _ _ Ha _ Hbn) as [blk Hblk]. pose proof (do_media _ _ _ Ha _ Hbn) as Hmed. rewrite Hblk in Hmed.
    assert (a_op (ata_done a) = ARead 1 (b_blockno x) ∧ a_busy (ata_done a) = 0%nat ∧ a_media (ata_done a) = a_media a ∧ a_err (ata_done a) = false)
      as (Eo & Eb & Em & Ee) by (unfold ata_done; rewrite Hop; cbn; pose proof (do_err _ _ _ Ha); done).
    destruct (idewait_ready d' _ true Hr' Eb Ee) as (d1 & R1 & H1d).
    destruct (ata_insl_ok d1 _ _ _ blk H1d Eo Eb ltac:(by rewrite Em)) as (d2 & R2 & H2d).
    rewrite bind_assoc. erewrite bind_Ok; [|apply on_dev_run; exact R1]. cbn [Z.leb Z.compare]. rewrite bind_assoc.
    erewrite bind_Ok; [|apply on_dev_run; exact R2]. rewrite bind_ret. unfold putb. rewrite !bind_modify.
    set (s1 := set_woken _ _). destruct (start_next s1 q m (set_op ANone 0 (ata_done a))) as (s' & R & Hrep & Hb' & Hw'); try done.
    + by apply linked_tail in Hl.
    + apply Hbufs'.
    + destruct Ha as [_ _ Hsz Hm Hfull]. split; try done. intros bn Hbn'. cbn. rewrite Em. by apply Hm.
    + eexists s', _, m. split; [exact R|]. split; [by apply iderw_read|]. split; [done|]. split; [|done]. rewrite Hb'. unfold s1. by rewrite flags_end by (left; exact Hf).
  - change (is_dirty _) with true. cbn iota. rewrite bind_ret. unfold putb. rewrite !bind_modify.
    destruct (complete_write _ d' a m x Ha Hop Hf Hbn Hr') as (Ha' & Eo & Eb).
    set (s1 := set_woken _ _). destruct (start_next s1 q (disk_write (b_blockno x) (b_data x) m) (ata_done a)) as (s' & R & Hrep & Hb' & Hw'); [done|by apply linked_tail in Hl|done|done| |exact Ha'|done|done|].
    + apply Hbufs'.
    + eexists s', _, _. split; [exact R|]. split; [by apply iderw_write|]. split; [done|]. split; [|done]. rewrite Hb'. unfold s1. by rewrite flags_end by (right; exact Hf).
Qed.
End correct.

(** ** Many processes and the disk

    A process calls [iderw] and sleeps, is woken by [ideintr] (or by kill) and
    runs the rest of the call.  Calls are numbered in their order; [sy_calls]
    keeps the buffer number and the buffer as it was passed.  Between calls the
    holder of a buffer's lock may do anything with it. *)

Inductive pstate := PIdle | PAsleep (j : nat) | PWaking (j : nat).

Record sys (D : Type) := mkSys { sy_ide : ide D; sy_procs : list pstate; sy_calls : list (Z * nat * buf) }.
Arguments mkSys {D}.
Arguments sy_ide {D}.
Arguments sy_procs {D}.
Arguments sy_calls {D}.

Definition pid_of (i : nat) : Z := i + 1.
Definition waits_for (p : pstate) : option nat := match p with PIdle => None | PAsleep j | PWaking j => Some j end.
(** wakeup(b): sleepers on [b] run again. *)
Definition wake (calls : list (Z * nat * buf)) (b : nat) (p : pstate) : pstate :=
  match p with
  | PAsleep j => match calls !! j with Some (_, c, _) => if decide (c = b) then PWaking j else p | None => p end
  | _ => p
  end.

Section system.
Context {D : Type} {P : PortIO D} {A : AtaDisk D} (polls : nat).

(** No call on buffer [b] is under way. *)
Definition unused (s : sys D) (b : nat) : Prop :=
  ∀ i p j me x, sy_procs s !! i = Some p → waits_for p = Some j → sy_calls s !! j ≠ Some (me, b, x).

Inductive step : sys D → sys D → Prop :=
| step_call s i b x c s' :
    sy_procs s !! i = Some PIdle → id_bufs (sy_ide s) !! b = Some x → request x →
    holdingsleep (pid_of i) (b_lock x) = true →
    iderw polls (pid_of i) b (sy_ide s) = Sleeping c s' →
    step s (mkSys s' (<[i := PAsleep (length (sy_calls s))]> (sy_procs s)) (sy_calls s ++ [(pid_of i, b, x)]))
| step_intr s d' s' b :
    idequeue (sy_ide s) = Some b → ata_finish (id_dev (sy_ide s)) d' →
    ideintr polls (set_dev d' (sy_ide s)) = Ok tt s' →
    step s (mkSys s' (wake (sy_calls s) b <$> sy_procs s) (sy_calls s))
| step_return s i j me b x s' :
    sy_procs s !! i = Some (PWaking j) → sy_calls s !! j = Some (me, b, x) →
    iderw_wait b (sy_ide s) = Ok tt s' →
    step s (mkSys s' (<[i := PIdle]> (sy_procs s)) (sy_calls s))
| step_sleep s i j me b x c s' :
    sy_procs s !! i = Some (PWaking j) → sy_calls s !! j = Some (me, b, x) →
    iderw_wait b (sy_ide s) = Sleeping c s' →
    step s (mkSys s' (<[i := PAsleep j]> (sy_procs s)) (sy_calls s))
| step_kill s i j :
    sy_procs s !! i = Some (PAsleep j) →
    step s (mkSys (sy_ide s) (<[i := PWaking j]> (sy_procs s)) (sy_calls s))
| step_owner s b x :
    unused s b →
    step s (mkSys (set_bufs (<[b := x]> (id_bufs (sy_ide s))) (sy_ide s)) (sy_procs s) (sy_calls s)).

(** The specification: the calls served one after the other by the in-memory
    driver, with the buffers they give back. *)
Fixpoint serve (calls : list (Z * nat * buf)) : M mdisk (list buf) :=
  match calls with
  | [] => ret []
  | (me, _, x) :: calls => let! y := Memide.iderw me x in let! ys := serve calls in ret (y :: ys)
  end.

(** The driver has served the first [length ys] calls, in order. *)
Record served (m0 : mdisk) (s : sys D) (ys : list buf) (m : mdisk) : Prop := {
  sv_run : serve (take (length ys) (sy_calls s)) m0 = Ok ys m;
  sv_len : (length ys ≤ length (sy_calls s))%nat;
  sv_rep : ide_rep (sy_ide s) ((λ c, c.1.2) <$> drop (length ys) (sy_calls s)) m;
  (** a call not yet served is waited for, its buffer is as it was passed *)
  sv_wait : ∀ j me b x, (length ys ≤ j)%nat → sy_calls s !! j = Some (me, b, x) →
    (∃ i p, sy_procs s !! i = Some p ∧ waits_for p = Some j) ∧ id_bufs (sy_ide s) !! b = Some x ∧ request x;
  (** a sleeper's call is not served; a process holds the lock of the buffer it
      waits for, and finds in it what the call gave back *)
  sv_asleep : ∀ i j, sy_procs s !! i = Some (PAsleep j) → (length ys ≤ j)%nat;
  sv_proc : ∀ i p j, sy_procs s !! i = Some p → waits_for p = Some j → ∃ b x y,
    sy_calls s !! j = Some (pid_of i, b, x) ∧ id_bufs (sy_ide s) !! b = Some y ∧ holdingsleep (pid_of i) (b_lock y) = true ∧
    ((j < length ys)%nat → ys !! j = Some y ∧ b_flags y = B_VALID) }.

Lemma serve_snoc l me b x m0 ys m y m' :
  serve l m0 = Ok ys m → Memide.iderw me x m = Ok y m' → serve (l ++ [(me, b, x)]) m0 = Ok (ys ++ [y]) m'.
Proof.
  revert m0 ys. induction l as [|[[me1 b1] x1] l IH]; intros m0 ys; cbn [serve app].
  - intros [= <- <-] R. by mstep R.
  - intros R1 R2. apply bind_Ok_inv in R1 as (y1 & m1 & R1 & R3). mstep R1. apply bind_Ok_inv in R3 as (ys1 & m2 & R3 & [= <- <-]).
    by rewrite (bind_Ok _ _ _ _ _ (IH _ _ R3 R2)).
Qed.

Lemma waits_wake calls b p : waits_for (wake calls b p) = waits_for p.
Proof. destruct p; [done| |done]. cbn. by repeat case_match. Qed.

Lemma ide_rep_bufs (s : ide D) q m b x : ide_rep s q m → b ∉ q → ide_rep (set_bufs (<[b := x]> (id_bufs s)) s) q m.
Proof.
  intros [Hh Hl Hn H1 Hb (a & Ha & Hop)] Hbq. split; try done; cbn.
  - intros c Hc. rewrite lookup_insert_ne by (intros ->; done). by apply Hb.
  - exists a. split; [done|]. destruct q as [|c q]; [done|]. intros y. rewrite lookup_insert_ne; [apply Hop|]. intros ->. apply Hbq, list_elem_of_here.
Qed.

Lemma holding_pid i1 i2 l : holdingsleep (pid_of i1) l = true → holdingsleep (pid_of i2) l = true → i1 = i2.
Proof. unfold holdingsleep, pid_of. intros [_ H1%Z.eqb_eq]%andb_true_iff [_ H2%Z.eqb_eq]%andb_true_iff. lia. Qed.

Section inv.
Context (m0 : mdisk) (Hpolls : (0 < polls)%nat).
Implicit Types (s : sys D) (ys : list buf) (m : mdisk).

(** A buffer is waited for by one process, in one call. *)
Lemma same_buffer s ys m i1 i2 p1 p2 j1 j2 me1 me2 b x1 x2 : served m0 s ys m →
  sy_procs s !! i1 = Some p1 → waits_for p1 = Some j1 → sy_calls s !! j1 = Some (me1, b, x1) →
  sy_procs s !! i2 = Some p2 → waits_for p2 = Some j2 → sy_calls s !! j2 = Some (me2, b, x2) → j1 = j2.
Proof.
  intros H P1 W1 C1 P2 W2 C2. destruct (sv_proc _ _ _ _ H _ _ _ P1 W1) as (b1 & z1 & y1 & E1 & B1 & L1 & _).
  destruct (sv_proc _ _ _ _ H _ _ _ P2 W2) as (b2 & z2 & y2 & E2 & B2 & L2 & _). simplify_eq.
  by pose proof (holding_pid _ _ _ L1 L2); simplify_eq.
Qed.

(** The buffers in the queue. *)
Lemma in_queue s ys m b : served m0 s ys m → b ∈ (λ c, c.1.2) <$> drop (length ys) (sy_calls s) →
  ∃ j me x, (length ys ≤ j)%nat ∧ sy_calls s !! j = Some (me, b, x).
Proof.
  intros H Hb. apply list_elem_of_fmap in Hb as ([[me c] x] & -> & Hc). apply list_elem_of_lookup in Hc as [j Hj].
  rewrite lookup_drop in Hj. exists (length ys + j)%nat, me, x. split; [lia|done].
Qed.

Lemma served_call s ys m i b x c (s' : ide D) : served m0 s ys m →
  sy_procs s !! i = Some PIdle → id_bufs (sy_ide s) !! b = Some x → request x → holdingsleep (pid_of i) (b_lock x) = true →
  iderw polls (pid_of i) b (sy_ide s) = Sleeping c s' →
  served m0 (mkSys s' (<[i := PAsleep (length (sy_calls s))]> (sy_procs s)) (sy_calls s ++ [(pid_of i, b, x)])) ys m.
Proof.
  intros H Hi Hb Hrq Hlk R. pose proof (sv_len _ _ _ _ H) as Hlen.
  assert (b ∉ (λ c, c.1.2) <$> drop (length ys) (sy_calls s)) as Hnq.
  { intros Hin. destruct (in_queue _ _ _ _ H Hin) as (j & me & x' & Hj & Ej).
    destruct (sv_wait _ _ _ _ H _ _ _ _ Hj Ej) as ((i' & p & Hp & Hw) & Hb' & _).
    destruct (sv_proc _ _ _ _ H _ _ _ Hp Hw) as (b1 & z1 & y1 & E1 & B1 & L1 & _). simplify_eq.
    pose proof (holding_pid _ _ _ L1 Hlk). by simplify_eq. }
  destruct (iderw_spec polls Hpolls _ _ _ _ _ _ (sv_rep _ _ _ _ H) Hb Hrq Hlk Hnq) as (s1 & R1 & Hrep & Eb & _).
  rewrite R in R1. injection R1 as -> <-.
  assert (∀ i' p, sy_procs s !! i' = Some p → p ≠ PIdle → (<[i := PAsleep (length (sy_calls s))]> (sy_procs s)) !! i' = Some p) as Hother.
  { intros i' p Hp Hne. rewrite list_lookup_insert_ne by congruence. done. }
  split; cbn [sy_calls sy_ide sy_procs]; rewrite ?Eb.
  - rewrite take_app_le by done. apply H.
  - rewrite length_app. lia.
  - rewrite drop_app_le by done. by rewrite fmap_app.
  - intros j me c' x' Hj Hc. destruct (decide (j < length (sy_calls s))%nat) as [Hlt|Hge].
    + rewrite lookup_app_l in Hc by done. destruct (sv_wait _ _ _ _ H _ _ _ _ Hj Hc) as ((i' & p & Hp & Hw) & Hx).
      split; [|done]. exists i', p. split; [|done]. apply Hother; [done|]. by intros ->.
    + pose proof (lookup_lt_Some _ _ _ Hc) as Hl. rewrite length_app in Hl. simpl in Hl. replace j with (length (sy_calls s)) in * by lia.
      rewrite list_lookup_middle in Hc by done. injection Hc as <- <- <-. split; [|done]. exists i, (PAsleep (length (sy_calls s))).
      split; [|done]. apply list_lookup_insert_eq. by eapply lookup_lt_Some.
  - intros i' j. destruct (decide (i' = i)) as [->|Hne].
    + rewrite list_lookup_insert_eq by (by eapply lookup_lt_Some). intros [= <-]. done.
    + rewrite list_lookup_insert_ne by done. apply H.
  - intros i' p j. destruct (decide (i' = i)) as [->|Hne].
    + rewrite list_lookup_insert_eq by (by eapply lookup_lt_Some). intros [= <-] [= <-]. exists b, x, x.
      rewrite list_lookup_middle by done. split; [done|]. split; [done|]. split; [done|]. lia.
    + rewrite list_lookup_insert_ne by done. intros Hp Hw. destruct (sv_proc _ _ _ _ H _ _ _ Hp Hw) as (b1 & z1 & y1 & E1 & Hrest).
      exists b1, z1, y1. split; [|done]. by apply lookup_app_l_Some.
Qed.

Lemma served_intr s ys m d' b : served m0 s ys m →
  idequeue (sy_ide s) = Some b → ata_finish (id_dev (sy_ide s)) d' →
  ∃ y m' (s1 : ide D), ideintr polls (set_dev d' (sy_ide s)) = Ok tt s1 ∧
    served m0 (mkSys s1 (wake (sy_calls s) b <$> sy_procs s) (sy_calls s)) (ys ++ [y]) m'.
Proof.
  intros H Hq Hfin. pose proof (sv_rep _ _ _ _ H) as Hrep. pose proof (ir_head _ _ _ Hrep) as Hh. rewrite Hq in Hh.
  destruct (drop (length ys) (sy_calls s)) as [|[[me b0] x] rest] eqn:Ed; [done|]. injection Hh as <-.
  assert (sy_calls s !! length ys = Some (me, b, x)) as Hc by (rewrite <- (Nat.add_0_r (length ys)), <- lookup_drop, Ed; done).
  destruct (sv_wait _ _ _ _ H _ _ _ _ (le_n _) Hc) as ((i & p & Hp & Hw) & Hb & Hrq).
  destruct (sv_proc _ _ _ _ H _ _ _ Hp Hw) as (b1 & z1 & y1 & E1 & B1 & L1 & _). simplify_eq.
  destruct (ideintr_spec polls Hpolls _ d' b _ m x (pid_of i) Hrep Hb L1 Hfin) as (s1 & y & m' & R & Rm & Hrep' & Eb & _ & Hfl & Hlk).
  exists y, m', s1. split; [done|].
  assert (drop (S (length ys)) (sy_calls s) = rest) as Ed' by (by rewrite <- Nat.add_1_r, <- drop_drop, Ed).
  pose proof (lookup_lt_Some _ _ _ Hc) as Hlt.
  assert (∀ i' p' j', sy_procs s !! i' = Some p' → waits_for p' = Some j' → ∀ me' x', sy_calls s !! j' = Some (me', b, x') → j' = length ys) as Hb1.
  { intros i' p' j' Hp' Hw' me' x' Hc'. symmetry. by eapply (same_buffer s ys m i i'). }
  split; cbn [sy_calls sy_ide sy_procs]; rewrite ?length_app; cbn [length]; rewrite ?Nat.add_1_r, ?Eb.
  - rewrite (take_S_r _ _ _ Hc). eapply serve_snoc; [apply H|done].
  - lia.
  - by rewrite Ed'.
  - intros j me' b' x' Hj Hc'. destruct (sv_wait _ _ _ _ H j me' b' x') as ((i' & p' & Hp' & Hw') & Hb' & Hrq'); [lia|done|].
    split; [|split; [|done]].
    + exists i', (wake (sy_calls s) b p'). rewrite list_lookup_fmap, Hp'. split; [done|]. by rewrite waits_wake.
    + rewrite lookup_insert_ne; [done|]. intros ->. enough (j = length ys) by lia. by eapply Hb1.
  - intros i' j Hi'. rewrite list_lookup_fmap in Hi'. destruct (sy_procs s !! i') as [p'|] eqn:Hp'; [|done]. injection Hi' as Hwk.
    destruct p' as [|j'|j']; [done| |done]. pose proof (sv_asleep _ _ _ _ H _ _ Hp') as Hle. cbn in Hwk.
    destruct (decide (j' = length ys)) as [->|Hne]; [rewrite Hc, decide_True in Hwk by done; done|].
    repeat case_match; simplify_eq; lia.
  - intros i' p' j Hi' Hw'. rewrite list_lookup_fmap in Hi'. destruct (sy_procs s !! i') as [p0|] eqn:Hp0; [|done]. injection Hi' as <-.
    rewrite waits_wake in Hw'. destruct (sv_proc _ _ _ _ H _ _ _ Hp0 Hw') as (b2 & z2 & y2 & E2 & B2 & L2 & D2).
    destruct (decide (b2 = b)) as [->|Hne].
    + assert (j = length ys) as -> by (by eapply Hb1). rewrite Hb in B2. injection B2 as <-. exists b, z2, y. rewrite lookup_insert_eq, Hlk.
      split; [done|]. split; [done|]. split; [done|]. intros _. by rewrite list_lookup_middle.
    + exists b2, z2, y2. rewrite lookup_insert_ne by done. split; [done|]. split; [done|]. split; [done|]. intros Hj.
      destruct (decide (j = length ys)) as [->|Hjne]; [simplify_eq|]. rewrite lookup_app_l by lia. apply D2. lia.
Qed.

Lemma wait_served (s : ide D) b y : id_bufs s !! b = Some y → b_flags y = B_VALID → iderw_wait b s = Ok tt s.
Proof. intros Hb Hf. unfold iderw_wait. mstep (ide_getb_run _ _ _ Hb). by rewrite Hf. Qed.

(** Changing the state of one process that waits for the same call as before. *)
Lemma served_proc s ys m i p p' : served m0 s ys m → sy_procs s !! i = Some p → waits_for p = waits_for p' →
  (∀ j, p' = PAsleep j → (length ys ≤ j)%nat) → served m0 (mkSys (sy_ide s) (<[i := p']> (sy_procs s)) (sy_calls s)) ys m.
Proof.
  intros H Hi Hw Ha.
  assert (∀ i' q, (<[i := p']> (sy_procs s)) !! i' = Some q → (i' = i ∧ q = p') ∨ sy_procs s !! i' = Some q) as Hcase.
  { intros i' q [(-> & <- & _)|[_ Hq]]%list_lookup_insert_Some; [by left|by right]. }
  split; cbn [sy_calls sy_ide sy_procs]; [apply H..| | |].
  - intros j me b x Hj Hc. destruct (sv_wait _ _ _ _ H _ _ _ _ Hj Hc) as ((i' & q & Hq & Hwq) & Hx). split; [|done].
    destruct (decide (i' = i)) as [->|Hne].
    + exists i, p'. simplify_eq. rewrite <- Hw. split; [|done]. apply list_lookup_insert_eq. by eapply lookup_lt_Some.
    + exists i', q. by rewrite list_lookup_insert_ne.
  - intros i' j Hq. destruct (Hcase _ _ Hq) as [[-> <-]|Hq']; [by apply Ha|by eapply H].
  - intros i' q j Hq Hwq. destruct (Hcase _ _ Hq) as [[-> ->]|Hq']; [|by eapply H]. rewrite <- Hw in Hwq. by eapply H.
Qed.

Lemma served_return s ys m i j me b x (s' : ide D) : served m0 s ys m →
  sy_procs s !! i = Some (PWaking j) → sy_calls s !! j = Some (me, b, x) → iderw_wait b (sy_ide s) = Ok tt s' →
  s' = sy_ide s ∧ ∃ y, ys !! j = Some y ∧ id_bufs (sy_ide s) !! b = Some y.
Proof.
  intros H Hi Hc R. destruct (sv_proc _ _ _ _ H _ _ _ Hi eq_refl) as (b1 & z1 & y1 & E1 & B1 & L1 & D1). simplify_eq.
  destruct (decide (j < length ys)%nat) as [Hlt|Hge].
  - destruct (D1 Hlt) as [Hy Hf]. rewrite (wait_served _ _ _ B1 Hf) in R. injection R as <-. split; [done|]. by exists y1.
  - destruct (sv_wait _ _ _ _ H j _ _ _ ltac:(lia) Hc) as (_ & Hb & Hrq). by rewrite (iderw_wait_sleeps _ _ _ Hb Hrq) in R.
Qed.

Lemma served_sleep s ys m i j me b x c (s' : ide D) : served m0 s ys m →
  sy_procs s !! i = Some (PWaking j) → sy_calls s !! j = Some (me, b, x) → iderw_wait b (sy_ide s) = Sleeping c s' →
  s' = sy_ide s ∧ (length ys ≤ j)%nat.
Proof.
  intros H Hi Hc R. destruct (sv_proc _ _ _ _ H _ _ _ Hi eq_refl) as (b1 & z1 & y1 & E1 & B1 & L1 & D1). simplify_eq.
  destruct (decide (j < length ys)%nat) as [Hlt|Hge].
  - destruct (D1 Hlt) as [_ Hf]. by rewrite (wait_served _ _ _ B1 Hf) in R.
  - split; [|lia]. unfold iderw_wait, bind in R. rewrite (ide_getb_run _ _ _ B1) in R. case_match; [|done]. by injection R.
Qed.

(** An idle process again: its call was served. *)
Lemma served_idle s ys m i j : served m0 s ys m → sy_procs s !! i = Some (PWaking j) → (j < length ys)%nat →
  served m0 (mkSys (sy_ide s) (<[i := PIdle]> (sy_procs s)) (sy_calls s)) ys m.
Proof.
  intros H Hi Hj.
  assert (∀ i' q, (<[i := PIdle]> (sy_procs s)) !! i' = Some q → q = PIdle ∨ sy_procs s !! i' = Some q) as Hcase.
  { intros i' q [(-> & <- & _)|[_ Hq]]%list_lookup_insert_Some; [by left|by right]. }
  split; cbn [sy_calls sy_ide sy_procs]; [apply H..| | |].
  - intros j' me b x Hj' Hc. destruct (sv_wait _ _ _ _ H _ _ _ _ Hj' Hc) as ((i' & q & Hq & Hwq) & Hx). split; [|done].
    exists i', q. rewrite list_lookup_insert_ne; [done|]. intros ->. simplify_eq. cbn in Hwq. simplify_eq. lia.
  - intros i' j' Hq. destruct (Hcase _ _ Hq) as [|Hq']; [done|by eapply H].
  - intros i' q j' Hq Hwq. destruct (Hcase _ _ Hq) as [-> |Hq']; [done|by eapply H].
Qed.

Lemma served_owner s ys m b x : served m0 s ys m → unused s b →
  served m0 (mkSys (set_bufs (<[b := x]> (id_bufs (sy_ide s))) (sy_ide s)) (sy_procs s) (sy_calls s)) ys m.
Proof.
  intros H Hu. split; cbn [sy_calls sy_ide sy_procs id_bufs set_bufs]; [apply H..| | |apply H|].
  - apply ide_rep_bufs; [apply H|]. intros Hin. destruct (in_queue _ _ _ _ H Hin) as (j & me & x' & Hj & Ej).
    destruct (sv_wait _ _ _ _ H _ _ _ _ Hj Ej) as ((i' & p & Hp & Hw) & _). by eapply Hu.
  - intros j me c x' Hj Hc. destruct (sv_wait _ _ _ _ H _ _ _ _ Hj Hc) as ((i' & p & Hp & Hw) & Hb & Hrq). split; [eauto|].
    split; [|done]. rewrite lookup_insert_ne; [done|]. intros ->. by eapply Hu.
  - intros i p j Hp Hw. destruct (sv_proc _ _ _ _ H _ _ _ Hp Hw) as (b1 & z1 & y1 & E1 & B1 & Hrest). exists b1, z1, y1.
    split; [done|]. split; [|done]. rewrite lookup_insert_ne; [done|]. intros ->. by eapply Hu.
Qed.

Lemma served_step s s' ys m : served m0 s ys m → step s s' → ∃ ys' m', served m0 s' ys' m'.
Proof.
  intros H Hst. destruct Hst as [s i b x c s' Hi Hb Hrq Hlk R|s d' s' b Hq Hfin R|s i j me b x s' Hi Hc R|s i j me b x c s' Hi Hc R|s i j Hi|s b x Hu].
  - exists ys, m. by eapply served_call.
  - destruct (served_intr _ _ _ _ _ H Hq Hfin) as (y & m' & s1 & R1 & H1). rewrite R in R1. injection R1 as <-. by eexists _, _.
  - destruct (served_return _ _ _ _ _ _ _ _ _ H Hi Hc R) as (-> & y & Hy & _). exists ys, m. eapply served_idle; [done|done|by eapply lookup_lt_Some].
  - destruct (served_sleep _ _ _ _ _ _ _ _ _ _ H Hi Hc R) as (-> & Hj). exists ys, m. eapply served_proc; [done|done|done|]. by intros ? [= <-].
  - exists ys, m. by eapply served_proc.
  - exists ys, m. by apply served_owner.
Qed.
End inv.
End system.

(** The system before the first call. *)
Definition sys_start {D} (d : ide D) (n : nat) : sys D := mkSys d (replicate n PIdle) [].

(** C6: the driver is a disk.  Any number of processes call [iderw] on buffers
    they have locked, in any order, while interrupts, wakeups and kills occur at
    any time.  In every state that can be reached, the calls completed so far
    are the first ones in the order of the calls, and they had the effects and
    the results that the in-memory driver gives when it serves them one after
    the other; a process that sleeps waits for a call that is not completed; a
    call that returns leaves in its buffer what that call gave; and the next
    interrupt completes the next call, without a panic. *)
Theorem ide_serves_in_order {D} {P : PortIO D} {A : AtaDisk D} (polls : nat) (d : ide D) (n : nat) (m0 : mdisk) (s : sys D) :
  (0 < polls)%nat → ide_rep d [] m0 → rtc (step polls) (sys_start d n) s →
  ∃ ys m, serve (take (length ys) (sy_calls s)) m0 = Ok ys m ∧ (length ys ≤ length (sy_calls s))%nat ∧
    (∀ i j, sy_procs s !! i = Some (PAsleep j) → (length ys ≤ j < length (sy_calls s))%nat) ∧
    (∀ i j me b x s', sy_procs s !! i = Some (PWaking j) → sy_calls s !! j = Some (me, b, x) → iderw_wait b (sy_ide s) = Ok tt s' →
       ∃ y, ys !! j = Some y ∧ id_bufs (sy_ide s) !! b = Some y) ∧
    (∀ d', (length ys < length (sy_calls s))%nat → ata_finish (id_dev (sy_ide s)) d' →
       ∃ y m' s', serve (take (S (length ys)) (sy_calls s)) m0 = Ok (ys ++ [y]) m' ∧ ideintr polls (set_dev d' (sy_ide s)) = Ok tt s').
Proof.
  intros Hpolls Hd Hrtc.
  assert (∃ ys m, served m0 s ys m) as (ys & m & H).
  { assert (served m0 (sys_start d n) [] m0) as H0.
    { split; cbn; try done. intros i j [Hi _]%lookup_replicate. done. intros i p j [-> _]%lookup_replicate. done. }
    revert Hrtc. generalize (ex_intro (λ ys, ∃ m, served m0 _ ys m) _ (ex_intro _ _ H0)). clear H0. generalize (sys_start d n). intros s0 H0 Hrtc.
    induction Hrtc as [s|s1 s2 s3 Hst _ IH]; [done|]. apply IH. destruct H0 as (ys & m & H). by eapply served_step. }
  exists ys, m. split; [apply H|]. split; [apply H|]. split; [|split].
  - intros i j Hi. split; [by eapply H|]. destruct (sv_proc _ _ _ _ H _ _ _ Hi eq_refl) as (b & x & y & Hc & _). by eapply lookup_lt_Some.
  - intros i j me b x s' Hi Hc R. destruct (served_return polls m0 Hpolls _ _ _ _ _ _ _ _ _ H Hi Hc R) as (_ & y & Hy & Hb). by exists y.
  - intros d' Hlt Hfin. destruct (idequeue (sy_ide s)) as [b|] eqn:Hq.
    + destruct (served_intr polls m0 Hpolls _ _ _ _ _ H Hq Hfin) as (y & m' & s1 & R & H'). exists y, m', s1. split; [|done].
      pose proof (sv_run _ _ _ _ H') as Hrun. rewrite length_app in Hrun. cbn in Hrun. by rewrite Nat.add_1_r in Hrun.
    + pose proof (ir_head _ _ _ (sv_rep _ _ _ _ H)) as Hh. rewrite Hq in Hh.
      destruct (drop (length ys) (sy_calls s)) eqn:E; [|done]. apply (f_equal length) in E. rewrite length_drop in E. simpl in E. lia.
Qed.

(** ** An example: a disk of zeroes, a write and a read of block 5 *)

Definition zero_blocks {K} `{Countable K} (f : nat → K) : gmap K bytes :=
  list_to_map ((λ i, (f i, replicate BSIZE 0)) <$> seq 0 1000).

Lemma zero_blocks_lookup {K} `{Countable K} (f : nat → K) `{!Inj (=) (=) f} i : (i < 1000)%nat → zero_blocks f !! f i = Some (replicate BSIZE 0).
Proof.
  intros Hi. apply elem_of_list_to_map_1.
  - rewrite <- list_fmap_compose. apply NoDup_fmap_2; [apply _|apply NoDup_seq].
  - apply (list_elem_of_fmap_2 (λ i, (f i, replicate BSIZE 0))). apply elem_of_seq. lia.
Qed.

Definition demo_ata : ata := mkAta ∅ (zero_blocks (λ i, (1, Z.of_nat i))) ANone 0 false 7.
Definition demo_disk : mdisk := mkDisk FSSIZE (zero_blocks Z.of_nat) [].
Definition demo_buf (pid flags v : Z) : buf := mkBuf flags 1 5 (mkSleep 1 pid) 1 0 0 (replicate BSIZE v).
Definition demo_ide : ide ata := mkIde demo_ata {[0%nat := demo_buf 1 6 65; 1%nat := demo_buf 2 0 0]} ∅ None true [].

Lemma demo_ide_rep : ide_rep demo_ide [] demo_disk.
Proof.
  assert (∀ {K} `{Countable K} (f : nat → K), map_Forall (λ _ d, length d = 512%nat) (zero_blocks f)) as Hlen.
  { intros K ? ? f k d Hd. apply elem_of_list_to_map_2, list_elem_of_fmap in Hd as (i & [= _ ->] & _). done. }
  split; [reflexivity|by intros i b|apply NoDup_nil_2|reflexivity|by intros b Hb%not_elem_of_nil|].
  exists demo_ata. split; [|split; reflexivity]. split; [split; [reflexivity|split; [apply Hlen|discriminate]]|reflexivity|reflexivity| |].
  - intros bn Hbn. unfold FSSIZE in Hbn. rewrite <- (Z2Nat.id bn) by lia. cbn [a_media demo_ata md_blocks demo_disk].
    rewrite (zero_blocks_lookup Z.of_nat) by lia. apply (zero_blocks_lookup (λ i, (1, Z.of_nat i))). lia.
  - intros bn Hbn. unfold FSSIZE in Hbn. rewrite <- (Z2Nat.id bn) by lia. cbn [md_blocks demo_disk].
    rewrite (zero_blocks_lookup Z.of_nat) by lia. by eexists.
Qed.

(** Process 0 writes block 5; the interrupt that ends the write completes the call. *)
Lemma ide_serves_in_order_witness :
  ∃ s', iderw 1 1 0 demo_ide = Sleeping (buf_chan 0) s' ∧
    ∃ ys m, serve (take (length ys) [(1, 0%nat, demo_buf 1 6 65)]) demo_disk = Ok ys m ∧
      ∀ d', (length ys < 1)%nat → ata_finish (id_dev s') d' →
        ∃ y m' s'', serve [(1, 0%nat, demo_buf 1 6 65)] demo_disk = Ok (ys ++ [y]) m' ∧ ideintr 1 (set_dev d' s') = Ok tt s''.
Proof.
  destruct (iderw_spec 1 ltac:(lia) demo_ide [] demo_disk 1 0 (demo_buf 1 6 65) demo_ide_rep) as (s' & R & _).
  { reflexivity. } { split; [by right|reflexivity|cbn; unfold FSSIZE; lia|reflexivity]. } { reflexivity. } { apply not_elem_of_nil. }
  exists s'. split; [exact R|].
  destruct (ide_serves_in_order 1 demo_ide 2 demo_disk (mkSys s' [PAsleep 0; PIdle] [(1, 0%nat, demo_buf 1 6 65)])) as (ys & m & H1 & H2 & _ & _ & H5).
  - lia.
  - exact demo_ide_rep.
  - eapply rtc_l; [|apply rtc_refl]. apply (step_call 1 (sys_start demo_ide 2) 0 0 (demo_buf 1 6 65) (buf_chan 0) s'); try reflexivity; [|exact R].
    split; [by right|reflexivity|cbn; unfold FSSIZE; lia|reflexivity].
  - exists ys, m. split; [exact H1|]. intros d' Hl Hf. destruct (H5 d' Hl Hf) as (y & m' & s'' & Hs & Hi). exists y, m', s''.
    split; [|exact Hi]. assert (length ys = 0%nat) as E by lia. rewrite E in Hs. exact Hs.
Defined.

(** A read that fails: the buffer is marked valid although nothing was read, so
    the caller goes on with what was in it. *)
Lemma ideintr_read_error {D} {P : PortIO D} polls (s : ide D) b x d1 :
  idequeue s = Some b → id_bufs s !! b = Some x → b_flags x = 0 → qnext s !! b = None →
  idewait polls true (id_dev s) = Ok (-1) d1 →
  ∃ s', ideintr polls s = Ok tt s' ∧ id_bufs s' !! b = Some (set_flags (λ _, B_VALID) x).
Proof.
  intros Hq Hx Hf Hn R. unfold ideintr. rewrite bind_gets, Hq, bind_modify, Hn. erewrite bind_Ok; [|apply ide_getb_run; exact Hx].
  rewrite Hf. change (is_dirty 0) with false. cbn iota. rewrite bind_assoc. erewrite bind_Ok; [|apply on_dev_run; exact R].
  cbn [Z.leb Z.compare]. rewrite bind_ret. unfold putb. rewrite !bind_modify, bind_gets. eexists. split; [reflexivity|]. cbn.
  rewrite lookup_insert_eq. by rewrite flags_end by (by left).
Qed.
