(* ===== verification/Bio.v ===== *)
(** * The buffer cache: bio.c

    The cache is the array [buf[NBUF]] plus the list head; element [HEAD] of
    [bufs] is [bcache.head], and [prev]/[next] are indices.  bcache.lock makes
    each list operation atomic; the code is translated as one process runs it.
    The representation relation [bio_rep] ties the linked structure to an
    abstract cache: what the disk holds, what the cached view of the disk is,
    which blocks are held (locked) and which are pinned by B_DIRTY. *)
From S2P Require Import Prelude Str Sleeplock Memide.

Definition NBUF : nat := 30.
Definition HEAD : nat := NBUF.
Definition NULL : nat := S NBUF.

Record bst := mkBst { bufs : list buf; disk : mdisk }.
Definition set_disk (d : mdisk) (s : bst) : bst := mkBst (bufs s) d.

(** The zeroed [struct buf] of the BSS segment. *)
Definition zero_block : bytes := replicate BSIZE 0.
Definition zero_buf : buf := mkBuf 0 0 0 (mkSleep 0 0) 0 NULL NULL zero_block.
Definition bss (d : mdisk) : bst := mkBst (replicate (S NBUF) zero_buf) d.

(** ** Access through a buffer pointer *)

Definition getb (i : nat) : M bst buf := λ s,
  match bufs s !! i with Some b => Ok b s | None => Panic "page fault" end.

Definition modb (f : buf → buf) (i : nat) : M bst unit := λ s,
  match bufs s !! i with
  | Some b => Ok tt (mkBst (<[i := f b]> (bufs s)) (disk s))
  | None => Panic "page fault"
  end.

Definition on_lock {A} (i : nat) (m : M sleeplock A) : M bst A := λ s,
  match bufs s !! i with
  | Some b =>
      zoom (λ _, b_lock b) (λ l s, mkBst (<[i := set_lock l b]> (bufs s)) (disk s)) m s
  | None => Panic "page fault"
  end.

Section code.
Context (me : Z).

(** ** binit *)

Definition binit_one (b : nat) : M bst unit :=
  let! h := getb HEAD in
  do! modb (set_next (b_next h)) b in
  do! modb (set_prev HEAD) b in
  do! modb (set_lock initsleeplock) b in
  let! h := getb HEAD in
  do! modb (set_prev b) (b_next h) in
  modb (set_next b) HEAD.

Definition binit : M bst unit :=
  do! modb (set_prev HEAD) HEAD in
  do! modb (set_next HEAD) HEAD in
  for_each (seq 0 NBUF) binit_one.

(** ** bget *)

(** The first loop, along [next] from the head. *)
Fixpoint scan_next (p : buf → bool) (fuel : nat) (b : nat) : M bst (option nat) :=
  match fuel with
  | O => λ _, Fuel
  | S fuel =>
      if bool_decide (b = HEAD) then ret None else
      let! x := getb b in
      if p x then ret (Some b) else scan_next p fuel (b_next x)
  end.

(** The second loop, along [prev]. *)
Fixpoint scan_prev (p : buf → bool) (fuel : nat) (b : nat) : M bst (option nat) :=
  match fuel with
  | O => λ _, Fuel
  | S fuel =>
      if bool_decide (b = HEAD) then ret None else
      let! x := getb b in
      if p x then ret (Some b) else scan_prev p fuel (b_prev x)
  end.

Definition matches (dev blockno : Z) (b : buf) : bool :=
  (b_dev b =? dev) && (b_blockno b =? blockno).
Definition recyclable (b : buf) : bool :=
  (b_refcnt b =? 0) && (Z.land (b_flags b) B_DIRTY =? 0).

Definition bget (dev blockno : Z) : M bst nat :=
  let! h := getb HEAD in
  let! hit := scan_next (matches dev blockno) (S NBUF) (b_next h) in
  match hit with
  | Some b =>
      do! modb (set_refcnt (λ r, u32 (r + 1))) b in
      do! on_lock b (acquiresleep me (Chan "buf" b)) in
      ret b
  | None =>
      let! free := scan_prev recyclable (S NBUF) (b_prev h) in
      match free with
      | Some b =>
          do! modb (set_ident dev blockno) b in
          do! modb (set_flags (λ _, 0)) b in
          do! modb (set_refcnt (λ _, 1)) b in
          do! on_lock b (acquiresleep me (Chan "buf" b)) in
          ret b
      | None => panic "bget: no buffers"
      end
  end.

(** ** bread, bwrite, brelse *)

Definition bio_iderw (i : nat) : M bst unit := λ s,
  match bufs s !! i with
  | Some b =>
      match iderw me b (disk s) with
      | Ok b' d' => Ok tt (mkBst (<[i := b']> (bufs s)) d')
      | Panic msg => Panic msg
      | Sleeping c d' => Sleeping c (set_disk d' s)
      | Fuel => Fuel
      end
  | None => Panic "page fault"
  end.

Definition bread (dev blockno : Z) : M bst nat :=
  let! b := bget dev blockno in
  let! x := getb b in
  do! (if Z.land (b_flags x) B_VALID =? 0 then bio_iderw b else ret tt) in
  ret b.

Definition bwrite (b : nat) : M bst unit :=
  let! x := getb b in
  if negb (holdingsleep me (b_lock x)) then panic "bwrite" else
  do! modb (set_flags (or_flag B_DIRTY)) b in
  bio_iderw b.

Definition brelse (b : nat) : M bst unit :=
  let! x := getb b in
  if negb (holdingsleep me (b_lock x)) then panic "brelse" else
  do! on_lock b releasesleep in
  do! modb (set_refcnt (λ r, u32 (r - 1))) b in
  let! x := getb b in
  if b_refcnt x =? 0 then
    do! modb (set_prev (b_prev x)) (b_next x) in
    do! modb (set_next (b_next x)) (b_prev x) in
    let! h := getb HEAD in
    do! modb (set_next (b_next h)) b in
    do! modb (set_prev HEAD) b in
    let! h := getb HEAD in
    do! modb (set_prev b) (b_next h) in
    modb (set_next b) HEAD
  else ret tt.

(** Reading and assigning [b->data] while the buffer is held. *)
Definition bdata (b : nat) : M bst bytes := let! x := getb b in ret (b_data x).
Definition bstore (b : nat) (d : bytes) : M bst unit := modb (set_data d) b.
(** [b->flags |= B_DIRTY], done by log_write to pin the buffer. *)
Definition bpin (b : nat) : M bst unit := modb (set_flags (or_flag B_DIRTY)) b.
End code.

(** ** The doubly linked list *)

Definition nx (bs : list buf) (i : nat) : nat :=
  match bs !! i with Some b => b_next b | None => NULL end.
Definition pv (bs : list buf) (i : nat) : nat :=
  match bs !! i with Some b => b_prev b | None => NULL end.

(** Consecutive elements of [c] are linked both ways. *)
Fixpoint chain (bs : list buf) (c : list nat) : Prop :=
  match c with
  | u :: ((v :: _) as c') => nx bs u = v ∧ pv bs v = u ∧ chain bs c'
  | _ => True
  end.

(** The cache's buffers in most-recently-used order. *)
Definition ring (bs : list buf) (l : list nat) : Prop := chain bs (HEAD :: l ++ [HEAD]).

Section chain.
Implicit Types bs : list buf.

Lemma chain_app bs c1 u c2 :
  chain bs (c1 ++ u :: c2) ↔ chain bs (c1 ++ [u]) ∧ chain bs (u :: c2).
Proof.
  induction c1 as [|x c1 IH]; simpl; [tauto|].
  destruct c1 as [|y c1]; simpl in *; tauto.
Qed.

Lemma chain_ext bs bs' c :
  (∀ i, i ∈ removelast c → nx bs' i = nx bs i) →
  (∀ i, i ∈ tail c → pv bs' i = pv bs i) →
  chain bs c → chain bs' c.
Proof.
  induction c as [|u [|v c] IH]; intros Hn Hp; [done..|].
  intros (H1 & H2 & H3). change (chain bs (v :: c)) in H3.
  change (nx bs' u = v ∧ pv bs' v = u ∧ chain bs' (v :: c)).
  rewrite Hn by (simpl; destruct c; set_solver).
  rewrite Hp by set_solver. split_and!; [done..|]. apply IH; [| |done].
  - intros i Hi. apply Hn. simpl in *. destruct c; set_solver.
  - intros i Hi. apply Hp. simpl in *. set_solver.
Qed.

Lemma chain_cons bs u v c :
  chain bs (u :: v :: c) ↔ nx bs u = v ∧ pv bs v = u ∧ chain bs (v :: c).
Proof. done. Qed.

(** Only the links matter. *)
Lemma chain_same_links bs bs' c :
  (∀ i, nx bs' i = nx bs i) → (∀ i, pv bs' i = pv bs i) → chain bs c → chain bs' c.
Proof. intros Hn Hp. apply chain_ext; auto. Qed.

Lemma nx_insert bs i b j :
  (i < length bs)%nat → nx (<[i := b]> bs) j = if decide (j = i) then b_next b else nx bs j.
Proof.
  intros Hi. unfold nx. destruct (decide (j = i)) as [->|Hne].
  - by rewrite list_lookup_insert_eq by lia.
  - by rewrite list_lookup_insert_ne.
Qed.
Lemma pv_insert bs i b j :
  (i < length bs)%nat → pv (<[i := b]> bs) j = if decide (j = i) then b_prev b else pv bs j.
Proof.
  intros Hi. unfold pv. destruct (decide (j = i)) as [->|Hne].
  - by rewrite list_lookup_insert_eq by lia.
  - by rewrite list_lookup_insert_ne.
Qed.
End chain.

#[global] Arguments chain : simpl never.

Section ring.
Implicit Types bs : list buf.

(** Two lists of buffers whose links, and nothing else, were changed. *)
Definition same_but_links (b b' : buf) : Prop :=
  b_flags b' = b_flags b ∧ b_dev b' = b_dev b ∧ b_blockno b' = b_blockno b ∧
  b_lock b' = b_lock b ∧ b_refcnt b' = b_refcnt b ∧ b_data b' = b_data b.

#[global] Instance same_but_links_refl : Reflexive same_but_links.
Proof. by intros b. Qed.
#[global] Instance same_but_links_trans : Transitive same_but_links.
Proof. unfold same_but_links. intros b1 b2 b3; intuition congruence. Qed.

(** Unlink: [b->next->prev = b->prev; b->prev->next = b->next]. *)
Lemma ring_unlink bs bs' l1 b l2 :
  NoDup (HEAD :: l1 ++ b :: l2) →
  ring bs (l1 ++ b :: l2) →
  (∀ j, nx bs' j = if decide (j = pv bs b) then nx bs b else nx bs j) →
  (∀ j, pv bs' j = if decide (j = nx bs b) then pv bs b else pv bs j) →
  ring bs' (l1 ++ l2).
Proof.
  unfold ring. intros Hnd Hc Hn Hp.
  destruct (exists_last (l := HEAD :: l1)) as (c1 & p & Hc1); [done|].
  destruct (l2 ++ [HEAD]) as [|n c2] eqn:Hc2; [by destruct l2|].
  rewrite <- app_assoc in Hc. simpl in Hc. rewrite Hc2 in Hc.
  change (chain bs ((HEAD :: l1) ++ b :: n :: c2)) in Hc.
  rewrite Hc1, <- app_assoc in Hc. simpl in Hc.
  apply chain_app in Hc as [Hca Hcb].
  rewrite !chain_cons in Hcb. destruct Hcb as (Hpb & Hbp & Hbn & Hnb & Hcc).
  rewrite <- app_assoc, Hc2.
  change (chain bs' ((HEAD :: l1) ++ n :: c2)). rewrite Hc1, <- app_assoc. simpl.
  assert (n ∈ HEAD :: l2) as Hnin.
  { assert (n ∈ l2 ++ [HEAD]) by (rewrite Hc2; set_solver). set_solver. }
  assert (p ∈ HEAD :: l1) as Hpin by (rewrite Hc1; set_solver).
  assert (NoDup (c1 ++ [p])) as Hnd1.
  { rewrite <- Hc1. apply list.NoDup_cons in Hnd as [? ?]. apply list.NoDup_app in H0 as (? & ? & ?).
    apply list.NoDup_cons. set_solver. }
  assert (NoDup (n :: c2)) as Hnd2.
  { rewrite <- Hc2. apply list.NoDup_cons in Hnd as [? Hnd]. apply list.NoDup_app in Hnd as (? & ? & Hnd).
    apply list.NoDup_cons in Hnd as [? ?]. apply list.NoDup_app. split_and!; [done| |apply NoDup_singleton].
    set_solver. }
  apply list.NoDup_cons in Hnd as [HH Hnd]. apply list.NoDup_app in Hnd as (_ & Hdis & Hnd3).
  apply list.NoDup_cons in Hnd3 as [Hb2 _].
  apply chain_app; split.
  - eapply chain_ext; [| |exact Hca].
    + intros i Hi. rewrite removelast_last in Hi. rewrite Hn. case_decide as Hd; [|done].
      rewrite Hbp in Hd. subst i. exfalso. apply list.NoDup_app in Hnd1 as (_ & Hd & _). set_solver.
    + intros i Hi. rewrite <- Hc1 in Hi. simpl in Hi. rewrite Hp. case_decide as Hd; [|done].
      rewrite Hbn in Hd. subst i. exfalso. clear -HH Hdis Hnin Hi. set_solver.
  - rewrite chain_cons. split_and!.
    + rewrite Hn. rewrite decide_True by done. done.
    + rewrite Hp. rewrite decide_True by done. done.
    + eapply chain_ext; [| |exact Hcc].
      * intros i Hi. rewrite <- Hc2, removelast_last in Hi. rewrite Hn.
        case_decide as Hd; [|done]. rewrite Hbp in Hd. subst i. exfalso.
        clear -HH Hdis Hpin Hi. set_solver.
      * intros i Hi. simpl in Hi. rewrite Hp. case_decide as Hd; [|done].
        rewrite Hbn in Hd. subst i. apply list.NoDup_cons in Hnd2 as [? _]. done.
Qed.

(** Link at the front. *)
Lemma ring_push bs bs' l b :
  b ≠ HEAD → b ∉ l → HEAD ∉ l →
  ring bs l →
  (∀ j, nx bs' j = if decide (j = HEAD) then b else if decide (j = b) then nx bs HEAD else nx bs j) →
  (∀ j, pv bs' j = if decide (j = nx bs HEAD) then b else if decide (j = b) then HEAD else pv bs j) →
  NoDup l →
  ring bs' (b :: l).
Proof.
  unfold ring. intros HbH Hbl HHl Hc Hn Hp Hnd.
  destruct (l ++ [HEAD]) as [|n c2] eqn:Hc2; [by destruct l|].
  rewrite chain_cons in Hc. destruct Hc as (HHn & HnH & Hc).
  assert (n ∈ HEAD :: l) as Hnin.
  { assert (n ∈ l ++ [HEAD]) by (rewrite Hc2; set_solver). set_solver. }
  assert (NoDup (n :: c2)) as Hnd2.
  { rewrite <- Hc2. apply list.NoDup_app. split_and!; [done| |apply NoDup_singleton]. set_solver. }
  simpl. rewrite Hc2, !chain_cons. split_and!.
  - rewrite Hn. by rewrite decide_True.
  - rewrite Hp, HHn. rewrite decide_False by set_solver. by rewrite decide_True.
  - rewrite Hn. rewrite decide_False by done. by rewrite decide_True.
  - rewrite Hp, HHn. by rewrite decide_True.
  - eapply chain_ext; [| |exact Hc].
    + intros i Hi. rewrite <- Hc2, removelast_last in Hi.
      rewrite Hn. rewrite !decide_False by set_solver. done.
    + intros i Hi. simpl in Hi. apply list.NoDup_cons in Hnd2 as [Hn2 _].
      rewrite Hp, HHn. rewrite decide_False by set_solver.
      assert (i ∈ l ++ [HEAD]) by (rewrite Hc2; set_solver).
      rewrite decide_False by set_solver. done.
Qed.
End ring.

(** ** The abstract cache *)

(** [a_phys]: the blocks on the disk; [a_hist]: the block writes so far;
    [a_log]: the blocks as a reader of the cache sees them; [a_held]: the
    blocks the process holds and the buffer each is in; [a_dirty]: the blocks
    pinned in the cache by B_DIRTY. *)
Record abio := mkAbio {
  a_phys : gmap Z bytes; a_hist : list (Z * bytes); a_log : gmap Z bytes;
  a_held : gmap Z nat; a_dirty : gset Z }.

Definition cached (s : bst) (i : nat) (b : buf) : Prop :=
  (i < NBUF)%nat ∧ bufs s !! i = Some b.

Section rep.
Context (me : Z).

Definition idle (b : buf) : Prop := b_refcnt b = 0 ∧ b_lock b = mkSleep 0 0.
Definition held (b : buf) : Prop := b_refcnt b = 1 ∧ b_lock b = mkSleep 1 me.

(** A buffer names a block of the disk exactly when it holds valid data. *)
Definition buf_ok (size : Z) (b : buf) : Prop :=
  (idle b ∨ held b) ∧
  ((b_dev b = 1 ∧ 0 ≤ b_blockno b < size ∧
    (b_flags b = B_VALID ∨ b_flags b = Z.lor B_VALID B_DIRTY)) ∨
   (b_dev b = 0 ∧ b_flags b = 0 ∧ idle b)).

Definition names (b : buf) (bn : Z) : Prop := b_dev b = 1 ∧ b_blockno b = bn.

Record bio_rep (s : bst) (a : abio) : Prop := {
  br_len : length (bufs s) = S NBUF;
  br_ring : ∃ l, l ≡ₚ seq 0 NBUF ∧ ring (bufs s) l;
  br_buf : ∀ i b, cached s i b → buf_ok (md_size (disk s)) b;
  br_unique : ∀ i j b b' bn,
    cached s i b → cached s j b' → names b bn → names b' bn → i = j;
  br_held : ∀ bn i, a_held a !! bn = Some i ↔
    ∃ b, cached s i b ∧ names b bn ∧ b_refcnt b = 1;
  br_dirty : ∀ bn, bn ∈ a_dirty a ↔
    ∃ i b, cached s i b ∧ names b bn ∧ is_dirty (b_flags b) = true;
  br_log : ∀ i b bn, cached s i b → names b bn → a_log a !! bn = Some (b_data b);
  br_clean : ∀ bn, a_held a !! bn = None → bn ∉ a_dirty a → a_log a !! bn = a_phys a !! bn;
  br_phys : md_blocks (disk s) = a_phys a;
  br_hist : md_hist (disk s) = a_hist a;
  br_dom : ∀ bn, 0 ≤ bn < md_size (disk s) ↔ is_Some (a_phys a !! bn);
  br_dom_log : ∀ bn, is_Some (a_log a !! bn) ↔ is_Some (a_phys a !! bn);
}.

Lemma cached_insert s i b' d' j x :
  (i < NBUF)%nat → length (bufs s) = S NBUF →
  cached (mkBst (<[i := b']> (bufs s)) d') j x ↔
  (j = i ∧ x = b') ∨ (j ≠ i ∧ cached s j x).
Proof.
  intros Hi Hlen. unfold cached; simpl. rewrite list_lookup_insert_Some. split.
  - intros [Hj [(-> & -> & _)|[? ?]]]; [by left|]. right; auto.
  - intros [[-> ->]|[Hne [Hj Hx]]]; [split; [done|]; left; split_and!; [done..|lia]|].
    split; [done|]. by right.
Qed.

(** Buffer [i] is given new contents [b'] for block [bn]: it held [bn]
    before, or it was recyclable and no buffer held [bn]. *)
Lemma rep_put s a i b b' bn a' d' :
  bio_rep s a → cached s i b →
  (names b bn ∨ (b_refcnt b = 0 ∧ is_dirty (b_flags b) = false ∧
                 ∀ j x, cached s j x → ¬ names x bn)) →
  buf_ok (md_size (disk s)) b' → names b' bn →
  b_next b' = b_next b → b_prev b' = b_prev b →
  md_size d' = md_size (disk s) → md_blocks d' = a_phys a' → md_hist d' = a_hist a' →
  (∀ bn', bn' ≠ bn → a_phys a' !! bn' = a_phys a !! bn' ∧ a_log a' !! bn' = a_log a !! bn' ∧
     a_held a' !! bn' = a_held a !! bn' ∧ (bn' ∈ a_dirty a' ↔ bn' ∈ a_dirty a)) →
  a_log a' !! bn = Some (b_data b') →
  (∀ j, a_held a' !! bn = Some j ↔ j = i ∧ b_refcnt b' = 1) →
  (bn ∈ a_dirty a' ↔ is_dirty (b_flags b') = true) →
  (b_refcnt b' = 0 → is_dirty (b_flags b') = false → a_phys a' !! bn = Some (b_data b')) →
  is_Some (a_phys a' !! bn) →
  bio_rep (mkBst (<[i := b']> (bufs s)) d') a'.
Proof.
  intros Hrep [Hi Hb] Hold Hok Hn' Hnx Hpv Hsz Hph Hhi Hoth Hlog Hheld Hdirty Hclean Hdom.
  destruct Hrep as [Hlen (l & Hperm & Hring) Hbuf Huniq Hhe Hdi Hlo Hcl Hp Hh Hd Hdl].
  assert (∀ j x, cached s j x → names x bn → j = i) as Hown.
  { intros j x Hj Hx. destruct Hold as [Hold|(_ & _ & Hno)]; [by eapply Huniq|].
    by destruct (Hno j x). }
  assert (∀ bn', names b bn' → bn' ≠ bn → b_refcnt b = 0 ∧ is_dirty (b_flags b) = false) as Hevict.
  { intros bn' [? ?] Hne. destruct Hold as [[? ?]|(? & ? & _)]; [congruence|done]. }
  split; simpl; rewrite ?length_insert, ?Hsz; auto.
  - exists l. split; [done|]. unfold ring in *.
    eapply chain_same_links; [| |exact Hring]; intros j.
    + rewrite nx_insert by lia. case_decide; [subst|done]. unfold nx. by rewrite Hb.
    + rewrite pv_insert by lia. case_decide; [subst|done]. unfold pv. by rewrite Hb.
  - intros j x Hj. apply cached_insert in Hj as [[-> ->]|[_ Hj]]; [done|by eapply Hbuf|done..].
  - intros j1 j2 x1 x2 bn' H1 H2 N1 N2.
    apply cached_insert in H1 as [[-> ->]|[Hne1 H1]]; [| |done..];
    apply cached_insert in H2 as [[-> ->]|[Hne2 H2]]; try done.
    + destruct N1, Hn'; simplify_eq. symmetry. eapply Hown; [exact H2|done].
    + destruct N2, Hn'; simplify_eq. eapply Hown; [exact H1|done].
    + by eapply Huniq.
  - intros bn' j. destruct (decide (bn' = bn)) as [->|Hne].
    + rewrite Hheld. split.
      * intros [-> Hr]. exists b'. split; [|done]. apply cached_insert; auto.
      * intros (x & Hx & Hnx' & Hr). apply cached_insert in Hx as [[-> ->]|[Hne Hx]]; [done| |done..].
        destruct Hne. by eapply Hown.
    + destruct (Hoth bn' Hne) as (_ & _ & -> & _). rewrite Hhe. split.
      * intros (x & Hx & Nx & Hr). exists x. split; [|done]. apply cached_insert; [done..|].
        right. split; [|done]. intros ->. destruct Hx as [_ Hx]; simplify_eq.
        destruct (Hevict bn'); [done..|lia].
      * intros (x & Hx & Nx & Hr). apply cached_insert in Hx as [[-> ->]|[_ Hx]]; [| |done..].
        -- destruct Nx, Hn'; congruence.
        -- by exists x.
  - intros bn'. destruct (decide (bn' = bn)) as [->|Hne].
    + rewrite Hdirty. split.
      * intros Hdt. exists i, b'. split; [|done]. apply cached_insert; auto.
      * intros (j & x & Hx & Nx & Hr). apply cached_insert in Hx as [[-> ->]|[Hne Hx]]; [done| |done..].
        destruct Hne. by eapply Hown.
    + destruct (Hoth bn' Hne) as (_ & _ & _ & ->). rewrite Hdi. split.
      * intros (j & x & Hx & Nx & Hr). exists j, x. split; [|done]. apply cached_insert; [done..|].
        right. split; [|done]. intros ->. destruct Hx as [_ Hx]; simplify_eq.
        destruct (Hevict bn'); [done..|congruence].
      * intros (j & x & Hx & Nx & Hr). apply cached_insert in Hx as [[-> ->]|[_ Hx]]; [| |done..].
        -- destruct Nx, Hn'; congruence.
        -- by exists j, x.
  - intros j x bn' Hx Nx. apply cached_insert in Hx as [[-> ->]|[Hne Hx]]; [| |done..].
    + destruct Nx, Hn'; simplify_eq. done.
    + assert (bn' ≠ bn) as Hne'. { intros ->. destruct Hne. by eapply Hown. }
      destruct (Hoth bn' Hne') as (_ & -> & _ & _). by eapply Hlo.
  - intros bn' Hh' Hd'. destruct (decide (bn' = bn)) as [->|Hne].
    + rewrite Hlog. symmetry. apply Hclean.
      * destruct Hok as [[[? _]|[Hr _]] _]; [done|].
        assert (a_held a' !! bn = Some i) by by apply Hheld. congruence.
      * destruct (is_dirty (b_flags b')) eqn:E; [|done]. destruct Hd'. by apply Hdirty.
    + destruct (Hoth bn' Hne) as (H1 & H2 & H3 & H4). rewrite H1, H2. apply Hcl; [congruence|tauto].
  - intros bn'. destruct (decide (bn' = bn)) as [->|Hne].
    + split; [by intros _|]. intros _. apply Hd.
      destruct Hn' as [? <-]. destruct Hok as [_ [(_ & ? & _)|(? & _)]]; [by apply Hd|congruence].
    + destruct (Hoth bn' Hne) as (-> & _). apply Hd.
  - intros bn'. destruct (decide (bn' = bn)) as [->|Hne].
    + rewrite Hlog. split; [done|]. eauto.
    + destruct (Hoth bn' Hne) as (-> & -> & _). apply Hdl.
Qed.

(** Relinking changes nothing the representation sees. *)
Definition links_only (s s' : bst) : Prop :=
  disk s' = disk s ∧ Forall2 same_but_links (bufs s) (bufs s').

Lemma rep_links s s' a l :
  bio_rep s a → links_only s s' → l ≡ₚ seq 0 NBUF → ring (bufs s') l → bio_rep s' a.
Proof.
  intros [Hlen _ Hbuf Huniq Hhe Hdi Hlo Hcl Hp Hh Hd Hdl] [Hdk Hf] Hperm Hring.
  assert (∀ i b', cached s' i b' → ∃ b, cached s i b ∧ same_but_links b b') as Hback.
  { intros i b' [Hi Hb']. destruct (Forall2_lookup_r _ _ _ _ _ Hf Hb') as (b & Hb & ?).
    by exists b. }
  assert (∀ i b, cached s i b → ∃ b', cached s' i b' ∧ same_but_links b b') as Hfwd.
  { intros i b [Hi Hb]. destruct (Forall2_lookup_l _ _ _ _ _ Hf Hb) as (b' & Hb' & ?).
    by exists b'. }
  split; rewrite ?Hdk; auto.
  - rewrite <- Hlen. symmetry. by eapply list.Forall2_length.
  - by exists l.
  - intros i b' Hb'. destruct (Hback i b' Hb') as (b & Hb & E1 & E2 & E3 & E4 & E5 & E6).
    specialize (Hbuf i b Hb). unfold buf_ok, idle, held in *. by rewrite E1, E2, E3, E4, E5.
  - intros i j b1 b2 bn H1 H2 N1 N2.
    destruct (Hback _ _ H1) as (x1 & C1 & ? & E1 & E1' & _).
    destruct (Hback _ _ H2) as (x2 & C2 & ? & E2 & E2' & _).
    eapply (Huniq i j x1 x2 bn C1 C2); unfold names in *; by rewrite <- ?E1, <- ?E1', <- ?E2, <- ?E2'.
  - intros bn i. rewrite Hhe. unfold names. split.
    + intros (b & Hb & N & Hr). destruct (Hfwd _ _ Hb) as (b' & Hb' & ? & E1 & E2 & ? & E3 & ?).
      exists b'. by rewrite E1, E2, E3.
    + intros (b' & Hb' & N & Hr). destruct (Hback _ _ Hb') as (b & Hb & ? & E1 & E2 & ? & E3 & ?).
      exists b. by rewrite <- E1, <- E2, <- E3.
  - intros bn. rewrite Hdi. unfold names. split.
    + intros (i & b & Hb & N & Hr). destruct (Hfwd _ _ Hb) as (b' & Hb' & E0 & E1 & E2 & _).
      exists i, b'. by rewrite E0, E1, E2.
    + intros (i & b' & Hb' & N & Hr). destruct (Hback _ _ Hb') as (b & Hb & E0 & E1 & E2 & _).
      exists i, b. by rewrite <- E0, <- E1, <- E2.
  - intros i b' bn Hb' N. destruct (Hback _ _ Hb') as (b & Hb & ? & E1 & E2 & ? & ? & ->).
    apply (Hlo i b); [done|]. unfold names in *. by rewrite <- E1, <- E2.
Qed.
End rep.

(** ** The scans of bget *)

Definition buf_test (p : buf → bool) (s : bst) (i : nat) : bool :=
  match bufs s !! i with Some b => p b | None => false end.

Section scan.
Context (p : buf → bool) (s : bst).
Hypothesis Hlen : length (bufs s) = S NBUF.

Lemma getb_run i : (i ≤ NBUF)%nat → ∃ b, getb i s = Ok b s ∧ bufs s !! i = Some b.
Proof.
  intros Hi. destruct (lookup_lt_is_Some_2 (bufs s) i) as [b Hb]; [lia|].
  exists b. unfold getb. by rewrite Hb.
Qed.

Lemma scan_next_spec l fuel b :
  chain (bufs s) (l ++ [HEAD]) → head (l ++ [HEAD]) = Some b →
  (∀ i, i ∈ l → (i < NBUF)%nat) → (length l < fuel)%nat →
  scan_next p fuel b s = Ok (find (buf_test p s) l) s.
Proof.
  revert fuel b; induction l as [|i l IH]; intros fuel b Hc Hb Hl Hf.
  - injection Hb as <-. destruct fuel; [simpl in Hf; lia|]. done.
  - injection Hb as <-. destruct fuel as [|fuel]; [simpl in Hf; lia|].
    assert (i < NBUF)%nat as Hi by (apply Hl; set_solver).
    destruct (getb_run i) as (x & Hx & Hxi); [lia|]. simpl scan_next.
    rewrite bool_decide_eq_false_2 by (unfold HEAD; lia).
    erewrite bind_Ok by exact Hx. simpl find. unfold buf_test at 1. rewrite Hxi.
    destruct (p x); [done|]. destruct (l ++ [HEAD]) as [|v c] eqn:Hv; [by destruct l|].
    simpl in Hc. rewrite Hv, chain_cons in Hc. destruct Hc as (Hnx & _ & Hc).
    apply IH; [done| |set_solver|simpl in Hf; lia].
    unfold nx in Hnx. rewrite Hxi in Hnx. by subst v.
Qed.

Lemma scan_prev_spec l fuel b :
  chain (bufs s) (HEAD :: l) → list.last (HEAD :: l) = Some b →
  (∀ i, i ∈ l → (i < NBUF)%nat) → (length l < fuel)%nat →
  scan_prev p fuel b s = Ok (find (buf_test p s) (reverse l)) s.
Proof.
  revert fuel b; induction l as [|i l IH] using rev_ind; intros fuel b Hc Hb Hl Hf.
  - injection Hb as <-. destruct fuel; [simpl in Hf; lia|]. done.
  - rewrite app_comm_cons, last_snoc in Hb. injection Hb as <-.
    rewrite length_app in Hf. destruct fuel as [|fuel]; [simpl in Hf; lia|].
    assert (i < NBUF)%nat as Hi by (apply Hl; set_solver).
    destruct (getb_run i) as (x & Hx & Hxi); [lia|]. simpl scan_prev.
    rewrite bool_decide_eq_false_2 by (unfold HEAD; lia).
    erewrite bind_Ok by exact Hx. rewrite reverse_snoc. simpl find.
    unfold buf_test at 1. rewrite Hxi.
    destruct (p x); [done|].
    destruct (exists_last (l := HEAD :: l)) as (c & v & Hv); [done|].
    rewrite app_comm_cons, Hv, <- app_assoc in Hc. simpl in Hc.
    apply chain_app in Hc as [Hc Hvi]. rewrite chain_cons in Hvi. destruct Hvi as (_ & Hpv & _).
    apply IH; [by rewrite Hv| |set_solver|simpl in Hf; lia].
    rewrite Hv, last_snoc. unfold pv in Hpv. rewrite Hxi in Hpv. by subst v.
Qed.
End scan.

Lemma ring_members l : l ≡ₚ seq 0 NBUF → ∀ i, i ∈ l ↔ (i < NBUF)%nat.
Proof. intros H i. rewrite H, elem_of_seq. lia. Qed.

Lemma ring_nodup l : l ≡ₚ seq 0 NBUF → NoDup (HEAD :: l).
Proof.
  intros H. apply list.NoDup_cons. split.
  - rewrite (ring_members l H). unfold HEAD. lia.
  - rewrite H. apply NoDup_seq.
Qed.

Lemma chain_tail bs u c : chain bs (u :: c) → chain bs c.
Proof. destruct c; [done|]. by intros (_ & _ & ?)%chain_cons. Qed.
Lemma chain_init bs c u : chain bs (c ++ [u]) → chain bs c.
Proof.
  destruct c as [|x c] using rev_ind; [done|]. rewrite <- app_assoc. simpl.
  by intros [? _]%chain_app.
Qed.

Lemma ring_first bs l : ring bs l → head (l ++ [HEAD]) = Some (nx bs HEAD).
Proof. unfold ring. destruct (l ++ [HEAD]) eqn:E; [by destruct l|]. by intros (-> & _)%chain_cons. Qed.
Lemma ring_last bs l : ring bs l → list.last (HEAD :: l) = Some (pv bs HEAD).
Proof.
  unfold ring. destruct (exists_last (l := HEAD :: l)) as (c & v & Hv); [done|].
  rewrite app_comm_cons, Hv, <- app_assoc, last_snoc. simpl.
  intros [_ (_ & -> & _)%chain_cons]%chain_app. done.
Qed.

(** A linked ring of all buffers with distinct members. *)
Lemma ring_scan s l p :
  length (bufs s) = S NBUF → l ≡ₚ seq 0 NBUF → ring (bufs s) l →
  ∃ h, getb HEAD s = Ok h s ∧
    scan_next p (S NBUF) (b_next h) s = Ok (find (buf_test p s) l) s ∧
    ∀ q, scan_prev q (S NBUF) (b_prev h) s = Ok (find (buf_test q s) (reverse l)) s.
Proof.
  intros Hlen Hperm Hring.
  destruct (getb_run s Hlen HEAD) as (h & Hh & Hhb); [done|].
  assert (length l = NBUF) as Hl by (rewrite Hperm; apply length_seq).
  pose proof (ring_first _ _ Hring) as H1. pose proof (ring_last _ _ Hring) as H2.
  unfold nx in H1. unfold pv in H2. rewrite Hhb in H1, H2.
  exists h. split_and!; [done| |intros q].
  - apply scan_next_spec; [done|by eapply chain_tail|done| |lia].
    intros i. by apply ring_members.
  - apply scan_prev_spec; [done|by eapply (chain_init _ (HEAD :: l))|done| |lia].
    intros i. by apply ring_members.
Qed.

Lemma find_bounded {A} (f : A → bool) l x : find f l = Some x → x ∈ l ∧ f x = true.
Proof. intros [H1 H2]%find_some. split; [by apply list_elem_of_In|done]. Qed.
Lemma find_all {A} (f : A → bool) l x : find f l = None → x ∈ l → f x = false.
Proof. intros H Hx%list_elem_of_In. by eapply find_none. Qed.

Section ops.
Context (me : Z).
Implicit Types (s : bst) (a : abio).

(** When every buffer is held or pinned, all NBUF of them name distinct
    blocks that are held or pinned. *)
Lemma recyclable_exists s a :
  bio_rep me s a → (size (dom (a_held a) ∪ a_dirty a) < NBUF)%nat →
  ∃ i b, cached s i b ∧ recyclable b = true.
Proof.
  intros Hrep Hroom.
  destruct (find (buf_test recyclable s) (seq 0 NBUF)) as [i|] eqn:Hf.
  { apply find_bounded in Hf as [Hi Ht]. apply elem_of_seq in Hi. unfold buf_test in Ht.
    destruct (bufs s !! i) as [b|] eqn:Hb; [|done]. exists i, b. split; [split; [lia|done]|done]. }
  exfalso. pose proof (br_len _ _ _ Hrep) as Hlen.
  set (bn := λ i, match bufs s !! i with Some b => b_blockno b | None => 0 end).
  assert (∀ i, (i < NBUF)%nat → ∃ b, cached s i b ∧ names b (bn i) ∧
            (b_refcnt b = 1 ∨ is_dirty (b_flags b) = true)) as Hall.
  { intros i Hi. destruct (lookup_lt_is_Some_2 (bufs s) i) as [b Hb]; [lia|].
    exists b. split; [done|]. unfold bn, names. rewrite Hb.
    pose proof (find_all _ _ i Hf) as Hn. unfold buf_test, recyclable in Hn. rewrite Hb in Hn.
    rewrite elem_of_seq in Hn. specialize (Hn ltac:(lia)).
    destruct (br_buf _ _ _ Hrep i b) as [Hh [(Hd & _ & _)|(_ & Hf0 & Hidle)]]; [done| |].
    - split; [done|]. apply andb_false_iff in Hn as [Hn|Hn]; bool_to_prop.
      + left. destruct Hh as [[? _]|[? _]]; lia.
      + right. unfold is_dirty. by apply truthy_true.
    - destruct Hidle as [Hr _]. by rewrite Hr, Hf0 in Hn. }
  assert (NoDup (bn <$> seq 0 NBUF)) as Hnd.
  { apply NoDup_fmap_2_strong; [|apply NoDup_seq]. intros i j Hi Hj Heq.
    apply elem_of_seq in Hi, Hj.
    destruct (Hall i) as (b & Hb & Nb & _); [lia|]. destruct (Hall j) as (b' & Hb' & Nb' & _); [lia|].
    rewrite Heq in Nb. by eapply (br_unique _ _ _ Hrep). }
  assert (list_to_set (bn <$> seq 0 NBUF) ⊆ dom (a_held a) ∪ a_dirty a) as Hsub%subseteq_size.
  { intros x. rewrite elem_of_list_to_set, list_elem_of_fmap.
    intros (i & -> & Hi%elem_of_seq). destruct (Hall i) as (b & Hb & Nb & Hc); [lia|].
    apply elem_of_union. destruct Hc as [Hc|Hc].
    - left. apply elem_of_dom. exists i. apply (br_held _ _ _ Hrep). by exists b.
    - right. apply (br_dirty _ _ _ Hrep). by exists i, b. }
  rewrite size_list_to_set, length_fmap, length_seq in Hsub by done. lia.
Qed.

Lemma modb_run s i b f :
  bufs s !! i = Some b → modb f i s = Ok tt (mkBst (<[i := f b]> (bufs s)) (disk s)).
Proof. unfold modb. by intros ->. Qed.
Lemma getb_lookup s i b : bufs s !! i = Some b → getb i s = Ok b s.
Proof. unfold getb. by intros ->. Qed.
Lemma on_lock_run {A} s i b (m : M sleeplock A) x l :
  bufs s !! i = Some b → m (b_lock b) = Ok x l →
  on_lock i m s = Ok x (mkBst (<[i := set_lock l b]> (bufs s)) (disk s)).
Proof. unfold on_lock, zoom. by intros -> ->. Qed.
Lemma lookup_upd (bs : list buf) (i : nat) (b b' : buf) : bs !! i = Some b → <[i := b']> bs !! i = Some b'.
Proof. intros H. apply list_lookup_insert_eq. by eapply lookup_lt_Some. Qed.

(** A chain of updates of one buffer is one update. *)
Ltac buf_steps :=
  repeat first
    [ erewrite bind_Ok; [|apply modb_run; cbn [bufs];
        first [eassumption | eapply lookup_upd; eassumption]]; cbn [bufs disk]
    | erewrite bind_Ok; [|apply getb_lookup; cbn [bufs];
        first [eassumption | eapply lookup_upd; eassumption]]; cbn [bufs disk]
    | rewrite list_insert_insert_eq ].

(** ** bread *)

Definition hold (bn : Z) (i : nat) (a : abio) : abio :=
  mkAbio (a_phys a) (a_hist a) (a_log a) (<[bn := i]> (a_held a)) (a_dirty a).

Definition room (bn : Z) (a : abio) : Prop :=
  bn ∈ a_dirty a ∨ (size (dom (a_held a) ∪ a_dirty a) < NBUF)%nat.

Lemma bget_hit s a i b bn :
  bio_rep me s a → cached s i b → names b bn → b_refcnt b = 0 →
  bget me 1 bn s =
    Ok i (mkBst (<[i := set_lock (mkSleep 1 me) (set_refcnt (λ _, 1) b)]> (bufs s)) (disk s)).
Proof.
  intros Hrep [Hi Hb] [Hd Hbn] Hr. destruct (br_ring _ _ _ Hrep) as (l & Hperm & Hring).
  destruct (ring_scan s l (matches 1 bn) (br_len _ _ _ Hrep) Hperm Hring) as (h & Hh & Hscan & _).
  unfold bget. erewrite bind_Ok by exact Hh. erewrite bind_Ok by exact Hscan.
  assert (∀ j x, bufs s !! j = Some x → (j < NBUF)%nat → matches 1 bn x = true → j = i) as Hu.
  { intros j x Hx Hj Hm. unfold matches in Hm. bool_to_prop.
    by apply (br_unique _ _ _ Hrep j i x b bn). }
  destruct (find (buf_test (matches 1 bn) s) l) as [j|] eqn:Hf.
  - apply find_bounded in Hf as [Hj Ht]. unfold buf_test in Ht.
    destruct (bufs s !! j) as [x|] eqn:Hx; [|done].
    assert (j = i) as -> by (eapply Hu; [done|by apply (ring_members l)|done]).
    simplify_eq. buf_steps. erewrite bind_Ok; [|eapply on_lock_run; [by eapply lookup_upd|]].
    + cbn [bufs disk]. rewrite list_insert_insert_eq. unfold ret, set_refcnt. cbn. rewrite Hr. done.
    + apply acquiresleep_free. cbn.
      destruct (br_buf _ _ _ Hrep i b) as [[[_ ->]|[? _]] _]; [done..|lia].
  - pose proof (find_all _ _ i Hf) as Hn. rewrite (ring_members l Hperm) in Hn.
    specialize (Hn Hi). unfold buf_test, matches in Hn. by rewrite Hb, Hd, Hbn, !Z.eqb_refl in Hn.
Qed.

Lemma bget_miss s a bn :
  bio_rep me s a → (∀ j x, cached s j x → ¬ names x bn) →
  (size (dom (a_held a) ∪ a_dirty a) < NBUF)%nat →
  ∃ i b, cached s i b ∧ recyclable b = true ∧
    bget me 1 bn s =
    Ok i (mkBst (<[i := mkBuf 0 1 bn (mkSleep 1 me) 1 (b_prev b) (b_next b) (b_data b)]> (bufs s))
            (disk s)).
Proof.
  intros Hrep Hno Hroom. destruct (br_ring _ _ _ Hrep) as (l & Hperm & Hring).
  destruct (ring_scan s l (matches 1 bn) (br_len _ _ _ Hrep) Hperm Hring) as (h & Hh & Hscan & Hprev).
  unfold bget. erewrite bind_Ok by exact Hh. erewrite bind_Ok by exact Hscan.
  destruct (find (buf_test (matches 1 bn) s) l) as [j|] eqn:Hf.
  { apply find_bounded in Hf as [Hj Ht]. unfold buf_test in Ht.
    destruct (bufs s !! j) as [x|] eqn:Hx; [|done]. unfold matches in Ht. bool_to_prop.
    destruct (Hno j x); [|done]. split; [by apply (ring_members l)|done]. }
  erewrite bind_Ok by apply Hprev.
  destruct (find (buf_test recyclable s) (reverse l)) as [i|] eqn:Hr.
  - apply find_bounded in Hr as [Hi Ht]. rewrite elem_of_reverse in Hi.
    apply (ring_members l Hperm) in Hi. unfold buf_test in Ht.
    destruct (bufs s !! i) as [b|] eqn:Hb; [|done].
    exists i, b. split_and!; [done..|]. buf_steps.
    erewrite bind_Ok; [|eapply on_lock_run; [by eapply lookup_upd|]].
    + cbn [bufs disk]. rewrite list_insert_insert_eq. done.
    + apply acquiresleep_free. cbn. unfold recyclable in Ht. bool_to_prop.
      destruct (br_buf _ _ _ Hrep i b) as [[[_ ->]|[? _]] _]; [done..|lia].
  - destruct (recyclable_exists s a Hrep Hroom) as (i & b & [Hi Hb] & Hrec).
    pose proof (find_all _ _ i Hr) as Hn. rewrite elem_of_reverse, (ring_members l Hperm) in Hn.
    specialize (Hn Hi). unfold buf_test in Hn. rewrite Hb in Hn. congruence.
Qed.

Lemma is_dirty_of_land f : (Z.land f B_DIRTY =? 0) = negb (is_dirty f).
Proof. unfold is_dirty, truthy. by rewrite negb_involutive. Qed.
Lemma is_valid_of_land f : (Z.land f B_VALID =? 0) = negb (is_valid f).
Proof. unfold is_valid, truthy. by rewrite negb_involutive. Qed.

(** The buffer that holds a held block. *)
Lemma rep_held_buf s a bn i :
  bio_rep me s a → a_held a !! bn = Some i →
  ∃ b, cached s i b ∧ names b bn ∧ held me b ∧ a_log a !! bn = Some (b_data b) ∧
    0 ≤ bn < md_size (disk s) ∧
    (b_flags b = B_VALID ∨ b_flags b = Z.lor B_VALID B_DIRTY) ∧
    (bn ∈ a_dirty a ↔ is_dirty (b_flags b) = true).
Proof.
  intros Hrep Hh. apply (br_held _ _ _ Hrep) in Hh as (b & Hb & Nb & Hr).
  exists b. destruct (br_buf _ _ _ Hrep i b Hb) as [Hhe Hok].
  destruct Hhe as [[Hr0 _]|Hhe]; [lia|].
  destruct Hok as [(Hd & Hbn & Hfl)|(_ & _ & [Hr0 _])]; [|lia].
  pose proof Nb as [_ <-]. do 3 (split; [done|]).
  split; [by eapply (br_log _ _ _ Hrep)|]. do 2 (split; [done|]).
  - rewrite (br_dirty _ _ _ Hrep). split.
    + intros (j & x & Hx & Nx & Hdx).
      assert (j = i) as -> by by eapply (br_unique _ _ _ Hrep j i x b).
      destruct Hb, Hx; by simplify_eq.
    + intros Hdx. by exists i, b.
Qed.

Lemma bread_spec s a bn :
  bio_rep me s a → 0 ≤ bn < md_size (disk s) → a_held a !! bn = None → room bn a →
  ∃ i s', bread me 1 bn s = Ok i s' ∧ bio_rep me s' (hold bn i a).
Proof.
  intros Hrep Hbn Hnh Hroom.
  assert (is_Some (a_phys a !! bn)) as Hph by by apply (br_dom _ _ _ Hrep).
  destruct (find (buf_test (matches 1 bn) s) (seq 0 NBUF)) as [i|] eqn:Hf.
  - apply find_bounded in Hf as [Hi Ht]. apply elem_of_seq in Hi. unfold buf_test in Ht.
    destruct (bufs s !! i) as [b|] eqn:Hb; [|done]. unfold matches in Ht. bool_to_prop.
    assert (cached s i b) as Hc by (split; [lia|done]).
    assert (names b bn) as Nb by done.
    destruct (br_buf _ _ _ Hrep i b Hc) as [Hhe [(_ & _ & Hfl)|(Hd0 & _)]]; [|congruence].
    destruct Hhe as [[Hr Hlk]|[Hr _]].
    2:{ assert (a_held a !! bn = Some i); [|congruence].
        apply (br_held _ _ _ Hrep). by exists b. }
    eexists i, _. unfold bread. erewrite bind_Ok by by eapply bget_hit.
    erewrite bind_Ok by (apply getb_lookup; by eapply lookup_upd).
    rewrite is_valid_of_land. cbn [set_lock set_refcnt b_flags].
    replace (is_valid (b_flags b)) with true by by destruct Hfl as [-> | ->].
    cbn [negb]. rewrite bind_ret. split; [done|].
    eapply (rep_put me s a i b _ bn (hold bn i a)); try done.
    + by left.
    + split; [by right|]. left. split_and!; try done. all: cbn; lia.
    + apply (br_phys _ _ _ Hrep).
    + apply (br_hist _ _ _ Hrep).
    + intros bn' Hne. split_and!; try done. simpl. by rewrite lookup_insert_ne.
    + simpl. by eapply (br_log _ _ _ Hrep).
    + intros j. simpl. rewrite lookup_insert_eq. split; [intros [= ->]; done|intros [-> _]; done].
    + simpl. rewrite (br_dirty _ _ _ Hrep). split.
      * intros (j & x & Hx & Nx & Hdx).
        assert (j = i) as -> by by eapply (br_unique _ _ _ Hrep j i x b).
        destruct Hx; by simplify_eq.
      * intros Hdx. by exists i, b.
  - assert (∀ j x, cached s j x → ¬ names x bn) as Hno.
    { intros j x [Hj Hx] [Hd Hb]. pose proof (find_all _ _ j Hf) as Hn.
      rewrite elem_of_seq in Hn. specialize (Hn ltac:(lia)).
      unfold buf_test, matches in Hn. by rewrite Hx, Hd, Hb, !Z.eqb_refl in Hn. }
    assert (bn ∉ a_dirty a) as Hnd.
    { intros (j & x & Hx & Nx & _)%(br_dirty _ _ _ Hrep). by destruct (Hno j x). }
    destruct Hroom as [?|Hroom]; [done|].
    destruct (bget_miss s a bn Hrep Hno Hroom) as (i & b & [Hi Hb] & Hrec & Hget).
    destruct Hph as [d Hd]. eexists i, _.
    unfold bread. erewrite bind_Ok by exact Hget.
    erewrite bind_Ok by (apply getb_lookup; by eapply lookup_upd).
    rewrite is_valid_of_land. cbn [b_flags]. eval_ifs.
    erewrite bind_Ok.
    2:{ unfold bio_iderw. cbn [bufs disk]. rewrite (lookup_upd _ _ _ _ Hb).
        erewrite iderw_read; [done| |done|].
        - split; [apply holdingsleep_acquired|]. split; [done|]. cbn. lia.
        - cbn. by rewrite (br_phys _ _ _ Hrep). }
    split; [done|]. rewrite list_insert_insert_eq.
    unfold recyclable in Hrec. rewrite is_dirty_of_land in Hrec. bool_to_prop.
    eapply (rep_put me s a i b _ bn (hold bn i a)); try done.
    + right. done.
    + split; [by right|]. left. split_and!; try done; cbn; [lia..|by left].
    + apply (br_phys _ _ _ Hrep).
    + apply (br_hist _ _ _ Hrep).
    + intros bn' Hne. split_and!; try done. simpl. by rewrite lookup_insert_ne.
    + simpl. rewrite <- Hd. by apply (br_clean _ _ _ Hrep).
    + intros j. simpl. rewrite lookup_insert_eq. split; [intros [= ->]; done|intros [-> _]; done].
Qed.

(** ** Operations on a held buffer *)

Definition store (bn : Z) (d : bytes) (a : abio) : abio :=
  mkAbio (a_phys a) (a_hist a) (<[bn := d]> (a_log a)) (a_held a) (a_dirty a).
Definition pin (bn : Z) (a : abio) : abio :=
  mkAbio (a_phys a) (a_hist a) (a_log a) (a_held a) ({[bn]} ∪ a_dirty a).
Definition flush (bn : Z) (d : bytes) (a : abio) : abio :=
  mkAbio (<[bn := d]> (a_phys a)) (a_hist a ++ [(bn, d)]) (a_log a) (a_held a) (a_dirty a ∖ {[bn]}).
Definition unhold (bn : Z) (a : abio) : abio :=
  mkAbio (a_phys a) (a_hist a) (a_log a) (delete bn (a_held a)) (a_dirty a).

Lemma bdata_spec s a bn i :
  bio_rep me s a → a_held a !! bn = Some i →
  ∃ d, a_log a !! bn = Some d ∧ bdata i s = Ok d s.
Proof.
  intros Hrep (b & [Hi Hb] & Nb & _ & Hlog & _)%(rep_held_buf s a bn i Hrep).
  exists (b_data b). split; [done|]. unfold bdata. by erewrite bind_Ok by by apply getb_lookup.
Qed.

(** A held buffer is rewritten in place. *)
Lemma rep_held_put s a bn i b b' a' d' :
  bio_rep me s a → a_held a !! bn = Some i → cached s i b →
  names b' bn → held me b' → (b_flags b' = B_VALID ∨ b_flags b' = Z.lor B_VALID B_DIRTY) →
  b_next b' = b_next b → b_prev b' = b_prev b →
  md_size d' = md_size (disk s) → md_blocks d' = a_phys a' → md_hist d' = a_hist a' →
  (∀ bn', bn' ≠ bn → a_phys a' !! bn' = a_phys a !! bn' ∧ a_log a' !! bn' = a_log a !! bn' ∧
     (bn' ∈ a_dirty a' ↔ bn' ∈ a_dirty a)) →
  a_held a' = a_held a → a_log a' !! bn = Some (b_data b') →
  (bn ∈ a_dirty a' ↔ is_dirty (b_flags b') = true) → is_Some (a_phys a' !! bn) →
  bio_rep me (mkBst (<[i := b']> (bufs s)) d') a'.
Proof.
  intros Hrep Hh Hc Nb' Hheld Hfl Hnx Hpv Hsz Hph Hhi Hoth Hhe Hlog Hdi Hdom.
  pose proof (rep_held_buf s a bn i Hrep Hh) as (x & [Hi Hx] & Nx & _ & _ & Hbn & _ & _).
  destruct Hc as [_ Hb]. simplify_eq.
  eapply (rep_put me s a i b b' bn a' d'); try done.
  - by left.
  - split; [by right|]. left. destruct Nb' as [? ->]. split_and!; try done; lia.
  - intros bn' Hne. destruct (Hoth bn' Hne) as (? & ? & ?). rewrite Hhe. done.
  - intros j. rewrite Hhe, Hh. destruct Hheld as [-> _]. split; [by intros [= ->]|by intros [-> _]].
  - destruct Hheld as [Hr _]. rewrite Hr. done.
Qed.

Lemma bstore_spec s a bn i d :
  bio_rep me s a → a_held a !! bn = Some i →
  ∃ s', bstore i d s = Ok tt s' ∧ disk s' = disk s ∧ bio_rep me s' (store bn d a).
Proof.
  intros Hrep Hh.
  pose proof (rep_held_buf s a bn i Hrep Hh) as (b & Hc & Nb & Hhe & Hlog & Hbn & Hfl & Hdi).
  pose proof Hc as [Hi Hb]. eexists. split; [by apply modb_run|]. split; [done|].
  eapply (rep_held_put s a bn i b _ (store bn d a)); try done.
  - apply (br_phys _ _ _ Hrep).
  - apply (br_hist _ _ _ Hrep).
  - intros bn' Hne. simpl. by rewrite lookup_insert_ne.
  - simpl. by rewrite lookup_insert_eq.
  - simpl. apply (br_dom _ _ _ Hrep). done.
Qed.

Lemma or_dirty f : f = B_VALID ∨ f = Z.lor B_VALID B_DIRTY →
  or_flag B_DIRTY f = Z.lor B_VALID B_DIRTY.
Proof. by intros [-> | ->]. Qed.

Lemma bpin_spec s a bn i :
  bio_rep me s a → a_held a !! bn = Some i →
  ∃ s', bpin i s = Ok tt s' ∧ disk s' = disk s ∧ bio_rep me s' (pin bn a).
Proof.
  intros Hrep Hh.
  pose proof (rep_held_buf s a bn i Hrep Hh) as (b & Hc & Nb & Hhe & Hlog & Hbn & Hfl & Hdi).
  pose proof Hc as [Hi Hb]. eexists. split; [by apply modb_run|]. split; [done|].
  eapply (rep_held_put s a bn i b _ (pin bn a)); try done.
  - right. simpl. by apply or_dirty.
  - apply (br_phys _ _ _ Hrep).
  - apply (br_hist _ _ _ Hrep).
  - intros bn' Hne. simpl. set_solver.
  - simpl. rewrite (or_dirty _ Hfl). set_solver.
  - simpl. apply (br_dom _ _ _ Hrep). done.
Qed.

Lemma bwrite_spec s a bn i d :
  bio_rep me s a → a_held a !! bn = Some i → a_log a !! bn = Some d →
  ∃ s', bwrite me i s = Ok tt s' ∧ md_size (disk s') = md_size (disk s) ∧
    bio_rep me s' (flush bn d a).
Proof.
  intros Hrep Hh Hd.
  pose proof (rep_held_buf s a bn i Hrep Hh) as (b & Hc & Nb & Hhe & Hlog & Hbn & Hfl & Hdi).
  pose proof Hc as [Hi Hb]. pose proof Nb as [Hdev Hbno]. simplify_eq.
  eexists. unfold bwrite. buf_steps.
  replace (holdingsleep me (b_lock b)) with true
    by (destruct Hhe as [_ ->]; by rewrite holdingsleep_acquired).
  cbn [negb]. buf_steps. split.
  { unfold bio_iderw. cbn [bufs disk]. rewrite (lookup_upd _ _ _ _ Hb).
    erewrite iderw_write; [done| |by cbn; apply or_dirty].
    split; [destruct Hhe as [_ Hl]; cbn; rewrite Hl; apply holdingsleep_acquired|].
    split; [done|]. cbn. lia. }
  cbn [set_flags b_data b_blockno]. split; [done|]. rewrite list_insert_insert_eq.
  eapply (rep_held_put s a (b_blockno b) i b _ (flush (b_blockno b) (b_data b) a)); try done.
  - by left.
  - cbn. by rewrite (br_phys _ _ _ Hrep).
  - cbn. by rewrite (br_hist _ _ _ Hrep).
  - intros bn' Hne. simpl. rewrite lookup_insert_ne by done. set_solver.
  - cbn. split; [set_solver|done].
  - simpl. by rewrite lookup_insert_eq.
Qed.

(** ** Relinking *)

Lemma Forall2_links_insert bs i b b' :
  bs !! i = Some b → same_but_links b b' → Forall2 same_but_links bs (<[i := b']> bs).
Proof.
  intros Hb Hs. rewrite <- (list_insert_id bs i b) at 1 by done.
  apply Forall2_insert; [|done]. by apply Forall_Forall2_diag, Forall_true.
Qed.

#[global] Instance links_only_trans : Transitive links_only.
Proof.
  intros s1 s2 s3 [H1 H2] [H3 H4]. split; [congruence|]. by transitivity (bufs s2).
Qed.

Lemma links_only_length s s' : links_only s s' → length (bufs s') = length (bufs s).
Proof. intros [_ H]. symmetry. by eapply list.Forall2_length. Qed.

Lemma set_prev_run s i p :
  (i < length (bufs s))%nat →
  ∃ s', modb (set_prev p) i s = Ok tt s' ∧ links_only s s' ∧
    (∀ j, nx (bufs s') j = nx (bufs s) j) ∧
    (∀ j, pv (bufs s') j = if decide (j = i) then p else pv (bufs s) j).
Proof.
  intros Hi. destruct (lookup_lt_is_Some_2 _ _ Hi) as [b Hb].
  eexists. split; [by apply modb_run|]. split_and!; cbn [bufs].
  - split; [done|]. by eapply Forall2_links_insert.
  - intros j. rewrite nx_insert by done. case_decide; [subst|done]. unfold nx. by rewrite Hb.
  - intros j. by rewrite pv_insert by done.
Qed.

Lemma set_next_run s i n :
  (i < length (bufs s))%nat →
  ∃ s', modb (set_next n) i s = Ok tt s' ∧ links_only s s' ∧
    (∀ j, pv (bufs s') j = pv (bufs s) j) ∧
    (∀ j, nx (bufs s') j = if decide (j = i) then n else nx (bufs s) j).
Proof.
  intros Hi. destruct (lookup_lt_is_Some_2 _ _ Hi) as [b Hb].
  eexists. split; [by apply modb_run|]. split_and!; cbn [bufs].
  - split; [done|]. by eapply Forall2_links_insert.
  - intros j. rewrite pv_insert by done. case_decide; [subst|done]. unfold pv. by rewrite Hb.
  - intros j. by rewrite nx_insert by done.
Qed.

(** The four assignments that put a buffer at the front of the ring. *)
Definition push_front (b : nat) : M bst unit :=
  let! h := getb HEAD in
  do! modb (set_next (b_next h)) b in
  do! modb (set_prev HEAD) b in
  let! h := getb HEAD in
  do! modb (set_prev b) (b_next h) in
  modb (set_next b) HEAD.

Lemma getb_nx s i : (i < length (bufs s))%nat →
  ∃ x, getb i s = Ok x s ∧ bufs s !! i = Some x ∧ b_next x = nx (bufs s) i ∧ b_prev x = pv (bufs s) i.
Proof.
  intros Hi. destruct (lookup_lt_is_Some_2 _ _ Hi) as [x Hx].
  exists x. unfold getb, nx, pv. by rewrite Hx.
Qed.

Lemma push_front_spec s l b :
  length (bufs s) = S NBUF → (b < NBUF)%nat → b ∉ l → NoDup l →
  (∀ i, i ∈ l → (i < NBUF)%nat) → ring (bufs s) l →
  ∃ s', push_front b s = Ok tt s' ∧ links_only s s' ∧ ring (bufs s') (b :: l).
Proof.
  intros Hlen Hb Hbl Hnd Hl Hring. unfold push_front.
  assert (nx (bufs s) HEAD < S NBUF)%nat as Hn.
  { pose proof (ring_first _ _ Hring) as H1. apply head_Some_elem_of in H1.
    apply elem_of_app in H1 as [H1%Hl|H1]; [lia|]. apply list_elem_of_singleton in H1.
    rewrite H1. unfold HEAD. lia. }
  destruct (getb_nx s HEAD) as (h & Hg & _ & Hhn & _); [unfold HEAD; lia|].
  erewrite bind_Ok by exact Hg. rewrite Hhn.
  destruct (set_next_run s b (nx (bufs s) HEAD)) as (s1 & R1 & L1 & P1 & N1); [lia|].
  erewrite bind_Ok by exact R1. pose proof (links_only_length _ _ L1) as E1.
  destruct (set_prev_run s1 b HEAD) as (s2 & R2 & L2 & N2 & P2); [lia|].
  erewrite bind_Ok by exact R2. pose proof (links_only_length _ _ L2) as E2.
  destruct (getb_nx s2 HEAD) as (h2 & Hg2 & _ & Hhn2 & _); [unfold HEAD; lia|].
  erewrite bind_Ok by exact Hg2. rewrite Hhn2, N2, N1.
  rewrite decide_False by (unfold HEAD; lia).
  destruct (set_prev_run s2 (nx (bufs s) HEAD) b) as (s3 & R3 & L3 & N3 & P3); [lia|].
  erewrite bind_Ok by exact R3. pose proof (links_only_length _ _ L3) as E3.
  destruct (set_next_run s3 HEAD b) as (s4 & R4 & L4 & P4 & N4); [unfold HEAD; lia|].
  exists s4. split; [exact R4|].
  split; [transitivity s1; [done|]; transitivity s2; [done|]; by transitivity s3|].
  eapply (ring_push (bufs s) (bufs s4)); try done.
  - unfold HEAD; lia.
  - intros HH%Hl. unfold HEAD in HH. lia.
  - intros j. by rewrite N4, N3, N2, N1.
  - intros j. by rewrite P4, P3, P2, P1.
Qed.

Lemma ring_neighbours bs l1 b l2 :
  ring bs (l1 ++ b :: l2) → nx bs b ∈ l2 ++ [HEAD] ∧ pv bs b ∈ HEAD :: l1.
Proof.
  unfold ring. intros Hc. rewrite <- app_assoc in Hc. simpl in Hc.
  destruct (exists_last (l := HEAD :: l1)) as (c1 & p & Hc1); [done|].
  destruct (l2 ++ [HEAD]) as [|n c2] eqn:Hc2; [by destruct l2|].
  change (chain bs ((HEAD :: l1) ++ b :: n :: c2)) in Hc.
  rewrite Hc1, <- app_assoc in Hc. simpl in Hc. apply chain_app in Hc as [_ Hc].
  rewrite !chain_cons in Hc. destruct Hc as (_ & -> & -> & _). rewrite Hc1. set_solver.
Qed.

(** Moving buffer [i] to the front of the ring. *)
Lemma relink_spec s l i x :
  length (bufs s) = S NBUF → l ≡ₚ seq 0 NBUF → ring (bufs s) l → bufs s !! i = Some x →
  (i < NBUF)%nat →
  ∃ s' l', (do! modb (set_prev (b_prev x)) (b_next x) in
            do! modb (set_next (b_next x)) (b_prev x) in
            push_front i) s = Ok tt s' ∧
    links_only s s' ∧ i :: l' ≡ₚ l ∧ ring (bufs s') (i :: l').
Proof.
  intros Hlen Hperm Hring Hx Hi.
  assert (i ∈ l) as (l1 & l2 & Hl)%list_elem_of_split by by apply (ring_members l Hperm).
  pose proof (ring_nodup l Hperm) as Hnd. pose proof (ring_members l Hperm) as Hmem. subst l.
  assert (nx (bufs s) i = b_next x ∧ pv (bufs s) i = b_prev x) as [Hnx Hpv].
  { unfold nx, pv. by rewrite Hx. }
  destruct (ring_neighbours _ _ _ _ Hring) as [Hn Hp]. rewrite Hnx in Hn. rewrite Hpv in Hp.
  assert (∀ j, j ∈ HEAD :: l1 ++ i :: l2 → (j < S NBUF)%nat) as Hlt.
  { intros j [->|Hj%Hmem]%elem_of_cons; [unfold HEAD|]; lia. }
  destruct (set_prev_run s (b_next x) (b_prev x)) as (s1 & R1 & L1 & N1 & P1).
  { rewrite Hlen. apply Hlt. set_solver. }
  erewrite bind_Ok by exact R1. pose proof (links_only_length _ _ L1) as E1.
  destruct (set_next_run s1 (b_prev x) (b_next x)) as (s2 & R2 & L2 & P2 & N2).
  { rewrite E1, Hlen. apply Hlt. set_solver. }
  erewrite bind_Ok by exact R2. pose proof (links_only_length _ _ L2) as E2.
  assert (ring (bufs s2) (l1 ++ l2)) as Hring2.
  { eapply ring_unlink; [exact Hnd|exact Hring| |]; intros j; rewrite ?Hnx, ?Hpv.
    - by rewrite N2, N1.
    - by rewrite P2, P1. }
  apply list.NoDup_cons in Hnd as [_ Hnd].
  rewrite <- Permutation_middle in Hnd. apply list.NoDup_cons in Hnd as [Hni Hnd].
  destruct (push_front_spec s2 (l1 ++ l2) i) as (s3 & R3 & L3 & Hring3); try done.
  { congruence. }
  { intros j Hj. apply Hmem. set_solver. }
  exists s3, (l1 ++ l2). split_and!; [done| |apply Permutation_middle|done].
  transitivity s1; [done|]. by transitivity s2.
Qed.

Lemma brelse_spec s a bn i :
  bio_rep me s a → a_held a !! bn = Some i →
  bn ∈ a_dirty a ∨ a_log a !! bn = a_phys a !! bn →
  ∃ s', brelse me i s = Ok tt s' ∧ disk s' = disk s ∧ bio_rep me s' (unhold bn a) ∧
    nx (bufs s') HEAD = i.
Proof.
  intros Hrep Hh Hsaved.
  pose proof (rep_held_buf s a bn i Hrep Hh) as (b & Hc & Nb & [Hr Hlk] & Hlog & Hbn & Hfl & Hdi).
  pose proof Hc as [Hi Hb]. unfold brelse. buf_steps.
  rewrite Hlk, holdingsleep_acquired. cbn [negb].
  erewrite bind_Ok; [|eapply on_lock_run; [exact Hb|done]].
  buf_steps. cbn [set_refcnt set_lock b_refcnt]. rewrite Hr. eval_ifs.
  set (b' := set_refcnt _ _).
  assert (b_refcnt b' = 0) as Hr0 by (cbn; by rewrite Hr).
  set (s0 := mkBst (<[i := b']> (bufs s)) (disk s)).
  assert (bio_rep me s0 (unhold bn a)) as Hrep0.
  { eapply (rep_put me s a i b b' bn (unhold bn a)); try done.
    - by left.
    - split; [left; by split|]. left.
      destruct Nb as [? ?]. split_and!; cbn; try done; lia.
    - apply (br_phys _ _ _ Hrep).
    - apply (br_hist _ _ _ Hrep).
    - intros bn' Hne. simpl. by rewrite lookup_delete_ne.
    - intros j. cbn [unhold a_held]. rewrite lookup_delete_eq. split; [done|]. rewrite Hr0. by intros [_ ?].
    - intros _ Hnd. simpl. cbn in Hnd. destruct Hsaved as [Hd%Hdi|Heq]; [congruence|].
      rewrite <- Heq. exact Hlog.
    - simpl. apply (br_dom _ _ _ Hrep). done. }
  destruct (br_ring _ _ _ Hrep0) as (l & Hperm & Hring).
  destruct (relink_spec s0 l i b' (br_len _ _ _ Hrep0) Hperm Hring) as (s' & l' & R & L & Hp & Hr').
  { by eapply lookup_upd. } { done. }
  exists s'. split; [exact R|]. split; [apply L|]. split.
  - eapply (rep_links me s0 s' _ (i :: l')); [done|done|by rewrite Hp|done].
  - apply ring_first in Hr'. by injection Hr'.
Qed.

(** ** binit *)

Lemma binit_one_push s i x :
  bufs s !! i = Some x → b_lock x = initsleeplock → binit_one i s = push_front i s.
Proof.
  intros Hx Hl. unfold binit_one, push_front, bind at 1 7. destruct (getb HEAD s) as [h s1| | |] eqn:Hh; try done.
  unfold getb in Hh. destruct (bufs s !! HEAD); [|done]. simplify_eq.
  buf_steps. symmetry. buf_steps. do 2 f_equal. destruct x; cbn in *. by rewrite Hl.
Qed.

Lemma links_only_lookup s s' i b' :
  links_only s s' → bufs s' !! i = Some b' →
  ∃ b, bufs s !! i = Some b ∧ same_but_links b b'.
Proof.
  intros [_ Hf] Hb'. destruct (Forall2_lookup_r _ _ _ _ _ Hf Hb') as (b & Hb & ?). eauto.
Qed.

Lemma length_bss d : length (bufs (bss d)) = S NBUF.
Proof. apply length_replicate. Qed.

(** [binit] links all the buffers, the last one first. *)
Lemma binit_ring d :
  ∃ s', binit (bss d) = Ok tt s' ∧ links_only (bss d) s' ∧ ring (bufs s') (reverse (seq 0 NBUF)).
Proof.
  unfold binit.
  destruct (set_prev_run (bss d) HEAD HEAD) as (s1 & R1 & L1 & N1 & P1); [rewrite length_bss; unfold HEAD; lia|].
  erewrite bind_Ok by exact R1. pose proof (links_only_length _ _ L1) as E1.
  destruct (set_next_run s1 HEAD HEAD) as (s2 & R2 & L2 & P2 & N2); [rewrite E1, length_bss; unfold HEAD; lia|].
  erewrite bind_Ok by exact R2. pose proof (links_only_length _ _ L2) as E2.
  apply (for_each_inv binit_one (λ l s, links_only (bss d) s ∧ ring (bufs s) (reverse l))).
  - split; [by transitivity s1|]. unfold ring. simpl. rewrite chain_cons.
    rewrite N2, P2, P1, !decide_True by done. done.
  - intros l1 i l2 s Hl [Hlo Hring].
    assert (NoDup (l1 ++ i :: l2)) as Hnd by (rewrite <- Hl; apply NoDup_seq).
    assert (∀ j, j ∈ l1 ++ i :: l2 → (j < NBUF)%nat) as Hmem.
    { intros j. rewrite <- Hl, elem_of_seq. lia. }
    assert (length (bufs s) = S NBUF) as Hlen by (by rewrite (links_only_length _ _ Hlo), length_bss).
    destruct (getb_run s Hlen i) as (x & _ & Hx); [apply Nat.lt_le_incl, Hmem; set_solver|].
    destruct (links_only_lookup _ _ _ _ Hlo Hx) as (z & Hz & _ & _ & _ & Hlk & _).
    apply lookup_replicate in Hz as [-> _].
    apply list.NoDup_app in Hnd as (Hnd & Hdis & _).
    destruct (push_front_spec s (reverse l1) i) as (s' & R & L & Hr); try done.
    + apply Hmem. set_solver.
    + rewrite elem_of_reverse. set_solver.
    + by rewrite reverse_Permutation.
    + intros j. rewrite elem_of_reverse. intros ?. apply Hmem. set_solver.
    + exists s'. rewrite (binit_one_push s i x) by done. rewrite reverse_snoc.
      split_and!; [done|by transitivity s|done].
Qed.

Definition disk_wf (d : mdisk) : Prop := ∀ bn, 0 ≤ bn < md_size d ↔ is_Some (md_blocks d !! bn).
Definition empty_cache (d : mdisk) : abio := mkAbio (md_blocks d) (md_hist d) (md_blocks d) ∅ ∅.

Lemma binit_spec d :
  disk_wf d → ∃ s', binit (bss d) = Ok tt s' ∧ disk s' = d ∧ bio_rep me s' (empty_cache d).
Proof.
  intros Hwf. destruct (binit_ring d) as (s' & R & L & Hring). exists s'.
  assert (disk s' = d) as Hd by apply L. split; [exact R|]. clear R. split; [done|].
  assert (∀ i b, cached s' i b → b_flags b = 0 ∧ b_dev b = 0 ∧ idle b) as Hz.
  { intros i b [_ Hb]. destruct (links_only_lookup _ _ _ _ L Hb) as (z & Hz & Hsame).
    apply lookup_replicate in Hz as [-> _]. destruct Hsame as (? & ? & _ & ? & ? & _). done. }
  assert (∀ i b bn, cached s' i b → ¬ names b bn) as Hno.
  { intros i b bn Hb [Hn _]. destruct (Hz i b Hb) as (_ & ? & _). congruence. }
  split; rewrite ?Hd; try done.
  - by rewrite (links_only_length _ _ L), length_bss.
  - exists (reverse (seq 0 NBUF)). split; [by rewrite reverse_Permutation|done].
  - intros i b Hb. destruct (Hz i b Hb) as (? & ? & ?). split; [by left|by right].
  - intros i j b b' bn Hb _ Nb. by destruct (Hno i b bn).
  - intros bn i. split; [done|]. intros (b & Hb & Nb & _). by destruct (Hno i b bn).
  - intros bn. split; [set_solver|]. intros (i & b & Hb & Nb & _). by destruct (Hno i b bn).
  - intros i b bn Hb Nb. by destruct (Hno i b bn).
Qed.
End ops.

(** ** The cache's contract *)

(** What a client asks of the cache, naming blocks; [handles] maps each held
    block to the [struct buf] pointer that [bread] returned for it. *)
Inductive bop := Bread (bn : Z) | Bstore (bn : Z) (d : bytes) | Bpin (bn : Z) | Bwrite (bn : Z) | Brelse (bn : Z).

Definition handle (h : gmap Z nat) (bn : Z) : nat := default NULL (h !! bn).

(** One request against bio.c; a read returns the data the client sees. *)
Definition impl_op (me : Z) (op : bop) (h : gmap Z nat) : M bst (option bytes * gmap Z nat) :=
  match op with
  | Bread bn => let! i := bread me 1 bn in let! d := bdata i in ret (Some d, <[bn := i]> h)
  | Bstore bn d => do! bstore (handle h bn) d in ret (None, h)
  | Bpin bn => do! bpin (handle h bn) in ret (None, h)
  | Bwrite bn => do! bwrite me (handle h bn) in ret (None, h)
  | Brelse bn => do! brelse me (handle h bn) in ret (None, delete bn h)
  end.

Fixpoint impl_run (me : Z) (ops : list bop) (h : gmap Z nat) : M bst (list (option bytes)) :=
  match ops with
  | [] => ret []
  | op :: ops =>
      let! r := impl_op me op h in
      let! outs := impl_run me ops r.2 in
      ret (r.1 :: outs)
  end.

(** The specification: no buffers, no list, only blocks.  A request is refused
    ([None]) when the client breaks the protocol: it reads a block it holds or
    that does not exist, uses a block it does not hold, gives back a block with
    changes that are neither pinned nor written, or needs more than NBUF
    buffers at once. *)
Record cspec := mkSpec {
  c_phys : gmap Z bytes; c_hist : list (Z * bytes); c_view : gmap Z bytes;
  c_held : gset Z; c_dirty : gset Z }.

Definition spec_op (op : bop) (c : cspec) : option (option bytes * cspec) :=
  match op with
  | Bread bn =>
      match c_view c !! bn with
      | Some d =>
          if decide ((bn ∉ c_held c) ∧ (bn ∈ c_dirty c ∨ (size (c_held c ∪ c_dirty c) < NBUF)%nat)) then
            Some (Some d, mkSpec (c_phys c) (c_hist c) (c_view c) ({[bn]} ∪ c_held c) (c_dirty c))
          else None
      | None => None
      end
  | Bstore bn d =>
      if decide (bn ∈ c_held c) then
        Some (None, mkSpec (c_phys c) (c_hist c) (<[bn := d]> (c_view c)) (c_held c) (c_dirty c))
      else None
  | Bpin bn =>
      if decide (bn ∈ c_held c) then
        Some (None, mkSpec (c_phys c) (c_hist c) (c_view c) (c_held c) ({[bn]} ∪ c_dirty c))
      else None
  | Bwrite bn =>
      match c_view c !! bn with
      | Some d =>
          if decide (bn ∈ c_held c) then
            Some (None, mkSpec (<[bn := d]> (c_phys c)) (c_hist c ++ [(bn, d)]) (c_view c)
                          (c_held c) (c_dirty c ∖ {[bn]}))
          else None
      | None => None
      end
  | Brelse bn =>
      if decide (bn ∈ c_held c ∧ (bn ∈ c_dirty c ∨ c_view c !! bn = c_phys c !! bn)) then
        Some (None, mkSpec (c_phys c) (c_hist c) (c_view c) (c_held c ∖ {[bn]}) (c_dirty c))
      else None
  end.

Fixpoint spec_run (ops : list bop) (c : cspec) : option (list (option bytes) * cspec) :=
  match ops with
  | [] => Some ([], c)
  | op :: ops =>
      '(out, c1) ← (spec_op op c);
      '(outs, c2) ← (spec_run ops c1);
      Some (out :: outs, c2)
  end.

Definition abs (a : abio) : cspec :=
  mkSpec (a_phys a) (a_hist a) (a_log a) (dom (a_held a)) (a_dirty a).

Lemma held_handle a bn : bn ∈ dom (a_held a) → a_held a !! bn = Some (handle (a_held a) bn).
Proof. intros [i Hi]%elem_of_dom. unfold handle. by rewrite Hi. Qed.

Lemma impl_op_refines me op s a out c :
  bio_rep me s a → spec_op op (abs a) = Some (out, c) →
  ∃ s' a', impl_op me op (a_held a) s = Ok (out, a_held a') s' ∧ bio_rep me s' a' ∧ abs a' = c.
Proof.
  intros Hrep Hop. unfold spec_op in Hop. destruct op as [bn|bn d|bn|bn|bn]; cbn in Hop.
  - destruct (a_log a !! bn) as [d|] eqn:Hd; [|done]. case_decide as Hg; [|done]. simplify_eq.
    destruct Hg as [Hnh Hroom]. apply not_elem_of_dom in Hnh.
    assert (0 ≤ bn < md_size (disk s)) as Hbn.
    { apply (br_dom _ _ _ Hrep), (br_dom_log _ _ _ Hrep). eauto. }
    destruct (bread_spec me s a bn Hrep Hbn Hnh Hroom) as (i & s' & R & Hrep').
    destruct (bdata_spec me s' (hold bn i a) bn i Hrep') as (d' & Hd' & R'); [apply lookup_insert_eq|].
    cbn in Hd'. simplify_eq. exists s', (hold bn i a). unfold impl_op.
    erewrite bind_Ok by exact R. erewrite bind_Ok by exact R'. split_and!; [done..|].
    unfold abs; cbn. f_equal. by rewrite dom_insert_L.
  - case_decide as Hh; [|done]. simplify_eq. apply held_handle in Hh.
    destruct (bstore_spec me s a bn _ d Hrep Hh) as (s' & R & _ & Hrep').
    exists s', (store bn d a). cbn. by erewrite bind_Ok by exact R.
  - case_decide as Hh; [|done]. simplify_eq. apply held_handle in Hh.
    destruct (bpin_spec me s a bn _ Hrep Hh) as (s' & R & _ & Hrep').
    exists s', (pin bn a). cbn. by erewrite bind_Ok by exact R.
  - destruct (a_log a !! bn) as [d|] eqn:Hd; [|done]. case_decide as Hh; [|done]. simplify_eq. apply held_handle in Hh.
    destruct (bwrite_spec me s a bn _ d Hrep Hh Hd) as (s' & R & _ & Hrep').
    exists s', (flush bn d a). cbn. by erewrite bind_Ok by exact R.
  - case_decide as Hg; [|done]. simplify_eq. destruct Hg as [Hh%held_handle Hsaved].
    destruct (brelse_spec me s a bn _ Hrep Hh Hsaved) as (s' & R & _ & Hrep' & _).
    exists s', (unhold bn a). cbn. erewrite bind_Ok by exact R. split_and!; [done..|].
    unfold abs; cbn. f_equal. by rewrite dom_delete_L.
Qed.

Lemma impl_run_refines me ops s a outs c :
  bio_rep me s a → spec_run ops (abs a) = Some (outs, c) →
  ∃ s' a', impl_run me ops (a_held a) s = Ok outs s' ∧ bio_rep me s' a' ∧ abs a' = c.
Proof.
  revert s a outs. induction ops as [|op ops IH]; intros s a outs Hrep Hrun; simpl in Hrun.
  { simplify_eq. exists s, a. done. }
  destruct (spec_op op (abs a)) as [[out c1]|] eqn:Hop; [|done]. simpl in Hrun.
  destruct (spec_run ops c1) as [[outs' c2]|] eqn:Hrest; [|done]. simplify_eq/=.
  destruct (impl_op_refines me op s a out c1 Hrep Hop) as (s1 & a1 & R1 & Hrep1 & <-).
  destruct (IH s1 a1 outs' Hrep1 Hrest) as (s2 & a2 & R2 & Hrep2 & <-).
  exists s2, a2. erewrite bind_Ok by exact R1. cbn. by erewrite bind_Ok by exact R2.
Qed.

(** C3: the buffer cache refines a plain array of blocks.  Starting from
    [binit], every sequence of bread, data assignments, log pins, bwrite and
    brelse calls that the specification accepts runs without panic, sleep or
    page fault; each bread returns the specified contents of the block (the
    last assigned data while a block is held, pinned or written, the disk's
    otherwise, whatever evictions happened in between), and the disk ends up
    with exactly the specified blocks and sequence of block writes. *)
Theorem bcache_refines_blocks (me : Z) (d : mdisk) (ops : list bop) outs c :
  disk_wf d →
  spec_run ops (abs (empty_cache d)) = Some (outs, c) →
  ∃ s', (do! binit in impl_run me ops ∅) (bss d) = Ok outs s' ∧
    md_blocks (disk s') = c_phys c ∧ md_hist (disk s') = c_hist c.
Proof.
  intros Hwf Hrun. destruct (binit_spec me d Hwf) as (s & R & Hd & Hrep).
  destruct (impl_run_refines me ops s _ outs c Hrep Hrun) as (s' & a' & R' & Hrep' & <-).
  exists s'. erewrite bind_Ok by exact R. split_and!; [exact R'|apply Hrep'..].
Qed.

Definition tiny_disk : mdisk := mkDisk 2 {[ 0 := [10]; 1 := [20] ]} [].
Lemma tiny_disk_wf : disk_wf tiny_disk.
Proof.
  intros bn. unfold tiny_disk; cbn [md_size md_blocks]. split.
  - intros H. assert (bn = 0 ∨ bn = 1) as [-> | ->] by lia; vm_compute; eauto.
  - intros [x Hx]. apply lookup_insert_Some in Hx as [[<- _]|[_ Hx]]; [lia|].
    apply lookup_singleton_Some in Hx as [<- _]. lia.
Qed.

(** Update block 1 through the cache, write it, give it back, read it again. *)
Definition update_script : list bop :=
  [Bread 1; Bread 0; Bstore 1 [33]; Bwrite 1; Brelse 1; Brelse 0; Bread 1].

Lemma bcache_refines_blocks_witness :
  ∃ s', (do! binit in impl_run 7 update_script ∅) (bss tiny_disk) =
          Ok [Some [20]; Some [10]; None; None; None; None; Some [33]] s' ∧
    md_blocks (disk s') = {[ 0 := [10]; 1 := [33] ]} ∧ md_hist (disk s') = [(1, [33])].
Proof.
  destruct (bcache_refines_blocks 7 tiny_disk update_script
              [Some [20]; Some [10]; None; None; None; None; Some [33]]
              (mkSpec {[ 0 := [10]; 1 := [33] ]} [(1, [33])] {[ 0 := [10]; 1 := [33] ]} {[ 1 ]} ∅))
    as (s' & R & Hb & Hh).
  - exact tiny_disk_wf.
  - vm_compute. reflexivity.
  - exists s'. split; [exact R|]. split; [exact Hb|exact Hh].
Defined.

(** bget recycles the least recently used buffer.  [l] is the list from
    head.next; when no cached buffer names the block, bget takes the last
    buffer of [l] whose reference count is 0 and that is not B_DIRTY. *)
Lemma bget_lru (me : Z) s a l bn i s' :
  bio_rep me s a → l ≡ₚ seq 0 NBUF → ring (bufs s) l →
  find (buf_test (matches 1 bn) s) l = None →
  bget me 1 bn s = Ok i s' →
  ∃ l1 l2, l = l1 ++ i :: l2 ∧ buf_test recyclable s i = true ∧
    Forall (λ j, buf_test recyclable s j = false) l2.
Proof.
  intros Hrep Hperm Hring Hnone Hget.
  destruct (ring_scan s l (matches 1 bn) (br_len _ _ _ Hrep) Hperm Hring) as (h & Hh & Hscan & Hprev).
  unfold bget in Hget. erewrite bind_Ok in Hget by exact Hh.
  erewrite bind_Ok in Hget by exact Hscan. rewrite Hnone in Hget.
  erewrite bind_Ok in Hget by apply Hprev.
  destruct (find _ (reverse l)) as [j|] eqn:Hf; [|done].
  assert (j = i) as ->.
  { repeat (apply bind_Ok_inv in Hget as (? & ? & _ & Hget)). by injection Hget. }
  assert (∀ k m, find (buf_test recyclable s) k = Some m →
    ∃ k1 k2, k = k1 ++ m :: k2 ∧ buf_test recyclable s m = true ∧
      Forall (λ j, buf_test recyclable s j = false) k1) as Hfind.
  { clear. induction k as [|x k IH]; intros m Hm; [done|]. simpl in Hm.
    destruct (buf_test recyclable s x) eqn:Hx.
    - injection Hm as ->. by exists [], k.
    - destruct (IH m Hm) as (k1 & k2 & -> & ? & ?). exists (x :: k1), k2. eauto. }
  destruct (Hfind _ _ Hf) as (k1 & k2 & Hrev & Ht & Hall).
  exists (reverse k2), (reverse k1). split_and!; [|done|by apply Forall_reverse].
  rewrite <- (reverse_involutive l), Hrev. rewrite reverse_app, reverse_cons, <- app_assoc. done.
Qed.

(** The cache as [binit] leaves it. *)
Definition booted : bst :=
  match binit (bss tiny_disk) with Ok _ s => s | _ => bss tiny_disk end.

Lemma booted_rep me : bio_rep me booted (empty_cache tiny_disk).
Proof.
  destruct (binit_spec me tiny_disk tiny_disk_wf) as (s & R & _ & Hrep).
  unfold booted. by rewrite R.
Qed.

Lemma bget_lru_witness :
  ∃ s' l1 l2, bget 7 1 0 booted = Ok 0%nat s' ∧ reverse (seq 0 NBUF) = l1 ++ 0%nat :: l2 ∧
    buf_test recyclable booted 0 = true ∧ Forall (λ j, buf_test recyclable booted j = false) l2.
Proof.
  destruct (bget 7 1 0 booted) as [i s'| | |] eqn:Hget; [|exfalso; revert Hget; vm_compute; discriminate..].
  assert (i = 0%nat) as -> by (revert Hget; vm_compute; congruence).
  destruct (bget_lru 7 booted (empty_cache tiny_disk) (reverse (seq 0 NBUF)) 0 0 s') as (l1 & l2 & ? & ? & ?).
  - apply booted_rep.
  - apply reverse_Permutation.
  - vm_compute. repeat split.
  - vm_compute. reflexivity.
  - exact Hget.
  - exists s', l1, l2. split_and!; assumption || reflexivity.
Defined.
