(* ===== verification/Log.v ===== *)
(** * The redo log: log.c

    The log groups the block writes of the file-system calls between
    [begin_op] and [end_op] into one transaction.  State: the buffer cache and
    disk below it, and [struct log].  The functions are translated one by one;
    [log.lock] makes the updates of [struct log] atomic.  Sleeping on [&log]
    is the [Sleeping] result: the caller re-runs the loop body when woken.  The
    wakeup calls of [end_op] change the process table only (Proc.v) and are not
    part of this state. *)
From S2P Require Import Prelude Str Sleeplock Memide Bio.

Definition MAXOPBLOCKS : Z := 10.
Definition LOGSIZE : nat := 30.

Record logheader := mkLh { lh_n : Z; lh_block : list Z }.
Record log := mkLog {
  lg_start : Z; lg_size : Z; lg_outstanding : Z; lg_committing : Z; lg_dev : Z; lg_lh : logheader }.

(** [struct log log] in the BSS segment. *)
Definition bss_log : log := mkLog 0 0 0 0 0 (mkLh 0 (replicate LOGSIZE 0)).

Record lst := mkLst { l_bio : bst; l_log : log }.

Definition set_bio (b : bst) (s : lst) : lst := mkLst b (l_log s).
Definition set_log (f : log → log) (s : lst) : lst := mkLst (l_bio s) (f (l_log s)).
Definition with_lh (f : logheader → logheader) (l : log) : log :=
  mkLog (lg_start l) (lg_size l) (lg_outstanding l) (lg_committing l) (lg_dev l) (f (lg_lh l)).
Definition with_n (n : Z) (h : logheader) : logheader := mkLh n (lh_block h).
Definition with_block (i : nat) (b : Z) (h : logheader) : logheader :=
  mkLh (lh_n h) (<[i := b]> (lh_block h)).
Definition with_place (start size dev : Z) (l : log) : log :=
  mkLog start size (lg_outstanding l) (lg_committing l) dev (lg_lh l).
Definition with_outstanding (f : Z → Z) (l : log) : log :=
  mkLog (lg_start l) (lg_size l) (f (lg_outstanding l)) (lg_committing l) (lg_dev l) (lg_lh l).
Definition with_committing (c : Z) (l : log) : log :=
  mkLog (lg_start l) (lg_size l) (lg_outstanding l) c (lg_dev l) (lg_lh l).

Definition onb {A} (m : M bst A) : M lst A := zoom l_bio set_bio m.

(** ** The superblock (fs.h) and its on-disk layout *)

Record superblock := mkSb {
  sb_size : Z; sb_nblocks : Z; sb_ninodes : Z; sb_nlog : Z;
  sb_logstart : Z; sb_inodestart : Z; sb_bmapstart : Z }.

Definition decode_sb (d : bytes) : superblock :=
  mkSb (rd32 d 0) (rd32 d 4) (rd32 d 8) (rd32 d 12) (rd32 d 16) (rd32 d 20) (rd32 d 24).

(** ** The header block: [int n; int block[LOGSIZE]] *)

Definition hdr_n (d : bytes) : Z := s32 (rd32 d 0).
Definition hdr_block (d : bytes) (i : nat) : Z := s32 (rd32 d (4 + 4 * i)).
Definition hdr_set_n (n : Z) (d : bytes) : bytes := wr32 d 0 n.
Definition hdr_set_block (i : nat) (b : Z) (d : bytes) : bytes := wr32 d (4 + 4 * i) b.

Section code.
Context (me : Z).

Definition readsb (dev : Z) : M bst superblock :=
  let! bp := bread me dev 1 in
  let! d := bdata bp in
  let sb := decode_sb d in
  do! brelse me bp in
  ret sb.

(** [log.lh.block[i]]; an index past the array is a wild access. *)
Definition lh_get (i : nat) : M lst Z := λ s,
  match lh_block (lg_lh (l_log s)) !! i with
  | Some b => Ok b s
  | None => Panic "page fault"
  end.
Definition lh_set (i : nat) (b : Z) : M lst unit := λ s,
  match lh_block (lg_lh (l_log s)) !! i with
  | Some _ => Ok tt (set_log (with_lh (with_block i b)) s)
  | None => Panic "page fault"
  end.

(** The block numbers [log.start+tail+1] and [log.lh.block[tail]] are passed
    to [bread] as [uint]. *)
Definition install_one (tail : nat) : M lst unit :=
  let! lg := gets l_log in
  let! lbuf := onb (bread me (lg_dev lg) (u32 (lg_start lg + tail + 1))) in
  let! home := lh_get tail in
  let! dbuf := onb (bread me (lg_dev lg) (u32 home)) in
  let! d := onb (bdata lbuf) in
  do! onb (bstore dbuf d) in
  do! onb (bwrite me dbuf) in
  do! onb (brelse me lbuf) in
  onb (brelse me dbuf).

Definition install_trans : M lst unit :=
  let! lg := gets l_log in
  for_each (seq 0 (Z.to_nat (lh_n (lg_lh lg)))) install_one.

Definition read_head : M lst unit :=
  let! lg := gets l_log in
  let! buf := onb (bread me (lg_dev lg) (u32 (lg_start lg))) in
  let! lh := onb (bdata buf) in
  do! modify (set_log (with_lh (with_n (hdr_n lh)))) in
  do! for_each (seq 0 (Z.to_nat (hdr_n lh))) (λ i, lh_set i (hdr_block lh i)) in
  onb (brelse me buf).

Definition write_head : M lst unit :=
  let! lg := gets l_log in
  let! buf := onb (bread me (lg_dev lg) (u32 (lg_start lg))) in
  let! hb := onb (bdata buf) in
  do! onb (bstore buf (hdr_set_n (lh_n (lg_lh lg)) hb)) in
  do! for_each (seq 0 (Z.to_nat (lh_n (lg_lh lg)))) (λ i,
        let! b := lh_get i in
        let! hb := onb (bdata buf) in
        onb (bstore buf (hdr_set_block i b hb))) in
  do! onb (bwrite me buf) in
  onb (brelse me buf).

Definition recover_from_log : M lst unit :=
  do! read_head in
  do! install_trans in
  do! modify (set_log (with_lh (with_n 0))) in
  write_head.

(** [sizeof(struct logheader)] is 4 + 4*LOGSIZE. *)
Definition initlog (dev : Z) : M lst unit :=
  if (BSIZE <=? 4 + 4 * LOGSIZE)%nat then panic "initlog: too big logheader" else
  let! sb := onb (readsb dev) in
  do! modify (set_log (with_place (s32 (sb_logstart sb)) (s32 (sb_nlog sb)) dev)) in
  recover_from_log.

Definition begin_op : M lst unit :=
  let! lg := gets l_log in
  if truthy (lg_committing lg) then λ s, Sleeping (Chan "log" 0) s
  else if LOGSIZE <? lh_n (lg_lh lg) + (lg_outstanding lg + 1) * MAXOPBLOCKS then
    λ s, Sleeping (Chan "log" 0) s
  else modify (set_log (with_outstanding (λ o, s32 (o + 1)))).

Definition write_one (tail : nat) : M lst unit :=
  let! lg := gets l_log in
  let! to := onb (bread me (lg_dev lg) (u32 (lg_start lg + tail + 1))) in
  let! home := lh_get tail in
  let! from := onb (bread me (lg_dev lg) (u32 home)) in
  let! d := onb (bdata from) in
  do! onb (bstore to d) in
  do! onb (bwrite me to) in
  do! onb (brelse me from) in
  onb (brelse me to).

Definition write_log : M lst unit :=
  let! lg := gets l_log in
  for_each (seq 0 (Z.to_nat (lh_n (lg_lh lg)))) write_one.

Definition commit : M lst unit :=
  let! lg := gets l_log in
  if 0 <? lh_n (lg_lh lg) then
    do! write_log in
    do! write_head in
    do! install_trans in
    do! modify (set_log (with_lh (with_n 0))) in
    write_head
  else ret tt.

Definition end_op : M lst unit :=
  do! modify (set_log (with_outstanding (λ o, s32 (o - 1)))) in
  let! lg := gets l_log in
  if truthy (lg_committing lg) then panic "log.committing" else
  if lg_outstanding lg =? 0 then
    do! modify (set_log (with_committing 1)) in
    do! commit in
    modify (set_log (with_committing 0))
  else ret tt.

(** The index of the first of the [n] entries equal to [blockno], or [n]. *)
Fixpoint find_slot (n : nat) (i : nat) (bl : list Z) (blockno : Z) : nat :=
  match n with
  | O => i
  | S n =>
      match bl !! i with
      | Some b => if u32 b =? blockno then i else find_slot n (S i) bl blockno
      | None => i
      end
  end.

Definition log_write (b : nat) : M lst unit :=
  let! lg := gets l_log in
  let n := lh_n (lg_lh lg) in
  if (LOGSIZE <=? n) || (lg_size lg - 1 <=? n) then panic "too big a transaction" else
  if lg_outstanding lg <? 1 then panic "log_write outside of trans" else
  let! x := onb (getb b) in
  let i := find_slot (Z.to_nat n) 0 (lh_block (lg_lh lg)) (b_blockno x) in
  do! lh_set i (s32 (b_blockno x)) in
  do! (if i =? n then modify (set_log (with_lh (with_n (s32 (n + 1))))) else ret tt) in
  onb (bpin b).
End code.

(** ** Replaying block writes *)

Definition apply_writes (ws : list (Z * bytes)) (m : gmap Z bytes) : gmap Z bytes :=
  foldl (λ m w, <[w.1 := w.2]> m) m ws.

Lemma apply_writes_app ws1 ws2 m : apply_writes (ws1 ++ ws2) m = apply_writes ws2 (apply_writes ws1 m).
Proof. apply foldl_app. Qed.

Lemma apply_writes_other ws m bn : bn ∉ ws.*1 → apply_writes ws m !! bn = m !! bn.
Proof.
  revert m; induction ws as [|[b d] ws IH]; intros m Hbn; [done|]. simpl in *.
  rewrite IH by set_solver. rewrite lookup_insert_ne; [done|set_solver].
Qed.

Lemma apply_writes_in ws m bn d :
  NoDup ws.*1 → (bn, d) ∈ ws → apply_writes ws m !! bn = Some d.
Proof.
  revert m; induction ws as [|[b e] ws IH]; intros m Hnd Hin; [set_solver|]. simpl in *.
  apply list.NoDup_cons in Hnd as [Hb Hnd].
  apply elem_of_cons in Hin as [[= -> ->]|Hin]; [|by apply IH].
  rewrite apply_writes_other by done. apply lookup_insert_eq.
Qed.

Lemma apply_writes_dom ws m bn :
  (∀ w, w ∈ ws → is_Some (m !! w.1)) →
  is_Some (apply_writes ws m !! bn) ↔ is_Some (m !! bn).
Proof.
  revert m; induction ws as [|[b d] ws IH]; intros m Hws; [done|]. simpl.
  assert (∀ k, is_Some (<[b := d]> m !! k) ↔ is_Some (m !! k)) as Hi.
  { intros k. destruct (decide (k = b)) as [->|Hne]; [|by rewrite lookup_insert_ne].
    rewrite lookup_insert_eq. split; [|eauto]. intros _. apply (Hws (b, d)). set_solver. }
  rewrite IH; [apply Hi|]. intros w Hw. apply Hi, Hws. set_solver.
Qed.

(** A block [w.1] that is not pinned afterwards is written with [w.2]. *)
Definition put (w : Z * bytes) (a : abio) : abio :=
  mkAbio (<[w.1 := w.2]> (a_phys a)) (a_hist a ++ [w]) (<[w.1 := w.2]> (a_log a))
    (a_held a) (a_dirty a ∖ {[w.1]}).

Definition put_all (ws : list (Z * bytes)) (a : abio) : abio :=
  mkAbio (apply_writes ws (a_phys a)) (a_hist a ++ ws) (apply_writes ws (a_log a))
    (a_held a) (a_dirty a ∖ list_to_set ws.*1).

Lemma put_all_nil a : put_all [] a = a.
Proof. destruct a. unfold put_all; cbn. rewrite app_nil_r. f_equal. set_solver. Qed.

Lemma put_all_app ws1 ws2 a : put_all (ws1 ++ ws2) a = put_all ws2 (put_all ws1 a).
Proof.
  unfold put_all; cbn. rewrite !apply_writes_app, app_assoc, fmap_app, list_to_set_app_L.
  f_equal. set_solver.
Qed.

Lemma put_all_snoc ws w a : put_all (ws ++ [w]) a = put w (put_all ws a).
Proof. rewrite put_all_app. unfold put, put_all; cbn. f_equal. set_solver. Qed.

(** ** The header block *)

Fixpoint hdr_fill (i : nat) (bl : list Z) (d : bytes) : bytes :=
  match bl with
  | [] => d
  | b :: bl => hdr_fill (S i) bl (hdr_set_block i b d)
  end.
(** What [write_head] makes of header block [d] for the blocks [bl]. *)
Definition hdr_image (bl : list Z) (d : bytes) : bytes := hdr_fill 0 bl (hdr_set_n (length bl) d).

Lemma hdr_fill_snoc i bl b d :
  hdr_fill i (bl ++ [b]) d = hdr_set_block (i + length bl) b (hdr_fill i bl d).
Proof.
  revert i d; induction bl as [|x bl IH]; intros i d; simpl; [by rewrite Nat.add_0_r|].
  rewrite IH. by rewrite <- Nat.add_succ_comm.
Qed.

Lemma length_hdr_fill i bl d : length (hdr_fill i bl d) = length d.
Proof. revert i d; induction bl; intros; simpl; [done|]. rewrite IHbl. apply length_wr32. Qed.
Lemma length_hdr_image bl d : length (hdr_image bl d) = length d.
Proof. unfold hdr_image. rewrite length_hdr_fill. apply length_wr32. Qed.

Lemma hdr_fill_before i bl d off :
  (off + 4 ≤ 4 + 4 * i)%nat → rd32 (hdr_fill i bl d) off = rd32 d off.
Proof.
  revert i d; induction bl as [|b bl IH]; intros i d Hoff; simpl; [done|].
  rewrite IH by lia. apply rd32_wr32_ne. lia.
Qed.

Lemma hdr_fill_entry i bl d k b :
  bl !! k = Some b → (4 + 4 * (i + length bl) ≤ length d)%nat →
  rd32 (hdr_fill i bl d) (4 + 4 * (i + k)) = u32 b.
Proof.
  revert i d k; induction bl as [|x bl IH]; intros i d k Hk Hlen; [done|]. simpl in Hlen.
  destruct k as [|k]; simpl in Hk |- *.
  - injection Hk as ->. rewrite hdr_fill_before by lia.
    rewrite Nat.add_0_r. apply rd32_wr32_eq. lia.
  - replace (i + S k)%nat with (S i + k)%nat by lia. apply IH; [done|].
    unfold hdr_set_block. rewrite length_wr32. lia.
Qed.

Lemma s32_u32 x : s32 (u32 x) = s32 x.
Proof. unfold s32, u32. by rewrite Z.mod_mod by lia. Qed.

Lemma hdr_n_image bl d :
  length d = BSIZE → (length bl ≤ LOGSIZE)%nat → hdr_n (hdr_image bl d) = length bl.
Proof.
  intros Hd Hl. unfold hdr_n, hdr_image, hdr_set_n. rewrite hdr_fill_before by lia.
  rewrite rd32_wr32_eq by (rewrite Hd; unfold BSIZE; lia). rewrite s32_u32. apply s32_small.
  unfold is_s32, LOGSIZE in *. lia.
Qed.

Lemma hdr_block_image bl d i b :
  length d = BSIZE → (length bl ≤ LOGSIZE)%nat → bl !! i = Some b → is_s32 b →
  hdr_block (hdr_image bl d) i = b.
Proof.
  intros Hd Hl Hi Hb. unfold hdr_block, hdr_image.
  rewrite (hdr_fill_entry 0 bl _ i b Hi).
  - rewrite s32_u32. by apply s32_small.
  - unfold hdr_set_n. rewrite length_wr32, Hd. unfold BSIZE, LOGSIZE in *. lia.
Qed.

Section spec.
Context (me : Z).

(** The log's view of a state whose cache is represented by [a]. *)
Definition lrep (s : lst) (a : abio) (lg : log) : Prop := bio_rep me (l_bio s) a ∧ l_log s = lg.

Lemma onb_run {A} (m : M bst A) s x b :
  m (l_bio s) = Ok x b → onb m s = Ok x (mkLst b (l_log s)).
Proof. unfold onb, zoom. by intros ->. Qed.

Lemma phys_size s a lg bn : lrep s a lg → is_Some (a_phys a !! bn) → 0 ≤ bn < md_size (disk (l_bio s)).
Proof. intros [H _]. apply (br_dom _ _ _ H). Qed.

Lemma lbread s a lg bn :
  lrep s a lg → is_Some (a_phys a !! bn) → a_held a !! bn = None → room bn a →
  ∃ i s', onb (bread me 1 bn) s = Ok i s' ∧ lrep s' (hold bn i a) lg.
Proof.
  intros Hl Hp Hh Hr. pose proof (phys_size _ _ _ _ Hl Hp) as Hsz. destruct Hl as [Hrep Hlg].
  destruct (bread_spec me _ a bn Hrep Hsz Hh Hr) as (i & b & R & Hrep').
  exists i, (mkLst b (l_log s)). by rewrite (onb_run _ _ _ _ R).
Qed.

Lemma lbdata s a lg bn i :
  lrep s a lg → a_held a !! bn = Some i →
  ∃ d, a_log a !! bn = Some d ∧ onb (bdata i) s = Ok d s.
Proof.
  intros [Hrep Hlg] Hh. destruct (bdata_spec me _ a bn i Hrep Hh) as (d & Hd & R).
  exists d. rewrite (onb_run _ _ _ _ R). by destruct s.
Qed.

Lemma lbstore s a lg bn i d :
  lrep s a lg → a_held a !! bn = Some i →
  ∃ s', onb (bstore i d) s = Ok tt s' ∧ lrep s' (store bn d a) lg.
Proof.
  intros [Hrep Hlg] Hh. destruct (bstore_spec me _ a bn i d Hrep Hh) as (b & R & _ & Hrep').
  exists (mkLst b (l_log s)). by rewrite (onb_run _ _ _ _ R).
Qed.

Lemma lbpin s a lg bn i :
  lrep s a lg → a_held a !! bn = Some i →
  ∃ s', onb (bpin i) s = Ok tt s' ∧ lrep s' (pin bn a) lg.
Proof.
  intros [Hrep Hlg] Hh. destruct (bpin_spec me _ a bn i Hrep Hh) as (b & R & _ & Hrep').
  exists (mkLst b (l_log s)). by rewrite (onb_run _ _ _ _ R).
Qed.

Lemma lbwrite s a lg bn i d :
  lrep s a lg → a_held a !! bn = Some i → a_log a !! bn = Some d →
  ∃ s', onb (bwrite me i) s = Ok tt s' ∧ lrep s' (flush bn d a) lg.
Proof.
  intros [Hrep Hlg] Hh Hd. destruct (bwrite_spec me _ a bn i d Hrep Hh Hd) as (b & R & _ & Hrep').
  exists (mkLst b (l_log s)). by rewrite (onb_run _ _ _ _ R).
Qed.

Lemma lbrelse s a lg bn i :
  lrep s a lg → a_held a !! bn = Some i → bn ∈ a_dirty a ∨ a_log a !! bn = a_phys a !! bn →
  ∃ s', onb (brelse me i) s = Ok tt s' ∧ lrep s' (unhold bn a) lg.
Proof.
  intros [Hrep Hlg] Hh Hd. destruct (brelse_spec me _ a bn i Hrep Hh Hd) as (b & R & _ & Hrep' & _).
  exists (mkLst b (l_log s)). by rewrite (onb_run _ _ _ _ R).
Qed.

Lemma lclean s a lg bn :
  lrep s a lg → a_held a !! bn = None → bn ∉ a_dirty a → a_log a !! bn = a_phys a !! bn.
Proof. intros [H _]. apply (br_clean _ _ _ H). Qed.

Lemma lview s a lg bn : lrep s a lg → is_Some (a_phys a !! bn) → is_Some (a_log a !! bn).
Proof. intros [H _]. apply (br_dom_log _ _ _ H). Qed.

Lemma lh_get_run s a lg i b :
  lrep s a lg → lh_block (lg_lh lg) !! i = Some b → lh_get i s = Ok b s.
Proof. intros [_ <-] Hb. unfold lh_get. by rewrite Hb. Qed.

(** [lrun R]: step over an operation whose run is [R]. *)
Ltac lrun R := erewrite bind_Ok by exact R.

(** ** One block of write_log and of install_trans *)

(** Block [home] can be copied to or from log slot [tail]. *)
Record slot_ok (a : abio) (lg : log) (tail : nat) (home : Z) : Prop := {
  so_held : a_held a = ∅;
  so_dev : lg_dev lg = 1;
  so_block : lh_block (lg_lh lg) !! tail = Some home;
  so_range : is_u32 (lg_start lg + tail + 1);
  so_home_range : is_u32 home;
  so_slot : is_Some (a_phys a !! (lg_start lg + tail + 1));
  so_home : is_Some (a_phys a !! home);
  so_ne : lg_start lg + tail + 1 ≠ home;
  so_clean : lg_start lg + tail + 1 ∉ a_dirty a;
  so_room : (size (a_dirty a) < NBUF)%nat;
  so_room_home : home ∈ a_dirty a ∨ (S (size (a_dirty a)) < NBUF)%nat;
}.

Lemma room_one a bn : a_held a = ∅ → (size (a_dirty a) < NBUF)%nat → room bn a.
Proof. intros Hh H. right. by rewrite Hh, dom_empty_L, union_empty_l_L. Qed.

Lemma room_two a b i bn :
  a_held a = ∅ → bn ∈ a_dirty a ∨ (S (size (a_dirty a)) < NBUF)%nat → room bn (hold b i a).
Proof.
  intros Hh [Hd|Hs]; [by left|]. right. cbn. rewrite Hh, dom_insert_L, dom_empty_L, union_empty_r_L.
  rewrite size_union_alt, size_singleton. pose proof (subseteq_size (a_dirty a ∖ {[b]}) (a_dirty a)) as Hle.
  specialize (Hle ltac:(set_solver)). lia.
Qed.

Lemma bread_both s a lg tail home :
  lrep s a lg → slot_ok a lg tail home →
  ∃ i j s1 s2, onb (bread me (lg_dev lg) (u32 (lg_start lg + tail + 1))) s = Ok i s1 ∧
    lh_get tail s1 = Ok home s1 ∧
    onb (bread me (lg_dev lg) (u32 home)) s1 = Ok j s2 ∧
    lrep s2 (hold home j (hold (lg_start lg + tail + 1) i a)) lg.
Proof.
  intros Hl []. rewrite so_dev0, !u32_small by done.
  destruct (lbread s a lg (lg_start lg + tail + 1) Hl) as (i & s1 & R1 & Hl1); [done| |by apply room_one|].
  { by rewrite so_held0. }
  destruct (lbread s1 _ lg home Hl1) as (j & s2 & R2 & Hl2); [done| |by apply room_two|].
  { cbn. by rewrite lookup_insert_ne, so_held0. }
  exists i, j, s1, s2. split_and!; try done. by eapply lh_get_run.
Qed.

Lemma held_round_trip (m : gmap Z nat) (b1 b2 : Z) i j :
  m = ∅ → b1 ≠ b2 → delete b1 (delete b2 (<[b2 := j]> (<[b1 := i]> m))) = ∅ ∧
                    delete b2 (delete b1 (<[b2 := j]> (<[b1 := i]> m))) = ∅.
Proof.
  intros -> Hne. rewrite (delete_delete _ b2 b1), delete_insert_id by by rewrite lookup_insert_ne.
  by rewrite delete_insert_id.
Qed.

Lemma write_one_spec s a lg tail home d :
  lrep s a lg → slot_ok a lg tail home → home ∈ a_dirty a → a_log a !! home = Some d →
  ∃ s', write_one me tail s = Ok tt s' ∧ lrep s' (put (lg_start lg + tail + 1, d) a) lg.
Proof.
  intros Hl Hok Hdh Hd. set (lb := lg_start lg + tail + 1).
  destruct (bread_both s a lg tail home Hl Hok) as (i & j & s1 & s2 & R1 & Rh & R2 & Hl2).
  destruct Hok. fold lb in R1, Hl2, so_ne0.
  unfold write_one. rewrite bind_gets, (proj2 Hl). lrun R1. lrun Rh. lrun R2.
  destruct (lbdata s2 _ lg home j Hl2) as (d' & Hd' & R3); [apply lookup_insert_eq|].
  cbn in Hd'. rewrite Hd in Hd'. injection Hd' as <-. lrun R3.
  destruct (lbstore s2 _ lg lb i d Hl2) as (s3 & R4 & Hl3).
  { cbn. rewrite lookup_insert_ne by done. apply lookup_insert_eq. }
  lrun R4. destruct (lbwrite s3 _ lg lb i d Hl3) as (s4 & R5 & Hl4).
  { cbn. rewrite lookup_insert_ne by done. apply lookup_insert_eq. }
  { cbn. apply lookup_insert_eq. }
  lrun R5. destruct (lbrelse s4 _ lg home j Hl4) as (s5 & R6 & Hl5).
  { cbn. apply lookup_insert_eq. }
  { left. cbn. set_solver. }
  lrun R6. destruct (lbrelse s5 _ lg lb i Hl5) as (s6 & R7 & Hl6).
  { cbn. rewrite delete_insert_id; [apply lookup_insert_eq|]. rewrite lookup_insert_ne by done. by rewrite so_held0. }
  { right. cbn. by rewrite !lookup_insert_eq. }
  exists s6. split; [done|].
  replace (put (lb, d) a) with (unhold lb (unhold home (flush lb d (store lb d (hold home j (hold lb i a)))))); [done|].
  unfold put, unhold, flush, store, hold; cbn. rewrite so_held0. f_equal. by apply held_round_trip.
Qed.

Lemma install_one_spec s a lg tail home d :
  lrep s a lg → slot_ok a lg tail home → a_log a !! (lg_start lg + tail + 1) = Some d →
  ∃ s', install_one me tail s = Ok tt s' ∧ lrep s' (put (home, d) a) lg.
Proof.
  intros Hl Hok Hd. pose proof (lclean s a lg (lg_start lg + tail + 1) Hl) as Hcl.
  set (lb := lg_start lg + tail + 1) in *.
  destruct (bread_both s a lg tail home Hl Hok) as (i & j & s1 & s2 & R1 & Rh & R2 & Hl2).
  destruct Hok. fold lb in R1, Hl2, so_ne0, so_clean0.
  unfold install_one. rewrite bind_gets, (proj2 Hl). lrun R1. lrun Rh. lrun R2.
  destruct (lbdata s2 _ lg lb i Hl2) as (d' & Hd' & R3).
  { cbn. rewrite lookup_insert_ne by done. apply lookup_insert_eq. }
  cbn in Hd'. rewrite Hd in Hd'. injection Hd' as <-. lrun R3.
  destruct (lbstore s2 _ lg home j d Hl2) as (s3 & R4 & Hl3); [apply lookup_insert_eq|].
  lrun R4. destruct (lbwrite s3 _ lg home j d Hl3) as (s4 & R5 & Hl4); [apply lookup_insert_eq..|].
  lrun R5. destruct (lbrelse s4 _ lg lb i Hl4) as (s5 & R6 & Hl5).
  { cbn. rewrite lookup_insert_ne by done. apply lookup_insert_eq. }
  { right. cbn. rewrite !lookup_insert_ne by done. apply Hcl; [by rewrite so_held0|done]. }
  lrun R6. destruct (lbrelse s5 _ lg home j Hl5) as (s6 & R7 & Hl6).
  { cbn. rewrite lookup_delete_ne by done. apply lookup_insert_eq. }
  { right. cbn. by rewrite !lookup_insert_eq. }
  exists s6. split; [done|].
  replace (put (home, d) a) with (unhold home (unhold lb (flush home d (store home d (hold home j (hold lb i a)))))); [done|].
  unfold put, unhold, flush, store, hold; cbn. rewrite so_held0. f_equal. by apply held_round_trip.
Qed.

(** ** The loops *)

Definition in_log (lg : log) (b : Z) : Prop := lg_start lg ≤ b < lg_start lg + lg_size lg.

(** The header names the blocks [bl], which can be copied to and from their
    log slots. *)
Record txn (a : abio) (lg : log) (bl : list Z) : Prop := {
  tx_held : a_held a = ∅;
  tx_dev : lg_dev lg = 1;
  tx_n : lh_n (lg_lh lg) = length bl;
  tx_len : (length bl ≤ LOGSIZE)%nat;
  tx_fit : length bl < lg_size lg;
  tx_blocks : ∀ i b, bl !! i = Some b → lh_block (lg_lh lg) !! i = Some b;
  tx_nodup : NoDup bl;
  tx_home : ∀ b, b ∈ bl → is_s32 b ∧ is_Some (a_phys a !! b) ∧ ¬ in_log lg b;
  tx_area : ∀ b, in_log lg b → is_s32 b ∧ is_Some (a_phys a !! b) ∧ b ∉ a_dirty a;
  tx_room : (size (a_dirty a) < NBUF)%nat;
  tx_room_home : (∀ b, b ∈ bl → b ∈ a_dirty a) ∨ (S (size (a_dirty a)) < NBUF)%nat;
}.

Lemma phys_nonneg s a lg b : lrep s a lg → is_Some (a_phys a !! b) → is_s32 b → is_u32 b.
Proof. intros Hl Hp%(phys_size _ _ _ _ Hl) Hs. unfold is_u32, is_s32 in *. lia. Qed.

Lemma in_log_slot a lg bl (i : nat) :
  txn a lg bl → (i < length bl)%nat → in_log lg (lg_start lg + i + 1).
Proof. intros []. unfold in_log. lia. Qed.

Lemma slot_ok_mid s a lg bl ws i b :
  lrep s a lg → txn a lg bl → (∀ w, w ∈ ws → is_Some (a_phys a !! w.1)) →
  bl !! i = Some b → b ∉ ws.*1 → slot_ok (put_all ws a) lg i b.
Proof.
  intros Hl Ht Hws Hb Hnw.
  assert (in_log lg (lg_start lg + i + 1)) as Hin.
  { eapply in_log_slot; [done|]. by eapply lookup_lt_Some. }
  destruct Ht. assert (b ∈ bl) as Hbl by by eapply list_elem_of_lookup_2.
  destruct (tx_home0 b Hbl) as (Hs & Hp & Hni). destruct (tx_area0 _ Hin) as (Hs' & Hp' & Hd').
  assert (size (a_dirty a ∖ list_to_set ws.*1) ≤ size (a_dirty a))%nat as Hsz.
  { apply subseteq_size. set_solver. }
  split; cbn [put_all a_held a_phys a_dirty]; rewrite ?apply_writes_dom by done; try done.
  - by apply tx_blocks0.
  - by eapply phys_nonneg.
  - by eapply phys_nonneg.
  - intros Heq. by rewrite Heq in Hin.
  - set_solver.
  - lia.
  - destruct tx_room_home0 as [Hall|?]; [left|right; lia].
    apply elem_of_difference. split; [by apply Hall|]. by rewrite elem_of_list_to_set.
Qed.

(** A loop over the header's entries whose [i]-th turn performs the write [ws !! i]. *)
Lemma put_loop (f : nat → M lst unit) ws s a lg :
  lrep s a lg →
  (∀ i w s', ws !! i = Some w → lrep s' (put_all (take i ws) a) lg →
     ∃ s'', f i s' = Ok tt s'' ∧ lrep s'' (put w (put_all (take i ws) a)) lg) →
  ∃ s', for_each (seq 0 (length ws)) f s = Ok tt s' ∧ lrep s' (put_all ws a) lg.
Proof.
  intros Hl Hf.
  destruct (for_seq_inv f (λ i s, lrep s (put_all (take i ws) a) lg) (length ws) s) as (s' & R & Hl').
  - by rewrite put_all_nil.
  - intros i s1 [w Hw]%lookup_lt_is_Some_2 Hl1.
    destruct (Hf _ w s1 Hw Hl1) as (s2 & R & Hl2). exists s2. split; [done|].
    rewrite (take_S_r ws i w) by done. by rewrite put_all_snoc.
  - exists s'. split; [done|]. by rewrite firstn_all in Hl'.
Qed.

Definition slot_writes (start : Z) (dl : list bytes) : list (Z * bytes) :=
  imap (λ i d, (start + i + 1, d)) dl.

Lemma slot_writes_lookup start dl (i : nat) w :
  slot_writes start dl !! i = Some w ↔ ∃ d, dl !! i = Some d ∧ w = (start + i + 1, d).
Proof.
  unfold slot_writes. rewrite list_lookup_imap.
  destruct (dl !! i); simpl; naive_solver.
Qed.

Lemma slot_writes_fst start dl b :
  b ∈ (slot_writes start dl).*1 ↔ start + 1 ≤ b < start + 1 + length dl.
Proof.
  rewrite list_elem_of_fmap. split.
  - intros ([b' d] & -> & (i & Hi)%list_elem_of_lookup).
    apply slot_writes_lookup in Hi as (d' & Hd & [= -> ->]).
    apply lookup_lt_Some in Hd. simpl. lia.
  - intros Hb. destruct (lookup_lt_is_Some_2 dl (Z.to_nat (b - start - 1))) as [d Hd]; [lia|].
    exists (b, d). split; [done|]. apply (list_elem_of_lookup_2 _ (Z.to_nat (b - start - 1))).
    apply slot_writes_lookup. exists d. split; [done|]. f_equal. lia.
Qed.

Lemma slot_writes_nodup start dl : NoDup (slot_writes start dl).*1.
Proof.
  apply NoDup_fmap_fst.
  - intros b d1 d2 (i & Hi)%list_elem_of_lookup (j & Hj)%list_elem_of_lookup.
    apply slot_writes_lookup in Hi as (? & ? & [= -> ->]), Hj as (? & ? & [= ? ->]).
    assert (i = j) as -> by lia. congruence.
  - apply NoDup_alt. intros i j w Hi Hj.
    apply slot_writes_lookup in Hi as (? & ? & ->), Hj as (? & ? & [= ? ?]). lia.
Qed.

Lemma write_log_spec s a lg bl dl :
  lrep s a lg → txn a lg bl → (∀ b, b ∈ bl → b ∈ a_dirty a) →
  Forall2 (λ b d, a_log a !! b = Some d) bl dl →
  ∃ s', write_log me s = Ok tt s' ∧ lrep s' (put_all (slot_writes (lg_start lg) dl) a) lg.
Proof.
  intros Hl Ht Hdirty Hdl. pose proof (list.Forall2_length _ _ _ Hdl) as Hlen.
  unfold write_log. rewrite bind_gets, (proj2 Hl), (tx_n _ _ _ Ht), Nat2Z.id.
  replace (length bl) with (length (slot_writes (lg_start lg) dl))
    by (unfold slot_writes; by rewrite length_imap).
  apply put_loop; [done|]. intros i w s' Hw Hl'.
  pose proof Hw as (d & Hd & ->)%slot_writes_lookup.
  destruct (Forall2_lookup_r _ _ _ _ _ Hdl Hd) as (b & Hb & Hlog).
  assert (b ∈ bl) as Hbl by by eapply list_elem_of_lookup_2.
  assert (b ∉ (take i (slot_writes (lg_start lg) dl)).*1) as Hnw.
  { rewrite fmap_take. intros (j & Hj)%list_elem_of_lookup.
    apply lookup_take_Some in Hj as [Hj _]. apply list_elem_of_lookup_2, slot_writes_fst in Hj.
    destruct (tx_home _ _ _ Ht b Hbl) as (_ & _ & Hni). apply Hni.
    pose proof (tx_fit _ _ _ Ht). unfold in_log. lia. }
  eapply write_one_spec; [done| | |].
  - eapply slot_ok_mid; [exact Hl|done| |done|done].
    intros w Hw'. assert (w.1 ∈ (slot_writes (lg_start lg) dl).*1) as Hin%slot_writes_fst.
    { apply list_elem_of_fmap. exists w. split; [done|].
      apply list_elem_of_lookup in Hw' as (j & Hj). apply lookup_take_Some in Hj as [Hj _].
      by eapply list_elem_of_lookup_2. }
    apply (tx_area _ _ _ Ht). unfold in_log. pose proof (tx_fit _ _ _ Ht). lia.
  - cbn. apply elem_of_difference. split; [by apply Hdirty|]. by rewrite elem_of_list_to_set.
  - cbn. by rewrite apply_writes_other.
Qed.

Lemma install_trans_spec s a lg bl dl :
  lrep s a lg → txn a lg bl → length dl = length bl →
  (∀ (i : nat) d, dl !! i = Some d → a_log a !! (lg_start lg + i + 1) = Some d) →
  ∃ s', install_trans me s = Ok tt s' ∧ lrep s' (put_all (zip bl dl) a) lg.
Proof.
  intros Hl Ht Hlen Hdl.
  unfold install_trans. rewrite bind_gets, (proj2 Hl), (tx_n _ _ _ Ht), Nat2Z.id.
  replace (length bl) with (length (zip bl dl)) by (rewrite length_zip_with; lia).
  assert ((zip bl dl).*1 = bl) as Hfst by (apply fst_zip; lia).
  apply put_loop; [done|]. intros i w s' Hw Hl'.
  pose proof Hw as (b & d & -> & Hb & Hd)%lookup_zip_with_Some.
  pose proof (tx_nodup _ _ _ Ht) as Hnd.
  assert (b ∉ (take i (zip bl dl)).*1) as Hnw.
  { rewrite fmap_take, Hfst. intros (j & Hj)%list_elem_of_lookup.
    apply lookup_take_Some in Hj as [Hj Hlt].
    assert (i = j) by by eapply NoDup_lookup. lia. }
  assert (∀ w, w ∈ take i (zip bl dl) → w.1 ∈ bl) as Hin.
  { intros w' Hw'. rewrite <- Hfst. apply list_elem_of_fmap. exists w'. split; [done|].
    apply list_elem_of_lookup in Hw' as (j & Hj). apply lookup_take_Some in Hj as [Hj _].
    by eapply list_elem_of_lookup_2. }
  apply install_one_spec; [done| |].
  - eapply slot_ok_mid; [exact Hl|done| |done|done].
    intros w Hw'. by apply (tx_home _ _ _ Ht), Hin.
  - cbn. rewrite apply_writes_other; [by apply Hdl|].
    intros (w' & Heq & Hw'%Hin)%list_elem_of_fmap. rewrite <- Heq in Hw'.
    apply (tx_home _ _ _ Ht) in Hw' as (_ & _ & Hni). apply Hni.
    eapply in_log_slot; [done|]. by eapply lookup_lt_Some.
Qed.

(** ** The header on disk *)

Record head_ok (a : abio) (lg : log) (d : bytes) : Prop := {
  ho_held : a_held a = ∅;
  ho_dev : lg_dev lg = 1;
  ho_range : is_u32 (lg_start lg);
  ho_phys : is_Some (a_phys a !! lg_start lg);
  ho_clean : lg_start lg ∉ a_dirty a;
  ho_room : (size (a_dirty a) < NBUF)%nat;
  ho_data : a_log a !! lg_start lg = Some d;
}.

Lemma bread_head s a lg d :
  lrep s a lg → head_ok a lg d →
  ∃ i s', onb (bread me (lg_dev lg) (u32 (lg_start lg))) s = Ok i s' ∧
    lrep s' (hold (lg_start lg) i a) lg ∧ onb (bdata i) s' = Ok d s'.
Proof.
  intros Hl []. rewrite ho_dev0, u32_small by done.
  destruct (lbread s a lg (lg_start lg) Hl) as (i & s1 & R1 & Hl1); [done|by rewrite ho_held0|by apply room_one|].
  destruct (lbdata s1 _ lg (lg_start lg) i Hl1) as (d' & Hd' & R2); [apply lookup_insert_eq|].
  cbn in Hd'. rewrite ho_data0 in Hd'. injection Hd' as <-. by exists i, s1.
Qed.

Lemma store_store bn d1 d2 a : store bn d2 (store bn d1 a) = store bn d2 a.
Proof. unfold store; cbn. by rewrite insert_insert_eq. Qed.

Lemma unhold_hold bn i a : a_held a = ∅ → unhold bn (hold bn i a) = a.
Proof. destruct a; unfold unhold, hold; cbn. intros ->. f_equal. by rewrite delete_insert_id. Qed.

Lemma write_head_spec s a lg bl d :
  lrep s a lg → head_ok a lg d → lh_n (lg_lh lg) = length bl →
  (∀ i b, bl !! i = Some b → lh_block (lg_lh lg) !! i = Some b) →
  ∃ s', write_head me s = Ok tt s' ∧ lrep s' (put (lg_start lg, hdr_image bl d) a) lg.
Proof.
  intros Hl Hok Hn Hbl. destruct (bread_head s a lg d Hl Hok) as (i & s1 & R1 & Hl1 & R2).
  destruct Hok. unfold write_head. rewrite bind_gets, (proj2 Hl). lrun R1. lrun R2.
  rewrite Hn, Nat2Z.id. set (st := lg_start lg) in *.
  destruct (lbstore s1 _ lg st i (hdr_set_n (length bl) d) Hl1) as (s2 & R3 & Hl2); [apply lookup_insert_eq|].
  lrun R3.
  match goal with |- context [for_each _ ?g] => set (f := g) end.
  destruct (for_seq_inv f (λ k s, lrep s (store st (hdr_fill 0 (take k bl) (hdr_set_n (length bl) d))
              (hold st i a)) lg) (length bl) s2) as (s3 & R4 & Hl3); [done| |].
  { intros k s' [b Hb]%lookup_lt_is_Some_2 Hl'.
    subst f; cbv beta. erewrite bind_Ok by (eapply lh_get_run; [done|by apply Hbl]).
    destruct (lbdata s' _ lg st i Hl') as (d' & Hd' & R5); [apply lookup_insert_eq|]. lrun R5.
    cbn in Hd'. rewrite lookup_insert_eq in Hd'. injection Hd' as <-.
    destruct (lbstore s' _ lg st i (hdr_set_block k b
       (hdr_fill 0 (take k bl) (hdr_set_n (length bl) d))) Hl') as (s'' & R6 & Hl'');
       [apply lookup_insert_eq|].
    exists s''. split; [done|]. rewrite store_store in Hl''.
    rewrite (take_S_r bl k b), hdr_fill_snoc by done.
    rewrite length_take_le by (apply lookup_lt_Some in Hb; lia). done. }
  lrun R4. rewrite firstn_all in Hl3. fold (hdr_image bl d) in Hl3.
  destruct (lbwrite s3 _ lg st i (hdr_image bl d) Hl3) as (s4 & R5 & Hl4); [apply lookup_insert_eq..|].
  lrun R5. destruct (lbrelse s4 _ lg st i Hl4) as (s5 & R6 & Hl5); [apply lookup_insert_eq| |].
  { right. cbn. by rewrite !lookup_insert_eq. }
  exists s5. split; [done|]. rewrite <- (unhold_hold st i a) by done. done.
Qed.

(** The blocks named by header block [d]. *)
Definition hdr_blocks (d : bytes) : list Z := hdr_block d <$> seq 0 (Z.to_nat (hdr_n d)).

Lemma hdr_blocks_lookup d i b :
  hdr_blocks d !! i = Some b ↔ (i < Z.to_nat (hdr_n d))%nat ∧ b = hdr_block d i.
Proof.
  unfold hdr_blocks. rewrite list_lookup_fmap. split.
  - intros (j & Hj & ->)%fmap_Some. apply lookup_seq in Hj as [-> ?]. done.
  - intros [Hi ->]. apply fmap_Some. exists i. split; [|done]. by apply lookup_seq.
Qed.

Lemma length_hdr_blocks d : length (hdr_blocks d) = Z.to_nat (hdr_n d).
Proof. unfold hdr_blocks. by rewrite length_fmap, length_seq. Qed.

Lemma lh_set_run s a lg i b :
  lrep s a lg → (i < length (lh_block (lg_lh lg)))%nat →
  ∃ s', lh_set i b s = Ok tt s' ∧ lrep s' a (with_lh (with_block i b) lg).
Proof.
  intros [Hrep <-] [x Hx]%lookup_lt_is_Some_2. eexists. unfold lh_set. rewrite Hx.
  split; [done|]. by split.
Qed.

Lemma read_head_spec s a lg d :
  lrep s a lg → head_ok a lg d → length (lh_block (lg_lh lg)) = LOGSIZE →
  0 ≤ hdr_n d ≤ LOGSIZE →
  ∃ s' bs, read_head me s = Ok tt s' ∧ lrep s' a (with_lh (λ _, mkLh (hdr_n d) bs) lg) ∧
    length bs = LOGSIZE ∧ ∀ i b, hdr_blocks d !! i = Some b → bs !! i = Some b.
Proof.
  intros Hl Hok Hlen Hn. destruct (bread_head s a lg d Hl Hok) as (i & s1 & R1 & Hl1 & R2).
  pose proof (lclean s a lg (lg_start lg) Hl) as Hcl. destruct Hok.
  unfold read_head. rewrite bind_gets, (proj2 Hl). lrun R1. lrun R2. rewrite bind_modify.
  match goal with |- context [for_each _ ?g] => set (f := g) end.
  destruct (for_seq_inv f (λ k s, ∃ bs, lrep s (hold (lg_start lg) i a) (with_lh (λ _, mkLh (hdr_n d) bs) lg) ∧
     length bs = LOGSIZE ∧ ∀ j, (j < k)%nat → bs !! j = Some (hdr_block d j))
     (Z.to_nat (hdr_n d)) (set_log (with_lh (with_n (hdr_n d))) s1)) as (s2 & R3 & bs & Hl2 & Hbs & Hall).
  - exists (lh_block (lg_lh lg)). split_and!; [|done|lia].
    destruct Hl1 as [? Hlg]. split; [done|]. cbn. by rewrite Hlg.
  - intros k s' Hk (bs & Hl' & Hbs & Hall).
    destruct (lh_set_run s' _ _ k (hdr_block d k) Hl') as (s'' & R & Hl''); [cbn; lia|].
    exists s''. split; [done|]. exists (<[k := hdr_block d k]> bs).
    split_and!; [done|by rewrite length_insert|]. intros j Hj.
    destruct (decide (j = k)) as [->|Hne]; [apply list_lookup_insert_eq; lia|].
    rewrite list_lookup_insert_ne by done. apply Hall. lia.
  - lrun R3. destruct (lbrelse s2 _ _ (lg_start lg) i Hl2) as (s3 & R4 & Hl3); [apply lookup_insert_eq| |].
    { right. cbn. apply Hcl; [by rewrite ho_held0|done]. }
    rewrite unhold_hold in Hl3 by done. exists s3, bs. split_and!; [done..|].
    intros j b [Hj ->]%hdr_blocks_lookup. by apply Hall.
Qed.

Lemma put_all_cons w ws a : put_all ws (put w a) = put_all (w :: ws) a.
Proof. change (w :: ws) with ([] ++ [w] ++ ws). rewrite app_assoc, put_all_app, put_all_snoc, put_all_nil. done. Qed.

(** ** commit *)

(** The block writes of a commit, in order. *)
Definition commit_writes (start : Z) (hd : bytes) (bl : list Z) (dl : list bytes) : list (Z * bytes) :=
  slot_writes start dl ++ [(start, hdr_image bl hd)] ++
  zip bl dl ++ [(start, hdr_image [] (hdr_image bl hd))].

Lemma in_log_start a lg bl : txn a lg bl → in_log lg (lg_start lg).
Proof. intros []. unfold in_log. lia. Qed.

Lemma txn_put_all a lg bl ws :
  txn a lg bl → (∀ w, w ∈ ws → is_Some (a_phys a !! w.1) ∧ w.1 ∉ bl) → txn (put_all ws a) lg bl.
Proof.
  intros [] Hws.
  assert (size (a_dirty a ∖ list_to_set ws.*1) ≤ size (a_dirty a))%nat as Hsz.
  { apply subseteq_size. set_solver. }
  assert (∀ b, is_Some (apply_writes ws (a_phys a) !! b) ↔ is_Some (a_phys a !! b)) as Hdom.
  { intros b. apply apply_writes_dom. intros w Hw. by apply Hws. }
  split; cbn [put_all a_held a_phys a_dirty]; try done.
  - intros b Hb. rewrite Hdom. auto.
  - intros b Hb. rewrite Hdom. destruct (tx_area0 b Hb) as (? & ? & ?). set_solver.
  - lia.
  - destruct tx_room_home0 as [Hall|?]; [left|right; lia]. intros b Hb.
    apply elem_of_difference. split; [auto|]. rewrite elem_of_list_to_set.
    intros (w & -> & Hw)%list_elem_of_fmap. by apply Hws in Hw as [_ ?].
Qed.

Lemma txn_head s a lg bl ws d :
  lrep s a lg → txn a lg bl → (∀ w, w ∈ ws → is_Some (a_phys a !! w.1)) →
  apply_writes ws (a_log a) !! lg_start lg = Some d → head_ok (put_all ws a) lg d.
Proof.
  intros Hl Ht Hws Hd. pose proof (in_log_start _ _ _ Ht) as Hin. destruct Ht.
  destruct (tx_area0 _ Hin) as (Hs & Hp & Hnd).
  split; cbn [put_all a_held a_phys a_dirty a_log]; rewrite ?apply_writes_dom by done; try done.
  - by eapply phys_nonneg.
  - set_solver.
  - eapply Nat.le_lt_trans; [apply subseteq_size|exact tx_room0]. set_solver.
Qed.

Lemma slot_writes_area a lg bl dl w :
  txn a lg bl → length dl = length bl → w ∈ slot_writes (lg_start lg) dl →
  in_log lg w.1 ∧ w.1 ≠ lg_start lg.
Proof.
  intros Ht Hlen Hw. assert (w.1 ∈ (slot_writes (lg_start lg) dl).*1) as Hin%slot_writes_fst.
  { apply list_elem_of_fmap. eauto. }
  pose proof (tx_fit _ _ _ Ht). unfold in_log. lia.
Qed.

Lemma zip_fst_elem {A B} (l : list A) (k : list B) w : w ∈ zip l k → w.1 ∈ l.
Proof.
  intros (i & Hi)%list_elem_of_lookup. apply lookup_zip_with_Some in Hi as (x & y & -> & Hx & _).
  by eapply list_elem_of_lookup_2.
Qed.

Lemma commit_writes_dom a lg bl dl hd w :
  txn a lg bl → length dl = length bl → w ∈ commit_writes (lg_start lg) hd bl dl →
  is_Some (a_phys a !! w.1).
Proof.
  intros Ht Hlen Hw. unfold commit_writes in Hw.
  assert (w.1 ∈ bl ∨ in_log lg w.1) as [Hb|Hb].
  { rewrite !elem_of_app in Hw. destruct Hw as [Hw|[Hw|[Hw|Hw]]].
    - right. by eapply slot_writes_area.
    - apply list_elem_of_singleton in Hw as ->. right. by eapply in_log_start.
    - left. by eapply zip_fst_elem.
    - apply list_elem_of_singleton in Hw as ->. right. by eapply in_log_start. }
  - by apply (tx_home _ _ _ Ht).
  - by apply (tx_area _ _ _ Ht).
Qed.

Lemma commit_spec s a lg bl dl hd :
  lrep s a lg → txn a lg bl → (0 < length bl)%nat → (∀ b, b ∈ bl → b ∈ a_dirty a) →
  Forall2 (λ b d, a_log a !! b = Some d) bl dl → a_log a !! lg_start lg = Some hd →
  ∃ s', commit me s = Ok tt s' ∧
    lrep s' (put_all (commit_writes (lg_start lg) hd bl dl) a) (with_lh (with_n 0) lg).
Proof.
  intros Hl Ht Hpos Hdirty Hdl Hhd. pose proof (list.Forall2_length _ _ _ Hdl) as Hlen.
  set (ws1 := slot_writes (lg_start lg) dl).
  set (ws2 := ws1 ++ [(lg_start lg, hdr_image bl hd)]).
  set (ws3 := ws2 ++ zip bl dl).
  assert (commit_writes (lg_start lg) hd bl dl = ws3 ++ [(lg_start lg, hdr_image [] (hdr_image bl hd))]) as Hcw.
  { unfold ws3, ws2, ws1, commit_writes. by rewrite <- !app_assoc. }
  assert (∀ w, w ∈ ws2 → in_log lg w.1) as Harea.
  { intros w. unfold ws2. rewrite elem_of_app, list_elem_of_singleton. intros [Hw| ->].
    - by eapply slot_writes_area. - by eapply in_log_start. }
  assert (∀ w, w ∈ ws3 → is_Some (a_phys a !! w.1)) as Hdom3.
  { intros w Hw. eapply commit_writes_dom; [done..|]. rewrite Hcw. set_solver. }
  unfold commit. rewrite bind_gets, (proj2 Hl), (tx_n _ _ _ Ht).
  replace (0 <? Z.of_nat (length bl)) with true by lia.
  destruct (write_log_spec s a lg bl dl Hl Ht Hdirty Hdl) as (s1 & R1 & Hl1). fold ws1 in Hl1. lrun R1.
  destruct (write_head_spec s1 _ lg bl hd Hl1) as (s2 & R2 & Hl2).
  { eapply txn_head; [done..| |].
    - intros w Hw. apply Hdom3. unfold ws3, ws2. set_solver.
    - rewrite apply_writes_other; [done|]. unfold ws1. rewrite slot_writes_fst. lia. }
  { apply Ht. } { apply Ht. }
  lrun R2. rewrite <- put_all_snoc in Hl2. fold ws2 in Hl2.
  destruct (install_trans_spec s2 _ lg bl dl Hl2) as (s3 & R3 & Hl3); [|done| |].
  { apply txn_put_all; [done|]. intros w Hw. split; [apply Hdom3; unfold ws3; set_solver|].
    intros Hb%(tx_home _ _ _ Ht). by apply Hb, Harea. }
  { intros i d Hd. cbn. unfold ws2. rewrite apply_writes_app. cbn.
    rewrite lookup_insert_ne by lia. apply apply_writes_in; [apply slot_writes_nodup|].
    apply (list_elem_of_lookup_2 _ i), slot_writes_lookup. eauto. }
  lrun R3. rewrite bind_modify. rewrite <- put_all_app in Hl3. fold ws3 in Hl3.
  destruct (write_head_spec (set_log (with_lh (with_n 0)) s3) (put_all ws3 a) (with_lh (with_n 0) lg)
    [] (hdr_image bl hd)) as (s4 & R4 & Hl4); try done.
  { destruct Hl3 as [? <-]. done. }
  { destruct (txn_head s a lg bl ws3 (hdr_image bl hd) Hl Ht Hdom3) as []; [|done].
    unfold ws3, ws2. rewrite !apply_writes_app, apply_writes_other.
    - cbn. apply lookup_insert_eq.
    - intros (w & Heq & Hw%zip_fst_elem)%list_elem_of_fmap. rewrite <- Heq in Hw.
      apply (tx_home _ _ _ Ht) in Hw as (_ & _ & Hn). by eapply Hn, in_log_start. }
  exists s4. split; [done|]. rewrite Hcw, put_all_snoc. done.
Qed.

(** ** Recovery *)

Lemma recover_spec s a lg d dl :
  lrep s a lg → head_ok a lg d → length (lh_block (lg_lh lg)) = LOGSIZE →
  0 ≤ hdr_n d ≤ LOGSIZE →
  (∀ lg', lg_start lg' = lg_start lg → lg_size lg' = lg_size lg → lg_dev lg' = 1 →
     lh_n (lg_lh lg') = hdr_n d →
     (∀ i b, hdr_blocks d !! i = Some b → lh_block (lg_lh lg') !! i = Some b) →
     txn a lg' (hdr_blocks d)) →
  length dl = Z.to_nat (hdr_n d) →
  (∀ (i : nat) x, dl !! i = Some x → a_log a !! (lg_start lg + i + 1) = Some x) →
  ∃ s' bs, recover_from_log me s = Ok tt s' ∧ length bs = LOGSIZE ∧
    lrep s' (put_all (zip (hdr_blocks d) dl ++ [(lg_start lg, hdr_image [] d)]) a)
      (with_lh (λ _, mkLh 0 bs) lg).
Proof.
  intros Hl Hok Hlen Hn Htx Hdl Hslots.
  destruct (read_head_spec s a lg d Hl Hok Hlen Hn) as (s1 & bs & R1 & Hl1 & Hbs & Hall).
  unfold recover_from_log. lrun R1. set (lg1 := with_lh _ lg) in Hl1.
  assert (txn a lg1 (hdr_blocks d)) as Ht by (apply Htx; try done; apply Hok).
  destruct (install_trans_spec s1 a lg1 (hdr_blocks d) dl Hl1 Ht) as (s2 & R2 & Hl2).
  { by rewrite length_hdr_blocks. } { done. }
  lrun R2. rewrite bind_modify.
  destruct (write_head_spec (set_log (with_lh (with_n 0)) s2)
    (put_all (zip (hdr_blocks d) dl) a) (with_lh (λ _, mkLh 0 bs) lg) [] d) as (s3 & R3 & Hl3); try done.
  { destruct Hl2 as [? Hlg]. split; [done|]. cbn. by rewrite Hlg. }
  { destruct (txn_head s1 a lg1 _ (zip (hdr_blocks d) dl) d Hl1 Ht) as []; [| |done].
    - intros w Hw%zip_fst_elem. by apply (tx_home _ _ _ Ht).
    - rewrite apply_writes_other; [apply Hok|].
      intros (w & Heq & Hw%zip_fst_elem)%list_elem_of_fmap. rewrite <- Heq in Hw.
      apply (tx_home _ _ _ Ht) in Hw as (_ & _ & Hni). by eapply Hni, (in_log_start _ _ _ Ht). }
  exists s3, bs. split_and!; [done..|]. by rewrite put_all_snoc.
Qed.

Lemma readsb_spec b a d :
  bio_rep me b a → a_held a = ∅ → a_dirty a = ∅ → a_phys a !! 1 = Some d →
  ∃ b', readsb me 1 b = Ok (decode_sb d) b' ∧ bio_rep me b' a.
Proof.
  intros Hrep Hh Hdi Hd.
  assert (a_log a !! 1 = a_phys a !! 1) as Hcl.
  { apply (br_clean _ _ _ Hrep); [by rewrite Hh|set_solver]. }
  destruct (bread_spec me b a 1 Hrep) as (i & b1 & R1 & Hrep1).
  { apply (br_dom _ _ _ Hrep). eauto. } { by rewrite Hh. }
  { apply room_one; [done|]. rewrite Hdi, size_empty. unfold NBUF. lia. }
  unfold readsb. lrun R1.
  destruct (bdata_spec me b1 _ 1 i Hrep1) as (d' & Hd' & R2); [apply lookup_insert_eq|]. lrun R2.
  cbn in Hd'. rewrite Hcl, Hd in Hd'. injection Hd' as <-.
  destruct (brelse_spec me b1 _ 1 i Hrep1) as (b2 & R3 & _ & Hrep2 & _); [apply lookup_insert_eq|by right|].
  lrun R3. rewrite unhold_hold in Hrep2 by done. by exists b2.
Qed.

(** A disk whose log names the blocks [bl], with the data [dl] in its slots. *)
Record disk_log (m : gmap Z bytes) (start nlog : Z) (hd : bytes) (bl : list Z) (dl : list bytes) : Prop := {
  dl_sb : ∃ sb, m !! 1 = Some sb ∧ s32 (rd32 sb 16) = start ∧ s32 (rd32 sb 12) = nlog;
  dl_hd : m !! start = Some hd;
  dl_n : hdr_n hd = length bl;
  dl_bl : hdr_blocks hd = bl;
  dl_len : (length bl ≤ LOGSIZE)%nat;
  dl_fit : length bl < nlog;
  dl_nodup : NoDup bl;
  dl_home : ∀ b, b ∈ bl → is_s32 b ∧ is_Some (m !! b) ∧ ¬ (start ≤ b < start + nlog);
  dl_area : ∀ b, start ≤ b < start + nlog → is_s32 b ∧ is_Some (m !! b);
  dl_dl : length dl = length bl;
  dl_slots : ∀ (i : nat) x, dl !! i = Some x → m !! (start + i + 1) = Some x;
}.

Definition recovery_writes (start : Z) (hd : bytes) (bl : list Z) (dl : list bytes) : list (Z * bytes) :=
  zip bl dl ++ [(start, hdr_image [] hd)].

(** Power on with disk [d]: initialise the cache, then the log. *)
Definition boot (d : mdisk) : res lst unit :=
  (do! onb binit in initlog me 1) (mkLst (bss d) bss_log).

Lemma empty_dirty_size d : size (a_dirty (empty_cache d)) = 0%nat.
Proof. apply size_empty. Qed.

Lemma boot_spec d start nlog hd bl dl :
  disk_wf d → disk_log (md_blocks d) start nlog hd bl dl →
  ∃ s' lg', boot d = Ok tt s' ∧
    lrep s' (put_all (recovery_writes start hd bl dl) (empty_cache d)) lg' ∧
    lg_start lg' = start ∧ lg_size lg' = nlog ∧ lg_dev lg' = 1 ∧ lg_outstanding lg' = 0 ∧
    lg_committing lg' = 0 ∧ lh_n (lg_lh lg') = 0 ∧ length (lh_block (lg_lh lg')) = LOGSIZE.
Proof.
  intros Hwf Hd. destruct (binit_spec me d Hwf) as (b0 & R0 & _ & Hrep0).
  destruct (dl_sb _ _ _ _ _ _ Hd) as (sb & Hsb & Hst & Hnl).
  destruct (readsb_spec b0 _ sb Hrep0 eq_refl eq_refl Hsb) as (b1 & R1 & Hrep1).
  assert (onb binit (mkLst (bss d) bss_log) = Ok tt (mkLst b0 bss_log)) as R0'.
  { unfold onb, zoom. cbn [l_bio]. rewrite R0. reflexivity. }
  unfold boot. rewrite (bind_Ok _ _ _ _ _ R0'). clear R0 R0'.
  unfold initlog. change ((BSIZE <=? 4 + 4 * LOGSIZE)%nat) with false. cbn iota.
  lrun (onb_run (readsb me 1) (mkLst b0 bss_log) _ b1 R1). rewrite bind_modify. cbn [decode_sb sb_logstart sb_nlog].
  rewrite Hst, Hnl. set (lg := with_place start nlog 1 bss_log).
  assert (lrep (mkLst b1 lg) (empty_cache d) lg) as Hl by done.
  assert (start ≤ start < start + nlog) as Hin by (pose proof (dl_fit _ _ _ _ _ _ Hd); lia).
  destruct (dl_area _ _ _ _ _ _ Hd _ Hin) as [Hs Hp]. destruct Hd. clear R1 Hrep0 Hrep1 Hsb.
  destruct (recover_spec (mkLst b1 lg) (empty_cache d) lg hd dl Hl) as (s' & bs & R & Hbs & Hl').
  - assert (is_u32 start) by by eapply phys_nonneg.
    split; try done. rewrite empty_dirty_size. unfold NBUF. lia.
  - done.
  - lia.
  - intros lg' E1 E2 E3 E4 E5. rewrite dl_bl0 in *.
    split; try done; rewrite ?E2; try lia.
    + exact dl_fit0.
    + intros b Hb. unfold in_log. rewrite E1, E2. by apply dl_home0.
    + intros b Hb. unfold in_log in Hb. rewrite E1, E2 in Hb. destruct (dl_area0 b Hb). split_and!; [done..|apply not_elem_of_empty].
    + rewrite empty_dirty_size. unfold NBUF. lia.
    + right. rewrite empty_dirty_size. unfold NBUF. lia.
  - lia.
  - done.
  - exists s', (with_lh (λ _, mkLh 0 bs) lg). rewrite dl_bl0 in Hl'. split_and!; done.
Qed.
End spec.

(** ** Crash safety *)

Section crash.
Context (me : Z).

(** A transaction at its commit: [bl] are exactly the pinned blocks, and the
    log on disk is empty. *)
Record ready (s : lst) (a : abio) (lg : log) (bl : list Z) (dl : list bytes) (hd : bytes) : Prop := {
  rd_rep : lrep me s a lg;
  rd_txn : txn a lg bl;
  rd_pos : (0 < length bl)%nat;
  rd_dirty : a_dirty a = list_to_set bl;
  rd_data : Forall2 (λ b d, a_log a !! b = Some d) bl dl;
  rd_sb : ∃ sb, (a_phys a !! 1) = Some sb ∧ s32 (rd32 sb 16) = lg_start lg ∧ s32 (rd32 sb 12) = lg_size lg;
  rd_sb_home : (1 ∉ bl) ∧ ¬ in_log lg 1;
  rd_hd : a_phys a !! lg_start lg = Some hd;
  rd_empty : hdr_n hd = 0;
  rd_hd_len : length hd = BSIZE;
}.

Lemma take_commit start hd bl dl k :
  length dl = length bl →
  take k (commit_writes start hd bl dl) =
    if (k <=? length bl)%nat then take k (slot_writes start dl)
    else if (k <=? 2 * length bl + 1)%nat then
      slot_writes start dl ++ [(start, hdr_image bl hd)] ++ take (k - length bl - 1) (zip bl dl)
    else commit_writes start hd bl dl.
Proof.
  intros Hlen. assert (length (slot_writes start dl) = length bl) as H1
    by (unfold slot_writes; by rewrite length_imap).
  assert (length (zip bl dl) = length bl) as H2 by (rewrite length_zip_with; lia).
  unfold commit_writes. destruct (Nat.leb_spec k (length bl)); [by rewrite take_app_le by lia|].
  destruct (Nat.leb_spec k (2 * length bl + 1)).
  - rewrite take_app_ge, H1 by lia. f_equal.
    destruct (k - length bl)%nat as [|k'] eqn:Hk; [lia|]. simpl. f_equal.
    rewrite Nat.sub_0_r. by rewrite take_app_le by lia.
  - apply take_ge. rewrite !length_app, H1, H2. simpl. lia.
Qed.

Lemma home_writes_value m bl dl b :
  NoDup bl → length dl = length bl →
  (∃ i d, bl !! i = Some b ∧ dl !! i = Some d ∧ apply_writes (zip bl dl) m !! b = Some d) ∨
  ((b ∉ bl) ∧ apply_writes (zip bl dl) m !! b = m !! b).
Proof.
  intros Hnd Hlen. assert ((zip bl dl).*1 = bl) as Hfst by (apply fst_zip; lia).
  destruct (decide (b ∈ bl)) as [Hb|Hb]; [left|right].
  - apply list_elem_of_lookup in Hb as (i & Hi).
    destruct (lookup_lt_is_Some_2 dl i) as [d Hd]; [apply lookup_lt_Some in Hi; lia|].
    exists i, d. split_and!; [done..|]. apply apply_writes_in; [by rewrite Hfst|].
    apply (list_elem_of_lookup_2 _ i), lookup_zip_with_Some. eauto.
  - split; [done|]. apply apply_writes_other. by rewrite Hfst.
Qed.

Lemma crash_frame s a lg bl dl hd k :
  ready s a lg bl dl hd →
  let m := apply_writes (take k (commit_writes (lg_start lg) hd bl dl)) (a_phys a) in
  (∀ b, is_Some (m !! b) ↔ is_Some (a_phys a !! b)) ∧ (m !! 1) = (a_phys a !! 1) ∧
  (∀ b, lg_start lg ≤ b < lg_start lg + lg_size lg → is_s32 b ∧ is_Some (m !! b)).
Proof.
  intros [Hl Ht Hpos Hdi Hdl Hsb [Hsb1 Hsb2] Hhd Hemp Hhl] m.
  pose proof (list.Forall2_length _ _ _ Hdl) as Hlen. symmetry in Hlen.
  assert (∀ b, is_Some (m !! b) ↔ is_Some (a_phys a !! b)) as Hdom.
  { intros b. apply apply_writes_dom. intros w Hw. eapply (commit_writes_dom a lg bl dl hd); [done..|].
    by eapply elem_of_prefix. }
  split_and!; [apply Hdom|..].
  - apply apply_writes_other. intros (w & Heq & Hw%elem_of_prefix)%list_elem_of_fmap.
    unfold commit_writes in Hw. rewrite !elem_of_app, !list_elem_of_singleton in Hw.
    pose proof (in_log_start _ _ _ Ht) as Hst. destruct Hw as [Hw|[->|[Hw| ->]]]; cbn in Heq.
    + apply Hsb2. rewrite Heq. by eapply slot_writes_area.
    + apply Hsb2. by rewrite Heq.
    + apply Hsb1. rewrite Heq. by eapply zip_fst_elem.
    + apply Hsb2. by rewrite Heq.
  - intros b Hb. rewrite Hdom. by destruct (tx_area _ _ _ Ht b Hb) as (? & ? & _).
Qed.

Lemma disk_log_none m start nlog d :
  (∃ sb, (m !! 1) = Some sb ∧ s32 (rd32 sb 16) = start ∧ s32 (rd32 sb 12) = nlog) →
  0 < nlog → (∀ b, start ≤ b < start + nlog → is_s32 b ∧ is_Some (m !! b)) →
  m !! start = Some d → hdr_n d = 0 → disk_log m start nlog d [] [].
Proof.
  intros Hsb Hpos Harea Hd Hn. split; try done.
  - unfold hdr_blocks. by rewrite Hn.
  - simpl; lia.
  - apply NoDup_nil_2.
  - intros b Hb. by apply not_elem_of_nil in Hb.
Qed.

Lemma hdr_blocks_image bl hd :
  length hd = BSIZE → (length bl ≤ LOGSIZE)%nat → (∀ b, b ∈ bl → is_s32 b) →
  hdr_blocks (hdr_image bl hd) = bl.
Proof.
  intros Hhl Hle Hs. apply list_eq. intros i. apply option_eq. intros b.
  rewrite hdr_blocks_lookup, hdr_n_image, Nat2Z.id by done. split.
  - intros [[x Hx]%lookup_lt_is_Some_2 ->]. rewrite (hdr_block_image bl hd i x); [done..|].
    apply Hs. by eapply list_elem_of_lookup_2.
  - intros Hb. split; [by eapply lookup_lt_Some|]. symmetry. apply hdr_block_image; [done..|].
    apply Hs. by eapply list_elem_of_lookup_2.
Qed.

(** The header is on disk, with any part [zs] of the home blocks. *)
Lemma disk_log_committed a lg bl dl hd zs :
  let m := apply_writes (slot_writes (lg_start lg) dl ++ [(lg_start lg, hdr_image bl hd)] ++ zs) (a_phys a) in
  txn a lg bl → length dl = length bl → length hd = BSIZE → (∀ w, w ∈ zs → w.1 ∈ bl) →
  (∃ sb, (m !! 1) = Some sb ∧ s32 (rd32 sb 16) = lg_start lg ∧ s32 (rd32 sb 12) = lg_size lg) →
  (∀ b, is_Some (m !! b) ↔ is_Some (a_phys a !! b)) →
  disk_log m (lg_start lg) (lg_size lg) (hdr_image bl hd) bl dl.
Proof.
  intros m Ht Hlen Hhl Hzs Hsb Hdom.
  pose proof (tx_fit _ _ _ Ht) as Hfit. pose proof (tx_len _ _ _ Ht) as Hle.
  assert (∀ b, in_log lg b → b ∉ zs.*1) as Hzl.
  { intros b Hb (w & -> & Hw%Hzs)%list_elem_of_fmap. by apply (tx_home _ _ _ Ht) in Hw as (_ & _ & ?). }
  split; try done.
  - unfold m. rewrite !apply_writes_app, apply_writes_other by by apply Hzl, (in_log_start _ _ _ Ht).
    cbn. apply lookup_insert_eq.
  - by apply hdr_n_image.
  - apply hdr_blocks_image; [done..|]. intros b Hb. by apply (tx_home _ _ _ Ht).
  - apply Ht.
  - intros b Hb. rewrite Hdom. by apply (tx_home _ _ _ Ht).
  - intros b Hb. rewrite Hdom. by destruct (tx_area _ _ _ Ht b Hb) as (? & ? & _).
  - intros i x Hx. unfold m. rewrite !apply_writes_app, apply_writes_other.
    + cbn. rewrite lookup_insert_ne by lia. apply apply_writes_in; [apply slot_writes_nodup|].
      apply (list_elem_of_lookup_2 _ i), slot_writes_lookup. eauto.
    + apply Hzl. eapply in_log_slot; [done|]. apply lookup_lt_Some in Hx. lia.
Qed.

(** What the prefix written so far means for the log on disk. *)
Lemma crash_disk_log s a lg bl dl hd k :
  ready s a lg bl dl hd →
  let m := apply_writes (take k (commit_writes (lg_start lg) hd bl dl)) (a_phys a) in
  if (k <=? length bl)%nat then disk_log m (lg_start lg) (lg_size lg) hd [] []
  else if (k <=? 2 * length bl + 1)%nat then
    disk_log m (lg_start lg) (lg_size lg) (hdr_image bl hd) bl dl
  else disk_log m (lg_start lg) (lg_size lg) (hdr_image [] (hdr_image bl hd)) [] [].
Proof.
  intros Hr m. destruct (crash_frame s a lg bl dl hd k Hr) as (Hdom & H1 & Harea).
  destruct Hr as [Hl Ht Hpos Hdi Hdl Hsb _ Hhd Hemp Hhl].
  pose proof (list.Forall2_length _ _ _ Hdl) as Hlen. symmetry in Hlen.
  pose proof (tx_fit _ _ _ Ht) as Hfit. fold m in Hdom, H1, Harea. rewrite <- H1 in Hsb.
  pose proof (take_commit (lg_start lg) hd bl dl k Hlen) as Htk. unfold m in *. clear m.
  destruct (k <=? length bl)%nat; [|destruct (k <=? 2 * length bl + 1)%nat]; rewrite Htk in *.
  - apply disk_log_none; [done|lia|done| |done]. rewrite apply_writes_other; [done|].
    intros (w & Heq & Hw%elem_of_prefix)%list_elem_of_fmap.
    destruct (slot_writes_area a lg bl dl w); done.
  - apply disk_log_committed; try done.
    intros w Hw%elem_of_prefix. by eapply zip_fst_elem.
  - apply disk_log_none; [done|lia|done| |].
    + unfold commit_writes. rewrite !apply_writes_app. cbn. apply lookup_insert_eq.
    + apply hdr_n_image; [by rewrite length_hdr_image|simpl; unfold LOGSIZE; lia].
Qed.

(** The contents after recovery. *)
Lemma crash_contents s a lg bl dl hd k b :
  ready s a lg bl dl hd → ¬ in_log lg b →
  let m := apply_writes (take k (commit_writes (lg_start lg) hd bl dl)) (a_phys a) in
  if (k <=? length bl)%nat then m !! b = a_phys a !! b
  else if (k <=? 2 * length bl + 1)%nat then apply_writes (zip bl dl) m !! b = a_log a !! b
  else m !! b = a_log a !! b.
Proof.
  intros [Hl Ht Hpos Hdi Hdl Hsb _ Hhd Hemp Hhl] Hb.
  pose proof (list.Forall2_length _ _ _ Hdl) as Hlen. symmetry in Hlen. cbn zeta.
  assert (b ∉ bl → a_log a !! b = a_phys a !! b) as Hsame.
  { intros Hnb. eapply lclean; [done|by rewrite (tx_held _ _ _ Ht)|].
    by rewrite Hdi, elem_of_list_to_set. }
  assert (∀ i d, bl !! i = Some b → dl !! i = Some d → a_log a !! b = Some d) as Hval.
  { intros i d Hi Hd. destruct (Forall2_lookup_l _ _ _ _ _ Hdl Hi) as (d' & Hd' & ?). congruence. }
  assert (lg_start lg ≠ b) as Hst by (intros <-; by eapply Hb, in_log_start).
  assert (b ∉ (slot_writes (lg_start lg) dl).*1) as Hslots.
  { intros (w & -> & Hw)%list_elem_of_fmap. by eapply Hb, slot_writes_area. }
  rewrite (take_commit (lg_start lg) hd bl dl k Hlen).
  destruct (k <=? length bl)%nat; [|destruct (k <=? 2 * length bl + 1)%nat].
  - apply apply_writes_other. rewrite fmap_take. by intros ?%elem_of_prefix.
  - match goal with |- apply_writes _ ?m !! b = _ =>
      destruct (home_writes_value m bl dl b (tx_nodup _ _ _ Ht) Hlen) as [(i & d & Hi & Hd & ->)|[Hnb ->]] end.
    { symmetry. by eapply Hval. }
    rewrite Hsame by done. rewrite !apply_writes_app, apply_writes_other.
    + cbn. rewrite lookup_insert_ne by done. by apply apply_writes_other.
    + intros (w & -> & Hw%elem_of_prefix%zip_fst_elem)%list_elem_of_fmap. done.
  - unfold commit_writes. rewrite !apply_writes_app. cbn. rewrite lookup_insert_ne by done.
    match goal with |- apply_writes _ ?m !! b = _ =>
      destruct (home_writes_value m bl dl b (tx_nodup _ _ _ Ht) Hlen) as [(i & d & Hi & Hd & ->)|[Hnb ->]] end.
    { symmetry. by eapply Hval. }
    rewrite Hsame, lookup_insert_ne by done. by apply apply_writes_other.
Qed.
End crash.

(** A commit cut after any number [k] of its block writes: booting from what is
    then on the disk succeeds, leaves an empty log, and gives every block
    outside the log its old contents (cut before the header write) or its new
    contents (from the header write on). *)
Lemma commit_crash (me me' : Z) s a lg bl dl hd :
  ready me s a lg bl dl hd →
  ∃ s', commit me s = Ok tt s' ∧
    lrep me s' (put_all (commit_writes (lg_start lg) hd bl dl) a) (with_lh (with_n 0) lg) ∧
    ∀ k, ∃ r,
      boot me' (mkDisk (md_size (disk (l_bio s)))
                  (apply_writes (take k (commit_writes (lg_start lg) hd bl dl)) (a_phys a)) []) = Ok tt r ∧
      (∀ b, ¬ in_log lg b →
         md_blocks (disk (l_bio r)) !! b = if (k <=? length bl)%nat then a_phys a !! b else a_log a !! b) ∧
      (∃ hd', md_blocks (disk (l_bio r)) !! lg_start lg = Some hd' ∧ hdr_n hd' = 0).
Proof.
  intros Hr. pose proof Hr as [Hl Ht Hpos Hdi Hdl Hsb _ Hhd Hemp Hhl].
  pose proof (list.Forall2_length _ _ _ Hdl) as Hlen.
  destruct (commit_spec me s a lg bl dl hd Hl Ht Hpos) as (s' & R & Hl'); [|done| |].
  { intros b Hb. by rewrite Hdi, elem_of_list_to_set. }
  { rewrite <- Hhd. eapply lclean; [done|by rewrite (tx_held _ _ _ Ht)|].
    apply (tx_area _ _ _ Ht), (in_log_start _ _ _ Ht). }
  exists s'. split; [done|]. split; [done|]. destruct Hl as [Hrep Hlg]. intros k.
  pose proof (crash_disk_log me s a lg bl dl hd k Hr) as Hdl'.
  pose proof (λ b, crash_contents me s a lg bl dl hd k b Hr) as Hcon.
  destruct (crash_frame me s a lg bl dl hd k Hr) as (Hdom & _ & _).
  cbn zeta in Hdl', Hcon. set (m := apply_writes (take k _) (a_phys a)) in *. clear R.
  assert (disk_wf (mkDisk (md_size (disk (l_bio s))) m [])) as Hwf.
  { intros b. cbn. rewrite Hdom. apply (br_dom _ _ _ Hrep). }
  assert (∀ hd' bl' dl', disk_log m (lg_start lg) (lg_size lg) hd' bl' dl' → length hd' = BSIZE →
    ∃ r, boot me' (mkDisk (md_size (disk (l_bio s))) m []) = Ok tt r ∧
      (∀ b, ¬ in_log lg b → md_blocks (disk (l_bio r)) !! b = apply_writes (zip bl' dl') m !! b) ∧
      (∃ hd', md_blocks (disk (l_bio r)) !! lg_start lg = Some hd' ∧ hdr_n hd' = 0)) as Hboot.
  { intros hd' bl' dl' Hd' Hhl'.
    destruct (boot_spec me' _ _ _ _ _ _ Hwf Hd') as (r & lg' & R & Hlr & _).
    exists r. split; [done|]. clear R. rewrite (br_phys _ _ _ (proj1 Hlr)). cbn [put_all a_phys empty_cache md_blocks].
    unfold recovery_writes. rewrite apply_writes_app. cbn. split.
    - intros b Hb. rewrite lookup_insert_ne; [done|]. intros <-. by eapply Hb, in_log_start.
    - exists (hdr_image [] hd'). split; [apply lookup_insert_eq|].
      apply hdr_n_image; [done|simpl; unfold LOGSIZE; lia]. }
  destruct (k <=? length bl)%nat; [|destruct (k <=? 2 * length bl + 1)%nat].
  all: destruct (Hboot _ _ _ Hdl') as (r & R & Hb & Hh); [by rewrite ?length_hdr_image|].
  all: exists r; split; [exact R|]; clear R; split; [|exact Hh]; intros b Hnb; rewrite Hb by done.
  all: by apply Hcon.
Qed.

Section recovery.
Context (d : mdisk) (start nlog : Z) (hd : bytes) (bl : list Z) (dl : list bytes).
Hypothesis Hwf : disk_wf d.
Hypothesis Hd : disk_log (md_blocks d) start nlog hd bl dl.
Hypothesis Hhl : length hd = BSIZE.
Hypothesis Hsb : (1 ∉ bl) ∧ ¬ (start ≤ 1 < start + nlog).

Definition cut (k : nat) : gmap Z bytes :=
  apply_writes (take k (recovery_writes start hd bl dl)) (md_blocks d).

Lemma recovery_write_cases w :
  w ∈ recovery_writes start hd bl dl → w.1 ∈ bl ∨ w = (start, hdr_image [] hd).
Proof.
  unfold recovery_writes. rewrite elem_of_app, list_elem_of_singleton.
  intros [Hw%zip_fst_elem|Hw]; auto.
Qed.

Lemma start_area : start ≤ start < start + nlog.
Proof. pose proof (dl_fit _ _ _ _ _ _ Hd). lia. Qed.

Lemma cut_frame k :
  (∀ b, is_Some (cut k !! b) ↔ is_Some (md_blocks d !! b)) ∧ (cut k !! 1) = (md_blocks d !! 1).
Proof.
  pose proof start_area as Hst. split.
  - intros b. apply apply_writes_dom. intros w [Hw| ->]%elem_of_prefix%recovery_write_cases.
    + by apply (dl_home _ _ _ _ _ _ Hd). + by apply (dl_area _ _ _ _ _ _ Hd).
  - apply apply_writes_other. intros (w & Heq & Hw%elem_of_prefix)%list_elem_of_fmap.
    destruct Hsb as [Hs1 Hs2]. apply recovery_write_cases in Hw as [Hw| ->]; cbn in Heq; [congruence|lia].
Qed.

Lemma cut_early k : (k ≤ length bl)%nat → disk_log (cut k) start nlog hd bl dl.
Proof.
  intros Hk. destruct (cut_frame k) as [Hdom H1]. pose proof (dl_dl _ _ _ _ _ _ Hd) as Hlen.
  assert (cut k = apply_writes (take k (zip bl dl)) (md_blocks d)) as Hcut.
  { unfold cut, recovery_writes. rewrite take_app_le; [done|]. rewrite length_zip_with. lia. }
  assert (∀ b, start ≤ b < start + nlog → cut k !! b = md_blocks d !! b) as Hlog.
  { intros b Hb. rewrite Hcut. apply apply_writes_other.
    intros (w & Heq & Hw%elem_of_prefix%zip_fst_elem)%list_elem_of_fmap. rewrite <- Heq in Hw.
    by apply (dl_home _ _ _ _ _ _ Hd) in Hw as (_ & _ & ?). }
  pose proof start_area as Hst. destruct Hd. split; rewrite ?H1; try done.
  - by rewrite Hlog.
  - intros b Hb. rewrite Hdom. auto.
  - intros b Hb. rewrite Hdom. auto.
  - intros i x Hx. rewrite Hlog; [auto|]. apply lookup_lt_Some in Hx. lia.
Qed.

Lemma cut_late k : (length bl < k)%nat → disk_log (cut k) start nlog (hdr_image [] hd) [] [].
Proof.
  intros Hk. destruct (cut_frame k) as [Hdom H1]. pose proof (dl_dl _ _ _ _ _ _ Hd) as Hlen.
  pose proof start_area as Hst. apply disk_log_none.
  - rewrite H1. apply Hd.
  - lia.
  - intros b Hb. rewrite Hdom. by apply (dl_area _ _ _ _ _ _ Hd).
  - unfold cut, recovery_writes. rewrite take_ge.
    + rewrite apply_writes_app. cbn. apply lookup_insert_eq.
    + rewrite length_app, length_zip_with. simpl. lia.
  - apply hdr_n_image; [done|simpl; unfold LOGSIZE; lia].
Qed.

Lemma recovery_outside m b :
  ¬ (start ≤ b < start + nlog) →
  apply_writes (recovery_writes start hd bl dl) m !! b = apply_writes (zip bl dl) m !! b.
Proof.
  intros Hb. unfold recovery_writes. rewrite apply_writes_app. cbn. apply lookup_insert_ne.
  intros <-. pose proof start_area. lia.
Qed.

Lemma reinstall k b :
  apply_writes (zip bl dl) (apply_writes (take k (zip bl dl)) (md_blocks d)) !! b =
  apply_writes (zip bl dl) (md_blocks d) !! b.
Proof.
  pose proof (dl_nodup _ _ _ _ _ _ Hd) as Hnd. pose proof (dl_dl _ _ _ _ _ _ Hd) as Hlen.
  destruct (home_writes_value (apply_writes (take k (zip bl dl)) (md_blocks d)) bl dl b Hnd Hlen)
    as [(i & x & Hi & Hx & ->)|[Hb ->]];
  destruct (home_writes_value (md_blocks d) bl dl b Hnd Hlen)
    as [(j & y & Hj & Hy & ->)|[Hb' ->]].
  - assert (i = j) as -> by by eapply NoDup_lookup. congruence.
  - destruct Hb'. by eapply list_elem_of_lookup_2.
  - destruct Hb. by eapply list_elem_of_lookup_2.
  - apply apply_writes_other. by intros (w & -> & ?%elem_of_prefix%zip_fst_elem)%list_elem_of_fmap.
Qed.
End recovery.

(** C2: recovery installs the committed transaction and may itself be
    interrupted.  Booting from a disk whose log names the blocks [bl] with the
    data [dl] gives exactly these blocks their logged data; whatever prefix of
    recovery's own writes reached the disk, booting again yields the same
    contents outside the log as the uninterrupted recovery. *)
Theorem recovery_idempotent (me : Z) d start nlog hd bl dl k :
  disk_wf d → disk_log (md_blocks d) start nlog hd bl dl → length hd = BSIZE →
  (1 ∉ bl) ∧ ¬ (start ≤ 1 < start + nlog) →
  ∃ r r', boot me d = Ok tt r ∧
    boot me (mkDisk (md_size d)
      (apply_writes (take k (drop (length (md_hist d)) (md_hist (disk (l_bio r))))) (md_blocks d)) []) = Ok tt r' ∧
    ∀ b, ¬ (start ≤ b < start + nlog) →
      md_blocks (disk (l_bio r)) !! b = apply_writes (zip bl dl) (md_blocks d) !! b ∧
      md_blocks (disk (l_bio r')) !! b = md_blocks (disk (l_bio r)) !! b.
Proof.
  intros Hwf Hd Hhl Hsb. destruct (boot_spec me d _ _ _ _ _ Hwf Hd) as (r & lg & R & Hlr & _).
  exists r. rewrite (br_hist _ _ _ (proj1 Hlr)), (br_phys _ _ _ (proj1 Hlr)).
  cbn [put_all a_phys a_hist empty_cache]. rewrite drop_app_length.
  change (apply_writes (take k _) _) with (cut d start hd bl dl k).
  pose proof (cut_frame d start nlog hd bl dl Hd Hhl Hsb k) as [Hdom _].
  assert (disk_wf (mkDisk (md_size d) (cut d start hd bl dl k) [])) as Hwf'.
  { intros b. cbn. rewrite Hdom. apply Hwf. }
  destruct (decide (k ≤ length bl)%nat) as [Hk|Hk].
  - pose proof (cut_early d start nlog hd bl dl Hd Hhl Hsb k Hk) as Hd'.
    destruct (boot_spec me _ _ _ _ _ _ Hwf' Hd') as (r' & lg' & R' & Hlr' & _).
    exists r'. split; [exact R|]. split; [exact R'|]. clear R R'. intros b Hb.
    split; [by apply (recovery_outside d start nlog hd bl dl Hd)|].
    rewrite (br_phys _ _ _ (proj1 Hlr')). cbn [put_all a_phys empty_cache md_blocks].
    rewrite !(recovery_outside d start nlog hd bl dl Hd) by done.
    unfold cut, recovery_writes. rewrite take_app_le.
    + by apply (reinstall d start nlog hd).
    + rewrite length_zip_with, (dl_dl _ _ _ _ _ _ Hd). lia.
  - pose proof (cut_late d start nlog hd bl dl Hd Hhl Hsb k ltac:(lia)) as Hd'.
    destruct (boot_spec me _ _ _ _ _ _ Hwf' Hd') as (r' & lg' & R' & Hlr' & _).
    exists r'. split; [exact R|]. split; [exact R'|]. clear R R'. intros b Hb.
    split; [by apply (recovery_outside d start nlog hd bl dl Hd)|].
    rewrite (br_phys _ _ _ (proj1 Hlr')). cbn [put_all a_phys empty_cache md_blocks].
    unfold recovery_writes at 1. simpl. rewrite lookup_insert_ne.
    2:{ intros <-. pose proof (start_area d start nlog hd bl dl Hd). lia. }
    unfold cut. rewrite take_ge; [done|]. unfold recovery_writes.
    rewrite length_app, length_zip_with, (dl_dl _ _ _ _ _ _ Hd). simpl. lia.
Qed.

(** ** A small disk: 40 blocks, superblock in 1, log in 2..31 *)

Definition demo_sb : bytes := wr32 (wr32 zero_block 12 30) 16 2.
Definition demo_blocks : gmap Z bytes := <[1 := demo_sb]> (map_seqZ 0 (replicate 40 zero_block)).

Lemma demo_blocks_dom b : is_Some (demo_blocks !! b) ↔ 0 ≤ b < 40.
Proof.
  unfold demo_blocks. destruct (decide (b = 1)) as [->|Hne].
  - rewrite lookup_insert_eq. split; [lia|eauto].
  - rewrite lookup_insert_ne by done. rewrite lookup_map_seqZ_is_Some, length_replicate. lia.
Qed.

Lemma demo_blocks_zero b : 0 ≤ b < 40 → b ≠ 1 → demo_blocks !! b = Some zero_block.
Proof.
  intros Hb Hne. unfold demo_blocks. rewrite lookup_insert_ne by done.
  rewrite lookup_map_seqZ, option_guard_True by lia. apply lookup_replicate_2. lia.
Qed.

Lemma demo_sb_ok : ∃ sb, demo_blocks !! 1 = Some sb ∧ s32 (rd32 sb 16) = 2 ∧ s32 (rd32 sb 12) = 30.
Proof.
  exists demo_sb. assert (length zero_block = BSIZE) as Hz by apply length_replicate.
  split; [apply lookup_insert_eq|]. unfold demo_sb.
  rewrite rd32_wr32_eq by (rewrite length_wr32, Hz; unfold BSIZE; lia).
  rewrite rd32_wr32_ne by lia. rewrite rd32_wr32_eq by (rewrite Hz; unfold BSIZE; lia). done.
Qed.

(** The same disk after a crash right after the commit point of a transaction
    that wrote block 35. *)
Definition demo_crashed : gmap Z bytes :=
  <[2 := hdr_image [35] zero_block]> (<[3 := replicate BSIZE 7]> demo_blocks).

Lemma demo_crashed_dom b : is_Some (demo_crashed !! b) ↔ 0 ≤ b < 40.
Proof.
  unfold demo_crashed. rewrite !lookup_insert_is_Some', demo_blocks_dom. lia.
Qed.

Lemma demo_crashed_log : disk_log demo_crashed 2 30 (hdr_image [35] zero_block) [35] [replicate BSIZE 7].
Proof.
  assert (length zero_block = BSIZE) as Hz by apply length_replicate. split.
  - destruct demo_sb_ok as (sb & H1 & H2). exists sb. unfold demo_crashed. by rewrite !lookup_insert_ne.
  - apply lookup_insert_eq.
  - apply hdr_n_image; [done|simpl; unfold LOGSIZE; lia].
  - apply hdr_blocks_image; [done|simpl; unfold LOGSIZE; lia|]. intros b ->%list_elem_of_singleton. by vm_compute.
  - simpl. unfold LOGSIZE. lia.
  - simpl. lia.
  - apply NoDup_singleton.
  - intros b ->%list_elem_of_singleton. rewrite demo_crashed_dom. unfold is_s32. lia.
  - intros b Hb. rewrite demo_crashed_dom. unfold is_s32. lia.
  - done.
  - intros i x [-> <-]%list_lookup_singleton_Some. unfold demo_crashed.
    rewrite lookup_insert_ne by lia. apply lookup_insert_eq.
Qed.

Lemma recovery_idempotent_witness :
  let d := mkDisk 40 demo_crashed [] in
  ∃ r r', boot 1 d = Ok tt r ∧
    boot 1 (mkDisk 40 (apply_writes (take 1 (drop 0 (md_hist (disk (l_bio r))))) demo_crashed) []) = Ok tt r' ∧
    ∀ b, ¬ (2 ≤ b < 2 + 30) →
      md_blocks (disk (l_bio r)) !! b = apply_writes [(35, replicate BSIZE 7)] demo_crashed !! b ∧
      md_blocks (disk (l_bio r')) !! b = md_blocks (disk (l_bio r)) !! b.
Proof.
  apply (recovery_idempotent 1 (mkDisk 40 demo_crashed []) 2 30 (hdr_image [35] zero_block) [35]
           [replicate BSIZE 7] 1).
  - intros b. symmetry. apply demo_crashed_dom.
  - exact demo_crashed_log.
  - rewrite length_hdr_image. apply length_replicate.
  - split; [|lia]. rewrite list_elem_of_singleton. lia.
Defined.
