(* ===== verification/BlockLayer.v ===== *)
(** * What the file system asks of the layers below it

    fs.c uses the disk only through bread, the [data] field of a locked
    buffer, log_write and brelse.  [BlockLayer] is that interface: the five
    operations on a state [S], and the laws a client relies on, stated over
    the transaction [tx] as the client sees it.  Fs.v is proved
    against this class; LogTx.v shows that bio.c and log.c implement it. *)
From S2P Require Import Prelude.

(** [t_view]: contents of every block inside the transaction; [t_held]: locked
    blocks and the buffer each one is in; [t_touched]: blocks assigned to since
    they were last passed to log_write; [t_logged]: blocks of the transaction. *)
Record tx := mkTx {
  t_view : gmap Z bytes; t_held : gmap Z nat; t_touched : gset Z; t_logged : gset Z }.

Definition t_hold (bn : Z) (i : nat) (t : tx) : tx :=
  mkTx (t_view t) (<[bn := i]> (t_held t)) (t_touched t) (t_logged t).
Definition t_unhold (bn : Z) (t : tx) : tx :=
  mkTx (t_view t) (delete bn (t_held t)) (t_touched t) (t_logged t).
Definition t_store (bn : Z) (d : bytes) (t : tx) : tx :=
  mkTx (<[bn := d]> (t_view t)) (t_held t) ({[bn]} ∪ t_touched t) (t_logged t).
Definition t_log (bn : Z) (t : tx) : tx :=
  mkTx (t_view t) (t_held t) (t_touched t ∖ {[bn]}) ({[bn]} ∪ t_logged t).

(** A buffer is left for block [bn]. *)
Definition t_room (nbuf : nat) (bn : Z) (t : tx) : Prop :=
  bn ∈ t_logged t ∨ (size (dom (t_held t) ∪ t_logged t) < nbuf)%nat.

Class BlockLayer (S : Type) := {
  bl_bread : Z → Z → M S nat;
  bl_data : nat → M S bytes;
  bl_store : nat → bytes → M S unit;
  bl_log_write : nat → M S unit;
  bl_brelse : nat → M S unit;

  (** [bl_rep s t]: [s] implements the transaction [t]; [bl_home]: the blocks
      that may be logged; [bl_nbuf], [bl_cap]: buffers, and blocks per
      transaction. *)
  bl_rep : S → tx → Prop;
  bl_home : Z → Prop;
  bl_nbuf : nat;
  bl_cap : nat;

  bl_bread_ok s t bn :
    bl_rep s t → is_Some (t_view t !! bn) → t_held t !! bn = None → t_room bl_nbuf bn t →
    ∃ i s', bl_bread 1 bn s = Ok i s' ∧ bl_rep s' (t_hold bn i t);
  bl_data_ok s t bn i :
    bl_rep s t → t_held t !! bn = Some i →
    ∃ d, t_view t !! bn = Some d ∧ bl_data i s = Ok d s;
  bl_store_ok s t bn i d :
    bl_rep s t → t_held t !! bn = Some i → bl_home bn →
    ∃ s', bl_store i d s = Ok tt s' ∧ bl_rep s' (t_store bn d t);
  bl_log_write_ok s t bn i :
    bl_rep s t → t_held t !! bn = Some i → bl_home bn → (size (t_logged t) < bl_cap)%nat →
    ∃ s', bl_log_write i s = Ok tt s' ∧ bl_rep s' (t_log bn t);
  bl_brelse_ok s t bn i :
    bl_rep s t → t_held t !! bn = Some i → bn ∉ t_touched t →
    ∃ s', bl_brelse i s = Ok tt s' ∧ bl_rep s' (t_unhold bn t);
}.

(** ** Derived operations: read a block; update a block inside the transaction *)

Section derived.
Context {S : Type} {BL : BlockLayer S}.

Definition with_block {A} (dev bn : Z) (f : bytes → A) : M S A :=
  let! bp := bl_bread dev bn in
  let! d := bl_data bp in
  do! bl_brelse bp in
  ret (f d).

Definition update_block (dev bn : Z) (f : bytes → bytes) : M S unit :=
  let! bp := bl_bread dev bn in
  let! d := bl_data bp in
  do! bl_store bp (f d) in
  do! bl_log_write bp in
  bl_brelse bp.

Lemma unhold_hold_tx bn i t : t_held t !! bn = None → t_unhold bn (t_hold bn i t) = t.
Proof. destruct t; cbn. intros H. unfold t_unhold, t_hold; cbn. f_equal. by apply delete_insert_id. Qed.

Lemma with_block_ok {A} s t bn (f : bytes → A) d :
  bl_rep s t → t_view t !! bn = Some d → t_held t !! bn = None → bn ∉ t_touched t → t_room bl_nbuf bn t →
  ∃ s', with_block 1 bn f s = Ok (f d) s' ∧ bl_rep s' t.
Proof.
  intros Hr Hd Hh Ht Hroom. destruct (bl_bread_ok s t bn Hr) as (i & s1 & R1 & Hr1); [eauto|done..|].
  destruct (bl_data_ok s1 _ bn i Hr1) as (d' & Hd' & R2); [apply lookup_insert_eq|].
  destruct (bl_brelse_ok s1 _ bn i Hr1) as (s2 & R3 & Hr2); [apply lookup_insert_eq|done|].
  cbn in Hd'. simplify_eq. exists s2. unfold with_block.
  mstep R1. mstep R2. mstep R3. split; [done|]. by rewrite unhold_hold_tx in Hr2.
Qed.

(** The transaction after block [bn] was changed to [d] and logged. *)
Definition t_put (bn : Z) (d : bytes) (t : tx) : tx :=
  mkTx (<[bn := d]> (t_view t)) (t_held t) (t_touched t ∖ {[bn]}) ({[bn]} ∪ t_logged t).

Lemma update_block_ok s t bn f d :
  bl_rep s t → t_view t !! bn = Some d → t_held t !! bn = None → t_room bl_nbuf bn t →
  bl_home bn → (size (t_logged t) < bl_cap)%nat →
  ∃ s', update_block 1 bn f s = Ok tt s' ∧ bl_rep s' (t_put bn (f d) t).
Proof.
  intros Hr Hd Hh Hroom Hhome Hcap. destruct (bl_bread_ok s t bn Hr) as (i & s1 & R1 & Hr1); [eauto|done..|].
  destruct (bl_data_ok s1 _ bn i Hr1) as (d' & Hd' & R2); [apply lookup_insert_eq|].
  cbn in Hd'. rewrite Hd in Hd'. injection Hd' as <-.
  destruct (bl_store_ok s1 _ bn i (f d) Hr1) as (s2 & R3 & Hr2); [apply lookup_insert_eq|done|].
  destruct (bl_log_write_ok s2 _ bn i Hr2) as (s3 & R4 & Hr3); [apply lookup_insert_eq|done..|].
  destruct (bl_brelse_ok s3 _ bn i Hr3) as (s4 & R5 & Hr4); [apply lookup_insert_eq|set_solver|].
  exists s4. unfold update_block. mstep R1. mstep R2. mstep R3. mstep R4. split; [done|].
  replace (t_put bn (f d) t) with (t_unhold bn (t_log bn (t_store bn (f d) (t_hold bn i t)))); [done|].
  unfold t_unhold, t_log, t_store, t_hold, t_put; cbn. rewrite delete_insert_id by done.
  f_equal. set_solver.
Qed.
End derived.

(** ** A reference implementation

    The transaction itself, kept in memory; the buffer of block [bn] is
    numbered [bn].  It shows that the laws are satisfiable and is what the
    examples of the file-system files run on. *)
Section ram.
Context (nbuf cap : nat).

Definition ram_rep (s t : tx) : Prop :=
  s = t ∧ (∀ bn, is_Some (t_view t !! bn) → 0 ≤ bn) ∧
  (∀ bn i, t_held t !! bn = Some i → i = Z.to_nat bn ∧ is_Some (t_view t !! bn)).

Definition ram_bread (_ bn : Z) : M tx nat := λ t, Ok (Z.to_nat bn) (t_hold bn (Z.to_nat bn) t).
Definition ram_data (i : nat) : M tx bytes := λ t,
  match t_view t !! Z.of_nat i with Some d => Ok d t | None => Panic "page fault" end.
Definition ram_store (i : nat) (d : bytes) : M tx unit := modify (t_store i d).
Definition ram_log_write (i : nat) : M tx unit := modify (t_log i).
Definition ram_brelse (i : nat) : M tx unit := modify (t_unhold i).

Lemma ram_held s t bn i : ram_rep s t → t_held t !! bn = Some i → Z.of_nat i = bn ∧ is_Some (t_view t !! bn).
Proof. intros (-> & Hv & Hh) Hi. destruct (Hh bn i Hi) as [-> H]. specialize (Hv bn H). split; [lia|done]. Qed.

Lemma ram_bread_ok s t bn :
  ram_rep s t → is_Some (t_view t !! bn) → t_held t !! bn = None → t_room nbuf bn t →
  ∃ i s', ram_bread 1 bn s = Ok i s' ∧ ram_rep s' (t_hold bn i t).
Proof.
  intros (-> & Hv & Hh) Hd _ _. eexists _, _. split; [done|]. split; [done|]. split; [done|].
  intros b i. cbn. intros [[<- <-]|[_ H]]%lookup_insert_Some; [done|eauto].
Qed.
Lemma ram_data_ok s t bn i :
  ram_rep s t → t_held t !! bn = Some i → ∃ d, t_view t !! bn = Some d ∧ ram_data i s = Ok d s.
Proof.
  intros Hr Hi. destruct (ram_held s t bn i Hr Hi) as [<- [d Hd]]. exists d. split; [done|].
  destruct Hr as [-> _]. unfold ram_data. by rewrite Hd.
Qed.
Lemma ram_store_ok s t bn i d :
  ram_rep s t → t_held t !! bn = Some i → True → ∃ s', ram_store i d s = Ok tt s' ∧ ram_rep s' (t_store bn d t).
Proof.
  intros Hr Hi _. destruct (ram_held s t bn i Hr Hi) as [<- Hs]. destruct Hr as (-> & Hv & Hh).
  eexists. split; [done|]. split; [done|]. cbn. split.
  - intros b. destruct (decide (b = i)) as [->|]; [lia|]. rewrite lookup_insert_ne by done. auto.
  - intros b j Hj. destruct (Hh b j Hj) as [? ?]. split; [done|].
    destruct (decide (b = i)) as [->|]; [rewrite lookup_insert_eq; eauto|by rewrite lookup_insert_ne].
Qed.
Lemma ram_log_write_ok s t bn i :
  ram_rep s t → t_held t !! bn = Some i → True → (size (t_logged t) < cap)%nat →
  ∃ s', ram_log_write i s = Ok tt s' ∧ ram_rep s' (t_log bn t).
Proof.
  intros Hr Hi _ _. destruct (ram_held s t bn i Hr Hi) as [<- Hs]. destruct Hr as (-> & Hv & Hh).
  eexists. split; [done|]. done.
Qed.
Lemma ram_brelse_ok s t bn i :
  ram_rep s t → t_held t !! bn = Some i → bn ∉ t_touched t →
  ∃ s', ram_brelse i s = Ok tt s' ∧ ram_rep s' (t_unhold bn t).
Proof.
  intros Hr Hi _. destruct (ram_held s t bn i Hr Hi) as [<- Hs]. destruct Hr as (-> & Hv & Hh).
  eexists. split; [done|]. split; [done|]. split; [done|]. intros b j. cbn.
  intros [_ H]%lookup_delete_Some. eauto.
Qed.

Definition ram_layer : BlockLayer tx := {|
  bl_bread := ram_bread; bl_data := ram_data; bl_store := ram_store;
  bl_log_write := ram_log_write; bl_brelse := ram_brelse;
  bl_rep := ram_rep; bl_home := λ _, True; bl_nbuf := nbuf; bl_cap := cap;
  bl_bread_ok := ram_bread_ok; bl_data_ok := ram_data_ok; bl_store_ok := ram_store_ok;
  bl_log_write_ok := ram_log_write_ok; bl_brelse_ok := ram_brelse_ok |}.
End ram.
