(* ===== verification/LogTx.v ===== *)
(** * Transactions: bio.c and log.c implement the block layer

    The invariant of an open transaction, the behaviour of begin_op,
    log_write and end_op on it, and the [BlockLayer] instance the file system
    runs on. *)
From S2P Require Import Prelude Str Sleeplock Memide Bio Log BlockLayer.

Section tx.
Context (me start nlog : Z).

(** Blocks the file system may log: not the log itself, not the superblock. *)
Definition home (b : Z) : Prop := ¬ (start ≤ b < start + nlog) ∧ b ≠ 1 ∧ is_s32 b.

(** [bl]: the blocks logged so far, in the order of the header. *)
Record tx_inv (s : lst) (a : abio) (lg : log) (bl : list Z) : Prop := {
  ti_rep : lrep me s a lg;
  ti_start : lg_start lg = start;
  ti_size : lg_size lg = nlog;
  ti_dev : lg_dev lg = 1;
  ti_n : lh_n (lg_lh lg) = length bl;
  ti_blocks_len : length (lh_block (lg_lh lg)) = LOGSIZE;
  ti_blocks : ∀ i b, bl !! i = Some b → lh_block (lg_lh lg) !! i = Some b;
  ti_nodup : NoDup bl;
  ti_cap : (length bl < LOGSIZE)%nat;
  ti_fit : LOGSIZE ≤ nlog;
  ti_dirty : a_dirty a = list_to_set bl;
  ti_home : ∀ b, b ∈ bl → home b ∧ is_Some (a_phys a !! b);
  ti_area : ∀ b, start ≤ b < start + nlog → is_s32 b ∧ is_Some (a_phys a !! b) ∧ a_log a !! b = a_phys a !! b;
  ti_sb : (∃ sb, a_phys a !! 1 = Some sb ∧ s32 (rd32 sb 16) = start ∧ s32 (rd32 sb 12) = nlog) ∧
          ¬ (start ≤ 1 < start + nlog);
  ti_hd : ∃ hd, a_phys a !! start = Some hd ∧ hdr_n hd = 0 ∧ length hd = BSIZE;
}.

(** ** log_write *)

Lemma find_slot_spec bl full blockno n i :
  n = (length bl - i)%nat → (i ≤ length bl)%nat →
  (∀ j b, bl !! j = Some b → full !! j = Some b ∧ is_u32 b) →
  (∀ j, (j < i)%nat → bl !! j ≠ Some blockno) →
  (find_slot n i full blockno = length bl ∧ blockno ∉ bl) ∨
  bl !! find_slot n i full blockno = Some blockno.
Proof.
  revert i; induction n as [|n IH]; intros i Hn Hi Hfull Hbefore; simpl.
  - left. split; [lia|]. intros (j & Hj)%list_elem_of_lookup. eapply Hbefore; [|exact Hj].
    apply lookup_lt_Some in Hj. lia.
  - destruct (lookup_lt_is_Some_2 bl i) as [b Hb]; [lia|]. destruct (Hfull i b Hb) as [-> Hu].
    rewrite u32_small by done. destruct (Z.eqb_spec b blockno) as [->|Hne]; [by right|].
    apply IH; [lia|lia|done|]. intros j Hj. destruct (decide (j = i)) as [->|]; [congruence|].
    apply Hbefore. lia.
Qed.

Definition add_block (bl : list Z) (bn : Z) : list Z := if decide (bn ∈ bl) then bl else bl ++ [bn].

Lemma add_block_set bl bn : list_to_set (add_block bl bn) = ({[bn]} ∪ list_to_set bl : gset Z).
Proof. unfold add_block. case_decide; [|rewrite list_to_set_app_L]; set_solver. Qed.

(** The in-memory header after [log_write]. *)
Lemma add_block_header lg bl bn :
  lh_n (lg_lh lg) = length bl → length (lh_block (lg_lh lg)) = LOGSIZE → (length bl < LOGSIZE)%nat →
  (∀ i b, bl !! i = Some b → lh_block (lg_lh lg) !! i = Some b ∧ is_u32 b) → is_s32 bn → is_u32 bn →
  let i := find_slot (length bl) 0 (lh_block (lg_lh lg)) bn in
  let n' := if i =? length bl then s32 (length bl + 1) else length bl in
  let bs := <[i := s32 bn]> (lh_block (lg_lh lg)) in
  (i < LOGSIZE)%nat ∧ n' = length (add_block bl bn) ∧
  ∀ j b, add_block bl bn !! j = Some b → bs !! j = Some b.
Proof.
  intros Hn Hlen Hcap Hbl Hs Hu i n' bs. unfold add_block.
  destruct (find_slot_spec bl (lh_block (lg_lh lg)) bn (length bl) 0) as [[Hi Hnot]|Hin]; [lia|lia|done|lia|..].
  - fold i in Hi. subst bs n'. rewrite Hi, Z.eqb_refl, (s32_small bn), decide_False by done.
    split_and!; [lia|rewrite length_app, s32_small; [simpl; lia|unfold is_s32, LOGSIZE in *; lia]|].
    intros j b [Hj|[Hge Hj]]%lookup_app_Some.
    + rewrite list_lookup_insert_ne; [by apply Hbl|]. apply lookup_lt_Some in Hj. lia.
    + apply list_lookup_singleton_Some in Hj as [Hj <-]. assert (j = length bl) as -> by lia.
      apply list_lookup_insert_eq. lia.
  - fold i in Hin. assert (i < length bl)%nat by by eapply lookup_lt_Some.
    subst bs n'. rewrite (s32_small bn), decide_True by (done || by eapply list_elem_of_lookup_2).
    replace (i =? length bl) with false by (symmetry; lia).
    split_and!; [lia|done|]. intros j b Hj.
    destruct (decide (j = i)) as [->|Hne]; [|rewrite list_lookup_insert_ne by done; by apply Hbl].
    rewrite list_lookup_insert_eq by lia. congruence.
Qed.

Lemma held_names s a lg bn i :
  lrep me s a lg → a_held a !! bn = Some i →
  ∃ x, onb (getb i) s = Ok x s ∧ b_blockno x = bn ∧ is_Some (a_phys a !! bn).
Proof.
  intros [Hrep _] Hh. destruct (rep_held_buf me _ _ _ _ Hrep Hh) as (b & [_ Hb] & [_ Hn] & _ & _ & Hbn & _).
  exists b. split_and!; [|done|by apply (br_dom _ _ _ Hrep)].
  unfold onb, zoom. erewrite getb_lookup by done. by destruct s.
Qed.

Lemma log_write_spec s a lg bl bn i :
  tx_inv s a lg bl → 1 ≤ lg_outstanding lg → a_held a !! bn = Some i → home bn →
  (length bl < LOGSIZE - 1)%nat →
  ∃ s' lg', log_write i s = Ok tt s' ∧ tx_inv s' (pin bn a) lg' (add_block bl bn) ∧
    lg_outstanding lg' = lg_outstanding lg ∧ lg_committing lg' = lg_committing lg.
Proof.
  intros Hti Hout Hh Hhome Hcap. destruct (held_names s a lg bn i (ti_rep _ _ _ _ Hti) Hh) as (x & Rx & Hx & Hp).
  assert (∀ b, is_s32 b → is_Some (a_phys a !! b) → is_u32 b) as Hu.
  { intros b Hb Hpb. by eapply phys_nonneg; [apply Hti|..]. }
  destruct Hti. assert (is_u32 bn) as Hubn by (apply Hu; [apply Hhome|done]).
  destruct (add_block_header lg bl bn) as (Hi & Hn' & Hbs'); try done.
  { intros j b Hj. split; [auto|]. apply list_elem_of_lookup_2, ti_home0 in Hj as [(_ & _ & ?) ?]. auto. }
  { apply Hhome. }
  unfold log_write. rewrite bind_gets, (proj2 ti_rep0), ti_n0, ti_size0.
  replace ((LOGSIZE <=? length bl) || (nlog - 1 <=? length bl)) with false by lia.
  replace (lg_outstanding lg <? 1) with false by lia.
  mstep Rx. rewrite Hx, Nat2Z.id.
  set (k := find_slot _ _ _ _) in *.
  destruct (lh_set_run me s a lg k (s32 bn) ti_rep0) as (s1 & R1 & Hl1); [lia|]. mstep R1.
  set (n' := if Z.of_nat k =? length bl then s32 (length bl + 1) else length bl) in *.
  set (lg' := with_lh (λ _, mkLh n' (<[k := s32 bn]> (lh_block (lg_lh lg)))) lg).
  assert (∃ s2, (if Z.of_nat k =? length bl then modify (set_log (with_lh (with_n (s32 (length bl + 1)))))
           else ret tt) s1 = Ok tt s2 ∧ lrep me s2 a lg') as (s2 & R2 & Hl2).
  { destruct Hl1 as [Hr1 Hlg1]. unfold lg', n'. destruct (Z.of_nat k =? length bl) eqn:E.
    - eexists. split; [done|]. split; [done|]. cbn. rewrite Hlg1. done.
    - eexists. split; [done|]. split; [done|]. rewrite Hlg1. unfold with_lh, Log.with_block. cbn.
      by rewrite ti_n0. }
  mstep R2. destruct (lbpin me s2 a lg' bn i Hl2 Hh) as (s3 & R3 & Hl3).
  exists s3, lg'. split; [done|]. split; [|done]. split; try done.
  - cbn. by rewrite length_insert.
  - unfold add_block. case_decide; [done|]. apply list.NoDup_app. split_and!; [done| |apply NoDup_singleton].
    set_solver.
  - unfold add_block. case_decide; [done|]. rewrite length_app; simpl. lia.
  - cbn. by rewrite add_block_set, ti_dirty0.
  - intros b Hb. assert (b ∈ bl ∨ b = bn) as [?| ->]; [|auto|done].
    unfold add_block in Hb. case_decide; set_solver.
Qed.

(** ** The block layer *)

Lemma tx_inv_cache s a lg bl s' a' :
  tx_inv s a lg bl → lrep me s' a' lg → a_phys a' = a_phys a → a_dirty a' = a_dirty a →
  (∀ b, start ≤ b < start + nlog → a_log a' !! b = a_log a !! b) → tx_inv s' a' lg bl.
Proof.
  intros [] Hl Hp Hd Hlog. split; rewrite ?Hp, ?Hd; try done.
  intros b Hb. rewrite Hlog by done. auto.
Qed.

(** [out]: system calls inside the file system; [base], [hist]: the blocks on
    the disk and the writes done, which do not change before the commit. *)
Context (out : Z) (base : gmap Z bytes) (hist : list (Z * bytes)).

Definition layer_rep (s : lst) (t : tx) : Prop :=
  ∃ a lg bl, tx_inv s a lg bl ∧
    (lg_committing lg = 0 ∧ lg_outstanding lg = out ∧ 1 ≤ out ∧ a_phys a = base ∧ a_hist a = hist) ∧
    t_view t = a_log a ∧ t_held t = a_held a ∧ t_logged t = a_dirty a ∧
    ∀ bn, bn ∉ t_touched t → bn ∈ a_dirty a ∨ a_log a !! bn = a_phys a !! bn.

Lemma layer_bread s t bn :
  layer_rep s t → is_Some (t_view t !! bn) → t_held t !! bn = None → t_room NBUF bn t →
  ∃ i s', onb (bread me 1 bn) s = Ok i s' ∧ layer_rep s' (t_hold bn i t).
Proof.
  intros (a & lg & bl & Hti & Ho & Hv & Hh & Hlg & Hcl) Hd Hnh Hroom.
  unfold t_room in Hroom. rewrite Hv in Hd. rewrite Hh in Hnh, Hroom. rewrite Hlg in Hroom.
  assert (is_Some (a_phys a !! bn)) as Hp by by apply (br_dom_log _ _ _ (proj1 (ti_rep _ _ _ _ Hti))).
  destruct (lbread me s a lg bn (ti_rep _ _ _ _ Hti) Hp Hnh Hroom) as (i & s' & R & Hl).
  exists i, s'. split; [done|]. exists (hold bn i a), lg, bl. split; [by eapply tx_inv_cache|].
  cbn. by rewrite Hh.
Qed.

Lemma layer_data s t bn i :
  layer_rep s t → t_held t !! bn = Some i →
  ∃ d, t_view t !! bn = Some d ∧ onb (bdata i) s = Ok d s.
Proof.
  intros (a & lg & bl & Hti & Ho & -> & -> & Hlg & Hcl) Hh.
  by apply (lbdata me s a lg bn i (ti_rep _ _ _ _ Hti)).
Qed.

Lemma layer_store s t bn i d :
  layer_rep s t → t_held t !! bn = Some i → home bn →
  ∃ s', onb (bstore i d) s = Ok tt s' ∧ layer_rep s' (t_store bn d t).
Proof.
  intros (a & lg & bl & Hti & Ho & Hv & Hh & Hlg & Hcl) Hi Hhome. rewrite Hh in Hi.
  destruct (lbstore me s a lg bn i d (ti_rep _ _ _ _ Hti) Hi) as (s' & R & Hl).
  exists s'. split; [done|]. exists (store bn d a), lg, bl. split.
  - eapply tx_inv_cache; try done. intros b Hb. cbn. apply lookup_insert_ne.
    intros <-. by destruct Hhome.
  - cbn. rewrite Hv. split; [done|]. split_and!; try done. intros b Hb.
    rewrite lookup_insert_ne by set_solver. apply Hcl. set_solver.
Qed.

Lemma layer_log_write s t bn i :
  layer_rep s t → t_held t !! bn = Some i → home bn → (size (t_logged t) < LOGSIZE - 1)%nat →
  ∃ s', log_write i s = Ok tt s' ∧ layer_rep s' (t_log bn t).
Proof.
  intros (a & lg & bl & Hti & Ho & Hv & Hh & Hlg & Hcl) Hi Hhome Hcap. rewrite Hh in Hi.
  rewrite Hlg, (ti_dirty _ _ _ _ Hti), size_list_to_set in Hcap by apply Hti.
  destruct (log_write_spec s a lg bl bn i Hti ltac:(destruct Ho as (_ & ? & ? & _); lia) Hi Hhome Hcap)
    as (s' & lg' & R & Hti' & Ho' & Hc').
  exists s'. split; [done|]. exists (pin bn a), lg', (add_block bl bn).
  split; [done|]. rewrite Ho', Hc'. cbn. rewrite Hlg. split; [done|]. split_and!; try done.
  intros b Hb. destruct (decide (b = bn)) as [->|Hne]; [set_solver|].
  destruct (Hcl b); [set_solver|set_solver|by right].
Qed.

Lemma layer_brelse s t bn i :
  layer_rep s t → t_held t !! bn = Some i → bn ∉ t_touched t →
  ∃ s', onb (brelse me i) s = Ok tt s' ∧ layer_rep s' (t_unhold bn t).
Proof.
  intros (a & lg & bl & Hti & Ho & Hv & Hh & Hlg & Hcl) Hi Hnt. rewrite Hh in Hi.
  destruct (lbrelse me s a lg bn i (ti_rep _ _ _ _ Hti) Hi (Hcl bn Hnt)) as (s' & R & Hl).
  exists s'. split; [done|]. exists (unhold bn a), lg, bl. split; [by eapply tx_inv_cache|].
  cbn. by rewrite Hh.
Qed.

(** bio.c and log.c provide the block layer. *)
Definition log_layer : BlockLayer lst := {|
  bl_bread := λ dev bn, onb (bread me dev bn);
  bl_data := λ i, onb (bdata i);
  bl_store := λ i d, onb (bstore i d);
  bl_log_write := log_write;
  bl_brelse := λ i, onb (brelse me i);
  bl_rep := layer_rep; bl_home := home; bl_nbuf := NBUF; bl_cap := LOGSIZE - 1;
  bl_bread_ok := layer_bread; bl_data_ok := layer_data; bl_store_ok := layer_store;
  bl_log_write_ok := layer_log_write; bl_brelse_ok := layer_brelse |}.

End tx.

(** ** begin_op and end_op *)

(** The blocks on the disk and the block writes so far. *)
Abbreviation blocks s := (md_blocks (disk (l_bio s))).
Abbreviation history s := (md_hist (disk (l_bio s))).

Section op.
Context (me start nlog : Z).
Abbreviation tx_inv := (tx_inv me start nlog).
Abbreviation layer_rep := (layer_rep me start nlog).

Definition fresh_tx (view : gmap Z bytes) : tx := mkTx view ∅ ∅ ∅.

(** No system call is inside the file system. *)
Definition quiescent (s : lst) : Prop :=
  ∃ a lg, tx_inv s a lg [] ∧ lg_committing lg = 0 ∧ lg_outstanding lg = 0 ∧ a_held a = ∅.

Lemma set_log_rep s a lg f : lrep me s a lg → lrep me (set_log f s) a (f lg).
Proof. by intros [? <-]. Qed.

Lemma tx_inv_out s a lg bl f : tx_inv s a lg bl → tx_inv (set_log (with_outstanding f) s) a (with_outstanding f lg) bl.
Proof. intros []. split; try done. by apply set_log_rep. Qed.
Lemma tx_inv_nil_view s a lg : tx_inv s a lg [] → a_held a = ∅ → a_log a = a_phys a.
Proof.
  intros [] Hh. apply map_eq. intros bn. eapply lclean; [done|by rewrite Hh|].
  rewrite ti_dirty0. apply not_elem_of_empty.
Qed.

Lemma begin_op_spec s :
  quiescent s →
  ∃ s', begin_op s = Ok tt s' ∧ disk (l_bio s') = disk (l_bio s) ∧
    layer_rep 1 (blocks s) (history s) s' (fresh_tx (blocks s)).
Proof.
  intros (a & lg & Hti & Hc & Ho & Hh). pose proof Hti as [].
  unfold begin_op. rewrite bind_gets, (proj2 ti_rep0), Hc, ti_n0, Ho. eval_ifs.
  eexists. split; [done|]. split; [done|].
  pose proof (tx_inv_nil_view s a lg Hti Hh) as Heq. destruct ti_rep0 as [Hrep _].
  exists a, (with_outstanding (λ o, s32 (o + 1)) lg), []. split; [by apply tx_inv_out|].
  rewrite (br_phys _ _ _ Hrep), (br_hist _ _ _ Hrep). cbn. rewrite Ho, Hc.
  split_and!; try done. intros bn _. right. by rewrite Heq.
Qed.

(** The commit at the end of a transaction can be cut anywhere. *)
Lemma tx_inv_ready s a lg bl :
  tx_inv s a lg bl → a_held a = ∅ → bl ≠ [] →
  ∃ dl hd, ready me s a lg bl dl hd ∧ length bl = length dl.
Proof.
  intros Hti Hh Hne. pose proof Hti as []. destruct ti_hd0 as (hd & Hhd & Hemp & Hhl).
  destruct ti_sb0 as [Hsb Hsb1].
  assert (∃ dl, Forall2 (λ b d, a_log a !! b = Some d) bl dl) as (dl & Hdl).
  { clear Hne ti_n0 ti_blocks0 ti_nodup0 ti_cap0 ti_dirty0 Hti. induction bl as [|b bl IH]; [by exists []|].
    destruct IH as [dl Hdl]; [intros x Hx; apply ti_home0; set_solver|].
    assert (is_Some (a_log a !! b)) as [d Hd].
    { eapply lview; [done|]. apply ti_home0. set_solver. }
    exists (d :: dl). by constructor. }
  exists dl, hd. split; [|by eapply list.Forall2_length].
  assert (size (a_dirty a) = length bl) as Hsz by (rewrite ti_dirty0; by apply size_list_to_set).
  split; rewrite ?ti_start0, ?ti_size0; try done.
  - split; rewrite ?Hsz, ?ti_size0; unfold in_log; rewrite ?ti_start0, ?ti_size0; try done; try lia.
    + intros b Hb. destruct (ti_home0 b Hb) as [(? & ? & ?) ?]. done.
    + intros b Hb. destruct (ti_area0 b Hb) as (? & ? & ?). split_and!; [done..|].
      rewrite ti_dirty0, elem_of_list_to_set. intros Hbl. by destruct (ti_home0 b Hbl) as [(? & ? & ?) ?].
    + left. intros b Hb. by rewrite ti_dirty0, elem_of_list_to_set.
  - destruct bl; [done|]. simpl. lia.
  - split; [|unfold in_log; by rewrite ti_start0, ti_size0].
    intros H1. destruct (ti_home0 1 H1) as [(_ & ? & _) _]. done.
Qed.

Lemma apply_writes_same ws (m1 m2 : gmap Z bytes) b :
  m1 !! b = m2 !! b → apply_writes ws m1 !! b = apply_writes ws m2 !! b.
Proof.
  revert m1 m2; induction ws as [|[c d] ws IH]; intros m1 m2 H; [done|]. simpl. apply IH.
  destruct (decide (c = b)) as [->|]; [by rewrite !lookup_insert_eq|by rewrite !lookup_insert_ne].
Qed.

Lemma commit_write_fst st hd bl dl w :
  length dl = length bl → w ∈ commit_writes st hd bl dl →
  w.1 ∈ bl ∨ st ≤ w.1 ≤ st + length bl.
Proof.
  intros Hlen. unfold commit_writes. rewrite !elem_of_app, !list_elem_of_singleton.
  intros [Hw|[->|[Hw%zip_fst_elem| ->]]]; cbn; auto; [|right; lia..].
  right. assert (w.1 ∈ (slot_writes st dl).*1) as ?%slot_writes_fst; [|lia].
  apply list_elem_of_fmap. eauto.
Qed.

(** A committed transaction leaves an empty one. *)
Lemma tx_inv_committed s a lg bl dl hd s' :
  tx_inv s a lg bl → a_held a = ∅ → ready me s a lg bl dl hd →
  lrep me s' (put_all (commit_writes start hd bl dl) a) (with_lh (with_n 0) lg) →
  tx_inv s' (put_all (commit_writes start hd bl dl) a) (with_lh (with_n 0) lg) [].
Proof.
  intros Hti Hh Hr Hl. pose proof (rd_hd_len _ _ _ _ _ _ _ Hr) as Hhl.
  pose proof (list.Forall2_length _ _ _ (rd_data _ _ _ _ _ _ _ Hr)) as Hlen. symmetry in Hlen.
  pose proof (rd_txn _ _ _ _ _ _ _ Hr) as Ht. destruct Hti.
  assert (∀ b, is_Some (apply_writes (commit_writes start hd bl dl) (a_phys a) !! b) ↔ is_Some (a_phys a !! b)) as Hdom.
  { intros b. apply apply_writes_dom. intros w Hw. rewrite <- ti_start0 in Hw. by eapply commit_writes_dom. }
  split; cbn [put_all a_held a_phys a_dirty a_log]; try done; try (simpl; lia).
  - apply NoDup_nil_2.
  - rewrite ti_dirty0. apply set_eq. intros b. split; [|set_solver]. intros [Hb Hnb]%elem_of_difference.
    destruct Hnb. rewrite elem_of_list_to_set in *. unfold commit_writes. rewrite !fmap_app, fst_zip by lia. set_solver.
  - intros b Hb. by apply not_elem_of_nil in Hb.
  - intros b Hb. rewrite Hdom. destruct (ti_area0 b Hb) as (? & ? & ?). split_and!; [done..|].
    by apply apply_writes_same.
  - destruct ti_sb0 as [Hsb Hsb1]. split; [|done]. rewrite apply_writes_other; [done|].
    intros (w & Heq & Hw)%list_elem_of_fmap. apply commit_write_fst in Hw as [Hw|Hw]; [| |done].
    + destruct (ti_home0 w.1 Hw) as [(_ & ? & _) _]. done.
    + unfold LOGSIZE in *. lia.
  - exists (hdr_image [] (hdr_image bl hd)). split_and!.
    + unfold commit_writes. rewrite !apply_writes_app. cbn. apply lookup_insert_eq.
    + apply hdr_n_image; [by rewrite length_hdr_image|simpl; lia].
    + by rewrite !length_hdr_image.
Qed.

(** Booting a disk whose log is empty. *)
Lemma boot_clean s a lg me' :
  tx_inv s a lg [] → a_held a = ∅ →
  ∃ r, boot me' (mkDisk (md_size (disk (l_bio s))) (a_phys a) []) = Ok tt r ∧
    ∀ b, ¬ (start ≤ b < start + nlog) → blocks r !! b = a_phys a !! b.
Proof.
  intros Hti Hh. destruct Hti. destruct ti_sb0 as [Hsb Hsb1]. destruct ti_hd0 as (hd & Hhd & Hemp & Hhl).
  destruct (boot_spec me' (mkDisk (md_size (disk (l_bio s))) (a_phys a) []) start nlog hd [] [])
    as (r & lg' & R & Hl & _).
  - intros b. apply (br_dom _ _ _ (proj1 ti_rep0)).
  - apply disk_log_none; try done; [unfold LOGSIZE in *; lia|].
    intros b Hb. by destruct (ti_area0 b Hb) as (? & ? & _).
  - exists r. split; [exact R|]. clear R. intros b Hb. rewrite (br_phys _ _ _ (proj1 Hl)). cbn.
    rewrite lookup_insert_ne; [done|]. intros <-. unfold LOGSIZE in *. lia.
Qed.

Definition survives (s : lst) (ws : list (Z * bytes)) (base view : gmap Z bytes) : Prop :=
  ∀ k, ∃ r, boot me (mkDisk (md_size (disk (l_bio s))) (apply_writes (take k ws) base) []) = Ok tt r ∧
    ((∀ b, ¬ (start ≤ b < start + nlog) → blocks r !! b = base !! b) ∨
     (∀ b, ¬ (start ≤ b < start + nlog) → blocks r !! b = view !! b)).

Lemma tx_inv_flag s a lg bl c : tx_inv s a lg bl → tx_inv (set_log (with_committing c) s) a (with_committing c lg) bl.
Proof. intros []. split; try done. by apply set_log_rep. Qed.

(** The commit of an open transaction, whatever it logged. *)
Lemma commit_tx s a lg bl :
  tx_inv s a lg bl → a_held a = ∅ →
  ∃ s' a' ws, commit me s = Ok tt s' ∧
    tx_inv s' a' (with_lh (with_n 0) lg) [] ∧ a_held a' = ∅ ∧ a_hist a' = a_hist a ++ ws ∧
    (∀ b, ¬ (start ≤ b < start + nlog) → a_phys a' !! b = a_log a !! b) ∧
    survives s ws (a_phys a) (a_log a).
Proof.
  intros Hti Hh. destruct (decide (bl = [])) as [->|Hne].
  - pose proof (tx_inv_nil_view s a lg Hti Hh) as Heq. exists s, a, []. unfold commit.
    rewrite bind_gets, (proj2 (ti_rep _ _ _ _ _ _ _ Hti)), (ti_n _ _ _ _ _ _ _ Hti). eval_ifs.
    replace (with_lh (with_n 0) lg) with lg.
    2:{ pose proof (ti_n _ _ _ _ _ _ _ Hti) as Hn. destruct lg as [? ? ? ? ? [n l]]; cbn in *. by subst n. }
    rewrite app_nil_r, Heq. split_and!; try done. intros k. rewrite take_nil.
    destruct (boot_clean s a lg me Hti Hh) as (r & R & Hb). exists r. split; [exact R|]. by left.
  - destruct (tx_inv_ready s a lg bl Hti Hh Hne) as (dl & hd & Hr & Hlen).
    destruct (commit_crash me me s a lg bl dl hd Hr) as (s' & R & Hl & Hcrash).
    pose proof (ti_start _ _ _ _ _ _ _ Hti) as Hst. pose proof (ti_size _ _ _ _ _ _ _ Hti) as Hsz.
    unfold in_log in Hcrash. rewrite Hst, Hsz in *.
    exists s', (put_all (commit_writes start hd bl dl) a), (commit_writes start hd bl dl).
    split; [exact R|]. clear R. split; [by eapply tx_inv_committed|]. split_and!; try done.
    + intros b Hb. cbn [put_all a_phys].
      pose proof (crash_contents me s a lg bl dl hd (2 * length bl + 2) b Hr) as Hc.
      unfold in_log in Hc. rewrite Hst, Hsz in Hc. specialize (Hc Hb). cbn zeta in Hc.
      rewrite take_commit in Hc by done.
      by rewrite !(proj2 (Nat.leb_gt _ _)) in Hc by lia.
    + intros k. destruct (Hcrash k) as (r & R & Hb & _). exists r. split; [exact R|]. clear R.
      destruct (k <=? length bl)%nat; [left|right]; exact Hb.
Qed.

(** end_op by the last system call: the transaction is committed. *)
Lemma end_op_spec base hist s t :
  layer_rep 1 base hist s t → t_held t = ∅ →
  ∃ s' ws, end_op me s = Ok tt s' ∧ quiescent s' ∧ history s' = hist ++ ws ∧
    (∀ b, ¬ (start ≤ b < start + nlog) → blocks s' !! b = t_view t !! b) ∧
    survives s ws base (t_view t).
Proof.
  intros (a & lg & bl & Hti & (Hc & Ho & _ & <- & <-) & -> & Hh & _ & _) Hh0.
  rewrite Hh in Hh0. unfold end_op. rewrite bind_modify, bind_gets. cbn [set_log l_log].
  rewrite (proj2 (ti_rep _ _ _ _ _ _ _ Hti)).
  cbn [with_outstanding lg_committing lg_outstanding]. rewrite Hc, Ho.
  change (s32 (1 - 1) =? 0) with true. cbn [truthy negb Z.eqb]. rewrite bind_modify.
  apply (tx_inv_out _ _ _ _ (λ o, s32 (o - 1))), (tx_inv_flag _ _ _ _ 1) in Hti.
  set (s1 := set_log (with_committing 1) _) in *.
  destruct (commit_tx s1 a _ bl Hti Hh0) as (s2 & a2 & ws & R & Hti2 & Hh2 & Hhist & Hphys & Hsurv).
  mstep R. clear R. apply (tx_inv_flag _ _ _ _ 0) in Hti2.
  eexists _, ws. split; [reflexivity|]. destruct (proj1 (ti_rep _ _ _ _ _ _ _ Hti2)).
  split; [|split; [|split]].
  - eexists a2, _. split; [exact Hti2|]. split_and!; try done. cbn. by rewrite Ho.
  - by rewrite br_hist, Hhist.
  - intros b Hb. rewrite br_phys. by apply Hphys.
  - exact Hsurv.
Qed.

(** Recovery ends in a quiescent state. *)
Lemma boot_quiescent d hd bl dl :
  disk_wf d → disk_log (md_blocks d) start nlog hd bl dl → length hd = BSIZE → LOGSIZE ≤ nlog →
  (1 ∉ bl) ∧ ¬ (start ≤ 1 < start + nlog) →
  ∃ s, boot me d = Ok tt s ∧ quiescent s ∧
    blocks s = apply_writes (recovery_writes start hd bl dl) (md_blocks d).
Proof.
  intros Hwf Hd Hhl Hnl Hsb.
  destruct (boot_spec me d _ _ _ _ _ Hwf Hd) as (s & lg & R & Hl & E1 & E2 & E3 & E4 & E5 & E6 & E7).
  exists s. split; [exact R|]. clear R. split; [|apply (br_phys _ _ _ (proj1 Hl))].
  exists (put_all (recovery_writes start hd bl dl) (empty_cache d)), lg. split_and!; try done.
  assert (∀ b, is_Some (apply_writes (recovery_writes start hd bl dl) (md_blocks d) !! b) ↔ is_Some (md_blocks d !! b)) as Hdom.
  { intros b. apply apply_writes_dom. intros w [Hw| ->]%recovery_write_cases.
    - by apply (dl_home _ _ _ _ _ _ Hd). - apply (dl_area _ _ _ _ _ _ Hd). unfold LOGSIZE in *. cbn. lia. }
  split; cbn [put_all a_phys a_log a_dirty empty_cache]; try done; try (unfold LOGSIZE in *; simpl; lia).
  - apply NoDup_nil_2.
  - set_solver.
  - intros b Hb. by apply not_elem_of_nil in Hb.
  - intros b Hb. rewrite Hdom. by destruct (dl_area _ _ _ _ _ _ Hd b Hb).
  - split; [|apply Hsb]. rewrite apply_writes_other; [apply Hd|].
    intros (w & Heq & Hw)%list_elem_of_fmap. destruct Hsb as [Hs1 Hs2].
    apply recovery_write_cases in Hw as [Hw| ->]; cbn in Heq; [congruence|unfold LOGSIZE in *; lia].
  - exists (hdr_image [] hd). split_and!.
    + unfold recovery_writes. rewrite apply_writes_app. cbn. apply lookup_insert_eq.
    + apply hdr_n_image; [done|simpl; lia].
    + by rewrite length_hdr_image.
Qed.

Lemma same_size s1 s2 a1 a2 lg1 lg2 bl1 bl2 :
  tx_inv s1 a1 lg1 bl1 → tx_inv s2 a2 lg2 bl2 → a_phys a1 = a_phys a2 →
  md_size (disk (l_bio s1)) = md_size (disk (l_bio s2)).
Proof.
  intros H1 H2 Hp. pose proof (br_dom _ _ _ (proj1 (ti_rep _ _ _ _ _ _ _ H1))) as D1.
  pose proof (br_dom _ _ _ (proj1 (ti_rep _ _ _ _ _ _ _ H2))) as D2. rewrite Hp in D1.
  assert (0 ≤ start < md_size (disk (l_bio s2))) as Hs.
  { apply D2. destruct (ti_area _ _ _ _ _ _ _ H2 start) as (_ & ? & _); [|done].
    pose proof (ti_fit _ _ _ _ _ _ _ H2). unfold LOGSIZE in *. lia. }
  assert (∀ b, 0 ≤ b < md_size (disk (l_bio s1)) ↔ 0 ≤ b < md_size (disk (l_bio s2))) as Heq.
  { intros b. by rewrite D1, D2. }
  pose proof (Heq start). pose proof (Heq (md_size (disk (l_bio s1)))).
  pose proof (Heq (md_size (disk (l_bio s2)))). lia.
Qed.

(** A file-system call: begin_op, its body, end_op. *)
Definition transaction {A} (body : M lst A) : M lst A :=
  do! begin_op in
  let! x := body in
  do! end_op me in
  ret x.

(** C1: file-system calls are atomic across power failures.  [body] is any
    operation that works inside an open transaction and ends without locked
    buffers.  Run between begin_op and end_op from a quiescent state it
    returns, the disk then shows exactly the transaction's final view, and
    for every prefix of the block writes [ws] that reached the disk, booting
    (binit, initlog with recovery) succeeds and shows outside the log either
    the disk from before the call or the final view, nothing in between. *)
Theorem transaction_atomic {A} (body : M lst A) (Q : A → gmap Z bytes → Prop) s :
  quiescent s →
  (∀ s1, layer_rep 1 (blocks s) (history s) s1 (fresh_tx (blocks s)) →
     ∃ x s2 t, body s1 = Ok x s2 ∧ layer_rep 1 (blocks s) (history s) s2 t ∧ t_held t = ∅ ∧ Q x (t_view t)) →
  ∃ x s' view ws, transaction body s = Ok x s' ∧ quiescent s' ∧ Q x view ∧
    history s' = history s ++ ws ∧
    (∀ b, ¬ (start ≤ b < start + nlog) → blocks s' !! b = view !! b) ∧
    survives s ws (blocks s) view.
Proof.
  intros Hq Hbody. destruct (begin_op_spec s Hq) as (s1 & R1 & _ & Hl1).
  destruct (Hbody s1 Hl1) as (x & s2 & t & R2 & Hl2 & Hh & HQ).
  destruct (end_op_spec _ _ s2 t Hl2 Hh) as (s3 & ws & R3 & Hq3 & Hhist & Hblk & Hsurv).
  exists x, s3, (t_view t), ws. unfold transaction. mstep R1. mstep R2. mstep R3. clear R1 R2 R3.
  split; [reflexivity|]. split; [done|]. split; [done|]. split; [done|]. split; [done|]. 
  assert (md_size (disk (l_bio s)) = md_size (disk (l_bio s2))) as Hsz.
  { destruct Hq as (a & lg & Hti & _). destruct Hl2 as (a2 & lg2 & bl2 & Hti2 & (_ & _ & _ & Hp & _) & _).
    eapply same_size; [exact Hti|exact Hti2|].
    rewrite Hp. symmetry. apply (br_phys _ _ _ (proj1 (ti_rep _ _ _ _ _ _ _ Hti))). }
  unfold survives. rewrite Hsz. exact Hsurv.
Qed.
End op.

(** ** A transaction on the small disk: overwrite block 35 *)

Definition demo_disk : mdisk := mkDisk 40 demo_blocks [].

Lemma demo_quiescent : ∃ s, boot 7 demo_disk = Ok tt s ∧ quiescent 7 2 30 s ∧
  blocks s !! 35 = Some zero_block.
Proof.
  destruct (boot_quiescent 7 2 30 demo_disk zero_block [] []) as (s & R & Hq & Hb).
  - intros b. symmetry. apply demo_blocks_dom.
  - apply disk_log_none; [apply demo_sb_ok|lia| | |].
    + intros b Hb. rewrite demo_blocks_dom. unfold is_s32. lia.
    + apply demo_blocks_zero; lia.
    + vm_compute. reflexivity.
  - apply length_replicate.
  - done.
  - split; [apply not_elem_of_nil|lia].
  - exists s. split; [exact R|]. clear R. split; [exact Hq|]. rewrite Hb. cbn.
    rewrite lookup_insert_ne by done. apply demo_blocks_zero; lia.
Qed.

(** bread; fill the data with 9s; log_write; brelse. *)
Definition demo_body : M lst unit :=
  update_block (BL := log_layer 7 2 30 1 ∅ []) 1 35 (λ _, replicate BSIZE 9).

Lemma transaction_atomic_witness :
  ∃ s s' view ws, boot 7 demo_disk = Ok tt s ∧ transaction 7 demo_body s = Ok tt s' ∧
    view !! 35 = Some (replicate BSIZE 9) ∧
    blocks s' !! 35 = Some (replicate BSIZE 9) ∧
    survives 7 2 30 s ws (blocks s) view.
Proof.
  destruct demo_quiescent as (s & R & Hq & H35).
  destruct (transaction_atomic 7 2 30 demo_body (λ _ v, v !! 35 = Some (replicate BSIZE 9)) s Hq)
    as ([] & s' & view & ws & R' & _ & HQ & _ & Hb & Hs).
  - intros s1 Hl.
    destruct (@update_block_ok lst (log_layer 7 2 30 1 (blocks s) (history s)) s1 (fresh_tx (blocks s)) 35
                (λ _, replicate BSIZE 9) zero_block) as (s2 & R2 & Hl2).
    + exact Hl.
    + exact H35.
    + done.
    + right. cbn. rewrite dom_empty_L, union_empty_l_L, size_empty. unfold NBUF. lia.
    + split; [lia|]. split; [lia|]. unfold is_s32. lia.
    + cbn. rewrite size_empty. unfold LOGSIZE. lia.
    + exists tt, s2, (t_put 35 (replicate BSIZE 9) (fresh_tx (blocks s))).
      split; [exact R2|]. split; [exact Hl2|]. split; [done|]. apply lookup_insert_eq.
  - exists s, s', view, ws. split; [exact R|]. split; [exact R'|]. split; [exact HQ|].
    split; [|exact Hs]. rewrite Hb by lia. exact HQ.
Defined.
