(* ===== verification/Fs.v ===== *)
(** * The file system: fs.c

    Block allocator, inodes, file contents, directories and path names, over
    the [BlockLayer] interface.  The state is the layer's, the in-memory
    superblock and the inode cache [icache.inode[NINODE]]; a [struct inode *]
    is an index into the cache, the null pointer any index outside it.
    icache.lock makes the updates of [ref], [dev] and [inum] atomic.  A call
    that has to wait for an inode's sleep lock results in [Sleeping].  Device
    files go through the [devsw] table, an argument of the functions. *)
From S2P Require Import Prelude Str Sleeplock Memide Log BlockLayer.

Definition NINODE : nat := 50.
Definition NDIRECT : nat := 12.
Definition NINDIRECT : nat := 128.
Definition MAXFILE : Z := 140.
Definition ROOTDEV : Z := 1.
Definition ROOTINO : Z := 1.
Definition BPB : Z := 4096.
Definition IPB : Z := 8.
Definition DIRSIZ : nat := 14.
Definition NDEV : Z := 10.
Definition T_DIR : Z := 1.
Definition T_FILE : Z := 2.
Definition T_DEV : Z := 3.

(** [struct inode] *)
Record inode := mkInode {
  i_dev : Z; i_inum : Z; i_ref : Z; i_lock : sleeplock; i_valid : Z;
  i_type : Z; i_major : Z; i_minor : Z; i_nlink : Z; i_size : Z; i_addrs : list Z }.

(** The fields that live on disk: [struct dinode]. *)
Record dinode := mkDinode {
  di_type : Z; di_major : Z; di_minor : Z; di_nlink : Z; di_size : Z; di_addrs : list Z }.

Definition with_ref (f : Z → Z) (x : inode) : inode :=
  mkInode (i_dev x) (i_inum x) (f (i_ref x)) (i_lock x) (i_valid x) (i_type x) (i_major x) (i_minor x)
    (i_nlink x) (i_size x) (i_addrs x).
Definition with_ilock (l : sleeplock) (x : inode) : inode :=
  mkInode (i_dev x) (i_inum x) (i_ref x) l (i_valid x) (i_type x) (i_major x) (i_minor x)
    (i_nlink x) (i_size x) (i_addrs x).
Definition with_valid (v : Z) (x : inode) : inode :=
  mkInode (i_dev x) (i_inum x) (i_ref x) (i_lock x) v (i_type x) (i_major x) (i_minor x)
    (i_nlink x) (i_size x) (i_addrs x).
Definition with_disk (d : dinode) (x : inode) : inode :=
  mkInode (i_dev x) (i_inum x) (i_ref x) (i_lock x) (i_valid x) (di_type d) (di_major d) (di_minor d)
    (di_nlink d) (di_size d) (di_addrs d).
Definition with_addr (k : nat) (a : Z) (x : inode) : inode :=
  mkInode (i_dev x) (i_inum x) (i_ref x) (i_lock x) (i_valid x) (i_type x) (i_major x) (i_minor x)
    (i_nlink x) (i_size x) (<[k := a]> (i_addrs x)).
Definition with_size (n : Z) (x : inode) : inode :=
  mkInode (i_dev x) (i_inum x) (i_ref x) (i_lock x) (i_valid x) (i_type x) (i_major x) (i_minor x)
    (i_nlink x) n (i_addrs x).
Definition with_type (t : Z) (x : inode) : inode :=
  mkInode (i_dev x) (i_inum x) (i_ref x) (i_lock x) (i_valid x) t (i_major x) (i_minor x)
    (i_nlink x) (i_size x) (i_addrs x).

(** Inode [j] of an inode block: 64 bytes at [64 * j]. *)
Definition dinode_off (inum : Z) : nat := 64 * Z.to_nat (inum `mod` IPB).

Definition decode_dinode (d : bytes) (off : nat) : dinode :=
  mkDinode (s16 (rd16 d off)) (s16 (rd16 d (off + 2))) (s16 (rd16 d (off + 4))) (s16 (rd16 d (off + 6)))
    (rd32 d (off + 8)) ((λ k, rd32 d (off + 12 + 4 * k)) <$> seq 0 (S NDIRECT)).

Definition encode_dinode (x : dinode) : bytes :=
  le_bytes 2 (di_type x) ++ le_bytes 2 (di_major x) ++ le_bytes 2 (di_minor x) ++ le_bytes 2 (di_nlink x) ++
  le_bytes 4 (di_size x) ++ concat (le_bytes 4 <$> di_addrs x).

Definition dinode_of (x : inode) : dinode :=
  mkDinode (i_type x) (i_major x) (i_minor x) (i_nlink x) (i_size x) (i_addrs x).

(** ** Free-map bits *)

Definition bit_mask (bi : Z) : Z := Z.shiftl 1 (bi `mod` 8).
Definition byte_at (d : bytes) (bi : Z) : Z := nth (Z.to_nat (bi / 8)) d 0.
Definition bit_clear (d : bytes) (bi : Z) : bool := Z.land (byte_at d bi) (bit_mask bi) =? 0.
Definition set_bit (d : bytes) (bi : Z) : bytes :=
  <[Z.to_nat (bi / 8) := u8 (Z.lor (byte_at d bi) (bit_mask bi))]> d.
Definition clear_bit (d : bytes) (bi : Z) : bytes :=
  <[Z.to_nat (bi / 8) := u8 (Z.land (byte_at d bi) (Z.lnot (bit_mask bi)))]> d.

Definition BBLOCK (b : Z) (sb : superblock) : Z := u32 (b / BPB + sb_bmapstart sb).
Definition IBLOCK (i : Z) (sb : superblock) : Z := u32 (i / IPB + sb_inodestart sb).

(** ** Path elements *)

(** [skipelem]: [name] is the caller's [char name[DIRSIZ]]. *)
Fixpoint skip_slashes (path : list Z) : list Z :=
  match path with c :: p => if c =? 47 then skip_slashes p else path | [] => [] end.

(** Split at the first slash or NUL. *)
Fixpoint take_elem (path : list Z) : list Z * list Z :=
  match path with
  | c :: p => if (c =? 47) || (c =? 0) then ([], path) else let '(e, r) := take_elem p in (c :: e, r)
  | [] => ([], [])
  end.

Definition at_end (path : list Z) : bool := match path with [] => true | c :: _ => c =? 0 end.

Definition skipelem (path name : list Z) : option (list Z * list Z) :=
  let path := skip_slashes path in
  if at_end path then None else
  let '(s, path) := take_elem path in
  let name := if (DIRSIZ <=? length s)%nat then list_inserts 0 (take DIRSIZ s) name
              else list_inserts 0 (s ++ [0]) name in
  Some (skip_slashes path, name).

Definition namecmp (s t : list Z) : Z := strncmp (cstr s) (cstr t) DIRSIZ.

Record stat := mkStat { st_type : Z; st_dev : Z; st_ino : Z; st_nlink : Z; st_size : Z }.

Record fsst (S : Type) := mkFsst { f_blk : S; f_sb : superblock; f_inode : list inode }.
Arguments mkFsst {S}.
Arguments f_blk {S}.
Arguments f_sb {S}.
Arguments f_inode {S}.

Definition set_blk {S} (b : S) (s : fsst S) : fsst S := mkFsst b (f_sb s) (f_inode s).
Definition set_sb {S} (x : superblock) (s : fsst S) : fsst S := mkFsst (f_blk s) x (f_inode s).
Definition set_inodes {S} (l : list inode) (s : fsst S) : fsst S := mkFsst (f_blk s) (f_sb s) l.

(** A device's functions: [read] gets the inode and a length, and returns the
    result and the bytes stored at [dst]. *)
Record devfuns (S : Type) := mkDev {
  dv_read : option (nat → Z → M (fsst S) (Z * bytes));
  dv_write : option (nat → bytes → Z → M (fsst S) Z) }.
Arguments dv_read {S}.
Arguments dv_write {S}.

Section code.
Context {S : Type} {BL : BlockLayer S}.
(** The calling process and the device table. *)
Context (me : Z) (devsw : Z → devfuns S).

Abbreviation F A := (M (fsst S) A).

Definition onl {A} (m : M S A) : F A := zoom f_blk set_blk m.
Definition fbread (dev bn : Z) : F nat := onl (bl_bread dev bn).
Definition fdata (b : nat) : F bytes := onl (bl_data b).
Definition fstore (b : nat) (d : bytes) : F unit := onl (bl_store b d).
Definition flog_write (b : nat) : F unit := onl (bl_log_write b).
Definition fbrelse (b : nat) : F unit := onl (bl_brelse b).

(** Access through an inode pointer. *)
Definition geti (ip : nat) : F inode := λ s,
  match f_inode s !! ip with Some x => Ok x s | None => Panic "page fault" end.
Definition modi (f : inode → inode) (ip : nat) : F unit := λ s,
  match f_inode s !! ip with
  | Some x => Ok tt (set_inodes (<[ip := f x]> (f_inode s)) s)
  | None => Panic "page fault"
  end.
Definition on_ilock {A} (ip : nat) (m : M sleeplock A) : F A := λ s,
  match f_inode s !! ip with
  | Some x => zoom (λ _, i_lock x) (λ l s, set_inodes (<[ip := with_ilock l x]> (f_inode s)) s) m s
  | None => Panic "page fault"
  end.

(** ** Blocks *)

(** [readsb(dev, &sb)] on the global superblock. *)
Definition fs_readsb (dev : Z) : F unit :=
  let! bp := fbread dev 1 in
  let! d := fdata bp in
  do! modify (set_sb (decode_sb d)) in
  fbrelse bp.

Definition bzero (dev bno : Z) : F unit :=
  let! bp := fbread dev bno in
  do! fstore bp (replicate BSIZE 0) in
  do! flog_write bp in
  fbrelse bp.

(** One bitmap block of [balloc]: blocks [b, b + BPB). *)
Definition balloc_in (dev b : Z) : F (option Z) :=
  let! sb := gets f_sb in
  let! bp := fbread dev (BBLOCK b sb) in
  let! d := fdata bp in
  match find (λ bi, bit_clear d (Z.of_nat bi)) (seq 0 (Z.to_nat (Z.min BPB (sb_size sb - b)))) with
  | Some bi =>
      do! fstore bp (set_bit d bi) in
      do! flog_write bp in
      do! fbrelse bp in
      do! bzero dev (b + bi) in
      ret (Some (b + bi))
  | None =>
      do! fbrelse bp in
      ret None
  end.

Definition balloc (dev : Z) : F Z :=
  let! sb := gets f_sb in
  let! r := first_some (seq 0 (Z.to_nat ((sb_size sb + BPB - 1) / BPB))) (λ k, balloc_in dev (k * BPB)) in
  match r with
  | Some b => ret b
  | None => panic "balloc: out of blocks"
  end.

Definition bfree (dev b : Z) : F unit :=
  do! fs_readsb dev in
  let! sb := gets f_sb in
  let! bp := fbread dev (BBLOCK b sb) in
  let bi := b `mod` BPB in
  let! d := fdata bp in
  if bit_clear d bi then panic "freeing free block" else
  do! fstore bp (clear_bit d bi) in
  do! flog_write bp in
  fbrelse bp.

(** ** Inodes *)

Definition iinit (dev : Z) : F unit :=
  do! for_each (seq 0 NINODE) (λ i, modi (with_ilock initsleeplock) i) in
  fs_readsb dev.

(** The scan of [iget]: the entry that caches the inode, else the first free one. *)
Fixpoint iget_scan (dev inum : Z) (l : list inode) (i : nat) (empty : option nat) : option nat * option nat :=
  match l with
  | [] => (None, empty)
  | x :: l =>
      if (0 <? i_ref x) && (i_dev x =? dev) && (i_inum x =? inum) then (Some i, empty) else
      iget_scan dev inum l (Datatypes.S i)
        (match empty with None => if i_ref x =? 0 then Some i else None | Some e => Some e end)
  end.

Definition iget (dev inum : Z) : F nat :=
  let! l := gets f_inode in
  match iget_scan dev inum l 0 None with
  | (Some ip, _) =>
      do! modi (with_ref (λ r, s32 (r + 1))) ip in
      ret ip
  | (None, None) => panic "iget: no inodes"
  | (None, Some ip) =>
      do! modi (λ x, mkInode dev inum 1 (i_lock x) 0 (i_type x) (i_major x) (i_minor x)
                       (i_nlink x) (i_size x) (i_addrs x)) ip in
      ret ip
  end.

Definition ialloc_at (dev type inum : Z) : F (option nat) :=
  let! sb := gets f_sb in
  let! bp := fbread dev (IBLOCK inum sb) in
  let! d := fdata bp in
  if di_type (decode_dinode d (dinode_off inum)) =? 0 then
    do! fstore bp (list_inserts (dinode_off inum)
                     (encode_dinode (mkDinode type 0 0 0 0 (replicate (Datatypes.S NDIRECT) 0))) d) in
    do! flog_write bp in
    do! fbrelse bp in
    let! ip := iget dev inum in
    ret (Some ip)
  else
    do! fbrelse bp in
    ret None.

Definition ialloc (dev type : Z) : F nat :=
  let! sb := gets f_sb in
  let! r := first_some (seq 1 (Z.to_nat (sb_ninodes sb) - 1)) (λ inum, ialloc_at dev type inum) in
  match r with
  | Some ip => ret ip
  | None => panic "ialloc: no inodes"
  end.

Definition iupdate (ip : nat) : F unit :=
  let! x := geti ip in
  let! sb := gets f_sb in
  let! bp := fbread (i_dev x) (IBLOCK (i_inum x) sb) in
  let! d := fdata bp in
  do! fstore bp (list_inserts (dinode_off (i_inum x)) (encode_dinode (dinode_of x)) d) in
  do! flog_write bp in
  fbrelse bp.

Definition idup (ip : nat) : F nat :=
  do! modi (with_ref (λ r, s32 (r + 1))) ip in
  ret ip.

Definition ilock (ip : nat) : F unit :=
  let! l := gets f_inode in
  match l !! ip with
  | None => panic "ilock"
  | Some x =>
      if i_ref x <? 1 then panic "ilock" else
      do! on_ilock ip (acquiresleep me (Chan "inode" ip)) in
      let! x := geti ip in
      if i_valid x =? 0 then
        let! sb := gets f_sb in
        let! bp := fbread (i_dev x) (IBLOCK (i_inum x) sb) in
        let! d := fdata bp in
        let dip := decode_dinode d (dinode_off (i_inum x)) in
        do! modi (with_disk dip) ip in
        do! fbrelse bp in
        do! modi (with_valid 1) ip in
        if di_type dip =? 0 then panic "ilock: no type" else ret tt
      else ret tt
  end.

Definition iunlock (ip : nat) : F unit :=
  let! l := gets f_inode in
  match l !! ip with
  | None => panic "iunlock"
  | Some x =>
      if negb (holdingsleep me (i_lock x)) || (i_ref x <? 1) then panic "iunlock" else
      on_ilock ip releasesleep
  end.

(** ** Contents *)

(** [bmap]: the disk block of block [bn] of the file, allocated if absent. *)
Definition bmap (ip : nat) (bn : Z) : F Z :=
  let! x := geti ip in
  if bn <? NDIRECT then
    let addr := nth (Z.to_nat bn) (i_addrs x) 0 in
    if addr =? 0 then
      let! addr := balloc (i_dev x) in
      do! modi (with_addr (Z.to_nat bn) addr) ip in
      ret addr
    else ret addr
  else
  let bn := bn - NDIRECT in
  if bn <? NINDIRECT then
    let addr := nth NDIRECT (i_addrs x) 0 in
    let! addr := (if addr =? 0 then
                    let! addr := balloc (i_dev x) in
                    do! modi (with_addr NDIRECT addr) ip in
                    ret addr
                  else ret addr) in
    let! bp := fbread (i_dev x) addr in
    let! a := fdata bp in
    let addr := rd32 a (4 * Z.to_nat bn) in
    let! addr := (if addr =? 0 then
                    let! addr := balloc (i_dev x) in
                    do! fstore bp (wr32 a (4 * Z.to_nat bn) addr) in
                    do! flog_write bp in
                    ret addr
                  else ret addr) in
    do! fbrelse bp in
    ret addr
  else panic "bmap: out of range".

Definition itrunc (ip : nat) : F unit :=
  do! for_each (seq 0 NDIRECT) (λ i,
        let! x := geti ip in
        let addr := nth i (i_addrs x) 0 in
        if truthy addr then
          do! bfree (i_dev x) addr in
          modi (with_addr i 0) ip
        else ret tt) in
  let! x := geti ip in
  let addr := nth NDIRECT (i_addrs x) 0 in
  do! (if truthy addr then
         let! bp := fbread (i_dev x) addr in
         let! a := fdata bp in
         do! for_each (seq 0 NINDIRECT) (λ j,
               let aj := rd32 a (4 * j) in
               if truthy aj then bfree (i_dev x) aj else ret tt) in
         do! fbrelse bp in
         do! bfree (i_dev x) addr in
         modi (with_addr NDIRECT 0) ip
       else ret tt) in
  do! modi (with_size 0) ip in
  iupdate ip.

Definition iput (ip : nat) : F unit :=
  do! on_ilock ip (acquiresleep me (Chan "inode" ip)) in
  let! x := geti ip in
  do! (if truthy (i_valid x) && (i_nlink x =? 0) then
         if i_ref x =? 1 then
           do! itrunc ip in
           do! modi (with_type 0) ip in
           do! iupdate ip in
           modi (with_valid 0) ip
         else ret tt
       else ret tt) in
  do! on_ilock ip releasesleep in
  modi (with_ref (λ r, s32 (r - 1))) ip.

Definition iunlockput (ip : nat) : F unit :=
  do! iunlock ip in
  iput ip.

Definition stati (ip : nat) : F stat :=
  let! x := geti ip in
  ret (mkStat (i_type x) (s32 (i_dev x)) (i_inum x) (i_nlink x) (i_size x)).

(** The loop of [readi]: [acc] is what was stored at [dst] so far. *)
Fixpoint readi_loop (ip : nat) (fuel : nat) (tot off n : Z) (acc : bytes) : F bytes :=
  match fuel with
  | O => λ _, Fuel
  | Datatypes.S fuel =>
      if tot <? n then
        let! x := geti ip in
        let! addr := bmap ip (off / BSIZE) in
        let! bp := fbread (i_dev x) addr in
        let m := Z.min (n - tot) (BSIZE - off `mod` BSIZE) in
        let! d := fdata bp in
        let chunk := subarr d (Z.to_nat (off `mod` BSIZE)) (Z.to_nat m) in
        do! fbrelse bp in
        readi_loop ip fuel (tot + m) (off + m) n (acc ++ chunk)
      else ret acc
  end.

Definition io_fuel (n : Z) : nat := Z.to_nat (n / BSIZE) + 3.

(** [readi]: the result and the bytes stored at [dst]. *)
Definition readi (ip : nat) (off n : Z) : F (Z * bytes) :=
  let! x := geti ip in
  if i_type x =? T_DEV then
    if (i_major x <? 0) || (NDEV <=? i_major x) then ret (-1, []) else
    match dv_read (devsw (i_major x)) with
    | None => ret (-1, [])
    | Some read => read ip (s32 n)
    end
  else
  if (i_size x <? off) || (u32 (off + n) <? off) then ret (-1, []) else
  let n := if i_size x <? u32 (off + n) then i_size x - off else n in
  let! dst := readi_loop ip (io_fuel n) 0 off n [] in
  ret (s32 n, dst).

Fixpoint writei_loop (ip : nat) (src : bytes) (fuel : nat) (tot off n : Z) : F Z :=
  match fuel with
  | O => λ _, Fuel
  | Datatypes.S fuel =>
      if tot <? n then
        let! x := geti ip in
        let! addr := bmap ip (off / BSIZE) in
        let! bp := fbread (i_dev x) addr in
        let m := Z.min (n - tot) (BSIZE - off `mod` BSIZE) in
        let! d := fdata bp in
        do! fstore bp (list_inserts (Z.to_nat (off `mod` BSIZE))
                         (subarr src (Z.to_nat tot) (Z.to_nat m)) d) in
        do! flog_write bp in
        do! fbrelse bp in
        writei_loop ip src fuel (tot + m) (off + m) n
      else ret off
  end.

Definition writei (ip : nat) (src : bytes) (off n : Z) : F Z :=
  let! x := geti ip in
  if i_type x =? T_DEV then
    if (i_major x <? 0) || (NDEV <=? i_major x) then ret (-1) else
    match dv_write (devsw (i_major x)) with
    | None => ret (-1)
    | Some write => write ip src (s32 n)
    end
  else
  if (i_size x <? off) || (u32 (off + n) <? off) then ret (-1) else
  if MAXFILE * BSIZE <? u32 (off + n) then ret (-1) else
  let! off := writei_loop ip src (io_fuel n) 0 off n in
  let! x := geti ip in
  do! (if (0 <? n) && (i_size x <? off) then
         do! modi (with_size off) ip in
         iupdate ip
       else ret tt) in
  ret (s32 n).

(** ** Directories *)

(** A directory entry is a 2-byte inode number and DIRSIZ bytes of name. *)
Definition de_inum (de : bytes) : Z := rd16 de 0.
Definition de_name (de : bytes) : bytes := subarr de 2 DIRSIZ.
Definition mk_dirent (inum : Z) (name : bytes) : bytes := le_bytes 2 inum ++ name.

Definition dirent_count (size : Z) : nat := Z.to_nat ((size + 15) / 16).

(** The entry at offset [16 * k], if it is in use and has the given name. *)
Definition lookup_at (dp : nat) (name : list Z) (k : nat) : F (option (Z * Z)) :=
  let! r := readi dp (16 * k) 16 in
  if negb (r.1 =? 16) then panic "dirlookup read" else
  if de_inum r.2 =? 0 then ret None else
  if namecmp name (de_name r.2) =? 0 then ret (Some (de_inum r.2, 16 * Z.of_nat k)) else ret None.

(** [dirlookup]: the inode and the byte offset of its entry. *)
Definition dirlookup (dp : nat) (name : list Z) : F (option (nat * Z)) :=
  let! x := geti dp in
  if negb (i_type x =? T_DIR) then panic "dirlookup not DIR" else
  let! r := first_some (seq 0 (dirent_count (i_size x))) (lookup_at dp name) in
  match r with
  | Some (inum, off) =>
      let! ip := iget (i_dev x) inum in
      ret (Some (ip, off))
  | None => ret None
  end.

Definition free_at (dp : nat) (k : nat) : F (option Z) :=
  let! r := readi dp (16 * k) 16 in
  if negb (r.1 =? 16) then panic "dirlink read" else
  if de_inum r.2 =? 0 then ret (Some (16 * Z.of_nat k)) else ret None.

Definition dirlink (dp : nat) (name : list Z) (inum : Z) : F Z :=
  let! hit := dirlookup dp name in
  match hit with
  | Some (ip, _) =>
      do! iput ip in
      ret (-1)
  | None =>
      let! x := geti dp in
      let! r := first_some (seq 0 (dirent_count (i_size x))) (free_at dp) in
      let off := match r with Some off => off | None => 16 * Z.of_nat (dirent_count (i_size x)) end in
      let de := mk_dirent inum (strncpy (cstr name) DIRSIZ) in
      let! n := writei dp de off 16 in
      if negb (n =? 16) then panic "dirlink" else ret 0
  end.

(** ** Paths *)

(** The loop of [namex]; every turn consumes an element of [path]. *)
Fixpoint namex_loop (fuel : nat) (ip : nat) (path name : list Z) (parent : bool) : F (option (nat * list Z)) :=
  match fuel with
  | O => λ _, Fuel
  | Datatypes.S fuel =>
      match skipelem path name with
      | None =>
          if parent then
            do! iput ip in
            ret None
          else ret (Some (ip, name))
      | Some (path, name) =>
          do! ilock ip in
          let! x := geti ip in
          if negb (i_type x =? T_DIR) then
            do! iunlockput ip in
            ret None
          else if parent && at_end path then
            do! iunlock ip in
            ret (Some (ip, name))
          else
            let! next := dirlookup ip name in
            match next with
            | None =>
                do! iunlockput ip in
                ret None
            | Some (next, _) =>
                do! iunlockput ip in
                namex_loop fuel next path name parent
            end
      end
  end.

Definition namex (cwd : nat) (path name : list Z) (parent : bool) : F (option (nat * list Z)) :=
  let! ip := (match path with
              | c :: _ => if c =? 47 then iget ROOTDEV ROOTINO else idup cwd
              | [] => idup cwd
              end) in
  namex_loop (Datatypes.S (length path)) ip path name parent.

Definition namei (cwd : nat) (path : list Z) : F (option nat) :=
  let! r := namex cwd path (replicate DIRSIZ 0) false in
  ret (fst <$> r).

Definition nameiparent (cwd : nat) (path name : list Z) : F (option (nat * list Z)) :=
  namex cwd path name true.
End code.

(** ** Path names *)

(** The elements of a path: the maximal runs of characters other than '/'. *)
Fixpoint split_slash (l : list Z) : list (list Z) :=
  match l with
  | [] => [[]]
  | c :: l =>
      if c =? 47 then [] :: split_slash l
      else match split_slash l with
           | w :: ws => (c :: w) :: ws
           | [] => [[c]]
           end
  end.
Definition path_elems (l : list Z) : list (list Z) := filter (λ w, w ≠ []) (split_slash l).

Section paths.
Implicit Types path e r name : list Z.

Lemma split_slash_cons l : ∃ w ws, split_slash l = w :: ws.
Proof.
  induction l as [|c l (w & ws & IH)]; simpl; [by eexists _, _|].
  destruct (c =? 47); [by eexists _, _|]. rewrite IH. by eexists _, _.
Qed.

Lemma path_elems_slash l : path_elems (47 :: l) = path_elems l.
Proof. unfold path_elems. simpl. by rewrite filter_cons_False by naive_solver. Qed.

Lemma path_elems_skip l : path_elems (skip_slashes l) = path_elems l.
Proof.
  induction l as [|c l IH]; [done|]. simpl. destruct (Z.eqb_spec c 47) as [->|]; [|done].
  by rewrite path_elems_slash.
Qed.

Lemma split_slash_app e r :
  47 ∉ e → ∃ w ws, split_slash r = w :: ws ∧ split_slash (e ++ r) = (e ++ w) :: ws.
Proof.
  induction e as [|c e IH]; intros He; simpl.
  - destruct (split_slash_cons r) as (w & ws & H). by exists w, ws.
  - destruct IH as (w & ws & H1 & H2); [set_solver|]. exists w, ws. split; [done|].
    destruct (Z.eqb_spec c 47) as [->|]; [set_solver|]. by rewrite H2.
Qed.

Lemma path_elems_app e r :
  47 ∉ e → e ≠ [] → (r = [] ∨ ∃ r', r = 47 :: r') → path_elems (e ++ r) = e :: path_elems r.
Proof.
  intros He Hne Hr. destruct (split_slash_app e r He) as (w & ws & H1 & H2).
  unfold path_elems. rewrite H2, H1.
  assert (w = []) as ->. { destruct Hr as [->|[r' ->]]; simpl in H1; by injection H1. }
  rewrite app_nil_r, filter_cons_True by done. by rewrite filter_cons_False by naive_solver.
Qed.

Lemma take_elem_spec l e r :
  take_elem l = (e, r) → 0 ∉ l →
  l = e ++ r ∧ (47 ∉ e) ∧ (r = [] ∨ ∃ r', r = 47 :: r').
Proof.
  revert e r; induction l as [|c l IH]; intros e r; simpl.
  - intros [= <- <-] _. split_and!; [done|set_solver|by left].
  - intros H Hz. assert (c ≠ 0) as Hc by set_solver.
    destruct (Z.eqb_spec c 47) as [->|Hc47]; simpl in H.
    + injection H as <- <-. split_and!; [done|set_solver|right; eauto].
    + destruct (Z.eqb_spec c 0); [done|].
      destruct (take_elem l) as [e' r'] eqn:E. injection H as <- <-.
      destruct (IH e' r' eq_refl) as (-> & He & Hr); [set_solver|]. split_and!; [done|set_solver|done].
Qed.

Lemma skip_slashes_head l : 0 ∉ l → at_end (skip_slashes l) = true ↔ path_elems l = [].
Proof.
  intros Hz. rewrite <- path_elems_skip. assert (0 ∉ skip_slashes l) as Hz'.
  { induction l as [|c l IH]; [done|]. simpl. destruct (c =? 47); [apply IH; set_solver|done]. }
  assert (∀ r, skip_slashes l ≠ 47 :: r) as Hn.
  { clear. induction l as [|c l IH]; [done|]. simpl. destruct (Z.eqb_spec c 47); [done|congruence]. }
  destruct (skip_slashes l) as [|c k]; [done|]. simpl. split.
  - intros ->%Z.eqb_eq. set_solver.
  - unfold path_elems. simpl. destruct (Z.eqb_spec c 47) as [->|]; [by destruct (Hn k)|].
    destruct (split_slash_cons k) as (w & ws & ->). by rewrite filter_cons_True.
Qed.

Lemma cprefix_from_app p l i n :
  (∀ j, (j < length l)%nat → p (i + j)%nat = nth j l 0) → 0 ∉ l → (length l ≤ n)%nat →
  (length l = n ∨ p (i + length l)%nat = 0) → cprefix_from p i n = l.
Proof.
  revert i n; induction l as [|c l IH]; intros i n Hp Hz Hn Hend; simpl in *.
  - destruct n as [|n]; [done|]. simpl. destruct Hend as [|H0]; [done|].
    rewrite Nat.add_0_r in H0. by rewrite H0.
  - destruct n as [|n]; [lia|]. simpl. pose proof (Hp 0%nat ltac:(lia)) as H0. simpl in H0.
    rewrite Nat.add_0_r in H0. rewrite H0.
    rewrite (proj2 (truthy_true c)) by set_solver. f_equal. apply IH; [|set_solver|lia|].
    + intros j Hj. specialize (Hp (Datatypes.S j) ltac:(lia)). simpl in Hp. rewrite <- Hp. f_equal. lia.
    + destruct Hend as [|Hend]; [left; lia|right]. rewrite <- Hend. f_equal. lia.
Qed.

Lemma nth_inserts_lt k l j : (j < length k)%nat → (length k ≤ length l)%nat →
  nth j (list_inserts 0 k l) 0 = nth j k (0 : Z).
Proof.
  intros Hj Hl. rewrite !nth_lookup. rewrite list_lookup_inserts by lia. by rewrite Nat.sub_0_r.
Qed.

(** The name stored by [skipelem], read back as a C string of at most DIRSIZ bytes. *)
Lemma skipelem_name e name :
  0 ∉ e → length name = DIRSIZ →
  let name' := if (DIRSIZ <=? length e)%nat then list_inserts 0 (take DIRSIZ e) name
               else list_inserts 0 (e ++ [0]) name in
  cprefix (cstr name') DIRSIZ = take DIRSIZ e ∧ length name' = DIRSIZ.
Proof.
  intros Hz Hn name'. subst name'. destruct (Nat.leb_spec DIRSIZ (length e)) as [Hle|Hlt];
    (split; [|by rewrite length_inserts]); unfold cprefix; apply cprefix_from_app.
  - intros j Hj. unfold cstr. simpl. apply nth_inserts_lt; [done|]. rewrite length_take. lia.
  - by intros ?%elem_of_prefix.
  - rewrite length_take. lia.
  - left. rewrite length_take. lia.
  - rewrite take_ge by lia. intros j Hj. unfold cstr. simpl.
    rewrite nth_inserts_lt by (rewrite length_app; simpl; lia). by rewrite app_nth1.
  - by rewrite take_ge by lia.
  - rewrite take_ge by lia. lia.
  - rewrite take_ge by lia. right. unfold cstr. simpl.
    rewrite nth_inserts_lt by (rewrite length_app; simpl; lia).
    rewrite app_nth2 by lia. by rewrite Nat.sub_diag.
Qed.
End paths.

(** skipelem splits paths.  It returns null exactly when the path has no
    element left; otherwise the name buffer holds the first element cut to
    DIRSIZ bytes, the returned path has exactly the remaining elements, and it
    is at its end exactly when the element taken was the last one. *)
Lemma skipelem_spec (path name : list Z) :
  (0 ∉ path) → length name = DIRSIZ →
  match skipelem path name with
  | None => path_elems path = []
  | Some (rest, name') =>
      ∃ e es, path_elems path = e :: es ∧ path_elems rest = es ∧
        cprefix (cstr name') DIRSIZ = take DIRSIZ e ∧ length name' = DIRSIZ ∧
        (at_end rest = true ↔ es = []) ∧ (length rest < length path)%nat
  end.
Proof.
  intros Hz Hn. unfold skipelem.
  destruct (at_end (skip_slashes path)) eqn:Hend; [by apply skip_slashes_head|].
  assert (path_elems path ≠ []) as Hne by (rewrite <- skip_slashes_head by done; congruence).
  assert (skip_slashes path `suffix_of` path) as [pre Hpre].
  { clear. induction path as [|c path IH]; [done|]. simpl. destruct (c =? 47); [by apply suffix_cons_r|done]. }
  destruct (take_elem (skip_slashes path)) as [e r] eqn:He.
  apply take_elem_spec in He as (Hs & He & Hr); [|rewrite Hpre in Hz; set_solver].
  assert (e ≠ []) as He0.
  { intros ->. simpl in Hs. destruct Hr as [->|[r' ->]]; [by rewrite Hs in Hend|].
    clear -Hs. revert Hs. induction path as [|c p IH]; simpl; [done|]. destruct (Z.eqb_spec c 47); congruence. }
  assert ((0 ∉ e) ∧ 0 ∉ r) as [Hze Hzr] by (rewrite Hpre, Hs in Hz; set_solver).
  destruct (skipelem_name e name Hze Hn) as [Hname Hlen].
  exists e, (path_elems r). rewrite <- (path_elems_skip path), Hs, path_elems_app by done.
  split_and!; [done|apply path_elems_skip|done|done|by rewrite skip_slashes_head|].
  assert (length (skip_slashes r) ≤ length r)%nat.
  { clear. induction r as [|c r IH]; [done|]. simpl. destruct (c =? 47); simpl; lia. }
  apply (f_equal length) in Hpre. rewrite Hs, !length_app in Hpre. destruct e; [done|]. simpl in *. lia.
Qed.

(** ** On-disk inodes *)

Definition is_s16 (x : Z) : Prop := - 2 ^ 15 ≤ x < 2 ^ 15.

Record dinode_wf (x : dinode) : Prop := {
  dw_type : is_s16 (di_type x); dw_major : is_s16 (di_major x); dw_minor : is_s16 (di_minor x);
  dw_nlink : is_s16 (di_nlink x); dw_size : is_u32 (di_size x);
  dw_len : length (di_addrs x) = S NDIRECT; dw_addrs : Forall is_u32 (di_addrs x) }.

Lemma s16_small x : is_s16 x → s16 (u16 x) = x.
Proof.
  unfold is_s16, s16, u16. intros H. rewrite Z.mod_mod by lia. destruct (decide (0 ≤ x)).
  - rewrite Z.mod_small by lia. destruct (Z.ltb_spec x (2 ^ 15)); lia.
  - rewrite <- (Z.mod_unique_pos x (2 ^ 16) (-1) (x + 2 ^ 16)) by lia.
    destruct (Z.ltb_spec (x + 2 ^ 16) (2 ^ 15)); lia.
Qed.

Lemma length_concat_le l : length (concat (le_bytes 4 <$> l)) = (4 * length l)%nat.
Proof.
  induction l as [|a l IH]; [done|]. change (concat (le_bytes 4 <$> a :: l)) with
    (le_bytes 4 a ++ concat (le_bytes 4 <$> l)). rewrite length_app, IH, length_le_bytes. simpl. lia.
Qed.

Lemma length_encode_dinode x : length (di_addrs x) = S NDIRECT → length (encode_dinode x) = 64%nat.
Proof. intros H. unfold encode_dinode. rewrite !length_app, !length_le_bytes, length_concat_le, H. done. Qed.

(** A field of a structure copied into a block. *)
Lemma subarr_inserts_inside {A} (l k : list A) off i n :
  (off + length k ≤ length l)%nat → (i + n ≤ length k)%nat →
  subarr (list_inserts off k l) (off + i) n = subarr k i n.
Proof.
  intros H1 H2. rewrite <- (subarr_subarr _ off (length k)) by lia. by rewrite subarr_inserts_eq.
Qed.

Lemma subarr_app_r {A} (l k : list A) i n : subarr (l ++ k) (length l + i) n = subarr k i n.
Proof. unfold subarr. by rewrite drop_app_add. Qed.

Lemma subarr_concat_le l k a :
  l !! k = Some a → subarr (concat (le_bytes 4 <$> l)) (4 * k) 4 = le_bytes 4 a.
Proof.
  revert k; induction l as [|b l IH]; intros k Hk; [done|].
  destruct k as [|k]; cbn [fmap list_fmap concat]; cbn in Hk.
  - injection Hk as ->. unfold subarr. rewrite Nat.mul_0_r, drop_0.
    rewrite take_app_le by by rewrite length_le_bytes. apply take_ge. by rewrite length_le_bytes.
  - replace (4 * S k)%nat with (length (le_bytes 4 b) + 4 * k)%nat by (rewrite length_le_bytes; lia).
    rewrite subarr_app_r. by apply IH.
Qed.

(** [decode_dinode] looks at 64 bytes. *)
Lemma decode_dinode_ext d off k :
  (∀ i n, (i + n ≤ 64)%nat → subarr d (off + i) n = subarr k i n) →
  decode_dinode d off = decode_dinode k 0.
Proof.
  intros H. unfold decode_dinode, rd16, rd32. rewrite <- (Nat.add_0_r off) at 1.
  rewrite !H by lia. f_equal. apply list_fmap_ext. intros j k' Hj.
  apply lookup_seq in Hj as [-> Hj]. unfold NDIRECT in Hj.
  rewrite <- Nat.add_assoc, H by lia. done.
Qed.

Lemma decode_dinode_self d off : decode_dinode (subarr d off 64) 0 = decode_dinode d off.
Proof. symmetry. apply decode_dinode_ext. intros i n Hi. by rewrite subarr_subarr. Qed.

Lemma decode_encode x : dinode_wf x → decode_dinode (encode_dinode x) 0 = x.
Proof.
  intros []. destruct x as [t ma mi nl sz addrs].
  cbn [di_type di_major di_minor di_nlink di_size di_addrs] in *. unfold decode_dinode.
  set (head := le_bytes 2 t ++ le_bytes 2 ma ++ le_bytes 2 mi ++ le_bytes 2 nl ++ le_bytes 4 sz).
  assert (encode_dinode (mkDinode t ma mi nl sz addrs) = head ++ concat (le_bytes 4 <$> addrs)) as ->.
  { unfold encode_dinode, head; cbn [di_type di_major di_minor di_nlink di_size di_addrs].
    by rewrite <- !app_assoc. }
  f_equal.
  - etrans; [|by apply s16_small]. f_equal. apply (le_val_le_bytes 2 t).
  - etrans; [|by apply s16_small]. f_equal. apply (le_val_le_bytes 2 ma).
  - etrans; [|by apply s16_small]. f_equal. apply (le_val_le_bytes 2 mi).
  - etrans; [|by apply s16_small]. f_equal. apply (le_val_le_bytes 2 nl).
  - etrans; [|by apply u32_small]. apply (le_val_le_bytes 4 sz).
  - apply list_eq. intros k. rewrite list_lookup_fmap. destruct (decide (k < S NDIRECT)%nat) as [Hk|Hk].
    + assert (seq 0 (S NDIRECT) !! k = Some k) as -> by by apply lookup_seq.
      destruct (lookup_lt_is_Some_2 addrs k) as [a Ha]; [lia|]. rewrite Ha. cbn [fmap option_fmap option_map].
      f_equal. unfold rd32. change (0 + 12 + 4 * k)%nat with (length head + 4 * k)%nat.
      rewrite subarr_app_r, (subarr_concat_le _ _ _ Ha), le_val_le_bytes. apply u32_small.
      by eapply Forall_lookup_1.
    + rewrite !lookup_ge_None_2; [done|lia|]. rewrite length_seq. lia.
Qed.

Lemma dinode_store_eq (d : bytes) x inum : length d = BSIZE → dinode_wf x →
  decode_dinode (list_inserts (dinode_off inum) (encode_dinode x) d) (dinode_off inum) = x.
Proof.
  intros Hd Hx. pose proof (length_encode_dinode x (dw_len _ Hx)) as Hlen.
  pose proof (Z.mod_pos_bound inum IPB ltac:(done)) as Hm.
  etrans; [|apply (decode_encode x Hx)]. apply decode_dinode_ext. intros i n Hi.
  apply subarr_inserts_inside; [|lia].
  rewrite Hlen, Hd. unfold dinode_off, BSIZE, IPB in *. lia.
Qed.

Lemma dinode_store_ne (d : bytes) x inum inum' : dinode_wf x → inum' `mod` IPB ≠ inum `mod` IPB →
  decode_dinode (list_inserts (dinode_off inum) (encode_dinode x) d) (dinode_off inum') =
  decode_dinode d (dinode_off inum').
Proof.
  intros Hx Hne. pose proof (length_encode_dinode x (dw_len _ Hx)) as Hlen.
  pose proof (Z.mod_pos_bound inum IPB ltac:(done)) as Hm.
  pose proof (Z.mod_pos_bound inum' IPB ltac:(done)) as Hm'.
  etrans; [|apply decode_dinode_self]. apply decode_dinode_ext. intros i n Hi.
  rewrite subarr_subarr by done. apply subarr_inserts_ne. rewrite Hlen.
  unfold dinode_off. lia.
Qed.

(** An inode survives the disk.  What iupdate stores in the inode's slot of
    its block is exactly what ilock later reads from it, and the slots of the
    other inodes of the block are unchanged. *)
Lemma dinode_roundtrip (d : bytes) (x : dinode) (inum inum' : Z) :
  length d = BSIZE → dinode_wf x →
  decode_dinode (list_inserts (dinode_off inum) (encode_dinode x) d) (dinode_off inum) = x ∧
  (inum' `mod` IPB ≠ inum `mod` IPB →
   decode_dinode (list_inserts (dinode_off inum) (encode_dinode x) d) (dinode_off inum') =
   decode_dinode d (dinode_off inum')).
Proof. intros Hd Hx. split; [by apply dinode_store_eq|]. by apply dinode_store_ne. Qed.

Lemma dinode_roundtrip_witness :
  let x := mkDinode 2 0 0 1 700 ([29; 30] ++ replicate 11 0) in
  decode_dinode (list_inserts (dinode_off 9) (encode_dinode x) (replicate BSIZE 0)) (dinode_off 9) = x ∧
  (10 `mod` IPB ≠ 9 `mod` IPB →
   decode_dinode (list_inserts (dinode_off 9) (encode_dinode x) (replicate BSIZE 0)) (dinode_off 10) =
   decode_dinode (replicate BSIZE 0) (dinode_off 10)).
Proof.
  apply (dinode_roundtrip (replicate BSIZE 0) (mkDinode 2 0 0 1 700 ([29; 30] ++ replicate 11 0)) 9 10).
  - apply length_replicate.
  - split; cbn; unfold is_s16, is_u32; try lia; [reflexivity|]. repeat constructor; lia.
Defined.
