(* ===== verification/FsAlloc.v ===== *)
(** * The block allocator of fs.c, proved against the block layer

    [balloc] and [bfree] keep the free map: the set of free blocks shrinks and
    grows by exactly one block, every other bit of the map is kept, and the
    block handed out is zeroed, all inside the open transaction. *)
From S2P Require Import Prelude Str Sleeplock Memide Log BlockLayer Fs.

(** ** Bits of a bitmap block *)

Lemma bit_clear_testbit d bi : 0 ≤ bi → bit_clear d bi = negb (Z.testbit (byte_at d bi) (bi `mod` 8)).
Proof.
  intros Hb. unfold bit_clear, bit_mask. pose proof (Z.mod_pos_bound bi 8 ltac:(lia)) as Hm.
  rewrite Z.shiftl_1_l.
  destruct (Z.testbit (byte_at d bi) (bi `mod` 8)) eqn:E; simpl.
  - apply Z.eqb_neq. intros H. apply (f_equal (λ z, Z.testbit z (bi `mod` 8))) in H.
    rewrite Z.land_spec, E, Z.pow2_bits_true, Z.bits_0 in H by lia. done.
  - apply Z.eqb_eq, Z.bits_inj'. intros k Hk. rewrite Z.land_spec, Z.bits_0.
    destruct (decide (k = bi `mod` 8)) as [->|Hne]; [by rewrite E|].
    rewrite Z.pow2_bits_false by lia. apply andb_false_r.
Qed.

Section bits.
Context (d : bytes).
Hypothesis Hlen : length d = BSIZE.
Implicit Types bi bj : Z.

Lemma byte_at_insert bi bj v :
  0 ≤ bi < BPB → 0 ≤ bj →
  byte_at (<[Z.to_nat (bi / 8) := v]> d) bj = if decide (bj / 8 = bi / 8) then v else byte_at d bj.
Proof.
  intros Hi Hj. unfold byte_at. rewrite !nth_lookup.
  assert (bi / 8 < BSIZE) by (unfold BPB, BSIZE in *; apply Z.div_lt_upper_bound; lia).
  pose proof (Z.div_pos bi 8 ltac:(lia)). pose proof (Z.div_pos bj 8 Hj).
  case_decide as E.
  - rewrite E, list_lookup_insert_eq by lia. done.
  - rewrite list_lookup_insert_ne by lia. done.
Qed.

Lemma same_byte_ne bi bj : bi ≠ bj → bj / 8 = bi / 8 → bj `mod` 8 ≠ bi `mod` 8.
Proof. intros Hne E1 E2. apply Hne. rewrite (Z.div_mod bi 8), (Z.div_mod bj 8) by lia. lia. Qed.

Lemma u8_testbit x k : 0 ≤ k < 8 → Z.testbit (u8 x) k = Z.testbit x k.
Proof. intros Hk. unfold u8. by rewrite Z.mod_pow2_bits_low by lia. Qed.

Lemma set_bit_spec bi bj :
  0 ≤ bi < BPB → 0 ≤ bj < BPB →
  bit_clear (set_bit d bi) bj = if decide (bj = bi) then false else bit_clear d bj.
Proof.
  intros Hi Hj. rewrite !bit_clear_testbit by lia. unfold set_bit. rewrite byte_at_insert by lia.
  pose proof (Z.mod_pos_bound bi 8 ltac:(lia)). pose proof (Z.mod_pos_bound bj 8 ltac:(lia)).
  destruct (decide (bj = bi)) as [->|Hne].
  - rewrite decide_True by done. rewrite u8_testbit, Z.lor_spec by lia. unfold bit_mask.
    rewrite Z.shiftl_1_l, Z.pow2_bits_true by lia. by rewrite orb_true_r.
  - case_decide as E; [|done]. rewrite u8_testbit, Z.lor_spec by lia. unfold bit_mask.
    rewrite Z.shiftl_1_l, Z.pow2_bits_false by (intros ?; by apply (same_byte_ne bi bj)).
    rewrite orb_false_r. unfold byte_at. by rewrite E.
Qed.

Lemma clear_bit_spec bi bj :
  0 ≤ bi < BPB → 0 ≤ bj < BPB →
  bit_clear (clear_bit d bi) bj = if decide (bj = bi) then true else bit_clear d bj.
Proof.
  intros Hi Hj. rewrite !bit_clear_testbit by lia. unfold clear_bit. rewrite byte_at_insert by lia.
  pose proof (Z.mod_pos_bound bi 8 ltac:(lia)). pose proof (Z.mod_pos_bound bj 8 ltac:(lia)).
  destruct (decide (bj = bi)) as [->|Hne].
  - rewrite decide_True by done. rewrite u8_testbit, Z.land_spec, Z.lnot_spec by lia. unfold bit_mask.
    rewrite Z.shiftl_1_l, Z.pow2_bits_true by lia. by rewrite andb_false_r.
  - case_decide as E; [|done]. rewrite u8_testbit, Z.land_spec, Z.lnot_spec by lia. unfold bit_mask.
    rewrite Z.shiftl_1_l, Z.pow2_bits_false by (intros ?; by apply (same_byte_ne bi bj)).
    rewrite andb_true_r. unfold byte_at. by rewrite E.
Qed.
End bits.

Lemma length_set_bit d bi : length (set_bit d bi) = length d.
Proof. apply length_insert. Qed.
Lemma length_clear_bit d bi : length (clear_bit d bi) = length d.
Proof. apply length_insert. Qed.

(** ** Room in the transaction *)

Section space.
Context {S : Type} {BL : BlockLayer S}.
Implicit Types t : tx.

(** [k] more blocks can be locked and logged. *)
Definition t_space (k : nat) (t : tx) : Prop :=
  (size (dom (t_held t) ∪ t_logged t) + k ≤ bl_nbuf)%nat ∧ (size (t_logged t) + k ≤ bl_cap)%nat.

Lemma space_room k t bn : t_space k t → (1 ≤ k)%nat → t_room bl_nbuf bn t.
Proof. intros [H _] Hk. right. lia. Qed.

Lemma size_add (X : gset Z) b : (size ({[b]} ∪ X) ≤ Datatypes.S (size X))%nat.
Proof.
  rewrite size_union_alt, size_singleton.
  pose proof (subseteq_size (X ∖ {[b]}) X ltac:(set_solver)). lia.
Qed.

Lemma space_put k t bn d : t_space (Datatypes.S k) t → t_space k (t_put bn d t).
Proof.
  intros [H1 H2]. split; cbn.
  - pose proof (size_add (dom (t_held t) ∪ t_logged t) bn) as H.
    replace (dom (t_held t) ∪ ({[bn]} ∪ t_logged t)) with ({[bn]} ∪ (dom (t_held t) ∪ t_logged t)) by set_solver.
    lia.
  - pose proof (size_add (t_logged t) bn). lia.
Qed.

Lemma onl_run {A} (m : M S A) (s : fsst S) x b : m (f_blk s) = Ok x b → onl m s = Ok x (set_blk b s).
Proof. unfold onl, zoom. by intros ->. Qed.

(** The same operations at the level of fs.c. *)
Definition frep (s : fsst S) (t : tx) : Prop := bl_rep (f_blk s) t.
Definition same_meta (s s' : fsst S) : Prop := f_sb s' = f_sb s ∧ f_inode s' = f_inode s.

Lemma fbread_ok s t bn :
  frep s t → is_Some (t_view t !! bn) → t_held t !! bn = None → t_room bl_nbuf bn t →
  ∃ i s', fbread 1 bn s = Ok i s' ∧ frep s' (t_hold bn i t) ∧ same_meta s s'.
Proof.
  intros Hr Hv Hh Hroom. destruct (bl_bread_ok _ _ _ Hr Hv Hh Hroom) as (i & b & R & Hr').
  exists i, (set_blk b s). split; [by apply onl_run|]. done.
Qed.
Lemma fdata_ok s t bn i :
  frep s t → t_held t !! bn = Some i → ∃ d, t_view t !! bn = Some d ∧ fdata i s = Ok d s.
Proof.
  intros Hr Hh. destruct (bl_data_ok _ _ _ _ Hr Hh) as (d & Hd & R). exists d. split; [done|].
  unfold fdata. erewrite onl_run by exact R. by destruct s.
Qed.
Lemma fstore_ok s t bn i d :
  frep s t → t_held t !! bn = Some i → bl_home bn →
  ∃ s', fstore i d s = Ok tt s' ∧ frep s' (t_store bn d t) ∧ same_meta s s'.
Proof.
  intros Hr Hh Hhome. destruct (bl_store_ok _ _ _ _ d Hr Hh Hhome) as (b & R & Hr').
  exists (set_blk b s). split; [by apply onl_run|]. done.
Qed.
Lemma flog_write_ok s t bn i :
  frep s t → t_held t !! bn = Some i → bl_home bn → (size (t_logged t) < bl_cap)%nat →
  ∃ s', flog_write i s = Ok tt s' ∧ frep s' (t_log bn t) ∧ same_meta s s'.
Proof.
  intros Hr Hh Hhome Hc. destruct (bl_log_write_ok _ _ _ _ Hr Hh Hhome Hc) as (b & R & Hr').
  exists (set_blk b s). split; [by apply onl_run|]. done.
Qed.
Lemma fbrelse_ok s t bn i :
  frep s t → t_held t !! bn = Some i → bn ∉ t_touched t →
  ∃ s', fbrelse i s = Ok tt s' ∧ frep s' (t_unhold bn t) ∧ same_meta s s'.
Proof.
  intros Hr Hh Ht. destruct (bl_brelse_ok _ _ _ _ Hr Hh Ht) as (b & R & Hr').
  exists (set_blk b s). split; [by apply onl_run|]. done.
Qed.

Lemma same_meta_trans s1 s2 s3 : same_meta s1 s2 → same_meta s2 s3 → same_meta s1 s3.
Proof. unfold same_meta. intros [] []. split; congruence. Qed.

(** Reading a block and giving it back. *)
Lemma read_block_ok s t bn d :
  frep s t → t_view t !! bn = Some d → t_held t !! bn = None → bn ∉ t_touched t → t_room bl_nbuf bn t →
  ∃ i s1 s2, fbread 1 bn s = Ok i s1 ∧ fdata i s1 = Ok d s1 ∧ fbrelse i s1 = Ok tt s2 ∧
    frep s1 (t_hold bn i t) ∧ frep s2 t ∧ same_meta s s1 ∧ same_meta s s2.
Proof.
  intros Hr Hd Hh Ht Hroom. destruct (fbread_ok s t bn Hr) as (i & s1 & R1 & Hr1 & M1); [eauto|done..|].
  destruct (fdata_ok s1 _ bn i Hr1) as (d' & Hd' & R2); [apply lookup_insert_eq|].
  cbn in Hd'. rewrite Hd in Hd'. injection Hd' as <-.
  destruct (fbrelse_ok s1 _ bn i Hr1) as (s2 & R3 & Hr2 & M2); [apply lookup_insert_eq|done|].
  rewrite unhold_hold_tx in Hr2 by done. exists i, s1, s2. split_and!; try done.
  by eapply same_meta_trans.
Qed.

(** Assigning a locked block, logging it and giving it back. *)
Lemma write_back_ok s t bn i d :
  frep s (t_hold bn i t) → t_held t !! bn = None → bl_home bn → (size (t_logged t) < bl_cap)%nat →
  ∃ s', (do! fstore i d in do! flog_write i in fbrelse i) s = Ok tt s' ∧
    (∀ B (k : M (fsst S) B), (do! fstore i d in do! flog_write i in do! fbrelse i in k) s = k s') ∧
    frep s' (t_put bn d t) ∧ same_meta s s'.
Proof.
  intros Hr Hh Hhome Hcap.
  destruct (fstore_ok s _ bn i d Hr) as (s1 & R1 & Hr1 & M1); [apply lookup_insert_eq|done|].
  destruct (flog_write_ok s1 _ bn i Hr1) as (s2 & R2 & Hr2 & M2); [apply lookup_insert_eq|done..|].
  destruct (fbrelse_ok s2 _ bn i Hr2) as (s3 & R3 & Hr3 & M3); [apply lookup_insert_eq|set_solver|].
  exists s3. split; [mstep R1; mstep R2; done|]. split; [intros B k; mstep R1; mstep R2; mstep R3; done|].
  split; [|by eapply same_meta_trans, same_meta_trans].
  replace (t_put bn d t) with (t_unhold bn (t_log bn (t_store bn d (t_hold bn i t)))); [done|].
  unfold t_unhold, t_log, t_store, t_hold, t_put; cbn. rewrite delete_insert_id by done.
  f_equal. set_solver.
Qed.
End space.

(** ** The free map *)

Section alloc.
Context {S : Type} {BL : BlockLayer S}.
Implicit Types (t : tx) (sb : superblock) (b : Z).

(** Block [b] is free in the view [v] of the disk. *)
Definition free (sb : superblock) (v : gmap Z bytes) (b : Z) : Prop :=
  ∃ d, v !! BBLOCK b sb = Some d ∧ bit_clear d (b `mod` BPB) = true.

(** The map's blocks and the free blocks can be used in this transaction. *)
Record alloc_wf (sb : superblock) (t : tx) : Prop := {
  aw_size : 0 ≤ sb_size sb < 2 ^ 31;
  aw_map : ∀ b, 0 ≤ b < sb_size sb → ∃ d, t_view t !! BBLOCK b sb = Some d ∧ length d = BSIZE;
  aw_map_unheld : ∀ b, 0 ≤ b < sb_size sb → t_held t !! BBLOCK b sb = None;
  aw_map_home : ∀ b, 0 ≤ b < sb_size sb → bl_home (BBLOCK b sb);
  aw_touched : t_touched t = ∅;
  aw_free : ∀ b, 0 ≤ b < sb_size sb → free sb (t_view t) b →
    bl_home b ∧ is_Some (t_view t !! b) ∧ t_held t !! b = None;
  aw_map_used : ∀ b b', 0 ≤ b < sb_size sb → 0 ≤ b' < sb_size sb → free sb (t_view t) b → b ≠ BBLOCK b' sb;
}.

Lemma BBLOCK_base sb (k : nat) bi : 0 ≤ bi < BPB → BBLOCK (k * BPB + bi) sb = BBLOCK (k * BPB) sb.
Proof.
  intros H. unfold BBLOCK. f_equal. f_equal.
  rewrite Z.div_add_l, Z.div_mul by done. rewrite (Z.div_small bi) by done. lia.
Qed.

Lemma bzero_ok s t b :
  frep s t → is_Some (t_view t !! b) → t_held t !! b = None → bl_home b → t_space 1 t →
  ∃ s', bzero 1 b s = Ok tt s' ∧ frep s' (t_put b (replicate BSIZE 0) t) ∧ same_meta s s'.
Proof.
  intros Hr Hv Hh Hhome Hsp.
  destruct (fbread_ok s t b Hr Hv Hh) as (i & s1 & R1 & Hr1 & M1); [by eapply space_room|].
  destruct (write_back_ok s1 t b i (replicate BSIZE 0) Hr1 Hh Hhome) as (s2 & R2 & _ & Hr2 & M2).
  { destruct Hsp. lia. }
  exists s2. unfold bzero. mstep R1. split; [done|]. split; [done|]. by eapply same_meta_trans.
Qed.

(** The transaction after [b] was taken from the map and zeroed. *)
Definition allocated (sb : superblock) (b : Z) (d : bytes) (t : tx) : tx :=
  t_put b (replicate BSIZE 0) (t_put (BBLOCK b sb) (set_bit d (b `mod` BPB)) t).

Lemma find_seq_from (p : nat → bool) a n :
  match find p (seq a n) with
  | Some i => (a ≤ i < a + n)%nat ∧ p i = true ∧ ∀ j, (a ≤ j < i)%nat → p j = false
  | None => ∀ j, (a ≤ j < a + n)%nat → p j = false
  end.
Proof.
  revert a; induction n as [|n IH]; intros a; simpl; [lia|].
  destruct (p a) eqn:E; [split_and!; [lia..|done|lia]|].
  specialize (IH (Datatypes.S a)). destruct (find p (seq (Datatypes.S a) n)) as [i|].
  - destruct IH as (? & ? & IH). split_and!; [lia..|done|]. intros j Hj.
    destruct (decide (j = a)) as [->|]; [done|]. apply IH. lia.
  - intros j Hj. destruct (decide (j = a)) as [->|]; [done|]. apply IH. lia.
Qed.

Lemma find_seq_spec (p : nat → bool) n :
  match find p (seq 0 n) with
  | Some i => (i < n)%nat ∧ p i = true ∧ ∀ j, (j < i)%nat → p j = false
  | None => ∀ j, (j < n)%nat → p j = false
  end.
Proof.
  pose proof (find_seq_from p 0 n) as H. destruct (find p (seq 0 n)) as [i|].
  - destruct H as (? & ? & H). split_and!; [lia|done|]. intros j Hj. apply H. lia.
  - intros j Hj. apply H. lia.
Qed.

(** One bitmap block: the first free block in it, if any. *)
Lemma balloc_in_ok s t sb (k : nat) :
  frep s t → f_sb s = sb → alloc_wf sb t → t_space 2 t → k * BPB < sb_size sb →
  (∃ b d s', balloc_in 1 (k * BPB) s = Ok (Some b) s' ∧ k * BPB ≤ b < sb_size sb ∧ b < (k + 1) * BPB ∧
     t_view t !! BBLOCK b sb = Some d ∧ bit_clear d (b `mod` BPB) = true ∧
     (∀ b', k * BPB ≤ b' < b → ¬ free sb (t_view t) b') ∧
     frep s' (allocated sb b d t) ∧ same_meta s s') ∨
  (∃ s', balloc_in 1 (k * BPB) s = Ok None s' ∧ frep s' t ∧ same_meta s s' ∧
     (∀ b', k * BPB ≤ b' < sb_size sb → b' < (k + 1) * BPB → ¬ free sb (t_view t) b')).
Proof.
  intros Hr Hsb Hwf Hsp Hk. pose proof Hwf as []. assert (0 ≤ k * BPB < sb_size sb) as Hk0 by (unfold BPB in *; lia).
  destruct (aw_map0 _ Hk0) as (d & Hd & Hlen).
  destruct (read_block_ok s t (BBLOCK (k * BPB) sb) d) as (i & s1 & s2 & R1 & R2 & R3 & Hr1 & Hr2 & M1 & M2);
    [done..|auto|set_solver|by eapply space_room; [done|lia]|].
  unfold balloc_in. rewrite bind_gets, Hsb. mstep R1. mstep R2.
  set (n := Z.to_nat (Z.min BPB (sb_size sb - k * BPB))).
  assert (∀ j, (j < n)%nat → free sb (t_view t) (k * BPB + j) ↔ bit_clear d j = true) as Hfree.
  { intros j Hj. unfold free. rewrite BBLOCK_base, Hd by lia.
    rewrite Z.add_comm, Z.mod_add, Z.mod_small by (unfold BPB in *; lia). naive_solver. }
  pose proof (find_seq_spec (λ bi : nat, bit_clear d bi) n) as Hfind.
  destruct (find _ (seq 0 n)) as [bi|].
  - left. destruct Hfind as (Hbi & Hclr & Hfst). set (b := k * BPB + bi).
    assert (BBLOCK b sb = BBLOCK (k * BPB) sb) as Eb by (apply BBLOCK_base; lia).
    assert (b `mod` BPB = bi) as Em.
    { unfold b. rewrite Z.add_comm, Z.mod_add, Z.mod_small by (unfold BPB in *; lia). done. }
    assert (0 ≤ b < sb_size sb) as Hb by lia.
    assert (free sb (t_view t) b) as Hfb by by apply Hfree.
    destruct (aw_free0 b Hb Hfb) as (Hhb & Hvb & Hub).
    destruct (write_back_ok s1 t (BBLOCK (k * BPB) sb) i (set_bit d bi) Hr1) as (s3 & _ & R4 & Hr3 & M3);
      [by apply aw_map_unheld0|by apply aw_map_home0|destruct Hsp; lia|].
    destruct (bzero_ok s3 _ b Hr3) as (s4 & R5 & Hr4 & M4).
    { cbn. rewrite lookup_insert_ne; [done|]. by apply not_eq_sym, aw_map_used0. }
    { done. } { done. } { by apply space_put. }
    exists b, d, s4. rewrite R4. mstep R5. split; [done|]. split; [lia|]. split; [lia|].
    rewrite Eb, Em. split_and!; [done|done| | |].
    + intros b' Hb' Hf. replace b' with (k * BPB + Z.to_nat (b' - k * BPB)) in Hf by lia.
      apply Hfree in Hf; [|lia]. by rewrite Hfst in Hf by lia.
    + unfold allocated. rewrite Eb, Em. done.
    + eapply same_meta_trans; [exact M1|]. by eapply same_meta_trans.
  - right. exists s2. mstep R3. split_and!; try done. intros b' H1 H2 Hf.
    replace b' with (k * BPB + Z.to_nat (b' - k * BPB)) in Hf by lia.
    apply Hfree in Hf; [|unfold n; lia]. rewrite Hfind in Hf; [done|unfold n; lia].
Qed.

Lemma balloc_loop_ok sb t (n : nat) : ∀ (k0 : nat) (s : fsst S),
  frep s t → f_sb s = sb → alloc_wf sb t → t_space 2 t → (k0 + n - 1) * BPB < sb_size sb →
  (∃ b d s', first_some (seq k0 n) (λ k : nat, balloc_in 1 (k * BPB)) s = Ok (Some b) s' ∧
     k0 * BPB ≤ b < sb_size sb ∧ t_view t !! BBLOCK b sb = Some d ∧ bit_clear d (b `mod` BPB) = true ∧
     (∀ b', k0 * BPB ≤ b' < b → ¬ free sb (t_view t) b') ∧ frep s' (allocated sb b d t) ∧ same_meta s s') ∨
  (∃ s', first_some (seq k0 n) (λ k : nat, balloc_in 1 (k * BPB)) s = Ok None s' ∧ frep s' t ∧ same_meta s s' ∧
     (∀ b', k0 * BPB ≤ b' < sb_size sb → b' < (k0 + n) * BPB → ¬ free sb (t_view t) b')).
Proof.
  induction n as [|n IH]; intros k0 s Hr Hsb Hwf Hsp Hn; simpl first_some.
  { right. exists s. split_and!; try done. lia. }
  destruct (balloc_in_ok s t sb k0 Hr Hsb Hwf Hsp ltac:(unfold BPB in *; lia))
    as [(b & d & s' & R & Hb & Hb2 & Hd & Hc & Hmin & Hr' & Hm)|(s' & R & Hr' & Hm & Hno)].
  - left. exists b, d, s'. mstep R. split_and!; try done; lia.
  - destruct (IH (Datatypes.S k0) s' Hr') as [(b & d & s2 & R2 & Hb & Hd & Hc & Hmin & Hr2 & Hm2)|(s2 & R2 & Hr2 & Hm2 & Hno2)];
      [by rewrite (proj1 Hm)|done|done|unfold BPB in *; lia|..].
    + left. exists b, d, s2. mstep R. split; [done|]. split; [unfold BPB in *; lia|]. split_and!; try done.
      * intros b' Hb'. destruct (decide (b' < Datatypes.S k0 * BPB)); [|apply Hmin; lia].
        apply Hno; lia.
      * by eapply same_meta_trans.
    + right. exists s2. mstep R. split_and!; [done|done|by eapply same_meta_trans|].
      intros b' H1 H2. destruct (decide (b' < Datatypes.S k0 * BPB)); [apply Hno; lia|apply Hno2; lia].
Qed.

Lemma balloc_cases s t sb :
  frep s t → f_sb s = sb → alloc_wf sb t → t_space 2 t →
  (∃ b d s', balloc 1 s = Ok b s' ∧ 0 ≤ b < sb_size sb ∧
     t_view t !! BBLOCK b sb = Some d ∧ bit_clear d (b `mod` BPB) = true ∧
     (∀ b', 0 ≤ b' < b → ¬ free sb (t_view t) b') ∧ frep s' (allocated sb b d t) ∧ same_meta s s') ∨
  (balloc 1 s = Panic "balloc: out of blocks" ∧ ∀ b', 0 ≤ b' < sb_size sb → ¬ free sb (t_view t) b').
Proof.
  intros Hr Hsb Hwf Hsp. pose proof (aw_size _ _ Hwf) as Hsz. unfold balloc. rewrite bind_gets, Hsb.
  set (n := Z.to_nat ((sb_size sb + BPB - 1) / BPB)).
  pose proof (Z.mul_div_le (sb_size sb + BPB - 1) BPB ltac:(done)) as H1.
  pose proof (Z.mul_succ_div_gt (sb_size sb + BPB - 1) BPB ltac:(done)) as H2.
  pose proof (Z.div_pos (sb_size sb + BPB - 1) BPB ltac:(unfold BPB; lia) ltac:(done)) as H3.
  destruct (balloc_loop_ok sb t n 0 s Hr Hsb Hwf Hsp)
    as [(b & d & s' & R & Hb & Hd & Hc & Hmin & Hr' & Hm)|(s' & R & Hr' & Hm & Hno)].
  - subst n. unfold BPB in *. lia.
  - left. exists b, d, s'. mstep R. done.
  - right. mstep R. split; [done|]. intros b' Hb'. apply Hno; [lia|]. subst n. unfold BPB in *. lia.
Qed.

Lemma BBLOCK_inj sb b b' :
  0 ≤ b < 2 ^ 31 → 0 ≤ b' < 2 ^ 31 → BBLOCK b sb = BBLOCK b' sb → b `mod` BPB = b' `mod` BPB → b = b'.
Proof.
  intros Hb Hb' E Em. unfold BBLOCK, u32 in E.
  assert (b / BPB = b' / BPB) as Ed.
  { pose proof (Z.div_pos b BPB ltac:(lia) ltac:(done)). pose proof (Z.div_pos b' BPB ltac:(lia) ltac:(done)).
    pose proof (Z.div_le_upper_bound b BPB (2 ^ 31) ltac:(done) ltac:(unfold BPB; lia)).
    pose proof (Z.div_le_upper_bound b' BPB (2 ^ 31) ltac:(done) ltac:(unfold BPB; lia)).
    assert ((b / BPB - b' / BPB) `mod` 2 ^ 32 = 0) as Hz.
    { replace (b / BPB - b' / BPB) with ((b / BPB + sb_bmapstart sb) - (b' / BPB + sb_bmapstart sb)) by lia.
      rewrite Zminus_mod, E, Z.sub_diag. done. }
    apply Z.mod_divide in Hz as [q Hq]; [|lia]. lia. }
  rewrite (Z.div_mod b BPB), (Z.div_mod b' BPB) by done. lia.
Qed.

(** The free blocks after an allocation. *)
Lemma free_allocated sb b d t b' :
  alloc_wf sb t → 0 ≤ b < sb_size sb → 0 ≤ b' < sb_size sb →
  t_view t !! BBLOCK b sb = Some d → bit_clear d (b `mod` BPB) = true →
  free sb (t_view (allocated sb b d t)) b' ↔ free sb (t_view t) b' ∧ b' ≠ b.
Proof.
  intros [] Hb Hb' Hd Hc. destruct (aw_map0 b Hb) as (d' & Hd' & Hlen). simplify_eq.
  assert (free sb (t_view t) b) as Hfb by by exists d.
  pose proof (Z.mod_pos_bound b BPB ltac:(done)) as Hm. pose proof (Z.mod_pos_bound b' BPB ltac:(done)) as Hm'.
  unfold free, allocated; cbn. rewrite lookup_insert_ne by by apply aw_map_used0.
  destruct (decide (BBLOCK b' sb = BBLOCK b sb)) as [E|E].
  - rewrite E, lookup_insert_eq, Hd. split.
    + intros (x & [= <-] & Hx). rewrite set_bit_spec in Hx by done. case_decide as Hdec; [done|].
      split; [by exists d|]. intros ->. done.
    + intros [(x & [= <-] & Hx) Hne]. eexists. split; [done|]. rewrite set_bit_spec by done.
      case_decide as Hdec; [|done]. exfalso. apply Hne. apply (BBLOCK_inj sb); [lia|lia|done|done].
  - rewrite lookup_insert_ne by done. split; [|naive_solver]. intros H. split; [done|]. congruence.
Qed.

(** The block 1 re-read by [bfree] holds the superblock. *)
Definition sb_on_disk (sb : superblock) (t : tx) : Prop :=
  ∃ d, t_view t !! 1 = Some d ∧ decode_sb d = sb ∧ t_held t !! 1 = None.

Lemma readsb_ok s t sb :
  frep s t → sb_on_disk sb t → t_touched t = ∅ → t_room bl_nbuf 1 t →
  ∃ s', fs_readsb 1 s = Ok tt s' ∧ frep s' t ∧ f_sb s' = sb ∧ f_inode s' = f_inode s.
Proof.
  intros Hr (d & Hd & Hsb & Hh) Ht Hroom.
  destruct (fbread_ok s t 1 Hr) as (i & s1 & R1 & Hr1 & M1); [eauto|done|done|].
  destruct (fdata_ok s1 _ 1 i Hr1) as (d' & Hd' & R2); [apply lookup_insert_eq|].
  cbn in Hd'. rewrite Hd in Hd'. injection Hd' as <-.
  destruct (fbrelse_ok (set_sb (decode_sb d) s1) (t_hold 1 i t) 1 i) as (s2 & R3 & Hr2 & M2 & M3);
    [exact Hr1|apply lookup_insert_eq|cbn; set_solver|].
  rewrite unhold_hold_tx in Hr2 by done.
  exists s2. unfold fs_readsb. mstep R1. mstep R2. rewrite bind_modify. split_and!; try done.
  - by rewrite M2, <- Hsb.
  - rewrite M3. cbn. apply M1.
Qed.

Lemma bfree_cases s t sb b d :
  frep s t → sb_on_disk sb t → alloc_wf sb t → t_space 2 t → 0 ≤ b < sb_size sb →
  t_view t !! BBLOCK b sb = Some d →
  if bit_clear d (b `mod` BPB) then bfree 1 b s = Panic "freeing free block"
  else ∃ s', bfree 1 b s = Ok tt s' ∧ frep s' (t_put (BBLOCK b sb) (clear_bit d (b `mod` BPB)) t) ∧
         f_sb s' = sb ∧ f_inode s' = f_inode s.
Proof.
  intros Hr Hsb Hwf Hsp Hb Hd. pose proof Hwf as [].
  destruct (readsb_ok s t sb Hr Hsb aw_touched0) as (s0 & R0 & Hr0 & Hs0 & Hi0); [by eapply space_room; [done|lia]|].
  destruct (fbread_ok s0 t (BBLOCK b sb) Hr0) as (i & s1 & R1 & Hr1 & M1 & M1');
    [eauto|auto|by eapply space_room; [done|lia]|].
  destruct (fdata_ok s1 _ (BBLOCK b sb) i Hr1) as (d' & Hd' & R2); [apply lookup_insert_eq|].
  cbn in Hd'. rewrite Hd in Hd'. injection Hd' as <-.
  unfold bfree. mstep R0. rewrite bind_gets, Hs0. mstep R1. mstep R2.
  destruct (bit_clear d (b `mod` BPB)); [done|].
  destruct (write_back_ok s1 t (BBLOCK b sb) i (clear_bit d (b `mod` BPB)) Hr1) as (s2 & R3 & _ & Hr2 & M2 & M2');
    [by apply aw_map_unheld0|by apply aw_map_home0|destruct Hsp; lia|].
  exists s2. split_and!; [done|done|congruence|congruence].
Qed.

Lemma free_freed sb b d t b' :
  alloc_wf sb t → 0 ≤ b < sb_size sb → 0 ≤ b' < sb_size sb → t_view t !! BBLOCK b sb = Some d →
  free sb (t_view (t_put (BBLOCK b sb) (clear_bit d (b `mod` BPB)) t)) b' ↔ free sb (t_view t) b' ∨ b' = b.
Proof.
  intros [] Hb Hb' Hd. destruct (aw_map0 b Hb) as (d' & Hd' & Hlen). simplify_eq.
  pose proof (Z.mod_pos_bound b BPB ltac:(done)) as Hm. pose proof (Z.mod_pos_bound b' BPB ltac:(done)) as Hm'.
  unfold free; cbn. destruct (decide (BBLOCK b' sb = BBLOCK b sb)) as [E|E].
  - rewrite E, lookup_insert_eq, Hd. split.
    + intros (x & [= <-] & Hx). rewrite clear_bit_spec in Hx by done. case_decide as Hdec; [|left; by exists d].
      right. apply (BBLOCK_inj sb); [lia|lia|done|done].
    + intros H. eexists. split; [done|]. rewrite clear_bit_spec by done. case_decide as Hdec; [done|].
      destruct H as [(x & [= <-] & Hx)| ->]; done.
  - rewrite lookup_insert_ne by done. split; [naive_solver|]. intros [H| ->]; done.
Qed.
End alloc.

(** C22: balloc takes exactly one block from the free map.  In an open
    transaction with room for two blocks it returns a block that was free, the
    lowest one; afterwards exactly that block is no longer free, it reads as
    zeroes, no other block but the bitmap block changed, and only these two
    blocks were added to the transaction.  It panics exactly when no block is
    free. *)
Theorem balloc_correct {S} {BL : BlockLayer S} (s : fsst S) t :
  frep s t → alloc_wf (f_sb s) t → t_space 2 t →
  match balloc 1 s with
  | Ok b s' =>
      0 ≤ b < sb_size (f_sb s) ∧ free (f_sb s) (t_view t) b ∧
      (∀ b', 0 ≤ b' < b → ¬ free (f_sb s) (t_view t) b') ∧
      ∃ t', frep s' t' ∧
        (∀ b', 0 ≤ b' < sb_size (f_sb s) →
           free (f_sb s) (t_view t') b' ↔ free (f_sb s) (t_view t) b' ∧ b' ≠ b) ∧
        t_view t' !! b = Some (replicate BSIZE 0) ∧
        (∀ c, c ≠ b → c ≠ BBLOCK b (f_sb s) → t_view t' !! c = t_view t !! c) ∧
        t_held t' = t_held t ∧ t_logged t' = {[b]} ∪ ({[BBLOCK b (f_sb s)]} ∪ t_logged t)
  | Panic msg => msg = "balloc: out of blocks"%string ∧ ∀ b, 0 ≤ b < sb_size (f_sb s) → ¬ free (f_sb s) (t_view t) b
  | _ => False
  end.
Proof.
  intros Hr Hwf Hsp.
  destruct (balloc_cases s t _ Hr eq_refl Hwf Hsp) as [(b & d & s' & -> & Hb & Hd & Hc & Hmin & Hr' & _)|[-> Hno]]; [|done].
  split; [done|]. split; [by exists d|]. split; [done|]. exists (allocated (f_sb s) b d t).
  split_and!; try done.
  - intros b' Hb'. by apply free_allocated.
  - apply lookup_insert_eq.
  - intros c H1 H2. cbn. by rewrite !lookup_insert_ne.
Qed.

(** Bfree returns exactly one block to the free map.  Freeing an allocated
    block makes it free, keeps every other block's state and writes nothing but
    the bitmap block; freeing a free block panics. *)
Theorem bfree_correct {S} {BL : BlockLayer S} (s : fsst S) t sb b :
  frep s t → sb_on_disk sb t → alloc_wf sb t → t_space 2 t → 0 ≤ b < sb_size sb →
  match bfree 1 b s with
  | Ok _ s' => ¬ free sb (t_view t) b ∧
      ∃ t', frep s' t' ∧
        (∀ b', 0 ≤ b' < sb_size sb → free sb (t_view t') b' ↔ free sb (t_view t) b' ∨ b' = b) ∧
        (∀ c, c ≠ BBLOCK b sb → t_view t' !! c = t_view t !! c) ∧ t_held t' = t_held t
  | Panic msg => msg = "freeing free block"%string ∧ free sb (t_view t) b
  | _ => False
  end.
Proof.
  intros Hr Hsb Hwf Hsp Hb. destruct (aw_map _ _ Hwf b Hb) as (d & Hd & Hlen).
  pose proof (bfree_cases s t sb b d Hr Hsb Hwf Hsp Hb Hd) as H.
  destruct (bit_clear d (b `mod` BPB)) eqn:Hc.
  - rewrite H. split; [done|]. by exists d.
  - destruct H as (s' & -> & Hr' & _ & _). split.
    + intros (d' & Hd' & Hc'). congruence.
    + eexists. split; [exact Hr'|]. split_and!; [|intros c Hne; by apply lookup_insert_ne|done].
      intros b' Hb'. by apply free_freed.
Qed.

(** ** A file system of eight blocks; blocks 6 and 7 are free *)

Definition tiny_sb_block : bytes := wr32 (wr32 (replicate BSIZE 0) 0 8) 24 3.
Definition tiny_sb : superblock := mkSb 8 0 0 0 0 0 3.
Definition tiny_view : gmap Z bytes :=
  <[3 := 0x3F :: replicate 511 0]> (<[1 := tiny_sb_block]> (map_seqZ 0 (replicate 8 (replicate BSIZE 0)))).
Definition tiny_tx : tx := mkTx tiny_view ∅ ∅ ∅.
Definition tiny_fs : fsst tx := mkFsst tiny_tx tiny_sb [].

#[local] Instance tiny_layer : BlockLayer tx := ram_layer 30 29.

Lemma tiny_BBLOCK b : 0 ≤ b < 8 → BBLOCK b tiny_sb = 3.
Proof. intros H. unfold BBLOCK. rewrite Z.div_small by (unfold BPB; lia). done. Qed.

Lemma tiny_view_dom b : is_Some (tiny_view !! b) ↔ 0 ≤ b < 8.
Proof. unfold tiny_view. rewrite !lookup_insert_is_Some', lookup_map_seqZ_is_Some, length_replicate. lia. Qed.

Lemma tiny_map : tiny_view !! 3 = Some (0x3F :: replicate 511 0).
Proof. apply lookup_insert_eq. Qed.

Lemma tiny_free b : 0 ≤ b < 8 → free tiny_sb tiny_view b → b = 6 ∨ b = 7.
Proof.
  intros Hb (d & Hd & Hc). rewrite tiny_BBLOCK, tiny_map in Hd by done. injection Hd as <-.
  assert (b = 0 ∨ b = 1 ∨ b = 2 ∨ b = 3 ∨ b = 4 ∨ b = 5 ∨ b = 6 ∨ b = 7) as Hcases by lia.
  destruct Hcases as [->|[->|[->|[->|[->|[->|Hb']]]]]]; [vm_compute in Hc; done..|done].
Qed.

Lemma tiny_wf : alloc_wf tiny_sb tiny_tx.
Proof.
  split.
  - cbn. lia.
  - intros b Hb. rewrite tiny_BBLOCK by done. eexists. split; [apply tiny_map|].
    vm_compute. reflexivity.
  - done.
  - done.
  - done.
  - intros b Hb _. split_and!; [done|by apply tiny_view_dom|done].
  - intros b b' Hb Hb' Hf. rewrite tiny_BBLOCK by done. destruct (tiny_free b Hb Hf); lia.
Qed.

Lemma tiny_rep : frep tiny_fs tiny_tx.
Proof. split; [done|]. split; [|done]. intros b Hb%tiny_view_dom. lia. Qed.

Lemma tiny_space : t_space 2 tiny_tx.
Proof. split; cbn; rewrite ?dom_empty_L, ?union_empty_l_L, size_empty; lia. Qed.

Lemma tiny_free_6 : free tiny_sb tiny_view 6.
Proof. eexists. split; [rewrite tiny_BBLOCK by lia; apply tiny_map|]. vm_compute. reflexivity. Qed.

(** The allocation returns block 6, the lowest free block. *)
Lemma balloc_correct_witness :
  ∃ s' t', balloc 1 tiny_fs = Ok 6 s' ∧ frep s' t' ∧ ¬ free tiny_sb (t_view t') 6 ∧
    t_view t' !! 6 = Some (replicate BSIZE 0).
Proof.
  pose proof (balloc_correct tiny_fs tiny_tx tiny_rep tiny_wf tiny_space) as H.
  destruct (balloc 1 tiny_fs) as [b s'|msg| |]; [|destruct H as [_ H]; destruct (H 6); [cbn; lia|apply tiny_free_6]|done..].
  destruct H as (Hb & Hf & Hmin & t' & Hr & Hfree & Hz & _).
  assert (b = 6) as ->.
  { destruct (tiny_free b Hb Hf) as [->| ->]; [done|]. destruct (Hmin 6); [lia|apply tiny_free_6]. }
  exists s', t'. split; [done|]. split; [done|]. split; [|done].
  intros H6. apply (Hfree 6 Hb) in H6 as [_ []]. done.
Defined.

Lemma tiny_sb_disk : sb_on_disk tiny_sb tiny_tx.
Proof.
  exists tiny_sb_block. split; [|split; [|done]].
  - cbn. unfold tiny_view. rewrite lookup_insert_ne by done. apply lookup_insert_eq.
  - vm_compute. reflexivity.
Qed.

(** Block 5 was in use: it becomes free. *)
Lemma bfree_correct_witness :
  ∃ s' t', bfree 1 5 tiny_fs = Ok tt s' ∧ frep s' t' ∧ free tiny_sb (t_view t') 5 ∧ free tiny_sb (t_view t') 6.
Proof.
  pose proof (bfree_correct tiny_fs tiny_tx tiny_sb 5 tiny_rep tiny_sb_disk tiny_wf tiny_space) as H.
  specialize (H ltac:(cbn; lia)).
  destruct (bfree 1 5 tiny_fs) as [[] s'|msg| |]; [| |done..].
  - destruct H as (_ & t' & Hr & Hfree & _). exists s', t'. split; [done|]. split; [done|].
    split; apply Hfree; [cbn; lia|by right|cbn; lia|left; apply tiny_free_6].
  - exfalso. destruct H as [_ H]. destruct (tiny_free 5); [lia|done|done|done].
Defined.
