(* ===== verification/FsFile.v ===== *)
(** * File contents: bmap, readi and writei of fs.c

    A file is a function from offsets to bytes, given by the inode's direct
    addresses, its indirect block and the data blocks.  [readi] returns the
    bytes of that function, and [writei] within the allocated blocks updates it
    and nothing else. *)
From S2P Require Import Prelude Str Sleeplock Memide Log BlockLayer Fs FsAlloc.

(** ** The blocks of a file *)

(** The disk block of block [k] of file [x] in the disk view [v]; 0 if none. *)
Definition file_addr (v : gmap Z bytes) (x : inode) (k : Z) : Z :=
  if k <? NDIRECT then nth (Z.to_nat k) (i_addrs x) 0
  else match v !! nth NDIRECT (i_addrs x) 0 with
       | Some a => rd32 a (4 * Z.to_nat (k - NDIRECT))
       | None => 0
       end.

Definition file_byte (v : gmap Z bytes) (x : inode) (off : Z) : Z :=
  match v !! file_addr v x (off / BSIZE) with
  | Some d => nth (Z.to_nat (off `mod` BSIZE)) d 0
  | None => 0
  end.

Definition file_slice (v : gmap Z bytes) (x : inode) (off : Z) (n : nat) : bytes :=
  (λ i, file_byte v x (off + Z.of_nat i)) <$> seq 0 n.

Section file.
Context {S : Type} {BL : BlockLayer S}.
Implicit Types (t : tx) (x : inode) (k : Z).

(** Blocks [0, nb) of file [x] are allocated and can be used in [t]. *)
Record blocks_ok (t : tx) (x : inode) (nb : Z) : Prop := {
  bo_dev : i_dev x = 1;
  bo_max : 0 ≤ nb ≤ MAXFILE;
  bo_touched : t_touched t = ∅;
  bo_block : ∀ k, 0 ≤ k < nb →
    file_addr (t_view t) x k ≠ 0 ∧ t_held t !! file_addr (t_view t) x k = None ∧
    ∃ d, t_view t !! file_addr (t_view t) x k = Some d ∧ length d = BSIZE;
  bo_indirect : NDIRECT < nb →
    nth NDIRECT (i_addrs x) 0 ≠ 0 ∧ t_held t !! nth NDIRECT (i_addrs x) 0 = None ∧
    is_Some (t_view t !! nth NDIRECT (i_addrs x) 0);
}.

Lemma geti_run (s : fsst S) ip x : f_inode s !! ip = Some x → geti ip s = Ok x s.
Proof. unfold geti. by intros ->. Qed.

Lemma bmap_ok s t ip x nb k :
  frep s t → f_inode s !! ip = Some x → blocks_ok t x nb → t_space 1 t → 0 ≤ k < nb →
  ∃ s', bmap ip k s = Ok (file_addr (t_view t) x k) s' ∧ frep s' t ∧ same_meta s s'.
Proof.
  intros Hr Hx Hok Hsp Hk. destruct (bo_block _ _ _ Hok k Hk) as (Hnz & _ & _). pose proof Hok as [].
  unfold bmap. rewrite (bind_Ok _ _ _ _ _ (geti_run s ip x Hx)). unfold file_addr in *.
  destruct (Z.ltb_spec k NDIRECT) as [Hlt|Hge].
  - replace (nth (Z.to_nat k) (i_addrs x) 0 =? 0) with false by (symmetry; by apply Z.eqb_neq).
    by exists s.
  - replace (k - NDIRECT <? NINDIRECT) with true
      by (symmetry; apply Z.ltb_lt; unfold MAXFILE, NDIRECT, NINDIRECT in *; lia).
    destruct bo_indirect0 as (Hi0 & Hih & [a Ha]); [lia|]. rewrite Ha in *.
    replace (nth NDIRECT (i_addrs x) 0 =? 0) with false by (symmetry; by apply Z.eqb_neq).
    rewrite bind_ret, bo_dev0.
    destruct (read_block_ok s t _ a Hr Ha Hih) as (i & s1 & s2 & R1 & R2 & R3 & _ & Hr2 & _ & M2);
      [set_solver|by eapply space_room|].
    mstep R1. mstep R2.
    replace (rd32 a (4 * Z.to_nat (k - NDIRECT)) =? 0) with false by (symmetry; by apply Z.eqb_neq).
    rewrite bind_ret. mstep R3. by exists s2.
Qed.

Lemma file_slice_app v x off n m :
  file_slice v x off (n + m) = file_slice v x off n ++ file_slice v x (off + n) m.
Proof.
  unfold file_slice. rewrite seq_app, fmap_app. f_equal.
  rewrite Nat.add_0_l, <- (Nat.add_0_r n) at 1. rewrite <- fmap_add_seq, <- list_fmap_compose.
  apply list_fmap_ext. intros i j _. simpl. f_equal. lia.
Qed.

Lemma length_file_slice v x off n : length (file_slice v x off n) = n.
Proof. unfold file_slice. by rewrite length_fmap, length_seq. Qed.

(** A part of one block. *)
Lemma file_slice_block v x off (m : nat) d :
  0 ≤ off → v !! file_addr v x (off / BSIZE) = Some d → length d = BSIZE → off `mod` BSIZE + m ≤ BSIZE →
  file_slice v x off m = subarr d (Z.to_nat (off `mod` BSIZE)) m.
Proof.
  intros Ho Hd Hlen Hm. pose proof (Z.mod_pos_bound off BSIZE ltac:(done)) as Hb.
  apply list_eq. intros i. destruct (decide (i < m)%nat) as [Hi|Hi].
  - rewrite lookup_subarr by done. unfold file_slice. rewrite list_lookup_fmap.
    assert (seq 0 m !! i = Some i) as -> by by apply lookup_seq. simpl. unfold file_byte.
    assert ((off + i) / BSIZE = off / BSIZE ∧ (off + i) `mod` BSIZE = off `mod` BSIZE + i) as [-> ->].
    { pose proof (Z.div_mod off BSIZE ltac:(done)).
      split; [symmetry; apply (Z.div_unique_pos _ _ _ (off `mod` BSIZE + i))|
              symmetry; apply (Z.mod_unique_pos _ _ (off / BSIZE))]; lia. }
    rewrite Hd, nth_lookup.
    destruct (lookup_lt_is_Some_2 d (Z.to_nat (off `mod` BSIZE) + i)) as [c Hc]; [lia|].
    replace (Z.to_nat (off `mod` BSIZE + i)) with (Z.to_nat (off `mod` BSIZE) + i)%nat by lia.
    by rewrite Hc.
  - rewrite !lookup_ge_None_2; [done| |rewrite length_file_slice; lia]. rewrite length_subarr; lia.
Qed.

Lemma bo_range t x nb off : blocks_ok t x nb → 0 ≤ off < nb * BSIZE → 0 ≤ off / BSIZE < nb.
Proof.
  intros _ Ho. split; [apply Z.div_pos; [lia|done]|]. apply Z.div_lt_upper_bound; [done|]. lia.
Qed.

Lemma next_block_aligned off : (off - off `mod` BSIZE + 1 * BSIZE) `mod` BSIZE = 0.
Proof. rewrite Z.mod_add, Zminus_mod_idemp_r, Z.sub_diag by done. done. Qed.

(** Turns left in the loops of [readi] and [writei]. *)
Definition turns (off rest : Z) : Z :=
  if rest <=? 0 then 0 else (rest + off `mod` BSIZE + (BSIZE - 1)) / BSIZE.

Lemma turns_nonneg off rest : 0 ≤ turns off rest.
Proof.
  unfold turns. destruct (Z.leb_spec rest 0); [done|]. pose proof (Z.mod_pos_bound off BSIZE ltac:(done)).
  apply Z.div_pos; [lia|done].
Qed.

Lemma turns_step off rest :
  0 ≤ off → 0 < rest →
  let m := Z.min rest (BSIZE - off `mod` BSIZE) in
  0 < m ∧ off `mod` BSIZE + m ≤ BSIZE ∧ turns (off + m) (rest - m) + 1 ≤ turns off rest.
Proof.
  intros Ho Hrest m. pose proof (Z.mod_pos_bound off BSIZE ltac:(done)) as Hb.
  split_and!; [lia|lia|]. unfold turns.
  replace (rest <=? 0) with false by (symmetry; apply Z.leb_gt; lia).
  replace (rest + off `mod` BSIZE + (BSIZE - 1)) with
    ((rest + off `mod` BSIZE + (BSIZE - 1) - BSIZE) + 1 * BSIZE) by lia.
  rewrite Z.div_add by done. apply Z.add_le_mono_r.
  destruct (Z.leb_spec (rest - m) 0) as [Hle|Hgt]; [apply Z.div_pos; [lia|done]|].
  apply Z.div_le_mono; [done|]. assert (m = BSIZE - off `mod` BSIZE) as -> by lia.
  replace (off + (BSIZE - off `mod` BSIZE)) with (off - off `mod` BSIZE + 1 * BSIZE) by lia.
  rewrite next_block_aligned. lia.
Qed.

Lemma turns_fuel off n : 0 ≤ off → 0 ≤ n → turns off n < io_fuel n.
Proof.
  intros Ho Hn. unfold turns, io_fuel. pose proof (Z.mod_pos_bound off BSIZE ltac:(done)) as Hb.
  pose proof (Z.div_pos n BSIZE Hn ltac:(done)).
  destruct (Z.leb_spec n 0); [lia|].
  assert ((n + off `mod` BSIZE + (BSIZE - 1)) / BSIZE ≤ n / BSIZE + 2); [|lia].
  replace (n / BSIZE + 2) with ((n + 2 * BSIZE) / BSIZE) by (rewrite Z.div_add by done; lia).
  apply Z.div_le_mono; [done|]. lia.
Qed.

Lemma readi_loop_ok t x nb ip n : ∀ (fuel : nat) (s : fsst S) tot off acc,
  frep s t → f_inode s !! ip = Some x → blocks_ok t x nb → t_space 1 t →
  0 ≤ off → 0 ≤ tot ≤ n → off + (n - tot) ≤ nb * BSIZE → turns off (n - tot) < fuel →
  ∃ s', readi_loop ip fuel tot off n acc s = Ok (acc ++ file_slice (t_view t) x off (Z.to_nat (n - tot))) s' ∧
    frep s' t ∧ same_meta s s'.
Proof.
  induction fuel as [|fuel IH]; intros s tot off acc Hr Hx Hok Hsp Ho Ht Hn Hf.
  { exfalso. pose proof (turns_nonneg off (n - tot)). lia. }
  simpl readi_loop. destruct (Z.ltb_spec tot n) as [Hlt|Hge].
  2:{ exists s. assert (tot = n) as -> by lia. rewrite Z.sub_diag. cbn. rewrite app_nil_r. done. }
  destruct (turns_step off (n - tot) Ho ltac:(lia)) as (Hm0 & Hm1 & Hm2).
  set (m := Z.min (n - tot) (BSIZE - off `mod` BSIZE)) in *.
  rewrite (bind_Ok _ _ _ _ _ (geti_run s ip x Hx)).
  assert (0 ≤ off / BSIZE < nb) as Hk by (eapply bo_range; [done|]; lia).
  destruct (bmap_ok s t ip x nb _ Hr Hx Hok Hsp Hk) as (s1 & R1 & Hr1 & M1). mstep R1.
  destruct (bo_block _ _ _ Hok _ Hk) as (Hnz & Hh & d & Hd & Hlen). rewrite (bo_dev _ _ _ Hok).
  destruct (read_block_ok s1 t _ d Hr1 Hd Hh) as (i & s2 & s3 & R2 & R3 & R4 & _ & Hr3 & _ & M3);
    [rewrite (bo_touched _ _ _ Hok); set_solver|by eapply space_room|].
  mstep R2. mstep R3. mstep R4.
  assert (same_meta s s3) as M by by eapply same_meta_trans.
  destruct (IH s3 (tot + m) (off + m) (acc ++ subarr d (Z.to_nat (off `mod` BSIZE)) (Z.to_nat m)))
    as (s4 & R5 & Hr4 & M4); [done|by rewrite (proj2 M)|done|done|lia|lia|lia| |].
  { replace (n - (tot + m)) with (n - tot - m) by lia. lia. }
  exists s4. rewrite R5. split; [|split; [done|by eapply same_meta_trans]].
  f_equal. rewrite <- app_assoc. f_equal.
  rewrite <- (file_slice_block (t_view t) x off (Z.to_nat m) d) by (done || lia).
  replace (Z.to_nat (n - tot)) with (Z.to_nat m + Z.to_nat (n - (tot + m)))%nat by lia.
  rewrite file_slice_app. do 2 f_equal. lia.
Qed.

(** ** Writing *)

(** The file's blocks are its own: pairwise distinct, distinct from the
    indirect block, and loggable. *)
Record blocks_own (t : tx) (x : inode) (nb : Z) : Prop := {
  bw_inj : ∀ k1 k2, 0 ≤ k1 < nb → 0 ≤ k2 < nb →
    file_addr (t_view t) x k1 = file_addr (t_view t) x k2 → k1 = k2;
  bw_indirect : ∀ k, 0 ≤ k < nb → file_addr (t_view t) x k ≠ nth NDIRECT (i_addrs x) 0;
  bw_home : ∀ k, 0 ≤ k < nb → bl_home (file_addr (t_view t) x k);
}.

(** [t'] is [t] with the data of some of the file's blocks changed. *)
Record data_change (t t' : tx) (x : inode) (nb : Z) : Prop := {
  dc_held : t_held t' = t_held t;
  dc_addr : ∀ k, file_addr (t_view t') x k = file_addr (t_view t) x k;
  dc_other : ∀ c, (∀ k, 0 ≤ k < nb → c ≠ file_addr (t_view t) x k) → t_view t' !! c = t_view t !! c;
  dc_ok : blocks_ok t' x nb;
  dc_own : blocks_own t' x nb;
}.

Lemma data_change_refl t x nb : blocks_ok t x nb → blocks_own t x nb → data_change t t x nb.
Proof. by split. Qed.
Lemma data_change_trans t1 t2 t3 x nb : data_change t1 t2 x nb → data_change t2 t3 x nb → data_change t1 t3 x nb.
Proof.
  intros [] []. split; try done; [congruence|intros; congruence|].
  intros c Hc. rewrite dc_other1, dc_other0; [done|done|]. intros k Hk. rewrite dc_addr0. auto.
Qed.

Lemma put_data_change t x nb k d :
  blocks_ok t x nb → blocks_own t x nb → 0 ≤ k < nb → length d = BSIZE →
  data_change t (t_put (file_addr (t_view t) x k) d t) x nb.
Proof.
  intros Hok Hown Hk Hd. set (a := file_addr (t_view t) x k). pose proof Hown as []. pose proof Hok as [].
  assert (∀ j, file_addr (t_view (t_put a d t)) x j = file_addr (t_view t) x j) as Ha.
  { intros j. unfold file_addr. destruct (j <? NDIRECT); [done|]. cbn.
    rewrite lookup_insert_ne; [done|]. by apply bw_indirect0. }
  split; [done|done| | |].
  - intros c Hc. cbn. apply lookup_insert_ne. by apply not_eq_sym, Hc.
  - split; [done|done| | |].
    + cbn. rewrite bo_touched0. set_solver.
    + intros j Hj. rewrite Ha. destruct (bo_block0 j Hj) as (? & ? & e & He & Hle).
      split; [done|]. split; [done|]. cbn. destruct (decide (file_addr (t_view t) x j = a)) as [->|Hne].
      * rewrite lookup_insert_eq. eauto.
      * rewrite lookup_insert_ne by done. eauto.
    + intros Hnb. destruct (bo_indirect0 Hnb) as (? & ? & ?). split_and!; [done..|]. cbn.
      rewrite lookup_insert_ne; [done|]. by apply bw_indirect0.
  - split; intros; rewrite ?Ha in *; auto.
Qed.

(** Bytes [o] of the file after the block at [off] was assigned in part. *)
Lemma file_byte_put t x nb off chunk d o :
  blocks_ok t x nb → blocks_own t x nb → 0 ≤ off < nb * BSIZE → 0 ≤ o < nb * BSIZE →
  t_view t !! file_addr (t_view t) x (off / BSIZE) = Some d → length d = BSIZE →
  off `mod` BSIZE + length chunk ≤ BSIZE →
  file_byte (t_view (t_put (file_addr (t_view t) x (off / BSIZE))
               (list_inserts (Z.to_nat (off `mod` BSIZE)) chunk d) t)) x o =
  if (off <=? o) && (o <? off + length chunk) then nth (Z.to_nat (o - off)) chunk 0
  else file_byte (t_view t) x o.
Proof.
  intros Hok Hown Hoff Ho Hd Hlen Hfit.
  pose proof (bo_range _ _ _ _ Hok Hoff) as Hk. pose proof (bo_range _ _ _ _ Hok Ho) as Hko.
  pose proof (Z.mod_pos_bound off BSIZE ltac:(done)) as Hmo. pose proof (Z.mod_pos_bound o BSIZE ltac:(done)) as Hm.
  pose proof (Z.div_mod off BSIZE ltac:(done)) as Do. pose proof (Z.div_mod o BSIZE ltac:(done)) as D.
  assert (length (list_inserts (Z.to_nat (off `mod` BSIZE)) chunk d) = BSIZE) as Hli by by rewrite length_inserts.
  unfold file_byte. rewrite (dc_addr _ _ _ _ (put_data_change t x nb _ _ Hok Hown Hk Hli)). cbn [t_put t_view].
  destruct (decide (o / BSIZE = off / BSIZE)) as [E|E].
  - rewrite E, lookup_insert_eq, Hd, !nth_lookup.
    destruct (Z.leb_spec off o) as [H1|H1]; cbn [andb].
    + destruct (Z.ltb_spec o (off + length chunk)) as [H2|H2].
      * rewrite list_lookup_inserts by lia. do 2 f_equal. lia.
      * rewrite list_lookup_inserts_ge by lia. done.
    + rewrite list_lookup_inserts_lt by lia. done.
  - rewrite lookup_insert_ne by (intros H; by apply E, (bw_inj _ _ _ Hown)).
    destruct (Z.leb_spec off o) as [H1|H1]; cbn [andb]; [|done].
    destruct (Z.ltb_spec o (off + length chunk)) as [H2|H2]; [|done].
    exfalso. apply E. nia.
Qed.

Lemma nth_subarr (l : bytes) a m j : (j < m)%nat → nth j (subarr l a m) 0 = nth (a + j) l 0.
Proof. intros Hj. rewrite !nth_lookup. by rewrite lookup_subarr. Qed.

Lemma writei_loop_ok x nb ip src n : ∀ (fuel : nat) (s : fsst S) t tot off,
  frep s t → f_inode s !! ip = Some x → blocks_ok t x nb → blocks_own t x nb →
  0 ≤ off → 0 ≤ tot ≤ n → n ≤ length src → off + (n - tot) ≤ nb * BSIZE → turns off (n - tot) < fuel →
  t_space (Datatypes.S (Z.to_nat (turns off (n - tot)))) t →
  ∃ s' t', writei_loop ip src fuel tot off n s = Ok (off + (n - tot)) s' ∧
    frep s' t' ∧ same_meta s s' ∧ data_change t t' x nb ∧
    ∀ o, 0 ≤ o < nb * BSIZE → file_byte (t_view t') x o =
      if (off <=? o) && (o <? off + (n - tot)) then nth (Z.to_nat (tot + (o - off))) src 0
      else file_byte (t_view t) x o.
Proof.
  induction fuel as [|fuel IH]; intros s t tot off Hr Hx Hok Hown Ho Ht Hsrc Hn Hf Hsp.
  { exfalso. pose proof (turns_nonneg off (n - tot)). lia. }
  simpl writei_loop. destruct (Z.ltb_spec tot n) as [Hlt|Hge].
  2:{ exists s, t. assert (tot = n) as -> by lia. rewrite Z.sub_diag, Z.add_0_r. split_and!; try done.
      intros o Ho'. destruct (Z.leb_spec off o), (Z.ltb_spec o off); cbn; (done || lia). }
  destruct (turns_step off (n - tot) Ho ltac:(lia)) as (Hm0 & Hm1 & Hm2).
  pose proof (turns_nonneg (off + Z.min (n - tot) (BSIZE - off `mod` BSIZE))
                (n - tot - Z.min (n - tot) (BSIZE - off `mod` BSIZE))) as Hm3.
  set (m := Z.min (n - tot) (BSIZE - off `mod` BSIZE)) in *.
  rewrite (bind_Ok _ _ _ _ _ (geti_run s ip x Hx)).
  assert (0 ≤ off < nb * BSIZE) as Hoff by lia.
  pose proof (bo_range _ _ _ _ Hok Hoff) as Hk.
  destruct (bmap_ok s t ip x nb (off / BSIZE) Hr Hx Hok) as (s1 & R1 & Hr1 & M1);
    [destruct Hsp; split; lia|done|]. mstep R1.
  destruct (bo_block _ _ _ Hok _ Hk) as (Hnz & Hh & d & Hd & Hlen). rewrite (bo_dev _ _ _ Hok).
  set (a := file_addr (t_view t) x (off / BSIZE)) in *.
  destruct (fbread_ok s1 t a Hr1) as (i & s2 & R2 & Hr2 & M2); [eauto|done|by eapply space_room; [done|lia]|].
  destruct (fdata_ok s2 _ a i Hr2) as (d' & Hd' & R3); [apply lookup_insert_eq|].
  cbn in Hd'. rewrite Hd in Hd'. injection Hd' as <-. mstep R2. mstep R3.
  set (chunk := subarr src (Z.to_nat tot) (Z.to_nat m)).
  assert (length chunk = Z.to_nat m) as Hcl by (apply length_subarr; lia).
  destruct (write_back_ok s2 t a i (list_inserts (Z.to_nat (off `mod` BSIZE)) chunk d) Hr2 Hh)
    as (s3 & _ & R4 & Hr3 & M3); [by apply (bw_home _ _ _ Hown)|destruct Hsp; lia|]. rewrite R4.
  pose proof (put_data_change t x nb (off / BSIZE) (list_inserts (Z.to_nat (off `mod` BSIZE)) chunk d)
                Hok Hown Hk ltac:(by rewrite length_inserts)) as Hdc. fold a in Hdc.
  assert (same_meta s s3) as M by (eapply same_meta_trans; [exact M1|]; by eapply same_meta_trans).
  destruct (IH s3 _ (tot + m) (off + m) Hr3) as (s4 & t4 & R5 & Hr4 & M4 & Hdc4 & Hb4);
    [by rewrite (proj2 M)|apply Hdc|apply Hdc|lia|lia|lia|lia| | |].
  { replace (n - (tot + m)) with (n - tot - m) by lia. lia. }
  { replace (n - (tot + m)) with (n - tot - m) by lia. apply space_put.
    destruct Hsp. split; lia. }
  exists s4, t4. rewrite R5. split; [f_equal; lia|]. split; [done|].
  split; [by eapply same_meta_trans|]. split; [by eapply data_change_trans|].
  intros o Hob. rewrite Hb4 by done. unfold a.
  rewrite (file_byte_put t x nb off chunk d o) by (done || lia). rewrite Hcl.
  destruct (Z.leb_spec (off + m) o), (Z.ltb_spec o (off + m + (n - (tot + m)))),
    (Z.leb_spec off o), (Z.ltb_spec o (off + Z.to_nat m)), (Z.ltb_spec o (off + (n - tot)));
    cbn [andb]; try lia; try done.
  - f_equal. lia.
  - unfold chunk. rewrite nth_subarr by lia. f_equal. lia.
Qed.
End file.

Lemma readi_ok {S} {BL : BlockLayer S} (devsw : Z → devfuns S) (s : fsst S) t ip x off n :
  frep s t → f_inode s !! ip = Some x → i_type x ≠ T_DEV →
  blocks_ok t x ((i_size x + (BSIZE - 1)) / BSIZE) → t_space 1 t →
  is_u32 off → is_u32 n → 0 ≤ i_size x ≤ MAXFILE * BSIZE →
  ∃ s', frep s' t ∧ same_meta s s' ∧
    readi devsw ip off n s =
      Ok (if (i_size x <? off) || (2 ^ 32 <=? off + n) then (-1, [])
          else let len := Z.min n (i_size x - off) in
               (len, file_slice (t_view t) x off (Z.to_nat len))) s'.
Proof.
  intros Hr Hx Hty Hok Hsp Ho Hn Hsz. unfold is_u32 in *. unfold readi.
  rewrite (bind_Ok _ _ _ _ _ (geti_run s ip x Hx)).
  replace (i_type x =? T_DEV) with false by (symmetry; by apply Z.eqb_neq).
  destruct (Z.ltb_spec (i_size x) off) as [Hlt|Hge]; [exists s; done|].
  destruct (Z.leb_spec (2 ^ 32) (off + n)) as [Hwrap|Hfit]; simpl orb.
  - assert (u32 (off + n) = off + n - 2 ^ 32) as ->.
    { symmetry. apply (Z.mod_unique_pos _ _ 1); lia. }
    replace (off + n - 2 ^ 32 <? off) with true by (symmetry; apply Z.ltb_lt; lia).
    by exists s.
  - rewrite u32_small by (unfold is_u32; lia).
    replace (off + n <? off) with false by (symmetry; apply Z.ltb_ge; lia).
    set (n' := if i_size x <? off + n then i_size x - off else n).
    assert (n' = Z.min n (i_size x - off)) as En.
    { unfold n'. destruct (Z.ltb_spec (i_size x) (off + n)); lia. }
    pose proof (Z.mul_succ_div_gt (i_size x + (BSIZE - 1)) BSIZE ltac:(done)) as Hup.
    destruct (readi_loop_ok t x _ ip n' (io_fuel n') s 0 off [] Hr Hx Hok Hsp) as (s' & R & Hr' & M).
    { lia. } { lia. } { unfold MAXFILE, BSIZE in *. lia. } { rewrite Z.sub_0_r. apply turns_fuel; lia. }
    exists s'. split; [done|]. split; [done|]. cbn [orb]. mstep R. rewrite Z.sub_0_r, s32_small.
    + cbn zeta. rewrite <- En. done.
    + unfold is_s32, MAXFILE, BSIZE in *. lia.
Qed.

(** C24: readi returns the file's bytes.  For an inode whose blocks are
    allocated, reading [n] bytes at [off] within the file returns exactly the
    bytes [off, min(off + n, size)) of the file and their number; past the end
    of the file, or when [off + n] wraps around, it returns -1.  The open
    transaction and the inodes are unchanged. *)
Theorem readi_correct {S} {BL : BlockLayer S} (devsw : Z → devfuns S) (s : fsst S) t ip x off n :
  frep s t → f_inode s !! ip = Some x → i_type x ≠ T_DEV →
  blocks_ok t x ((i_size x + (BSIZE - 1)) / BSIZE) → t_space 1 t →
  is_u32 off → is_u32 n → 0 ≤ i_size x ≤ MAXFILE * BSIZE →
  ∃ s', frep s' t ∧ same_meta s s' ∧
    readi devsw ip off n s =
      Ok (if (i_size x <? off) || (2 ^ 32 <=? off + n) then (-1, [])
          else let len := Z.min n (i_size x - off) in
               (len, file_slice (t_view t) x off (Z.to_nat len))) s'.
Proof. apply readi_ok. Qed.

(** C25: writei within the file's blocks updates exactly the written range.
    For a file whose blocks are allocated and its own, writing [n] bytes of
    [src] at [off] (inside the file) returns [n]; afterwards the file's bytes
    [off, off + n) are those of [src], its other bytes, its block addresses, its
    inode and every block that is not the file's are unchanged, and all the
    changes are part of the open transaction. *)
Theorem writei_correct {S} {BL : BlockLayer S} (devsw : Z → devfuns S) (s : fsst S) t ip x src off n :
  let nb := (i_size x + (BSIZE - 1)) / BSIZE in
  frep s t → f_inode s !! ip = Some x → i_type x ≠ T_DEV →
  blocks_ok t x nb → blocks_own t x nb → t_space (Datatypes.S (Z.to_nat (turns off n))) t →
  0 ≤ off → 0 ≤ n ≤ length src → off + n ≤ i_size x ≤ MAXFILE * BSIZE →
  ∃ s' t', writei devsw ip src off n s = Ok n s' ∧ frep s' t' ∧ same_meta s s' ∧
    (∀ o, 0 ≤ o < i_size x → file_byte (t_view t') x o =
       if (off <=? o) && (o <? off + n) then nth (Z.to_nat (o - off)) src 0 else file_byte (t_view t) x o) ∧
    (∀ k, file_addr (t_view t') x k = file_addr (t_view t) x k) ∧
    (∀ c, (∀ k, 0 ≤ k < nb → c ≠ file_addr (t_view t) x k) → t_view t' !! c = t_view t !! c) ∧
    t_held t' = t_held t.
Proof.
  intros nb Hr Hx Hty Hok Hown Hsp Ho Hn Hsz. unfold writei.
  rewrite (bind_Ok _ _ _ _ _ (geti_run s ip x Hx)).
  replace (i_type x =? T_DEV) with false by (symmetry; by apply Z.eqb_neq).
  assert (MAXFILE * BSIZE = 71680) as Hmax by done.
  rewrite u32_small by (unfold is_u32; lia).
  replace (i_size x <? off) with false by (symmetry; apply Z.ltb_ge; lia).
  replace (off + n <? off) with false by (symmetry; apply Z.ltb_ge; lia).
  replace (MAXFILE * BSIZE <? off + n) with false by (symmetry; apply Z.ltb_ge; lia). cbn [orb].
  pose proof (Z.mul_succ_div_gt (i_size x + (BSIZE - 1)) BSIZE ltac:(done)) as Hup. fold nb in Hup.
  assert (i_size x ≤ nb * BSIZE) as Hnb by lia.
  destruct (writei_loop_ok x nb ip src n (io_fuel n) s t 0 off Hr Hx Hok Hown) as (s1 & t1 & R1 & Hr1 & M1 & Hdc & Hb);
    rewrite ?Z.sub_0_r; [lia|lia|lia|lia|apply turns_fuel; lia|done|].
  mstep R1. rewrite Z.sub_0_r in *.
  rewrite (bind_Ok _ _ _ _ _ (geti_run s1 ip x ltac:(by rewrite (proj2 M1)))).
  replace (i_size x <? off + n) with false by (symmetry; apply Z.ltb_ge; lia).
  rewrite andb_false_r, bind_ret.
  exists s1, t1. split; [unfold ret; f_equal; apply s32_small; unfold is_s32; lia|].
  destruct Hdc. split_and!; try done.
  intros o Hob. rewrite Hb by lia. by rewrite Z.add_0_l.
Qed.

(** ** A file of 700 bytes in blocks 5 and 6 *)

Definition demo_inode : inode :=
  mkInode 1 2 1 (mkSleep 1 7) 1 T_FILE 0 0 1 700 ([5; 6] ++ replicate 11 0).
Definition demo_view : gmap Z bytes := <[5 := replicate BSIZE 65]> (<[6 := replicate BSIZE 66]> ∅).
Definition demo_tx : tx := mkTx demo_view ∅ ∅ ∅.
Definition demo_fs : fsst tx := mkFsst demo_tx tiny_sb [demo_inode].
Definition no_dev : Z → devfuns tx := λ _, mkDev tx None None.

#[local] Instance demo_layer : BlockLayer tx := ram_layer 30 29.

Lemma demo_rep : frep demo_fs demo_tx.
Proof.
  split; [done|]. split; [|done]. intros b. cbn. unfold demo_view. rewrite !lookup_insert_is_Some'.
  intros [<-|[<-|[? Hx]]]; [lia|lia|done].
Qed.

Lemma demo_addr k : 0 ≤ k < 2 → file_addr demo_view demo_inode k = 5 + k.
Proof. intros Hk. assert (k = 0 ∨ k = 1) as [-> | ->] by lia; vm_compute; reflexivity. Qed.

Lemma demo_nb : (i_size demo_inode + (BSIZE - 1)) / BSIZE = 2.
Proof. vm_compute. reflexivity. Qed.

Lemma demo_ok : blocks_ok demo_tx demo_inode 2.
Proof.
  split; try done. intros k Hk. cbn [t_view t_held demo_tx]. rewrite demo_addr by done.
  split; [lia|]. split; [done|]. assert (k = 0 ∨ k = 1) as [-> | ->] by lia.
  - exists (replicate BSIZE 65). split; [apply lookup_insert_eq|apply length_replicate].
  - exists (replicate BSIZE 66). split; [|apply length_replicate]. unfold demo_view.
    rewrite lookup_insert_ne by lia. apply lookup_insert_eq.
Qed.

Lemma demo_own : blocks_own demo_tx demo_inode 2.
Proof.
  split; cbn [t_view demo_tx].
  - intros k1 k2 H1 H2. rewrite !demo_addr by done. lia.
  - intros k Hk. rewrite demo_addr by done. change (5 + k ≠ 0). lia.
  - done.
Qed.

(** 20 bytes across the block boundary. *)
Lemma readi_correct_witness :
  ∃ s', frep s' demo_tx ∧ same_meta demo_fs s' ∧
    readi no_dev 0 502 20 demo_fs = Ok (20, replicate 10 65 ++ replicate 10 66) s'.
Proof.
  destruct (readi_correct no_dev demo_fs demo_tx 0 demo_inode 502 20) as (s' & Hr & M & R).
  - exact demo_rep.
  - reflexivity.
  - done.
  - rewrite demo_nb. exact demo_ok.
  - split; cbn; rewrite ?dom_empty_L, ?union_empty_l_L, size_empty; lia.
  - unfold is_u32; lia.
  - unfold is_u32; lia.
  - cbn. unfold MAXFILE, BSIZE. lia.
  - exists s'. split; [exact Hr|]. split; [exact M|]. rewrite R. vm_compute. reflexivity.
Defined.

Lemma writei_correct_witness :
  ∃ s' t', writei no_dev 0 [1; 2; 3; 4] 510 4 demo_fs = Ok 4 s' ∧ frep s' t' ∧
    file_byte (t_view t') demo_inode 511 = 2 ∧ file_byte (t_view t') demo_inode 512 = 3 ∧
    file_byte (t_view t') demo_inode 514 = 66.
Proof.
  destruct (writei_correct no_dev demo_fs demo_tx 0 demo_inode [1; 2; 3; 4] 510 4)
    as (s' & t' & R & Hr & _ & Hb & _).
  - exact demo_rep.
  - reflexivity.
  - done.
  - rewrite demo_nb. exact demo_ok.
  - rewrite demo_nb. exact demo_own.
  - split; cbn; rewrite ?dom_empty_L, ?union_empty_l_L, size_empty; vm_compute; lia.
  - lia.
  - simpl; lia.
  - cbn. unfold MAXFILE, BSIZE. lia.
  - exists s', t'. split; [exact R|]. split; [exact Hr|].
    rewrite !Hb by (cbn; lia). split; [reflexivity|]. split; [reflexivity|]. vm_compute. reflexivity.
Defined.
