(* ===== verification/FsDir.v ===== *)
(** * Path names: the inode cache, dirlookup and namex of fs.c

    The inode cache is a map from inode numbers to reference counts, [icache];
    iget, idup, ilock, iunlock and iput act on that map.  A directory is a list
    of entries, and [walk] resolves a path on the disk.  The theorem: namei and
    nameiparent find what [walk] finds, take one reference to it, and give
    back every other reference they took. *)
From S2P Require Import Prelude Str Sleeplock Memide Log BlockLayer Fs FsAlloc FsFile.

(** ** The disk as a tree *)

Definition disk_inode (sb : superblock) (v : gmap Z bytes) (i : Z) : dinode :=
  decode_dinode (default [] (v !! IBLOCK i sb)) (dinode_off i).

(** The inode of number [i] as the cache holds it. *)
Definition inode_at (sb : superblock) (v : gmap Z bytes) (i : Z) : inode :=
  with_disk (disk_inode sb v i) (mkInode 1 i 1 (mkSleep 0 0) 1 0 0 0 0 0 []).

Definition dir_entry (v : gmap Z bytes) (x : inode) (k : nat) : bytes := file_slice v x (16 * k) 16.

(** The name of an entry, as a string. *)
Definition entry_name (e : bytes) : list Z := cprefix (cstr (de_name e)) DIRSIZ.

Definition names (w : list Z) (e : bytes) : bool := negb (de_inum e =? 0) && bool_decide (entry_name e = w).

(** The inode number of the first entry in use with the name [w]. *)
Definition dir_find (v : gmap Z bytes) (x : inode) (w : list Z) : option Z :=
  (λ k, de_inum (dir_entry v x k)) <$> find (λ k, names w (dir_entry v x k)) (seq 0 (dirent_count (i_size x))).

(** The inode a path leads to from inode [i], or the directory of its last
    element. *)
Fixpoint walk (sb : superblock) (v : gmap Z bytes) (parent : bool) (i : Z) (es : list (list Z)) : option Z :=
  match es with
  | [] => if parent then None else Some i
  | e :: es =>
      if negb (di_type (disk_inode sb v i) =? T_DIR) then None else
      if parent && bool_decide (es = []) then Some i else
      match dir_find v (inode_at sb v i) (take DIRSIZ e) with
      | Some j => walk sb v parent j es
      | None => None
      end
  end.

(** A search loop whose turns keep [P]. *)
Lemma first_some_run {S A B} (P : S → Prop) (f : A → M S (option B)) (p : A → bool) (h : A → B) l :
  (∀ y s, y ∈ l → P s → ∃ s', f y s = Ok (if p y then Some (h y) else None) s' ∧ P s') →
  ∀ s, P s → ∃ s', first_some l f s = Ok (h <$> find p l) s' ∧ P s'.
Proof.
  induction l as [|y l IH]; intros Hf s Hs; cbn [first_some find]; [by exists s|].
  destruct (Hf y s (list_elem_of_here _ _) Hs) as (s1 & R & Hs1). mstep R. destruct (p y); [by exists s1|].
  apply IH; [|done]. intros z s2 Hz. apply Hf. by apply list_elem_of_further.
Qed.

Section cache.
Context {S : Type} {BL : BlockLayer S} (me : Z) (devsw : Z → devfuns S) (sb : superblock).
Implicit Types (s : fsst S) (t : tx) (x y : inode) (ip : nat) (i : Z) (A : gmap Z Z).

(** ** The inode cache *)

(** The inodes in use, with their reference counts. *)
Definition active (l : list inode) : list (Z * Z) :=
  omap (λ x, if 0 <? i_ref x then Some (i_inum x, i_ref x) else None) l.

Definition lock_free x : Prop := sl_locked (i_lock x) = 0.
Definition lock_mine x : Prop := i_lock x = mkSleep 1 me ∧ i_valid x = 1 ∧ 0 < i_ref x.

(** An entry of the cache agrees with the disk. *)
Record entry_ok t x : Prop := {
  eo_ref : 0 ≤ i_ref x;
  eo_dev : 0 < i_ref x → i_dev x = 1;
  eo_disk : 0 < i_ref x → i_valid x = 0 ∨ (i_valid x = 1 ∧ dinode_of x = disk_inode sb (t_view t) (i_inum x)) }.

(** The cache holds the references [A]; this process has locked [lk] only. *)
Record icache s t A (lk : option nat) : Prop := {
  ic_rep : frep s t;
  ic_sb : f_sb s = sb;
  ic_active : active (f_inode s) ≡ₚ map_to_list A;
  ic_entry : ∀ ip x, f_inode s !! ip = Some x → entry_ok t x;
  ic_lock : ∀ ip x, f_inode s !! ip = Some x → if bool_decide (lk = Some ip) then lock_mine x else lock_free x }.

(** One more reference to [i]. *)
Definition bump (i : Z) A : gmap Z Z := <[i := default 0 (A !! i) + 1]> A.

(** The counts are positive and [n] more references do not overflow. *)
Definition small (n : Z) A : Prop := map_Forall (λ _ r, 0 < r < 2 ^ 31 - n) A.

Lemma small_bump n i A : small (n + 1) A → 0 ≤ n < 1000 → small n (bump i A).
Proof.
  intros H Hn j r. unfold bump. destruct (decide (j = i)) as [->|Hne].
  - rewrite lookup_insert_eq. intros [= <-]. destruct (A !! i) as [q|] eqn:E; cbn; [pose proof (H i q E) as Hq; cbn in Hq|]; lia.
  - rewrite lookup_insert_ne by done. intros E. pose proof (H j r E) as Hq. cbn in Hq. lia.
Qed.
Lemma small_le n m A : small n A → m ≤ n → small m A.
Proof. intros H Hm j r E. pose proof (H j r E) as Hq. cbn in Hq. lia. Qed.
Lemma bump_comm i j A : bump i (bump j A) = bump j (bump i A).
Proof.
  unfold bump. destruct (decide (i = j)) as [->|Hne]; [done|]. rewrite !lookup_insert_ne by done. by apply insert_insert_ne.
Qed.
Lemma size_bump i A : (size (bump i A) ≤ Datatypes.S (size A))%nat.
Proof. unfold bump. rewrite map_size_insert. case_match; simpl; lia. Qed.

Lemma active_app l k : active (l ++ k) = active l ++ active k.
Proof. apply omap_app. Qed.
Lemma active_cons x l : active (x :: l) = (if 0 <? i_ref x then [(i_inum x, i_ref x)] else []) ++ active l.
Proof. unfold active. simpl. by destruct (0 <? i_ref x). Qed.

(** The entry of the cache that changes, and the others. *)
Lemma active_split l ip x y : l !! ip = Some x →
  active l ≡ₚ (if 0 <? i_ref x then [(i_inum x, i_ref x)] else []) ++ active (take ip l ++ drop (Datatypes.S ip) l) ∧
  active (<[ip := y]> l) ≡ₚ (if 0 <? i_ref y then [(i_inum y, i_ref y)] else []) ++ active (take ip l ++ drop (Datatypes.S ip) l).
Proof.
  intros Hx. split.
  - rewrite <- (take_drop_middle l ip x Hx) at 1. rewrite !active_app, active_cons. solve_Permutation.
  - rewrite insert_take_drop by (by eapply lookup_lt_Some). rewrite !active_app, active_cons. solve_Permutation.
Qed.

Lemma ic_ref s t A lk ip x : icache s t A lk → f_inode s !! ip = Some x → 0 < i_ref x → A !! i_inum x = Some (i_ref x).
Proof.
  intros Hc Hx Hr. apply elem_of_map_to_list. rewrite <- (ic_active _ _ _ _ Hc).
  destruct (active_split (f_inode s) ip x x Hx) as [-> _]. rewrite (proj2 (Z.ltb_lt _ _) Hr). apply list_elem_of_here.
Qed.

(** Each inode is in the cache once. *)
Lemma ic_unique s t A lk ip jp x y : icache s t A lk → f_inode s !! ip = Some x → f_inode s !! jp = Some y →
  0 < i_ref x → 0 < i_ref y → i_inum x = i_inum y → ip = jp.
Proof.
  intros Hc Hx Hy Hrx Hry E. destruct (decide (ip = jp)) as [|Hne]; [done|]. exfalso.
  assert (NoDup (active (f_inode s)).*1) as Hnd by (rewrite (ic_active _ _ _ _ Hc); apply NoDup_fst_map_to_list).
  destruct (active_split (f_inode s) ip x x Hx) as [Hp _]. rewrite Hp, (proj2 (Z.ltb_lt _ _) Hrx) in Hnd. cbn in Hnd.
  apply list.NoDup_cons in Hnd as [Hno _]. apply Hno. rewrite E. apply (list_elem_of_fmap_2 fst _ (i_inum y, i_ref y)).
  assert (y ∈ take ip (f_inode s) ++ drop (Datatypes.S ip) (f_inode s)) as Hin.
  { apply elem_of_app. destruct (decide (jp < ip)%nat).
    - left. apply (list_elem_of_lookup_2 _ jp). by rewrite lookup_take_lt.
    - right. apply (list_elem_of_lookup_2 _ (jp - Datatypes.S ip)). rewrite lookup_drop. rewrite <- Hy. f_equal. lia. }
  unfold active. apply list_elem_of_omap. exists y. split; [done|]. by rewrite (proj2 (Z.ltb_lt _ _) Hry).
Qed.

(** A change of one entry. *)
Lemma icache_change s s' t A A' lk lk' ip x y : icache s t A lk → f_inode s !! ip = Some x →
  f_inode s' = <[ip := y]> (f_inode s) → frep s' t → f_sb s' = sb → entry_ok t y →
  (if bool_decide (lk' = Some ip) then lock_mine y else lock_free y) →
  (∀ jp, jp ≠ ip → bool_decide (lk' = Some jp) = bool_decide (lk = Some jp)) →
  ((if 0 <? i_ref y then [(i_inum y, i_ref y)] else []) ++ active (take ip (f_inode s) ++ drop (Datatypes.S ip) (f_inode s)) ≡ₚ map_to_list A') →
  icache s' t A' lk'.
Proof.
  intros [Hr Hs Ha He Hl] Hx Hi Hr' Hs' Hy Hly Hlk Hact. pose proof (lookup_lt_Some _ _ _ Hx) as Hlt. split; [done|done| | |].
  - rewrite Hi. destruct (active_split (f_inode s) ip x y Hx) as [_ ->]. done.
  - intros jp z. rewrite Hi. destruct (decide (jp = ip)) as [->|Hne].
    + rewrite list_lookup_insert_eq by done. intros [= <-]. done.
    + rewrite list_lookup_insert_ne by done. apply He.
  - intros jp z. rewrite Hi. destruct (decide (jp = ip)) as [->|Hne].
    + rewrite list_lookup_insert_eq by done. intros [= <-]. done.
    + rewrite list_lookup_insert_ne, Hlk by done. apply Hl.
Qed.

(** A change that keeps the references. *)
Lemma icache_keep s s' t A lk lk' ip x y : icache s t A lk → f_inode s !! ip = Some x →
  f_inode s' = <[ip := y]> (f_inode s) → frep s' t → f_sb s' = sb → entry_ok t y →
  (if bool_decide (lk' = Some ip) then lock_mine y else lock_free y) →
  (∀ jp, jp ≠ ip → bool_decide (lk' = Some jp) = bool_decide (lk = Some jp)) →
  i_ref y = i_ref x → i_inum y = i_inum x → icache s' t A lk'.
Proof.
  intros Hc Hx Hi Hr' Hs' Hy Hly Hlk Er Ei. eapply icache_change; try done. rewrite Er, Ei.
  destruct (active_split (f_inode s) ip x x Hx) as [<- _]. apply Hc.
Qed.

(** The inodes in use stay where they are. *)
Definition keeps s s' : Prop := length (f_inode s') = length (f_inode s) ∧
  ∀ jp x, f_inode s !! jp = Some x → 0 < i_ref x → ∃ x', f_inode s' !! jp = Some x' ∧ i_inum x' = i_inum x ∧ 0 < i_ref x'.

Lemma keeps_refl s : keeps s s.
Proof. split; [done|]. eauto. Qed.
Lemma keeps_meta s s1 s2 : keeps s s1 → same_meta s1 s2 → keeps s s2.
Proof. intros H [_ E]. unfold keeps in *. by rewrite E. Qed.
Lemma keeps_trans s1 s2 s3 : keeps s1 s2 → keeps s2 s3 → keeps s1 s3.
Proof.
  intros [L1 H1] [L2 H2]. split; [congruence|]. intros jp x Hx Hr. destruct (H1 jp x Hx Hr) as (x' & Hx' & E & Hr').
  destruct (H2 jp x' Hx' Hr') as (x'' & Hx'' & E' & Hr''). exists x''. split; [done|]. split; [congruence|done].
Qed.
Lemma keeps_change s s' ip x y : f_inode s !! ip = Some x → f_inode s' = <[ip := y]> (f_inode s) →
  (0 < i_ref x → i_inum y = i_inum x ∧ 0 < i_ref y) → keeps s s'.
Proof.
  intros Hx E Hy. split; [rewrite E; apply length_insert|]. intros jp z Hz Hr. rewrite E. destruct (decide (jp = ip)) as [->|Hne].
  - rewrite Hx in Hz. injection Hz as <-. exists y. rewrite list_lookup_insert_eq by (by eapply lookup_lt_Some). split; [done|]. by apply Hy.
  - exists z. by rewrite list_lookup_insert_ne.
Qed.

Lemma icache_meta s s' t A lk : icache s t A lk → frep s' t → same_meta s s' → icache s' t A lk.
Proof. intros [] Hr [E1 E2]. split; rewrite ?E1, ?E2; try done. Qed.

Lemma modi_run f ip s x : f_inode s !! ip = Some x → modi f ip s = Ok tt (set_inodes (<[ip := f x]> (f_inode s)) s).
Proof. unfold modi. by intros ->. Qed.

Definition is_hit i x : Prop := 0 < i_ref x ∧ i_dev x = 1 ∧ i_inum x = i.

Lemma iget_scan_hit i l : ∀ base e ip e', iget_scan 1 i l base e = (Some ip, e') → ∃ x, l !! (ip - base)%nat = Some x ∧ (base ≤ ip)%nat ∧ is_hit i x.
Proof.
  induction l as [|x l IH]; intros base e ip e'; simpl; [done|].
  destruct ((0 <? i_ref x) && (i_dev x =? 1) && (i_inum x =? i)) eqn:E.
  - intros [= <- _]. exists x. rewrite Nat.sub_diag. split; [done|]. split; [done|].
    apply andb_true_iff in E as [[?%Z.ltb_lt ?%Z.eqb_eq]%andb_true_iff ?%Z.eqb_eq]. done.
  - intros H. apply IH in H as (y & Hy & Hle & Hh). exists y. split; [|split; [lia|done]]. rewrite <- Hy.
    replace (ip - base)%nat with (Datatypes.S (ip - Datatypes.S base)) by lia. done.
Qed.

Lemma iget_scan_miss i l : ∀ base e e', iget_scan 1 i l base e = (None, e') → Forall (λ x, ~ is_hit i x) l ∧
  match e' with
  | None => e = None ∧ Forall (λ x, i_ref x ≠ 0) l
  | Some k => e = Some k ∨ ∃ x, l !! (k - base)%nat = Some x ∧ (base ≤ k)%nat ∧ i_ref x = 0
  end.
Proof.
  induction l as [|x l IH]; intros base e e'; simpl.
  { intros [= <-]. split; [done|]. destruct e; [by left|]. by split. }
  destruct ((0 <? i_ref x) && (i_dev x =? 1) && (i_inum x =? i)) eqn:E; [done|]. intros H. apply IH in H as [Hno He].
  assert (~ is_hit i x) as Hx.
  { intros (H1 & H2 & H3). rewrite (proj2 (Z.ltb_lt _ _) H1), (proj2 (Z.eqb_eq _ _) H2), (proj2 (Z.eqb_eq _ _) H3) in E. done. }
  split; [by constructor|]. destruct e' as [k|].
  - destruct He as [He|(y & Hy & Hle & Hr)].
    + destruct e as [k'|]; [by left|]. destruct (Z.eqb_spec (i_ref x) 0) as [Hz|]; [|done]. injection He as <-. right. exists x.
      by rewrite Nat.sub_diag.
    + right. exists y. split; [|split; [lia|done]]. rewrite <- Hy. replace (k - base)%nat with (Datatypes.S (k - Datatypes.S base)) by lia. done.
  - destruct He as [He Hall]. destruct e; [done|]. destruct (Z.eqb_spec (i_ref x) 0); [done|]. split; [done|]. by constructor.
Qed.

Lemma active_all l : Forall (λ x, i_ref x ≠ 0) l → (∀ x, x ∈ l → 0 ≤ i_ref x) → length (active l) = length l.
Proof.
  induction 1 as [|x l Hx _ IH]; intros Hp; [done|]. rewrite active_cons. pose proof (Hp x (list_elem_of_here _ _)).
  rewrite (proj2 (Z.ltb_lt _ _)) by lia. cbn. rewrite IH; [done|]. intros y Hy. apply Hp. by apply list_elem_of_further.
Qed.

(** One more reference to the inode of an entry in use. *)
Lemma ref_spec s t A lk ip x : icache s t A lk → small 1 A → f_inode s !! ip = Some x → 0 < i_ref x →
  icache (set_inodes (<[ip := with_ref (λ r, s32 (r + 1)) x]> (f_inode s)) s) t (bump (i_inum x) A) lk.
Proof.
  intros Hc Hs Hx Hr. pose proof (ic_ref _ _ _ _ _ _ Hc Hx Hr) as HA. pose proof (Hs _ _ HA) as Hb. cbn in Hb.
  assert (s32 (i_ref x + 1) = i_ref x + 1) as E32 by (apply s32_small; unfold is_s32; lia).
  destruct (ic_entry _ _ _ _ Hc ip x Hx) as []. pose proof (ic_lock _ _ _ _ Hc ip x Hx) as Hl.
  eapply icache_change; [exact Hc|exact Hx|done|exact (ic_rep _ _ _ _ Hc)|exact (ic_sb _ _ _ _ Hc)| | |done|].
  - split; cbn; rewrite E32; [lia|auto|]. intros _. apply eo_disk0. done.
  - destruct (bool_decide _); [|done]. destruct Hl as (? & ? & _). split; [done|]. split; [done|]. cbn. lia.
  - cbn [with_ref i_ref i_inum]. rewrite E32, (proj2 (Z.ltb_lt 0 (i_ref x + 1))) by lia. unfold bump. rewrite HA. cbn [default].
    rewrite <- insert_delete_eq, map_to_list_insert by apply lookup_delete_eq. cbn [app]. f_equiv.
    pose proof (ic_active _ _ _ _ Hc) as Hp. destruct (active_split (f_inode s) ip x x Hx) as [Hsp _]. rewrite Hsp, (proj2 (Z.ltb_lt 0 (i_ref x))) in Hp by lia.
    rewrite <- (map_to_list_delete A (i_inum x) (i_ref x) HA) in Hp. cbn [app] in Hp. by apply Permutation_cons_inv in Hp.
Qed.

Lemma iget_spec s t A lk i : icache s t A lk → small 1 A → (size A < length (f_inode s))%nat →
  ∃ s' ip y, iget 1 i s = Ok ip s' ∧ icache s' t (bump i A) lk ∧ keeps s s' ∧ f_inode s' !! ip = Some y ∧ i_inum y = i ∧ 0 < i_ref y.
Proof.
  intros Hc Hs Hroom. unfold iget. rewrite bind_gets. destruct (iget_scan 1 i (f_inode s) 0 None) as [[ip|] e] eqn:E.
  - apply iget_scan_hit in E as (x & Hx & _ & Hr & Hd & Hi). rewrite Nat.sub_0_r in Hx. rewrite (bind_Ok _ _ _ _ _ (modi_run _ _ _ _ Hx)).
    pose proof (Hs _ _ (ic_ref _ _ _ _ _ _ Hc Hx Hr)) as Hb. cbn in Hb.
    pose proof (lookup_lt_Some _ _ _ Hx) as Hlt. eexists _, ip, _. split; [done|]. split; [rewrite <- Hi; by apply ref_spec|].
    split; [|split; [apply list_lookup_insert_eq; done|]].
    + eapply keeps_change; [done|done|]. intros _. split; [done|]. cbn. rewrite s32_small; [lia|unfold is_s32; lia].
    + split; [done|]. cbn. rewrite s32_small; [lia|unfold is_s32; lia].
  - apply iget_scan_miss in E as [Hno He]. destruct e as [ip|].
    2:{ exfalso. assert (length (active (f_inode s)) = length (f_inode s)) as El.
        { apply active_all; [apply He|]. intros x [k Hk]%list_elem_of_lookup. by apply (ic_entry _ _ _ _ Hc k x). }
        rewrite (ic_active _ _ _ _ Hc), length_map_to_list in El. lia. }
    destruct He as [|(x & Hx & _ & Hr0)]; [done|]. rewrite Nat.sub_0_r in Hx. rewrite (bind_Ok _ _ _ _ _ (modi_run _ _ _ _ Hx)).
    pose proof (lookup_lt_Some _ _ _ Hx) as Hlt. eexists _, ip, _. split; [done|].
    assert (A !! i = None) as HA.
    { destruct (A !! i) as [r|] eqn:EA; [|done]. exfalso. apply elem_of_map_to_list in EA. rewrite <- (ic_active _ _ _ _ Hc) in EA.
      unfold active in EA. apply list_elem_of_omap in EA as (y & Hy & Ey). destruct (Z.ltb_spec 0 (i_ref y)) as [Hp|]; [|done]. injection Ey as Ei _.
      pose proof (proj1 (list.Forall_forall _ _) Hno y Hy) as Hh. apply Hh. split; [done|]. split; [|done].
      apply list_elem_of_lookup in Hy as [k Hk]. by apply (ic_entry _ _ _ _ Hc k y). }
    split; [|split; [|split; [apply list_lookup_insert_eq; done|done]]].
    + eapply icache_change; [exact Hc|exact Hx|done|exact (ic_rep _ _ _ _ Hc)|exact (ic_sb _ _ _ _ Hc)| | |done|].
      * split; cbn; [lia|done|]. by left.
      * pose proof (ic_lock _ _ _ _ Hc ip x Hx) as Hl. case_bool_decide; [|done]. destruct Hl as (_ & _ & ?). lia.
      * cbn [i_ref i_inum]. change (0 <? 1) with true. unfold bump. rewrite HA. cbn [default]. rewrite map_to_list_insert by done. cbn [app].
        rewrite <- (ic_active _ _ _ _ Hc). f_equiv. destruct (active_split (f_inode s) ip x x Hx) as [-> _]. by rewrite Hr0.
    + eapply keeps_change; [done|done|]. lia.
Qed.

Lemma idup_spec s t A lk ip x : icache s t A lk → small 1 A → f_inode s !! ip = Some x → 0 < i_ref x →
  ∃ s' y, idup ip s = Ok ip s' ∧ icache s' t (bump (i_inum x) A) lk ∧ keeps s s' ∧ f_inode s' !! ip = Some y ∧ i_inum y = i_inum x ∧ 0 < i_ref y.
Proof.
  intros Hc Hs Hx Hr. unfold idup. rewrite (bind_Ok _ _ _ _ _ (modi_run _ _ _ _ Hx)). pose proof (Hs _ _ (ic_ref _ _ _ _ _ _ Hc Hx Hr)) as Hb. cbn in Hb.
  pose proof (lookup_lt_Some _ _ _ Hx) as Hlt. assert (s32 (i_ref x + 1) = i_ref x + 1) as E32 by (apply s32_small; unfold is_s32; lia).
  eexists _, _. split; [done|]. split; [by apply ref_spec|]. split; [|split; [by apply list_lookup_insert_eq|split; [done|cbn; lia]]].
  eapply keeps_change; [done|done|]. intros _. split; [done|]. cbn. lia.
Qed.

(** Inode [i] is on the disk and has a link. *)
Record on_disk t i : Prop := {
  od_block : is_Some (t_view t !! IBLOCK i sb);
  od_held : t_held t !! IBLOCK i sb = None;
  od_type : di_type (disk_inode sb (t_view t) i) ≠ 0;
  od_nlink : di_nlink (disk_inode sb (t_view t) i) ≠ 0 }.

Definition settled t : Prop := t_touched t = ∅ ∧ t_space 1 t.

Lemma only_lock ip (lk : option nat) jp : jp ≠ ip → bool_decide (Some ip = Some jp) = bool_decide (None = Some jp :> option nat).
Proof. intros Hne. rewrite !bool_decide_eq_false_2 by congruence. done. Qed.

Lemma ilock_spec s t A ip x : icache s t A None → settled t → f_inode s !! ip = Some x → 0 < i_ref x → on_disk t (i_inum x) →
  ∃ s' x', ilock me ip s = Ok tt s' ∧ icache s' t A (Some ip) ∧ keeps s s' ∧ f_inode s' !! ip = Some x' ∧ i_inum x' = i_inum x ∧ 0 < i_ref x'.
Proof.
  intros Hc [Htt Hsp] Hx Hr [[d Hd] Hh Hty _]. pose proof (ic_entry _ _ _ _ Hc ip x Hx) as [_ Hdev Hdisk]. specialize (Hdev Hr). specialize (Hdisk Hr).
  pose proof (ic_lock _ _ _ _ Hc ip x Hx) as Hl. cbn in Hl. pose proof (lookup_lt_Some _ _ _ Hx) as Hlt.
  unfold ilock. rewrite bind_gets, Hx, (proj2 (Z.ltb_ge (i_ref x) 1)) by lia.
  set (x1 := with_ilock (mkSleep 1 me) x). set (s1 := set_inodes (<[ip := x1]> (f_inode s)) s).
  assert (on_ilock ip (acquiresleep me (Chan "inode" ip)) s = Ok tt s1) as R1 by (unfold on_ilock, zoom; rewrite Hx; by rewrite acquiresleep_free).
  assert (f_inode s1 !! ip = Some x1) as Hx1 by (by apply list_lookup_insert_eq).
  mstep R1. rewrite (bind_Ok _ _ _ _ _ (geti_run s1 ip x1 Hx1)). change (i_valid x1) with (i_valid x). destruct Hdisk as [Hv|[Hv Hdsk]]; rewrite Hv; cbn [Z.eqb].
  - rewrite bind_gets. change (f_sb s1) with (f_sb s). rewrite (ic_sb _ _ _ _ Hc). change (i_dev x1) with (i_dev x). change (i_inum x1) with (i_inum x). rewrite Hdev.
    destruct (fbread_ok s1 t (IBLOCK (i_inum x) sb)) as (b & s2 & R2 & Hr2 & M2); [exact (ic_rep _ _ _ _ Hc)|eauto|done|by eapply space_room|].
    destruct (fdata_ok s2 _ (IBLOCK (i_inum x) sb) b Hr2) as (d' & Hd' & R3); [apply lookup_insert_eq|]. cbn in Hd'. rewrite Hd in Hd'. injection Hd' as <-.
    mstep R2. mstep R3. set (dip := decode_dinode d _). assert (dip = disk_inode sb (t_view t) (i_inum x)) as Edip by (unfold dip, disk_inode; by rewrite Hd).
    assert (f_inode s2 !! ip = Some x1) as Hx2 by (by rewrite (proj2 M2)). rewrite (bind_Ok _ _ _ _ _ (modi_run (with_disk dip) _ _ _ Hx2)).
    set (s3 := set_inodes _ s2).
    destruct (fbrelse_ok s3 (t_hold (IBLOCK (i_inum x) sb) b t) (IBLOCK (i_inum x) sb) b) as (s4 & R4 & Hr4 & M4); [exact Hr2|apply lookup_insert_eq|cbn; rewrite Htt; set_solver|].
    rewrite unhold_hold_tx in Hr4 by done. mstep R4.
    assert (f_inode s4 !! ip = Some (with_disk dip x1)) as Hx4 by (rewrite (proj2 M4); apply list_lookup_insert_eq; by eapply lookup_lt_Some).
    rewrite (bind_Ok _ _ _ _ _ (modi_run (with_valid 1) _ _ _ Hx4)). rewrite Edip, (proj2 (Z.eqb_neq _ _) Hty). set (x4 := with_valid 1 (with_disk _ x1)).
    assert (<[ip:=x4]> (f_inode s4) = <[ip:=x4]> (f_inode s)) as Ei by (rewrite (proj2 M4); cbn; rewrite (proj2 M2); cbn; by rewrite !list_insert_insert_eq).
    eexists _, x4. split; [done|]. split; [|split; [|split; [apply list_lookup_insert_eq; by eapply lookup_lt_Some|done]]].
    + eapply (icache_keep s _ t A None (Some ip) ip x x4); [done|done|exact Ei|exact Hr4| | | |apply (only_lock ip None)|done|done].
      * cbn. rewrite (proj1 M4). cbn. rewrite (proj1 M2). apply Hc.
      * split; [cbn; lia|done|]. intros _. right. split; [done|]. change (i_inum x4) with (i_inum x). unfold x4. generalize (disk_inode sb (t_view t) (i_inum x)). by intros [].
      * by rewrite bool_decide_eq_true_2.
    + eapply keeps_change; [exact Hx|exact Ei|done].
  - exists s1, x1. split; [done|]. split; [|split; [by eapply keeps_change|done]].
    eapply (icache_keep s _ t A None (Some ip) ip x x1); [done|done|done|apply Hc|apply Hc| | |apply (only_lock ip None)|done|done].
    + split; cbn; [lia|done|]. intros _. right. done.
    + by rewrite bool_decide_eq_true_2.
Qed.

Lemma iunlock_spec s t A ip x : icache s t A (Some ip) → f_inode s !! ip = Some x →
  ∃ s' x', iunlock me ip s = Ok tt s' ∧ icache s' t A None ∧ keeps s s' ∧ f_inode s' !! ip = Some x' ∧ i_inum x' = i_inum x ∧ 0 < i_ref x'.
Proof.
  intros Hc Hx. pose proof (ic_lock _ _ _ _ Hc ip x Hx) as Hl. rewrite bool_decide_eq_true_2 in Hl by done. destruct Hl as (Hl & Hv & Hr).
  pose proof (ic_entry _ _ _ _ Hc ip x Hx) as [Hr0 Hdev Hdisk]. pose proof (lookup_lt_Some _ _ _ Hx) as Hlt.
  unfold iunlock. rewrite bind_gets, Hx, Hl. unfold holdingsleep. cbn [sl_locked sl_pid]. rewrite Z.eqb_refl, (proj2 (Z.ltb_ge (i_ref x) 1)) by lia. change (negb (truthy 1 && true) || false) with false. cbn iota.
  eexists _, (with_ilock (mkSleep 0 0) x). split; [unfold on_ilock, zoom; rewrite Hx; done|]. split; [|split; [by eapply keeps_change|split; [by apply list_lookup_insert_eq|done]]].
  eapply (icache_keep s _ t A (Some ip) None ip x); [done|done|done|apply Hc|apply Hc|done|done| |done|done].
  intros jp Hne. symmetry. by apply (only_lock ip None).
Qed.

(** The entries of the inodes in [A] stay. *)
Definition keeps_in A s s' : Prop := length (f_inode s') = length (f_inode s) ∧
  ∀ jp x, f_inode s !! jp = Some x → 0 < i_ref x → is_Some (A !! i_inum x) → ∃ x', f_inode s' !! jp = Some x' ∧ i_inum x' = i_inum x ∧ 0 < i_ref x'.

Lemma iput_spec s t A ip x : icache s t (bump (i_inum x) A) None → small 1 A → f_inode s !! ip = Some x → 0 < i_ref x → on_disk t (i_inum x) →
  ∃ s', iput me ip s = Ok tt s' ∧ icache s' t A None ∧ keeps_in A s s'.
Proof.
  intros Hc Hs Hx Hr [_ _ _ Hnl]. pose proof (ic_entry _ _ _ _ Hc ip x Hx) as [_ Hdev Hdisk]. specialize (Hdev Hr). specialize (Hdisk Hr).
  pose proof (ic_lock _ _ _ _ Hc ip x Hx) as Hl. cbn in Hl. pose proof (lookup_lt_Some _ _ _ Hx) as Hlt.
  pose proof (ic_ref _ _ _ _ _ _ Hc Hx Hr) as HA. unfold bump in HA. rewrite lookup_insert_eq in HA. injection HA as HA.
  unfold iput. set (x1 := with_ilock (mkSleep 1 me) x). set (s1 := set_inodes (<[ip := x1]> (f_inode s)) s).
  assert (on_ilock ip (acquiresleep me (Chan "inode" ip)) s = Ok tt s1) as R1 by (unfold on_ilock, zoom; rewrite Hx; by rewrite acquiresleep_free).
  assert (f_inode s1 !! ip = Some x1) as Hx1 by (by apply list_lookup_insert_eq).
  mstep R1. rewrite (bind_Ok _ _ _ _ _ (geti_run s1 ip x1 Hx1)).
  assert (truthy (i_valid x1) && (i_nlink x1 =? 0) = false) as ->.
  { destruct Hdisk as [Hv|[Hv Hdsk]]; cbn; rewrite Hv; [done|]. cbn. apply Z.eqb_neq. change (i_nlink x) with (di_nlink (dinode_of x)). by rewrite Hdsk. }
  rewrite bind_ret. set (x2 := with_ilock (mkSleep 0 0) x). set (s2 := set_inodes (<[ip := x2]> (f_inode s1)) s1).
  assert (on_ilock ip releasesleep s1 = Ok tt s2) as R2 by (unfold on_ilock, zoom; rewrite Hx1; done).
  assert (f_inode s2 !! ip = Some x2) as Hx2 by (apply list_lookup_insert_eq; by eapply lookup_lt_Some).
  mstep R2. rewrite (modi_run _ _ _ _ Hx2). set (x3 := with_ref _ x2).
  assert (0 < i_ref x < 2 ^ 31) as Hbd.
  { rewrite <- HA. destruct (A !! i_inum x) as [q|] eqn:E; cbn; [pose proof (Hs _ q E) as Hq; cbn in Hq|]; lia. }
  assert (i_ref x3 = i_ref x - 1) as Er by (cbn; apply s32_small; unfold is_s32; lia).
  assert (<[ip:=x3]> (f_inode s2) = <[ip:=x3]> (f_inode s)) as Ei by (cbn; by rewrite !list_insert_insert_eq).
  eexists. split; [done|]. split.
  - eapply (icache_change s _ t (bump (i_inum x) A) A None None ip x x3); [done|done|exact Ei|exact (ic_rep _ _ _ _ Hc)|exact (ic_sb _ _ _ _ Hc)| |done|done|].
    + split; rewrite Er; [lia|done|]. intros _. exact Hdisk.
    + rewrite Er. change (i_inum x3) with (i_inum x). pose proof (ic_active _ _ _ _ Hc) as Hp. destruct (active_split (f_inode s) ip x x Hx) as [Hsp _].
      rewrite Hsp, (proj2 (Z.ltb_lt _ _) Hr) in Hp. unfold bump in Hp. rewrite <- insert_delete_eq, map_to_list_insert in Hp by apply lookup_delete_eq.
      rewrite HA in Hp. apply Permutation_cons_inv in Hp. rewrite Hp. destruct (A !! i_inum x) as [q|] eqn:E; cbn in HA.
      * pose proof (Hs _ q E) as Hq. cbn in Hq. rewrite (proj2 (Z.ltb_lt _ _)) by lia. replace (i_ref x - 1) with q by lia. apply (map_to_list_delete A (i_inum x) q E).
      * rewrite (proj2 (Z.ltb_ge _ _)) by lia. by rewrite delete_id.
  - split; [cbn; by rewrite !length_insert|]. intros jp y Hy Hry HyA. cbn. destruct (decide (jp = ip)) as [->|Hne].
    + rewrite Hx in Hy. injection Hy as <-. exists x3. split; [apply list_lookup_insert_eq; by rewrite !length_insert|]. split; [done|].
      destruct HyA as [q Hq]. rewrite Hq in HA. cbn in HA. pose proof (Hs _ q Hq) as Hb. cbn in Hb. lia.
    + exists y. by rewrite !list_lookup_insert_ne.
Qed.

(** ** Directories *)

(** The directory [i] can be read, and its entries lead to inodes in [P]. *)
Record dir_ok t (P : Z → Prop) i : Prop := {
  do_size : 0 ≤ di_size (disk_inode sb (t_view t) i) ≤ MAXFILE * BSIZE;
  do_whole : di_size (disk_inode sb (t_view t) i) `mod` 16 = 0;
  do_blocks : blocks_ok t (inode_at sb (t_view t) i) ((di_size (disk_inode sb (t_view t) i) + (BSIZE - 1)) / BSIZE);
  do_bytes : ∀ k, (k < dirent_count (di_size (disk_inode sb (t_view t) i)))%nat → is_bytes (dir_entry (t_view t) (inode_at sb (t_view t) i) k);
  do_closed : ∀ k, (k < dirent_count (di_size (disk_inode sb (t_view t) i)))%nat →
    de_inum (dir_entry (t_view t) (inode_at sb (t_view t) i) k) ≠ 0 → P (de_inum (dir_entry (t_view t) (inode_at sb (t_view t) i) k)) }.

(** The inodes in [P] are a file tree. *)
Definition tree_ok t (P : Z → Prop) : Prop := ∀ i, P i → on_disk t i ∧ (di_type (disk_inode sb (t_view t) i) = T_DIR → dir_ok t P i).

Lemma file_addr_ext v x y k : i_addrs x = i_addrs y → file_addr v x k = file_addr v y k.
Proof. intros E. unfold file_addr. by rewrite E. Qed.
Lemma file_slice_ext v x y off n : i_addrs x = i_addrs y → file_slice v x off n = file_slice v y off n.
Proof. intros E. unfold file_slice, file_byte. apply list_fmap_ext. intros k j _. by rewrite (file_addr_ext v x y) by done. Qed.
Lemma blocks_ok_ext t x y nb : i_addrs x = i_addrs y → i_dev x = i_dev y → blocks_ok t x nb → blocks_ok t y nb.
Proof.
  intros Ea Ed [? ? ? Hb Hi]. split; try done; [congruence| |].
  - intros k Hk. rewrite <- (file_addr_ext _ x y) by done. by apply Hb.
  - rewrite <- Ea. done.
Qed.

(** Reading an entry of the locked directory. *)
Lemma lookup_at_spec s t P ip x name k : frep s t → settled t → f_inode s !! ip = Some x → i_dev x = 1 →
  dinode_of x = disk_inode sb (t_view t) (i_inum x) → i_type x = T_DIR → dir_ok t P (i_inum x) → is_bytes name →
  (k < dirent_count (i_size x))%nat →
  ∃ s', lookup_at devsw ip name k s =
    Ok (if names (cprefix (cstr name) DIRSIZ) (dir_entry (t_view t) (inode_at sb (t_view t) (i_inum x)) k)
        then Some (de_inum (dir_entry (t_view t) (inode_at sb (t_view t) (i_inum x)) k), 16 * Z.of_nat k) else None) s' ∧
    frep s' t ∧ same_meta s s'.
Proof.
  intros Hr [_ Hsp] Hx Hd Hdsk Hty [Hsz Hw Hb Hby _] Hnm Hk. rewrite <- Hdsk in *. cbn [dinode_of di_size] in *.
  assert (i_addrs x = i_addrs (inode_at sb (t_view t) (i_inum x))) as Ea by (unfold inode_at; cbn [with_disk i_addrs]; by rewrite <- Hdsk).
  assert (16 * Z.of_nat k + 16 ≤ i_size x) as Hin.
  { unfold dirent_count in Hk. pose proof (Z.div_mod (i_size x) 16 ltac:(lia)). assert ((i_size x + 15) / 16 = i_size x / 16) as E.
    { symmetry. apply (Z.div_unique_pos _ _ _ 15); lia. } rewrite E in Hk. lia. }
  unfold MAXFILE, BSIZE in Hsz. destruct (readi_ok devsw s t ip x (16 * k) 16 Hr Hx) as (s1 & Hr1 & M1 & R); [by rewrite Hty| |done|unfold is_u32; lia|unfold is_u32; lia|done|].
  { by eapply blocks_ok_ext. }
  rewrite (proj2 (Z.ltb_ge (i_size x) (16 * k))), (proj2 (Z.leb_gt (2 ^ 32) (16 * k + 16))) in R by lia. cbn [orb] in R. cbn zeta in R.
  rewrite Z.min_l in R by lia. change (Z.to_nat 16) with 16%nat in R. rewrite (file_slice_ext _ x _ _ _ Ea) in R. fold (dir_entry (t_view t) (inode_at sb (t_view t) (i_inum x)) k) in R.
  specialize (Hby k Hk). set (e := dir_entry _ _ k) in *. exists s1. split; [|done]. unfold lookup_at. mstep R. cbn [fst snd]. change (negb (16 =? 16)) with false. cbn iota.
  unfold names, entry_name, namecmp. destruct (de_inum e =? 0); cbn [negb andb]; [done|].
  assert (∀ l j, is_bytes l → is_u8 (cstr l j)) as Hu8.
  { intros l j Hl. unfold cstr. rewrite nth_lookup. destruct (l !! j) as [b|] eqn:Eb; cbn; [|unfold is_u8; lia]. by apply (Forall_lookup_1 _ _ _ _ Hl Eb). }
  assert (is_bytes (de_name e)) as Hde by (by apply Forall_take, Forall_drop).
  pose proof (strncmp_zero (cstr name) (cstr (de_name e)) DIRSIZ ltac:(intros; by apply Hu8) ltac:(intros; by apply Hu8)) as Hcmp.
  case_bool_decide as Eq.
  - rewrite (proj2 Hcmp) by done. done.
  - rewrite (proj2 (Z.eqb_neq _ _)); [done|]. intros H0. apply Eq. symmetry. by apply Hcmp.
Qed.

(** dirlookup finds the entry and takes a reference to its inode. *)
Lemma dirlookup_spec s t P A ip x name : icache s t A (Some ip) → settled t → small 1 A → (size A < length (f_inode s))%nat →
  f_inode s !! ip = Some x → i_type x = T_DIR → dir_ok t P (i_inum x) → is_bytes name →
  match dir_find (t_view t) (inode_at sb (t_view t) (i_inum x)) (cprefix (cstr name) DIRSIZ) with
  | None => ∃ s', dirlookup devsw ip name s = Ok None s' ∧ icache s' t A (Some ip) ∧ keeps s s'
  | Some j => P j ∧ ∃ s' np y off, dirlookup devsw ip name s = Ok (Some (np, off)) s' ∧ icache s' t (bump j A) (Some ip) ∧ keeps s s' ∧
      f_inode s' !! np = Some y ∧ i_inum y = j ∧ 0 < i_ref y
  end.
Proof.
  intros Hc Hset Hs Hroom Hx Hty Hdir Hnm. pose proof (ic_lock _ _ _ _ Hc ip x Hx) as Hl. rewrite bool_decide_eq_true_2 in Hl by done. destruct Hl as (Hl & Hv & Hr).
  pose proof (ic_entry _ _ _ _ Hc ip x Hx) as [_ Hdev Hdisk]. specialize (Hdev Hr). destruct (Hdisk Hr) as [Hv0|[_ Hdsk]]; [congruence|].
  assert (i_size (inode_at sb (t_view t) (i_inum x)) = i_size x) as Esz by (unfold inode_at; cbn [with_disk i_size]; by rewrite <- Hdsk).
  unfold dirlookup, dir_find. rewrite (bind_Ok _ _ _ _ _ (geti_run s ip x Hx)), Hty, Esz. change (negb (T_DIR =? T_DIR)) with false. cbn iota.
  destruct (first_some_run (λ s', frep s' t ∧ same_meta s s') (lookup_at devsw ip name)
    (λ k, names (cprefix (cstr name) DIRSIZ) (dir_entry (t_view t) (inode_at sb (t_view t) (i_inum x)) k))
    (λ k, (de_inum (dir_entry (t_view t) (inode_at sb (t_view t) (i_inum x)) k), 16 * Z.of_nat k)) (seq 0 (dirent_count (i_size x))))
    with (s := s) as (s1 & R & Hr1 & M1).
  { intros k s1 Hk%elem_of_seq [Hr1 M1]. destruct (lookup_at_spec s1 t P ip x name k) as (s2 & R & Hr2 & M2); try done; [by rewrite (proj2 M1)|lia|].
    exists s2. split; [exact R|]. split; [done|]. by eapply same_meta_trans. }
  { split; [apply Hc|done]. }
  mstep R. pose proof (icache_meta _ _ _ _ _ Hc Hr1 M1) as Hc1. pose proof (keeps_meta _ _ _ (keeps_refl s) M1) as Hk1.
  destruct (find _ _) as [k|] eqn:Ef; cbn [fmap option_fmap option_map]; [|by exists s1].
  apply find_some in Ef as [Hin Hn]. apply list_elem_of_In, elem_of_seq in Hin. unfold names in Hn. apply andb_true_iff in Hn as [Hnz _].
  apply negb_true_iff, Z.eqb_neq in Hnz. split.
  { apply (do_closed _ _ _ Hdir); [|done]. rewrite <- Hdsk. cbn [dinode_of di_size]. lia. }
  rewrite Hdev. destruct (iget_spec s1 t A (Some ip) (de_inum (dir_entry (t_view t) (inode_at sb (t_view t) (i_inum x)) k)) Hc1 Hs) as (s2 & np & y & R2 & Hc2 & Hk2 & Hy & Hi & Hry).
  { by rewrite (proj2 M1). }
  mstep R2. exists s2, np, y. eexists. split; [done|]. split; [done|]. split; [by eapply keeps_trans|done].
Qed.

(** ** Paths *)

Lemma iunlockput_spec s t A ip x : icache s t (bump (i_inum x) A) (Some ip) → small 1 A → f_inode s !! ip = Some x → on_disk t (i_inum x) →
  ∃ s', iunlockput me ip s = Ok tt s' ∧ icache s' t A None ∧ keeps_in A s s'.
Proof.
  intros Hc Hs Hx Hod. destruct (iunlock_spec s t _ ip x Hc Hx) as (s1 & x1 & R1 & Hc1 & [L1 K1] & Hx1 & E1 & Hr1). rewrite <- E1 in Hc1, Hod.
  destruct (iput_spec s1 t A ip x1 Hc1 Hs Hx1 Hr1 Hod) as (s2 & R2 & Hc2 & L2 & K2). exists s2. unfold iunlockput. mstep R1. split; [done|]. split; [done|].
  split; [congruence|]. intros jp y Hy Hry HyA. destruct (K1 jp y Hy Hry) as (y1 & Hy1 & Ey1 & Hry1). rewrite <- Ey1 in HyA.
  destruct (K2 jp y1 Hy1 Hry1 HyA) as (y2 & Hy2 & Ey2 & Hry2). exists y2. split; [done|]. split; [congruence|done].
Qed.

Lemma bump_is_Some i A : is_Some (bump i A !! i).
Proof. unfold bump. rewrite lookup_insert_eq. eauto. Qed.

(** What namex promises: [es] are the elements of the path. *)
Definition finds t A (parent : bool) i (es : list (list Z)) (r : res (fsst S) (option (nat * list Z))) : Prop :=
  match walk sb (t_view t) parent i es with
  | None => ∃ s', r = Ok None s' ∧ icache s' t A None
  | Some j => ∃ s' ip y name, r = Ok (Some (ip, name)) s' ∧ icache s' t (bump j A) None ∧ f_inode s' !! ip = Some y ∧ i_inum y = j ∧ 0 < i_ref y ∧
      (parent = true → ∃ es' e, es = es' ++ [e] ∧ cprefix (cstr name) DIRSIZ = take DIRSIZ e)
  end.

(** The characters of the rest of the path and of the name buffer. *)
Lemma skipelem_chars (Q : Z → Prop) path name rest name' : Forall Q path → Forall Q name → Q 0 →
  skipelem path name = Some (rest, name') → Forall Q rest ∧ Forall Q name' ∧ ∀ c, c ∈ rest → c ∈ path.
Proof.
  assert (∀ l, skip_slashes l `suffix_of` l) as Hskip.
  { intros l. induction l as [|c l IH]; [done|]. simpl. destruct (c =? 47); [by apply suffix_cons_r|done]. }
  assert (∀ l, l = (take_elem l).1 ++ (take_elem l).2) as Htake.
  { intros l. induction l as [|c l IH]; [done|]. simpl. destruct ((c =? 47) || (c =? 0)); [done|]. destruct (take_elem l). cbn in *. by rewrite IH at 1. }
  intros Hp Hn H0. unfold skipelem. destruct (at_end _); [done|]. destruct (Hskip path) as [pre Epre]. pose proof (Htake (skip_slashes path)) as Et.
  destruct (take_elem (skip_slashes path)) as [e r]. cbn in Et. destruct (Hskip r) as [pre2 Er]. intros [= <- <-].
  rewrite Epre, Et in Hp. apply Forall_app in Hp as [_ Hp]. apply Forall_app in Hp as [He Hr]. split.
  - rewrite Er in Hr. by apply Forall_app in Hr as [_ ?].
  - split.
    + case_match; apply Forall_inserts; try done; [by apply Forall_take|]. apply Forall_app. split; [done|]. by constructor.
    + intros c Hc. rewrite Epre, Et, Er. set_solver.
Qed.

Lemma namex_loop_spec t P A parent : settled t → tree_ok t P → small 2 A →
  ∀ fuel s ip x path name, icache s t (bump (i_inum x) A) None → (size A + 2 ≤ length (f_inode s))%nat →
  f_inode s !! ip = Some x → 0 < i_ref x → P (i_inum x) → is_bytes path → (0 ∉ path) → length name = DIRSIZ → is_bytes name →
  (length path < fuel)%nat →
  finds t A parent (i_inum x) (path_elems path) (namex_loop me devsw fuel ip path name parent s).
Proof.
  intros Hset Htree Hsm. pose proof (small_le _ 1 _ Hsm ltac:(lia)) as Hsm1. induction fuel as [|fuel IH]; intros s ip x path name Hc Hroom Hx Hr HP Hpb Hpz Hnl Hnb Hfuel; [lia|]. cbn [namex_loop].
  pose proof (skipelem_spec path name Hpz Hnl) as Hsk. destruct (Htree _ HP) as [Hod Hdir].
  destruct (skipelem path name) as [[rest name']|] eqn:Esk.
  2:{ rewrite Hsk. unfold finds. cbn [walk]. destruct parent; [|by exists s, ip, x, name].
      destruct (iput_spec s t A ip x Hc Hsm1 Hx Hr Hod) as (s1 & R & Hc1 & _). mstep R. by exists s1. }
  destruct Hsk as (e & es & Epath & Erest & Ename & Hnl' & Hend & Hlen).
  destruct (ilock_spec s t _ ip x Hc Hset Hx Hr Hod) as (s1 & x1 & R1 & Hc1 & K1 & Hx1 & Ei1 & Hr1). mstep R1.
  rewrite (bind_Ok _ _ _ _ _ (geti_run s1 ip x1 Hx1)). rewrite Epath. unfold finds. cbn [walk]. rewrite <- Ei1 in *.
  pose proof (ic_lock _ _ _ _ Hc1 ip x1 Hx1) as Hl. rewrite bool_decide_eq_true_2 in Hl by done. destruct Hl as (_ & Hv & _).
  destruct (eo_disk _ _ (ic_entry _ _ _ _ Hc1 ip x1 Hx1) Hr1) as [Hv0|[_ Hdsk]]; [congruence|].
  assert (di_type (disk_inode sb (t_view t) (i_inum x1)) = i_type x1) as -> by (by rewrite <- Hdsk).
  destruct (Z.eqb_spec (i_type x1) T_DIR) as [Hty|Hty]; cbn [negb].
  2:{ destruct (iunlockput_spec s1 t A ip x1 Hc1 Hsm1 Hx1 Hod) as (s2 & R2 & Hc2 & _). mstep R2. by exists s2. }
  assert (at_end rest = bool_decide (es = [])) as ->.
  { apply Bool.eq_iff_eq_true. rewrite Hend. by rewrite bool_decide_eq_true. }
  destruct (parent && bool_decide (es = [])) eqn:Epar.
  { apply andb_true_iff in Epar as [-> Hes%bool_decide_eq_true]. destruct (iunlock_spec s1 t _ ip x1 Hc1 Hx1) as (s2 & x2 & R2 & Hc2 & _ & Hx2 & E2 & Hr2).
    mstep R2. exists s2, ip, x2, name'. split_and!; try done. intros _. exists [], e. rewrite Hes. done. }
  rewrite <- Ename. destruct (skipelem_chars is_u8 path name rest name' Hpb Hnb ltac:(unfold is_u8; lia) Esk) as (Hrb & Hnb' & Hsub).
  pose proof (Hdir ltac:(by rewrite <- Hdsk)) as Hd. pose proof (size_bump (i_inum x1) A) as Hsz. pose proof (proj1 K1) as HL1.
  pose proof (dirlookup_spec s1 t P (bump (i_inum x1) A) ip x1 name' Hc1 Hset (small_bump 1 _ _ Hsm ltac:(lia)) ltac:(lia) Hx1 Hty Hd Hnb') as Hlook.
  destruct (dir_find _ _ _) as [j|].
  - destruct Hlook as (HPj & s2 & np & y & off & R2 & Hc2 & K2 & Hy & <- & Hry). mstep R2. rewrite bump_comm in Hc2.
    destruct (proj2 K2 ip x1 Hx1 Hr1) as (x2 & Hx2 & E2 & Hr2). rewrite <- E2 in Hc2, Hod.
    destruct (iunlockput_spec s2 t _ ip x2 Hc2 (small_bump 1 _ _ Hsm ltac:(lia)) Hx2 Hod) as (s3 & R3 & Hc3 & L3 & K3). mstep R3.
    destruct (K3 np y Hy Hry (bump_is_Some _ _)) as (y3 & Hy3 & Ey3 & Hry3). rewrite <- Ey3 in *.
    specialize (IH s3 np y3 rest name' Hc3 ltac:(rewrite L3, (proj1 K2); lia) Hy3 Hry3 HPj Hrb ltac:(intros H0; by apply Hpz, Hsub) Hnl' Hnb' ltac:(lia)).
    unfold finds in IH. rewrite Erest in IH. destruct (walk _ _ _ _ _) as [k|]; [|done].
    destruct IH as (s4 & rp & z & nm & R4 & Hc4 & Hz & Ez & Hrz & Hpar). exists s4, rp, z, nm. split_and!; try done.
    intros Hp. destruct (Hpar Hp) as (es' & e' & -> & Hnm). by exists (e :: es'), e'.
  - destruct Hlook as (s2 & R2 & Hc2 & K2). mstep R2. destruct (proj2 K2 ip x1 Hx1 Hr1) as (x2 & Hx2 & E2 & Hr2). rewrite <- E2 in Hc2, Hod.
    destruct (iunlockput_spec s2 t A ip x2 Hc2 Hsm1 Hx2 Hod) as (s3 & R3 & Hc3 & _). mstep R3. by exists s3.
Qed.

Definition absolute (path : list Z) : bool := match path with c :: _ => c =? 47 | [] => false end.

Lemma namex_spec s t P A parent cwd start path name : icache s t A None → settled t → tree_ok t P → small 2 A →
  (size A + 2 ≤ length (f_inode s))%nat → is_bytes path → (0 ∉ path) → length name = DIRSIZ → is_bytes name → P start →
  (if absolute path then start = ROOTINO else ∃ c, f_inode s !! cwd = Some c ∧ 0 < i_ref c ∧ i_inum c = start) →
  finds t A parent start (path_elems path) (namex me devsw cwd path name parent s).
Proof.
  intros Hc Hset Htree Hsm Hroom Hpb Hpz Hnl Hnb HP Hst. pose proof (small_le _ 1 _ Hsm ltac:(lia)) as Hsm1.
  assert (∃ s1 ip y, (match path with c :: _ => if c =? 47 then iget ROOTDEV ROOTINO else idup cwd | [] => idup cwd end) s = Ok ip s1 ∧
    icache s1 t (bump start A) None ∧ keeps s s1 ∧ f_inode s1 !! ip = Some y ∧ i_inum y = start ∧ 0 < i_ref y) as (s1 & ip & y & R1 & Hc1 & K1 & Hy & Ey & Hry).
  { assert (absolute path = false → ∃ s1 ip y, idup cwd s = Ok ip s1 ∧ icache s1 t (bump start A) None ∧ keeps s s1 ∧ f_inode s1 !! ip = Some y ∧ i_inum y = start ∧ 0 < i_ref y) as Hrel.
    { intros E. rewrite E in Hst. destruct Hst as (c & Hcx & Hcr & <-). destruct (idup_spec s t A None cwd c Hc Hsm1 Hcx Hcr) as (s1 & y & R & ? & ? & ? & ? & ?).
      by exists s1, cwd, y. }
    unfold absolute in *. destruct path as [|c p]; [by apply Hrel|]. destruct (c =? 47) eqn:E; [|by apply Hrel]. subst start.
    apply iget_spec; [done|done|lia]. }
  unfold namex. mstep R1. rewrite <- Ey in *. eapply namex_loop_spec; try done; [rewrite (proj1 K1); lia|lia].
Qed.
End cache.

(** C23: namei and nameiparent resolve paths.  On a well-formed tree, with the
    inode cache consistent with the disk and two free entries in it, the result
    is the inode that walking the directories gives, or its directory and the
    name of the last element, and null when an element is missing or is looked
    up in something that is not a directory.  The only reference taken is the
    one returned: on failure the cache has the references it had. *)
Theorem namex_correct {S} {BL : BlockLayer S} (me : Z) (devsw : Z → devfuns S) (sb : superblock) (s : fsst S) t P A parent cwd start path name :
  icache me sb s t A None → settled t → tree_ok sb t P → small 2 A →
  (size A + 2 ≤ length (f_inode s))%nat → is_bytes path → (0 ∉ path) → length name = DIRSIZ → is_bytes name → P start →
  (if absolute path then start = ROOTINO else ∃ c, f_inode s !! cwd = Some c ∧ 0 < i_ref c ∧ i_inum c = start) →
  finds me sb t A parent start (path_elems path) (namex me devsw cwd path name parent s).
Proof. apply namex_spec. Qed.

(** ** A disk with the file /a *)

Definition leaf_sb : superblock := mkSb 8 0 8 0 0 2 3.
Definition leaf_entry (i : Z) (name : list Z) : bytes := mk_dirent i (strncpy (cstr name) DIRSIZ).
Definition leaf_view : gmap Z bytes :=
  <[2 := list_inserts 64 (encode_dinode (mkDinode T_DIR 0 0 1 32 (5 :: replicate 12 0)) ++
                          encode_dinode (mkDinode T_FILE 0 0 1 0 (replicate 13 0))) (replicate BSIZE 0)]>
  (<[5 := list_inserts 0 (leaf_entry 1 [46] ++ leaf_entry 2 [97]) (replicate BSIZE 0)]> ∅).
Definition leaf_tx : tx := mkTx leaf_view ∅ ∅ ∅.
Definition blank_inode : inode := mkInode 0 0 0 (mkSleep 0 0) 0 0 0 0 0 0 (replicate 13 0).
Definition leaf_fs : fsst tx := mkFsst leaf_tx leaf_sb (replicate 3 blank_inode).
#[local] Instance leaf_layer : BlockLayer tx := ram_layer 30 29.
Definition leaf_P (i : Z) : Prop := i = 1 ∨ i = 2.

Lemma leaf_settled : settled leaf_tx.
Proof. split; [done|]. split; cbn; rewrite ?dom_empty_L, ?union_empty_l_L, size_empty; lia. Qed.

Lemma blank_icache {S} {BL : BlockLayer S} (me : Z) (s : fsst S) t n : frep s t → f_inode s = replicate n blank_inode → icache me (f_sb s) s t ∅ None.
Proof.
  intros Hr Hi. split; [done|done| | |].
  - rewrite map_to_list_empty, Hi. clear Hi. by induction n.
  - intros ip x Hx. rewrite Hi in Hx. apply lookup_replicate in Hx as [-> _]. split; cbn; lia.
  - intros ip x Hx. rewrite Hi in Hx. apply lookup_replicate in Hx as [-> _]. done.
Qed.

Lemma leaf_icache : icache 7 leaf_sb leaf_fs leaf_tx ∅ None.
Proof.
  apply (blank_icache 7 leaf_fs leaf_tx 3); [|done]. split; [done|]. split; [|done]. intros b. cbn. unfold leaf_view. rewrite !lookup_insert_is_Some'.
  intros [<-|[<-|[? Hx]]]; [lia|lia|done].
Qed.

Lemma leaf_tree : tree_ok leaf_sb leaf_tx leaf_P.
Proof.
  assert (∀ i, leaf_P i → IBLOCK i leaf_sb = 2) as Hib by (intros i [-> | ->]; reflexivity).
  intros i Hi. split.
  - split; rewrite ?(Hib i Hi); cbn [t_view t_held leaf_tx]; [by eexists|done| |]; destruct Hi as [-> | ->]; vm_compute; done.
  - destruct Hi as [-> | ->]; [|by vm_compute]. intros _.
    assert (di_size (disk_inode leaf_sb leaf_view 1) = 32) as Es by (vm_compute; reflexivity).
    assert (∀ k, 0 ≤ k < 1 → file_addr leaf_view (inode_at leaf_sb leaf_view 1) k = 5) as Ha by (intros k Hk; assert (k = 0) as -> by lia; vm_compute; reflexivity).
    split; cbn [t_view leaf_tx]; rewrite ?Es.
    + unfold MAXFILE, BSIZE. lia.
    + done.
    + change ((32 + (BSIZE - 1)) / BSIZE) with 1. split; try done. intros k Hk. cbn [t_view t_held leaf_tx]. rewrite Ha by done.
      split; [done|]. split; [done|]. eexists. split; [reflexivity|]. by rewrite length_inserts, length_replicate.
    + intros [|[|k]] Hk; [| |vm_compute in Hk; lia]; apply (bool_decide_unpack _); vm_compute; reflexivity.
    + intros [|[|k]] Hk _; [left|right|vm_compute in Hk; lia]; vm_compute; reflexivity.
Qed.

Lemma namex_correct_witness :
  ∃ s' ip y name, namex 7 no_dev 0 [47; 97] (replicate DIRSIZ 0) false leaf_fs = Ok (Some (ip, name)) s' ∧
    icache 7 leaf_sb s' leaf_tx {[2 := 1]} None ∧ f_inode s' !! ip = Some y ∧ i_inum y = 2.
Proof.
  pose proof (namex_correct 7 no_dev leaf_sb leaf_fs leaf_tx leaf_P ∅ false 0 1 [47; 97] (replicate DIRSIZ 0)
    leaf_icache leaf_settled leaf_tree) as H.
  assert (finds 7 leaf_sb leaf_tx ∅ false 1 (path_elems [47; 97]) (namex 7 no_dev 0 [47; 97] (replicate DIRSIZ 0) false leaf_fs)) as Hf.
  { apply H.
    - apply map_Forall_empty.
    - rewrite map_size_empty. cbn. lia.
    - repeat constructor; unfold is_u8; lia.
    - rewrite !not_elem_of_cons. split; [done|]. split; [done|]. apply not_elem_of_nil.
    - reflexivity.
    - apply Forall_replicate. unfold is_u8. lia.
    - by left.
    - reflexivity. }
  unfold finds in Hf. assert (walk leaf_sb (t_view leaf_tx) false 1 (path_elems [47; 97]) = Some 2) as E by (vm_compute; reflexivity).
  rewrite E in Hf. destruct Hf as (s' & ip & y & name & R & Hc & Hy & Hi & _). exists s', ip, y, name. split; [exact R|]. split; [exact Hc|]. split; [exact Hy|exact Hi].
Defined.
