(* ===== verification/Ring.v ===== *)
(** * Ring buffers with free-running 32-bit counters

    The pipe and the console keep bytes in an array of [N] cells addressed by
    counters that only grow and wrap around at [2^32].  [ring_rep] says which
    queue an array and a read counter stand for. *)
From S2P Require Import Prelude.

Lemma u32_add_inj a b c : 0 ≤ b < 2 ^ 32 → 0 ≤ c < 2 ^ 32 → u32 (a + b) = u32 (a + c) → b = c.
Proof.
  unfold u32. intros Hb Hc H.
  assert ((b - c) `mod` 2 ^ 32 = 0) as Hz.
  { replace (b - c) with ((a + b) - (a + c)) by lia. rewrite Zminus_mod, H, Z.sub_diag. done. }
  apply Z.mod_divide in Hz as [k Hk]; lia.
Qed.

Lemma u32_succ_add a b : u32 (u32 (a + b) + 1) = u32 (a + (b + 1)).
Proof. unfold u32. rewrite Zplus_mod_idemp_l. f_equal. lia. Qed.
Lemma u32_pred_add a b : u32 (u32 (a + b) - 1) = u32 (a + (b - 1)).
Proof. unfold u32. rewrite Zminus_mod_idemp_l. f_equal. lia. Qed.
Lemma u32_diff a b : 0 ≤ b < 2 ^ 32 → u32 (u32 (a + b) - a) = b.
Proof. intros Hb. unfold u32. rewrite Zminus_mod_idemp_l. replace (a + b - a) with b by lia. by apply Z.mod_small. Qed.

Section ring.
Context (N : nat) (HN : (0 < N)%nat) (Hdiv : (Z.of_nat N | 2 ^ 32)).

Definition slot (x : Z) : nat := Z.to_nat (x `mod` N).

Lemma slot_lt x : (slot x < N)%nat.
Proof. unfold slot. pose proof (Z.mod_pos_bound x N ltac:(lia)). lia. Qed.
Lemma slot_u32 x : slot (u32 x) = slot x.
Proof. unfold slot, u32. by rewrite Z.mod_mod_divide. Qed.
Lemma slot_u32_add x k : slot (u32 x + k) = slot (x + k).
Proof. unfold slot. rewrite <- Zplus_mod_idemp_l. unfold u32. rewrite Z.mod_mod_divide by done. by rewrite Zplus_mod_idemp_l. Qed.
Lemma slot_ne a (i j : nat) : (i < N)%nat → (j < N)%nat → i ≠ j → slot (a + i) ≠ slot (a + j).
Proof.
  unfold slot. intros Hi Hj Hne H. apply Z2Nat.inj in H; [|apply Z.mod_pos_bound; lia..].
  assert (((a + i) - (a + j)) `mod` N = 0) as Hz by (rewrite Zminus_mod, H, Z.sub_diag; done).
  apply Z.mod_divide in Hz as [k Hk]; [|lia]. assert (k = 0) by nia. lia.
Qed.

(** [q] is what the array holds from the read counter [r] on. *)
Record ring_rep (data : list Z) (r : Z) (q : list Z) : Prop := {
  rr_len : length data = N;
  rr_bound : (length q ≤ N)%nat;
  rr_data : ∀ (i : nat) c, q !! i = Some c → data !! slot (r + i) = Some c }.

Lemma queue_push data r q c : ring_rep data r q → (length q < N)%nat →
  ring_rep (<[slot (u32 (r + length q)) := c]> data) r (q ++ [c]).
Proof.
  intros [Hl Hb Hd] Hlt. rewrite slot_u32. split.
  - by rewrite length_insert.
  - rewrite length_app. simpl. lia.
  - intros i x [Hi|[Hge Hi]]%lookup_app_Some.
    + rewrite list_lookup_insert_ne; [auto|]. apply lookup_lt_Some in Hi. apply slot_ne; lia.
    + apply list_lookup_singleton_Some in Hi as [Hi ->]. assert (i = length q) as -> by lia.
      apply list_lookup_insert_eq. rewrite Hl. apply slot_lt.
Qed.

Lemma queue_front data r q c : ring_rep data r (c :: q) → nth (slot r) data 0 = c.
Proof. intros [Hl Hb Hd]. apply nth_lookup_Some. specialize (Hd 0%nat c eq_refl). by rewrite Z.add_0_r in Hd. Qed.

Lemma queue_pop data r q c : ring_rep data r (c :: q) → ring_rep data (u32 (r + 1)) q.
Proof.
  intros [Hl Hb Hd]. simpl in Hb. split; [done|lia|]. intros i x Hi. specialize (Hd (S i) x Hi).
  rewrite slot_u32_add. rewrite <- Hd. do 2 f_equal. lia.
Qed.

(** The last byte, and giving it up again. *)
Lemma queue_last data r q c : ring_rep data r (q ++ [c]) → nth (slot (u32 (u32 (r + length (q ++ [c])) - 1))) data 0 = c.
Proof.
  intros [Hl Hb Hd]. apply nth_lookup_Some. rewrite u32_pred_add, slot_u32.
  rewrite <- (Hd (length q) c) by (by rewrite list_lookup_middle). do 2 f_equal. rewrite length_app. simpl. lia.
Qed.

Lemma queue_drop data r q q' : ring_rep data r (q ++ q') → ring_rep data r q.
Proof.
  intros [Hl Hb Hd]. rewrite length_app in Hb. split; [done|lia|]. intros i c Hi. apply Hd.
  apply lookup_lt_Some in Hi as Hlt. by rewrite lookup_app_l.
Qed.
End ring.
