(* ===== verification/Pipe.v ===== *)
(** * Pipes: pipe.c

    [p->lock] is held except while a process sleeps, so each stretch of
    pipewrite or piperead between two sleeps is one atomic step.  A step of a
    writer runs until everything is stored, until it fails, or until it sleeps
    on [&p->nwrite] with some bytes left; a step of a reader until it returns
    or sleeps on [&p->nread].  The counters are 32-bit and wrap around.  The state
    is that of the pipe: the calls of wakeup, which only make sleeping processes
    runnable, are not part of these steps (Proc.v has wakeup), and the theorems
    here are about what the steps do whenever they run. *)
From S2P Require Import Prelude Str Ring.

Definition PIPESIZE : nat := 512.

Record pipe := mkPipe {
  p_data : bytes; p_nread : Z; p_nwrite : Z; p_readopen : Z; p_writeopen : Z }.

(** The initialisation done by [pipealloc] on a fresh page with contents [d]. *)
Definition pipe_init (d : bytes) : pipe := mkPipe d 0 0 1 1.

Definition put_byte (c : Z) (p : pipe) : pipe :=
  mkPipe (<[Z.to_nat (p_nwrite p `mod` PIPESIZE) := c]> (p_data p)) (p_nread p) (u32 (p_nwrite p + 1))
    (p_readopen p) (p_writeopen p).

Inductive write_out :=
| WDone                       (* all bytes stored *)
| WFail                       (* return -1 *)
| WSleep (rest : bytes).      (* sleeping, [rest] still to be stored *)

(** The loop of [pipewrite] from the byte [l] starts with. *)
Fixpoint pipewrite (killed : bool) (l : bytes) (p : pipe) : write_out * pipe :=
  match l with
  | [] => (WDone, p)
  | c :: l' =>
      if p_nwrite p =? u32 (p_nread p + PIPESIZE) then
        if (p_readopen p =? 0) || killed then (WFail, p) else (WSleep l, p)
      else pipewrite killed l' (put_byte c p)
  end.

(** The copy loop of [piperead]: at most [n] bytes. *)
Fixpoint read_loop (n : nat) (p : pipe) : bytes * pipe :=
  match n with
  | O => ([], p)
  | S n =>
      if p_nread p =? p_nwrite p then ([], p) else
      let c := nth (Z.to_nat (p_nread p `mod` PIPESIZE)) (p_data p) 0 in
      let '(l, p') := read_loop n (mkPipe (p_data p) (u32 (p_nread p + 1)) (p_nwrite p) (p_readopen p) (p_writeopen p)) in
      (c :: l, p')
  end.

Inductive read_out :=
| RDone (l : bytes)           (* the bytes stored at [addr]; their number is returned *)
| RFail                       (* return -1 *)
| RSleep.

Definition piperead (killed : bool) (n : Z) (p : pipe) : read_out * pipe :=
  if (p_nread p =? p_nwrite p) && truthy (p_writeopen p) then
    if killed then (RFail, p) else (RSleep, p)
  else
    let '(l, p') := read_loop (Z.to_nat n) p in (RDone l, p').

(** [pipeclose]: the new state, and whether the pipe's page is freed. *)
Definition pipeclose (writable : bool) (p : pipe) : bool * pipe :=
  let p := if writable then mkPipe (p_data p) (p_nread p) (p_nwrite p) (p_readopen p) 0
           else mkPipe (p_data p) (p_nread p) (p_nwrite p) 0 (p_writeopen p) in
  ((p_readopen p =? 0) && (p_writeopen p =? 0), p).

(** ** The pipe as a queue *)

(** [q] is the bytes in the pipe, oldest first. *)
Record pipe_rep (p : pipe) (q : bytes) : Prop := {
  pr_ring : ring_rep PIPESIZE (p_data p) (p_nread p) q;
  pr_nread : is_u32 (p_nread p);
  pr_nwrite : p_nwrite p = u32 (p_nread p + length q) }.

Section queue.
Implicit Types (p : pipe) (q : bytes).

Lemma pipesize_divides : (Z.of_nat PIPESIZE | 2 ^ 32).
Proof. by exists 8388608. Qed.

Lemma pr_bound p q : pipe_rep p q → (length q ≤ PIPESIZE)%nat.
Proof. intros [[] _ _]. done. Qed.

Lemma pipe_init_rep d : length d = PIPESIZE → pipe_rep (pipe_init d) [].
Proof. intros Hd. split; [split; cbn; (done || lia)|unfold is_u32; cbn; lia|done]. Qed.

Lemma full_iff p q : pipe_rep p q → (p_nwrite p =? u32 (p_nread p + PIPESIZE)) = bool_decide (length q = PIPESIZE).
Proof.
  intros H. pose proof (pr_bound p q H). destruct H as [_ _ ->]. apply eq_true_iff_eq. rewrite Z.eqb_eq, bool_decide_eq_true. split.
  - intros E%u32_add_inj; unfold PIPESIZE in *; lia.
  - intros ->. done.
Qed.

Lemma empty_iff p q : pipe_rep p q → (p_nread p =? p_nwrite p) = bool_decide (q = []).
Proof.
  intros Hr. pose proof (pr_bound p q Hr). destruct Hr as [_ Hn ->]. apply eq_true_iff_eq. rewrite Z.eqb_eq, bool_decide_eq_true. split.
  - intros H0. rewrite <- (u32_small (p_nread p)) in H0 at 1 by done.
    rewrite <- (Z.add_0_r (p_nread p)) in H0 at 1. apply u32_add_inj in H0; unfold PIPESIZE in *; [|lia..].
    destruct q; [done|]. simpl in H0. lia.
  - intros ->. simpl. rewrite Z.add_0_r. symmetry. by apply u32_small.
Qed.

Lemma put_byte_rep p q c : pipe_rep p q → (length q < PIPESIZE)%nat → pipe_rep (put_byte c p) (q ++ [c]).
Proof.
  intros [Hr Hn Hw] Hlt. split; cbn; [|done|].
  - rewrite Hw. apply (queue_push PIPESIZE); [unfold PIPESIZE; lia|apply pipesize_divides|done|done].
  - rewrite Hw, u32_succ_add, length_app. f_equal. simpl. lia.
Qed.

Lemma take_byte_rep p q c :
  pipe_rep p (c :: q) →
  nth (Z.to_nat (p_nread p `mod` PIPESIZE)) (p_data p) 0 = c ∧
  pipe_rep (mkPipe (p_data p) (u32 (p_nread p + 1)) (p_nwrite p) (p_readopen p) (p_writeopen p)) q.
Proof.
  intros [Hr Hn Hw]. split; [exact (queue_front PIPESIZE _ _ q c Hr)|]. split; cbn.
  - apply (queue_pop PIPESIZE ltac:(unfold PIPESIZE; lia) pipesize_divides _ _ q c Hr).
  - apply u32_range.
  - rewrite Hw. unfold u32. rewrite Zplus_mod_idemp_l. f_equal. simpl. lia.
Qed.

(** A step of a writer appends a prefix of its bytes; all of them exactly when
    it is done, and it sleeps only on a full pipe. *)
Lemma pipewrite_spec killed l p q :
  pipe_rep p q →
  ∃ w rest, l = w ++ rest ∧ pipe_rep (pipewrite killed l p).2 (q ++ w) ∧
    match (pipewrite killed l p).1 with
    | WDone => rest = []
    | WFail => rest ≠ [] ∧ length (q ++ w) = PIPESIZE ∧ (p_readopen p = 0 ∨ killed = true)
    | WSleep r => r = rest ∧ rest ≠ [] ∧ length (q ++ w) = PIPESIZE ∧ p_readopen p ≠ 0 ∧ killed = false
    end.
Proof.
  revert p q; induction l as [|c l IH]; intros p q Hp; simpl.
  { exists [], []. rewrite (app_nil_r q). done. }
  rewrite (full_iff p q Hp). case_bool_decide as Hfull.
  - exists [], (c :: l). rewrite (app_nil_r q).
    destruct ((p_readopen p =? 0) || killed) eqn:E; cbn; split_and!; try done.
    + apply orb_true_iff in E as [?%Z.eqb_eq| ->]; auto.
    + by apply orb_false_iff in E as [?%Z.eqb_neq _].
    + by apply orb_false_iff in E as [_ ?].
  - destruct (IH (put_byte c p) (q ++ [c])) as (w & rest & -> & Hr & Hout).
    { apply put_byte_rep; [done|]. pose proof (pr_bound _ _ Hp). lia. }
    exists (c :: w), rest. rewrite <- app_assoc in Hr, Hout. simpl in Hr, Hout. split_and!; done.
Qed.

(** The copy loop removes the oldest bytes. *)
Lemma read_loop_spec n p q :
  pipe_rep p q → (read_loop n p).1 = take n q ∧ pipe_rep (read_loop n p).2 (drop n q).
Proof.
  revert p q; induction n as [|n IH]; intros p q Hp; simpl; [by rewrite drop_0|].
  rewrite (empty_iff p q Hp). case_bool_decide as He; [by subst|].
  destruct q as [|c q]; [done|]. destruct (take_byte_rep p q c Hp) as [Hc Hp'].
  destruct (IH _ q Hp') as [H1 H2]. destruct (read_loop n _) as [l p'] eqn:E. simpl in *.
  split; [by rewrite Hc, H1|done].
Qed.
End queue.

(** ** Any interleaving of readers, writers and closes *)

Inductive pipe_ev := EvWrite (killed : bool) (l : bytes) | EvRead (killed : bool) (n : Z) | EvClose (writable : bool).

(** The bytes that one step puts into and takes out of the pipe. *)
Definition run_event (ev : pipe_ev) (p : pipe) : bytes * bytes * pipe :=
  match ev with
  | EvWrite killed l =>
      match pipewrite killed l p with
      | (WDone, p') => (l, [], p')
      | (WSleep rest, p') => (take (length l - length rest) l, [], p')
      | (WFail, p') => (take (Z.to_nat (u32 (p_nwrite p' - p_nwrite p))) l, [], p')
      end
  | EvRead killed n =>
      match piperead killed n p with
      | (RDone l, p') => ([], l, p')
      | (_, p') => ([], [], p')
      end
  | EvClose w => ([], [], (pipeclose w p).2)
  end.

Fixpoint run_events (evs : list pipe_ev) (p : pipe) : bytes * bytes * pipe :=
  match evs with
  | [] => ([], [], p)
  | ev :: evs =>
      let '(i, o, p') := run_event ev p in
      let '(ins, outs, pf) := run_events evs p' in
      (i ++ ins, o ++ outs, pf)
  end.

Lemma written_count p p' q w :
  pipe_rep p q → pipe_rep p' (q ++ w) → p_nread p' = p_nread p →
  Z.to_nat (u32 (p_nwrite p' - p_nwrite p)) = length w.
Proof.
  intros [] Hp' Hn. pose proof (pr_bound _ _ Hp'). destruct Hp'. rewrite pr_nwrite0, pr_nwrite1, Hn, length_app in *. unfold u32.
  rewrite <- Zminus_mod. replace (p_nread p + (length q + length w)%nat - (p_nread p + length q)) with (Z.of_nat (length w)) by lia.
  rewrite Z.mod_small; [lia|]. unfold PIPESIZE in *. lia.
Qed.

Lemma pipewrite_nread killed l p : p_nread (pipewrite killed l p).2 = p_nread p.
Proof.
  revert p; induction l as [|c l IH]; intros p; simpl; [done|].
  destruct (_ =? _); [by destruct (_ || _)|]. by rewrite IH.
Qed.

Lemma run_event_fifo ev p q :
  pipe_rep p q → ∃ i o p' q', run_event ev p = (i, o, p') ∧ pipe_rep p' q' ∧ q ++ i = o ++ q'.
Proof.
  intros Hp. destruct ev as [killed l|killed n|w]; unfold run_event.
  - destruct (pipewrite_spec killed l p q Hp) as (w & rest & -> & Hr & Hout).
    pose proof (pipewrite_nread killed (w ++ rest) p) as Hn.
    destruct (pipewrite killed (w ++ rest) p) as [[| |r] p'] eqn:E; simpl in *.
    + subst rest. rewrite app_nil_r in *. by eexists _, _, _, _.
    + rewrite (written_count p p' q w Hp Hr Hn), take_app_length. by eexists _, _, _, _.
    + destruct Hout as [-> _]. rewrite length_app, Nat.add_sub, take_app_length. by eexists _, _, _, _.
  - unfold piperead. destruct (_ && _).
    { destruct killed; eexists [], [], p, q; by rewrite app_nil_r. }
    destruct (read_loop_spec (Z.to_nat n) p q Hp) as [H1 H2].
    destruct (read_loop (Z.to_nat n) p) as [l p'] eqn:E. simpl in *. subst l.
    eexists [], _, _, _. split; [done|]. split; [exact H2|]. by rewrite app_nil_r, take_drop.
  - eexists [], [], _, q. split; [done|]. split; [|by rewrite app_nil_r].
    destruct Hp. unfold pipeclose. destruct w; split; done.
Qed.

Lemma run_events_fifo evs p q ins outs pf :
  pipe_rep p q → run_events evs p = (ins, outs, pf) → ∃ qf, pipe_rep pf qf ∧ q ++ ins = outs ++ qf.
Proof.
  revert p q ins outs; induction evs as [|ev evs IH]; intros p q ins outs Hp; simpl.
  { intros [= <- <- <-]. exists q. by rewrite app_nil_r. }
  destruct (run_event_fifo ev p q Hp) as (i & o & p' & q' & -> & Hp' & Hq).
  destruct (run_events evs p') as [[ins' outs'] pf'] eqn:E. intros [= <- <- <-].
  destruct (IH p' q' ins' outs' Hp' E) as (qf & Hpf & Hqf). exists qf. split; [done|].
  rewrite app_assoc, Hq, <- app_assoc, Hqf, app_assoc. done.
Qed.

(** C17: a pipe is a FIFO byte stream.  For every interleaving of steps of
    writers, readers and closes on a new pipe, with counters that wrap around
    at 2^32, the bytes read are exactly the bytes written so far, in order,
    without the at most PIPESIZE bytes still in the pipe. *)
Theorem pipe_fifo (d : bytes) (evs : list pipe_ev) ins outs pf :
  length d = PIPESIZE → run_events evs (pipe_init d) = (ins, outs, pf) →
  ∃ q, ins = outs ++ q ∧ (length q ≤ PIPESIZE)%nat ∧ pipe_rep pf q.
Proof.
  intros Hd Hrun. destruct (run_events_fifo evs _ [] ins outs pf (pipe_init_rep d Hd) Hrun) as (q & Hq & Heq).
  exists q. split_and!; [done|by eapply pr_bound|done].
Qed.

Lemma pipe_fifo_witness :
  ∃ pf q, run_events [EvRead false 5; EvWrite false [7; 8; 9]; EvRead false 2; EvWrite false [1]; EvRead false 9]
             (pipe_init (replicate PIPESIZE 0)) = ([7; 8; 9; 1], [7; 8; 9; 1], pf) ∧
    [7; 8; 9; 1] = [7; 8; 9; 1] ++ q ∧ (length q ≤ PIPESIZE)%nat ∧ pipe_rep pf q.
Proof.
  destruct (run_events [EvRead false 5; EvWrite false [7; 8; 9]; EvRead false 2; EvWrite false [1]; EvRead false 9]
             (pipe_init (replicate PIPESIZE 0))) as [[ins outs] pf] eqn:E.
  assert (ins = [7; 8; 9; 1] ∧ outs = [7; 8; 9; 1]) as [-> ->] by (revert E; vm_compute; by intros [= <- <- _]).
  exists pf. destruct (pipe_fifo (replicate PIPESIZE 0) _ _ _ _ eq_refl E) as (q & H). by exists q.
Defined.

(** A writer blocks only on a full pipe and a reader only on an empty one.
    A writer that is told to sleep left exactly PIPESIZE bytes in the pipe with
    the read end open; a reader sleeps exactly when the pipe is empty, the write
    end is open and it was not killed, and otherwise gets the oldest
    min(n, available) bytes. *)
Lemma pipe_blocking (p : pipe) (q : bytes) (killed : bool) (l : bytes) (n : Z) :
  pipe_rep p q →
  (∀ rest p', pipewrite killed l p = (WSleep rest, p') →
     ∃ w, l = w ++ rest ∧ rest ≠ [] ∧ pipe_rep p' (q ++ w) ∧ length (q ++ w) = PIPESIZE ∧
          p_readopen p ≠ 0 ∧ killed = false) ∧
  match piperead killed n p with
  | (RSleep, p') => q = [] ∧ p_writeopen p ≠ 0 ∧ killed = false ∧ p' = p
  | (RFail, p') => q = [] ∧ killed = true ∧ p' = p
  | (RDone l, p') => l = take (Z.to_nat n) q ∧ pipe_rep p' (drop (Z.to_nat n) q)
  end.
Proof.
  intros Hp. split.
  - intros rest p' Hw. destruct (pipewrite_spec killed l p q Hp) as (w & rest' & -> & Hr & Hout).
    rewrite Hw in *. cbn in *. destruct Hout as (-> & ? & ? & ? & ?). by exists w.
  - unfold piperead. rewrite (empty_iff p q Hp). case_bool_decide as He; cbn [andb].
    2:{ destruct (read_loop_spec (Z.to_nat n) p q Hp) as [H1 H2].
        destruct (read_loop (Z.to_nat n) p); simpl in *. done. }
    destruct (truthy (p_writeopen p)) eqn:Hw.
    + destruct killed; [done|]. by apply truthy_true in Hw.
    + destruct (read_loop_spec (Z.to_nat n) p q Hp) as [H1 H2].
      destruct (read_loop (Z.to_nat n) p); simpl in *. done.
Qed.

Lemma pipe_blocking_witness :
  match piperead false 4 (pipe_init (replicate PIPESIZE 0)) with
  | (RSleep, p') => ([] : bytes) = [] ∧ 1 ≠ 0 ∧ false = false ∧ p' = pipe_init (replicate PIPESIZE 0)
  | _ => False
  end.
Proof.
  destruct (pipe_blocking (pipe_init (replicate PIPESIZE 0)) [] false [] 4 (pipe_init_rep (replicate PIPESIZE 0) eq_refl)) as [_ H].
  exact H.
Defined.
