(* ===== verification/Kalloc.v ===== *)
(** * The physical page allocator: kalloc.c

    Free pages are linked through their own first word, so the allocator's
    list lives in the memory it hands out.  Memory is the byte memory of
    Str.v; [kend] is the linker symbol [end].  kmem.lock makes kalloc and
    kfree atomic. *)
From S2P Require Import Prelude Str.

Definition PGSIZE : Z := 4096.
Definition KERNBASE : Z := 0x80000000.
Definition PHYSTOP : Z := 0xE000000.
Definition V2P (a : Z) : Z := u32 (a - KERNBASE).
Definition P2V (a : Z) : Z := u32 (a + KERNBASE).
Definition PGROUNDUP (sz : Z) : Z := Z.land (u32 (sz + PGSIZE - 1)) (Z.lnot (PGSIZE - 1)).
Definition PGROUNDDOWN (a : Z) : Z := Z.land a (Z.lnot (PGSIZE - 1)).

(** A 32-bit load. *)
Definition ld32 (m : mem) (a : Z) : Z := le_val [m a; m (a + 1); m (a + 2); m (a + 3)].

Record kmem := mkKmem { km_mem : mem; km_use_lock : Z; km_freelist : Z; km_num : Z }.

Section code.
Context (kend : Z).

Definition kfree (v : Z) : M kmem unit := λ s,
  if truthy (v `mod` PGSIZE) || (v <? kend) || (PHYSTOP <=? V2P v) then Panic "kfree" else
  let m := memset (km_mem s) v 1 PGSIZE in
  let m := st32 m v (km_freelist s) in
  Ok tt (mkKmem m (km_use_lock s) v (km_num s)).

Definition kalloc : M kmem Z := λ s,
  let r := km_freelist s in
  let fl := if truthy r then ld32 (km_mem s) r else r in
  Ok r (mkKmem (km_mem s) (km_use_lock s) fl (s32 (km_num s + 1))).

(** The loop of [freerange]: [p + PGSIZE <= vend]. *)
Fixpoint freerange_loop (fuel : nat) (p vend : Z) : M kmem unit :=
  match fuel with
  | O => λ _, Fuel
  | S fuel =>
      if p + PGSIZE <=? vend then
        do! kfree p in
        freerange_loop fuel (p + PGSIZE) vend
      else ret tt
  end.

Definition freerange (vstart vend : Z) : M kmem unit :=
  freerange_loop (S (Z.to_nat (vend / PGSIZE))) (PGROUNDUP vstart) vend.

Definition kinit1 (vstart vend : Z) : M kmem unit :=
  do! modify (λ s, mkKmem (km_mem s) 0 (km_freelist s) (km_num s)) in
  freerange vstart vend.

Definition kinit2 (vstart vend : Z) : M kmem unit :=
  do! freerange vstart vend in
  modify (λ s, mkKmem (km_mem s) 1 (km_freelist s) (km_num s)).
End code.

(** ** Words in memory *)

Section words.
Implicit Types m : mem.

Lemma st32_out m a v x : x < a ∨ a + 4 ≤ x → st32 m a v x = m x.
Proof. intros H. unfold st32, st8. zcases; (done || lia). Qed.

Lemma st32_bytes m a v :
  st32 m a v a = u8 v ∧ st32 m a v (a + 1) = u8 (Z.shiftr v 8) ∧
  st32 m a v (a + 2) = u8 (Z.shiftr v 16) ∧ st32 m a v (a + 3) = u8 (Z.shiftr v 24).
Proof. unfold st32, st8. split_and!; zcases; (done || lia). Qed.

Lemma ld32_st32 m a v : is_u32 v → ld32 (st32 m a v) a = v.
Proof.
  intros Hv. unfold ld32. destruct (st32_bytes m a v) as (-> & -> & -> & ->).
  rewrite !Z.shiftr_div_pow2 by lia. unfold u8. transitivity (le_val (le_bytes 4 v)).
  - cbn [le_bytes le_val]. change (2 ^ 8) with 256. change (2 ^ 16) with (256 * 256). change (2 ^ 24) with (256 * 256 * 256).
    rewrite <- !Z.div_div by lia. done.
  - rewrite le_val_le_bytes. by apply Z.mod_small.
Qed.

Lemma ld32_ext m m' a : (∀ x, a ≤ x < a + 4 → m' x = m x) → ld32 m' a = ld32 m a.
Proof. intros H. unfold ld32. by rewrite !H by lia. Qed.
End words.

(** ** The free list *)

Section freelist.
Context (kend : Z).
Hypothesis Hend : 0 < kend.
Implicit Types (m : mem) (l : list Z) (v : Z).

Definition page_ok (v : Z) : Prop := v `mod` PGSIZE = 0 ∧ kend ≤ v ∧ is_u32 v ∧ V2P v < PHYSTOP.

(** [l]: the free pages, from [kmem.freelist] on. *)
Fixpoint fl (m : mem) (head : Z) (l : list Z) : Prop :=
  match l with
  | [] => head = 0
  | v :: l => head = v ∧ fl m (ld32 m v) l
  end.

Lemma pages_apart v w : v `mod` PGSIZE = 0 → w `mod` PGSIZE = 0 → v ≠ w → v + PGSIZE ≤ w ∨ w + PGSIZE ≤ v.
Proof.
  intros [q Hq]%Z.mod_divide [r Hr]%Z.mod_divide Hne; [|done..]. subst. unfold PGSIZE in *. nia.
Qed.

(** The list depends only on the first words of its pages. *)
Lemma fl_ext m m' h l :
  (∀ v, v ∈ l → ∀ x, v ≤ x < v + 4 → m' x = m x) → fl m h l → fl m' h l.
Proof.
  revert h; induction l as [|v l IH]; intros h Hm; simpl; [done|].
  intros [-> Hl]. split; [done|]. rewrite (ld32_ext m m' v) by (apply Hm; set_solver).
  apply IH; [|done]. intros w Hw. apply Hm. set_solver.
Qed.

(** A write outside the free pages. *)
Lemma fl_frame m m' h l a n :
  Forall page_ok l → a `mod` PGSIZE = 0 → 0 ≤ n ≤ PGSIZE → a ∉ l →
  (∀ x, x < a ∨ a + n ≤ x → m' x = m x) → fl m h l → fl m' h l.
Proof.
  intros Hok Ha Hn Hnotin Hm. apply fl_ext. intros v Hv x Hx. apply Hm.
  rewrite Forall_forall in Hok. destruct (Hok v (proj1 (list_elem_of_In _ _) Hv)) as [Hv0 _].
  destruct (pages_apart v a Hv0 Ha); [set_solver|unfold PGSIZE in *; lia..].
Qed.

Definition free_pages (s : kmem) (l : list Z) : Prop :=
  fl (km_mem s) (km_freelist s) l ∧ NoDup l ∧ Forall page_ok l.

Lemma kfree_spec s l v :
  free_pages s l → page_ok v → v ∉ l →
  ∃ s', kfree kend v s = Ok tt s' ∧ free_pages s' (v :: l) ∧
    ∀ x, x < v ∨ v + PGSIZE ≤ x → km_mem s' x = km_mem s x.
Proof.
  intros (Hfl & Hnd & Hok) (Hv0 & Hv1 & Hv2 & Hv3) Hnot. unfold kfree. rewrite Hv0.
  replace (v <? kend) with false by (symmetry; apply Z.ltb_ge; lia).
  replace (PHYSTOP <=? V2P v) with false by (symmetry; apply Z.leb_gt; lia).
  eexists. split; [done|]. cbn.
  assert (is_u32 (km_freelist s)) as Hh.
  { destruct l as [|w l]; simpl in Hfl; [by rewrite Hfl|]. destruct Hfl as [-> _].
    inversion_clear Hok as [|? ? H]. apply H. }
  assert (∀ x, x < v ∨ v + PGSIZE ≤ x → st32 (memset (km_mem s) v 1 PGSIZE) v (km_freelist s) x = km_mem s x) as Hout.
  { intros x Hx. rewrite st32_out by (unfold PGSIZE in *; lia). rewrite memset_correct by done.
    replace ((v <=? x) && (x <? v + PGSIZE)) with false; [done|]. symmetry. apply andb_false_iff.
    destruct (Z.leb_spec v x), (Z.ltb_spec x (v + PGSIZE)); (by left) || (by right) || lia. }
  split; [|done]. split_and!.
  - simpl. split; [done|]. rewrite ld32_st32 by done.
    by eapply (fl_frame (km_mem s) _ _ l v PGSIZE).
  - by apply list.NoDup_cons.
  - by constructor.
Qed.

Lemma kalloc_spec s l :
  free_pages s l →
  match l with
  | [] => kalloc s = Ok 0 (mkKmem (km_mem s) (km_use_lock s) 0 (s32 (km_num s + 1)))
  | v :: l' => ∃ s', kalloc s = Ok v s' ∧ free_pages s' l' ∧ km_mem s' = km_mem s
  end.
Proof.
  intros (Hfl & Hnd & Hok). unfold kalloc. destruct l as [|v l]; simpl in Hfl.
  - by rewrite Hfl.
  - destruct Hfl as [-> Hfl]. inversion_clear Hok as [|? ? Hv Hok']. apply list.NoDup_cons in Hnd as [_ Hnd].
    destruct Hv as (_ & ? & _). rewrite (proj2 (truthy_true v)) by lia.
    eexists. split; [done|]. done.
Qed.

(** ** The allocator and its clients *)

(** A step of a kernel whose code owns the pages [own]: allocate a page, free
    an owned page, or write anything into an owned page. *)
Inductive kstep : kmem * gset Z → kmem * gset Z → Prop :=
| k_alloc s own v s' : kalloc s = Ok v s' → v ≠ 0 → kstep (s, own) (s', {[v]} ∪ own)
| k_fail s own s' : kalloc s = Ok 0 s' → kstep (s, own) (s', own)
| k_free s own v s' : v ∈ own → kfree kend v s = Ok tt s' → kstep (s, own) (s', own ∖ {[v]})
| k_write s own v m' : v ∈ own → (∀ x, x < v ∨ v + PGSIZE ≤ x → m' x = km_mem s x) →
    kstep (s, own) (mkKmem m' (km_use_lock s) (km_freelist s) (km_num s), own).

(** [all]: every page the allocator was given. *)
Definition kinv (all : gset Z) (c : kmem * gset Z) : Prop :=
  ∃ l, free_pages c.1 l ∧ list_to_set l ∪ c.2 = all ∧ list_to_set l ## c.2 ∧ (∀ v, v ∈ c.2 → page_ok v).

Lemma kinv_step all c c' : kstep c c' → kinv all c → kinv all c'.
Proof.
  intros Hs (l & Hfp & Hall & Hdis & Hown). destruct Hs as [s own v s' R Hv|s own s' R|s own v s' Hv R|s own v m' Hv Hm].
  - pose proof (kalloc_spec s l Hfp) as Hk. destruct l as [|w l]; [congruence|].
    destruct Hk as (s2 & R2 & Hfp2 & _). rewrite R in R2. simplify_eq/=. destruct Hfp as (_ & Hnd & Hok).
    apply list.NoDup_cons in Hnd as [Hnot _]. inversion_clear Hok.
    exists l. split; [done|]. split_and!; cbn; [set_solver|set_solver|]. intros x. rewrite elem_of_union, elem_of_singleton.
    intros [->|?]; auto.
  - pose proof (kalloc_spec s l Hfp) as Hk. destruct l as [|w l].
    + rewrite R in Hk. simplify_eq/=. exists []. split; [|done]. split_and!; [done|apply NoDup_nil_2|done].
    + destruct Hk as (s2 & R2 & _). rewrite R in R2. simplify_eq. destruct Hfp as (_ & _ & Hok).
      inversion_clear Hok as [|? ? Hw]. destruct Hw as (_ & ? & _). lia.
  - cbn in *. destruct (kfree_spec s l v Hfp) as (s2 & R2 & Hfp2 & _); [auto|set_solver|]. rewrite R in R2. simplify_eq.
    exists (v :: l). split; [done|]. split_and!; cbn; [|set_solver|set_solver].
    apply set_eq. intros x. destruct (decide (x = v)); set_solver.
  - cbn in *. exists l. split; [|done]. destruct Hfp as (Hfl & Hnd & Hok). split_and!; [|done..].
    cbn. eapply (fl_frame (km_mem s) m' _ l v PGSIZE); [done|by apply Hown|done|set_solver|done|done].
Qed.
(** ** Initialization *)

(** [n] pages from [p] on, in the order the free list holds them after
    [freerange]: the last one first. *)
Fixpoint pages_down (p : Z) (n : nat) : list Z :=
  match n with
  | O => []
  | S n => pages_down (p + PGSIZE) n ++ [p]
  end.

Lemma elem_of_pages_down p n v : v ∈ pages_down p n ↔ ∃ i : nat, (i < n)%nat ∧ v = p + i * PGSIZE.
Proof.
  revert p; induction n as [|n IH]; intros p; simpl.
  - rewrite elem_of_nil. split; [done|]. intros (i & Hi & _). lia.
  - rewrite elem_of_app, IH, list_elem_of_singleton. split.
    + intros [(i & Hi & ->)| ->]; [exists (S i)|exists O]; (split; [lia|]); unfold PGSIZE; lia.
    + intros ([|i] & Hi & ->); [right|left; exists i; split]; unfold PGSIZE; lia.
Qed.

Lemma in_range_ok p : p `mod` PGSIZE = 0 → kend ≤ p → KERNBASE ≤ p → p < KERNBASE + PHYSTOP → page_ok p.
Proof.
  unfold KERNBASE, PHYSTOP. intros H0 H1 H2 H3. split_and!; [done|done|split; lia|].
  unfold V2P, u32, PHYSTOP, KERNBASE. rewrite Z.mod_small; lia.
Qed.

Lemma freerange_loop_spec fuel n p vend s l :
  p `mod` PGSIZE = 0 → kend ≤ p → KERNBASE ≤ p → vend ≤ KERNBASE + PHYSTOP →
  n = Z.to_nat ((vend - p) / PGSIZE) → (n < fuel)%nat →
  free_pages s l → (∀ v, v ∈ l → v ∉ pages_down p n) →
  ∃ s', freerange_loop kend fuel p vend s = Ok tt s' ∧ free_pages s' (pages_down p n ++ l) ∧
    km_use_lock s' = km_use_lock s.
Proof.
  revert n p s l; induction fuel as [|fuel IH]; intros n p s l Hp Hk Hb He Hn Hf Hfp Hnot; [lia|]. simpl.
  destruct (Z.leb_spec (p + PGSIZE) vend) as [Hle|Hgt].
  - assert (n = S (Z.to_nat ((vend - (p + PGSIZE)) / PGSIZE))) as Hn'.
    { rewrite Hn. replace (vend - p) with (vend - (p + PGSIZE) + 1 * PGSIZE) by lia. rewrite Z.div_add by done.
      rewrite <- Z2Nat.inj_succ; [f_equal; lia|]. apply Z.div_pos; unfold PGSIZE in *; lia. }
    rewrite Hn' in *. clear Hn Hn'. set (k := Z.to_nat _) in *. cbn [pages_down] in *.
    destruct (kfree_spec s l p) as (s1 & R1 & Hfp1 & _); [done|apply in_range_ok; unfold PGSIZE in *; lia|set_solver|].
    assert (km_use_lock s1 = km_use_lock s) as Hu.
    { unfold kfree in R1. case_match; by simplify_eq. }
    rewrite (bind_Ok _ _ _ _ _ R1). destruct (IH k (p + PGSIZE) s1 (p :: l)) as (s2 & R2 & Hfp2 & Hu2).
    + by rewrite <- Zplus_mod_idemp_r, Z_mod_same_full, Z.add_0_r.
    + unfold PGSIZE in *; lia.
    + unfold PGSIZE in *; lia.
    + done.
    + done.
    + lia.
    + done.
    + intros v [->|Hv]%elem_of_cons; [|set_solver].
      rewrite elem_of_pages_down. intros (i & _ & Hi). unfold PGSIZE in *. lia.
    + exists s2. split; [done|]. rewrite <- app_assoc. split; [done|congruence].
  - assert (n = O) as ->.
    { rewrite Hn. destruct (decide (0 ≤ vend - p)); [rewrite Z.div_small; unfold PGSIZE in *; lia|].
      assert ((vend - p) / PGSIZE < 0) by (apply Z.div_lt_upper_bound; unfold PGSIZE in *; lia). lia. }
    by exists s.
Qed.
End freelist.

(** C16: no page is handed out twice or lost.  From a state whose free list
    holds the pages [l0], whatever sequence of allocations, frees of owned pages
    and arbitrary writes into owned pages the kernel performs, the free list
    stays intact: free and owned pages are disjoint and together are exactly
    [l0], kalloc returns a page that nobody owns and that lies between [end] and
    PHYSTOP, and it returns 0 exactly when every page is owned. *)
Theorem kalloc_safe (kend : Z) (s0 : kmem) (l0 : list Z) c :
  0 < kend → free_pages kend s0 l0 → rtc (kstep kend) (s0, ∅) c →
  ∃ v s', kalloc c.1 = Ok v s' ∧ (v ∉ c.2) ∧
    (v ≠ 0 → v ∈ l0 ∧ page_ok kend v ∧ km_mem s' = km_mem c.1) ∧
    (v = 0 ↔ c.2 = list_to_set l0).
Proof.
  intros Hend Hfp0 Hr.
  assert (kinv kend (list_to_set l0) c) as (l & Hfp & Hall & Hdis & Hown).
  { assert (kinv kend (list_to_set l0) (s0, ∅)) as H0.
    { exists l0. split; [done|]. split_and!; cbn; set_solver. }
    revert H0. induction Hr as [|c1 c2 c3 Hs _ IH]; [done|]. intros H. by eapply IH, kinv_step. }
  pose proof (kalloc_spec kend Hend c.1 l Hfp) as Hk. destruct l as [|v l].
  - eexists 0, _. split; [exact Hk|]. split_and!; [|done|].
    + intros H0%Hown. destruct H0 as (_ & ? & _). lia.
    + split; [|done]. intros _. set_solver.
  - destruct Hk as (s' & R & _ & Hm). exists v, s'. destruct Hfp as (_ & _ & Hok).
    inversion_clear Hok as [|? ? Hv]. split_and!; [done|set_solver|intros _; split_and!; [set_solver|done..]|].
    destruct Hv as (_ & ? & _). split; [lia|]. intros E. set_solver.
Qed.

(** ** Rounding *)

Lemma PGROUNDDOWN_spec a : PGROUNDDOWN a = a - a `mod` PGSIZE.
Proof.
  unfold PGROUNDDOWN, PGSIZE. change (4096 - 1) with (Z.ones 12).
  rewrite <- Z.ldiff_land, Z.ldiff_ones_r, Z.shiftr_div_pow2, Z.shiftl_mul_pow2 by lia.
  change (2 ^ 12) with 4096. pose proof (Z.div_mod a 4096). lia.
Qed.

Lemma PGROUNDUP_spec a :
  0 ≤ a → a + PGSIZE ≤ 2 ^ 32 →
  PGROUNDUP a `mod` PGSIZE = 0 ∧ a ≤ PGROUNDUP a < a + PGSIZE.
Proof.
  unfold PGSIZE. intros H0 H1. change (PGROUNDUP a) with (PGROUNDDOWN (u32 (a + 4096 - 1))).
  rewrite u32_small by (unfold is_u32; lia). rewrite PGROUNDDOWN_spec. unfold PGSIZE.
  pose proof (Z.mod_pos_bound (a + 4096 - 1) 4096). split; [|lia].
  pose proof (Z.div_mod (a + 4096 - 1) 4096).
  replace (_ - _) with ((a + 4096 - 1) / 4096 * 4096) by lia. apply Z.mod_mul. lia.
Qed.

(** The boot-time initialization.  kinit1(vstart, vend) on an empty free
    list, at addresses in the kernel's half of memory below PHYSTOP, panics
    never and leaves exactly the whole pages of [vstart, vend) free, each once,
    the highest first; the page-lock flag stays off until kinit2. *)
Theorem kinit1_frees_range (kend vstart vend : Z) (s : kmem) :
  0 < kend → kend ≤ vstart → KERNBASE ≤ vstart → vstart ≤ KERNBASE + PHYSTOP → vend ≤ KERNBASE + PHYSTOP →
  km_freelist s = 0 →
  ∃ s' l, kinit1 kend vstart vend s = Ok tt s' ∧ km_use_lock s' = 0 ∧ free_pages kend s' l ∧
    ∀ v, v ∈ l ↔ v `mod` PGSIZE = 0 ∧ vstart ≤ v ∧ v + PGSIZE ≤ vend.
Proof.
  intros Hk Hkv Hb Hs He Hfl. pose proof (PGROUNDUP_spec vstart) as HR. unfold KERNBASE, PHYSTOP, PGSIZE in *.
  destruct HR as [HR0 HR1]; [lia..|]. set (p := PGROUNDUP vstart) in *.
  set (n := Z.to_nat ((vend - p) / PGSIZE)).
  destruct (freerange_loop_spec kend Hk (S (Z.to_nat (vend / PGSIZE))) n p vend
              (mkKmem (km_mem s) 0 (km_freelist s) (km_num s)) []) as (s' & R & Hfp & Hu);
    [done|lia|unfold KERNBASE; lia|unfold KERNBASE, PHYSTOP; lia|done| |split_and!; [done|apply NoDup_nil_2|done]|set_solver|].
  { unfold n.
    assert ((vend - p) / PGSIZE ≤ vend / PGSIZE) by (apply Z.div_le_mono; unfold PGSIZE; lia). lia. }
  exists s', (pages_down p n). rewrite app_nil_r in Hfp. split; [exact R|]. split; [exact Hu|]. split; [done|].
  intros v. rewrite elem_of_pages_down. unfold n, PGSIZE in *. pose proof (Z.div_mod p 4096).
  pose proof (Z.div_mod (vend - p) 4096). pose proof (Z.mod_pos_bound (vend - p) 4096). split.
  - intros (i & Hi & ->). split; [rewrite Z_mod_plus_full; done|]. nia.
  - intros (Hv & Hv1 & Hv2). pose proof (Z.div_mod v 4096).
    assert (p ≤ v) by lia. exists (Z.to_nat ((v - p) / 4096)).
    assert (v - p = (v / 4096 - p / 4096) * 4096) as -> by lia.
    rewrite Z.div_mul by lia. split; [|lia]. nia.
Qed.

Lemma kinit1_frees_range_witness :
  ∃ s' l, kinit1 0x80115a00 0x80115a00 0x80400000 (mkKmem (λ _, 0) 1 0 0) = Ok tt s' ∧ km_use_lock s' = 0 ∧
    free_pages 0x80115a00 s' l ∧
    ∀ v, v ∈ l ↔ v `mod` PGSIZE = 0 ∧ 0x80115a00 ≤ v ∧ v + PGSIZE ≤ 0x80400000.
Proof. apply kinit1_frees_range; unfold KERNBASE, PHYSTOP; (reflexivity || lia). Defined.

(** Two free pages: 0x80101000 -> 0x80100000 -> 0. *)
Definition two_pages : kmem :=
  match (do! kfree 0x80100000 0x80100000 in kfree 0x80100000 0x80101000) (mkKmem (λ _, 0) 0 0 0) with
  | Ok _ s => s
  | _ => mkKmem (λ _, 0) 0 0 0
  end.

Lemma two_pages_free : free_pages 0x80100000 two_pages [0x80101000; 0x80100000].
Proof.
  assert (0 < 0x80100000) as He by lia.
  destruct (kfree_spec 0x80100000 He (mkKmem (λ _, 0) 0 0 0) [] 0x80100000) as (s1 & R1 & H1 & _).
  { split_and!; [done|apply NoDup_nil_2|done]. }
  { split_and!; done. } { apply not_elem_of_nil. }
  destruct (kfree_spec 0x80100000 He s1 [0x80100000] 0x80101000 H1) as (s2 & R2 & H2 & _).
  { split_and!; done. } { rewrite list_elem_of_singleton. lia. }
  unfold two_pages. rewrite (bind_Ok _ _ _ _ _ R1), R2. exact H2.
Qed.

Lemma kalloc_safe_witness :
  ∃ v s', kalloc two_pages = Ok v s' ∧ (v ∉ (∅ : gset Z)) ∧
    (v ≠ 0 → v ∈ [0x80101000; 0x80100000] ∧ page_ok 0x80100000 v ∧ km_mem s' = km_mem two_pages) ∧
    (v = 0 ↔ (∅ : gset Z) = list_to_set [0x80101000; 0x80100000]).
Proof.
  apply (kalloc_safe 0x80100000 two_pages [0x80101000; 0x80100000] (two_pages, ∅)).
  - lia.
  - exact two_pages_free.
  - apply rtc_refl.
Defined.
