(* ===== verification/Mp.v ===== *)
(** * Multiprocessor tables: mp.c

    mpinit looks for the MP floating pointer in low memory and the BIOS, follows
    it to the configuration table, and records the processors and the I/O APIC
    of the table.  Memory is what the firmware left there, an argument; the
    state is the four global variables and the device. *)
From S2P Require Import Prelude Str Kalloc Port.

Definition NCPU : nat := 8.
Definition MPPROC : Z := 0.
Definition MPBUS : Z := 1.
Definition MPIOAPIC : Z := 2.
Definition MPIOINTR : Z := 3.
Definition MPLINTR : Z := 4.

(** Sizes and field offsets of the structures of mp.h. *)
Definition sizeof_mp : Z := 16.
Definition sizeof_mpconf : Z := 44.
Definition sizeof_mpproc : Z := 20.
Definition sizeof_mpioapic : Z := 8.

(** The APIC ids of [cpus[0..ncpu)], the ids and addresses of the controllers. *)
Record mpst (D : Type) := mkMp { apicids : list Z; ioapicid : Z; lapic : Z; mp_dev : D }.
Arguments mkMp {D}.
Arguments apicids {D}.
Arguments ioapicid {D}.
Arguments lapic {D}.
Arguments mp_dev {D}.

Section code.
Context (mem : Z → Z).

Definition ld16 (a : Z) : Z := le_val [mem a; mem (a + 1)].

(** The bytes at [addr] as an array. *)
Definition at_ (addr : Z) : nat → Z := λ i, mem (addr + Z.of_nat i).

Definition sum (addr len : Z) : Z := u8 (foldl (λ s i, s + at_ addr i) 0 (seq 0 (Z.to_nat len))).

(** [for(p = addr; p < e; p += sizeof(struct mp))] *)
Fixpoint mpsearch1_loop (p : Z) (n : nat) : option Z :=
  match n with
  | O => None
  | S n =>
      if (memcmp (at_ p) (cstr [95; 77; 80; 95]) 4 =? 0) && (sum p sizeof_mp =? 0) then Some p
      else mpsearch1_loop (u32 (p + sizeof_mp)) n
  end.
Definition mpsearch1 (a len : Z) : option Z := mpsearch1_loop (P2V a) (Z.to_nat ((len + sizeof_mp - 1) / sizeof_mp)).

Definition mpsearch : option Z :=
  let bda := P2V 0x400 in
  let p := Z.shiftl (Z.lor (Z.shiftl (mem (bda + 0x0f)) 8) (mem (bda + 0x0e))) 4 in
  let first :=
    (if truthy p then mpsearch1 p 1024
     else
       let p := Z.lor (Z.shiftl (mem (bda + 0x14)) 8) (mem (bda + 0x13)) * 1024 in
       mpsearch1 (u32 (p - 1024)) 1024) in
  match first with
  | Some mp => Some mp
  | None => mpsearch1 0xf0000 0x10000
  end.

(** The floating pointer and the table. *)
Definition mpconfig : option (Z * Z) :=
  match mpsearch with
  | None => None
  | Some mp =>
      if ld32 mem (mp + 4) =? 0 then None else
      let conf := P2V (ld32 mem (mp + 4)) in
      if negb (memcmp (at_ conf) (cstr [80; 67; 77; 80]) 4 =? 0) then None else
      let version := mem (conf + 6) in
      if negb (version =? 1) && negb (version =? 4) then None else
      if negb (sum conf (ld16 (conf + 4)) =? 0) then None else
      Some (mp, conf)
  end.

Section init.
Context {D : Type} {P : PortIO D}.

Definition add_cpu (id : Z) (s : mpst D) : mpst D :=
  if (length (apicids s) <? NCPU)%nat then mkMp (apicids s ++ [id]) (ioapicid s) (lapic s) (mp_dev s) else s.
Definition set_ioapic (id : Z) (s : mpst D) : mpst D := mkMp (apicids s) id (lapic s) (mp_dev s).
Definition set_lapic (a : Z) (s : mpst D) : mpst D := mkMp (apicids s) (ioapicid s) a (mp_dev s).

(** The loop over the entries.  The [break] of the last case leaves the switch,
    not the loop: [p] stays where it is. *)
Fixpoint mp_loop (p e : Z) (ismp : bool) (fuel : nat) : M (mpst D) bool :=
  match fuel with
  | O => λ _, Fuel
  | S fuel =>
      if negb (p <? e) then ret ismp else
      let type := mem p in
      if type =? MPPROC then
        do! modify (add_cpu (mem (p + 1))) in
        mp_loop (u32 (p + sizeof_mpproc)) e ismp fuel
      else if type =? MPIOAPIC then
        do! modify (set_ioapic (mem (p + 1))) in
        mp_loop (u32 (p + sizeof_mpioapic)) e ismp fuel
      else if (type =? MPBUS) || (type =? MPIOINTR) || (type =? MPLINTR) then
        mp_loop (u32 (p + 8)) e ismp fuel
      else mp_loop p e false fuel
  end.

(** Route interrupts through the APIC, where the machine has an IMCR. *)
Definition imcr (mp : Z) : M (mpst D) unit :=
  if truthy (mem (mp + 12)) then
    zoom mp_dev (λ d s, mkMp (apicids s) (ioapicid s) (lapic s) d)
      (do! outb 0x22 0x70 in
       let! x := inb 0x23 in
       outb 0x23 (Z.lor x 1))
  else ret tt.

Definition mpinit (fuel : nat) : M (mpst D) unit :=
  match mpconfig with
  | None => panic "Expect to run on an SMP"
  | Some (mp, conf) =>
      do! modify (set_lapic (ld32 mem (conf + 36))) in
      let! ismp := mp_loop (u32 (conf + sizeof_mpconf)) (u32 (conf + ld16 (conf + 4))) true fuel in
      if negb ismp then panic "Didn't find a suitable machine" else imcr mp
  end.
End init.
End code.

(** ** Tables *)

(** The entries of a table, with the bytes the code does not look at. *)
Inductive mpentry :=
| MProc (apicid : Z) (rest : bytes)
| MIoapic (apicno : Z) (rest : bytes)
| MOther (type : Z) (rest : bytes).

Definition entry_bytes (x : mpentry) : bytes :=
  match x with
  | MProc id rest => MPPROC :: id :: rest
  | MIoapic id rest => MPIOAPIC :: id :: rest
  | MOther type rest => type :: rest
  end.
Definition entry_wf (x : mpentry) : Prop :=
  match x with
  | MProc _ rest => length rest = 18%nat
  | MIoapic _ rest => length rest = 6%nat
  | MOther type rest => length rest = 7%nat ∧ (type = MPBUS ∨ type = MPIOINTR ∨ type = MPLINTR)
  end.

(** What the code makes of an entry. *)
Definition note {D} (s : mpst D) (x : mpentry) : mpst D :=
  match x with
  | MProc id _ => add_cpu id s
  | MIoapic id _ => set_ioapic id s
  | MOther _ _ => s
  end.

Definition holds_at (mem : Z → Z) (a : Z) (l : bytes) : Prop := ∀ i b, l !! i = Some b → mem (a + Z.of_nat i) = b.

Lemma holds_at_app mem a l k : holds_at mem a (l ++ k) → holds_at mem a l ∧ holds_at mem (a + length l) k.
Proof.
  intros H. split; intros i b Hi.
  - apply H. by apply lookup_app_l_Some.
  - rewrite <- Z.add_assoc, <- Nat2Z.inj_add. apply H. rewrite lookup_app_r by lia. rewrite <- Hi. f_equal. lia.
Qed.

Lemma entry_length x : entry_wf x → length (entry_bytes x) = match x with MProc _ _ => 20%nat | _ => 8%nat end.
Proof. destruct x; cbn; intros H; [by rewrite H|by rewrite H|]. destruct H as [-> _]. done. Qed.

(** The loop goes through the entries in order. *)
Lemma mp_loop_spec mem {D} {P : PortIO D} es : ∀ (s : mpst D) p fuel, Forall entry_wf es → holds_at mem p (concat (entry_bytes <$> es)) → 0 ≤ p →
  is_u32 (p + length (concat (entry_bytes <$> es))) → (length es < fuel)%nat →
  mp_loop mem p (p + length (concat (entry_bytes <$> es))) true fuel s = Ok true (foldl note s es).
Proof.
  induction es as [|x es IH]; intros s p fuel Hwf Hm Hp Hu Hf; (destruct fuel as [|fuel]; [cbn in Hf; lia|]); cbn [fmap list_fmap concat mp_loop foldl] in *.
  - rewrite (proj2 (Z.ltb_ge _ _)) by (cbn; lia). done.
  - inversion_clear Hwf as [|?? Hx Hes]. rewrite length_app in *. apply holds_at_app in Hm as [Hm1 Hm2]. pose proof (entry_length x Hx) as Hl.
    set (n := length (concat (entry_bytes <$> es))) in *. unfold is_u32 in Hu. rewrite (proj2 (Z.ltb_lt _ _)) by (destruct x; lia). cbn [negb].
    pose proof (Hm1 0%nat) as H0. pose proof (Hm1 1%nat) as H1. change (Z.of_nat 1) with 1 in H1. rewrite Z.add_0_r in H0. destruct x as [id rest|id rest|ty rest]; cbn [entry_bytes] in *.
    + rewrite (H0 _ eq_refl), (H1 _ eq_refl). cbn [Z.eqb MPPROC]. rewrite bind_modify, u32_small by (unfold is_u32, sizeof_mpproc in *; lia).
      rewrite Hl in *. replace (p + (20 + n)%nat) with (p + sizeof_mpproc + n) by (unfold sizeof_mpproc; lia).
      apply IH; [done|exact Hm2|unfold sizeof_mpproc; lia|unfold is_u32, sizeof_mpproc; lia|cbn in Hf; lia].
    + rewrite (H0 _ eq_refl), (H1 _ eq_refl). change (MPIOAPIC =? MPPROC) with false. cbn iota. rewrite Z.eqb_refl, bind_modify, u32_small by (unfold is_u32, sizeof_mpioapic in *; lia).
      rewrite Hl in *. replace (p + (8 + n)%nat) with (p + sizeof_mpioapic + n) by (unfold sizeof_mpioapic; lia).
      apply IH; [done|exact Hm2|unfold sizeof_mpioapic; lia|unfold is_u32, sizeof_mpioapic; lia|cbn in Hf; lia].
    + rewrite (H0 _ eq_refl). destruct Hx as [_ Hty].
      assert ((ty =? MPPROC) = false ∧ (ty =? MPIOAPIC) = false ∧ (ty =? MPBUS) || (ty =? MPIOINTR) || (ty =? MPLINTR) = true) as (-> & -> & ->)
        by (destruct Hty as [-> | [-> | ->]]; done).
      rewrite u32_small by (unfold is_u32 in *; lia). rewrite Hl in *. replace (p + (8 + n)%nat) with (p + 8 + n) by lia.
      apply IH; [done|exact Hm2|lia|unfold is_u32; lia|cbn in Hf; lia].
Qed.

(** *** What the entries say *)
Definition procs (es : list mpentry) : list Z := omap (λ x, match x with MProc id _ => Some id | _ => None end) es.
Definition last_ioapic (es : list mpentry) (z : Z) : Z := foldl (λ z x, match x with MIoapic id _ => id | _ => z end) z es.

Lemma foldl_note {D} es : ∀ s : mpst D, (length (apicids s) ≤ NCPU)%nat →
  foldl note s es = mkMp (take NCPU (apicids s ++ procs es)) (last_ioapic es (ioapicid s)) (lapic s) (mp_dev s).
Proof.
  induction es as [|x es IH]; intros s Hs; cbn [foldl].
  - rewrite app_nil_r, take_ge by done. by destruct s.
  - unfold last_ioapic. cbn [foldl]. destruct x as [id rest|id rest|ty rest]; cbn [note].
    + unfold add_cpu. destruct (Nat.ltb_spec (length (apicids s)) NCPU) as [Hlt|Hge].
      * rewrite IH by (cbn [apicids]; rewrite length_app; cbn [length]; lia). cbn [apicids ioapicid lapic mp_dev]. f_equal. by rewrite <- app_assoc.
      * rewrite IH by done. f_equal. rewrite !take_app_le by lia. done.
    + by rewrite IH.
    + by rewrite IH.
Qed.

(** *** The search *)
Definition is_mp (mem : Z → Z) (p : Z) : bool := (memcmp (at_ mem p) (cstr [95; 77; 80; 95]) 4 =? 0) && (sum mem p sizeof_mp =? 0).

(** The first structure of the area, if any. *)
Lemma mpsearch1_loop_spec mem (n : nat) : ∀ p, 0 ≤ p → p + 16 * n < 2 ^ 32 →
  match mpsearch1_loop mem p n with
  | Some q => ∃ k : nat, (k < n)%nat ∧ q = p + 16 * k ∧ is_mp mem q = true ∧ ∀ j : nat, (j < k)%nat → is_mp mem (p + 16 * j) = false
  | None => ∀ j : nat, (j < n)%nat → is_mp mem (p + 16 * j) = false
  end.
Proof.
  induction n as [|n IH]; intros p Hp Hu; cbn [mpsearch1_loop]; [intros j Hj; lia|]. fold (is_mp mem p). destruct (is_mp mem p) eqn:E.
  - exists 0%nat. rewrite Z.mul_0_r, Z.add_0_r. split; [lia|]. split; [done|]. split; [done|]. lia.
  - rewrite u32_small by (unfold is_u32, sizeof_mp; lia). specialize (IH (p + sizeof_mp) ltac:(unfold sizeof_mp; lia) ltac:(unfold sizeof_mp; lia)).
    assert (∀ j : nat, p + 16 * S j = p + sizeof_mp + 16 * j) as Es by (unfold sizeof_mp; lia).
    destruct (mpsearch1_loop _ _ _) as [q|].
    + destruct IH as (k & Hk & Hq & Hm & Hno). exists (S k). split; [lia|]. split; [rewrite Es; done|]. split; [done|]. intros [|j] Hj; [by rewrite Z.mul_0_r, Z.add_0_r|].
      rewrite Es. apply Hno. lia.
    + intros [|j] Hj; [by rewrite Z.mul_0_r, Z.add_0_r|]. rewrite Es. apply IH. lia.
Qed.

(** A table that the code accepts has the signature, a known version and the
    checksum zero, and the pointer to it is an MP structure. *)
Lemma mpconfig_checked mem mp conf : mpconfig mem = Some (mp, conf) →
  mpsearch mem = Some mp ∧ conf = P2V (ld32 mem (mp + 4)) ∧ memcmp (at_ mem conf) (cstr [80; 67; 77; 80]) 4 = 0 ∧
  (mem (conf + 6) = 1 ∨ mem (conf + 6) = 4) ∧ sum mem conf (ld16 mem (conf + 4)) = 0.
Proof.
  unfold mpconfig. destruct (mpsearch mem) as [q|]; [|done]. destruct (ld32 mem (q + 4) =? 0); [done|].
  destruct (Z.eqb_spec (memcmp (at_ mem (P2V (ld32 mem (q + 4)))) (cstr [80; 67; 77; 80]) 4) 0) as [E1|]; [|done]. cbn [negb].
  destruct (Z.eqb_spec (mem (P2V (ld32 mem (q + 4)) + 6)) 1) as [E2|E2], (Z.eqb_spec (mem (P2V (ld32 mem (q + 4)) + 6)) 4) as [E3|E3]; cbn [negb andb];
    try (destruct (Z.eqb_spec (sum mem (P2V (ld32 mem (q + 4))) (ld16 mem (P2V (ld32 mem (q + 4)) + 4))) 0) as [E4|]; cbn [negb]); try done; intros [= <- <-]; auto 8.
Qed.

(** C40: mpinit records the machine.  On a configuration table that passes the
    checks and has entries of the known types, mpinit ends, [cpus] has the APIC
    ids of the processor entries in order, at most NCPU of them, the I/O APIC is
    the last one listed and the local APIC the one of the header; what remains
    is the IMCR. *)
Theorem mpinit_correct mem {D} {P : PortIO D} (s : mpst D) mp conf es fuel :
  mpconfig mem = Some (mp, conf) → Forall entry_wf es → holds_at mem (conf + sizeof_mpconf) (concat (entry_bytes <$> es)) →
  ld16 mem (conf + 4) = sizeof_mpconf + length (concat (entry_bytes <$> es)) → is_u32 conf → is_u32 (conf + ld16 mem (conf + 4)) →
  apicids s = [] → (length es < fuel)%nat →
  mpinit mem fuel s = imcr mem mp (mkMp (take NCPU (procs es)) (last_ioapic es (ioapicid s)) (ld32 mem (conf + 36)) (mp_dev s)).
Proof.
  intros Hc Hwf Hm Hlen Hu1 Hu2 Ha Hf. unfold mpinit. rewrite Hc, bind_modify, Hlen. rewrite Hlen in Hu2. unfold is_u32, sizeof_mpconf in *. rewrite !u32_small by (unfold is_u32; lia).
  rewrite Z.add_assoc. erewrite bind_Ok by (apply (mp_loop_spec mem es); [exact Hwf|exact Hm|lia|unfold is_u32; lia|exact Hf]). cbn [negb].
  rewrite foldl_note by (cbn [set_lapic apicids]; rewrite Ha; cbn; lia). cbn [set_lapic apicids ioapicid lapic mp_dev]. by rewrite Ha.
Qed.

(** An entry of another type is never left: mpinit does not get to its message. *)
Lemma mpinit_unknown_entry mem {D} {P : PortIO D} p e b fuel : ∀ s : mpst D, p < e →
  mem p ≠ MPPROC → mem p ≠ MPIOAPIC → mem p ≠ MPBUS → mem p ≠ MPIOINTR → mem p ≠ MPLINTR → mp_loop mem p e b fuel s = Fuel.
Proof.
  revert b. induction fuel as [|fuel IH]; intros b s Hp H0 H1 H2 H3 H4; [done|]. cbn [mp_loop]. rewrite (proj2 (Z.ltb_lt _ _) Hp). cbn [negb].
  rewrite (proj2 (Z.eqb_neq _ _) H0), (proj2 (Z.eqb_neq _ _) H1), (proj2 (Z.eqb_neq _ _) H2), (proj2 (Z.eqb_neq _ _) H3), (proj2 (Z.eqb_neq _ _) H4). by apply IH.
Qed.

(** ** Two processors and an I/O APIC *)
Definition demo_entries : list mpentry := [MProc 0 (replicate 18 0); MProc 1 (replicate 18 0); MOther MPBUS (replicate 7 0); MIoapic 2 (replicate 6 0)].
(** The checksums 132 and 129 make the sums zero. *)
Definition demo_table : bytes := [80; 67; 77; 80; 100; 0; 4; 132] ++ replicate 28 0 ++ [0; 0; 224; 254] ++ replicate 4 0 ++ concat (entry_bytes <$> demo_entries).
Definition demo_mp : bytes := [95; 77; 80; 95; 0; 16; 15; 0; 1; 4; 129; 0; 0; 0; 0; 0].
Definition demo_mem (a : Z) : Z :=
  if (0x800f0000 <=? a) && (a <? 0x800f0010) then nth (Z.to_nat (a - 0x800f0000)) demo_mp 0
  else if (0x800f1000 <=? a) && (a <? 0x800f1064) then nth (Z.to_nat (a - 0x800f1000)) demo_table 0 else 0.

Lemma mpinit_correct_witness :
  mpinit (P := ata_port) demo_mem 5 (mkMp [] 0 0 (mkAta ∅ ∅ ANone 0 false 1)) = Ok tt (mkMp [0; 1] 2 0xfee00000 (mkAta ∅ ∅ ANone 0 false 1)).
Proof.
  etrans; [apply (mpinit_correct demo_mem (P := ata_port) _ 0x800f0000 0x800f1000 demo_entries 5)|].
  - vm_compute. reflexivity.
  - repeat constructor; reflexivity.
  - assert (Forall (λ i, demo_mem (0x800f1000 + sizeof_mpconf + Z.of_nat i) = nth i (concat (entry_bytes <$> demo_entries)) 0) (seq 0 56)) as H.
    { apply (bool_decide_unpack _). vm_compute. reflexivity. }
    intros i b Hi. pose proof (lookup_lt_Some _ _ _ Hi) as Hlt. change (length (concat (entry_bytes <$> demo_entries))) with 56%nat in Hlt.
    rewrite (proj1 (list.Forall_forall _ _) H i); [by apply nth_lookup_Some|]. apply elem_of_seq. lia.
  - vm_compute. reflexivity.
  - unfold is_u32. lia.
  - split; vm_compute; [discriminate|reflexivity].
  - reflexivity.
  - cbn. lia.
  - vm_compute. reflexivity.
Defined.
