(* ===== verification/Vm.v ===== *)
(** * Virtual memory: vm.c

    Two-level x86 page tables, kept in the pages kalloc hands out.  Every
    function works on the kernel memory [kmem] of Kalloc.v; [kend] and [kdata] are
    the linker symbols [end] and [data].  The console messages of the
    functions are not modelled.  The theorems read a page table through
    [translate], the hardware's two-level walk. *)
From S2P Require Import Prelude Str Kalloc.

Definition EXTMEM : Z := 0x100000.
Definition DEVSPACE : Z := 0xFE000000.
Definition KERNLINK : Z := KERNBASE + EXTMEM.
Definition NPDENTRIES : nat := 1024.
Definition PTE_P : Z := 1.
Definition PTE_W : Z := 2.
Definition PTE_U : Z := 4.

Definition PDX (va : Z) : Z := Z.land (Z.shiftr va 22) 0x3FF.
Definition PTX (va : Z) : Z := Z.land (Z.shiftr va 12) 0x3FF.
Definition PGADDR (d t o : Z) : Z := u32 (Z.lor (Z.lor (Z.shiftl d 22) (Z.shiftl t 12)) o).
Definition PTE_ADDR (pte : Z) : Z := Z.land pte (Z.lnot 0xFFF).
Definition PTE_FLAGS (pte : Z) : Z := Z.land pte 0xFFF.

Definition set_mem (m : mem) (s : kmem) : kmem := mkKmem m (km_use_lock s) (km_freelist s) (km_num s).
Definition load32 (a : Z) : M kmem Z := gets (λ s, ld32 (km_mem s) a).
Definition store32 (a v : Z) : M kmem unit := modify (λ s, set_mem (st32 (km_mem s) a v) s).
Definition on_mem (f : mem → mem) : M kmem unit := modify (λ s, set_mem (f (km_mem s)) s).

(** An entry of the table [kmap]. *)
Record kmap_entry := mkKmap { virt : Z; phys_start : Z; phys_end : Z; k_perm : Z }.

Section code.
Context (kend kdata : Z).

Definition walkpgdir (pgdir va : Z) (alloc : bool) : M kmem Z :=
  let pde := pgdir + 4 * PDX va in
  let! e := load32 pde in
  if truthy (Z.land e PTE_P) then
    ret (P2V (PTE_ADDR e) + 4 * PTX va)
  else
    if negb alloc then ret 0 else
    let! pgtab := kalloc in
    if pgtab =? 0 then ret 0 else
    do! on_mem (λ m, memset m pgtab 0 PGSIZE) in
    do! store32 pde (Z.lor (Z.lor (Z.lor (V2P pgtab) PTE_P) PTE_W) PTE_U) in
    ret (pgtab + 4 * PTX va).

Fixpoint mappages_loop (fuel : nat) (pgdir a last pa perm : Z) : M kmem Z :=
  match fuel with
  | O => λ _, Fuel
  | S fuel =>
      let! pte := walkpgdir pgdir a true in
      if pte =? 0 then ret (-1) else
      let! e := load32 pte in
      if truthy (Z.land e PTE_P) then panic "remap" else
      do! store32 pte (Z.lor (Z.lor pa perm) PTE_P) in
      if a =? last then ret 0 else
      mappages_loop fuel pgdir (u32 (a + PGSIZE)) last (u32 (pa + PGSIZE)) perm
  end.

(** The loop runs from [a] to [last], wrapping around at 2^32. *)
Definition mappages (pgdir va size pa perm : Z) : M kmem Z :=
  let a := PGROUNDDOWN va in
  let last := PGROUNDDOWN (u32 (va + size - 1)) in
  mappages_loop (S (Z.to_nat (u32 (last - a) / PGSIZE))) pgdir a last pa perm.

(** [a = PGROUNDUP(newsz); for(; a < oldsz; a += PGSIZE)] *)
Fixpoint dealloc_loop (fuel : nat) (pgdir a oldsz : Z) : M kmem unit :=
  match fuel with
  | O => λ _, Fuel
  | S fuel =>
      if a <? oldsz then
        let! pte := walkpgdir pgdir a false in
        if pte =? 0 then
          let a := u32 (PGADDR (PDX a + 1) 0 0 - PGSIZE) in
          dealloc_loop fuel pgdir (u32 (a + PGSIZE)) oldsz
        else
        let! e := load32 pte in
        do! (if truthy (Z.land e PTE_P) then
               let pa := PTE_ADDR e in
               if pa =? 0 then panic "kfree" else
               do! kfree kend (P2V pa) in
               store32 pte 0
             else ret tt) in
        dealloc_loop fuel pgdir (u32 (a + PGSIZE)) oldsz
      else ret tt
  end.

Definition deallocuvm (pgdir oldsz newsz : Z) : M kmem Z :=
  if oldsz <=? newsz then ret oldsz else
  do! dealloc_loop (S (Z.to_nat (oldsz / PGSIZE + 1))) pgdir (PGROUNDUP newsz) oldsz in
  ret newsz.

Definition freevm (pgdir : Z) : M kmem unit :=
  if pgdir =? 0 then panic "freevm: no pgdir" else
  do! deallocuvm pgdir KERNBASE 0 in
  do! for_each (seq 0 NPDENTRIES) (λ i,
        let! e := load32 (pgdir + 4 * i) in
        if truthy (Z.land e PTE_P) then kfree kend (P2V (PTE_ADDR e)) else ret tt) in
  kfree kend pgdir.

Definition kmap : list kmap_entry :=
  [mkKmap KERNBASE 0 EXTMEM PTE_W;
   mkKmap KERNLINK (V2P KERNLINK) (V2P kdata) 0;
   mkKmap kdata (V2P kdata) PHYSTOP PTE_W;
   mkKmap DEVSPACE DEVSPACE 0 PTE_W].

(** The loop over [kmap]; [false] after a failed mappages. *)
Fixpoint map_all (pgdir : Z) (l : list kmap_entry) : M kmem bool :=
  match l with
  | [] => ret true
  | k :: l =>
      let! r := mappages pgdir (virt k) (u32 (phys_end k - phys_start k)) (phys_start k) (k_perm k) in
      if r <? 0 then ret false else map_all pgdir l
  end.

Definition setupkvm : M kmem Z :=
  do! modify (λ s, mkKmem (km_mem s) (km_use_lock s) (km_freelist s) 0) in
  let! pgdir := kalloc in
  if pgdir =? 0 then ret 0 else
  do! on_mem (λ m, memset m pgdir 0 PGSIZE) in
  if DEVSPACE <? P2V PHYSTOP then panic "PHYSTOP too high" else
  let! ok := map_all pgdir kmap in
  if ok then ret pgdir else
  do! freevm pgdir in
  ret 0.

(** [init] is the address of the first program's image. *)
Definition inituvm (pgdir init sz : Z) : M kmem unit :=
  if PGSIZE <=? sz then panic "inituvm: more than a page" else
  let! mem := kalloc in
  do! on_mem (λ m, memset m mem 0 PGSIZE) in
  do! mappages pgdir 0 PGSIZE (V2P mem) (Z.lor PTE_W PTE_U) in
  on_mem (λ m, memmove m mem init sz).

(** [false]: out of memory (after the clean-up). *)
Fixpoint alloc_loop (fuel : nat) (pgdir a oldsz newsz : Z) : M kmem bool :=
  match fuel with
  | O => λ _, Fuel
  | S fuel =>
      if a <? newsz then
        let! mem := kalloc in
        if mem =? 0 then
          do! deallocuvm pgdir newsz oldsz in
          ret false
        else
        do! on_mem (λ m, memset m mem 0 PGSIZE) in
        let! r := mappages pgdir a PGSIZE (V2P mem) (Z.lor PTE_W PTE_U) in
        if r <? 0 then
          do! deallocuvm pgdir newsz oldsz in
          do! kfree kend mem in
          ret false
        else alloc_loop fuel pgdir (u32 (a + PGSIZE)) oldsz newsz
      else ret true
  end.

Definition allocuvm (pgdir oldsz newsz : Z) : M kmem Z :=
  if KERNBASE <=? newsz then ret 0 else
  if newsz <? oldsz then ret oldsz else
  let! ok := alloc_loop (S (Z.to_nat (newsz / PGSIZE + 1))) pgdir (PGROUNDUP oldsz) oldsz newsz in
  ret (if ok then newsz else 0).

Definition clearpteu (pgdir uva : Z) : M kmem unit :=
  let! pte := walkpgdir pgdir uva false in
  if pte =? 0 then panic "clearpteu" else
  let! e := load32 pte in
  store32 pte (Z.land e (Z.lnot PTE_U)).

(** [false]: the jump to [bad]. *)
Fixpoint copy_loop (fuel : nat) (pgdir d i sz : Z) : M kmem bool :=
  match fuel with
  | O => λ _, Fuel
  | S fuel =>
      if i <? sz then
        let! pte := walkpgdir pgdir i false in
        if pte =? 0 then panic "copyuvm: pte should exist" else
        let! e := load32 pte in
        if negb (truthy (Z.land e PTE_P)) then panic "copyuvm: page not present" else
        let pa := PTE_ADDR e in
        let flags := PTE_FLAGS e in
        let! mem := kalloc in
        if mem =? 0 then ret false else
        do! on_mem (λ m, memmove m mem (P2V pa) PGSIZE) in
        let! r := mappages d i PGSIZE (V2P mem) flags in
        if r <? 0 then
          do! kfree kend mem in
          ret false
        else copy_loop fuel pgdir d (u32 (i + PGSIZE)) sz
      else ret true
  end.

Definition copyuvm (pgdir sz : Z) : M kmem Z :=
  let! d := setupkvm in
  if d =? 0 then ret 0 else
  let! ok := copy_loop (S (Z.to_nat (sz / PGSIZE + 1))) pgdir d 0 sz in
  if ok then ret d else
  do! freevm d in
  ret 0.

(** The null pointer that walkpgdir may return is dereferenced like any
    other. *)
Definition uva2ka (pgdir uva : Z) : M kmem Z :=
  let! pte := walkpgdir pgdir uva false in
  let! e := load32 pte in
  if Z.land e PTE_P =? 0 then ret 0 else
  if Z.land e PTE_U =? 0 then ret 0 else
  ret (P2V (PTE_ADDR e)).

(** The bytes [l] stored from [a] on. *)
Fixpoint mem_put (m : mem) (a : Z) (l : bytes) : mem :=
  match l with
  | [] => m
  | b :: l => mem_put (st8 m a b) (a + 1) l
  end.

(** The source of copyout is in another address space or on the kernel stack,
    never in the page written to: it is given by its bytes. *)
Fixpoint copyout_loop (fuel : nat) (pgdir va : Z) (buf : bytes) : M kmem Z :=
  match fuel with
  | O => λ _, Fuel
  | S fuel =>
      let len := Z.of_nat (length buf) in
      if 0 <? len then
        let va0 := PGROUNDDOWN va in
        let! pa0 := uva2ka pgdir va0 in
        if pa0 =? 0 then ret (-1) else
        let n := u32 (PGSIZE - (va - va0)) in
        let n := if len <? n then len else n in
        do! on_mem (λ m, mem_put m (pa0 + (va - va0)) (take (Z.to_nat n) buf)) in
        copyout_loop fuel pgdir (u32 (va0 + PGSIZE)) (drop (Z.to_nat n) buf)
      else ret 0
  end.

Definition copyout (pgdir va : Z) (p : bytes) : M kmem Z :=
  copyout_loop (Z.to_nat (length p / PGSIZE) + 3) pgdir va p.
End code.

(** ** Page-table arithmetic *)

Lemma PDX_div va : PDX va = (va / 2 ^ 22) `mod` 1024.
Proof. unfold PDX. rewrite Z.shiftr_div_pow2 by lia. change 0x3FF with (Z.ones 10). by rewrite Z.land_ones. Qed.
Lemma PTX_div va : PTX va = (va / 2 ^ 12) `mod` 1024.
Proof. unfold PTX. rewrite Z.shiftr_div_pow2 by lia. change 0x3FF with (Z.ones 10). by rewrite Z.land_ones. Qed.
Lemma PDX_range va : 0 ≤ PDX va < 1024.
Proof. rewrite PDX_div. by apply Z.mod_pos_bound. Qed.
Lemma PTX_range va : 0 ≤ PTX va < 1024.
Proof. rewrite PTX_div. by apply Z.mod_pos_bound. Qed.
#[export] Hint Resolve PDX_range PTX_range : kernel.

(** Two addresses have the same entry exactly when they are in one page. *)
Lemma same_entry va va' :
  is_u32 va → is_u32 va' → PDX va = PDX va' → PTX va = PTX va' → PGROUNDDOWN va = PGROUNDDOWN va'.
Proof.
  unfold is_u32. rewrite !PDX_div, !PTX_div, !PGROUNDDOWN_spec. unfold PGSIZE.
  intros H H' E1 E2. Z.div_mod_to_equations. lia.
Qed.

Lemma entry_of_page va : PDX (PGROUNDDOWN va) = PDX va ∧ PTX (PGROUNDDOWN va) = PTX va.
Proof.
  rewrite !PDX_div, !PTX_div, !PGROUNDDOWN_spec. unfold PGSIZE. split; Z.div_mod_to_equations; lia.
Qed.

Lemma lor_aligned v f : v `mod` PGSIZE = 0 → 0 ≤ f < PGSIZE → Z.lor v f = v + f.
Proof.
  unfold PGSIZE. intros Hv Hf.
  assert (Z.land v f = 0) as H0.
  { apply Z.bits_inj'. intros n Hn. rewrite Z.land_spec, Z.bits_0. destruct (decide (n < 12)).
    - apply andb_false_intro1. rewrite <- (Z.mod_pow2_bits_low v 12 n) by lia.
      change (2 ^ 12) with 4096. by rewrite Hv, Z.bits_0.
    - apply andb_false_intro2. rewrite <- (Z.mod_small f (2 ^ 12)) by lia. apply Z.mod_pow2_bits_high. lia. }
  pose proof (Z.add_lor_land v f). lia.
Qed.

Lemma PTE_ADDR_spec e : PTE_ADDR e = e - e `mod` PGSIZE.
Proof. apply PGROUNDDOWN_spec. Qed.

Lemma PTE_ADDR_lor v f : v `mod` PGSIZE = 0 → 0 ≤ f < PGSIZE → PTE_ADDR (Z.lor v f) = v.
Proof.
  intros Hv Hf. rewrite lor_aligned, PTE_ADDR_spec by done.
  rewrite <- Zplus_mod_idemp_l, Hv, Z.add_0_l, Z.mod_small by done. lia.
Qed.

Lemma present_lor x f : Z.testbit f 0 = true → truthy (Z.land (Z.lor x f) PTE_P) = true.
Proof.
  intros Hf. rewrite Z.land_lor_distr_l. apply truthy_true. intros H%(f_equal (λ z, Z.testbit z 0)).
  rewrite Z.lor_spec, !Z.land_spec, Z.bits_0, Hf in H. cbn in H. by rewrite orb_true_r in H.
Qed.

Lemma is_u32_lor a b : is_u32 a → is_u32 b → is_u32 (Z.lor a b).
Proof.
  unfold is_u32. intros Ha Hb. split; [apply Z.lor_nonneg; lia|].
  destruct (decide (Z.lor a b = 0)) as [->|Hne]; [lia|]. apply Z.log2_lt_pow2.
  - assert (0 ≤ Z.lor a b) by (apply Z.lor_nonneg; lia). lia.
  - rewrite Z.log2_lor by lia. apply Z.max_lub_lt.
    + destruct (decide (a = 0)) as [->|]; [done|]. apply Z.log2_lt_pow2; lia.
    + destruct (decide (b = 0)) as [->|]; [done|]. apply Z.log2_lt_pow2; lia.
Qed.

Section pages.
Context (kend : Z).

Lemma page_ok_range t : page_ok kend t → KERNBASE ≤ t < KERNBASE + PHYSTOP ∧ V2P t = t - KERNBASE.
Proof.
  intros (_ & _ & Hu & Hp). unfold V2P, u32, is_u32, KERNBASE, PHYSTOP in *. 
  destruct (decide (0x80000000 ≤ t)).
  - rewrite Z.mod_small in * by lia. lia.
  - rewrite <- (Z.mod_unique_pos (t - 0x80000000) (2 ^ 32) (-1) (t - 0x80000000 + 2 ^ 32)) in Hp by lia. lia.
Qed.

Lemma P2V_V2P t : page_ok kend t → P2V (V2P t) = t.
Proof.
  intros Ht. destruct (page_ok_range t Ht) as [? ->]. unfold P2V. rewrite Z.sub_add. apply u32_small, Ht.
Qed.

Lemma V2P_aligned t : page_ok kend t → V2P t `mod` PGSIZE = 0 ∧ is_u32 (V2P t).
Proof.
  intros Ht. destruct (page_ok_range t Ht) as [? ->]. destruct Ht as [Ht _].
  unfold KERNBASE, PHYSTOP, PGSIZE, is_u32 in *. split; [|lia]. Z.div_mod_to_equations. lia.
Qed.

(** A word of one page and a write in another. *)
Lemma ld32_other_page m m' t v k :
  t `mod` PGSIZE = 0 → v `mod` PGSIZE = 0 → t ≠ v → 0 ≤ k < 1024 →
  (∀ x, x < v ∨ v + PGSIZE ≤ x → m' x = m x) → ld32 m' (t + 4 * k) = ld32 m (t + 4 * k).
Proof.
  intros Ht Hv Hne Hk Hm. apply ld32_ext. intros x Hx. apply Hm.
  destruct (pages_apart t v Ht Hv Hne); unfold PGSIZE in *; lia.
Qed.

Lemma ld32_st32_ne m a v x : x + 4 ≤ a ∨ a + 4 ≤ x → ld32 (st32 m a v) x = ld32 m x.
Proof. intros H. apply ld32_ext. intros y Hy. apply st32_out. lia. Qed.

Lemma st32_in_page m t k v : 0 ≤ k < 1024 →
  ∀ x, x < t ∨ t + PGSIZE ≤ x → st32 m (t + 4 * k) v x = m x.
Proof. intros Hk x Hx. apply st32_out. unfold PGSIZE in *. lia. Qed.

Lemma memset_in_page m t c :
  ∀ x, x < t ∨ t + PGSIZE ≤ x → memset m t c PGSIZE x = m x.
Proof.
  intros x Hx. rewrite memset_correct by done.
  replace ((t <=? x) && (x <? t + PGSIZE)) with false; [done|]. zcases; (done || lia).
Qed.

Lemma ld32_zeroed m t k : 0 ≤ k < 1024 → ld32 (memset m t 0 PGSIZE) (t + 4 * k) = 0.
Proof.
  intros Hk. unfold ld32. rewrite !memset_correct by done. unfold PGSIZE. by zcases; try lia.
Qed.
End pages.

(** ** The hardware's view *)

Section view.
Context (kend : Z).
Hypothesis Hend : 0 < kend.
Implicit Types (m : mem) (pgdir va d : Z).

(** The page table entry [d] of the directory points to. *)
Definition table m pgdir d : option Z :=
  let e := ld32 m (pgdir + 4 * d) in
  if truthy (Z.land e PTE_P) then Some (P2V (PTE_ADDR e)) else None.

(** The page-table entry of [va], if the page is present. *)
Definition translate m pgdir va : option Z :=
  match table m pgdir (PDX va) with
  | None => None
  | Some t =>
      let e := ld32 m (t + 4 * PTX va) in
      if truthy (Z.land e PTE_P) then Some e else None
  end.

(** The directory's page and its tables are distinct pages. *)
Record pt_wf m pgdir : Prop := {
  wf_dir : page_ok kend pgdir;
  wf_tab d t : 0 ≤ d < 1024 → table m pgdir d = Some t → page_ok kend t ∧ t ≠ pgdir;
  wf_inj d d' t : 0 ≤ d < 1024 → 0 ≤ d' < 1024 →
    table m pgdir d = Some t → table m pgdir d' = Some t → d = d' }.

(** [v] is not a page of the page table. *)
Definition pt_apart m pgdir v : Prop :=
  v ≠ pgdir ∧ ∀ d, 0 ≤ d < 1024 → table m pgdir d ≠ Some v.

Lemma table_ext m m' pgdir d :
  pgdir `mod` PGSIZE = 0 → 0 ≤ d < 1024 →
  (∀ x, pgdir ≤ x < pgdir + PGSIZE → m' x = m x) → table m' pgdir d = table m pgdir d.
Proof.
  intros Hp Hd Hm. unfold table. rewrite (ld32_ext m m'); [done|]. intros x Hx. apply Hm. unfold PGSIZE. lia.
Qed.

(** Writes that leave the directory and its tables alone. *)
Lemma translate_ext m m' pgdir va :
  pgdir `mod` PGSIZE = 0 → (∀ x, pgdir ≤ x < pgdir + PGSIZE → m' x = m x) →
  (∀ t, table m pgdir (PDX va) = Some t → ∀ x, t ≤ x < t + PGSIZE → m' x = m x) →
  translate m' pgdir va = translate m pgdir va.
Proof.
  intros Hp Hm Ht. unfold translate. rewrite (table_ext m m') by (done || apply PDX_range).
  destruct (table m pgdir (PDX va)) as [t|]; [|done]. rewrite (ld32_ext m m'); [done|].
  intros x Hx. apply (Ht t eq_refl). pose proof (PTX_range va). unfold PGSIZE. lia.
Qed.

(** *** Storing into an entry of a table *)

Section set_entry.
Context (m : mem) (pgdir va e t : Z).
Hypothesis Hwf : pt_wf m pgdir.
Hypothesis Ht : table m pgdir (PDX va) = Some t.

Let m' := st32 m (t + 4 * PTX va) e.

Lemma set_entry_out x : x < t ∨ t + PGSIZE ≤ x → m' x = m x.
Proof. apply st32_in_page, PTX_range. Qed.

Lemma set_entry_pages : page_ok kend t ∧ t ≠ pgdir ∧ t `mod` PGSIZE = 0 ∧ pgdir `mod` PGSIZE = 0.
Proof.
  destruct (wf_tab _ _ Hwf (PDX va) t (PDX_range va) Ht) as [Hok Hne].
  split_and!; [apply Hok..|done|apply Hok|apply (wf_dir _ _ Hwf)].
Qed.

Lemma set_entry_table d : 0 ≤ d < 1024 → table m' pgdir d = table m pgdir d.
Proof.
  destruct set_entry_pages as (_ & Hne & Ht0 & Hp0). intros Hd. apply table_ext; [done..|].
  intros x Hx. apply set_entry_out. destruct (pages_apart pgdir t Hp0 Ht0); [done|lia..].
Qed.

Lemma set_entry_wf : pt_wf m' pgdir.
Proof.
  split; [apply (wf_dir _ _ Hwf)| |].
  - intros d t' Hd. rewrite set_entry_table by done. by apply wf_tab.
  - intros d d' t' Hd Hd'. rewrite !set_entry_table by done. by apply wf_inj.
Qed.

Lemma set_entry_apart v : pt_apart m pgdir v → pt_apart m' pgdir v.
Proof. intros [? Hv]. split; [done|]. intros d Hd. rewrite set_entry_table by done. by apply Hv. Qed.

Lemma set_entry_same va' :
  is_u32 e → PDX va' = PDX va → PTX va' = PTX va →
  translate m' pgdir va' = if truthy (Z.land e PTE_P) then Some e else None.
Proof.
  intros He E1 E2. unfold translate. rewrite set_entry_table by apply PDX_range.
  rewrite E1, E2, Ht. unfold m'. by rewrite ld32_st32.
Qed.

Lemma set_entry_other va' :
  ¬ (PDX va' = PDX va ∧ PTX va' = PTX va) → translate m' pgdir va' = translate m pgdir va'.
Proof.
  intros Hne. unfold translate. rewrite set_entry_table by apply PDX_range.
  destruct (table m pgdir (PDX va')) as [t'|] eqn:Et; [|done].
  pose proof (PTX_range va) as H1. pose proof (PTX_range va') as H2.
  assert (ld32 m' (t' + 4 * PTX va') = ld32 m (t' + 4 * PTX va')) as ->; [|done].
  destruct (decide (PDX va' = PDX va)) as [E|E].
  - rewrite E, Ht in Et. simplify_eq. apply ld32_st32_ne.
    assert (PTX va' ≠ PTX va) by naive_solver. lia.
  - destruct set_entry_pages as (_ & _ & Ht0 & _).
    assert (t' ≠ t) as Hne' by (intros ->; apply E; eapply wf_inj; eauto with kernel).
    destruct (wf_tab _ _ Hwf _ _ (PDX_range va') Et) as [[Ht0' _] _].
    apply (ld32_other_page m m' t' t); [done..|apply set_entry_out].
Qed.
End set_entry.

(** *** Adding a table *)

Section new_table.
Context (m : mem) (pgdir t D : Z).
Hypothesis Hwf : pt_wf m pgdir.
Hypothesis HD : 0 ≤ D < 1024.
Hypothesis Hnone : table m pgdir D = None.
Hypothesis Htok : page_ok kend t.
Hypothesis Hap : pt_apart m pgdir t.

Let pde := Z.lor (Z.lor (Z.lor (V2P t) PTE_P) PTE_W) PTE_U.
Let m' := st32 (memset m t 0 PGSIZE) (pgdir + 4 * D) pde.

Lemma new_pde : is_u32 pde ∧ truthy (Z.land pde PTE_P) = true ∧ P2V (PTE_ADDR pde) = t.
Proof.
  destruct (V2P_aligned kend t Htok) as [Ha Hu]. unfold pde. rewrite <- !Z.lor_assoc.
  change (Z.lor PTE_P (Z.lor PTE_W PTE_U)) with 7. split_and!.
  - by apply is_u32_lor.
  - by apply present_lor.
  - rewrite PTE_ADDR_lor by done. by apply (P2V_V2P kend).
Qed.

(** Outside the new table, only the entry [D] of the directory changes. *)
Lemma new_table_out x : x < t ∨ t + PGSIZE ≤ x → x < pgdir + 4 * D ∨ pgdir + 4 * D + 4 ≤ x → m' x = m x.
Proof. intros Hx Hx'. unfold m'. rewrite st32_out by lia. by apply memset_in_page. Qed.

Lemma new_table_out_page x : x < t ∨ t + PGSIZE ≤ x → x < pgdir ∨ pgdir + PGSIZE ≤ x → m' x = m x.
Proof. intros Hx Hx'. apply new_table_out; [done|]. unfold PGSIZE in *. lia. Qed.

Lemma new_table_dir : t `mod` PGSIZE = 0 ∧ pgdir `mod` PGSIZE = 0 ∧ t ≠ pgdir.
Proof. split_and!; [apply Htok|apply (wf_dir _ _ Hwf)|apply Hap]. Qed.

Lemma new_table_table d : 0 ≤ d < 1024 →
  table m' pgdir d = if d =? D then Some t else table m pgdir d.
Proof.
  intros Hd. destruct new_pde as (Hu & HP & HA). destruct new_table_dir as (Ht & Hp & Hne). unfold table.
  destruct (Z.eqb_spec d D) as [->|HdD].
  - unfold m'. rewrite ld32_st32 by done. by rewrite HP, HA.
  - assert (ld32 m' (pgdir + 4 * d) = ld32 m (pgdir + 4 * d)) as ->; [|done].
    unfold m'. rewrite ld32_st32_ne by lia.
    apply (ld32_other_page m _ pgdir t); [done..|apply memset_in_page].
Qed.

Lemma new_table_wf : pt_wf m' pgdir.
Proof.
  destruct new_table_dir as (_ & _ & Hne). split; [apply (wf_dir _ _ Hwf)| |].
  - intros d t' Hd. rewrite new_table_table by done. destruct (d =? D); [naive_solver|by apply wf_tab].
  - intros d d' t' Hd Hd'. rewrite !new_table_table by done. destruct Hap as [_ Hap'].
    destruct (Z.eqb_spec d D), (Z.eqb_spec d' D); intros E1 E2; simplify_eq; try done.
    + by destruct (Hap' d' Hd').
    + by destruct (Hap' d Hd).
    + by eapply wf_inj.
Qed.

Lemma new_table_apart v : v ≠ t → pt_apart m pgdir v → pt_apart m' pgdir v.
Proof.
  intros Hv [? Hd]. split; [done|]. intros d Hd'. rewrite new_table_table by done.
  destruct (d =? D); [congruence|by apply Hd].
Qed.

Lemma new_table_translate va : translate m' pgdir va = translate m pgdir va.
Proof.
  destruct new_table_dir as (Ht & Hp & Hne). unfold translate. rewrite new_table_table by apply PDX_range.
  pose proof (PTX_range va) as Hx. destruct (Z.eqb_spec (PDX va) D) as [E|E].
  - rewrite E, Hnone. assert (ld32 m' (t + 4 * PTX va) = 0) as ->; [|done].
    unfold m'. rewrite (ld32_other_page (memset m t 0 PGSIZE) _ t pgdir); [by apply ld32_zeroed|done..|].
    by apply st32_in_page.
  - destruct (table m pgdir (PDX va)) as [t'|] eqn:Et; [|done].
    destruct (wf_tab _ _ Hwf _ _ (PDX_range va) Et) as [[Ht' _] Hne'].
    assert (t' ≠ t) by (intros ->; by destruct Hap as [_ H]; destruct (H _ (PDX_range va))).
    assert (ld32 m' (t' + 4 * PTX va) = ld32 m (t' + 4 * PTX va)) as ->; [|done].
    unfold m'. rewrite (ld32_other_page (memset m t 0 PGSIZE) _ t' pgdir); [|done..|by apply st32_in_page].
    apply (ld32_other_page m _ t' t); [done..|apply memset_in_page].
Qed.
End new_table.
End view.

(** ** walkpgdir and mappages *)

Section mapping.
Context (kend : Z).
Hypothesis Hend : 0 < kend.
Implicit Types (s : kmem) (l : list Z) (pgdir va pa perm : Z).

(** The free list and a page table next to each other. *)
Record vm_inv s l pgdir : Prop := {
  vi_free : free_pages kend s l;
  vi_wf : pt_wf kend (km_mem s) pgdir;
  vi_apart v : v ∈ l → pt_apart (km_mem s) pgdir v }.

(** The byte at [x] is in no free page and not in the page table. *)
Definition elsewhere (m : mem) pgdir l (x : Z) : Prop :=
  ∀ v, (v ∈ l ∨ ¬ pt_apart m pgdir v) → x < v ∨ v + PGSIZE ≤ x.

(** What both functions keep: the invariant, and all memory elsewhere. *)
Definition vm_keeps pgdir s l s' l' : Prop :=
  vm_inv s' l' pgdir ∧ l' `suffix_of` l ∧
  ∀ x, elsewhere (km_mem s) pgdir l x → elsewhere (km_mem s') pgdir l' x ∧ km_mem s' x = km_mem s x.

Lemma vm_keeps_refl pgdir s l : vm_inv s l pgdir → vm_keeps pgdir s l s l.
Proof. done. Qed.
Lemma vm_keeps_trans pgdir s1 l1 s2 l2 s3 l3 :
  vm_keeps pgdir s1 l1 s2 l2 → vm_keeps pgdir s2 l2 s3 l3 → vm_keeps pgdir s1 l1 s3 l3.
Proof.
  intros (_ & Hl1 & H1) (Hi & Hl2 & H2). split; [done|]. split; [by etrans|].
  intros x [Hx E]%H1. apply H2 in Hx as [? ?]. split; [done|congruence].
Qed.

Lemma free_pages_set_mem s l m' :
  free_pages kend s l → (∀ v, v ∈ l → ∀ x, v ≤ x < v + 4 → m' x = km_mem s x) →
  free_pages kend (set_mem m' s) l.
Proof. intros (Hfl & Hnd & Hok) Hm. split_and!; [|done..]. cbn. by eapply fl_ext. Qed.

Lemma free_page_apart s l v w : free_pages kend s l → v ∈ l → w `mod` PGSIZE = 0 → v ≠ w →
  v + PGSIZE ≤ w ∨ w + PGSIZE ≤ v.
Proof.
  intros (_ & _ & Hok) Hv Hw Hne. apply pages_apart; [|done..].
  rewrite Forall_forall in Hok. apply (Hok v). by apply list_elem_of_In.
Qed.

(** Storing an entry of an existing table. *)
Lemma store_entry_keeps s l pgdir va t e :
  vm_inv s l pgdir → table (km_mem s) pgdir (PDX va) = Some t →
  vm_keeps pgdir s l (set_mem (st32 (km_mem s) (t + 4 * PTX va) e) s) l.
Proof.
  intros [Hf Hwf Hap] Ht. destruct (set_entry_pages kend _ _ _ _ Hwf Ht) as (Hok & Hne & Ht0 & Hp0).
  split; [split|split; [done|]]; cbn.
  - apply free_pages_set_mem; [done|]. intros v Hv x Hx. apply (set_entry_out (km_mem s) va).
    assert (v ≠ t) as Hvt by (intros ->; by destruct (Hap t Hv) as [_ H]; destruct (H _ (PDX_range va))).
    destruct (free_page_apart s l v t Hf Hv Ht0 Hvt); unfold PGSIZE in *; lia.
  - by eapply set_entry_wf.
  - intros v Hv. by eapply set_entry_apart, Hap.
  - intros x Hx. split.
    + intros v [Hv|Hv]; apply Hx; [by left|right]. intros Ha. by eapply Hv, set_entry_apart.
    + apply set_entry_out, Hx. right. intros [_ H]. by destruct (H _ (PDX_range va)).
Qed.

(** A free page becomes a table of the directory. *)
Lemma new_table_keeps s l pgdir D t s1 :
  vm_inv s (t :: l) pgdir → 0 ≤ D < 1024 → table (km_mem s) pgdir D = None →
  free_pages kend s1 l → km_mem s1 = km_mem s →
  vm_keeps pgdir s (t :: l)
    (set_mem (st32 (memset (km_mem s1) t 0 PGSIZE) (pgdir + 4 * D)
               (Z.lor (Z.lor (Z.lor (V2P t) PTE_P) PTE_W) PTE_U)) s1) l.
Proof.
  intros [Hf Hwf Hap] HD Hn Hf1 Em. pose proof Hf as (_ & Hnd & Hok). apply list.NoDup_cons in Hnd as [Hnot _].
  inversion_clear Hok as [|? ? Htok _]. pose proof (Hap t (list_elem_of_here _ _)) as Hapt. rewrite Em.
  assert (∀ v, v ∈ l → v ≠ t) as Hvt by (intros v Hv ->; done).
  split; [split|split; [by exists [t]|]]; cbn.
  - apply free_pages_set_mem; [done|]. intros v Hv x Hx. rewrite Em. apply new_table_out_page; [done|..].
    + destruct (free_page_apart s1 l v t Hf1 Hv); [apply Htok|auto|unfold PGSIZE in *; lia..].
    + destruct (Hap v (list_elem_of_further _ _ _ Hv)) as [Hvp _].
      destruct (free_page_apart s1 l v pgdir Hf1 Hv); [apply (wf_dir _ _ _ Hwf)|done|unfold PGSIZE in *; lia..].
  - by apply new_table_wf.
  - intros v Hv. apply new_table_apart with kend; [done..|auto|]. apply Hap. by apply list_elem_of_further.
  - intros x Hx. assert (x < t ∨ t + PGSIZE ≤ x) as Hxt by (apply Hx; left; apply list_elem_of_here). split.
    + intros v Hv. destruct (decide (v = t)) as [->|Hne]; [done|]. apply Hx.
      destruct Hv as [Hv|Hv]; [left; by apply list_elem_of_further|right]. intros Ha.
      by eapply Hv, new_table_apart.
    + apply new_table_out_page; [done..|]. apply Hx. right. by intros [? _].
Qed.

Lemma table_some m pgdir d t :
  table m pgdir d = Some t →
  truthy (Z.land (ld32 m (pgdir + 4 * d)) PTE_P) = true ∧ P2V (PTE_ADDR (ld32 m (pgdir + 4 * d))) = t.
Proof. unfold table. case_match; naive_solver. Qed.
Lemma table_none m pgdir d :
  table m pgdir d = None → truthy (Z.land (ld32 m (pgdir + 4 * d)) PTE_P) = false.
Proof. unfold table. by case_match. Qed.

(** walkpgdir with [alloc] set: the address of the entry, in a table that
    exists now; 0 only when no page is left. *)
Lemma walkpgdir_alloc s l pgdir va :
  vm_inv s l pgdir →
  ∃ r s' l', walkpgdir pgdir va true s = Ok r s' ∧ vm_keeps pgdir s l s' l' ∧
    (∀ va', translate (km_mem s') pgdir va' = translate (km_mem s) pgdir va') ∧
    ((r = 0 ∧ l' = []) ∨
     ∃ t, table (km_mem s') pgdir (PDX va) = Some t ∧ r = t + 4 * PTX va ∧ r ≠ 0).
Proof.
  intros Hi. pose proof Hi as [Hf Hwf Hap]. unfold walkpgdir, load32. rewrite bind_gets.
  pose proof (PDX_range va) as HD. pose proof (PTX_range va) as HX.
  assert (∀ t, page_ok kend t → t + 4 * PTX va ≠ 0) as Hnz.
  { intros t (_ & ? & _). lia. }
  destruct (table (km_mem s) pgdir (PDX va)) as [t|] eqn:Et.
  - destruct (table_some _ _ _ _ Et) as [-> ->]. eexists _, s, l. split; [done|]. split; [by apply vm_keeps_refl|].
    split; [done|]. right. exists t. split_and!; [done..|]. apply Hnz, (wf_tab _ _ _ Hwf _ _ HD Et).
  - rewrite (table_none _ _ _ Et). cbn [negb]. pose proof (kalloc_spec kend Hend s l Hf) as Hk. destruct l as [|t l].
    + rewrite (bind_Ok _ _ _ _ _ Hk). cbn. destruct Hf as (Hfl & _). cbn in Hfl.
      eexists 0, _, []. split; [done|]. split_and!; [|done|by left]. split; [|done].
      split; [split_and!; [done|apply NoDup_nil_2|done]|done|done].
    + destruct Hk as (s1 & R1 & Hf1 & Em). rewrite (bind_Ok _ _ _ _ _ R1).
      assert (page_ok kend t) as Htok by (destruct Hf as (_ & _ & Hok); by inversion_clear Hok).
      destruct (Z.eqb_spec t 0) as [->|_]; [destruct Htok as (_ & ? & _); lia|].
      pose proof (Hap t (list_elem_of_here _ _)) as Hapt.
      eexists _, _, l. split; [done|]. split_and!.
      * exact (new_table_keeps s l pgdir (PDX va) t s1 Hi HD Et Hf1 Em).
      * intros va'. cbn [km_mem set_mem]. rewrite Em. exact (new_table_translate kend _ _ _ _ Hwf HD Et Htok Hapt va').
      * right. exists t. split_and!; [|done|by apply Hnz]. cbn. rewrite Em, (new_table_table kend) by done.
        by rewrite Z.eqb_refl.
Qed.

(** Whether the entry walkpgdir found is in use. *)
Lemma entry_present m pgdir va t :
  table m pgdir (PDX va) = Some t → translate m pgdir va = None →
  truthy (Z.land (ld32 m (t + 4 * PTX va)) PTE_P) = false.
Proof. unfold translate. intros ->. by case_match. Qed.

Lemma mappages_loop_ok fuel : ∀ (k : nat) s l pgdir a pa perm,
  vm_inv s l pgdir → (k < fuel)%nat →
  a `mod` PGSIZE = 0 → 0 ≤ a → a + (k + 1) * PGSIZE ≤ 2 ^ 32 →
  pa `mod` PGSIZE = 0 → 0 ≤ pa → pa + k * PGSIZE < 2 ^ 32 → 0 ≤ perm < PGSIZE →
  (∀ va, a ≤ va < a + (k + 1) * PGSIZE → translate (km_mem s) pgdir va = None) →
  ∃ r s' l', mappages_loop fuel pgdir a (a + k * PGSIZE) pa perm s = Ok r s' ∧ vm_keeps pgdir s l s' l' ∧
    (∀ va, is_u32 va → va < a ∨ a + (k + 1) * PGSIZE ≤ va →
       translate (km_mem s') pgdir va = translate (km_mem s) pgdir va) ∧
    ((r = -1 ∧ l' = []) ∨
     (r = 0 ∧ ∀ va, a ≤ va < a + (k + 1) * PGSIZE →
       translate (km_mem s') pgdir va = Some (Z.lor (Z.lor (pa + (PGROUNDDOWN va - a)) perm) PTE_P))).
Proof.
  induction fuel as [|fuel IH]; intros k s l pgdir a pa perm Hi Hk Ha Ha0 Ha1 Hpa Hpa0 Hpa1 Hperm Hnone; [lia|].
  simpl. unfold PGSIZE in Ha1, Hpa1, Hnone |- *.
  destruct (walkpgdir_alloc s l pgdir a Hi) as (r & s1 & l1 & R1 & K1 & T1 & Hr).
  rewrite (bind_Ok _ _ _ _ _ R1). destruct Hr as [[-> ->]|(t & Ht & -> & Hnz)].
  { exists (-1), s1, []. split; [done|]. split; [done|]. split; [by intros; apply T1|by left]. }
  destruct (Z.eqb_spec (t + 4 * PTX a) 0) as [?|_]; [done|]. unfold load32. rewrite bind_gets.
  rewrite (entry_present _ _ a) by (done || (rewrite T1; apply Hnone; lia)).
  set (e := Z.lor (Z.lor pa perm) PTE_P). unfold store32. rewrite bind_modify.
  assert (is_u32 e) as He by (unfold e, PGSIZE in *; repeat apply is_u32_lor; unfold is_u32, PTE_P; lia).
  pose proof K1 as (Hi1 & _ & _). pose proof (vi_wf _ _ _ Hi1) as Hwf1.
  pose proof (store_entry_keeps s1 l1 pgdir a t e Hi1 Ht) as K2. set (s2 := set_mem _ s1) in *.
  assert (∀ va, is_u32 va → va < a ∨ a + 4096 ≤ va →
    translate (km_mem s2) pgdir va = translate (km_mem s) pgdir va) as T2.
  { intros va Hva Hout. rewrite <- T1. apply (set_entry_other kend (km_mem s1) pgdir a e t Hwf1 Ht). intros [E1 E2].
    assert (PGROUNDDOWN va = PGROUNDDOWN a) as E3 by (apply same_entry; [done|unfold is_u32; lia|done..]).
    rewrite !PGROUNDDOWN_spec, Ha in E3. unfold PGSIZE in E3. pose proof (Z.mod_pos_bound va 4096). lia. }
  assert (∀ va, a ≤ va < a + 4096 → translate (km_mem s2) pgdir va = Some e ∧ PGROUNDDOWN va = a) as T3.
  { intros va Hva. assert (PGROUNDDOWN va = a) as E.
    { rewrite PGROUNDDOWN_spec. unfold PGSIZE in *. Z.div_mod_to_equations. lia. }
    split; [|done]. destruct (entry_of_page va) as [E1 E2]. rewrite E in E1, E2.
    unfold s2. cbn. rewrite (set_entry_same kend) by done. unfold e. by rewrite present_lor. }
  destruct k as [|k].
  - rewrite Z.add_0_r, Z.eqb_refl. exists 0, s2, l1. split; [done|]. split; [by eapply vm_keeps_trans|].
    split; [intros; apply T2; [done|lia]|]. right. split; [done|]. intros va Hva.
    destruct (T3 va) as [-> ->]; [lia|]. by rewrite Z.sub_diag, Z.add_0_r.
  - destruct (Z.eqb_spec a (a + S k * 4096)); [lia|].
    rewrite (u32_small (a + 4096)), (u32_small (pa + 4096)) by (unfold is_u32; lia).
    replace (a + S k * 4096) with (a + 4096 + k * PGSIZE) by (unfold PGSIZE; lia).
    destruct (IH k s2 l1 pgdir (a + 4096) (pa + 4096) perm) as (r & s3 & l3 & R3 & K3 & T4 & Hr);
      [apply K2|lia|unfold PGSIZE in *; Z.div_mod_to_equations; lia|lia|unfold PGSIZE in *; lia|
       unfold PGSIZE in *; Z.div_mod_to_equations; lia|lia|unfold PGSIZE in *; lia|done| |].
    { intros va Hva. unfold PGSIZE in *. rewrite T2 by (unfold is_u32; lia). apply Hnone. lia. }
    unfold PGSIZE in T4, Hr. exists r, s3, l3. split; [exact R3|]. split; [by eapply vm_keeps_trans, vm_keeps_trans|].
    split; [intros va Hva Hout; rewrite T4, T2 by (done || lia); done|].
    destruct Hr as [Hr|[-> Hr]]; [by left|right]. split; [done|]. intros va Hva.
    destruct (decide (va < a + 4096)).
    + destruct (T3 va) as [T5 E5]; [lia|]. rewrite T4 by (unfold is_u32; lia).
      rewrite T5, E5. by rewrite Z.sub_diag, Z.add_0_r.
    + rewrite Hr by lia. do 3 f_equal. lia.
Qed.
End mapping.

(** mappages implements the mapping it is asked for.  On a well-formed page
    table next to an intact free list, for a range below 2^32 none of whose
    pages is mapped, mappages returns 0 or -1 and never panics; the page table
    stays well formed and the free list intact; the translation of every address
    outside the pages of the range is unchanged, as is every byte that is
    neither in a free page nor in the page table.  If it returns 0 every address
    in the pages of the range translates to the corresponding physical page with
    exactly the requested permissions, and it returns -1 only when physical
    memory is exhausted. *)
Lemma mappages_correct (kend : Z) (s : kmem) (l : list Z) (pgdir va size pa perm : Z) :
  0 < kend → vm_inv kend s l pgdir →
  0 ≤ va → 0 < size → va + size ≤ 2 ^ 32 →
  pa `mod` PGSIZE = 0 → 0 ≤ pa → pa + (PGROUNDDOWN (va + size - 1) - PGROUNDDOWN va) < 2 ^ 32 → 0 ≤ perm < PGSIZE →
  (∀ x, is_u32 x → PGROUNDDOWN va ≤ PGROUNDDOWN x ≤ PGROUNDDOWN (va + size - 1) →
     translate (km_mem s) pgdir x = None) →
  ∃ r s' l', mappages pgdir va size pa perm s = Ok r s' ∧
    vm_inv kend s' l' pgdir ∧ l' `suffix_of` l ∧
    (∀ x, elsewhere (km_mem s) pgdir l x → km_mem s' x = km_mem s x) ∧
    (∀ x, is_u32 x → PGROUNDDOWN x < PGROUNDDOWN va ∨ PGROUNDDOWN (va + size - 1) < PGROUNDDOWN x →
       translate (km_mem s') pgdir x = translate (km_mem s) pgdir x) ∧
    ((r = -1 ∧ l' = []) ∨
     (r = 0 ∧ ∀ x, is_u32 x → PGROUNDDOWN va ≤ PGROUNDDOWN x ≤ PGROUNDDOWN (va + size - 1) →
       translate (km_mem s') pgdir x =
         Some (Z.lor (Z.lor (pa + (PGROUNDDOWN x - PGROUNDDOWN va)) perm) PTE_P))).
Proof.
  intros Hend Hi Hva Hsz Hmax Hpa Hpa0 Hpa1 Hperm Hnone.
  unfold mappages. rewrite (u32_small (va + size - 1)) by (unfold is_u32; lia).
  set (a := PGROUNDDOWN va) in *. set (last := PGROUNDDOWN (va + size - 1)) in *.
  assert (a `mod` PGSIZE = 0 ∧ a ≤ va < a + PGSIZE) as [Ha Ha'].
  { unfold a. rewrite PGROUNDDOWN_spec. unfold PGSIZE. Z.div_mod_to_equations; lia. }
  assert (last `mod` PGSIZE = 0 ∧ last ≤ va + size - 1 < last + PGSIZE) as [Hl Hl'].
  { unfold last. rewrite PGROUNDDOWN_spec. unfold PGSIZE. Z.div_mod_to_equations; lia. }
  set (k := Z.to_nat ((last - a) / PGSIZE)).
  assert (last = a + k * PGSIZE ∧ a ≤ last) as [Ek Hal].
  { unfold k, PGSIZE in *. Z.div_mod_to_equations. lia. }
  assert (∀ x, a ≤ PGROUNDDOWN x ≤ last ↔ a ≤ x < a + (k + 1) * PGSIZE) as Hin.
  { intros x. rewrite PGROUNDDOWN_spec. unfold PGSIZE in *. Z.div_mod_to_equations. lia. }
  rewrite u32_small by (unfold is_u32, PGSIZE in *; lia). fold k. rewrite Ek.
  destruct (mappages_loop_ok kend Hend (S k) k s l pgdir a pa perm) as (r & s' & l' & R & (Hi' & Hsuf & Hmem) & T & Hr);
    [done|lia|done| | |done|done| |done| |].
  - unfold a, PGROUNDDOWN. apply Z.land_nonneg. lia.
  - unfold PGSIZE in *. Z.div_mod_to_equations. lia.
  - unfold PGSIZE in *. lia.
  - intros x Hx. apply Hnone; [unfold is_u32, PGSIZE in *; Z.div_mod_to_equations; lia|]. by apply Hin.
  - exists r, s', l'. split; [exact R|]. split; [done|]. split; [done|]. split; [intros x Hx; by apply Hmem|]. rewrite <- Ek.
    split.
    + intros x Hx Hout. apply T; [done|]. specialize (Hin x). lia.
    + destruct Hr as [Hr|[-> Hr]]; [by left|right]. split; [done|]. intros x _ Hx. apply Hr. by apply Hin.
Qed.

(** An empty page directory at 0x80102000, next to the two free pages of
    [two_pages]. *)
Lemma empty_dir_table d : 0 ≤ d < 1024 → table (km_mem two_pages) 0x80102000 d = None.
Proof.
  intros Hd. unfold table. rewrite (ld32_ext (λ _, 0)); [done|]. intros x Hx. unfold two_pages.
  destruct (kfree_spec 0x80100000 eq_refl (mkKmem (λ _, 0) 0 0 0) [] 0x80100000) as (s1 & R1 & H1 & M1).
  { split_and!; [done|apply NoDup_nil_2|done]. } { split_and!; done. } { apply not_elem_of_nil. }
  destruct (kfree_spec 0x80100000 eq_refl s1 [0x80100000] 0x80101000 H1) as (s2 & R2 & _ & M2).
  { split_and!; done. } { rewrite list_elem_of_singleton. lia. }
  rewrite (bind_Ok _ _ _ _ _ R1), R2. rewrite M2, M1 by (unfold PGSIZE; lia). done.
Qed.

Lemma empty_dir_inv : vm_inv 0x80100000 two_pages [0x80101000; 0x80100000] 0x80102000.
Proof.
  split; [exact two_pages_free| |].
  - split; [by split_and!|..]; intros d; intros; rewrite empty_dir_table in *; done.
  - intros v Hv. split; [set_solver by lia|]. intros d Hd. by rewrite empty_dir_table.
Qed.

Lemma mappages_correct_witness :
  ∃ r s' l', mappages 0x80102000 0x1000 0x2000 0x5000 (Z.lor PTE_W PTE_U) two_pages = Ok r s' ∧
    vm_inv 0x80100000 s' l' 0x80102000 ∧ l' `suffix_of` [0x80101000; 0x80100000] ∧
    (∀ x, elsewhere (km_mem two_pages) 0x80102000 [0x80101000; 0x80100000] x → km_mem s' x = km_mem two_pages x) ∧
    (∀ x, is_u32 x → PGROUNDDOWN x < PGROUNDDOWN 0x1000 ∨ PGROUNDDOWN (0x1000 + 0x2000 - 1) < PGROUNDDOWN x →
       translate (km_mem s') 0x80102000 x = translate (km_mem two_pages) 0x80102000 x) ∧
    ((r = -1 ∧ l' = []) ∨
     (r = 0 ∧ ∀ x, is_u32 x → PGROUNDDOWN 0x1000 ≤ PGROUNDDOWN x ≤ PGROUNDDOWN (0x1000 + 0x2000 - 1) →
       translate (km_mem s') 0x80102000 x =
         Some (Z.lor (Z.lor (0x5000 + (PGROUNDDOWN x - PGROUNDDOWN 0x1000)) (Z.lor PTE_W PTE_U)) PTE_P))).
Proof.
  apply mappages_correct; [reflexivity|exact empty_dir_inv|lia|lia|lia|reflexivity|lia|reflexivity|split; [discriminate|reflexivity]|].
  intros x _ _. unfold translate. rewrite empty_dir_table; [reflexivity|apply PDX_range].
Defined.
