(* ===== verification/VmSpace.v ===== *)
(** * Address spaces: who owns which page

    Vm.v describes single entries of a page table.  This file gives an address
    space as a whole: the directory, its tables and the user's pages, all
    distinct and none of them free.  Every function of vm.c that makes, grows,
    shrinks, copies or destroys an address space keeps the pages: what it takes
    from the free list belongs to the address space afterwards, and what it gives
    up is free again, on its error paths as well. *)
From S2P Require Import Prelude Str Kalloc Vm.

(** The page an entry points to. *)
Definition frame (e : Z) : Z := P2V (PTE_ADDR e).
(** The start of a page of user memory. *)
Definition upage (va : Z) : Prop := va `mod` PGSIZE = 0 ∧ 0 ≤ va < KERNBASE.

Definition present (e : Z) : bool := truthy (Z.land e PTE_P).

(** The pages of an address space: the page table, that is the directory and its
    tables by their number, and the user's pages by their address. *)
Definition ptpages (pgdir : Z) (tabs : gmap Z Z) : list Z := pgdir :: (map_to_list tabs).*2.
Definition frames (us : gmap Z Z) : list Z := frame ∘ snd <$> map_to_list us.
Definition pages (pgdir : Z) (tabs us : gmap Z Z) : list Z := ptpages pgdir tabs ++ frames us.

(** Two keys with the same image, in a list of images without repetition. *)
Lemma nodup_key (f : Z * Z → Z) (m : gmap Z Z) i j x y :
  NoDup (f <$> map_to_list m) → m !! i = Some x → m !! j = Some y → f (i, x) = f (j, y) → i = j.
Proof.
  intros Hn Hi Hj E. apply elem_of_map_to_list, list_elem_of_lookup in Hi as [p Hp]. apply elem_of_map_to_list, list_elem_of_lookup in Hj as [q Hq].
  assert (p = q) as <-; [|congruence]. apply (NoDup_lookup _ _ _ (f (i, x)) Hn); rewrite list_lookup_fmap; [by rewrite Hp|by rewrite Hq, E].
Qed.

(** The pages of a map with addresses in a range, and the others. *)
Definition between (a b : Z) (us : gmap Z Z) : gmap Z Z := filter (λ p, a ≤ p.1 < b) us.
Definition except (a b : Z) (us : gmap Z Z) : gmap Z Z := filter (λ p, ¬ (a ≤ p.1 < b)) us.

Lemma list_of_union (m1 m2 : gmap Z Z) : m1 ##ₘ m2 → map_to_list (m1 ∪ m2) ≡ₚ map_to_list m1 ++ map_to_list m2.
Proof.
  intros Hd. apply NoDup_Permutation; [apply NoDup_map_to_list| |].
  - apply list.NoDup_app. split; [apply NoDup_map_to_list|]. split; [|apply NoDup_map_to_list]. intros [k x] H1%elem_of_map_to_list H2%elem_of_map_to_list.
    rewrite map_disjoint_spec in Hd. by eapply Hd.
  - intros [k x]. by rewrite elem_of_app, !elem_of_map_to_list, lookup_union_Some.
Qed.
Lemma frames_split a b us : frames us ≡ₚ frames (between a b us) ++ frames (except a b us).
Proof.
  unfold frames, between, except. rewrite <- fmap_app. apply fmap_Permutation.
  rewrite <- list_of_union by apply map_disjoint_filter_complement. by rewrite map_filter_union_complement.
Qed.
Lemma between_skip a a' b us : a ≤ a' → (∀ va, a ≤ va < a' → us !! va = None) → between a b us = between a' b us ∧ except a b us = except a' b us.
Proof.
  intros Ha Hn. split; apply map_filter_ext; intros va e He; cbn; (destruct (decide (a ≤ va < a')); [by rewrite Hn in He|lia]).
Qed.
Lemma between_hit a a' b us e : a < b → a < a' → us !! a = Some e → (∀ va, a < va < a' → us !! va = None) →
  between a b us = <[a := e]> (between a' b (delete a us)) ∧ except a b us = except a' b (delete a us).
Proof.
  intros Hb Ha He Hn. split; apply map_eq; intros k; apply option_eq; intros x; unfold between, except.
  - destruct (decide (a = k)) as [<-|Hk].
    + rewrite lookup_insert_eq, map_lookup_filter_Some, He. cbn. split; [naive_solver|]. intros [= ->]. split; [done|lia].
    + rewrite lookup_insert_ne, !map_lookup_filter_Some, lookup_delete_ne by done. cbn. split; intros [H1 H2]; (split; [done|]); destruct (decide (a < k < a')); try lia. by rewrite Hn in H1.
  - rewrite !map_lookup_filter_Some, lookup_delete_Some. cbn. split.
    + intros [H1 H2]. split; [split; [intros ->; lia|done]|lia].
    + intros [[H1 H2] H3]. split; [done|]. destruct (decide (a < k < a')); [by rewrite Hn in H2|lia].
Qed.

Lemma between_empty a b us : b ≤ a → between a b us = ∅ ∧ except a b us = us.
Proof.
  intros H. split; [apply map_empty_filter_2; intros i x _; cbn; lia|apply map_filter_id; intros i x _; cbn; lia].
Qed.

Section space.
Context (kend : Z).
Hypothesis Hkend : KERNBASE < kend.
Let Hend : 0 < kend.
Proof. unfold KERNBASE in *. lia. Qed.
Implicit Types (s : kmem) (l P : list Z) (pgdir va e : Z) (tabs us : gmap Z Z) (kt : Z → option Z) (m : mem).

Record space s l pgdir tabs us kt : Prop := {
  sp_free : free_pages kend s l;
  sp_nodup : NoDup (l ++ pages pgdir tabs us);
  sp_ok : Forall (page_ok kend) (pages pgdir tabs us);
  sp_tabs d : 0 ≤ d < 1024 → table (km_mem s) pgdir d = tabs !! d;
  sp_dom d t : tabs !! d = Some t → 0 ≤ d < 1024;
  sp_user va : upage va → translate (km_mem s) pgdir va = us !! va;
  sp_udom va e : us !! va = Some e → upage va ∧ is_u32 e ∧ present e = true;
  sp_kern va : KERNBASE ≤ va < 2 ^ 32 → translate (km_mem s) pgdir va = kt va }.

(** The byte [x] is in none of the pages [P]. *)
Definition outside P (x : Z) : Prop := ∀ v, v ∈ P → x < v ∨ v + PGSIZE ≤ x.

(** The pages [P] become the pages [P'], and only their bytes change. *)
Definition evolves P s P' s' : Prop := P' ≡ₚ P ∧ ∀ x, outside P x → km_mem s' x = km_mem s x.

Lemma evolves_refl P s : evolves P s P s.
Proof. done. Qed.
Lemma outside_perm P P' x : P ≡ₚ P' → outside P x → outside P' x.
Proof. intros E H v Hv. apply H. by rewrite E. Qed.
Lemma evolves_trans P1 s1 P2 s2 P3 s3 : evolves P1 s1 P2 s2 → evolves P2 s2 P3 s3 → evolves P1 s1 P3 s3.
Proof.
  intros [E1 H1] [E2 H2]. split; [by rewrite E2|]. intros x Hx. rewrite H2; [by apply H1|]. eapply outside_perm; [|exact Hx]. by symmetry.
Qed.
(** Other pages stay as they are. *)
Lemma evolves_frame R P s P' s' : evolves P s P' s' → evolves (R ++ P) s (R ++ P') s'.
Proof.
  intros [E H]. split; [by rewrite E|]. intros x Hx. apply H. intros v Hv. apply Hx, elem_of_app. by right.
Qed.
Lemma evolves_perm P s P' s' Q Q' : evolves P s P' s' → P ≡ₚ Q → P' ≡ₚ Q' → evolves Q s Q' s'.
Proof. intros [E H] E1 E2. split; [by rewrite <- E1, <- E2|]. intros x Hx. apply H. eapply outside_perm; [|exact Hx]. by symmetry. Qed.

Section facts.
Context s l pgdir tabs us kt (Hsp : space s l pgdir tabs us kt).

Lemma sp_dir_ok : page_ok kend pgdir.
Proof. pose proof (sp_ok _ _ _ _ _ _ Hsp) as H. by inversion_clear H. Qed.
Lemma tab_in d t : tabs !! d = Some t → t ∈ pages pgdir tabs us.
Proof.
  intros H. apply elem_of_app. left. apply list_elem_of_further. change t with ((d, t).2). apply list_elem_of_fmap_2. by apply elem_of_map_to_list.
Qed.
Lemma frame_in va e : us !! va = Some e → frame e ∈ pages pgdir tabs us.
Proof.
  intros H. apply elem_of_app. right. change (frame e) with ((frame ∘ snd) (va, e)). apply list_elem_of_fmap_2. by apply elem_of_map_to_list.
Qed.
Lemma sp_page_ok v : v ∈ pages pgdir tabs us → page_ok kend v.
Proof. pose proof (sp_ok _ _ _ _ _ _ Hsp) as H. rewrite list.Forall_forall in H. apply H. Qed.

Lemma sp_split : NoDup l ∧ (∀ v, v ∈ l → v ∉ pages pgdir tabs us) ∧ NoDup (pages pgdir tabs us).
Proof. apply list.NoDup_app, sp_nodup with (1 := Hsp). Qed.
Lemma sp_tab_inj d d' t : tabs !! d = Some t → tabs !! d' = Some t → d = d'.
Proof.
  intros H1 H2. destruct sp_split as (_ & _ & Hn). apply list.NoDup_app in Hn as (Hn & _). apply list.NoDup_cons in Hn as [_ Hn].
  by apply (nodup_key snd tabs d d' t t).
Qed.
Lemma sp_frame_inj va va' e e' : us !! va = Some e → us !! va' = Some e' → frame e = frame e' → va = va'.
Proof.
  intros H1 H2. destruct sp_split as (_ & _ & Hn). apply list.NoDup_app in Hn as (_ & _ & Hn).
  by apply (nodup_key (frame ∘ snd) us va va' e e').
Qed.
Lemma sp_dir_new d t : tabs !! d = Some t → t ≠ pgdir.
Proof.
  intros H E. destruct sp_split as (_ & _ & Hn). apply list.NoDup_app in Hn as (Hn & _). apply list.NoDup_cons in Hn as [Hn _]. apply Hn.
  change pgdir with ((d, pgdir).2). apply list_elem_of_fmap_2. rewrite <- E. by apply elem_of_map_to_list.
Qed.

Lemma sp_wf : pt_wf kend (km_mem s) pgdir.
Proof.
  split; [exact sp_dir_ok| |].
  - intros d t Hd. rewrite (sp_tabs _ _ _ _ _ _ Hsp) by done. intros H. split; [by eapply sp_page_ok, tab_in|by eapply sp_dir_new].
  - intros d d' t Hd Hd'. rewrite !(sp_tabs _ _ _ _ _ _ Hsp) by done. apply sp_tab_inj.
Qed.
(** A page outside the address space. *)
Lemma sp_apart v : v ∉ pages pgdir tabs us → pt_apart (km_mem s) pgdir v.
Proof.
  intros Hv. split.
  - intros ->. apply Hv, list_elem_of_here.
  - intros d Hd. rewrite (sp_tabs _ _ _ _ _ _ Hsp) by done. intros H. eapply Hv, tab_in, H.
Qed.
Lemma sp_inv : vm_inv kend s l pgdir.
Proof. split; [apply Hsp|exact sp_wf|]. intros v Hv. apply sp_apart. by apply sp_split. Qed.
(** The pages are apart. *)
Lemma sp_disjoint v w x : v ∈ l ++ pages pgdir tabs us → w ∈ l ++ pages pgdir tabs us → v ≠ w → v ≤ x < v + PGSIZE → x < w ∨ w + PGSIZE ≤ x.
Proof.
  intros Hv Hw Hne Hx. assert (∀ u, u ∈ l ++ pages pgdir tabs us → u `mod` PGSIZE = 0) as Hm.
  { intros u [Hu|Hu]%elem_of_app; [|by apply (sp_page_ok u)]. destruct (sp_free _ _ _ _ _ _ Hsp) as (_ & _ & Hok). rewrite list.Forall_forall in Hok. by apply (Hok u). }
  destruct (pages_apart v w (Hm v Hv) (Hm w Hw) Hne); lia.
Qed.
End facts.

(** ** Pages as the maps change *)

Lemma new_tab_pages pgdir tabs d t : tabs !! d = None → ptpages pgdir (<[d := t]> tabs) ≡ₚ t :: ptpages pgdir tabs.
Proof. intros H. unfold ptpages. rewrite map_to_list_insert by done. apply Permutation_swap. Qed.
Lemma new_frame us va e : us !! va = None → frames (<[va := e]> us) ≡ₚ frame e :: frames us.
Proof. intros H. unfold frames. by rewrite map_to_list_insert. Qed.
Lemma drop_frame us va e : us !! va = Some e → frames us ≡ₚ frame e :: frames (delete va us).
Proof. intros H. unfold frames. by rewrite <- (map_to_list_delete us va e). Qed.

(** The same memory with another free list. *)
Lemma space_free s l pgdir tabs us kt s' l' : space s l pgdir tabs us kt → free_pages kend s' l' → NoDup (l' ++ pages pgdir tabs us) →
  (∀ v x, v ∈ ptpages pgdir tabs → v ≤ x < v + PGSIZE → km_mem s' x = km_mem s x) → space s' l' pgdir tabs us kt.
Proof.
  intros Hsp Hf Hn Hm. assert (∀ d, 0 ≤ d < 1024 → table (km_mem s') pgdir d = table (km_mem s) pgdir d) as Ht.
  { intros d Hd. apply table_ext; [apply (sp_dir_ok _ _ _ _ _ _ Hsp)|done|]. intros x Hx. apply (Hm pgdir); [apply list_elem_of_here|done]. }
  assert (∀ va, translate (km_mem s') pgdir va = translate (km_mem s) pgdir va) as Htr.
  { intros va. apply translate_ext; [apply (sp_dir_ok _ _ _ _ _ _ Hsp)| |].
    - intros x Hx. apply (Hm pgdir); [apply list_elem_of_here|done].
    - intros t. rewrite (sp_tabs _ _ _ _ _ _ Hsp) by apply PDX_range. intros H x Hx. apply (Hm t); [|done].
      apply list_elem_of_further. change t with ((PDX va, t).2). apply list_elem_of_fmap_2. by apply elem_of_map_to_list. }
  destruct Hsp. split; try done; intros; rewrite ?Ht, ?Htr by done; auto.
Qed.

(** Tables are added, for entries of the directory that satisfy [Q]. *)
Definition extends (Q : Z → Prop) tabs tabs' : Prop := tabs ⊆ tabs' ∧ ∀ d, is_Some (tabs' !! d) → is_Some (tabs !! d) ∨ Q d.
Lemma extends_refl Q tabs : extends Q tabs tabs.
Proof. split; [done|]. auto. Qed.
Lemma extends_trans (Q1 Q2 Q : Z → Prop) t1 t2 t3 : extends Q1 t1 t2 → extends Q2 t2 t3 → (∀ d, Q1 d ∨ Q2 d → Q d) → extends Q t1 t3.
Proof. intros [A1 B1] [A2 B2] HQ. split; [by etrans|]. intros d Hd. destruct (B2 d Hd) as [H|H]; [destruct (B1 d H); auto|auto]. Qed.

(** ** walkpgdir *)

Lemma walk_alloc s l pgdir tabs us kt va : space s l pgdir tabs us kt →
  ∃ r s' l' tabs', walkpgdir pgdir va true s = Ok r s' ∧ space s' l' pgdir tabs' us kt ∧
  evolves (l ++ ptpages pgdir tabs) s (l' ++ ptpages pgdir tabs') s' ∧ extends (λ d, d = PDX va) tabs tabs' ∧
  ((r = 0 ∧ l' = [] ∧ l = [] ∧ tabs' = tabs ∧ tabs !! PDX va = None) ∨ ∃ t, tabs' !! PDX va = Some t ∧ r = t + 4 * PTX va ∧ r ≠ 0).
Proof.
  intros Hsp. pose proof (sp_inv _ _ _ _ _ _ Hsp) as Hi. pose proof Hi as [Hf Hwf Hap]. unfold walkpgdir, load32. rewrite bind_gets.
  pose proof (PDX_range va) as HD. pose proof (PTX_range va) as HX. pose proof (sp_tabs _ _ _ _ _ _ Hsp _ HD) as Et.
  destruct (tabs !! PDX va) as [t|] eqn:E.
  { destruct (table_some _ _ _ _ Et) as [-> ->]. eexists _, s, l, tabs. split; [done|]. split; [done|]. split; [apply evolves_refl|]. split; [apply extends_refl|]. right. exists t.
    split; [done|]. split; [done|]. destruct (wf_tab _ _ _ Hwf _ _ HD Et) as [(_ & ? & _) _]. lia. }
  rewrite (table_none _ _ _ Et). cbn [negb]. pose proof (kalloc_spec kend Hend s l Hf) as Hk. destruct l as [|t l].
  { rewrite (bind_Ok _ _ _ _ _ Hk). cbn. eexists 0, _, [], tabs. split; [done|]. split; [|split; [done|split; [apply extends_refl|by left]]].
    apply (space_free s [] pgdir tabs us kt); [done| |apply Hsp|done]. destruct Hf as (Hfl & _). cbn in Hfl. split_and!; [done|apply NoDup_nil_2|done]. }
  destruct Hk as (s1 & R1 & Hf1 & Em). rewrite (bind_Ok _ _ _ _ _ R1).
  destruct (sp_split _ _ _ _ _ _ Hsp) as (Hn1 & Hn2 & Hn3).
  assert (page_ok kend t) as Htok by (destruct Hf as (_ & _ & Hok); by inversion_clear Hok).
  destruct (Z.eqb_spec t 0) as [->|_]; [destruct Htok as (_ & ? & _); lia|].
  pose proof (Hap t (list_elem_of_here _ _)) as Hapt.
  pose proof (new_table_keeps kend Hend s l pgdir (PDX va) t s1 Hi HD Et Hf1 Em) as ([Hf2 _ _] & _ & _).
  set (s2 := set_mem _ _) in Hf2. eexists _, s2, l, (<[PDX va := t]> tabs). split; [done|].
  assert (l ++ ptpages pgdir (<[PDX va := t]> tabs) ≡ₚ (t :: l) ++ ptpages pgdir tabs) as Ep.
  { rewrite new_tab_pages by done. cbn [app]. by rewrite <- Permutation_middle. }
  assert (l ++ pages pgdir (<[PDX va := t]> tabs) us ≡ₚ (t :: l) ++ pages pgdir tabs us) as Ep2 by (unfold pages; by rewrite !app_assoc, Ep).
  split; [split|split; [split|split]].
  - exact Hf2.
  - rewrite Ep2. apply Hsp.
  - unfold pages. rewrite new_tab_pages by done. cbn [app]. constructor; [done|]. apply (sp_ok _ _ _ _ _ _ Hsp).
  - intros d Hd. unfold s2. cbn [km_mem set_mem]. rewrite Em, (new_table_table kend) by done. rewrite (sp_tabs _ _ _ _ _ _ Hsp) by done.
    destruct (Z.eqb_spec d (PDX va)) as [->|Hne]; [by rewrite lookup_insert_eq|by rewrite lookup_insert_ne].
  - intros d t' H. destruct (decide (PDX va = d)) as [<-|Hne]; [done|]. rewrite lookup_insert_ne in H by done. by eapply (sp_dom _ _ _ _ _ _ Hsp).
  - intros va' Hva. unfold s2. cbn [km_mem set_mem]. rewrite Em, (new_table_translate kend) by done. by apply (sp_user _ _ _ _ _ _ Hsp).
  - apply (sp_udom _ _ _ _ _ _ Hsp).
  - intros va' Hva. unfold s2. cbn [km_mem set_mem]. rewrite Em, (new_table_translate kend) by done. by apply (sp_kern _ _ _ _ _ _ Hsp).
  - exact Ep.
  - intros x Hx. unfold s2. cbn [km_mem set_mem]. rewrite Em. apply new_table_out_page; [done..| |]; apply Hx; [apply list_elem_of_here|].
    apply elem_of_app. right. apply list_elem_of_here.
  - split; [by apply insert_subseteq|]. intros d Hd. destruct (decide (PDX va = d)) as [->|Hne]; [by right|]. rewrite lookup_insert_ne in Hd by done. by left.
  - right. exists t. split; [by rewrite lookup_insert_eq|]. split; [done|]. destruct Htok as (_ & ? & _). lia.
Qed.

(** ** Storing an entry *)

Definition stored s t va e : kmem := set_mem (st32 (km_mem s) (t + 4 * PTX va) e) s.

Lemma store_any s l pgdir tabs us kt va t e : space s l pgdir tabs us kt → tabs !! PDX va = Some t → is_u32 e → is_u32 va → va `mod` PGSIZE = 0 →
  let s' := stored s t va e in
  free_pages kend s' l ∧ (∀ d, 0 ≤ d < 1024 → table (km_mem s') pgdir d = tabs !! d) ∧
  (∀ va', is_u32 va' → translate (km_mem s') pgdir va' =
     if decide (PGROUNDDOWN va' = va) then if present e then Some e else None else translate (km_mem s) pgdir va') ∧
  evolves (l ++ ptpages pgdir tabs) s (l ++ ptpages pgdir tabs) s'.
Proof.
  intros Hsp Ht He Hva Hal s'. pose proof (sp_inv _ _ _ _ _ _ Hsp) as Hi. pose proof (vi_wf _ _ _ _ Hi) as Hwf.
  pose proof (sp_tabs _ _ _ _ _ _ Hsp _ (PDX_range va)) as Et. rewrite Ht in Et.
  assert (PGROUNDDOWN va = va) as Eva by (rewrite PGROUNDDOWN_spec, Hal; lia).
  split; [|split; [|split]].
  - by destruct (store_entry_keeps kend Hend s l pgdir va t e Hi Et) as ([? _ _] & _).
  - intros d Hd. unfold s', stored. cbn [km_mem set_mem]. rewrite (set_entry_table kend) by done. by apply (sp_tabs _ _ _ _ _ _ Hsp).
  - intros va' Hva'. unfold s', stored. cbn [km_mem set_mem]. case_decide as Hd.
    + destruct (entry_of_page va') as [E1 E2]. rewrite Hd in E1, E2. by apply (set_entry_same kend).
    + apply (set_entry_other kend); [done|done|]. intros [E1 E2]. apply Hd. rewrite <- Eva. by apply same_entry.
  - split; [done|]. intros x Hx. unfold s', stored. cbn [km_mem set_mem]. apply (set_entry_out _ va). apply Hx. apply elem_of_app. right.
    apply list_elem_of_further. change t with ((PDX va, t).2). apply list_elem_of_fmap_2. by apply elem_of_map_to_list.
Qed.

Lemma upage_u32 va : upage va → is_u32 va.
Proof. unfold upage, is_u32, KERNBASE. lia. Qed.
Lemma upage_down va : upage va → PGROUNDDOWN va = va.
Proof. intros [H _]. rewrite PGROUNDDOWN_spec, H. lia. Qed.
Lemma down_kern va : KERNBASE ≤ va → KERNBASE ≤ PGROUNDDOWN va.
Proof. rewrite PGROUNDDOWN_spec. unfold KERNBASE, PGSIZE. Z.to_euclidean_division_equations. lia. Qed.

Lemma set_user s l pgdir tabs us kt va t e : space s l pgdir tabs us kt → tabs !! PDX va = Some t → upage va → us !! va = None →
  is_u32 e → present e = true → page_ok kend (frame e) → frame e ∉ l ++ pages pgdir tabs us →
  space (stored s t va e) l pgdir tabs (<[va := e]> us) kt ∧ evolves (l ++ ptpages pgdir tabs) s (l ++ ptpages pgdir tabs) (stored s t va e).
Proof.
  intros Hsp Ht Hva Hu He Hp Hok Hnew. destruct (store_any _ _ _ _ _ _ va t e Hsp Ht He (upage_u32 _ Hva) (proj1 Hva)) as (H1 & H2 & H3 & H4).
  assert (l ++ pages pgdir tabs (<[va:=e]> us) ≡ₚ frame e :: l ++ pages pgdir tabs us) as Ep.
  { unfold pages. rewrite new_frame by done. by rewrite <- !Permutation_middle. }
  split; [|done]. split; [done| | |done|apply Hsp| | |].
  - rewrite Ep. apply list.NoDup_cons. split; [done|apply Hsp].
  - unfold pages. rewrite new_frame by done. rewrite <- Permutation_middle. constructor; [done|]. apply Hsp.
  - intros va' Hva'. rewrite H3 by (by apply upage_u32). rewrite (upage_down va') by done. case_decide as E; [subst; by rewrite lookup_insert_eq, Hp|].
    rewrite lookup_insert_ne by done. by apply (sp_user _ _ _ _ _ _ Hsp).
  - intros va' e'. destruct (decide (va = va')) as [<-|E]; [rewrite lookup_insert_eq; by intros [= <-]|]. rewrite lookup_insert_ne by done. apply (sp_udom _ _ _ _ _ _ Hsp).
  - intros va' Hva'. rewrite H3 by (unfold is_u32, KERNBASE in *; lia). rewrite decide_False; [by apply (sp_kern _ _ _ _ _ _ Hsp)|].
    intros <-. pose proof (down_kern va' (proj1 Hva')). destruct Hva. lia.
Qed.

(** The frame is the caller's afterwards. *)
Lemma clear_user s l pgdir tabs us kt va t e : space s l pgdir tabs us kt → tabs !! PDX va = Some t → upage va → us !! va = Some e →
  space (stored s t va 0) l pgdir tabs (delete va us) kt ∧ evolves (l ++ ptpages pgdir tabs) s (l ++ ptpages pgdir tabs) (stored s t va 0).
Proof.
  intros Hsp Ht Hva Hu. destruct (store_any _ _ _ _ _ _ va t 0 Hsp Ht ltac:(done) (upage_u32 _ Hva) (proj1 Hva)) as (H1 & H2 & H3 & H4).
  assert (l ++ pages pgdir tabs us ≡ₚ frame e :: l ++ pages pgdir tabs (delete va us)) as Ep.
  { unfold pages. rewrite (drop_frame us va e) by done. by rewrite <- !Permutation_middle. }
  split; [|done]. split; [done| | |done|apply Hsp| | |].
  - pose proof (sp_nodup _ _ _ _ _ _ Hsp) as Hn. rewrite Ep in Hn. by apply list.NoDup_cons in Hn as [_ ?].
  - pose proof (sp_ok _ _ _ _ _ _ Hsp) as Ho. unfold pages in Ho. rewrite (drop_frame us va e) in Ho by done. rewrite <- Permutation_middle in Ho. by inversion_clear Ho.
  - intros va' Hva'. rewrite H3 by (by apply upage_u32). rewrite (upage_down va') by done. case_decide as E; [subst; by rewrite lookup_delete_eq|].
    rewrite lookup_delete_ne by done. by apply (sp_user _ _ _ _ _ _ Hsp).
  - intros va' e' [_ H]%lookup_delete_Some. by apply (sp_udom _ _ _ _ _ _ Hsp).
  - intros va' Hva'. rewrite H3 by (unfold is_u32, KERNBASE in *; lia). rewrite decide_False; [by apply (sp_kern _ _ _ _ _ _ Hsp)|].
    intros <-. pose proof (down_kern va' (proj1 Hva')). destruct Hva. lia.
Qed.

(** A mapping of the kernel: its frame belongs to no one. *)
Definition kt_set (va e : Z) kt : Z → option Z := λ va', if decide (PGROUNDDOWN va' = va) then Some e else kt va'.
Lemma set_kern s l pgdir tabs us kt va t e : space s l pgdir tabs us kt → tabs !! PDX va = Some t → va `mod` PGSIZE = 0 → KERNBASE ≤ va < 2 ^ 32 →
  is_u32 e → present e = true →
  space (stored s t va e) l pgdir tabs us (kt_set va e kt) ∧ evolves (l ++ ptpages pgdir tabs) s (l ++ ptpages pgdir tabs) (stored s t va e).
Proof.
  intros Hsp Ht Hal Hva He Hp. destruct (store_any _ _ _ _ _ _ va t e Hsp Ht He ltac:(unfold is_u32, KERNBASE in *; lia) Hal) as (H1 & H2 & H3 & H4).
  split; [|done]. split; [done|apply Hsp|apply Hsp|done|apply Hsp| |apply Hsp|].
  - intros va' Hva'. rewrite H3 by (by apply upage_u32). rewrite (upage_down va') by done. rewrite decide_False by (destruct Hva'; lia). by apply (sp_user _ _ _ _ _ _ Hsp).
  - intros va' Hva'. rewrite H3 by (unfold is_u32, KERNBASE in *; lia). unfold kt_set. rewrite Hp. case_decide; [done|]. by apply (sp_kern _ _ _ _ _ _ Hsp).
Qed.

(** ** mappages *)

(** The entry mappages writes. *)
Definition pte_of (v perm : Z) : Z := Z.lor (Z.lor (V2P v) perm) PTE_P.
Lemma lor_flags a b : 0 ≤ a < PGSIZE → 0 ≤ b < PGSIZE → 0 ≤ Z.lor a b < PGSIZE.
Proof.
  intros [Ha Ha'] [Hb Hb']. assert (0 ≤ Z.lor a b) by (by apply Z.lor_nonneg). split; [done|]. change PGSIZE with (2 ^ 12) in *.
  destruct (decide (Z.lor a b = 0)) as [->|]; [done|]. apply Z.log2_lt_pow2; [lia|]. rewrite Z.log2_lor by done.
  apply Z.max_lub_lt; [destruct (decide (a = 0)) as [->|]|destruct (decide (b = 0)) as [->|]]; (done || (apply Z.log2_lt_pow2; lia)).
Qed.
Lemma pte_of_spec v perm : page_ok kend v → 0 ≤ perm < PGSIZE → is_u32 (pte_of v perm) ∧ present (pte_of v perm) = true ∧ frame (pte_of v perm) = v.
Proof.
  intros Hv Hp. destruct (V2P_aligned kend v Hv) as [Ha Hu]. unfold pte_of, frame. split; [|split].
  - apply is_u32_lor; [apply is_u32_lor|]; [done|unfold is_u32, PGSIZE in *; lia|done].
  - by apply present_lor.
  - rewrite <- Z.lor_assoc. rewrite PTE_ADDR_lor; [by apply (P2V_V2P kend)|done|]. by apply lor_flags.
Qed.

(** One user page. *)
Lemma map_user s l pgdir tabs us kt va v perm : space s l pgdir tabs us kt → upage va → us !! va = None →
  page_ok kend v → v ∉ l ++ pages pgdir tabs us → 0 ≤ perm < PGSIZE →
  ∃ r s' l' tabs', mappages pgdir va PGSIZE (V2P v) perm s = Ok r s' ∧ extends (λ d, d = PDX va) tabs tabs' ∧
  evolves (l ++ ptpages pgdir tabs) s (l' ++ ptpages pgdir tabs') s' ∧
  ((r = -1 ∧ l = [] ∧ l' = [] ∧ tabs' = tabs ∧ tabs !! PDX va = None ∧ space s' l' pgdir tabs us kt) ∨
   (r = 0 ∧ space s' l' pgdir tabs' (<[va := pte_of v perm]> us) kt)).
Proof.
  intros Hsp Hva Hu Hv Hnew Hp. destruct (pte_of_spec v perm Hv Hp) as (E1 & E2 & E3). unfold mappages. rewrite (upage_down va) by done.
  assert (PGROUNDDOWN (u32 (va + PGSIZE - 1)) = va) as ->.
  { destruct Hva as [Hm Hr]. unfold KERNBASE in Hr. rewrite u32_small by (unfold is_u32, PGSIZE; lia). rewrite PGROUNDDOWN_spec. unfold PGSIZE in *. Z.to_euclidean_division_equations. lia. }
  rewrite Z.sub_diag. change (S (Z.to_nat (u32 0 / PGSIZE))) with 1%nat. cbn [mappages_loop].
  destruct (walk_alloc s l pgdir tabs us kt va Hsp) as (r & s1 & l1 & tabs1 & R1 & S1 & V1 & T1 & Hr). mstep R1.
  destruct Hr as [(-> & -> & -> & -> & Hn)|(t & Ht & -> & Hnz)].
  { exists (-1), s1, [], tabs. split; [done|]. split; [apply extends_refl|]. split; [done|]. left. by split_and!. }
  rewrite (proj2 (Z.eqb_neq _ _) Hnz). unfold load32. rewrite bind_gets.
  assert (translate (km_mem s1) pgdir va = None) as Hnone by (by rewrite (sp_user _ _ _ _ _ _ S1)).
  assert (table (km_mem s1) pgdir (PDX va) = Some t) as Et by (rewrite (sp_tabs _ _ _ _ _ _ S1); [done|apply PDX_range]).
  rewrite (entry_present _ _ _ _ Et Hnone). unfold store32. rewrite bind_modify, Z.eqb_refl.
  assert (l1 ++ pages pgdir tabs1 us ≡ₚ l ++ pages pgdir tabs us) as Ep by (unfold pages; rewrite !app_assoc; by rewrite (proj1 V1)).
  destruct (set_user s1 l1 pgdir tabs1 us kt va t (pte_of v perm) S1 Ht Hva Hu E1 E2) as [S2 V2]; [by rewrite E3|rewrite E3, Ep; done|].
  exists 0, (stored s1 t va (pte_of v perm)), l1, tabs1. split; [done|]. split; [done|]. split; [by eapply evolves_trans|]. by right.
Qed.

(** A range of the kernel's addresses. *)
Lemma map_kern fuel : ∀ (k : nat) s l pgdir tabs us kt a pa perm, space s l pgdir tabs us kt → (k < fuel)%nat →
  a `mod` PGSIZE = 0 → KERNBASE ≤ a → a + (k + 1) * PGSIZE ≤ 2 ^ 32 →
  pa `mod` PGSIZE = 0 → 0 ≤ pa → pa + (k + 1) * PGSIZE ≤ 2 ^ 32 → 0 ≤ perm < PGSIZE →
  (∀ va, a ≤ va < a + (k + 1) * PGSIZE → kt va = None) →
  ∃ r s' l' tabs' kt', mappages_loop fuel pgdir a (a + k * PGSIZE) pa perm s = Ok r s' ∧ space s' l' pgdir tabs' us kt' ∧
  evolves (l ++ ptpages pgdir tabs) s (l' ++ ptpages pgdir tabs') s' ∧
  extends (λ d, ∃ va, a ≤ va < a + (k + 1) * PGSIZE ∧ d = PDX va) tabs tabs' ∧
  ((r = -1 ∧ l' = [] ∧ ∃ va, a ≤ va < a + (k + 1) * PGSIZE ∧ tabs' !! PDX va = None) ∨
   (r = 0 ∧ (∀ va, a ≤ va < a + (k + 1) * PGSIZE → kt' va = Some (Z.lor (Z.lor (pa + (PGROUNDDOWN va - a)) perm) PTE_P)) ∧
    ∀ va, va < a ∨ a + (k + 1) * PGSIZE ≤ va → kt' va = kt va)).
Proof.
  induction fuel as [|fuel IH]; intros k s l pgdir tabs us kt a pa perm Hsp Hk Ha Ha0 Ha1 Hpa Hpa0 Hpa1 Hperm Hnone; [lia|].
  cbn [mappages_loop]. unfold PGSIZE in Ha1, Hpa1, Hnone |- *.
  destruct (walk_alloc s l pgdir tabs us kt a Hsp) as (r & s1 & l1 & tabs1 & R1 & S1 & V1 & T1 & Hr). mstep R1.
  destruct Hr as [(-> & -> & -> & -> & Hn)|(t & Ht & -> & Hnz)].
  { exists (-1), s1, [], tabs, kt. split; [done|]. split; [done|]. split; [done|]. split; [apply extends_refl|]. left. split_and!; [done..|]. exists a. split; [lia|done]. }
  rewrite (proj2 (Z.eqb_neq _ _) Hnz). unfold load32. rewrite bind_gets.
  assert (translate (km_mem s1) pgdir a = None) as Hn by (rewrite (sp_kern _ _ _ _ _ _ S1) by lia; apply Hnone; lia).
  assert (table (km_mem s1) pgdir (PDX a) = Some t) as Et by (rewrite (sp_tabs _ _ _ _ _ _ S1); [done|apply PDX_range]).
  rewrite (entry_present _ _ _ _ Et Hn). unfold store32. rewrite bind_modify. set (e := Z.lor (Z.lor pa perm) PTE_P).
  assert (is_u32 e) as He by (unfold e, PGSIZE in *; repeat apply is_u32_lor; unfold is_u32, PTE_P; lia).
  assert (present e = true) as Hp by (unfold e, present; by apply present_lor).
  destruct (set_kern s1 l1 pgdir tabs1 us kt a t e S1 Ht Ha ltac:(lia) He Hp) as [S2 V2]. change (set_mem _ s1) with (stored s1 t a e).
  assert (∀ va, a ≤ va < a + 4096 ↔ PGROUNDDOWN va = a) as Hpg.
  { intros va. rewrite PGROUNDDOWN_spec. unfold PGSIZE in *. Z.to_euclidean_division_equations. lia. }
  destruct k as [|k].
  - rewrite Z.add_0_r, Z.eqb_refl. exists 0, (stored s1 t a e), l1, tabs1, (kt_set a e kt). split; [done|]. split; [done|]. split; [by eapply evolves_trans|].
    split; [apply (extends_trans _ _ _ _ _ _ T1 (extends_refl (λ _, False) _)); intros dd [->|[]]; exists a; split; [lia|done]|].
    right. split; [done|]. split; intros va Hva; unfold kt_set.
    + rewrite decide_True by (apply Hpg; lia). rewrite (proj1 (Hpg va)) by lia. by rewrite Z.sub_diag, Z.add_0_r.
    + rewrite decide_False; [done|]. rewrite <- Hpg. lia.
  - destruct (Z.eqb_spec a (a + S k * 4096)); [lia|]. rewrite (u32_small (a + 4096)), (u32_small (pa + 4096)) by (unfold is_u32; unfold KERNBASE in *; lia).
    replace (a + S k * 4096) with (a + 4096 + k * PGSIZE) by (unfold PGSIZE; lia).
    destruct (IH k (stored s1 t a e) l1 pgdir tabs1 us (kt_set a e kt) (a + 4096) (pa + 4096) perm S2) as (r & s3 & l3 & tabs3 & kt3 & R3 & S3 & V3 & T3 & Hr);
      [lia|unfold PGSIZE in *; Z.div_mod_to_equations; lia|lia|unfold PGSIZE in *; lia| unfold PGSIZE in *; Z.div_mod_to_equations; lia|lia|unfold PGSIZE in *; lia|done| |].
    { intros va Hva. unfold PGSIZE in *. unfold kt_set. rewrite decide_False; [apply Hnone; lia|]. rewrite <- Hpg. lia. }
    unfold PGSIZE in Hr, T3. exists r, s3, l3, tabs3, kt3. split; [exact R3|]. split; [done|]. split; [by eapply evolves_trans, evolves_trans|].
    split; [apply (extends_trans _ _ _ _ _ _ T1 T3); intros dd [->|(va & Hva & ->)]; [exists a|exists va]; (split; [lia|done])|].
    destruct Hr as [(-> & -> & va & Hva & Hn')|(-> & H1 & H2)]; [left; split; [done|]; split; [done|]; exists va; split; [lia|done]|right]. split; [done|]. split; intros va Hva.
    + destruct (decide (va < a + 4096)).
      * rewrite H2 by lia. unfold kt_set. rewrite decide_True by (apply Hpg; lia). rewrite (proj1 (Hpg va)) by lia. by rewrite Z.sub_diag, Z.add_0_r.
      * rewrite H1 by lia. do 3 f_equal. lia.
    + rewrite H2 by lia. unfold kt_set. rewrite decide_False; [done|]. rewrite <- Hpg. lia.
Qed.

(** ** Giving pages back *)

Lemma walk_look s l pgdir tabs us kt va : space s l pgdir tabs us kt →
  walkpgdir pgdir va false s = Ok (match tabs !! PDX va with Some t => t + 4 * PTX va | None => 0 end) s.
Proof.
  intros Hsp. unfold walkpgdir, load32. rewrite bind_gets. pose proof (sp_tabs _ _ _ _ _ _ Hsp _ (PDX_range va)) as Et. destruct (tabs !! PDX va) as [t|].
  - by destruct (table_some _ _ _ _ Et) as [-> ->].
  - by rewrite (table_none _ _ _ Et).
Qed.
(** The entry of a user page, read through its table. *)
Lemma look_user s l pgdir tabs us kt va t : space s l pgdir tabs us kt → upage va → tabs !! PDX va = Some t →
  us !! va = (let e := ld32 (km_mem s) (t + 4 * PTX va) in if present e then Some e else None) ∧ t + 4 * PTX va ≠ 0.
Proof.
  intros Hsp Hva Ht. pose proof (sp_tabs _ _ _ _ _ _ Hsp _ (PDX_range va)) as Et. rewrite Ht in Et. split.
  - rewrite <- (sp_user _ _ _ _ _ _ Hsp) by done. unfold translate. by rewrite Et.
  - pose proof (PTX_range va). destruct (sp_page_ok _ _ _ _ _ _ Hsp t) as (_ & ? & _); [by eapply tab_in|]. lia.
Qed.
Lemma no_table s l pgdir tabs us kt va e : space s l pgdir tabs us kt → us !! va = Some e → tabs !! PDX va ≠ None.
Proof.
  intros Hsp He Hn. destruct (sp_udom _ _ _ _ _ _ Hsp _ _ He) as (Hva & _). pose proof (sp_user _ _ _ _ _ _ Hsp va Hva) as H. unfold translate in H.
  rewrite (sp_tabs _ _ _ _ _ _ Hsp), Hn, He in H by apply PDX_range. done.
Qed.

Lemma user_frame s l pgdir tabs us kt va e : space s l pgdir tabs us kt → us !! va = Some e → page_ok kend (frame e) ∧ (frame e ∉ l) ∧ (frame e ∉ ptpages pgdir tabs) ∧ PTE_ADDR e ≠ 0.
Proof.
  intros Hsp He. assert (frame e ∈ pages pgdir tabs us) as Hin by (by eapply frame_in). pose proof (sp_page_ok _ _ _ _ _ _ Hsp _ Hin) as Hok.
  destruct (sp_split _ _ _ _ _ _ Hsp) as (_ & H1 & H2). split; [done|]. split; [intros Hl; by apply (H1 _ Hl)|]. split.
  - unfold pages in H2. apply list.NoDup_app in H2 as (_ & H2 & _). intros Hp. apply (H2 _ Hp). change (frame e) with ((frame ∘ snd) (va, e)). apply list_elem_of_fmap_2. by apply elem_of_map_to_list.
  - intros E. unfold frame in Hok. rewrite E in Hok. destruct Hok as (_ & Hk & _). change (P2V 0) with KERNBASE in Hk. lia.
Qed.

(** A user page is freed: kfree, then the entry is cleared. *)
Lemma free_user s l pgdir tabs us kt va t e : space s l pgdir tabs us kt → upage va → tabs !! PDX va = Some t → us !! va = Some e →
  ∃ s1, kfree kend (frame e) s = Ok tt s1 ∧ space (stored s1 t va 0) (frame e :: l) pgdir tabs (delete va us) kt ∧
  evolves (frame e :: l ++ ptpages pgdir tabs) s (frame e :: l ++ ptpages pgdir tabs) (stored s1 t va 0).
Proof.
  intros Hsp Hva Ht He. destruct (user_frame _ _ _ _ _ _ _ _ Hsp He) as (Hok & Hnl & Hnp & _).
  destruct (kfree_spec kend Hend s l (frame e) (sp_free _ _ _ _ _ _ Hsp) Hok Hnl) as (s1 & R1 & F1 & M1). exists s1. split; [done|].
  destruct (clear_user s l pgdir tabs us kt va t e Hsp Ht Hva He) as [S2 V2].
  assert (t ∈ ptpages pgdir tabs) as Htin by (apply list_elem_of_further; change t with ((PDX va, t).2); apply list_elem_of_fmap_2; by apply elem_of_map_to_list).
  assert (t ∈ l ++ pages pgdir tabs us) as Htp by (apply elem_of_app; right; unfold pages; apply elem_of_app; by left).
  assert (∀ v, v ∈ frame e :: l → v ∈ l ++ pages pgdir tabs us ∧ v ≠ t) as Hsep.
  { destruct (sp_split _ _ _ _ _ _ Hsp) as (_ & H1 & _). intros v [->|Hv]%elem_of_cons.
    - split; [apply elem_of_app; right; by eapply frame_in|]. intros E. apply Hnp. by rewrite E.
    - split; [apply elem_of_app; by left|]. intros ->. apply (H1 _ Hv). unfold pages. apply elem_of_app. by left. }
  split.
  - apply (space_free (stored s t va 0) l pgdir tabs (delete va us) kt); [done| | |].
    + apply free_pages_set_mem; [done|exact F1|]. intros v Hv x Hx. destruct (Hsep v Hv) as [Hv1 Hv2]. apply (set_entry_out (km_mem s1) va).
      apply (sp_disjoint _ _ _ _ _ _ Hsp v t x Hv1 Htp Hv2). unfold PGSIZE. lia.
    + cbn [app]. pose proof (sp_nodup _ _ _ _ _ _ Hsp) as Hn. unfold pages in *. rewrite (drop_frame us va e He) in Hn. by rewrite <- !Permutation_middle in Hn.
    + intros v x Hv Hx. unfold stored. cbn [km_mem set_mem]. unfold st32, st8.
      assert (km_mem s1 x = km_mem s x) as ->; [|done]. apply M1. apply (sp_disjoint _ _ _ _ _ _ Hsp v (frame e) x); [|apply elem_of_app; right; by eapply frame_in|by intros ->|done].
      apply elem_of_app. right. unfold pages. apply elem_of_app. by left.
  - split; [done|]. intros x Hx. unfold stored. cbn [km_mem set_mem]. rewrite (set_entry_out (km_mem s1) va).
    + apply M1. apply Hx, list_elem_of_here.
    + apply Hx. apply list_elem_of_further, elem_of_app. by right.
Qed.

(** The page table of the loop in deallocuvm skips to. *)
Lemma next_dir a : 0 ≤ a < KERNBASE → a `mod` PGSIZE = 0 →
  let a' := u32 (u32 (PGADDR (PDX a + 1) 0 0 - PGSIZE) + PGSIZE) in
  a' `mod` PGSIZE = 0 ∧ a + PGSIZE ≤ a' ≤ KERNBASE ∧ ∀ va, a ≤ va < a' → PDX va = PDX a.
Proof.
  unfold KERNBASE. intros Ha Hm. rewrite PDX_div. assert ((a / 2 ^ 22) `mod` 1024 = a / 2 ^ 22) as Ed.
  { apply Z.mod_small. split; [apply Z.div_pos; lia|apply Z.div_lt_upper_bound; lia]. }
  rewrite Ed. set (q := a / 2 ^ 22). assert (0 ≤ q < 512) as Hq by (unfold q; split; [apply Z.div_pos; lia|apply Z.div_lt_upper_bound; lia]).
  assert (PGADDR (q + 1) 0 0 = (q + 1) * 2 ^ 22) as ->.
  { unfold PGADDR. rewrite Z.shiftl_0_l, !Z.lor_0_r, Z.shiftl_mul_pow2 by lia. apply u32_small. unfold is_u32. lia. }
  rewrite (u32_small ((q + 1) * 2 ^ 22 - PGSIZE)) by (unfold is_u32, PGSIZE; lia). replace ((q + 1) * 2 ^ 22 - PGSIZE + PGSIZE) with ((q + 1) * 2 ^ 22) by lia.
  rewrite u32_small by (unfold is_u32; lia). cbn zeta. unfold PGSIZE in *. split; [|split].
  - change (2 ^ 22) with (1024 * 4096). rewrite Z.mul_assoc. apply Z.mod_mul. done.
  - split; [|lia]. unfold q. Z.to_euclidean_division_equations. lia.
  - intros va Hva. rewrite PDX_div. assert (va / 2 ^ 22 = q) as ->; [|done]. unfold q in *. Z.to_euclidean_division_equations. lia.
Qed.

(** Between two page boundaries there is no page. *)
Lemma no_page s l pgdir tabs us kt a va : space s l pgdir tabs us kt → a `mod` PGSIZE = 0 → a < va < a + PGSIZE → us !! va = None.
Proof.
  intros Hsp Ha Hva. destruct (us !! va) as [e|] eqn:E; [|done]. destruct (sp_udom _ _ _ _ _ _ Hsp _ _ E) as ([Hm _] & _). unfold PGSIZE in *. Z.to_euclidean_division_equations. lia.
Qed.

Lemma dealloc_ok (fuel : nat) : ∀ a oldsz s l pgdir tabs us kt, space s l pgdir tabs us kt → a `mod` PGSIZE = 0 → 0 ≤ a → oldsz ≤ KERNBASE →
  oldsz - a ≤ (fuel - 1) * PGSIZE → (0 < fuel)%nat →
  ∃ s' l', dealloc_loop kend fuel pgdir a oldsz s = Ok tt s' ∧ space s' l' pgdir tabs (except a oldsz us) kt ∧
  evolves (l ++ pages pgdir tabs (between a oldsz us)) s (l' ++ ptpages pgdir tabs) s'.
Proof.
  induction fuel as [|fuel IH]; intros a oldsz s l pgdir tabs us kt Hsp Ha Ha0 Ho Hf Hf0; [lia|]. cbn [dealloc_loop].
  destruct (Z.ltb_spec a oldsz) as [Hlt|Hge].
  2:{ exists s, l. destruct (between_empty a oldsz us Hge) as [-> ->]. split; [done|]. split; [done|]. unfold pages, frames. rewrite map_to_list_empty, app_nil_r. apply evolves_refl. }
  assert (upage a) as Hup by (split; [done|lia]).
  rewrite (bind_Ok _ _ _ _ _ (walk_look _ _ _ _ _ _ a Hsp)). destruct (tabs !! PDX a) as [t|] eqn:Et.
  - destruct (look_user _ _ _ _ _ _ a t Hsp Hup Et) as [Hu Hnz]. rewrite (proj2 (Z.eqb_neq _ _) Hnz). unfold load32. rewrite bind_gets.
    set (e := ld32 (km_mem s) (t + 4 * PTX a)) in *. change (truthy (Z.land e PTE_P)) with (present e).
    assert (u32 (a + PGSIZE) = a + PGSIZE) as -> by (apply u32_small; unfold is_u32, PGSIZE, KERNBASE in *; lia).
    assert ((a + PGSIZE) `mod` PGSIZE = 0) as Ha' by (rewrite <- Zplus_mod_idemp_r, Z_mod_same_full, Z.add_0_r; done).
    cbn zeta in Hu. destruct (present e) eqn:Ep.
    + destruct (user_frame _ _ _ _ _ _ _ _ Hsp Hu) as (_ & _ & _ & Hpa). rewrite (proj2 (Z.eqb_neq _ _) Hpa).
      destruct (free_user _ _ _ _ _ _ a t e Hsp Hup Et Hu) as (s1 & R1 & S1 & V1). rewrite bind_assoc. rewrite (bind_Ok _ _ _ _ _ R1).
      unfold store32. rewrite bind_modify. change (set_mem _ s1) with (stored s1 t a 0).
      destruct (between_hit a (a + PGSIZE) oldsz us e Hlt ltac:(unfold PGSIZE; lia) Hu (λ va Hva, no_page _ _ _ _ _ _ a va Hsp Ha Hva)) as [-> ->].
      destruct (IH (a + PGSIZE) oldsz _ _ _ _ _ _ S1 Ha') as (s2 & l2 & R2 & S2 & V2); [unfold PGSIZE; lia|done|unfold PGSIZE in *; lia|unfold PGSIZE in *; lia|].
      exists s2, l2. split; [done|]. split; [done|]. set (g := between _ _ _) in *. assert (g !! a = None) as Hg by (apply map_lookup_filter_None; left; by rewrite lookup_delete_eq).
      eapply evolves_trans; [|exact V2]. apply (evolves_perm _ _ _ _ _ _ (evolves_frame (frames g) _ _ _ _ V1)); unfold pages; [rewrite new_frame by done|]; solve_Permutation.
    + rewrite bind_ret. destruct (between_skip a (a + PGSIZE) oldsz us) as [-> ->]; [unfold PGSIZE; lia| |].
      { intros va Hva. destruct (decide (va = a)) as [->|]; [done|]. eapply no_page; [done|exact Ha|lia]. }
      apply IH; [done|done|unfold PGSIZE; lia|done|unfold PGSIZE in *; lia|unfold PGSIZE in *; lia].
  - cbn [Z.eqb]. destruct (next_dir a) as (N1 & N2 & N3); [lia|done|]. set (a' := u32 (u32 _ + PGSIZE)) in *.
    destruct (between_skip a a' oldsz us) as [-> ->]; [unfold PGSIZE in *; lia| |].
    { intros va Hva. destruct (us !! va) as [e|] eqn:E; [|done]. destruct (no_table _ _ _ _ _ _ _ _ Hsp E). by rewrite N3. }
    apply IH; [done|done|unfold PGSIZE in *; lia|done|unfold PGSIZE in *; lia|unfold PGSIZE in *; lia].
Qed.

Lemma deallocuvm_spec s l pgdir tabs us kt oldsz newsz : space s l pgdir tabs us kt → oldsz ≤ KERNBASE → 0 ≤ newsz < oldsz →
  ∃ s' l', deallocuvm kend pgdir oldsz newsz s = Ok newsz s' ∧ space s' l' pgdir tabs (except (PGROUNDUP newsz) oldsz us) kt ∧
  evolves (l ++ pages pgdir tabs (between (PGROUNDUP newsz) oldsz us)) s (l' ++ ptpages pgdir tabs) s'.
Proof.
  intros Hsp Ho Hn. unfold deallocuvm. rewrite (proj2 (Z.leb_gt _ _)) by lia.
  destruct (PGROUNDUP_spec newsz) as [H1 H2]; [lia|unfold PGSIZE, KERNBASE in *; lia|].
  destruct (dealloc_ok (S (Z.to_nat (oldsz / PGSIZE + 1))) (PGROUNDUP newsz) oldsz s l pgdir tabs us kt Hsp H1) as (s' & l' & R & S' & V); [lia|done| |lia|].
  { unfold PGSIZE in *. Z.to_euclidean_division_equations. lia. }
  exists s', l'. mstep R. done.
Qed.

(** Everything of an address space is free afterwards. *)
Definition tables_of tabs (js : list nat) : list Z := omap (λ i : nat, tabs !! Z.of_nat i) js.
Lemma tables_all s l pgdir tabs us kt : space s l pgdir tabs us kt → tables_of tabs (seq 0 1024) ≡ₚ (map_to_list tabs).*2.
Proof.
  intros Hsp. apply NoDup_Permutation.
  - unfold tables_of. pose proof (NoDup_seq 0 1024) as Hn. induction Hn as [|i js Hi _ IH]; [apply NoDup_nil_2|]. cbn. destruct (tabs !! Z.of_nat i) as [t|] eqn:Et; [|done].
    apply list.NoDup_cons. split; [|done]. rewrite list_elem_of_omap. intros (j & Hj & Ej). assert (i = j) as ->; [|done].
    apply Nat2Z.inj. by eapply (sp_tab_inj _ _ _ _ _ _ Hsp).
  - destruct (sp_split _ _ _ _ _ _ Hsp) as (_ & _ & Hn). apply list.NoDup_app in Hn as (Hn & _). by apply list.NoDup_cons in Hn as [_ ?].
  - intros t. unfold tables_of. rewrite list_elem_of_omap, list_elem_of_fmap. split.
    + intros (i & _ & Hi). exists (Z.of_nat i, t). split; [done|]. by apply elem_of_map_to_list.
    + intros ([d t'] & -> & H%elem_of_map_to_list). pose proof (sp_dom _ _ _ _ _ _ Hsp _ _ H). exists (Z.to_nat d). rewrite Z2Nat.id by lia. split; [|done]. apply elem_of_seq. lia.
Qed.

Lemma free_tables s l pgdir tabs kt : space s l pgdir tabs ∅ kt →
  ∃ s' l', for_each (seq 0 NPDENTRIES) (λ i, let! e := load32 (pgdir + 4 * i) in if truthy (Z.land e PTE_P) then kfree kend (P2V (PTE_ADDR e)) else ret tt) s = Ok tt s' ∧
  free_pages kend s' l' ∧ l' ≡ₚ (map_to_list tabs).*2 ++ l ∧ ∀ x, outside ((map_to_list tabs).*2 ++ l) x → km_mem s' x = km_mem s x.
Proof.
  intros Hsp.
  assert (∀ v, v ∈ (map_to_list tabs).*2 ++ l → v ∈ l ++ pages pgdir tabs ∅ ∧ v ≠ pgdir) as Hin.
  { destruct (sp_split _ _ _ _ _ _ Hsp) as (_ & H1 & Hn). apply list.NoDup_app in Hn as (Hn & _). apply list.NoDup_cons in Hn as [Hn _]. intros v [Hv|Hv]%elem_of_app.
    - split; [|by intros ->]. apply elem_of_app. right. unfold pages. apply elem_of_app. left. by apply list_elem_of_further.
    - split; [apply elem_of_app; by left|]. intros ->. apply (H1 _ Hv), list_elem_of_here. }
  assert (pgdir ∈ l ++ pages pgdir tabs ∅) as Hdir by (apply elem_of_app; right; apply list_elem_of_here).
  assert (∀ x, pgdir ≤ x < pgdir + PGSIZE → outside ((map_to_list tabs).*2 ++ l) x) as Hout.
  { intros x Hx v Hv. destruct (Hin v Hv) as [H1 H2]. by apply (sp_disjoint _ _ _ _ _ _ Hsp pgdir v x). }
  match goal with |- context [for_each _ ?f] =>
    destruct (for_seq_inv f (λ i s', ∃ l', free_pages kend s' l' ∧ l' ≡ₚ tables_of tabs (seq 0 i) ++ l ∧ ∀ x, outside ((map_to_list tabs).*2 ++ l) x → km_mem s' x = km_mem s x)
      NPDENTRIES s) as (s' & R & l' & F & E & M) end.
  - exists l. split; [apply Hsp|]. done.
  - intros i s1 Hi (l1 & F1 & E1 & M1). unfold NPDENTRIES in Hi. rewrite seq_S. unfold load32. rewrite bind_gets.
    assert (ld32 (km_mem s1) (pgdir + 4 * i) = ld32 (km_mem s) (pgdir + 4 * i)) as -> by (apply ld32_ext; intros x Hx; apply M1, Hout; unfold PGSIZE; lia).
    pose proof (sp_tabs _ _ _ _ _ _ Hsp i ltac:(lia)) as Et. unfold tables_of. rewrite omap_app. fold (tables_of tabs (seq 0 i)). cbn [omap list_omap Nat.add].
    destruct (tabs !! Z.of_nat i) as [t|] eqn:Ei.
    + destruct (table_some _ _ _ _ Et) as [-> ->]. assert (t ∈ (map_to_list tabs).*2) as Ht by (change t with ((Z.of_nat i, t).2); apply list_elem_of_fmap_2; by apply elem_of_map_to_list).
      destruct (kfree_spec kend Hend s1 l1 t F1) as (s2 & R2 & F2 & M2).
      { eapply (sp_page_ok _ _ _ _ _ _ Hsp), tab_in, Ei. }
      { rewrite E1, elem_of_app. intros [H|H].
        - unfold tables_of in H. rewrite list_elem_of_omap in H. destruct H as (j & Hj & Ej). apply elem_of_seq in Hj. pose proof (sp_tab_inj _ _ _ _ _ _ Hsp _ _ _ Ei Ej). lia.
        - destruct (sp_split _ _ _ _ _ _ Hsp) as (_ & H1 & _). by eapply (H1 _ H), tab_in. }
      exists s2. split; [done|]. exists (t :: l1). split; [done|]. split; [rewrite E1; solve_Permutation|]. intros x Hx. rewrite M2; [by apply M1|]. apply Hx. apply elem_of_app. by left.
    + rewrite (table_none _ _ _ Et). exists s1. split; [done|]. exists l1. split; [done|]. split; [|done]. by rewrite app_nil_r.
  - exists s', l'. split; [exact R|]. split; [done|]. split; [|done]. rewrite E. f_equiv. eapply tables_all, Hsp.
Qed.

Lemma all_user s l pgdir tabs us kt : space s l pgdir tabs us kt → except 0 KERNBASE us = ∅ ∧ between 0 KERNBASE us = us.
Proof.
  intros Hsp. split; [apply map_empty_filter_2|apply map_filter_id]; intros i x Hx; destruct (sp_udom _ _ _ _ _ _ Hsp _ _ Hx) as ([_ ?] & _); cbn; lia.
Qed.

Lemma freevm_spec s l pgdir tabs us kt : space s l pgdir tabs us kt →
  ∃ s' l', freevm kend pgdir s = Ok tt s' ∧ free_pages kend s' l' ∧ evolves (l ++ pages pgdir tabs us) s l' s'.
Proof.
  intros Hsp. unfold freevm. pose proof (sp_dir_ok _ _ _ _ _ _ Hsp) as Hd. rewrite (proj2 (Z.eqb_neq pgdir 0)) by (destruct Hd as (_ & ? & _); lia).
  destruct (deallocuvm_spec s l pgdir tabs us kt KERNBASE 0 Hsp ltac:(lia) ltac:(unfold KERNBASE; lia)) as (s1 & l1 & R1 & S1 & V1). mstep R1.
  change (PGROUNDUP 0) with 0 in *. destruct (all_user _ _ _ _ _ _ Hsp) as [E1 E2]. rewrite E1 in S1. rewrite E2 in V1.
  destruct (free_tables _ _ _ _ _ S1) as (s2 & l2 & R2 & F2 & E3 & M2). mstep R2.
  destruct (kfree_spec kend Hend s2 l2 pgdir F2 Hd) as (s3 & R3 & F3 & M3).
  { rewrite E3. destruct (sp_split _ _ _ _ _ _ S1) as (_ & H1 & Hn). apply list.NoDup_app in Hn as (Hn & _). apply list.NoDup_cons in Hn as [Hn _].
    intros [H|H]%elem_of_app; [done|]. apply (H1 _ H), list_elem_of_here. }
  exists s3, (pgdir :: l2). split; [done|]. split; [done|]. eapply evolves_trans; [exact V1|]. split; [rewrite E3; unfold ptpages; solve_Permutation|].
  intros x Hx. rewrite M3; [apply M2|].
  - intros v Hv. apply Hx. unfold ptpages. revert Hv. rewrite !elem_of_app, elem_of_cons. tauto.
  - apply Hx. apply elem_of_app. right. apply list_elem_of_here.
Qed.

(** ** The kernel's part *)

Definition ksize (k : kmap_entry) : Z := u32 (phys_end k - phys_start k).
(** What the table [kmap] says of an address. *)
Fixpoint klook (ks : list kmap_entry) (va : Z) : option Z :=
  match ks with
  | [] => None
  | k :: ks => if decide (virt k ≤ va < virt k + ksize k) then Some (Z.lor (Z.lor (phys_start k + (PGROUNDDOWN va - virt k)) (k_perm k)) PTE_P) else klook ks va
  end.
Record kentry_ok (k : kmap_entry) : Prop := {
  ke_virt : virt k `mod` PGSIZE = 0 ∧ KERNBASE ≤ virt k ∧ virt k + ksize k ≤ 2 ^ 32;
  ke_phys : phys_start k `mod` PGSIZE = 0 ∧ 0 ≤ phys_start k ∧ phys_start k + ksize k ≤ 2 ^ 32;
  ke_size : ksize k `mod` PGSIZE = 0 ∧ 0 < ksize k;
  ke_perm : 0 ≤ k_perm k < PGSIZE }.
Fixpoint kmap_ok (ks : list kmap_entry) : Prop :=
  match ks with
  | [] => True
  | k :: ks => kentry_ok k ∧ (∀ va, virt k ≤ va < virt k + ksize k → klook ks va = None) ∧ kmap_ok ks
  end.

Lemma map_kentry s l pgdir tabs us kt k : space s l pgdir tabs us kt → kentry_ok k → (∀ va, virt k ≤ va < virt k + ksize k → kt va = None) →
  ∃ r s' l' tabs' kt', mappages pgdir (virt k) (ksize k) (phys_start k) (k_perm k) s = Ok r s' ∧ space s' l' pgdir tabs' us kt' ∧
  evolves (l ++ ptpages pgdir tabs) s (l' ++ ptpages pgdir tabs') s' ∧
  extends (λ d, ∃ va, virt k ≤ va < virt k + ksize k ∧ d = PDX va) tabs tabs' ∧
  ((r = -1 ∧ l' = [] ∧ ∃ va, virt k ≤ va < virt k + ksize k ∧ tabs' !! PDX va = None) ∨
   (r = 0 ∧ ∀ va, kt' va = match klook [k] va with Some e => Some e | None => kt va end)).
Proof.
  intros Hsp [(V1 & V2 & V3) (P1 & P2 & P3) [S1 S2] Hp] Hn. set (n := Z.to_nat (ksize k / PGSIZE - 1)).
  assert (ksize k = (n + 1) * PGSIZE) as En by (unfold n, PGSIZE in *; Z.to_euclidean_division_equations; lia).
  unfold mappages. assert (PGROUNDDOWN (virt k) = virt k) as -> by (rewrite PGROUNDDOWN_spec, V1; lia).
  assert (PGROUNDDOWN (u32 (virt k + ksize k - 1)) = virt k + n * PGSIZE) as ->.
  { rewrite u32_small by (unfold is_u32, PGSIZE, KERNBASE in *; lia). rewrite PGROUNDDOWN_spec, En. unfold PGSIZE in *. Z.to_euclidean_division_equations. lia. }
  replace (virt k + n * PGSIZE - virt k) with (n * PGSIZE) by lia. rewrite (u32_small (n * PGSIZE)) by (unfold is_u32, PGSIZE, KERNBASE in *; lia).
  rewrite Z.div_mul, Nat2Z.id by done. rewrite En in *.
  destruct (map_kern (S n) n s l pgdir tabs us kt (virt k) (phys_start k) (k_perm k) Hsp) as (r & s' & l' & tabs' & kt' & R & S' & V & T & Hr); [lia|done..|].
  exists r, s', l', tabs', kt'. split; [done|]. split; [done|]. split; [done|]. split; [done|]. destruct Hr as [Hr|(-> & H1 & H2)]; [by left|right]. split; [done|].
  intros va. cbn [klook]. rewrite En. case_decide; [by rewrite H1|]. apply H2. lia.
Qed.

Lemma map_all_ok ks : ∀ s l pgdir tabs us kt, space s l pgdir tabs us kt → kmap_ok ks → (∀ va, is_Some (klook ks va) → kt va = None) →
  ∃ ok s' l' tabs' kt', map_all pgdir ks s = Ok ok s' ∧ space s' l' pgdir tabs' us kt' ∧
  evolves (l ++ ptpages pgdir tabs) s (l' ++ ptpages pgdir tabs') s' ∧
  extends (λ d, ∃ va, is_Some (klook ks va) ∧ d = PDX va) tabs tabs' ∧
  ((ok = false ∧ l' = [] ∧ ∃ va, is_Some (klook ks va) ∧ tabs' !! PDX va = None) ∨
   (ok = true ∧ ∀ va, kt' va = match klook ks va with Some e => Some e | None => kt va end)).
Proof.
  induction ks as [|k ks IH]; intros s l pgdir tabs us kt Hsp Hok Hn.
  { exists true, s, l, tabs, kt. split; [done|]. split; [done|]. split; [apply evolves_refl|]. split; [apply extends_refl|]. by right. }
  destruct Hok as (Hk & Hd & Hok). cbn [map_all]. fold (ksize k).
  destruct (map_kentry s l pgdir tabs us kt k Hsp Hk) as (r & s1 & l1 & tabs1 & kt1 & R1 & S1 & V1 & T1 & Hr).
  { intros va Hva. apply Hn. cbn [klook]. rewrite decide_True by done. by eexists. }
  assert (∀ va, virt k ≤ va < virt k + ksize k → is_Some (klook (k :: ks) va)) as Hin by (intros va Hva; cbn [klook]; rewrite decide_True by done; by eexists).
  assert (∀ va, is_Some (klook ks va) → is_Some (klook (k :: ks) va)) as Hin2 by (intros va Hva; cbn [klook]; case_decide; [by eexists|done]).
  mstep R1. destruct Hr as [(-> & -> & va & Hva & Hd')|(-> & H1)].
  { exists false, s1, [], tabs1, kt1. split; [done|]. split; [done|]. split; [done|]. split; [|left; split; [done|]; split; [done|]; exists va; by split; [apply Hin|]].
    apply (extends_trans _ _ _ _ _ _ T1 (extends_refl (λ _, False) _)). intros dd [(va' & Hva' & ->)|[]]. exists va'. by split; [apply Hin|]. }
  cbn [Z.ltb Z.compare]. destruct (IH s1 l1 pgdir tabs1 us kt1 S1 Hok) as (ok & s2 & l2 & tabs2 & kt2 & R2 & S2 & V2 & T2 & Hr).
  { intros va Hva. rewrite H1. cbn [klook]. rewrite decide_False by (intros H; rewrite Hd in Hva by done; by destruct Hva). apply Hn. cbn [klook]. case_decide; [by eexists|done]. }
  exists ok, s2, l2, tabs2, kt2. split; [done|]. split; [done|]. split; [by eapply evolves_trans|].
  split; [apply (extends_trans _ _ _ _ _ _ T1 T2); intros dd [(va & Hva & ->)|(va & Hva & ->)]; exists va; (split; [auto|done])|].
  destruct Hr as [(-> & -> & va & Hva & Hn2)|(-> & H2)]; [left; split; [done|]; split; [done|]; exists va; by split; [apply Hin2|]|right]. split; [done|].
  intros va. rewrite H2, H1. cbn [klook]. case_decide; [|by destruct (klook ks va)]. by rewrite Hd.
Qed.

(** The tables, as many as there are entries of the directory for them. *)
Lemma tabs_in tabs (ds : list Z) : (∀ d, is_Some (tabs !! d) → d ∈ ds) → (length (map_to_list tabs).*2 ≤ length ds)%nat.
Proof.
  intros H. rewrite length_fmap, <- (length_fmap fst). apply submseteq_length, NoDup_submseteq; [apply NoDup_fst_map_to_list|].
  intros x. rewrite list_elem_of_fmap. intros ([x' t] & -> & Hx%elem_of_map_to_list). apply H. by eexists.
Qed.
Lemma tabs_less tabs (ds : list Z) d : (∀ d, is_Some (tabs !! d) → d ∈ ds) → d ∈ ds → tabs !! d = None → (length (map_to_list tabs).*2 < length ds)%nat.
Proof.
  intros H Hd Hn. rewrite length_fmap, <- (length_fmap fst). change (length (d :: (map_to_list tabs).*1) ≤ length ds)%nat. apply submseteq_length, NoDup_submseteq.
  - apply list.NoDup_cons. split; [|apply NoDup_fst_map_to_list]. rewrite list_elem_of_fmap. intros ([x' t] & -> & Hx%elem_of_map_to_list). cbn in Hn. by rewrite Hn in Hx.
  - intros x [->|Hx]%elem_of_cons; [done|]. apply list_elem_of_fmap in Hx as ([x' t] & -> & Hx%elem_of_map_to_list). apply H. by eexists.
Qed.
Lemma all_dirs s l pgdir tabs us kt d : space s l pgdir tabs us kt → is_Some (tabs !! d) → d ∈ seqZ 0 1024.
Proof. intros Hsp [t Ht]. apply elem_of_seqZ. pose proof (sp_dom _ _ _ _ _ _ Hsp _ _ Ht). lia. Qed.

Section kernel.
Context (kdata : Z).
(** The linker puts [data] at the start of a page behind the kernel's text. *)
Hypothesis Hdata : kdata `mod` PGSIZE = 0 ∧ KERNLINK < kdata < KERNBASE + PHYSTOP.

Lemma kmap_is_ok : kmap_ok (kmap kdata).
Proof.
  destruct Hdata as [H1 H2]. assert (V2P kdata = kdata - KERNBASE) as Ed by (apply u32_small; unfold is_u32, KERNLINK, KERNBASE, EXTMEM, PHYSTOP in *; lia).
  assert (∀ a b p q, 0 ≤ b - a < 2 ^ 32 → ksize (mkKmap p a b q) = b - a) as Es by (intros; by apply u32_small).
  assert (ksize (mkKmap DEVSPACE DEVSPACE 0 PTE_W) = 2 ^ 32 - DEVSPACE) as Es4 by reflexivity.
  unfold kmap. change (V2P KERNLINK) with EXTMEM. rewrite Ed.
  unfold KERNLINK, KERNBASE, EXTMEM, PHYSTOP, DEVSPACE, PGSIZE in *.
  cbn [kmap_ok klook virt phys_start phys_end k_perm]. rewrite Es4, !Es by lia. unfold PTE_W, PTE_P in *.
  repeat match goal with
  | |- _ ∧ _ => split
  | |- True => done
  | |- kentry_ok _ => split; unfold PGSIZE, KERNBASE; cbn [virt phys_start phys_end k_perm]; rewrite ?Es4, ?Es by lia; repeat split; try lia; Z.to_euclidean_division_equations; lia
  | |- ∀ va, _ => intros va Hva; repeat (rewrite decide_False by lia); done
  end.
Qed.

(** The entries of the directory that the kernel's mappings need. *)
Definition kdirs : list Z := seqZ 512 56 ++ seqZ 1016 8.
Lemma kdirs_in va : is_Some (klook (kmap kdata) va) → PDX va ∈ kdirs.
Proof.
  intros H. assert (KERNBASE ≤ va < KERNBASE + PHYSTOP ∨ DEVSPACE ≤ va < 2 ^ 32) as Hva.
  { destruct Hdata as [_ H2]. assert (V2P kdata = kdata - KERNBASE) as Ed by (apply u32_small; unfold is_u32, KERNLINK, KERNBASE, EXTMEM, PHYSTOP in *; lia).
    assert (∀ a b p q, 0 ≤ b - a < 2 ^ 32 → ksize (mkKmap p a b q) = b - a) as Es by (intros; by apply u32_small).
    assert (ksize (mkKmap DEVSPACE DEVSPACE 0 PTE_W) = 2 ^ 32 - DEVSPACE) as Es4 by reflexivity. revert H.
    unfold kmap. change (V2P KERNLINK) with EXTMEM. rewrite Ed. cbn [klook virt phys_start phys_end k_perm]. unfold KERNLINK in *. rewrite Es4, !Es by (unfold KERNBASE, EXTMEM, PHYSTOP in *; lia).
    unfold KERNBASE, EXTMEM, PHYSTOP, DEVSPACE in *. repeat case_decide; try lia. by intros [? ?]. }
  rewrite PDX_div. unfold kdirs. rewrite elem_of_app, !elem_of_seqZ. unfold KERNBASE, PHYSTOP, DEVSPACE in *. Z.to_euclidean_division_equations. lia.
Qed.

(** A fresh directory. *)
Lemma fresh_space s l pgdir s1 : free_pages kend s (pgdir :: l) → free_pages kend s1 l → km_mem s1 = km_mem s →
  let s2 := set_mem (memset (km_mem s1) pgdir 0 PGSIZE) s1 in
  space s2 l pgdir ∅ ∅ (λ _, None) ∧ evolves (pgdir :: l) s (l ++ ptpages pgdir ∅) s2.
Proof.
  intros Hf Hf1 Em s2. pose proof Hf as (_ & Hnd & Hok). inversion_clear Hok as [|? ? Hd _]. pose proof Hnd as [Hnot Hnl]%list.NoDup_cons.
  assert (∀ d, 0 ≤ d < 1024 → table (km_mem s2) pgdir d = None) as Ht by (intros d Hd'; unfold table, s2; cbn [km_mem set_mem]; by rewrite ld32_zeroed).
  assert (∀ va, translate (km_mem s2) pgdir va = None) as Htr by (intros va; unfold translate; rewrite Ht; [done|apply PDX_range]).
  split.
  - split; [|by unfold pages, ptpages, frames; rewrite !map_to_list_empty; cbn; rewrite <- Permutation_cons_append|by unfold pages, ptpages, frames; rewrite !map_to_list_empty; constructor; [|constructor]
      |by intros d Hd'; rewrite Ht|done|by intros va Hva; rewrite Htr|done|by intros va Hva; rewrite Htr].
    apply free_pages_set_mem; [done..|]. intros v Hv x Hx. apply memset_in_page. destruct (free_page_apart kend s1 l v pgdir Hf1 Hv); [apply Hd|by intros ->|unfold PGSIZE in *; lia..].
  - split; [unfold ptpages; rewrite map_to_list_empty; cbn; by rewrite <- Permutation_cons_append|]. intros x Hx. unfold s2. cbn [km_mem set_mem]. rewrite memset_in_page; [by rewrite Em|].
    apply Hx, list_elem_of_here.
Qed.

Lemma setupkvm_spec s l : free_pages kend s l →
  ∃ r s' l', setupkvm kend kdata s = Ok r s' ∧
  ((r = 0 ∧ free_pages kend s' l' ∧ evolves l s l' s' ∧ (length l ≤ 64)%nat) ∨
   (r ≠ 0 ∧ ∃ tabs, space s' l' r tabs ∅ (klook (kmap kdata)) ∧ evolves l s (l' ++ ptpages r tabs) s' ∧ ∀ d, is_Some (tabs !! d) → d ∈ kdirs)).
Proof.
  intros Hf. unfold setupkvm. rewrite bind_modify. set (s0 := mkKmem _ _ _ 0). assert (free_pages kend s0 l) as Hf0 by exact Hf.
  pose proof (kalloc_spec kend Hend s0 l Hf0) as Hk. destruct l as [|pgdir l].
  { rewrite (bind_Ok _ _ _ _ _ Hk). eexists 0, _, []. split; [done|]. left. split; [done|]. split; [|split; [done|cbn; lia]].
    destruct Hf as (Hfl & _). cbn in Hfl. split_and!; [done|apply NoDup_nil_2|done]. }
  destruct Hk as (s1 & R1 & Hf1 & Em). mstep R1. pose proof Hf as (_ & _ & Hok). inversion_clear Hok as [|? ? Hd _].
  assert (pgdir ≠ 0) as Hnz by (destruct Hd as (_ & ? & _); lia). rewrite (proj2 (Z.eqb_neq _ _) Hnz).
  unfold on_mem. rewrite bind_modify. change (DEVSPACE <? P2V PHYSTOP) with false. cbn iota.
  destruct (fresh_space s0 l pgdir s1 Hf0 Hf1 Em) as [S2 V2]. set (s2 := set_mem _ s1) in *.
  destruct (map_all_ok (kmap kdata) s2 l pgdir ∅ ∅ _ S2 kmap_is_ok ltac:(done)) as (ok & s3 & l3 & tabs3 & kt3 & R3 & S3 & V3 & T3 & Hr). mstep R3.
  assert (∀ d, is_Some (tabs3 !! d) → d ∈ kdirs) as Hds by (intros dd [[? H]|(va & Hva & ->)]%(proj2 T3); [by rewrite lookup_empty in H|by apply kdirs_in]).
  assert (evolves (pgdir :: l) s (l3 ++ ptpages pgdir tabs3) s3) as V by (eapply evolves_trans; [exact V2|exact V3]).
  destruct Hr as [(-> & -> & va & Hva & Hn)|(-> & H)].
  - destruct (freevm_spec _ _ _ _ _ _ S3) as (s4 & l4 & R4 & F4 & V4). mstep R4. exists 0, s4, l4. split; [done|]. left. split; [done|]. split; [done|].
    unfold pages, frames in V4. rewrite map_to_list_empty, app_nil_r in V4. split; [by eapply evolves_trans|].
    rewrite <- (proj1 V). cbn [app ptpages length]. pose proof (tabs_less tabs3 kdirs (PDX va) Hds (kdirs_in va Hva) Hn) as Hl. change (length kdirs) with 64%nat in Hl. lia.
  - exists pgdir, s3, l3. split; [done|]. right. split; [done|]. exists tabs3. split; [|done]. destruct S3. split; try done. intros va Hva. rewrite sp_kern0, H by done. by destruct (klook _ va).
Qed.
End kernel.

(** ** Two address spaces next to each other *)

Lemma page_outside P v x : v `mod` PGSIZE = 0 → (∀ w, w ∈ P → w `mod` PGSIZE = 0) → v ∉ P → v ≤ x < v + PGSIZE → outside P x.
Proof. intros Hv HP Hn Hx w Hw. destruct (pages_apart v w Hv (HP w Hw)); [by intros ->|lia..]. Qed.
Lemma sp_aligned s l pgdir tabs us kt v : space s l pgdir tabs us kt → v ∈ l ++ pages pgdir tabs us → v `mod` PGSIZE = 0.
Proof.
  intros Hsp [Hu|Hu]%elem_of_app; [|by apply (sp_page_ok _ _ _ _ _ _ Hsp v)]. destruct (sp_free _ _ _ _ _ _ Hsp) as (_ & _ & Hok). rewrite list.Forall_forall in Hok. by apply (Hok v).
Qed.
Lemma pt_in_pages l pgdir tabs us v : v ∈ l ++ ptpages pgdir tabs → v ∈ l ++ pages pgdir tabs us.
Proof. unfold pages. rewrite !elem_of_app. tauto. Qed.

(** Work on one address space leaves another as it is. *)
Lemma space_other s l pgdir tabs us kt s' l' P P' : space s l pgdir tabs us kt → free_pages kend s' l' → evolves P s P' s' →
  (∀ v, v ∈ l' → v ∈ P) → (∀ v, v ∈ P → v `mod` PGSIZE = 0) → (∀ v, v ∈ pages pgdir tabs us → v ∉ P) →
  space s' l' pgdir tabs us kt ∧ ∀ v x, v ∈ pages pgdir tabs us → v ≤ x < v + PGSIZE → km_mem s' x = km_mem s x.
Proof.
  intros Hsp Hf [_ HM] Hl HP Hd. assert (∀ v x, v ∈ pages pgdir tabs us → v ≤ x < v + PGSIZE → km_mem s' x = km_mem s x) as Hm.
  { intros v x Hv Hx. apply HM. apply (page_outside P v x); [|done|by apply Hd|done]. by apply (sp_page_ok _ _ _ _ _ _ Hsp v). }
  split; [|done]. apply (space_free s l); [done|done| |].
  - apply list.NoDup_app. destruct (sp_split _ _ _ _ _ _ Hsp) as (_ & _ & Hn). split; [apply Hf|]. split; [|done]. intros v H1 H2. by apply (Hd v H2), Hl.
  - intros v x Hv. apply Hm. unfold pages. apply elem_of_app. by left.
Qed.

(** ** Copying *)

(** An entry and its page, copied. *)
Definition copied m e m' e' : Prop := PTE_FLAGS e' = PTE_FLAGS e ∧ ∀ k, 0 ≤ k < PGSIZE → m' (frame e' + k) = m (frame e + k).

Lemma PTE_FLAGS_spec e : PTE_FLAGS e = e `mod` PGSIZE.
Proof. unfold PTE_FLAGS. change 0xFFF with (Z.ones 12). by rewrite Z.land_ones. Qed.
Lemma present_odd e : present e = true → Z.odd (PTE_FLAGS e) = true.
Proof.
  unfold present. intros Hp%truthy_true. change PTE_P with (Z.ones 1) in Hp. rewrite Z.land_ones in Hp by done. rewrite PTE_FLAGS_spec.
  apply not_false_is_true. intros Ho. apply Hp. rewrite <- Z.negb_even, negb_false_iff in Ho. apply Z.even_spec in Ho as [q Hq]. unfold PGSIZE in Hq. Z.to_euclidean_division_equations. lia.
Qed.
Lemma lor_odd x : Z.odd x = true → Z.lor x PTE_P = x.
Proof.
  intros Hx. apply Z.bits_inj'. intros n Hn. rewrite Z.lor_spec. destruct (decide (n = 0)) as [->|Hn0]; [by rewrite Z.bit0_odd, Hx|].
  change PTE_P with (2 ^ 0). rewrite Z.pow2_bits_false by lia. apply orb_false_r.
Qed.
Lemma flags_pte_of v e : page_ok kend v → present e = true → PTE_FLAGS (pte_of v (PTE_FLAGS e)) = PTE_FLAGS e.
Proof.
  intros Hv Hp. destruct (V2P_aligned kend v Hv) as [Ha _]. assert (0 ≤ PTE_FLAGS e < PGSIZE) as Hf by (rewrite PTE_FLAGS_spec; by apply Z.mod_pos_bound).
  unfold pte_of. rewrite <- Z.lor_assoc, lor_odd by (by apply present_odd). rewrite lor_aligned by done. rewrite PTE_FLAGS_spec at 1.
  rewrite <- Zplus_mod_idemp_l, Ha, Z.add_0_l. by apply Z.mod_small.
Qed.

(** A page taken from the free list and filled by the caller. *)
Lemma take_page s v l m' : free_pages kend s (v :: l) → (∀ x, x < v ∨ v + PGSIZE ≤ x → m' x = km_mem s x) →
  ∃ s1, kalloc s = Ok v s1 ∧ free_pages kend (set_mem m' s1) l ∧ km_mem s1 = km_mem s ∧ evolves (v :: l) s (v :: l) (set_mem m' s1).
Proof.
  intros Hf Hm. destruct (kalloc_spec kend Hend s (v :: l) Hf) as (s1 & R1 & F1 & E1). exists s1. split; [done|]. split; [|split; [done|]].
  - apply free_pages_set_mem; [done..|]. intros w Hw x Hx. rewrite E1. apply Hm. pose proof Hf as (_ & [Hn _]%list.NoDup_cons & Hok). rewrite list.Forall_forall in Hok.
    destruct (free_page_apart kend s1 l w v F1 Hw); [apply (Hok v), list_elem_of_here|by intros ->|unfold PGSIZE in *; lia..].
  - split; [done|]. intros x Hx. apply Hm, Hx, list_elem_of_here.
Qed.

(** A page is taken, filled by the caller and mapped. *)
Lemma map_filled s v l pgdir tabs us kt i m' perm : space s (v :: l) pgdir tabs us kt → upage i → us !! i = None → 0 ≤ perm < PGSIZE →
  (∀ x, x < v ∨ v + PGSIZE ≤ x → m' x = km_mem s x) →
  ∃ s1 r s3 l3 tabs3, kalloc s = Ok v s1 ∧ km_mem s1 = km_mem s ∧ mappages pgdir i PGSIZE (V2P v) perm (set_mem m' s1) = Ok r s3 ∧ extends (λ d, d = PDX i) tabs tabs3 ∧
  evolves (v :: l ++ pages pgdir tabs us) s (v :: l3 ++ ptpages pgdir tabs3 ++ frames us) s3 ∧ length (l3 ++ ptpages pgdir tabs3) = length (l ++ ptpages pgdir tabs) ∧
  (∀ va e, us !! va = Some e → ∀ x, frame e ≤ x < frame e + PGSIZE → km_mem s3 x = km_mem s x) ∧ (∀ x, v ≤ x < v + PGSIZE → km_mem s3 x = m' x) ∧
  ((r = -1 ∧ l = [] ∧ l3 = [] ∧ tabs3 = tabs ∧ tabs !! PDX i = None ∧ space s3 [] pgdir tabs us kt) ∨
   (r = 0 ∧ space s3 l3 pgdir tabs3 (<[i := pte_of v perm]> us) kt)).
Proof.
  intros Hc Hi Hn Hfl Hm'. pose proof (sp_free _ _ _ _ _ _ Hc) as Hf.
  pose proof (sp_aligned _ _ _ _ _ _ v Hc (list_elem_of_here _ _)) as Hval. pose proof (sp_nodup _ _ _ _ _ _ Hc) as Hnd. cbn [app] in Hnd. apply list.NoDup_cons in Hnd as [Hvn Hnd].
  assert (page_ok kend v) as Hvok by (destruct Hf as (_ & _ & Hok); by inversion_clear Hok).
  destruct (take_page s v l m' Hf Hm') as (s1 & R1 & F2 & E1 & V2). set (s2 := set_mem m' s1) in *.
  assert (∀ w x, w ∈ pages pgdir tabs us → w ≤ x < w + PGSIZE → km_mem s2 x = km_mem s x) as M2.
  { intros w x Hw Hx. apply V2. apply (page_outside (v :: l) w x); [by apply (sp_page_ok _ _ _ _ _ _ Hc w)| | |done].
    - intros u Hu. apply (sp_aligned _ _ _ _ _ _ u Hc). apply elem_of_app. by left.
    - intros H. destruct (sp_split _ _ _ _ _ _ Hc) as (_ & H1 & _). by apply (H1 w). }
  assert (space s2 l pgdir tabs us kt) as S2.
  { apply (space_free s (v :: l) pgdir tabs us kt); [done..|]. intros w x Hw. apply M2. unfold pages. apply elem_of_app. by left. }
  destruct (map_user s2 l pgdir tabs us kt i v perm S2 Hi Hn Hvok Hvn Hfl) as (r & s3 & l3 & tabs3 & R3 & T3 & V3 & Hr).
  assert (∀ w x, w `mod` PGSIZE = 0 → w ∉ l ++ ptpages pgdir tabs → w ≤ x < w + PGSIZE → km_mem s3 x = km_mem s2 x) as M3.
  { intros w x Hw Hwn Hx. apply V3. apply (page_outside _ w x Hw); [|done|done]. intros u Hu. apply (sp_aligned _ _ _ _ _ _ u S2). by apply pt_in_pages. }
  exists s1, r, s3, l3, tabs3. split; [done|]. split; [done|]. split; [done|]. split; [done|]. split; [|split; [|split; [|split]]].
  - apply (evolves_trans _ _ (v :: l ++ pages pgdir tabs us) s2).
    + apply (evolves_perm _ _ _ _ _ _ (evolves_frame (pages pgdir tabs us) _ _ _ _ V2)); solve_Permutation.
    + apply (evolves_perm _ _ _ _ _ _ (evolves_frame (v :: frames us) _ _ _ _ V3)); unfold pages; solve_Permutation.
  - by rewrite (proj1 V3).
  - intros va e0 H0 x Hx. destruct (user_frame _ _ _ _ _ _ _ _ S2 H0) as (H1 & H2 & H3 & _). rewrite (M3 (frame e0)); [|apply H1|rewrite elem_of_app; tauto|done].
    apply (M2 (frame e0)); [by eapply frame_in|done].
  - intros x Hx. rewrite (M3 v); [done|done|intros H; apply Hvn; by apply pt_in_pages|done].
  - destruct Hr as [(-> & -> & -> & -> & Hnt & S3)|(-> & S3)]; [left; by split_and!|by right].
Qed.

(** ... and given back when there is no page for the table. *)
Lemma free_taken s l v pgdir tabs us kt : space s l pgdir tabs us kt → page_ok kend v → v ∉ l ++ pages pgdir tabs us →
  ∃ s', kfree kend v s = Ok tt s' ∧ space s' (v :: l) pgdir tabs us kt ∧ (∀ x, x < v ∨ v + PGSIZE ≤ x → km_mem s' x = km_mem s x) ∧
  ∀ w x, w ∈ pages pgdir tabs us → w ≤ x < w + PGSIZE → km_mem s' x = km_mem s x.
Proof.
  intros Hsp Hv Hn. destruct (kfree_spec kend Hend s l v (sp_free _ _ _ _ _ _ Hsp) Hv) as (s' & R & F & M); [intros H; apply Hn, elem_of_app; by left|].
  assert (∀ w x, w ∈ pages pgdir tabs us → w ≤ x < w + PGSIZE → km_mem s' x = km_mem s x) as K.
  { intros w x Hw Hx. apply M. destruct (pages_apart w v); [by apply (sp_page_ok _ _ _ _ _ _ Hsp w)|apply Hv|intros ->; apply Hn, elem_of_app; by right|lia..]. }
  exists s'. split; [done|]. split; [|done]. apply (space_free s l pgdir tabs us kt); [done|done| |].
  - cbn [app]. apply list.NoDup_cons. split; [done|apply Hsp].
  - intros w x Hw. apply K. unfold pages. apply elem_of_app. by left.
Qed.

Section copy.
Context (pgdir : Z) (tabs us : gmap Z Z) (kt : Z → option Z) (d : Z) (kt2 : Z → option Z) (m0 : mem).

(** The parent's address space, unchanged, and the child's next to it. *)
Record both s l tabs2 us2 : Prop := {
  bo_parent : space s l pgdir tabs us kt;
  bo_child : space s l d tabs2 us2 kt2;
  bo_apart v : v ∈ pages pgdir tabs us → v ∉ l ++ pages d tabs2 us2;
  bo_mem v x : v ∈ pages pgdir tabs us → v ≤ x < v + PGSIZE → km_mem s x = m0 x }.

Lemma both_step s l tabs2 us2 s' l' tabs3 us3 : both s l tabs2 us2 → space s' l' d tabs3 us3 kt2 →
  evolves (l ++ pages d tabs2 us2) s (l' ++ pages d tabs3 us3) s' → both s' l' tabs3 us3.
Proof.
  intros [Hp Hc Ha Hm] Hs V. destruct (space_other s l pgdir tabs us kt s' l' _ _ Hp (sp_free _ _ _ _ _ _ Hs) V) as [H1 H2]; [| |done|].
  - intros v Hv. rewrite <- (proj1 V). apply elem_of_app. by left.
  - intros v. by apply (sp_aligned _ _ _ _ _ _ v Hc).
  - split; [done|done| |].
    + intros v Hv. rewrite (proj1 V). by apply Ha.
    + intros v x Hv Hx. by rewrite (H2 v x), (Hm v x).
Qed.

(** The frames of the child keep their contents. *)
Definition keeps us2 s us3 s' : Prop := ∀ va e, us2 !! va = Some e → us3 !! va = Some e ∧ ∀ x, frame e ≤ x < frame e + PGSIZE → km_mem s' x = km_mem s x.

Definition copy_body (pa flags i : Z) (k : M kmem bool) : M kmem bool :=
  let! mem := kalloc in
  if mem =? 0 then ret false else
  do! on_mem (λ m, memmove m mem (P2V pa) PGSIZE) in
  let! r := mappages d i PGSIZE (V2P mem) flags in
  if r <? 0 then
    do! kfree kend mem in
    ret false
  else k.

Lemma copy_step s l tabs2 us2 i e k ds : both s l tabs2 us2 → upage i → us !! i = Some e → us2 !! i = None → (∀ d, is_Some (tabs2 !! d) → d ∈ ds) → PDX i ∈ ds →
  ∃ ok s' l' tabs3 us3, copy_body (PTE_ADDR e) (PTE_FLAGS e) i k s = (if ok : bool then k s' else Ok false s') ∧ both s' l' tabs3 us3 ∧
  evolves (l ++ pages d tabs2 us2) s (l' ++ pages d tabs3 us3) s' ∧ keeps us2 s us3 s' ∧
  (∀ d, is_Some (tabs3 !! d) → d ∈ ds) ∧
  (if ok then ∃ e', us3 = <[i := e']> us2 ∧ copied m0 e (km_mem s') e' else us3 = us2 ∧ (length (l' ++ ptpages d tabs3) ≤ S (length ds))%nat).
Proof.
  intros Hb Hi He Hn Hds Hid. pose proof (bo_child _ _ _ _ Hb) as Hc. pose proof (sp_free _ _ _ _ _ _ Hc) as Hf. unfold copy_body. fold (frame e).
  destruct l as [|v l].
  { rewrite (bind_Ok _ _ _ _ _ (kalloc_spec kend Hend s [] Hf)). cbn [Z.eqb]. set (s1 := mkKmem _ _ _ _). exists false, s1, [], tabs2, us2.
    assert (space s1 [] d tabs2 us2 kt2) as S1.
    { apply (space_free s [] d tabs2 us2 kt2); [done| |apply Hc|done]. destruct Hf as (Hfl & _). cbn in Hfl. split_and!; [done|apply NoDup_nil_2|done]. }
    split; [done|]. split; [by eapply both_step|]. split; [done|]. split; [done|]. split; [done|]. split; [done|]. cbn. pose proof (tabs_in tabs2 ds Hds). lia. }
  pose proof (sp_nodup _ _ _ _ _ _ Hc) as Hnd. cbn [app] in Hnd. apply list.NoDup_cons in Hnd as [Hvn _].
  assert (page_ok kend v) as Hvok by (destruct Hf as (_ & _ & Hok); by inversion_clear Hok).
  assert (0 ≤ PTE_FLAGS e < PGSIZE) as Hfl by (rewrite PTE_FLAGS_spec; by apply Z.mod_pos_bound).
  set (m' := memmove (km_mem s) v (frame e) PGSIZE).
  assert (∀ x, m' x = blit (km_mem s) v (frame e) PGSIZE x) as Hm' by (by apply memmove_correct).
  destruct (map_filled s v l d tabs2 us2 kt2 i m' (PTE_FLAGS e) Hc Hi Hn Hfl) as (s1 & r & s3 & l3 & tabs3 & R1 & E1 & R3 & T3 & V03 & _ & K3 & C3 & Hr).
  { intros x Hx. rewrite Hm'. unfold blit. zcases; (done || lia). }
  mstep R1. rewrite (proj2 (Z.eqb_neq v 0)) by (destruct Hvok as (_ & ? & _); lia). unfold on_mem. rewrite bind_modify, E1. fold m'. mstep R3.
  destruct Hr as [(-> & -> & -> & -> & Hnt & S3)|(-> & S3)]; cbn [Z.ltb Z.compare].
  - destruct (free_taken s3 [] v d tabs2 us2 kt2 S3 Hvok Hvn) as (s4 & R4 & S4 & M4 & K4). mstep R4.
    assert (evolves ([v] ++ pages d tabs2 us2) s ([v] ++ pages d tabs2 us2) s4) as V4.
    { eapply evolves_trans; [exact V03|]. split; [done|]. intros x Hx. apply M4, Hx, list_elem_of_here. }
    exists false, s4, [v], tabs2, us2. split; [done|]. split; [by eapply both_step|]. split; [exact V4|]. split.
    + intros va e0 H0. split; [done|]. intros x Hx. rewrite (K4 (frame e0)); [by eapply K3|by eapply frame_in|done].
    + split; [done|]. split; [done|]. cbn [app length ptpages]. pose proof (tabs_less tabs2 ds _ Hds Hid Hnt). lia.
  - destruct (pte_of_spec v (PTE_FLAGS e) Hvok Hfl) as (_ & _ & Ef). set (e' := pte_of v (PTE_FLAGS e)) in *.
    exists true, s3, l3, tabs3, (<[i := e']> us2). assert (evolves ((v :: l) ++ pages d tabs2 us2) s (l3 ++ pages d tabs3 (<[i:=e']> us2)) s3) as V.
    { apply (evolves_perm _ _ _ _ _ _ V03); [done|]. unfold pages. rewrite new_frame, Ef by done. solve_Permutation. }
    split; [done|]. split; [by eapply both_step|]. split; [done|]. split.
    + intros va e0 H0. split; [rewrite lookup_insert_ne; [done|by intros ->; rewrite Hn in H0]|]. by eapply K3.
    + split; [by intros dd [H| ->]%(proj2 T3); [apply Hds|]|]. exists e'. split; [done|]. split.
      * apply flags_pte_of; [done|]. by apply (sp_udom _ _ _ _ _ _ (bo_parent _ _ _ _ Hb) i).
      * intros k0 Hk0. rewrite Ef, C3, Hm' by lia. unfold blit. rewrite (proj2 (Z.leb_le _ _)), (proj2 (Z.ltb_lt _ _)) by lia. cbn [andb].
        replace (frame e + (v + k0 - v)) with (frame e + k0) by lia. apply (bo_mem _ _ _ _ Hb (frame e)); [by eapply frame_in|lia].
Qed.

Context (sz : Z).
Hypothesis Hsz : 0 ≤ sz ≤ KERNBASE.
Hypothesis Hus : ∀ va, upage va → va < sz → is_Some (us !! va).
(** Where the tables of the child may be. *)
Context (ds : list Z).
Hypothesis Hds : ∀ va, upage va → va < sz → PDX va ∈ ds.

(** The pages from [i] on are copied. *)
Definition copied_from i us2 s : Prop :=
  (∀ va e, upage va → i ≤ va < sz → us !! va = Some e → ∃ e', us2 !! va = Some e' ∧ copied m0 e (km_mem s) e') ∧
  ∀ va, i ≤ va → sz ≤ va → us2 !! va = None.

Lemma copy_ok (fuel : nat) : ∀ i s l tabs2 us2, both s l tabs2 us2 → i `mod` PGSIZE = 0 → 0 ≤ i → sz - i ≤ (fuel - 1) * PGSIZE → (0 < fuel)%nat →
  (∀ va, i ≤ va → us2 !! va = None) → (∀ d, is_Some (tabs2 !! d) → d ∈ ds) →
  ∃ ok s' l' tabs3 us3, copy_loop kend fuel pgdir d i sz s = Ok ok s' ∧ both s' l' tabs3 us3 ∧
  evolves (l ++ pages d tabs2 us2) s (l' ++ pages d tabs3 us3) s' ∧ keeps us2 s us3 s' ∧ (∀ va, sz ≤ va → us3 !! va = us2 !! va) ∧
  (if ok : bool then copied_from i us3 s' else (length (l' ++ ptpages d tabs3) ≤ S (length ds))%nat ∧ ∃ va, upage va ∧ va < sz ∧ us3 !! va = None).
Proof.
  induction fuel as [|fuel IH]; intros i s l tabs2 us2 Hb Hi Hi0 Hf Hf0 Hn Htd; [lia|]. cbn [copy_loop]. destruct (Z.ltb_spec i sz) as [Hlt|Hge].
  2:{ exists true, s, l, tabs2, us2. split; [done|]. split; [done|]. split; [done|]. split; [done|]. split; [done|]. split; [intros va e _ Hva; lia|]. intros va Hva _. by apply Hn. }
  assert (upage i) as Hup by (split; [done|lia]). destruct (Hus i Hup Hlt) as [e He]. pose proof (bo_parent _ _ _ _ Hb) as Hp.
  rewrite (bind_Ok _ _ _ _ _ (walk_look _ _ _ _ _ _ i Hp)). destruct (tabs !! PDX i) as [t|] eqn:Et; [|by destruct (no_table _ _ _ _ _ _ _ _ Hp He)].
  destruct (look_user _ _ _ _ _ _ i t Hp Hup Et) as [Hu Hnz]. rewrite (proj2 (Z.eqb_neq _ _) Hnz). unfold load32. rewrite bind_gets. rewrite He in Hu. cbn zeta in Hu.
  change (truthy (Z.land (ld32 (km_mem s) (t + 4 * PTX i)) PTE_P)) with (present (ld32 (km_mem s) (t + 4 * PTX i))).
  destruct (present (ld32 (km_mem s) (t + 4 * PTX i))); [|done]. injection Hu as <-. cbn [negb].
  assert (u32 (i + PGSIZE) = i + PGSIZE) as -> by (apply u32_small; unfold is_u32, PGSIZE, KERNBASE in *; lia).
  assert ((i + PGSIZE) `mod` PGSIZE = 0) as Hi' by (rewrite <- Zplus_mod_idemp_r, Z_mod_same_full, Z.add_0_r; done).
  destruct (copy_step s l tabs2 us2 i e (copy_loop kend fuel pgdir d (i + PGSIZE) sz) ds Hb Hup He (Hn i ltac:(lia)) Htd (Hds i Hup Hlt)) as (ok & s1 & l1 & tabs3 & us3 & R1 & B1 & V1 & K1 & T1 & Hok).
  unfold copy_body in R1. rewrite R1. clear R1. destruct ok.
  2:{ destruct Hok as [-> Hlen]. exists false, s1, l1, tabs3, us2. split; [done|]. split; [done|]. split; [done|]. split; [done|]. split; [done|]. split; [done|]. exists i. split; [done|]. split; [lia|apply Hn; lia]. }
  destruct Hok as (e' & -> & Hc).
  destruct (IH (i + PGSIZE) s1 l1 tabs3 _ B1 Hi') as (ok & s2 & l2 & tabs4 & us4 & R2 & B2 & V2 & K2 & Hh & Hok); [unfold PGSIZE; lia|unfold PGSIZE in *; lia|unfold PGSIZE in *; lia| |done|].
  { intros va Hva. rewrite lookup_insert_ne by (unfold PGSIZE in *; lia). apply Hn. unfold PGSIZE in *. lia. }
  exists ok, s2, l2, tabs4, us4. split; [done|]. split; [done|]. split; [by eapply evolves_trans|]. split.
  { intros va e0 H0. destruct (K1 va e0 H0) as [H1 H2]. destruct (K2 va e0 H1) as [H3 H4]. split; [done|]. intros x Hx. by rewrite H4, H2. }
  split; [intros va Hva; rewrite Hh, lookup_insert_ne by lia; done|].
  destruct ok; [|done]. destruct Hok as [H1 H2]. destruct (K2 i e' ltac:(by rewrite lookup_insert_eq)) as [H3 H4]. split.
  - intros va e0 Hva Hr H0. destruct (decide (va = i)) as [->|Hne].
    + exists e'. split; [done|]. rewrite He in H0. injection H0 as <-. destruct Hc as [C1 C2]. split; [done|]. intros k Hk. rewrite H4 by lia. by apply C2.
    + apply (H1 va e0); [done| |done]. destruct Hva as [Hm _]. unfold PGSIZE in *. Z.to_euclidean_division_equations. lia.
  - intros va Hva Hs. rewrite Hh by done. rewrite lookup_insert_ne by lia. by apply Hn.
Qed.
End copy.

(** The number of pages of [sz] bytes. *)
Definition npages (sz : Z) : nat := Z.to_nat ((sz + PGSIZE - 1) / PGSIZE).
Lemma frames_count s l pgdir tabs us kt sz va0 : space s l pgdir tabs us kt → (∀ va e, us !! va = Some e → va < sz) → upage va0 → va0 < sz → us !! va0 = None →
  (S (length (frames us)) ≤ npages sz)%nat.
Proof.
  intros Hsp Hs H0 H1 Hn. unfold frames. rewrite length_fmap, <- (length_fmap fst). change (S (length ((map_to_list us).*1))) with (length (va0 :: (map_to_list us).*1)).
  transitivity (length ((λ k, 4096 * k) <$> seqZ 0 ((sz + PGSIZE - 1) / PGSIZE))); [|rewrite length_fmap, length_seqZ; unfold npages; lia].
  apply submseteq_length, NoDup_submseteq.
  - apply list.NoDup_cons. split; [|apply NoDup_fst_map_to_list]. rewrite list_elem_of_fmap. intros ([x' t] & -> & H%elem_of_map_to_list). cbn in Hn. by rewrite Hn in H.
  - assert (∀ va, upage va → va < sz → va ∈ (λ k, 4096 * k) <$> seqZ 0 ((sz + PGSIZE - 1) / PGSIZE)) as Hin.
    { intros va [Hm Hr] Hv. apply list_elem_of_fmap. exists (va / 4096). unfold PGSIZE in *. split; [|apply elem_of_seqZ]; Z.to_euclidean_division_equations; lia. }
    intros x [->|Hx]%elem_of_cons; [by apply Hin|]. apply list_elem_of_fmap in Hx as ([x' t] & -> & H%elem_of_map_to_list). cbn.
    apply Hin; [by apply (sp_udom _ _ _ _ _ _ Hsp x' t)|by eapply Hs].
Qed.

(** The number of page tables of [sz] bytes. *)
Definition ndirs (sz : Z) : nat := Z.to_nat ((sz + 2 ^ 22 - 1) / 2 ^ 22).
Lemma udirs_in sz va : upage va → va < sz → PDX va ∈ seqZ 0 ((sz + 2 ^ 22 - 1) / 2 ^ 22).
Proof. intros [_ Hva] Hlt. apply elem_of_seqZ. rewrite PDX_div. unfold KERNBASE in *. Z.to_euclidean_division_equations. lia. Qed.

Lemma copyuvm_spec kdata s l pgdir tabs us kt sz : kdata `mod` PGSIZE = 0 ∧ KERNLINK < kdata < KERNBASE + PHYSTOP →
  space s l pgdir tabs us kt → 0 ≤ sz ≤ KERNBASE → (∀ va, upage va → va < sz → is_Some (us !! va)) →
  ∃ r s' l', copyuvm kend kdata pgdir sz s = Ok r s' ∧ space s' l' pgdir tabs us kt ∧ (∀ x, outside l x → km_mem s' x = km_mem s x) ∧
  ((r = 0 ∧ l' ≡ₚ l ∧ (length l ≤ 64 + ndirs sz + npages sz)%nat) ∨
   (r ≠ 0 ∧ ∃ tabs' us', space s' l' r tabs' us' (klook (kmap kdata)) ∧ l' ++ pages r tabs' us' ≡ₚ l ∧
     (∀ va e, upage va → va < sz → us !! va = Some e → ∃ e', us' !! va = Some e' ∧ copied (km_mem s) e (km_mem s') e') ∧
     ∀ va, sz ≤ va → us' !! va = None)).
Proof.
  intros Hdata Hsp Hsz Hus. unfold copyuvm. destruct (setupkvm_spec kdata Hdata s l (sp_free _ _ _ _ _ _ Hsp)) as (d & s1 & l1 & R1 & Hd). mstep R1.
  destruct (sp_split _ _ _ _ _ _ Hsp) as (_ & Hsep & _). assert (∀ v, v ∈ pages pgdir tabs us → v ∉ l) as Hsep' by (intros v H1 H2; by apply (Hsep v)).
  assert (∀ v, v ∈ l → v `mod` PGSIZE = 0) as Hal by (intros v Hv; apply (sp_aligned _ _ _ _ _ _ v Hsp), elem_of_app; by left).
  destruct Hd as [(-> & F1 & V1 & Hlen)|(Hnz & tabs1 & S1 & V1 & Htd)].
  { cbn [Z.eqb]. exists 0, s1, l1. split; [done|]. destruct (space_other s l pgdir tabs us kt s1 l1 l l1 Hsp F1 V1) as [H1 H2]; [intros v Hv; by rewrite <- (proj1 V1)|done|done|].
    split; [done|]. split; [apply V1|]. left. split; [done|]. split; [apply V1|lia]. }
  rewrite (proj2 (Z.eqb_neq _ _) Hnz).
  assert (pages d tabs1 ∅ = ptpages d tabs1) as Ep by (unfold pages, frames; by rewrite map_to_list_empty, app_nil_r).
  assert (both pgdir tabs us kt d (klook (kmap kdata)) (km_mem s) s1 l1 tabs1 ∅) as B1.
  { destruct (space_other s l pgdir tabs us kt s1 l1 _ _ Hsp (sp_free _ _ _ _ _ _ S1) V1) as [H1 H2]; [intros v Hv; rewrite <- (proj1 V1); apply elem_of_app; by left|done|done|].
    split; [done|done| |done]. intros v Hv. rewrite Ep, (proj1 V1). by apply Hsep'. }
  set (ds := kdirs ++ seqZ 0 ((sz + 2 ^ 22 - 1) / 2 ^ 22)).
  assert (length ds = (64 + ndirs sz)%nat) as Lds by (unfold ds, ndirs; rewrite length_app, length_seqZ; done).
  destruct (copy_ok pgdir tabs us kt d _ (km_mem s) sz Hsz Hus ds ltac:(intros va H1 H2; apply elem_of_app; right; by apply udirs_in) (S (Z.to_nat (sz / PGSIZE + 1))) 0 s1 l1 tabs1 ∅ B1) as (ok & s2 & l2 & tabs2 & us2 & R2 & B2 & V2 & _ & Hh & Hok);
    [done|done| |lia|done|intros dd Hdd; apply elem_of_app; left; by apply Htd|].
  { unfold PGSIZE. Z.to_euclidean_division_equations. lia. }
  mstep R2. rewrite Ep in V2. assert (evolves l s (l2 ++ pages d tabs2 us2) s2) as V by (by eapply evolves_trans). pose proof (bo_child _ _ _ _ _ _ _ _ _ _ _ B2) as S2.
  destruct ok.
  - exists d, s2, l2. split; [done|]. split; [apply B2|]. split; [apply V|]. right. split; [done|]. exists tabs2, us2. destruct Hok as [H1 H2]. split; [done|]. split; [apply V|]. split.
    + intros va e Hva Hv He. apply (H1 va e); [done|destruct Hva; lia|done].
    + intros va Hva. apply H2; lia.
  - destruct Hok as [Hlen (va0 & Hva1 & Hva2 & Hva3)]. destruct (freevm_spec _ _ _ _ _ _ S2) as (s3 & l3 & R3 & F3 & V3). mstep R3.
    assert (evolves l s l3 s3) as V' by (by eapply evolves_trans).
    destruct (space_other s l pgdir tabs us kt s3 l3 _ _ Hsp F3 V') as [H1 H2]; [intros v Hv; by rewrite <- (proj1 V')|done|done|].
    exists 0, s3, l3. split; [done|]. split; [done|]. split; [apply V'|]. left. split; [done|]. split; [apply V'|].
    assert (∀ va e, us2 !! va = Some e → va < sz) as Hb by (intros va e He; destruct (decide (va < sz)); [done|]; by rewrite Hh in He by lia).
    pose proof (frames_count _ _ _ _ _ _ sz va0 S2 Hb Hva1 Hva2 Hva3). rewrite <- (proj1 V). unfold pages. rewrite app_assoc, length_app. lia.
Qed.

(** ** Growing *)

(** A page that is zero, with the given flags. *)
Definition zeroed e s : Prop := PTE_FLAGS e = Z.lor PTE_P (Z.lor PTE_W PTE_U) ∧ ∀ k, 0 ≤ k < PGSIZE → km_mem s (frame e + k) = 0.

Definition alloc_body pgdir a (oldsz newsz : Z) (k : M kmem bool) : M kmem bool :=
  let! mem := kalloc in
  if mem =? 0 then
    do! deallocuvm kend pgdir newsz oldsz in
    ret false
  else
  do! on_mem (λ m, memset m mem 0 PGSIZE) in
  let! r := mappages pgdir a PGSIZE (V2P mem) (Z.lor PTE_W PTE_U) in
  if r <? 0 then
    do! deallocuvm kend pgdir newsz oldsz in
    do! kfree kend mem in
    ret false
  else k.

(** The pages the failing call has mapped are given back. *)
Definition undone s us s' us' oldsz newsz : Prop :=
  us' = except (PGROUNDUP oldsz) newsz us ∧ ∀ va e, us' !! va = Some e → ∀ x, frame e ≤ x < frame e + PGSIZE → km_mem s' x = km_mem s x.

Lemma dealloc_undone s l pgdir tabs us kt oldsz newsz : space s l pgdir tabs us kt → newsz ≤ KERNBASE → 0 ≤ oldsz < newsz →
  ∃ s' l', deallocuvm kend pgdir newsz oldsz s = Ok oldsz s' ∧ space s' l' pgdir tabs (except (PGROUNDUP oldsz) newsz us) kt ∧
  evolves (l ++ pages pgdir tabs us) s (l' ++ pages pgdir tabs (except (PGROUNDUP oldsz) newsz us)) s' ∧ undone s us s' (except (PGROUNDUP oldsz) newsz us) oldsz newsz.
Proof.
  intros Hsp Hn Ho. destruct (deallocuvm_spec s l pgdir tabs us kt newsz oldsz Hsp Hn Ho) as (s' & l' & R & S' & V). exists s', l'. split; [done|]. split; [done|].
  set (us' := except _ _ us) in *. set (gone := between _ _ us) in *. pose proof (frames_split (PGROUNDUP oldsz) newsz us) as Ef. fold us' gone in Ef. split.
  - apply (evolves_perm _ _ _ _ _ _ (evolves_frame (frames us') _ _ _ _ V)); unfold pages; rewrite ?Ef; solve_Permutation.
  - split; [done|]. intros va e He x Hx. assert (us !! va = Some e) as He' by (by apply map_lookup_filter_Some in He as [? _]).
    apply V. apply (page_outside _ (frame e) x); [by apply (user_frame _ _ _ _ _ _ _ _ Hsp He')| | |done].
    + intros w Hw. apply (sp_aligned _ _ _ _ _ _ w Hsp). revert Hw. unfold pages. rewrite Ef, !elem_of_app. tauto.
    + destruct (user_frame _ _ _ _ _ _ _ _ Hsp He') as (_ & H1 & H2 & _). unfold pages. rewrite !elem_of_app. intros [H|[H|H]]; [done|done|].
      unfold frames in H. apply list_elem_of_fmap in H as ([va' e'] & E & H%elem_of_map_to_list). cbn in E. apply map_lookup_filter_Some in H as [H3 H4].
      assert (va = va') as <- by (by eapply (sp_frame_inj _ _ _ _ _ _ Hsp)). apply map_lookup_filter_Some in He as [_ He]. done.
Qed.

Lemma alloc_step s l pgdir tabs us kt a oldsz newsz k : space s l pgdir tabs us kt → upage a → us !! a = None → 0 ≤ oldsz < newsz → PGROUNDUP oldsz ≤ a < newsz → newsz ≤ KERNBASE →
  ∃ ok s' l' tabs' us', alloc_body pgdir a oldsz newsz k s = (if ok : bool then k s' else Ok false s') ∧ space s' l' pgdir tabs' us' kt ∧ tabs ⊆ tabs' ∧
  evolves (l ++ pages pgdir tabs us) s (l' ++ pages pgdir tabs' us') s' ∧
  (if ok then (∃ e', us' = <[a := e']> us ∧ zeroed e' s') ∧ keeps us s us' s' ∧ length (l ++ ptpages pgdir tabs) = S (length (l' ++ ptpages pgdir tabs'))
   else undone s us s' us' oldsz newsz ∧ (length (l ++ ptpages pgdir tabs) ≤ 1025)%nat).
Proof.
  intros Hc Ha Hn Ho Hr Hk. pose proof (sp_free _ _ _ _ _ _ Hc) as Hf. unfold alloc_body.
  destruct (PGROUNDUP_spec oldsz) as [_ HR]; [lia|unfold PGSIZE, KERNBASE in *; lia|].
  destruct l as [|v l].
  { rewrite (bind_Ok _ _ _ _ _ (kalloc_spec kend Hend s [] Hf)). cbn [Z.eqb]. set (s1 := mkKmem _ _ _ _).
    assert (space s1 [] pgdir tabs us kt) as S1.
    { apply (space_free s [] pgdir tabs us kt); [done| |apply Hc|done]. destruct Hf as (Hfl & _). cbn in Hfl. split_and!; [done|apply NoDup_nil_2|done]. }
    destruct (dealloc_undone s1 [] pgdir tabs us kt oldsz newsz S1 Hk ltac:(lia)) as (s2 & l2 & R2 & S2 & V2 & U2). mstep R2.
    eexists false, s2, l2, tabs, _. split; [done|]. split; [exact S2|]. split; [done|]. split; [exact V2|]. split; [exact U2|]. cbn. pose proof (tabs_in tabs (seqZ 0 1024) (λ d, all_dirs _ _ _ _ _ _ d Hc)) as Hl. rewrite length_seqZ in Hl. lia. }
  pose proof (sp_nodup _ _ _ _ _ _ Hc) as Hnd. cbn [app] in Hnd. apply list.NoDup_cons in Hnd as [Hvn _].
  assert (page_ok kend v) as Hvok by (destruct Hf as (_ & _ & Hok); by inversion_clear Hok).
  set (m' := memset (km_mem s) v 0 PGSIZE).
  destruct (map_filled s v l pgdir tabs us kt a m' (Z.lor PTE_W PTE_U) Hc Ha Hn ltac:(done) (memset_in_page _ _ _)) as (s1 & r & s3 & l3 & tabs3 & R1 & E1 & R3 & T3 & V03 & L3 & K3 & C3 & Hr3).
  mstep R1. rewrite (proj2 (Z.eqb_neq v 0)) by (destruct Hvok as (_ & ? & _); lia). unfold on_mem. rewrite bind_modify, E1. fold m'. mstep R3.
  destruct Hr3 as [(-> & -> & -> & -> & Hnt & S3)|(-> & S3)]; cbn [Z.ltb Z.compare].
  - destruct (dealloc_undone s3 [] pgdir tabs us kt oldsz newsz S3 Hk ltac:(lia)) as (s4 & l4 & R4 & S4 & V4 & U4). mstep R4.
    destruct (free_taken s4 l4 v pgdir tabs _ kt S4 Hvok) as (s5 & R5 & S5 & M5 & K5); [by rewrite (proj1 V4)|]. mstep R5.
    eexists false, s5, (v :: l4), tabs, _. split; [done|]. split; [exact S5|]. split; [done|]. split; [|split].
    + apply (evolves_trans _ _ ([v] ++ pages pgdir tabs us) s3); [exact V03|]. eapply evolves_trans; [exact (evolves_frame [v] _ _ _ _ V4)|].
      split; [done|]. intros x Hx. apply M5, Hx, list_elem_of_here.
    + destruct U4 as [_ U4]. split; [done|]. intros va e He x Hx. rewrite (K5 (frame e)); [|by eapply frame_in|done]. rewrite (U4 va e) by done.
      eapply K3; [|exact Hx]. by apply map_lookup_filter_Some in He as [? _].
    + cbn [app length ptpages]. pose proof (tabs_less tabs (seqZ 0 1024) (PDX a) (λ d, all_dirs _ _ _ _ _ _ d Hc)) as Hl. rewrite length_seqZ in Hl. pose proof (PDX_range a). rewrite elem_of_seqZ in Hl. specialize (Hl ltac:(lia) Hnt). lia.
  - destruct (pte_of_spec v (Z.lor PTE_W PTE_U) Hvok ltac:(done)) as (_ & _ & Ef). set (e' := pte_of v _) in *.
    exists true, s3, l3, tabs3, (<[a := e']> us). split; [done|]. split; [done|]. split; [apply T3|]. split; [|split; [|split]].
    + apply (evolves_perm _ _ _ _ _ _ V03); [done|]. unfold pages. rewrite new_frame, Ef by done. solve_Permutation.
    + exists e'. split; [done|]. split.
      * unfold e', pte_of. destruct (V2P_aligned kend v Hvok) as [Hal _]. rewrite <- Z.lor_assoc, lor_aligned by done. rewrite PTE_FLAGS_spec, <- Zplus_mod_idemp_l, Hal. done.
      * intros k0 Hk0. rewrite Ef, C3 by lia. unfold m'. rewrite memset_correct by done. rewrite (proj2 (Z.leb_le _ _)), (proj2 (Z.ltb_lt _ _)) by lia. done.
    + intros va e0 H0. split; [rewrite lookup_insert_ne; [done|by intros ->; rewrite Hn in H0]|]. by eapply K3.
    + cbn [app length]. by rewrite L3.
Qed.

(** The pages from [a] to [newsz] are there and zero, the others as before. *)
Definition grown s us s' us' a newsz : Prop :=
  (∀ va, ¬ (a ≤ va < newsz) → us' !! va = us !! va) ∧ (∀ va, upage va → a ≤ va < newsz → ∃ e, us' !! va = Some e ∧ zeroed e s') ∧ keeps us s us' s'.

Lemma alloc_ok (fuel : nat) oldsz newsz : 0 ≤ oldsz → newsz < KERNBASE → oldsz < KERNBASE → ∀ a s l pgdir tabs us kt, space s l pgdir tabs us kt → a `mod` PGSIZE = 0 → PGROUNDUP oldsz ≤ a →
  newsz - a ≤ (fuel - 1) * PGSIZE → (0 < fuel)%nat → (∀ va, a ≤ va < newsz → us !! va = None) →
  ∃ ok s' l' tabs' us', alloc_loop kend fuel pgdir a oldsz newsz s = Ok ok s' ∧ space s' l' pgdir tabs' us' kt ∧ tabs ⊆ tabs' ∧
  evolves (l ++ pages pgdir tabs us) s (l' ++ pages pgdir tabs' us') s' ∧
  (if ok : bool then grown s us s' us' a newsz else undone s us s' us' oldsz newsz ∧ (length (l ++ ptpages pgdir tabs) ≤ 1024 + npages (newsz - a))%nat).
Proof.
  intros Ho Hn Hok. destruct (PGROUNDUP_spec oldsz) as [_ HR]; [lia|unfold PGSIZE, KERNBASE in *; lia|].
  induction fuel as [|fuel IH]; intros a s l pgdir tabs us kt Hsp Ha Ha0 Hf Hf0 Hnone; [lia|]. cbn [alloc_loop]. destruct (Z.ltb_spec a newsz) as [Hlt|Hge].
  2:{ exists true, s, l, tabs, us. split; [done|]. split; [done|]. split; [done|]. split; [done|]. split; [done|]. split; [intros; lia|done]. }
  assert (upage a) as Hup by (split; [done|lia]). assert (us !! a = None) as Hna by (apply Hnone; lia).
  assert (u32 (a + PGSIZE) = a + PGSIZE) as -> by (apply u32_small; unfold is_u32, PGSIZE, KERNBASE in *; lia).
  assert ((a + PGSIZE) `mod` PGSIZE = 0) as Ha' by (rewrite <- Zplus_mod_idemp_r, Z_mod_same_full, Z.add_0_r; done).
  assert (npages (newsz - a) = S (npages (newsz - (a + PGSIZE)))) as Enp by (unfold npages, PGSIZE; Z.to_euclidean_division_equations; lia).
  destruct (alloc_step s l pgdir tabs us kt a oldsz newsz (alloc_loop kend fuel pgdir (a + PGSIZE) oldsz newsz) Hsp Hup Hna ltac:(lia) ltac:(lia) ltac:(lia))
    as (ok & s1 & l1 & tabs1 & us1 & R1 & S1 & T1 & V1 & H1).
  unfold alloc_body in R1. rewrite R1. clear R1. destruct ok.
  2:{ exists false, s1, l1, tabs1, us1. split; [done|]. split; [done|]. split; [done|]. split; [done|]. destruct H1 as [? ?]. split; [done|]. lia. }
  destruct H1 as ((e' & -> & Hz) & K1 & L1).
  destruct (IH (a + PGSIZE) s1 l1 pgdir tabs1 _ kt S1 Ha') as (ok & s2 & l2 & tabs2 & us2 & R2 & S2 & T2 & V2 & H2);
    [unfold PGSIZE; lia|unfold PGSIZE in *; lia|unfold PGSIZE in *; lia|intros va Hva; rewrite lookup_insert_ne by (unfold PGSIZE in *; lia); apply Hnone; unfold PGSIZE in *; lia|].
  exists ok, s2, l2, tabs2, us2. split; [done|]. split; [done|]. split; [by etrans|]. split; [by eapply evolves_trans|]. destruct ok.
  - destruct H2 as (G1 & G2 & G3). split; [|split].
    + intros va Hva. rewrite G1, lookup_insert_ne by (unfold PGSIZE in *; lia). done.
    + intros va Hva Hr. destruct (decide (va = a)) as [->|Hne].
      * destruct (G3 a e' ltac:(by rewrite lookup_insert_eq)) as [H3 H4]. exists e'. split; [done|]. destruct Hz as [Z1 Z2]. split; [done|]. intros k Hk. rewrite H4 by lia. by apply Z2.
      * apply G2; [done|]. destruct Hva as [Hm _]. unfold PGSIZE in *. Z.to_euclidean_division_equations. lia.
    + intros va e0 H0. destruct (K1 va e0 H0) as [H3 H4]. destruct (G3 va e0 H3) as [H5 H6]. split; [done|]. intros x Hx. by rewrite H6, H4.
  - destruct H2 as [[U1 U2] L2]. split; [|lia]. split.
    + rewrite U1. apply map_eq. intros k. apply option_eq. intros x. unfold except. rewrite !map_lookup_filter_Some. cbn. destruct (decide (a = k)) as [<-|Hne]; [split; intros [_ H]; lia|].
      by rewrite lookup_insert_ne by done.
    + intros va e0 H0 x Hx. rewrite (U2 va e0 H0 x Hx). rewrite U1 in H0. apply map_lookup_filter_Some in H0 as [H0 Hv]. cbn in Hv.
      rewrite lookup_insert_ne in H0 by lia. by apply (K1 va e0 H0).
Qed.

Lemma allocuvm_spec s l pgdir tabs us kt oldsz newsz : space s l pgdir tabs us kt → 0 ≤ oldsz ≤ newsz → newsz < KERNBASE →
  (∀ va, PGROUNDUP oldsz ≤ va < newsz → us !! va = None) →
  ∃ r s' l' tabs' us', allocuvm kend pgdir oldsz newsz s = Ok r s' ∧ space s' l' pgdir tabs' us' kt ∧ tabs ⊆ tabs' ∧
  evolves (l ++ pages pgdir tabs us) s (l' ++ pages pgdir tabs' us') s' ∧
  ((r = newsz ∧ grown s us s' us' (PGROUNDUP oldsz) newsz) ∨
   (r = 0 ∧ us' = us ∧ (∀ va e, us !! va = Some e → ∀ x, frame e ≤ x < frame e + PGSIZE → km_mem s' x = km_mem s x) ∧ (length l < 1024 + npages newsz)%nat)).
Proof.
  intros Hsp Ho Hn Hnone. unfold allocuvm. rewrite (proj2 (Z.leb_gt _ _)), (proj2 (Z.ltb_ge _ _)) by lia.
  destruct (PGROUNDUP_spec oldsz) as [HR0 HR]; [lia|unfold PGSIZE, KERNBASE in *; lia|].
  destruct (alloc_ok (S (Z.to_nat (newsz / PGSIZE + 1))) oldsz newsz ltac:(lia) Hn ltac:(lia) (PGROUNDUP oldsz) s l pgdir tabs us kt Hsp HR0 ltac:(lia))
    as (ok & s' & l' & tabs' & us' & R & S' & T & V & H); [unfold PGSIZE in *; Z.to_euclidean_division_equations; lia|lia|done|].
  mstep R. eexists _, s', l', tabs', us'. split; [done|]. split; [done|]. split; [done|]. split; [done|]. destruct ok; [by left|right].
  destruct H as [[U1 U2] L]. assert (us' = us) as E.
  { rewrite U1. apply map_filter_id. intros k x Hx. cbn. intros Hk. by rewrite Hnone in Hx. }
  split; [done|]. split; [done|]. split; [intros va e He; apply (U2 va e); by rewrite E|]. rewrite length_app in L. cbn [ptpages length] in L.
  assert (npages (newsz - PGROUNDUP oldsz) ≤ npages newsz)%nat by (unfold npages; (pose proof (Z.div_le_mono (newsz - PGROUNDUP oldsz + PGSIZE - 1) (newsz + PGSIZE - 1) PGSIZE); unfold PGSIZE in *; lia)). lia.
Qed.
End space.
