(* ===== verification/VmUser.v ===== *)
(** * The memory of a user program

    What a program reads at its addresses ([uread], the way the processor
    translates them), and the functions of vm.c that the kernel reaches it with:
    copyout, uva2ka, clearpteu and inituvm. *)
From S2P Require Import Prelude Str Kalloc Vm VmSpace.

Definition user (e : Z) : bool := truthy (Z.land e PTE_U).

(** The byte a user program reads at [va]: the page must be there, and it must be
    the user's. *)
Definition uread (m : mem) (pgdir va : Z) : option Z :=
  e ← translate m pgdir (PGROUNDDOWN va);
  if user e then Some (m (frame e + va `mod` PGSIZE)) else None.

Lemma down_upage va : 0 ≤ va < KERNBASE → upage (PGROUNDDOWN va).
Proof. intros Hva. rewrite PGROUNDDOWN_spec. unfold upage, PGSIZE, KERNBASE in *. split; Z.to_euclidean_division_equations; lia. Qed.

(** The user bit is one of the flags. *)
Lemma user_flags e : user e = user (PTE_FLAGS e).
Proof. unfold user, PTE_FLAGS. rewrite <- Z.land_assoc. done. Qed.

Lemma mem_put_spec l : ∀ m a x, mem_put m a l x = if decide (a ≤ x < a + length l) then nth (Z.to_nat (x - a)) l 0 else m x.
Proof.
  induction l as [|b l IH]; intros m a x; cbn [mem_put length]; [case_decide; [lia|done]|]. rewrite IH. repeat case_decide; try lia.
  - replace (Z.to_nat (x - a)) with (S (Z.to_nat (x - (a + 1)))) by lia. done.
  - unfold st8. destruct (Z.eqb_spec x a) as [->|]; [|lia]. by rewrite Z.sub_diag.
  - unfold st8. destruct (Z.eqb_spec x a); [lia|done].
Qed.

Section user.
Context (kend : Z).
Hypothesis Hkend : KERNBASE < kend.
Implicit Types (s : kmem) (l : list Z) (pgdir va e : Z) (tabs us : gmap Z Z) (kt : Z → option Z) (m : mem).

Lemma uread_space s l pgdir tabs us kt va : space kend s l pgdir tabs us kt → 0 ≤ va < KERNBASE →
  uread (km_mem s) pgdir va = e ← us !! PGROUNDDOWN va; if user e then Some (km_mem s (frame e + va `mod` PGSIZE)) else None.
Proof. intros Hsp Hva. unfold uread. by rewrite (sp_user _ _ _ _ _ _ _ Hsp) by (by apply down_upage). Qed.

(** ** Writing into a page of the user *)

(** Only the bytes of one page change. *)
Lemma write_frame s l pgdir tabs us kt p e m' : space kend s l pgdir tabs us kt → us !! p = Some e →
  (∀ x, x < frame e ∨ frame e + PGSIZE ≤ x → m' x = km_mem s x) →
  space kend (set_mem m' s) l pgdir tabs us kt ∧
  (∀ p' e' x, us !! p' = Some e' → p' ≠ p → frame e' ≤ x < frame e' + PGSIZE → m' x = km_mem s x).
Proof.
  intros Hs He Hm. destruct (user_frame kend Hkend _ _ _ _ _ _ _ _ Hs He) as (H1 & H2 & H3 & _).
  assert (∀ v x, v ∈ l ++ pages pgdir tabs us → v ≠ frame e → v ≤ x < v + PGSIZE → m' x = km_mem s x) as Hm'.
  { intros v x Hv Hne Hx. apply Hm. apply (sp_disjoint _ _ _ _ _ _ _ Hs v (frame e) x); [done|apply elem_of_app; right; by eapply frame_in|done|done]. }
  split.
  - apply (space_free kend s l); [done| |apply Hs|].
    + apply free_pages_set_mem; [unfold KERNBASE in *; lia|apply Hs|]. intros v Hv x Hx. apply (Hm' v); [apply elem_of_app; by left|by intros ->|unfold PGSIZE; lia].
    + intros v x Hv. apply Hm'; [apply elem_of_app; right; unfold pages; apply elem_of_app; by left|by intros ->].
  - intros p' e' x He' Hne Hx. apply (Hm' (frame e')); [apply elem_of_app; right; by eapply frame_in| |done]. intros E. apply Hne. by eapply (sp_frame_inj _ _ _ _ _ _ _ Hs).
Qed.

(** Bytes stored at [va], all in one page. *)
Lemma put_page s l pgdir tabs us kt va e (buf : bytes) : space kend s l pgdir tabs us kt → 0 ≤ va < KERNBASE → us !! PGROUNDDOWN va = Some e → user e = true →
  va `mod` PGSIZE + length buf ≤ PGSIZE →
  let s' := set_mem (mem_put (km_mem s) (frame e + va `mod` PGSIZE) buf) s in
  space kend s' l pgdir tabs us kt ∧
  ∀ a, 0 ≤ a < KERNBASE → uread (km_mem s') pgdir a = if decide (va ≤ a < va + length buf) then Some (nth (Z.to_nat (a - va)) buf 0) else uread (km_mem s) pgdir a.
Proof.
  intros Hs Hva He Hu Hlen s'. pose proof (Z.mod_pos_bound va PGSIZE ltac:(done)) as Hmod. pose proof (PGROUNDDOWN_spec va) as Ed.
  destruct (write_frame s l pgdir tabs us kt (PGROUNDDOWN va) e (mem_put (km_mem s) (frame e + va `mod` PGSIZE) buf) Hs He) as [S' Hoth].
  { intros x Hx. rewrite mem_put_spec. case_decide; [lia|done]. }
  split; [done|]. intros a Ha. unfold s'. rewrite (uread_space _ _ _ _ _ _ _ S' Ha), (uread_space _ _ _ _ _ _ _ Hs Ha). cbn [km_mem set_mem].
  pose proof (PGROUNDDOWN_spec a) as Ea. pose proof (Z.mod_pos_bound a PGSIZE ltac:(done)) as Hmoda.
  destruct (decide (PGROUNDDOWN a = PGROUNDDOWN va)) as [E|E].
  - rewrite E, He. cbn [mbind option_bind]. rewrite Hu, mem_put_spec. case_decide as H1; case_decide as H2; try lia; [|done]. do 2 f_equal. lia.
  - rewrite decide_False.
    + destruct (us !! PGROUNDDOWN a) as [e'|] eqn:Ee; [|done]. cbn [mbind option_bind]. destruct (user e'); [|done]. f_equal. apply (Hoth _ e' _ Ee E). lia.
    + intros Hr. apply E. unfold PGSIZE in *. Z.to_euclidean_division_equations. lia.
Qed.

(** ** copyout *)

Lemma uva2ka_spec s l pgdir tabs us kt p e : space kend s l pgdir tabs us kt → us !! p = Some e → uva2ka pgdir p s = Ok (if user e then frame e else 0) s.
Proof.
  intros Hs He. destruct (sp_udom _ _ _ _ _ _ _ Hs _ _ He) as (Hp & _ & Hpr). unfold uva2ka. rewrite (bind_Ok _ _ _ _ _ (walk_look _ _ _ _ _ _ _ p Hs)).
  destruct (tabs !! PDX p) as [t|] eqn:Et; [|by destruct (no_table _ _ _ _ _ _ _ _ _ Hs He)]. unfold load32. rewrite bind_gets.
  destruct (look_user kend Hkend _ _ _ _ _ _ p t Hs Hp Et) as [Hu _]. rewrite He in Hu. cbn zeta in Hu. destruct (present (ld32 _ _)); [|done]. injection Hu as <-.
  unfold present, user, truthy in *. destruct (Z.land e PTE_P =? 0); [done|]. by destruct (Z.land e PTE_U =? 0).
Qed.

(** Where an address has no page table, uva2ka reads the word at address 0 as if it
    were the entry. *)
Lemma uva2ka_no_table s pgdir va : table (km_mem s) pgdir (PDX va) = None →
  uva2ka pgdir va s = Ok (let e := ld32 (km_mem s) 0 in if (Z.land e PTE_P =? 0) || (Z.land e PTE_U =? 0) then 0 else frame e) s.
Proof.
  intros H. unfold uva2ka, walkpgdir, load32. rewrite bind_assoc, bind_gets. unfold table in H. cbn zeta in H.
  destruct (truthy (Z.land (ld32 (km_mem s) (pgdir + 4 * PDX va)) PTE_P)); [done|]. cbn [negb]. rewrite bind_ret, bind_gets. by do 2 destruct (_ =? 0).
Qed.

(** [k] bytes of [buf] are at [va], everything else the program reads is as before. *)
Definition copied_out pgdir va (buf : bytes) (k : Z) s s' : Prop :=
  ∀ a, 0 ≤ a < KERNBASE → uread (km_mem s') pgdir a = if decide (va ≤ a < va + k) then Some (nth (Z.to_nat (a - va)) buf 0) else uread (km_mem s) pgdir a.

Lemma copyout_ok (fuel : nat) l pgdir tabs us kt : ∀ va (buf : bytes) s, space kend s l pgdir tabs us kt → 0 ≤ va → va + length buf ≤ KERNBASE →
  va `mod` PGSIZE + length buf ≤ (fuel - 1) * PGSIZE → (0 < fuel)%nat → (∀ p, upage p → PGROUNDDOWN va ≤ p < va + length buf → is_Some (us !! p)) →
  ∃ r s' k, copyout_loop fuel pgdir va buf s = Ok r s' ∧ space kend s' l pgdir tabs us kt ∧ 0 ≤ k ≤ length buf ∧ copied_out pgdir va buf k s s' ∧
  (∀ x, outside (pages pgdir tabs us) x → km_mem s' x = km_mem s x) ∧
  ((r = 0 ∧ k = length buf) ∨ (r = -1 ∧ ∃ p e, PGROUNDDOWN va ≤ p < va + length buf ∧ us !! p = Some e ∧ user e = false)).
Proof.
  induction fuel as [|fuel IH]; intros va buf s Hs Hva Hmax Hf Hf0 Hmap; [lia|]. cbn [copyout_loop]. destruct (Z.ltb_spec 0 (length buf)) as [Hlen|Hlen].
  2:{ exists 0, s, 0. split; [done|]. split; [done|]. split; [lia|]. split; [intros a Ha; case_decide; [lia|done]|]. split; [done|]. left. split; [done|lia]. }
  pose proof (Z.mod_pos_bound va PGSIZE ltac:(done)) as Hmod. pose proof (PGROUNDDOWN_spec va) as Ed. set (va0 := PGROUNDDOWN va) in *.
  assert (upage va0) as Hup by (apply down_upage; lia). pose proof (proj2 Hup) as Hup2. destruct (Hmap va0 Hup ltac:(lia)) as [e He].
  rewrite (bind_Ok _ _ _ _ _ (uva2ka_spec _ _ _ _ _ _ _ _ Hs He)). destruct (user e) eqn:Hu.
  2:{ exists (-1), s, 0. split; [done|]. split; [done|]. split; [lia|]. split; [intros a Ha; case_decide; [lia|done]|]. split; [done|]. right. split; [done|]. exists va0, e. split; [lia|done]. }
  destruct (user_frame kend Hkend _ _ _ _ _ _ _ _ Hs He) as ((_ & Hfr & _) & _). rewrite (proj2 (Z.eqb_neq (frame e) 0)) by (unfold KERNBASE in *; lia).
  replace (va - va0) with (va `mod` PGSIZE) by lia. rewrite (u32_small (PGSIZE - _)) by (unfold is_u32, PGSIZE in *; lia).
  set (n := if _ <? _ then _ else _). assert (n = Z.min (length buf) (PGSIZE - va `mod` PGSIZE)) as En by (unfold n; destruct (Z.ltb_spec (length buf) (PGSIZE - va `mod` PGSIZE)); lia). clearbody n.
  unfold on_mem. rewrite bind_modify. assert (Z.of_nat (length (take (Z.to_nat n) buf)) = n) as Ln by (rewrite length_take; lia).
  destruct (put_page s l pgdir tabs us kt va e (take (Z.to_nat n) buf) Hs ltac:(lia) He Hu ltac:(lia)) as [S1 U1]. rewrite Ln in U1. set (s1 := set_mem _ s) in *.
  assert (va0 + PGSIZE ≤ KERNBASE) as Hb by (destruct Hup; unfold KERNBASE, PGSIZE in *; Z.to_euclidean_division_equations; lia).
  rewrite (u32_small (va0 + PGSIZE)) by (unfold is_u32, KERNBASE, PGSIZE in *; destruct Hup; lia).
  assert ((va0 + PGSIZE) `mod` PGSIZE = 0) as Hm' by (rewrite <- Zplus_mod_idemp_r, Z_mod_same_full, Z.add_0_r; apply Hup).
  assert (PGROUNDDOWN (va0 + PGSIZE) = va0 + PGSIZE) as Ed' by (rewrite PGROUNDDOWN_spec, Hm'; lia).
  destruct (IH (va0 + PGSIZE) (drop (Z.to_nat n) buf) s1 S1) as (r & s2 & k & R & S2 & Hk & U2 & M2 & Hr); rewrite ?length_drop in *; rewrite ?Hm', ?Ed' in *; [lia|lia|unfold PGSIZE in *; lia|unfold PGSIZE in *; lia|intros p Hp Hr; apply Hmap; [done|lia]|].
  exists r, s2, (n + k). split; [exact R|]. split; [done|]. split; [lia|]. split; [|split; [|destruct Hr as [[-> Hr]|(-> & p & e' & H1 & H2)]; [left; split; [done|lia]|right; split; [done|]; exists p, e'; split; [lia|done]]]].
  2:{ intros x Hx. rewrite M2 by done. unfold s1. cbn [km_mem set_mem]. rewrite mem_put_spec, Ln. assert (x < frame e ∨ frame e + PGSIZE ≤ x) by (apply Hx; by eapply frame_in). case_decide; [lia|done]. }
  intros a Ha. rewrite U2, U1 by done. assert (k = 0 ∨ va0 + PGSIZE = va + n) as Hc by lia. repeat case_decide; try lia; try done.
  - f_equal. rewrite nth_skipn. f_equal. lia.
  - f_equal. rewrite nth_firstn. destruct (Nat.ltb_spec (Z.to_nat (a - va)) (Z.to_nat n)); [done|lia].
Qed.

Lemma copyout_spec s l pgdir tabs us kt va (buf : bytes) : space kend s l pgdir tabs us kt → 0 ≤ va → va + length buf ≤ KERNBASE →
  (∀ p, upage p → PGROUNDDOWN va ≤ p < va + length buf → is_Some (us !! p)) →
  ∃ r s' k, copyout pgdir va buf s = Ok r s' ∧ space kend s' l pgdir tabs us kt ∧ 0 ≤ k ≤ length buf ∧ copied_out pgdir va buf k s s' ∧
  (∀ x, outside (pages pgdir tabs us) x → km_mem s' x = km_mem s x) ∧
  ((r = 0 ∧ k = length buf) ∨ (r = -1 ∧ ∃ p e, PGROUNDDOWN va ≤ p < va + length buf ∧ us !! p = Some e ∧ user e = false)).
Proof.
  intros Hs Hva Hmax Hmap. unfold copyout. apply copyout_ok; [done|done|done| |lia|done]. pose proof (Z.mod_pos_bound va PGSIZE ltac:(done)).
  unfold PGSIZE in *. Z.to_euclidean_division_equations. lia.
Qed.

(** ** clearpteu *)

(** An entry changes its flags and keeps its page. *)
Lemma frames_upd us va e0 e : us !! va = Some e0 → frame e = frame e0 → frames (<[va := e]> us) ≡ₚ frames us.
Proof. intros H0 E. rewrite <- insert_delete_eq, new_frame by apply lookup_delete_eq. rewrite (drop_frame us va e0) by done. by rewrite E. Qed.
Lemma upd_user s l pgdir tabs us kt va t e0 e : space kend s l pgdir tabs us kt → tabs !! PDX va = Some t → us !! va = Some e0 →
  is_u32 e → present e = true → frame e = frame e0 →
  space kend (stored s t va e) l pgdir tabs (<[va := e]> us) kt ∧ evolves (l ++ ptpages pgdir tabs) s (l ++ ptpages pgdir tabs) (stored s t va e).
Proof.
  intros Hsp Ht H0 He Hp Ef. destruct (sp_udom _ _ _ _ _ _ _ Hsp _ _ H0) as (Hva & _).
  destruct (store_any kend Hkend _ _ _ _ _ _ va t e Hsp Ht He (upage_u32 _ Hva) (proj1 Hva)) as (H1 & H2 & H3 & H4).
  assert (pages pgdir tabs (<[va:=e]> us) ≡ₚ pages pgdir tabs us) as Ep by (unfold pages; by rewrite (frames_upd us va e0 e)).
  split; [|done]. split; [done|rewrite Ep; apply Hsp|rewrite Ep; apply Hsp|done|apply Hsp| | |].
  - intros va' Hva'. rewrite H3 by (by apply upage_u32). rewrite (upage_down va') by done. case_decide as E; [subst; by rewrite lookup_insert_eq, Hp|].
    rewrite lookup_insert_ne by done. by apply (sp_user _ _ _ _ _ _ _ Hsp).
  - intros va' e'. destruct (decide (va = va')) as [<-|E]; [rewrite lookup_insert_eq; by intros [= <-]|]. rewrite lookup_insert_ne by done. apply (sp_udom _ _ _ _ _ _ _ Hsp).
  - intros va' Hva'. rewrite H3 by (unfold is_u32, KERNBASE in *; lia). rewrite decide_False; [by apply (sp_kern _ _ _ _ _ _ _ Hsp)|].
    intros <-. pose proof (down_kern va' (proj1 Hva')). destruct Hva. lia.
Qed.

(** The entry without the user bit. *)
Definition guard (e : Z) : Z := Z.land e (Z.lnot PTE_U).
Lemma guard_spec e : is_u32 e → present e = true → is_u32 (guard e) ∧ present (guard e) = true ∧ frame (guard e) = frame e ∧ user (guard e) = false.
Proof.
  intros He Hp. unfold guard, frame, present, user, PTE_ADDR in *. split; [|split; [|split]].
  - assert (e = Z.land e (Z.ones 32)) as -> by (rewrite Z.land_ones by lia; symmetry; by apply Z.mod_small). rewrite <- Z.land_assoc, (Z.land_comm (Z.ones 32)), Z.land_assoc, Z.land_ones by lia. by apply Z.mod_pos_bound.
  - rewrite <- Z.land_assoc. exact Hp.
  - rewrite <- Z.land_assoc. done.
  - rewrite <- Z.land_assoc. change (Z.land (Z.lnot PTE_U) PTE_U) with 0. by rewrite Z.land_0_r.
Qed.

Lemma clearpteu_spec s l pgdir tabs us kt va e : space kend s l pgdir tabs us kt → us !! va = Some e →
  ∃ s', clearpteu pgdir va s = Ok tt s' ∧ space kend s' l pgdir tabs (<[va := guard e]> us) kt ∧ evolves (l ++ ptpages pgdir tabs) s (l ++ ptpages pgdir tabs) s' ∧
  ∀ a, 0 ≤ a < KERNBASE → uread (km_mem s') pgdir a = if decide (PGROUNDDOWN a = va) then None else uread (km_mem s) pgdir a.
Proof.
  intros Hs He. destruct (sp_udom _ _ _ _ _ _ _ Hs _ _ He) as (Hp & Hu & Hpr). destruct (guard_spec e Hu Hpr) as (G1 & G2 & G3 & G4). unfold clearpteu.
  rewrite (bind_Ok _ _ _ _ _ (walk_look _ _ _ _ _ _ _ va Hs)). destruct (tabs !! PDX va) as [t|] eqn:Et; [|by destruct (no_table _ _ _ _ _ _ _ _ _ Hs He)].
  destruct (look_user kend Hkend _ _ _ _ _ _ va t Hs Hp Et) as [Hl Hnz]. rewrite (proj2 (Z.eqb_neq _ _) Hnz). unfold load32. rewrite bind_gets.
  rewrite He in Hl. cbn zeta in Hl. destruct (present (ld32 _ _)); [|done]. injection Hl as <-. fold (guard e).
  destruct (upd_user s l pgdir tabs us kt va t e (guard e) Hs Et He G1 G2 G3) as [S' V]. exists (stored s t va (guard e)). split; [done|]. split; [done|]. split; [done|].
  intros a Ha. rewrite (uread_space _ _ _ _ _ _ _ S' Ha), (uread_space _ _ _ _ _ _ _ Hs Ha). case_decide as E; [rewrite E, lookup_insert_eq; cbn; by rewrite G4|].
  rewrite lookup_insert_ne by done. destruct (us !! PGROUNDDOWN a) as [e'|] eqn:Ee; [|done]. cbn. destruct (user e'); [|done]. f_equal. apply V.
  pose proof (Z.mod_pos_bound a PGSIZE ltac:(done)). destruct (user_frame kend Hkend _ _ _ _ _ _ _ _ Hs Ee) as (H1 & H2 & H3 & _). apply (page_outside _ (frame e')); [apply H1| | |lia].
  - intros w Hw. apply (sp_aligned _ _ _ _ _ _ _ w Hs). by apply pt_in_pages.
  - rewrite elem_of_app. tauto.
Qed.

(** ** inituvm *)

Lemma user_pte_of v : page_ok kend v → user (pte_of v (Z.lor PTE_W PTE_U)) = true.
Proof.
  intros Hv. unfold user, pte_of. apply truthy_true. intros H%(f_equal (λ z, Z.testbit z 2)). rewrite Z.land_spec, !Z.lor_spec, Z.bits_0 in H.
  change (Z.testbit PTE_W 2) with false in H. change (Z.testbit PTE_U 2) with true in H. by rewrite orb_true_r in H.
Qed.

(** The first program: its image at address 0, zeros behind it. *)
Lemma inituvm_spec s v l pgdir tabs us kt init sz : space kend s (v :: l) pgdir tabs us kt → us !! 0 = None → l ≠ [] ∨ tabs !! 0 ≠ None → 0 ≤ sz < PGSIZE →
  (∀ k, 0 ≤ k < sz → outside (v :: l ++ pages pgdir tabs us) (init + k)) →
  ∃ s' l' tabs' us', inituvm pgdir init sz s = Ok tt s' ∧ space kend s' l' pgdir tabs' us' kt ∧
  evolves (v :: l ++ pages pgdir tabs us) s (l' ++ pages pgdir tabs' us') s' ∧ (∀ p, p ≠ 0 → us' !! p = us !! p) ∧ is_Some (us' !! 0) ∧
  ∀ a, 0 ≤ a < PGSIZE → uread (km_mem s') pgdir a = Some (if a <? sz then km_mem s (init + a) else 0).
Proof.
  intros Hs Hn Hroom Hsz Himg. unfold inituvm. rewrite (proj2 (Z.leb_gt _ _)) by lia.
  assert (upage 0) as Hup by (split; [done|unfold KERNBASE; lia]). assert (page_ok kend v) as Hv by (destruct (sp_free _ _ _ _ _ _ _ Hs) as (_ & _ & Hok); by inversion_clear Hok).
  destruct (map_filled kend Hkend s v l pgdir tabs us kt 0 (memset (km_mem s) v 0 PGSIZE) (Z.lor PTE_W PTE_U) Hs Hup Hn ltac:(done) (memset_in_page _ _ _))
    as (s1 & r & s3 & l3 & tabs3 & R1 & E1 & R3 & T3 & V3 & L3 & K3 & C3 & Hr).
  mstep R1. unfold on_mem. rewrite bind_modify, E1. mstep R3.
  destruct Hr as [(_ & -> & _ & _ & Ht & _)|(-> & S3)]; [destruct Hroom; [done|by change (PDX 0) with 0 in Ht]|].
  destruct (pte_of_spec kend v (Z.lor PTE_W PTE_U) Hv ltac:(done)) as (_ & _ & Ef). set (e := pte_of v _) in *. set (us' := <[0 := e]> us) in *.
  assert (us' !! 0 = Some e) as He by apply lookup_insert_eq. set (m' := memmove (km_mem s3) v init sz).
  assert (∀ x, m' x = blit (km_mem s3) v init sz x) as Hm' by exact (memmove_correct (km_mem s3) v init sz (proj1 Hsz)).
  assert (∀ x, x < v ∨ v + PGSIZE ≤ x → m' x = km_mem s3 x) as Hout by (intros x Hx; rewrite Hm'; unfold blit; zcases; (done || lia)).
  destruct (write_frame s3 l3 pgdir tabs3 us' kt 0 e m' S3 He) as [S4 _]; [by rewrite Ef|].
  assert (evolves (v :: l ++ pages pgdir tabs us) s (l3 ++ pages pgdir tabs3 us') s3) as V.
  { apply (evolves_perm _ _ _ _ _ _ V3); [done|]. unfold pages, us'. rewrite new_frame, Ef by done. solve_Permutation. }
  exists (set_mem m' s3), l3, tabs3, us'. split; [done|]. split; [done|]. split; [|split; [intros p Hp; by apply lookup_insert_ne|split; [by eexists|]]].
  - eapply evolves_trans; [exact V|]. split; [done|]. intros x Hx. apply Hout. rewrite <- Ef. apply Hx. apply elem_of_app. right. by eapply frame_in.
  - intros a Ha. rewrite (uread_space _ _ _ _ _ _ _ S4) by (unfold PGSIZE, KERNBASE in *; lia).
    assert (PGROUNDDOWN a = 0 ∧ a `mod` PGSIZE = a) as [-> ->] by (rewrite PGROUNDDOWN_spec; unfold PGSIZE in *; rewrite Z.mod_small by lia; lia).
    rewrite He. cbn [mbind option_bind]. unfold e at 1. rewrite user_pte_of by done. rewrite Ef. cbn [km_mem set_mem]. f_equal. rewrite Hm'. unfold blit.
    rewrite (proj2 (Z.leb_le v _)) by lia. cbn [andb]. destruct (Z.ltb_spec a sz), (Z.ltb_spec (v + a) (v + sz)); try lia.
    + replace (init + (v + a - v)) with (init + a) by lia. apply V3. apply Himg. lia.
    + rewrite C3 by lia. rewrite memset_correct by done. rewrite (proj2 (Z.leb_le _ _)), (proj2 (Z.ltb_lt _ _)) by lia. done.
Qed.
End user.
