(* ===== verification/VmSystem.v ===== *)
(** * All address spaces of the system

    Processes share the physical memory: each has a directory and a size, and
    fork, exec, sbrk and exit reach vm.c through setupkvm, allocuvm, deallocuvm,
    copyuvm and freevm.  [vstep] is any such call, copyout or clearpteu, or a
    store of a user program into a page of its own, in any order; the theorems show that no page is ever
    lost or shared, that no call panics, and that nothing a process does changes
    what another one reads. *)
From S2P Require Import Prelude Str Kalloc Vm VmSpace VmUser.

(** [pgdir] and [sz] of a process. *)
Record uspace := mkUs { us_dir : Z; us_size : Z }.
Record vsys := mkVs { vs_mem : kmem; vs_spaces : list uspace }.

Section system.
Context (kend kdata : Z).
Hypothesis Hkend : KERNBASE < kend.
Hypothesis Hdata : kdata `mod` PGSIZE = 0 ∧ KERNLINK < kdata < KERNBASE + PHYSTOP.
Implicit Types (s : kmem) (l : list Z) (u : uspace).

(** A step is labelled with the directory of the address space it acts on; 0 for
    the calls that make a new one. *)
Inductive vstep : Z → vsys → vsys → Prop :=
  | V_setup s sp d s' : setupkvm kend kdata s = Ok d s' →
      vstep 0 (mkVs s sp) (mkVs s' (sp ++ if d =? 0 then [] else [mkUs d 0]))
  | V_copy s sp u d s' : u ∈ sp → copyuvm kend kdata (us_dir u) (us_size u) s = Ok d s' →
      vstep 0 (mkVs s sp) (mkVs s' (sp ++ if d =? 0 then [] else [mkUs d (us_size u)]))
  | V_grow s sp1 u sp2 newsz r s' : us_size u ≤ newsz → allocuvm kend (us_dir u) (us_size u) newsz s = Ok r s' →
      vstep (us_dir u) (mkVs s (sp1 ++ u :: sp2)) (mkVs s' (sp1 ++ (if r =? 0 then u else mkUs (us_dir u) r) :: sp2))
  | V_shrink s sp1 u sp2 newsz r s' : 0 ≤ newsz → deallocuvm kend (us_dir u) (us_size u) newsz s = Ok r s' →
      vstep (us_dir u) (mkVs s (sp1 ++ u :: sp2)) (mkVs s' (sp1 ++ mkUs (us_dir u) r :: sp2))
  | V_free s sp1 u sp2 s' : freevm kend (us_dir u) s = Ok tt s' →
      vstep (us_dir u) (mkVs s (sp1 ++ u :: sp2)) (mkVs s' (sp1 ++ sp2))
  | V_store s sp u va e b : u ∈ sp → 0 ≤ va < KERNBASE → translate (km_mem s) (us_dir u) (PGROUNDDOWN va) = Some e →
      vstep (us_dir u) (mkVs s sp) (mkVs (set_mem (st8 (km_mem s) (frame e + va `mod` PGSIZE) b) s) sp)
  | V_out s sp u va (buf : bytes) r s' : u ∈ sp → 0 ≤ va → va + length buf ≤ us_size u → copyout (us_dir u) va buf s = Ok r s' →
      vstep (us_dir u) (mkVs s sp) (mkVs s' sp)
  | V_guard s sp u va s' : u ∈ sp → upage va → va < us_size u → clearpteu (us_dir u) va s = Ok tt s' →
      vstep (us_dir u) (mkVs s sp) (mkVs s' sp).

(** Any number of steps. *)
Definition vsteps (c c' : vsys) : Prop := rtc (λ c c', ∃ d, vstep d c c') c c'.

(** ** The invariant *)

Record aspace := mkAs { a_u : uspace; a_tabs : gmap Z Z; a_us : gmap Z Z }.
Definition apages (a : aspace) : list Z := pages (us_dir (a_u a)) (a_tabs a) (a_us a).
Definition all_pages (bs : list aspace) : list Z := bs ≫= apages.

(** The user's pages are those below the size. *)
Record aspace_ok s l (a : aspace) : Prop := {
  ao_space : space kend s l (us_dir (a_u a)) (a_tabs a) (a_us a) (klook (kmap kdata));
  ao_size : 0 ≤ us_size (a_u a) < KERNBASE;
  ao_exact va : upage va → va < us_size (a_u a) ↔ is_Some (a_us a !! va) }.

Record accounted (l0 : list Z) s l (bs : list aspace) : Prop := {
  ac_free : free_pages kend s l;
  ac_ok : Forall (aspace_ok s l) bs;
  ac_perm : l ++ all_pages bs ≡ₚ l0;
  ac_nodup : NoDup l0 }.

(** What the owner of an address space reads. *)
Definition same_view s s' u : Prop := ∀ va, 0 ≤ va < KERNBASE → uread (km_mem s') (us_dir u) va = uread (km_mem s) (us_dir u) va.

Lemma all_pages_app bs1 bs2 : all_pages (bs1 ++ bs2) = all_pages bs1 ++ all_pages bs2.
Proof. apply bind_app. Qed.
Lemma in_all a bs v : a ∈ bs → v ∈ apages a → v ∈ all_pages bs.
Proof. intros Ha Hv. apply list_elem_of_bind. by exists a. Qed.

(** The address spaces a call does not work on. *)
Lemma others_keep s l bs s' l' P P' : Forall (aspace_ok s l) bs → free_pages kend s' l' → evolves P s P' s' →
  (∀ v, v ∈ l' → v ∈ P) → (∀ v, v ∈ P → v `mod` PGSIZE = 0) → (∀ v, v ∈ all_pages bs → v ∉ P) →
  Forall (aspace_ok s' l') bs ∧ ∀ a, a ∈ bs → same_view s s' (a_u a).
Proof.
  intros Hok Hf V Hl Hal Hd. rewrite list.Forall_forall in Hok.
  assert (∀ a, a ∈ bs → space kend s' l' (us_dir (a_u a)) (a_tabs a) (a_us a) (klook (kmap kdata)) ∧
            ∀ v x, v ∈ apages a → v ≤ x < v + PGSIZE → km_mem s' x = km_mem s x) as H.
  { intros a Ha. destruct (Hok a Ha) as [Hs _ _]. apply (space_other kend s l _ _ _ _ s' l' P P' Hs Hf V Hl Hal). intros v Hv. apply Hd. by eapply in_all. }
  split.
  - apply list.Forall_forall. intros a Ha. destruct (Hok a Ha) as [_ H1 H2]. split; [by apply H|done|done].
  - intros a Ha va Hva. destruct (H a Ha) as [H1 H2]. destruct (Hok a Ha) as [Hs _ _]. rewrite (uread_space _ _ _ _ _ _ _ _ H1 Hva), (uread_space _ _ _ _ _ _ _ _ Hs Hva).
    destruct (a_us a !! PGROUNDDOWN va) as [e|] eqn:Ee; [|done]. cbn. destruct (user e); [|done]. f_equal. apply (H2 (frame e)); [by eapply frame_in|]. pose proof (Z.mod_pos_bound va PGSIZE ltac:(done)). lia.
Qed.

Lemma accounted_step l0 s l bs1 old bs2 s' l' new : accounted l0 s l (bs1 ++ old ++ bs2) → evolves (l ++ all_pages old) s (l' ++ all_pages new) s' →
  free_pages kend s' l' → Forall (aspace_ok s' l') new →
  accounted l0 s' l' (bs1 ++ new ++ bs2) ∧ ∀ a, a ∈ bs1 ++ bs2 → same_view s s' (a_u a).
Proof.
  intros [Hf Hok Hp Hn] V Hf' Hnew. rewrite !list.Forall_app in Hok. destruct Hok as (H1 & H2 & H3).
  rewrite <- Hp, !all_pages_app in Hn.
  destruct (others_keep s l (bs1 ++ bs2) s' l' _ _ ltac:(by apply list.Forall_app) Hf' V) as [K1 K2].
  - intros v Hv. rewrite <- (proj1 V). apply elem_of_app. by left.
  - intros v [Hv|Hv]%elem_of_app.
    + destruct Hf as (_ & _ & Ho). rewrite list.Forall_forall in Ho. by apply (Ho v).
    + apply list_elem_of_bind in Hv as (a & Hv & Ha). rewrite list.Forall_forall in H2. destruct (H2 a Ha) as [Hs _ _]. by apply (sp_page_ok _ _ _ _ _ _ _ Hs v).
  - intros v Hv Hv'. assert (NoDup ((l ++ all_pages old) ++ all_pages (bs1 ++ bs2))) as Hn'.
    { assert ((l ++ all_pages old) ++ all_pages (bs1 ++ bs2) ≡ₚ l ++ all_pages bs1 ++ all_pages old ++ all_pages bs2) as -> by (rewrite all_pages_app; solve_Permutation). done. }
    apply list.NoDup_app in Hn' as (_ & Hd & _). by apply (Hd v Hv').
  - apply list.Forall_app in K1 as [K3 K4]. split; [|done]. split; [done|by rewrite !list.Forall_app| |].
    + rewrite <- Hp, !all_pages_app. transitivity (all_pages bs1 ++ (l' ++ all_pages new) ++ all_pages bs2); [solve_Permutation|]. rewrite (proj1 V). solve_Permutation.
    + by rewrite <- Hp, !all_pages_app.
Qed.

(** A new address space. *)
Lemma accounted_new l0 s l bs s' l' new : accounted l0 s l bs → evolves l s (l' ++ all_pages new) s' → free_pages kend s' l' → Forall (aspace_ok s' l') new →
  accounted l0 s' l' (bs ++ new) ∧ ∀ a, a ∈ bs → same_view s s' (a_u a).
Proof.
  intros Ha V Hf Hn. destruct (accounted_step l0 s l bs [] [] s' l' new) as [H1 H2]; [by rewrite app_nil_r|by rewrite app_nil_r|done|done|].
  rewrite !app_nil_r in *. done.
Qed.

(** ** The calls *)

(** A state and what a call on the address space [d] makes of it. *)
Definition good_step l0 (d : Z) s (sp : list uspace) s' (sp' : list uspace) : Prop :=
  (∃ l' bs', sp' = a_u <$> bs' ∧ accounted l0 s' l' bs') ∧ ∀ u, u ∈ sp → us_dir u ≠ d → u ∈ sp' ∧ same_view s s' u.

Lemma good_new l0 s l bs s' l' new : accounted l0 s l bs → evolves l s (l' ++ all_pages new) s' → free_pages kend s' l' → Forall (aspace_ok s' l') new →
  good_step l0 0 s (a_u <$> bs) s' ((a_u <$> bs) ++ (a_u <$> new)).
Proof.
  intros Ha V Hf Hn. destruct (accounted_new l0 s l bs s' l' new Ha V Hf Hn) as [H1 H2]. split; [exists l', (bs ++ new); by rewrite fmap_app|].
  intros u Hu _. split; [apply elem_of_app; by left|]. apply list_elem_of_fmap in Hu as (a & -> & Hu). by apply H2.
Qed.
Lemma good_at l0 s l bs1 a bs2 s' l' new : accounted l0 s l (bs1 ++ a :: bs2) → evolves (l ++ apages a) s (l' ++ all_pages new) s' → free_pages kend s' l' → Forall (aspace_ok s' l') new →
  good_step l0 (us_dir (a_u a)) s ((a_u <$> bs1) ++ a_u a :: (a_u <$> bs2)) s' ((a_u <$> bs1) ++ (a_u <$> new) ++ (a_u <$> bs2)).
Proof.
  intros Ha V Hf Hn. destruct (accounted_step l0 s l bs1 [a] bs2 s' l' new Ha) as [H1 H2]; [by unfold all_pages at 1; cbn; rewrite app_nil_r|done|done|].
  split; [exists l', (bs1 ++ new ++ bs2); by rewrite !fmap_app|]. intros u Hu Hne.
  assert (u ∈ a_u <$> (bs1 ++ bs2)) as Hu' by (rewrite fmap_app; revert Hu; rewrite !elem_of_app, elem_of_cons; intros [?|[->|?]]; [tauto|done|tauto]).
  split; [revert Hu'; rewrite fmap_app, !elem_of_app; tauto|]. apply list_elem_of_fmap in Hu' as (b & -> & Hb). by apply H2.
Qed.

Lemma good_refl l0 d s l bs : accounted l0 s l bs → good_step l0 d s (a_u <$> bs) s (a_u <$> bs).
Proof. intros Ha. split; [by exists l, bs|]. intros u Hu _. by split. Qed.

Lemma ptpages_all d tabs u : us_dir u = d → all_pages [mkAs u tabs ∅] = ptpages d tabs.
Proof. intros <-. unfold all_pages, apages, pages, frames. cbn. by rewrite map_to_list_empty, !app_nil_r. Qed.

Lemma setup_good l0 s l bs : accounted l0 s l bs →
  ∃ d s', setupkvm kend kdata s = Ok d s' ∧ good_step l0 0 s (a_u <$> bs) s' ((a_u <$> bs) ++ if d =? 0 then [] else [mkUs d 0]).
Proof.
  intros Ha. destruct (setupkvm_spec kend Hkend kdata Hdata s l (ac_free _ _ _ _ Ha)) as (d & s' & l' & R & H). exists d, s'. split; [done|].
  destruct H as [(-> & F & V & _)|(Hd & tabs & S' & V & _)].
  - apply (good_new l0 s l bs s' l' []); [done|by rewrite app_nil_r|done|done].
  - rewrite (proj2 (Z.eqb_neq _ _) Hd). apply (good_new l0 s l bs s' l' [mkAs (mkUs d 0) tabs ∅]); [done|by rewrite (ptpages_all d)|apply S'|].
    apply list.Forall_cons. split; [|constructor]. split; [exact S'|cbn; unfold KERNBASE; lia|]. intros va [_ Hva]. cbn. rewrite lookup_empty. split; [lia|by intros [? ?]].
Qed.

Lemma copy_good l0 s l bs u : accounted l0 s l bs → u ∈ a_u <$> bs →
  ∃ d s', copyuvm kend kdata (us_dir u) (us_size u) s = Ok d s' ∧ good_step l0 0 s (a_u <$> bs) s' ((a_u <$> bs) ++ if d =? 0 then [] else [mkUs d (us_size u)]).
Proof.
  intros Ha Hu. apply list_elem_of_fmap in Hu as (a & -> & Hin). pose proof (ac_ok _ _ _ _ Ha) as Hok. rewrite list.Forall_forall in Hok. destruct (Hok a Hin) as [Hs Hz He].
  destruct (copyuvm_spec kend Hkend kdata s l _ _ _ _ (us_size (a_u a)) Hdata Hs ltac:(lia)) as (d & s' & l' & R & S' & M & H); [intros va Hva; by apply He|].
  exists d, s'. split; [done|]. destruct H as [(-> & E & _)|(Hd & tabs' & us' & Sc & E & H1 & H2)].
  - apply (good_new l0 s l bs s' l' []); [done|split; [by rewrite app_nil_r|done]|apply S'|done].
  - rewrite (proj2 (Z.eqb_neq _ _) Hd). set (b := mkAs (mkUs d (us_size (a_u a))) tabs' us').
    apply (good_new l0 s l bs s' l' [b]); [done|split; [by unfold all_pages; cbn; rewrite app_nil_r|done]|apply S'|].
    apply list.Forall_cons. split; [|constructor]. split; [exact Sc|exact Hz|]. intros va Hva. cbn. split.
    + intros Hlt. destruct (proj1 (He va Hva) Hlt) as [e Ee]. destruct (H1 va e Hva Hlt Ee) as (e' & -> & _). by eexists.
    + intros [e' Ee]. destruct (decide (va < us_size (a_u a))); [done|]. by rewrite H2 in Ee by lia.
Qed.

(** The pages below a size, and below the size rounded up. *)
Lemma below_round va sz : upage va → 0 ≤ sz < KERNBASE → va < PGROUNDUP sz ↔ va < sz.
Proof.
  intros [Hm Hr] Hs. destruct (PGROUNDUP_spec sz) as [H1 H2]; [lia|unfold PGSIZE, KERNBASE in *; lia|]. unfold PGSIZE in *. Z.to_euclidean_division_equations. lia.
Qed.
Lemma unmapped s l a va : aspace_ok s l a → us_size (a_u a) ≤ va → a_us a !! va = None.
Proof.
  intros [Hs _ He] Hva. destruct (a_us a !! va) as [e|] eqn:Ee; [|done]. destruct (sp_udom _ _ _ _ _ _ _ Hs _ _ Ee) as (Hup & _).
  assert (va < us_size (a_u a)) by (apply He; [done|by eexists]). lia.
Qed.

Lemma grow_good l0 s l bs1 a bs2 newsz : accounted l0 s l (bs1 ++ a :: bs2) → us_size (a_u a) ≤ newsz →
  ∃ r s', allocuvm kend (us_dir (a_u a)) (us_size (a_u a)) newsz s = Ok r s' ∧
  good_step l0 (us_dir (a_u a)) s (a_u <$> bs1 ++ a :: bs2) s' ((a_u <$> bs1) ++ (if r =? 0 then a_u a else mkUs (us_dir (a_u a)) r) :: (a_u <$> bs2)).
Proof.
  intros Ha Hn. assert (aspace_ok s l a) as Hok.
  { pose proof (ac_ok _ _ _ _ Ha) as H. rewrite list.Forall_app, list.Forall_cons in H. tauto. }
  destruct (decide (KERNBASE ≤ newsz)) as [Hbig|Hsmall].
  { exists 0, s. unfold allocuvm. rewrite (proj2 (Z.leb_le _ _)) by done. split; [done|]. cbn [Z.eqb]. pose proof (good_refl l0 (us_dir (a_u a)) s l _ Ha) as H. rewrite fmap_app in H |- *. exact H. }
  pose proof Hok as [Hs Hz He]. destruct (PGROUNDUP_spec (us_size (a_u a))) as [_ HR]; [lia|unfold PGSIZE, KERNBASE in *; lia|].
  destruct (allocuvm_spec kend Hkend s l _ _ _ _ (us_size (a_u a)) newsz Hs ltac:(lia) ltac:(lia)) as (r & s' & l' & tabs' & us' & R & S' & _ & V & H).
  { intros va Hva. eapply unmapped; [exact Hok|]. lia. }
  exists r, s'. split; [done|]. set (u' := if r =? 0 then a_u a else mkUs (us_dir (a_u a)) r). assert (us_dir u' = us_dir (a_u a)) as Ed by (unfold u'; by case_match).
  rewrite fmap_app, fmap_cons. apply (good_at l0 s l bs1 a bs2 s' l' [mkAs u' tabs' us']); [done| |apply S'|].
  { unfold all_pages, apages at 2. cbn. by rewrite app_nil_r, Ed. }
  apply list.Forall_cons. split; [|constructor]. destruct H as [(-> & G1 & G2 & _)|(-> & -> & _)].
  - assert (us_size u' = newsz) as Ez by (unfold u'; destruct (Z.eqb_spec newsz 0); cbn; lia). split; cbn; rewrite ?Ed, ?Ez; [done|lia|].
    intros va Hva. destruct (decide (PGROUNDUP (us_size (a_u a)) ≤ va < newsz)) as [Hin|Hout].
    + destruct (G2 va Hva Hin) as (e & -> & _). split; [by eexists|lia].
    + rewrite G1, <- He by done. pose proof (below_round va _ Hva Hz). lia.
  - split; [exact S'|exact Hz|exact He].
Qed.

Lemma shrink_good l0 s l bs1 a bs2 newsz : accounted l0 s l (bs1 ++ a :: bs2) → 0 ≤ newsz →
  ∃ r s', deallocuvm kend (us_dir (a_u a)) (us_size (a_u a)) newsz s = Ok r s' ∧
  good_step l0 (us_dir (a_u a)) s (a_u <$> bs1 ++ a :: bs2) s' ((a_u <$> bs1) ++ mkUs (us_dir (a_u a)) r :: (a_u <$> bs2)).
Proof.
  intros Ha Hn. assert (aspace_ok s l a) as Hok.
  { pose proof (ac_ok _ _ _ _ Ha) as H. rewrite list.Forall_app, list.Forall_cons in H. tauto. }
  pose proof Hok as [Hs Hz He]. destruct (decide (us_size (a_u a) ≤ newsz)) as [Hbig|Hsmall].
  { exists (us_size (a_u a)), s. unfold deallocuvm. rewrite (proj2 (Z.leb_le _ _)) by done. split; [done|]. pose proof (good_refl l0 (us_dir (a_u a)) s l _ Ha) as H.
    rewrite fmap_app in H |- *. cbn [fmap list_fmap] in H |- *. destruct (a_u a). exact H. }
  destruct (dealloc_undone kend Hkend s l _ _ _ _ newsz (us_size (a_u a)) Hs ltac:(lia) ltac:(lia)) as (s' & l' & R & S' & V & _).
  exists newsz, s'. split; [done|]. set (us' := except _ _ _) in *.
  rewrite fmap_app, fmap_cons. apply (good_at l0 s l bs1 a bs2 s' l' [mkAs (mkUs (us_dir (a_u a)) newsz) (a_tabs a) us']); [done| |apply S'|].
  { unfold all_pages, apages at 2. cbn. by rewrite app_nil_r. }
  apply list.Forall_cons. split; [|constructor]. split; cbn; [done|lia|]. intros va Hva. pose proof (below_round va newsz Hva ltac:(lia)) as Hb. split.
  - intros Hlt. destruct (proj1 (He va Hva)) as [e Ee]; [lia|]. exists e. apply map_lookup_filter_Some. split; [done|]. cbn. lia.
  - intros [e Ee]. apply map_lookup_filter_Some in Ee as [Ee Hr]. cbn in Hr. assert (va < us_size (a_u a)) by (apply He; [done|by eexists]). lia.
Qed.

Lemma free_good l0 s l bs1 a bs2 : accounted l0 s l (bs1 ++ a :: bs2) →
  ∃ s', freevm kend (us_dir (a_u a)) s = Ok tt s' ∧ good_step l0 (us_dir (a_u a)) s (a_u <$> bs1 ++ a :: bs2) s' ((a_u <$> bs1) ++ (a_u <$> bs2)).
Proof.
  intros Ha. assert (aspace_ok s l a) as [Hs _ _].
  { pose proof (ac_ok _ _ _ _ Ha) as H. rewrite list.Forall_app, list.Forall_cons in H. tauto. }
  destruct (freevm_spec kend Hkend s l _ _ _ _ Hs) as (s' & l' & R & F & V). exists s'. split; [done|]. rewrite fmap_app, fmap_cons.
  apply (good_at l0 s l bs1 a bs2 s' l' []); [done|by rewrite app_nil_r|done|done].
Qed.

(** A store into a page changes no page table and no free page. *)
Lemma store_good l0 s l bs u va e b : accounted l0 s l bs → u ∈ a_u <$> bs → 0 ≤ va < KERNBASE → translate (km_mem s) (us_dir u) (PGROUNDDOWN va) = Some e →
  good_step l0 (us_dir u) s (a_u <$> bs) (set_mem (st8 (km_mem s) (frame e + va `mod` PGSIZE) b) s) (a_u <$> bs).
Proof.
  intros Ha Hu Hva He. apply list_elem_of_fmap in Hu as (a & -> & (bs1 & bs2 & ->)%list_elem_of_split). assert (aspace_ok s l a) as Hok.
  { pose proof (ac_ok _ _ _ _ Ha) as H. rewrite list.Forall_app, list.Forall_cons in H. tauto. }
  pose proof Hok as [Hs Hz Hx]. rewrite (sp_user _ _ _ _ _ _ _ Hs) in He by (by apply down_upage).
  destruct (user_frame kend Hkend _ _ _ _ _ _ _ _ Hs He) as (H1 & H2 & H3 & _). set (m' := st8 _ _ _).
  assert (∀ x, x < frame e ∨ frame e + PGSIZE ≤ x → m' x = km_mem s x) as Hm.
  { intros x Hx'. unfold m', st8. pose proof (Z.mod_pos_bound va PGSIZE ltac:(done)). zcases; (done || lia). }
  assert (frame e ∈ apages a) as Hfin by (by eapply frame_in).
  assert (∀ v x, v ∈ l ++ apages a → v ≠ frame e → v ≤ x < v + PGSIZE → m' x = km_mem s x) as Hm'.
  { intros v x Hv Hne Hx'. apply Hm. apply (sp_disjoint _ _ _ _ _ _ _ Hs v (frame e) x); [done|apply elem_of_app; by right|done|done]. }
  assert (free_pages kend (set_mem m' s) l) as F'.
  { apply free_pages_set_mem; [unfold KERNBASE in *; lia|apply Ha|]. intros v Hv x Hx'. apply (Hm' v); [apply elem_of_app; by left|by intros ->|unfold PGSIZE; lia]. }
  rewrite fmap_app, fmap_cons. apply (good_at l0 s l bs1 a bs2 (set_mem m' s) l [a]); [done| |done|].
  - unfold all_pages. cbn. rewrite app_nil_r. split; [done|]. intros x Hx'. apply Hm, Hx'. apply elem_of_app. by right.
  - apply list.Forall_cons. split; [|constructor]. split; [|done|done]. apply (space_free kend s l); [done|done|apply Hs|].
    intros v x Hv. apply Hm'; [apply elem_of_app; right; unfold apages, pages; apply elem_of_app; by left|by intros ->].
Qed.

(** The kernel stores into the memory of a process, or takes a page from it. *)
Lemma out_good l0 s l bs u va (buf : bytes) : accounted l0 s l bs → u ∈ a_u <$> bs → 0 ≤ va → va + length buf ≤ us_size u →
  ∃ r s', copyout (us_dir u) va buf s = Ok r s' ∧ good_step l0 (us_dir u) s (a_u <$> bs) s' (a_u <$> bs).
Proof.
  intros Ha Hu Hva Hlen. apply list_elem_of_fmap in Hu as (a & -> & (bs1 & bs2 & ->)%list_elem_of_split). assert (aspace_ok s l a) as Hok.
  { pose proof (ac_ok _ _ _ _ Ha) as H. rewrite list.Forall_app, list.Forall_cons in H. tauto. }
  pose proof Hok as [Hs Hz Hx]. destruct (copyout_spec kend Hkend s l _ _ _ _ va buf Hs Hva ltac:(lia)) as (r & s' & k & R & S' & _ & _ & M & _).
  { intros p Hp Hr. apply Hx; [done|lia]. }
  exists r, s'. split; [done|]. rewrite fmap_app, fmap_cons. apply (good_at l0 s l bs1 a bs2 s' l [a]); [done| |apply S'|].
  - unfold all_pages. cbn. rewrite app_nil_r. split; [done|]. intros x Hx'. apply M. intros v Hv. apply Hx'. apply elem_of_app. by right.
  - apply list.Forall_cons. split; [|constructor]. by split.
Qed.
Lemma guard_good l0 s l bs u va : accounted l0 s l bs → u ∈ a_u <$> bs → upage va → va < us_size u →
  ∃ s', clearpteu (us_dir u) va s = Ok tt s' ∧ good_step l0 (us_dir u) s (a_u <$> bs) s' (a_u <$> bs).
Proof.
  intros Ha Hu Hva Hlt. apply list_elem_of_fmap in Hu as (a & -> & (bs1 & bs2 & ->)%list_elem_of_split). assert (aspace_ok s l a) as Hok.
  { pose proof (ac_ok _ _ _ _ Ha) as H. rewrite list.Forall_app, list.Forall_cons in H. tauto. }
  pose proof Hok as [Hs Hz Hx]. destruct (proj1 (Hx va Hva) Hlt) as [e He]. destruct (clearpteu_spec kend Hkend s l _ _ _ _ va e Hs He) as (s' & R & S' & V & _).
  destruct (sp_udom _ _ _ _ _ _ _ Hs _ _ He) as (_ & Hu & Hp). destruct (guard_spec e Hu Hp) as (_ & _ & G & _).
  exists s'. split; [done|]. rewrite fmap_app, fmap_cons. apply (good_at l0 s l bs1 a bs2 s' l [mkAs (a_u a) (a_tabs a) (<[va := guard e]> (a_us a))]); [done| |apply S'|].
  - unfold all_pages, apages. cbn. rewrite app_nil_r. apply (evolves_perm _ _ _ _ _ _ (evolves_frame (frames (a_us a)) _ _ _ _ V)); unfold pages; [solve_Permutation|].
    rewrite (frames_upd (a_us a) va e) by done. solve_Permutation.
  - apply list.Forall_cons. split; [|constructor]. split; [done|done|]. intros p Hp'. cbn. rewrite (Hx p Hp'). destruct (decide (va = p)) as [<-|Hne]; [rewrite lookup_insert_eq, He; split; by eexists|].
    by rewrite lookup_insert_ne.
Qed.

Lemma vstep_good l0 d s l bs c' : accounted l0 s l bs → vstep d (mkVs s (a_u <$> bs)) c' → good_step l0 d s (a_u <$> bs) (vs_mem c') (vs_spaces c').
Proof.
  intros Ha Hstep. inversion Hstep as [s0 sp d0 s' R|s0 sp u d0 s' Hu R|s0 sp1 u sp2 newsz r s' Hn R|s0 sp1 u sp2 newsz r s' Hn R|s0 sp1 u sp2 s' R|s0 sp u va e b Hu Hva He|s0 sp u va buf r s' Hu Hva Hlen R|s0 sp u va s' Hu Hva Hlt R]; subst; cbn [vs_mem vs_spaces].
  - destruct (setup_good l0 s l bs Ha) as (d' & s2 & R2 & G). rewrite R in R2. injection R2 as <- <-. exact G.
  - destruct (copy_good l0 s l bs u Ha Hu) as (d' & s2 & R2 & G). rewrite R in R2. injection R2 as <- <-. exact G.
  - match goal with E : _ = a_u <$> bs |- _ => symmetry in E; apply fmap_app_inv in E as (bs1 & bs3 & -> & E2 & ->) end. destruct bs3 as [|a bs2]; [done|]. cbn in E2; injection E2 as -> ->.
    destruct (grow_good l0 s l bs1 a bs2 newsz Ha Hn) as (r' & s2 & R2 & G). rewrite R in R2. injection R2 as <- <-. by rewrite fmap_app in G.
  - match goal with E : _ = a_u <$> bs |- _ => symmetry in E; apply fmap_app_inv in E as (bs1 & bs3 & -> & E2 & ->) end. destruct bs3 as [|a bs2]; [done|]. cbn in E2; injection E2 as -> ->.
    destruct (shrink_good l0 s l bs1 a bs2 newsz Ha Hn) as (r' & s2 & R2 & G). rewrite R in R2. injection R2 as <- <-. by rewrite fmap_app in G.
  - match goal with E : _ = a_u <$> bs |- _ => symmetry in E; apply fmap_app_inv in E as (bs1 & bs3 & -> & E2 & ->) end. destruct bs3 as [|a bs2]; [done|]. cbn in E2; injection E2 as -> ->.
    destruct (free_good l0 s l bs1 a bs2 Ha) as (s2 & R2 & G). rewrite R in R2. injection R2 as <-. by rewrite fmap_app in G.
  - by apply (store_good l0 s l).
  - destruct (out_good l0 s l bs u va buf Ha Hu Hva Hlen) as (r' & s2 & R2 & G). rewrite R in R2. injection R2 as <- <-. exact G.
  - destruct (guard_good l0 s l bs u va Ha Hu Hva Hlt) as (s2 & R2 & G). rewrite R in R2. injection R2 as <-. exact G.
Qed.

Lemma reach_accounted l0 s0 c : free_pages kend s0 l0 → vsteps (mkVs s0 []) c → ∃ l bs, vs_spaces c = a_u <$> bs ∧ accounted l0 (vs_mem c) l bs.
Proof.
  intros Hf Hr. assert (∃ l bs, vs_spaces (mkVs s0 []) = a_u <$> bs ∧ accounted l0 (vs_mem (mkVs s0 [])) l bs) as H0.
  { exists l0, []. split; [done|]. split; [done|done|by rewrite app_nil_r|apply Hf]. }
  revert H0. induction Hr as [|c1 c2 c3 [d Hs] _ IH]; [done|]. intros (l & bs & E & Ha). apply IH. destruct c1 as [s1 sp1]. cbn in E, Ha. subst sp1.
  by destruct (vstep_good l0 d s1 l bs c2 Ha Hs) as [H _].
Qed.

(** C11: No page is lost or shared.  Start with the free pages [l0] and no process,
    and let any sequence of calls make, copy, grow, shrink and free address
    spaces, with user programs and the kernel storing into their pages in between.  Then the
    free list is intact, every directory is a page table whose user part is
    exactly the pages below the size of the process, with the kernel's mappings
    above, and the free pages together with the directories, tables and user
    pages of all address spaces are exactly [l0], each once: also after calls
    that ran out of memory.  No further call of setupkvm, copyuvm, allocuvm,
    deallocuvm, copyout, clearpteu or freevm panics or runs for ever. *)
Theorem pages_never_lost s0 l0 c : free_pages kend s0 l0 → vsteps (mkVs s0 []) c →
  let s := vs_mem c in
  (∃ l bs, vs_spaces c = a_u <$> bs ∧ free_pages kend s l ∧ l ++ all_pages bs ≡ₚ l0 ∧ NoDup (l ++ all_pages bs) ∧ Forall (aspace_ok s l) bs) ∧
  (∃ d s', setupkvm kend kdata s = Ok d s') ∧
  ∀ u, u ∈ vs_spaces c → (∃ d s', copyuvm kend kdata (us_dir u) (us_size u) s = Ok d s') ∧
    (∀ newsz, us_size u ≤ newsz → ∃ r s', allocuvm kend (us_dir u) (us_size u) newsz s = Ok r s') ∧
    (∀ newsz, 0 ≤ newsz → ∃ r s', deallocuvm kend (us_dir u) (us_size u) newsz s = Ok r s') ∧
    (∀ va (buf : bytes), 0 ≤ va → va + length buf ≤ us_size u → ∃ r s', copyout (us_dir u) va buf s = Ok r s') ∧
    (∀ va, upage va → va < us_size u → ∃ s', clearpteu (us_dir u) va s = Ok tt s') ∧
    ∃ s', freevm kend (us_dir u) s = Ok tt s'.
Proof.
  intros Hf Hr s. destruct (reach_accounted l0 s0 c Hf Hr) as (l & bs & E & Ha). fold s in Ha. rewrite E. split; [|split].
  - exists l, bs. split; [done|]. destruct Ha as [H1 H2 H3 H4]. split; [done|]. split; [done|]. split; [by rewrite H3|done].
  - destruct (setup_good l0 s l bs Ha) as (d & s' & R & _). by exists d, s'.
  - intros u Hu. destruct (copy_good l0 s l bs u Ha Hu) as (d & s' & R & _). split; [by exists d, s'|].
    assert (∀ va (buf : bytes), 0 ≤ va → va + length buf ≤ us_size u → ∃ r s', copyout (us_dir u) va buf s = Ok r s') as Hout.
    { intros va buf H1 H2. destruct (out_good l0 s l bs u va buf Ha Hu H1 H2) as (r & s2 & R2 & _). by exists r, s2. }
    assert (∀ va, upage va → va < us_size u → ∃ s', clearpteu (us_dir u) va s = Ok tt s') as Hgd.
    { intros va H1 H2. destruct (guard_good l0 s l bs u va Ha Hu H1 H2) as (s2 & R2 & _). by exists s2. }
    apply list_elem_of_fmap in Hu as (a & -> & (bs1 & bs2 & ->)%list_elem_of_split). split; [|split; [|split; [done|split; [done|]]]].
    + intros newsz Hn. destruct (grow_good l0 s l bs1 a bs2 newsz Ha Hn) as (r & s2 & R2 & _). by exists r, s2.
    + intros newsz Hn. destruct (shrink_good l0 s l bs1 a bs2 newsz Ha Hn) as (r & s2 & R2 & _). by exists r, s2.
    + destruct (free_good l0 s l bs1 a bs2 Ha) as (s2 & R2 & _). by exists s2.
Qed.

(** C12: Isolation.  In every state reached that way, a step that acts on one
    address space leaves every other one there, and its owner reads the same
    byte, or finds no page, at every user address. *)
Theorem address_space_isolation s0 l0 c d c' u : free_pages kend s0 l0 → vsteps (mkVs s0 []) c → vstep d c c' → u ∈ vs_spaces c → us_dir u ≠ d →
  u ∈ vs_spaces c' ∧ ∀ va, 0 ≤ va < KERNBASE → uread (km_mem (vs_mem c')) (us_dir u) va = uread (km_mem (vs_mem c)) (us_dir u) va.
Proof.
  intros Hf Hr Hs Hu Hne. destruct (reach_accounted l0 s0 c Hf Hr) as (l & bs & E & Ha). destruct c as [s sp]. cbn in E, Ha, Hu. subst sp.
  destruct (vstep_good l0 d s l bs c' Ha Hs) as [_ H]. by apply H.
Qed.

(** The free list determines the free pages. *)
Lemma fl_unique m h l : ∀ l', Forall (page_ok kend) l → Forall (page_ok kend) l' → fl m h l → fl m h l' → l = l'.
Proof.
  revert h. induction l as [|v l IH]; intros h [|v' l'] H1 H2; cbn; [done| | |].
  - intros -> [H _]. inversion_clear H2 as [|? ? Hv _]. destruct Hv as (_ & ? & _). unfold KERNBASE in *. lia.
  - intros [-> _] ->. inversion_clear H1 as [|? ? Hv _]. destruct Hv as (_ & ? & _). unfold KERNBASE in *. lia.
  - intros [-> Hl] [<- Hl']. inversion_clear H1. inversion_clear H2. f_equal. by eapply IH.
Qed.

(** C13: fork copies the memory of the process.  In every state reached that way,
    copyuvm of a process that has [sz] bytes gives a new directory whenever there
    are free pages for it, for the tables of the kernel's mappings and of [sz]
    bytes, and for the bytes themselves; the child then reads at every user
    address what the parent read before, the parent still does, and the two have
    no page in common. *)
Theorem fork_copies_memory s0 l0 c u l : free_pages kend s0 l0 → vsteps (mkVs s0 []) c → u ∈ vs_spaces c → free_pages kend (vs_mem c) l →
  (64 + ndirs (us_size u) + npages (us_size u) < length l)%nat →
  ∃ d s' l' tabs us tabs' us', copyuvm kend kdata (us_dir u) (us_size u) (vs_mem c) = Ok d s' ∧ d ≠ 0 ∧
  space kend s' l' (us_dir u) tabs us (klook (kmap kdata)) ∧ space kend s' l' d tabs' us' (klook (kmap kdata)) ∧
  NoDup (pages (us_dir u) tabs us ++ pages d tabs' us') ∧
  ∀ va, 0 ≤ va < KERNBASE → uread (km_mem s') d va = uread (km_mem (vs_mem c)) (us_dir u) va ∧
    uread (km_mem s') (us_dir u) va = uread (km_mem (vs_mem c)) (us_dir u) va.
Proof.
  intros Hf Hr Hu Hl Hlen. destruct (reach_accounted l0 s0 c Hf Hr) as (l1 & bs & E & Ha). destruct c as [s sp]. cbn in E, Ha, Hu, Hl. subst sp.
  assert (l1 = l) as ->.
  { destruct Hl as (F1 & _ & O1). destruct (ac_free _ _ _ _ Ha) as (F2 & _ & O2). by eapply fl_unique. }
  apply list_elem_of_fmap in Hu as (a & -> & Hin). pose proof (ac_ok _ _ _ _ Ha) as Hok. rewrite list.Forall_forall in Hok. pose proof (Hok a Hin) as Hoka. pose proof Hoka as [Hs Hz He].
  destruct (copyuvm_spec kend Hkend kdata s l _ _ _ _ (us_size (a_u a)) Hdata Hs ltac:(lia)) as (d & s' & l' & R & S' & M & H); [intros va Hva; by apply He|].
  destruct H as [(_ & _ & Hb)|(Hd & tabs' & us' & Sc & Ep & H1 & H2)]; [lia|]. exists d, s', l', (a_tabs a), (a_us a), tabs', us'. do 4 (split; [done|]).
  destruct (sp_split _ _ _ _ _ _ _ Hs) as (_ & Hsep & Hnp). split.
  { apply list.NoDup_app. split; [done|]. split; [|by apply (sp_split _ _ _ _ _ _ _ Sc)]. intros v Hv Hv'. apply (Hsep v); [|done]. rewrite <- Ep. apply elem_of_app. by right. }
  intros va Hva. assert (∀ e, a_us a !! PGROUNDDOWN va = Some e → km_mem s' (frame e + va `mod` PGSIZE) = km_mem s (frame e + va `mod` PGSIZE)) as Hm.
  { intros e Ee. apply M. pose proof (Z.mod_pos_bound va PGSIZE ltac:(done)). apply (page_outside l (frame e)); [by apply (user_frame kend Hkend _ _ _ _ _ _ _ _ Hs Ee)| | |lia].
    - intros w Hw. apply (sp_aligned _ _ _ _ _ _ _ w Hs). apply elem_of_app. by left.
    - by apply (user_frame kend Hkend _ _ _ _ _ _ _ _ Hs Ee). }
  cbn [vs_mem]. rewrite (uread_space _ _ _ _ _ _ _ _ Sc Hva), (uread_space _ _ _ _ _ _ _ _ Hs Hva), (uread_space _ _ _ _ _ _ _ _ S' Hva). pose proof (down_upage va Hva) as Hup.
  destruct (a_us a !! PGROUNDDOWN va) as [e|] eqn:Ee; cbn.
  - rewrite Hm by done. split; [|done]. destruct (H1 _ e Hup) as (e' & -> & Hfl & Hc); [apply He; [done|by eexists]|done|]. cbn.
    assert (user e' = user e) as -> by (rewrite (user_flags e'), (user_flags e), Hfl; done). destruct (user e); [|done]. f_equal. apply Hc. by apply Z.mod_pos_bound.
  - rewrite H2; [done|]. apply Znot_gt_le. intros Hlt. destruct (proj1 (He _ Hup)) as [e Ee']; [lia|]. by rewrite Ee in Ee'.
Qed.
End system.

(** ** Sixteen megabytes of free memory and one process of 5000 bytes *)

Definition demo_end : Z := 0x80200000.
Definition demo_data : Z := 0x80108000.
Lemma demo_layout : KERNBASE < demo_end ∧ demo_data `mod` PGSIZE = 0 ∧ KERNLINK < demo_data < KERNBASE + PHYSTOP.
Proof. vm_compute. done. Qed.

Lemma demo_free : ∃ s0 l0, free_pages demo_end s0 l0 ∧ (4096 ≤ length l0)%nat.
Proof.
  destruct (kinit1_frees_range demo_end demo_end 0x81200000 (mkKmem (λ _, 0) 1 0 0)) as (s0 & l0 & _ & _ & Hf & Hl); [unfold demo_end, KERNBASE, PHYSTOP; (reflexivity || lia)..|].
  exists s0, l0. split; [done|]. transitivity (length ((λ k, demo_end + 4096 * k) <$> seqZ 0 4096)); [by rewrite length_fmap, length_seqZ|].
  apply submseteq_length, NoDup_submseteq.
  - apply NoDup_fmap_2; [|apply NoDup_seqZ]. intros x y. lia.
  - intros v (k & -> & Hk)%list_elem_of_fmap. apply elem_of_seqZ in Hk. apply Hl. unfold demo_end, PGSIZE. split; [|lia]. Z.to_euclidean_division_equations. lia.
Qed.

Lemma demo_system : ∃ s0 l0 c u l, free_pages demo_end s0 l0 ∧ vsteps demo_end demo_data (mkVs s0 []) c ∧ u ∈ vs_spaces c ∧ us_size u = 5000 ∧
  free_pages demo_end (vs_mem c) l ∧ (67 < length l)%nat.
Proof.
  destruct demo_free as (s0 & l0 & F0 & L0). destruct demo_layout as [Hk Hd].
  destruct (setupkvm_spec demo_end Hk demo_data Hd s0 l0 F0) as (d & s1 & l1 & R1 & [(_ & _ & _ & H)|(Hnz & tabs & S1 & V1 & Hds)]); [lia|].
  pose proof (tabs_in tabs kdirs Hds) as T1. change (length kdirs) with 64%nat in T1. pose proof (Permutation_length (proj1 V1)) as E1. rewrite length_app in E1. cbn [ptpages length] in E1.
  destruct (allocuvm_spec demo_end Hk s1 l1 d tabs ∅ _ 0 5000 S1) as (r & s2 & l2 & tabs2 & us2 & R2 & S2 & _ & V2 & H2); [lia|unfold KERNBASE; lia|done|].
  pose proof (tabs_in tabs2 (seqZ 0 1024) (λ d, all_dirs _ _ _ _ _ _ _ d S2)) as T2. rewrite length_seqZ in T2.
  destruct H2 as [(-> & G1 & _ & _)|(_ & _ & _ & H2)]; [|change (npages 5000) with 2%nat in H2; lia].
  assert (S (length (frames us2)) ≤ npages 8193)%nat as Hfr.
  { apply (frames_count demo_end s2 l2 d tabs2 us2 _ 8193 8192 S2); [|done|lia|rewrite G1; [done|lia]].
    intros va e He. destruct (decide (0 ≤ va < 5000)); [lia|]. by rewrite G1 in He. }
  change (npages 8193) with 3%nat in Hfr. pose proof (Permutation_length (proj1 V2)) as E2. unfold pages in E2. rewrite !length_app in E2. cbn [ptpages length] in E2.
  exists s0, l0, (mkVs s2 [mkUs d 5000]), (mkUs d 5000), l2. split; [done|]. split; [|split; [apply list_elem_of_here|split; [done|split; [apply S2|cbn [length] in *; lia]]]].
  eapply rtc_l; [exists 0; exact (V_setup demo_end demo_data s0 [] d s1 R1)|]. rewrite (proj2 (Z.eqb_neq _ _) Hnz). cbn [app].
  eapply rtc_once. exists d. exact (V_grow demo_end demo_data s1 [] (mkUs d 0) [] 5000 5000 s2 ltac:(cbn; lia) R2).
Qed.

Lemma pages_never_lost_witness : ∃ s0 l0 c u, free_pages demo_end s0 l0 ∧ u ∈ vs_spaces c ∧ us_size u = 5000 ∧
  (∃ l bs, vs_spaces c = a_u <$> bs ∧ l ++ all_pages bs ≡ₚ l0) ∧ ∃ s', freevm demo_end (us_dir u) (vs_mem c) = Ok tt s'.
Proof.
  destruct demo_system as (s0 & l0 & c & u & l & F0 & Hr & Hu & Hz & _). exists s0, l0, c, u. split; [done|]. split; [done|]. split; [done|].
  destruct (pages_never_lost demo_end demo_data (proj1 demo_layout) (proj2 demo_layout) s0 l0 c F0 Hr) as ((l' & bs & E & _ & Hp & _) & _ & H).
  split; [by exists l', bs|]. by destruct (H u Hu) as (_ & _ & _ & _ & _ & ?).
Defined.

Lemma fork_copies_memory_witness : ∃ s0 l0 c u d s', free_pages demo_end s0 l0 ∧ u ∈ vs_spaces c ∧ us_size u = 5000 ∧
  copyuvm demo_end demo_data (us_dir u) 5000 (vs_mem c) = Ok d s' ∧ d ≠ 0 ∧ uread (km_mem s') d 4999 = uread (km_mem (vs_mem c)) (us_dir u) 4999.
Proof.
  destruct demo_system as (s0 & l0 & c & u & l & F0 & Hr & Hu & Hz & Fl & Ll).
  destruct (fork_copies_memory demo_end demo_data (proj1 demo_layout) (proj2 demo_layout) s0 l0 c u l F0 Hr Hu Fl) as (d & s' & l' & ? & ? & ? & ? & R & Hd & _ & _ & _ & H).
  { rewrite Hz. exact Ll. }
  exists s0, l0, c, u, d, s'. split; [done|]. split; [done|]. split; [done|]. rewrite Hz in R. split; [done|]. split; [done|]. apply H. unfold KERNBASE. lia.
Defined.

Lemma address_space_isolation_witness : ∃ s0 l0 c u d s', free_pages demo_end s0 l0 ∧ u ∈ vs_spaces c ∧ setupkvm demo_end demo_data (vs_mem c) = Ok d s' ∧
  uread (km_mem s') (us_dir u) 4999 = uread (km_mem (vs_mem c)) (us_dir u) 4999.
Proof.
  destruct demo_system as (s0 & l0 & c & u & l & F0 & Hr & Hu & Hz & Fl & Ll). destruct (reach_accounted demo_end demo_data (proj1 demo_layout) (proj2 demo_layout) l0 s0 c F0 Hr) as (l1 & bs & E & Ha).
  destruct (setup_good demo_end demo_data (proj1 demo_layout) (proj2 demo_layout) l0 _ l1 bs Ha) as (d & s' & R & _). exists s0, l0, c, u, d, s'. split; [done|]. split; [done|]. split; [done|].
  destruct c as [s sp]. destruct (address_space_isolation demo_end demo_data (proj1 demo_layout) (proj2 demo_layout) s0 l0 _ _ _ u F0 Hr (V_setup demo_end demo_data s sp d s' R) Hu) as [_ H].
  - assert (∃ a, a ∈ bs ∧ u = a_u a) as (a & Hin & ->).
    { cbn in E, Hu. rewrite E in Hu. apply list_elem_of_fmap in Hu as (a & -> & Hin). by exists a. }
    pose proof (ac_ok _ _ _ _ _ _ Ha) as Hok. rewrite list.Forall_forall in Hok. destruct (sp_dir_ok _ _ _ _ _ _ _ (ao_space _ _ _ _ _ (Hok a Hin))) as (_ & H0 & _). unfold demo_end in H0. lia.
  - apply H. unfold KERNBASE. lia.
Defined.
