(* ===== verification/Proc.v ===== *)
(** * Processes: proc.c

    The process table, the scheduler and sleep/wakeup.  Every critical section
    of ptable.lock is one atomic step (Spinlock.v proves that critical sections
    exclude each other); a function that gives the CPU up ends at its [swtch], and what it
    does when it is resumed is a definition of its own.  A [struct proc *] is an
    index into [ptable.proc].  proc.c calls the allocators, the page tables, the
    open-file table and the inode cache through the class [ProcEnv]; they never
    touch the process table. *)
From S2P Require Import Prelude Str Spinlock.

Definition NPROC : nat := 64.
Definition NOFILE : nat := 16.
Definition KSTACKSIZE : Z := 4096.

Inductive procstate := UNUSED | EMBRYO | SLEEPING | RUNNABLE | RUNNING | ZOMBIE.
#[global] Instance procstate_eq_dec : EqDecision procstate.
Proof. solve_decision. Defined.
#[global] Instance chan_eq_dec : EqDecision chan.
Proof. solve_decision. Defined.

(** [struct trapframe], without the padding. *)
Record trapframe := mkTf {
  tf_edi : Z; tf_esi : Z; tf_ebp : Z; tf_oesp : Z; tf_ebx : Z; tf_edx : Z; tf_ecx : Z; tf_eax : Z;
  tf_gs : Z; tf_fs : Z; tf_es : Z; tf_ds : Z; tf_trapno : Z;
  tf_err : Z; tf_eip : Z; tf_cs : Z; tf_eflags : Z; tf_esp : Z; tf_ss : Z }.

(** [struct context] *)
Record context := mkCtx { c_edi : Z; c_esi : Z; c_ebx : Z; c_ebp : Z; c_eip : Z }.

(** [struct proc]; [tf] and [context] are what the pointers of that name point
    to, in the process's kernel stack, and [p_kret] is the word between the two. *)
Record proc := mkProc {
  p_sz : Z; p_pgdir : Z; p_kstack : Z; p_state : procstate; p_pid : Z; p_parent : option nat;
  p_tf : trapframe; p_context : context; p_kret : Z; p_chan : option chan; p_killed : Z;
  p_ofile : list (option nat); p_cwd : option nat; p_name : list Z }.

Definition set_sz v p := mkProc v (p_pgdir p) (p_kstack p) (p_state p) (p_pid p) (p_parent p) (p_tf p) (p_context p) (p_kret p) (p_chan p) (p_killed p) (p_ofile p) (p_cwd p) (p_name p).
Definition set_pgdir v p := mkProc (p_sz p) v (p_kstack p) (p_state p) (p_pid p) (p_parent p) (p_tf p) (p_context p) (p_kret p) (p_chan p) (p_killed p) (p_ofile p) (p_cwd p) (p_name p).
Definition set_kstack v p := mkProc (p_sz p) (p_pgdir p) v (p_state p) (p_pid p) (p_parent p) (p_tf p) (p_context p) (p_kret p) (p_chan p) (p_killed p) (p_ofile p) (p_cwd p) (p_name p).
Definition set_state v p := mkProc (p_sz p) (p_pgdir p) (p_kstack p) v (p_pid p) (p_parent p) (p_tf p) (p_context p) (p_kret p) (p_chan p) (p_killed p) (p_ofile p) (p_cwd p) (p_name p).
Definition set_pid v p := mkProc (p_sz p) (p_pgdir p) (p_kstack p) (p_state p) v (p_parent p) (p_tf p) (p_context p) (p_kret p) (p_chan p) (p_killed p) (p_ofile p) (p_cwd p) (p_name p).
Definition set_parent v p := mkProc (p_sz p) (p_pgdir p) (p_kstack p) (p_state p) (p_pid p) v (p_tf p) (p_context p) (p_kret p) (p_chan p) (p_killed p) (p_ofile p) (p_cwd p) (p_name p).
Definition set_tf v p := mkProc (p_sz p) (p_pgdir p) (p_kstack p) (p_state p) (p_pid p) (p_parent p) v (p_context p) (p_kret p) (p_chan p) (p_killed p) (p_ofile p) (p_cwd p) (p_name p).
Definition set_context v p := mkProc (p_sz p) (p_pgdir p) (p_kstack p) (p_state p) (p_pid p) (p_parent p) (p_tf p) v (p_kret p) (p_chan p) (p_killed p) (p_ofile p) (p_cwd p) (p_name p).
Definition set_kret v p := mkProc (p_sz p) (p_pgdir p) (p_kstack p) (p_state p) (p_pid p) (p_parent p) (p_tf p) (p_context p) v (p_chan p) (p_killed p) (p_ofile p) (p_cwd p) (p_name p).
Definition set_chan v p := mkProc (p_sz p) (p_pgdir p) (p_kstack p) (p_state p) (p_pid p) (p_parent p) (p_tf p) (p_context p) (p_kret p) v (p_killed p) (p_ofile p) (p_cwd p) (p_name p).
Definition set_killed v p := mkProc (p_sz p) (p_pgdir p) (p_kstack p) (p_state p) (p_pid p) (p_parent p) (p_tf p) (p_context p) (p_kret p) (p_chan p) v (p_ofile p) (p_cwd p) (p_name p).
Definition set_ofile v p := mkProc (p_sz p) (p_pgdir p) (p_kstack p) (p_state p) (p_pid p) (p_parent p) (p_tf p) (p_context p) (p_kret p) (p_chan p) (p_killed p) v (p_cwd p) (p_name p).
Definition set_cwd v p := mkProc (p_sz p) (p_pgdir p) (p_kstack p) (p_state p) (p_pid p) (p_parent p) (p_tf p) (p_context p) (p_kret p) (p_chan p) (p_killed p) (p_ofile p) v (p_name p).
Definition set_name v p := mkProc (p_sz p) (p_pgdir p) (p_kstack p) (p_state p) (p_pid p) (p_parent p) (p_tf p) (p_context p) (p_kret p) (p_chan p) (p_killed p) (p_ofile p) (p_cwd p) v.

Definition set_eax (v : Z) (t : trapframe) : trapframe :=
  mkTf (tf_edi t) (tf_esi t) (tf_ebp t) (tf_oesp t) (tf_ebx t) (tf_edx t) (tf_ecx t) v
    (tf_gs t) (tf_fs t) (tf_es t) (tf_ds t) (tf_trapno t)
    (tf_err t) (tf_eip t) (tf_cs t) (tf_eflags t) (tf_esp t) (tf_ss t).

(** ** What proc.c uses of the rest of the kernel *)

Class ProcEnv (E : Type) := {
  pe_kalloc : M E Z;
  pe_kfree : Z → M E unit;
  pe_setupkvm : M E Z;
  pe_inituvm : Z → M E unit;
  pe_allocuvm : Z → Z → Z → M E Z;
  pe_deallocuvm : Z → Z → Z → M E Z;
  pe_copyuvm : Z → Z → M E Z;
  pe_freevm : Z → M E unit;
  pe_filedup : nat → M E nat;
  pe_fileclose : nat → M E unit;
  pe_idup : nat → M E nat;
  pe_begin_op : M E unit;
  pe_end_op : M E unit;
  pe_iput : nat → M E unit;
  pe_namei : list Z → M E (option nat);
  (** Freeing memory does not wait for anything. *)
  pe_kfree_awake v : awake (pe_kfree v);
  pe_freevm_awake d : awake (pe_freevm d) }.

Record pst (E : Type) := mkPst {
  ps_env : E; ptable : list proc; nextpid : Z; initproc : option nat }.
Arguments mkPst {E}.
Arguments ps_env {E}.
Arguments ptable {E}.
Arguments nextpid {E}.
Arguments initproc {E}.

(** ** Scans of the table *)

(** The first slot from [i] on that satisfies [f]. *)
Fixpoint find_slot (f : proc → bool) (l : list proc) (i : nat) : option nat :=
  match l with
  | [] => None
  | p :: l => if f p then Some i else find_slot f l (S i)
  end.

Definition is_state (st : procstate) (p : proc) : bool := bool_decide (p_state p = st).
Definition child_of (me : nat) (p : proc) : bool := bool_decide (p_parent p = Some me).

(** The scan of [wait]: whether a child was met, and the first zombie child. *)
Fixpoint wait_scan (me : nat) (l : list proc) (i : nat) (havekids : bool) : bool * option nat :=
  match l with
  | [] => (havekids, None)
  | p :: l =>
      if negb (child_of me p) then wait_scan me l (S i) havekids else
      if is_state ZOMBIE p then (true, Some i) else wait_scan me l (S i) true
  end.

Definition wakeup_one (c : option chan) (p : proc) : proc :=
  if is_state SLEEPING p && bool_decide (p_chan p = c) then set_state RUNNABLE p else p.

(** Addresses of the two labels allocproc stores. *)
Record labels := mkLabels { l_forkret : Z; l_trapret : Z }.

Section code.
Context {E : Type} {PE : ProcEnv E}.
Context (lb : labels).

Abbreviation P A := (M (pst E) A).

Definition env {A} (m : M E A) : P A :=
  zoom ps_env (λ e s, mkPst e (ptable s) (nextpid s) (initproc s)) m.
Definition set_table (l : list proc) (s : pst E) : pst E := mkPst (ps_env s) l (nextpid s) (initproc s).
Definition getp (i : nat) : P proc := λ s,
  match ptable s !! i with Some p => Ok p s | None => Panic "page fault" end.
Definition modp (f : proc → proc) (i : nat) : P unit := λ s,
  match ptable s !! i with
  | Some p => Ok tt (set_table (<[i := f p]> (ptable s)) s)
  | None => Panic "page fault"
  end.

(** [wakeup1(chan)]; a null channel is [None]. *)
Definition wakeup1 (c : option chan) : P unit :=
  modify (λ s, set_table (wakeup_one c <$> ptable s) s).
Definition wakeup (c : option chan) : P unit := wakeup1 c.

(** ** Creation *)

(** The critical section of allocproc. *)
Definition allocproc_slot : P (option nat) := λ s,
  match find_slot (is_state UNUSED) (ptable s) 0 with
  | None => Ok None s
  | Some i =>
      (do! modp (λ p, set_pid (nextpid s) (set_state EMBRYO p)) i in
       do! modify (λ s, mkPst (ps_env s) (ptable s) (s32 (nextpid s + 1)) (initproc s)) in
       ret (Some i)) s
  end.

(** The rest of allocproc: the kernel stack, with the trap frame at its top, the
    return address [trapret] and a context that starts at [forkret] below. *)
Definition allocproc_stack (i : nat) : P (option nat) :=
  let! k := env pe_kalloc in
  do! modp (set_kstack k) i in
  if k =? 0 then
    do! modp (set_state UNUSED) i in
    ret None
  else
    do! modp (set_kret (l_trapret lb)) i in
    do! modp (set_context (mkCtx 0 0 0 0 (l_forkret lb))) i in
    ret (Some i).

Definition allocproc : P (option nat) :=
  let! r := allocproc_slot in
  match r with
  | None => ret None
  | Some i => allocproc_stack i
  end.

(** [for(i = 0; i < NOFILE; i++) if(curproc->ofile[i]) np->ofile[i] = filedup(...)] *)
Definition dup_file (me np i : nat) : P unit :=
  let! p := getp me in
  match nth i (p_ofile p) None with
  | None => ret tt
  | Some f =>
      let! f := env (pe_filedup f) in
      modp (λ q, set_ofile (<[i := Some f]> (p_ofile q)) q) np
  end.

(** [fork] after allocproc returned the slot [np]. *)
Definition fork_body (me np : nat) : P Z :=
  let! cur := getp me in
  let! d := env (pe_copyuvm (p_pgdir cur) (p_sz cur)) in
  do! modp (set_pgdir d) np in
  if d =? 0 then
    let! q := getp np in
    do! env (pe_kfree (p_kstack q)) in
    do! modp (set_kstack 0) np in
    do! modp (set_state UNUSED) np in
    ret (-1)
  else
  do! modp (set_sz (p_sz cur)) np in
  do! modp (set_parent (Some me)) np in
  do! modp (set_tf (set_eax 0 (p_tf cur))) np in
  do! for_each (seq 0 NOFILE) (dup_file me np) in
  let! ip := env (match p_cwd cur with
                  | Some ip => let! ip := pe_idup ip in ret (Some ip)
                  | None => panic "page fault"
                  end) in
  do! modp (set_cwd ip) np in
  do! modp (λ q, set_name (list_inserts 0 (safestrcpy (cstr (p_name cur)) 16) (p_name q)) q) np in
  let! q := getp np in
  do! modp (set_state RUNNABLE) np in
  ret (p_pid q).

Definition fork (me : nat) : P Z :=
  let! np := allocproc in
  match np with
  | None => ret (-1)
  | Some np => fork_body me np
  end.

(** The first process; ["initcode"] and ["/"] are byte strings. *)
Definition initcode_name : list Z := [105; 110; 105; 116; 99; 111; 100; 101].
Definition user_tf : trapframe :=
  mkTf 0 0 0 0 0 0 0 0 0 0 (Z.lor (Z.shiftl 4 3) 3) (Z.lor (Z.shiftl 4 3) 3) 0
    0 0 (Z.lor (Z.shiftl 3 3) 3) 0x200 4096 (Z.lor (Z.shiftl 4 3) 3).

Definition userinit : P unit :=
  let! r := allocproc in
  do! modify (λ s, mkPst (ps_env s) (ptable s) (nextpid s) r) in
  match r with
  | None => panic "page fault"
  | Some p =>
      let! d := env pe_setupkvm in
      do! modp (set_pgdir d) p in
      if d =? 0 then panic "userinit: out of memory?" else
      do! env (pe_inituvm d) in
      do! modp (set_sz 4096) p in
      do! modp (set_tf user_tf) p in
      do! modp (λ q, set_name (list_inserts 0 (safestrcpy (cstr initcode_name) 16) (p_name q)) q) p in
      let! ip := env (pe_namei [47]) in
      do! modp (set_cwd ip) p in
      modp (set_state RUNNABLE) p
  end.

(** [switchuvm]: its checks; the rest loads hardware registers. *)
Definition switchuvm (i : nat) : P unit :=
  let! p := getp i in
  if p_kstack p =? 0 then panic "switchuvm: no kstack" else
  if p_pgdir p =? 0 then panic "switchuvm: no pgdir" else ret tt.

(** [n] is an [int], the size a [uint]. *)
Definition growproc (me : nat) (n : Z) : P Z :=
  let! p := getp me in
  let finish sz := (do! modp (set_sz sz) me in do! switchuvm me in ret 0) in
  if 0 <? n then
    let! sz := env (pe_allocuvm (p_pgdir p) (p_sz p) (u32 (p_sz p + n))) in
    if sz =? 0 then ret (-1) else finish sz
  else if n <? 0 then
    let! sz := env (pe_deallocuvm (p_pgdir p) (p_sz p) (u32 (p_sz p + n))) in
    if sz =? 0 then ret (-1) else finish sz
  else finish (p_sz p).

(** ** Giving up the CPU *)

(** The checks of [sched]: [c] is the CPU the process runs on, [held] whether it
    holds ptable.lock.  The result is the [intena] it saves for the process. *)
Definition sched (c : cpu) (held : bool) (me : nat) : P bool :=
  if negb held then panic "sched ptable.lock" else
  if negb (ncli c =? 1) then panic "sched locks" else
  let! p := getp me in
  if is_state RUNNING p then panic "sched running" else
  if fl_if c then panic "sched interruptible" else
  ret (intena c).

(** The CPU after a pushcli, as in acquire. *)
Definition pushed (c : cpu) : cpu :=
  match pushcli (mkSst c initlock) with Ok _ s => this s | _ => c end.
(** And after a popcli, as in release. *)
Definition popped (c : cpu) : cpu :=
  match popcli (mkSst c initlock) with Ok _ s => this s | _ => c end.

Definition yield (c : cpu) (me : nat) : P bool :=
  do! modp (set_state RUNNABLE) me in
  sched (pushed c) true me.

(** [sleep(chan, lk)] up to the [swtch]: [is_pt] tells whether [lk] is
    ptable.lock itself; the caller holds [lk]. *)
Definition sleep (c : cpu) (is_pt : bool) (ch : chan) (me : nat) : P unit :=
  let c := if is_pt then c else popped (pushed c) in
  do! modp (set_chan (Some ch)) me in
  do! modp (set_state SLEEPING) me in
  do! sched c true me in
  λ s, Sleeping ch s.
(** What a process does when it is switched to in [sleep]. *)
Definition sleep_resume (me : nat) : P unit := modp (set_chan None) me.

(** ** Termination *)

Definition close_fd (me fd : nat) : P unit :=
  let! p := getp me in
  match nth fd (p_ofile p) None with
  | None => ret tt
  | Some f =>
      do! env (pe_fileclose f) in
      modp (λ q, set_ofile (<[fd := None]> (p_ofile q)) q) me
  end.

(** [exit] before it acquires ptable.lock. *)
Definition exit_files (me : nat) : P unit :=
  let! ip := gets initproc in
  if bool_decide (ip = Some me) then panic "init exiting" else
  do! for_each (seq 0 NOFILE) (close_fd me) in
  do! env pe_begin_op in
  let! p := getp me in
  do! env (match p_cwd p with Some ip => pe_iput ip | None => panic "page fault" end) in
  do! env pe_end_op in
  modp (set_cwd None) me.

(** The channel of a process, a possibly null [struct proc *]. *)
Definition proc_chan (i : option nat) : option chan := (λ i : nat, Chan "proc" i) <$> i.

(** One turn of the loop that passes the children to init. *)
Definition reparent (me i : nat) : P unit :=
  let! p := getp i in
  if child_of me p then
    let! ip := gets initproc in
    do! modp (set_parent ip) i in
    if is_state ZOMBIE p then wakeup1 (proc_chan ip) else ret tt
  else ret tt.

(** [exit] from [acquire(&ptable.lock)] on; it ends in [sched]. *)
Definition exit_locked (c : cpu) (me : nat) : P unit :=
  let! p := getp me in
  do! wakeup1 (proc_chan (p_parent p)) in
  let! l := gets ptable in
  do! for_each (seq 0 (length l)) (reparent me) in
  do! modp (set_state ZOMBIE) me in
  do! sched (pushed c) true me in
  ret tt.

Definition exit (c : cpu) (me : nat) : P unit :=
  do! exit_files me in
  exit_locked c me.

Definition reap (i : nat) : P Z :=
  let! p := getp i in
  do! env (pe_kfree (p_kstack p)) in
  do! modp (set_kstack 0) i in
  do! env (pe_freevm (p_pgdir p)) in
  do! modp (set_pid 0) i in
  do! modp (set_parent None) i in
  do! modp (λ q, set_name (<[O := 0]> (p_name q)) q) i in
  do! modp (set_killed 0) i in
  do! modp (set_state UNUSED) i in
  ret (p_pid p).

(** One pass of the loop of [wait]; [Sleeping] when it goes to sleep, to run
    the loop again when it is resumed. *)
Definition wait (c : cpu) (me : nat) : P Z :=
  let! l := gets ptable in
  match wait_scan me l 0 false with
  | (_, Some i) => reap i
  | (havekids, None) =>
      let! p := getp me in
      if negb havekids || truthy (p_killed p) then ret (-1) else
      do! sleep (pushed c) true (Chan "proc" me) me in
      ret 0
  end.

Definition kill (pid : Z) : P Z := λ s,
  match find_slot (λ p, p_pid p =? pid) (ptable s) 0 with
  | None => Ok (-1) s
  | Some i =>
      (do! modp (set_killed 1) i in
       let! p := getp i in
       do! (if is_state SLEEPING p then modp (set_state RUNNABLE) i else ret tt) in
       ret 0) s
  end.

(** ** The scheduler *)

(** The slot the loop of [scheduler] runs next when it is at slot [k]: [None] is
    the end of a pass over the table. *)
Definition scheduler_next (l : list proc) (k : nat) : option nat :=
  find_slot (is_state RUNNABLE) (drop k l) k.

(** The body of the loop up to [swtch]. *)
Definition dispatch (i : nat) : P unit :=
  do! switchuvm i in
  modp (set_state RUNNING) i.
End code.

(** ** What the invariants see of a process *)

Record key := mkKey { k_state : procstate; k_pid : Z; k_parent : option nat; k_chan : option chan }.
Definition key_of (p : proc) : key := mkKey (p_state p) (p_pid p) (p_parent p) (p_chan p).
Definition kset_state st k := mkKey st (k_pid k) (k_parent k) (k_chan k).
Definition kwake (c : option chan) (k : key) : key :=
  if bool_decide (k_state k = SLEEPING ∧ k_chan k = c) then kset_state RUNNABLE k else k.

(** The table as the invariants see it. *)
Abbreviation table := (nat → option key).
Definition upd (T : table) (i : nat) (g : key → key) : table :=
  λ j, if decide (j = i) then g <$> T j else T j.

Section effects.
Context {E : Type} {PE : ProcEnv E}.
Context (lb : labels).
Implicit Types s : pst E.

Definition tab s : table := λ i, key_of <$> ptable s !! i.

(** [s'] has the table [T] and the counters of [s]. *)
Definition becomes s (T : table) s' : Prop :=
  (∀ i, tab s' i = T i) ∧ nextpid s' = nextpid s ∧ initproc s' = initproc s ∧
  length (ptable s') = length (ptable s).

Lemma becomes_refl s : becomes s (tab s) s.
Proof. done. Qed.
Lemma becomes_ext s T T' s' : becomes s T s' → (∀ i, T i = T' i) → becomes s T' s'.
Proof. intros (H & ?) E1. split; [|done]. intros i. by rewrite H, E1. Qed.
Lemma becomes_trans s s1 T1 s2 (F : table → table) :
  (∀ T T', (∀ i, T i = T' i) → ∀ i, F T i = F T' i) →
  becomes s T1 s1 → becomes s1 (F (tab s1)) s2 → becomes s (F T1) s2.
Proof.
  intros HF (B1 & ? & ? & ?) (B2 & ? & ? & ?). split; [|split_and!; congruence].
  intros i. rewrite B2. by apply HF.
Qed.

Lemma env_becomes {A} (m : M E A) s a s' : env m s = Ok a s' → becomes s (tab s) s'.
Proof. unfold env, zoom. intros H. by case_match; simplify_eq. Qed.

Lemma getp_inv i s p s' : getp i s = Ok p s' → s' = s ∧ ptable s !! i = Some p.
Proof. unfold getp. case_match; naive_solver. Qed.

Lemma getp_run i s p : ptable s !! i = Some p → getp i s = Ok p s.
Proof. unfold getp. by intros ->. Qed.
Lemma modp_run f i s p :
  ptable s !! i = Some p →
  ∃ s', modp f i s = Ok tt s' ∧ ptable s' !! i = Some (f p).
Proof.
  intros Hp. unfold modp. rewrite Hp. eexists. split; [done|]. cbn.
  rewrite list_lookup_insert_eq; [done|]. by eapply lookup_lt_Some.
Qed.

Lemma modp_becomes f g i s s' :
  modp f i s = Ok tt s' → (∀ p, key_of (f p) = g (key_of p)) → becomes s (upd (tab s) i g) s'.
Proof.
  unfold modp. destruct (ptable s !! i) as [p|] eqn:Hi; [|done]. intros [= <-] Hg.
  split; [|cbn; by rewrite length_insert]. intros j. unfold tab, upd; cbn.
  destruct (decide (j = i)) as [->|Hne].
  - rewrite list_lookup_insert_eq by by eapply lookup_lt_Some. rewrite Hi. cbn. by rewrite Hg.
  - by rewrite list_lookup_insert_ne.
Qed.

(** A change of fields the invariants do not see. *)
Lemma modp_silent f i s s' :
  modp f i s = Ok tt s' → (∀ p, key_of (f p) = key_of p) → becomes s (tab s) s'.
Proof.
  intros H Hf. eapply becomes_ext; [by apply (modp_becomes f id)|].
  intros j. unfold upd. case_decide; [|done]. by destruct (tab s j).
Qed.

Lemma becomes_step s T s1 s2 : becomes s T s1 → becomes s1 (tab s1) s2 → becomes s T s2.
Proof. intros H1 H2. by apply (becomes_trans s s1 T s2 (λ T, T)). Qed.

Lemma becomes_upd s T s1 i g s2 :
  becomes s T s1 → becomes s1 (upd (tab s1) i g) s2 → becomes s (upd T i g) s2.
Proof.
  intros H1 H2. apply (becomes_trans s s1 T s2 (λ T, upd T i g)); [|done..].
  intros T1 T2 HT j. unfold upd. by rewrite HT.
Qed.

Lemma for_each_silent {A} (f : A → M (pst E) unit) l s s' :
  (∀ x s s', f x s = Ok tt s' → becomes s (tab s) s') →
  for_each l f s = Ok tt s' → becomes s (tab s) s'.
Proof.
  intros Hf. revert s; induction l as [|x l IH]; intros s; simpl.
  - by intros [= <-].
  - intros ([] & s1 & R1 & R2)%bind_Ok_inv. eapply becomes_step; [by eapply Hf|]. by apply IH.
Qed.

Lemma wakeup1_becomes c s s' :
  wakeup1 c s = Ok tt s' → becomes s (λ i, kwake c <$> tab s i) s'.
Proof.
  intros [= <-]. split; [|cbn; by rewrite length_fmap]. intros i. unfold tab; cbn.
  rewrite list_lookup_fmap. destruct (ptable s !! i) as [p|]; [|done]. cbn. f_equal.
  unfold wakeup_one, kwake, is_state; cbn. repeat case_bool_decide; naive_solver.
Qed.

(** Decompose a hypothesis [bind _ _ _ = Ok _ _]. *)
Ltac unbind H :=
  let a := fresh "a" in let s := fresh "s" in let R := fresh "R" in
  apply bind_Ok_inv in H as (a & s & R & H);
  try (match type of a with unit => destruct a end).
(** Follow steps that the table does not show. *)
Ltac silent :=
  match goal with
  | B : becomes ?s ?T ?s1, R : env _ ?s1 = Ok _ ?s2 |- _ =>
      apply env_becomes in R; apply (becomes_step s T s1 s2 B) in R; clear B
  | B : becomes ?s ?T ?s1, R : modp _ _ ?s1 = Ok tt ?s2 |- _ =>
      apply modp_silent in R; [|done]; apply (becomes_step s T s1 s2 B) in R; clear B
  end.
Ltac silent_loop L :=
  match goal with
  | B : becomes ?s ?T ?s1, R : for_each _ _ ?s1 = Ok tt ?s2 |- _ =>
      apply for_each_silent in R; [|intros ???; apply L]; apply (becomes_step s T s1 s2 B) in R; clear B
  end.
Ltac visible g :=
  match goal with
  | B : becomes ?s ?T ?s1, R : modp _ ?i ?s1 = Ok tt ?s2 |- _ =>
      apply (modp_becomes _ g) in R; [|done]; apply (becomes_upd s T s1 i g s2 B) in R; clear B
  end.
Ltac got :=
  match goal with
  | R : getp _ _ = Ok _ _ |- _ => apply getp_inv in R as [-> R]
  end.

Definition k_unused (k : key) : key := kset_state UNUSED k.
Definition k_child (me : nat) (k : key) : key := mkKey RUNNABLE (k_pid k) (Some me) (k_chan k).

Lemma dup_file_silent me np i s s' : dup_file me np i s = Ok tt s' → becomes s (tab s) s'.
Proof.
  unfold dup_file. intros H. unbind H. got. destruct (nth i (p_ofile _) None).
  - unbind H. pose proof (becomes_refl s). silent. by apply modp_silent in H; [|done]; eapply becomes_step.
  - by injection H as <-.
Qed.

Lemma upd_upd T i f g j : upd (upd T i f) i g j = upd T i (λ k, g (f k)) j.
Proof. unfold upd. case_decide; [|done]. by destruct (T j). Qed.

(** fork either undoes the allocation or makes the slot a runnable child. *)
Lemma fork_body_becomes me np s r s' :
  fork_body me np s = Ok r s' →
  becomes s (upd (tab s) np k_unused) s' ∨ becomes s (upd (tab s) np (k_child me)) s'.
Proof.
  unfold fork_body. intros H. pose proof (becomes_refl s) as B. unbind H. got. unbind H. silent. unbind H. silent.
  destruct (_ =? 0).
  - left. unbind H. got. unbind H. silent. unbind H. silent. unbind H. visible k_unused. by injection H as <- <-.
  - right. unbind H. silent. unbind H. visible (λ k, mkKey (k_state k) (k_pid k) (Some me) (k_chan k)).
    unbind H. silent. unbind H. silent_loop dup_file_silent.
    unbind H. silent. unbind H. silent. unbind H. silent.
    unbind H. got. unbind H. visible (kset_state RUNNABLE). injection H as <- <-.
    eapply becomes_ext; [done|]. intros j. by rewrite upd_upd.
Qed.

Definition k_reaped (k : key) : key := mkKey UNUSED 0 None (k_chan k).

Lemma reap_becomes i s r s' : reap i s = Ok r s' → becomes s (upd (tab s) i k_reaped) s'.
Proof.
  unfold reap. intros H. pose proof (becomes_refl s) as B. unbind H. got. unbind H. silent. unbind H. silent.
  unbind H. silent. unbind H. visible (λ k, mkKey (k_state k) 0 (k_parent k) (k_chan k)).
  unbind H. visible (λ k, mkKey (k_state k) (k_pid k) None (k_chan k)). unbind H. silent. unbind H. silent.
  unbind H. visible (kset_state UNUSED). injection H as <- <-. eapply becomes_ext; [done|]. intros j. by rewrite !upd_upd.
Qed.

(** *** The children of an exiting process *)

(** [kpass]: pass a child of [me] to [ip]. *)
Definition kpass (me : nat) (ip : option nat) (k : key) : key :=
  mkKey (k_state k) (k_pid k) (if bool_decide (k_parent k = Some me) then ip else k_parent k) (k_chan k).
Definition zombie_child (me : nat) (o : option key) : bool :=
  match o with Some k => bool_decide (k_parent k = Some me ∧ k_state k = ZOMBIE) | None => false end.
(** A zombie child was met among the slots below [i]. *)
Definition zchild (me : nat) (T : table) (i : nat) : bool := existsb (λ j, zombie_child me (T j)) (seq 0 i).
(** The table after [i] turns of the loop. *)
Definition passed (me : nat) (ip : option nat) (T : table) (i : nat) : table := λ j,
  (λ k, let k := if zchild me T i then kwake (proc_chan ip) k else k in
        if decide (j < i)%nat then kpass me ip k else k) <$> T j.

Lemma zchild_S me T i : zchild me T (S i) = zchild me T i || zombie_child me (T i).
Proof. unfold zchild. rewrite seq_S, existsb_app. simpl. by rewrite orb_false_r. Qed.

Lemma kwake_parent c k : k_parent (kwake c k) = k_parent k.
Proof. unfold kwake. by case_bool_decide. Qed.
Lemma kwake_pid c k : k_pid (kwake c k) = k_pid k.
Proof. unfold kwake. by case_bool_decide. Qed.
Lemma kwake_idemp c k : kwake c (kwake c k) = kwake c k.
Proof. unfold kwake. repeat case_bool_decide; naive_solver. Qed.
Lemma kwake_kpass c me ip k : kwake c (kpass me ip k) = kpass me ip (kwake c k).
Proof. unfold kwake, kpass; cbn. repeat (case_bool_decide; cbn); naive_solver. Qed.
Lemma kwake_zombie c k : k_state (kwake c k) = ZOMBIE ↔ k_state k = ZOMBIE.
Proof. unfold kwake. case_bool_decide as Hb; cbn; [destruct Hb as [-> _]; split; congruence|done]. Qed.

Lemma getp_tab i s k : tab s i = Some k → ∃ p, getp i s = Ok p s ∧ key_of p = k ∧ ptable s !! i = Some p.
Proof. unfold tab, getp. destruct (ptable s !! i); naive_solver. Qed.

Lemma modp_total f i s k : tab s i = Some k → ∃ s', modp f i s = Ok tt s'.
Proof. unfold tab, modp. destruct (ptable s !! i); naive_solver. Qed.

Lemma tab_Some s i : (i < length (ptable s))%nat → is_Some (tab s i).
Proof. intros Hi. unfold tab. destruct (lookup_lt_is_Some_2 _ _ Hi) as [p ->]. by eexists. Qed.

(** One turn of the loop. *)
Lemma reparent_turn me ip s0 s T i :
  becomes s0 (passed me ip T i) s → initproc s0 = ip → (i < length (ptable s0))%nat →
  ∃ s', reparent me i s = Ok tt s' ∧ becomes s0 (passed me ip T (S i)) s'.
Proof.
  intros B Hip Hi. pose proof B as (HT & _ & Hip' & Hlen).
  destruct (tab_Some s i) as [k Hk]; [lia|]. destruct (getp_tab i s k Hk) as (p & Rp & <- & _).
  pose proof Hk as Hk'. rewrite HT in Hk'. unfold passed in Hk'. destruct (decide (i < i)%nat); [lia|].
  destruct (T i) as [k0|] eqn:HTi; [|done]. cbn in Hk'. injection Hk' as Hk0.
  assert (p_parent p = k_parent k0 ∧ (p_state p = ZOMBIE ↔ k_state k0 = ZOMBIE)) as [Hpar Hzom].
  { change (p_parent p) with (k_parent (key_of p)). change (p_state p) with (k_state (key_of p)).
    rewrite <- Hk0. destruct (zchild me T i); [|done]. by rewrite kwake_parent, kwake_zombie. }
  assert (zombie_child me (T i) = child_of me p && is_state ZOMBIE p) as Hz.
  { rewrite HTi. unfold zombie_child, child_of, is_state. rewrite Hpar.
    repeat case_bool_decide; naive_solver. }
  unfold reparent. rewrite (bind_Ok _ _ _ _ _ Rp). destruct (child_of me p) eqn:Hc.
  - rewrite bind_gets, Hip'. destruct (modp_total (set_parent (initproc s0)) i s _ Hk) as [s1 R1].
    rewrite (bind_Ok _ _ _ _ _ R1). rewrite Hip in *.
    apply (modp_becomes _ (λ k, mkKey (k_state k) (k_pid k) ip (k_chan k))) in R1; [|done].
    apply (becomes_upd s0 _ s i _ s1 B) in R1.
    assert (becomes s0 (λ j, (λ k, let k := if zchild me T i then kwake (proc_chan ip) k else k in
              if decide (j < S i)%nat then kpass me ip k else k) <$> T j) s1) as B1.
    { eapply becomes_ext; [exact R1|]. intros j. unfold upd, passed. destruct (decide (j = i)) as [->|Hj].
      - rewrite HTi. cbn. destruct (decide (i < i)%nat), (decide (i < S i)%nat); try lia. f_equal.
        unfold kpass. apply bool_decide_eq_true in Hc. rewrite Hpar in Hc.
        destruct (zchild me T i); rewrite ?kwake_parent, Hc; by rewrite bool_decide_true.
      - destruct (decide (j < i)%nat), (decide (j < S i)%nat); (done || lia). }
    destruct (is_state ZOMBIE p); cbn in Hz.
    + eexists. split; [done|]. eapply becomes_ext.
      * eapply (becomes_trans s0 s1 _ _ (λ T j, kwake (proc_chan ip) <$> T j)); [|exact B1|by apply wakeup1_becomes].
        intros T1 T2 H12 j. by rewrite H12.
      * intros j. unfold passed. rewrite zchild_S, Hz, orb_true_r. destruct (T j) as [kj|]; [|done]. cbn. f_equal.
        destruct (decide (j < S i)%nat); destruct (zchild me T i); by rewrite ?kwake_kpass, ?kwake_idemp.
    + exists s1. split; [done|]. eapply becomes_ext; [exact B1|]. intros j. unfold passed.
      by rewrite zchild_S, Hz, orb_false_r.
  - exists s. split; [done|]. eapply becomes_ext; [exact B|]. intros j. unfold passed.
    rewrite zchild_S, Hz, orb_false_r. destruct (T j) as [kj|] eqn:HTj; [|done]. cbn. f_equal.
    destruct (decide (j < i)%nat), (decide (j < S i)%nat); try done; try lia.
    assert (j = i) as -> by lia. rewrite HTi in HTj. injection HTj as <-. unfold kpass.
    apply bool_decide_eq_false in Hc. rewrite Hpar in Hc.
    destruct (zchild me T i); rewrite ?kwake_parent, bool_decide_false by done.
    + rewrite <- (kwake_parent (proc_chan ip) k0). by destruct (kwake _ k0).
    + by destruct k0.
Qed.

Lemma sched_pure c held me s b s' : sched c held me s = Ok b s' → s' = s.
Proof.
  unfold sched. intros Hs. repeat (case_match; [done|]). unbind Hs. got. repeat (case_match; [done|]). by injection Hs as <- <-.
Qed.

Lemma exit_locked_becomes c me s s' k ip :
  exit_locked c me s = Ok tt s' → tab s me = Some k → initproc s = ip →
  let T1 := λ j, kwake (proc_chan (k_parent k)) <$> tab s j in
  becomes s (upd (passed me ip T1 (length (ptable s))) me (kset_state ZOMBIE)) s'.
Proof.
  intros H Hk Hip T1. unfold exit_locked in H. unbind H. got.
  assert (p_parent a = k_parent k) as Hpar.
  { unfold tab in Hk. rewrite R in Hk. by injection Hk as <-. }
  rewrite Hpar in H. unbind H. apply wakeup1_becomes in R0. fold T1 in R0. rewrite bind_gets in H.
  pose proof R0 as (_ & _ & Hip1 & Hlen1).
  destruct (for_seq_inv (reparent me) (λ i x, becomes s (passed me ip T1 i) x) (length (ptable s0)) s0) as (s2 & R2 & B2).
  - eapply becomes_ext; [exact R0|]. intros j. unfold passed, zchild. simpl. destruct (decide (j < 0)%nat); [lia|].
    by destruct (T1 j).
  - intros i x Hi B. by apply (reparent_turn me ip s x T1 i); [..|lia].
  - rewrite (bind_Ok _ _ _ _ _ R2) in H. rewrite Hlen1 in B2. unbind H. visible (kset_state ZOMBIE).
    unbind H. injection H as <-.
    match goal with R : sched _ _ _ _ = Ok _ _ |- _ => apply sched_pure in R as -> end. done.
Qed.

(** *** Scans *)

Lemma find_slot_Some f l i0 i :
  find_slot f l i0 = Some i → ∃ p, (i0 ≤ i)%nat ∧ l !! (i - i0)%nat = Some p ∧ f p = true.
Proof.
  revert i0; induction l as [|p l IH]; intros i0; simpl; [done|]. destruct (f p) eqn:Hf.
  - intros [= <-]. exists p. by rewrite Nat.sub_diag.
  - intros (q & Hle & Hq & Hfq)%IH. exists q. split; [lia|]. split; [|done].
    replace (i - i0)%nat with (S (i - S i0)) by lia. done.
Qed.

Lemma wait_scan_Some me l i0 hk hk' i :
  wait_scan me l i0 hk = (hk', Some i) →
  ∃ p, (i0 ≤ i)%nat ∧ l !! (i - i0)%nat = Some p ∧ p_parent p = Some me ∧ p_state p = ZOMBIE.
Proof.
  revert i0 hk; induction l as [|p l IH]; intros i0 hk; simpl; [done|]. unfold child_of, is_state.
  assert (∀ hk, wait_scan me l (S i0) hk = (hk', Some i) →
    ∃ q, (i0 ≤ i)%nat ∧ (p :: l) !! (i - i0)%nat = Some q ∧ p_parent q = Some me ∧ p_state q = ZOMBIE) as IH'.
  { intros hk0 (q & Hle & Hq & Hp)%IH. exists q. split; [lia|]. split; [|done].
    replace (i - i0)%nat with (S (i - S i0)) by lia. done. }
  case_bool_decide; simpl; [|by apply IH']. case_bool_decide; [|by apply IH'].
  intros [= <- <-]. exists p. by rewrite Nat.sub_diag.
Qed.

Lemma wait_scan_None me l i0 hk hk' :
  wait_scan me l i0 hk = (hk', None) →
  (∀ p, p ∈ l → p_parent p = Some me → p_state p ≠ ZOMBIE) ∧
  (hk' = true → hk = true ∨ ∃ p, p ∈ l ∧ p_parent p = Some me).
Proof.
  revert i0 hk; induction l as [|p l IH]; intros i0 hk; simpl.
  - intros [= <-]. split; [|by left]. intros p []%elem_of_nil.
  - unfold child_of, is_state. case_bool_decide as Hc; simpl; [case_bool_decide as Hz; [done|]|]; intros [H1 H2]%IH; split.
    + intros q [->|Hq]%elem_of_cons; auto.
    + intros _. right. exists p. split; [apply list_elem_of_here|done].
    + intros q [->|Hq]%elem_of_cons; [done|auto].
    + intros [?|(q & Hq & ?)]%H2; [by left|right]. exists q. split; [by apply list_elem_of_further|done].
Qed.

Lemma tab_lookup s i p : ptable s !! i = Some p → tab s i = Some (key_of p).
Proof. unfold tab. by intros ->. Qed.

Lemma allocproc_slot_becomes s i s' :
  allocproc_slot s = Ok (Some i) s' →
  ∃ k, tab s i = Some k ∧ k_state k = UNUSED ∧
    (∀ j, tab s' j = upd (tab s) i (λ k, mkKey EMBRYO (nextpid s) (k_parent k) (k_chan k)) j) ∧
    nextpid s' = s32 (nextpid s + 1) ∧ initproc s' = initproc s.
Proof.
  unfold allocproc_slot. destruct (find_slot _ _ _) as [i'|] eqn:Hf; [|done]. intros H.
  apply find_slot_Some in Hf as (p & _ & Hp & Hu). rewrite Nat.sub_0_r in Hp. apply bool_decide_eq_true in Hu.
  pose proof (becomes_refl s) as B. unbind H. visible (λ k, mkKey EMBRYO (nextpid s) (k_parent k) (k_chan k)).
  injection H as <- <-. exists (key_of p). destruct R as (HT & Hn & Hi & _).
  split; [by apply tab_lookup|]. split; [done|]. split; [done|]. cbn. by rewrite Hn.
Qed.

(** allocproc's second half and fork's body. *)
Definition fork_rest (me np : nat) : M (pst E) Z :=
  let! r := allocproc_stack lb np in
  match r with
  | None => ret (-1)
  | Some np => fork_body me np
  end.

Lemma fork_split me s :
  fork lb me s =
  (let! r := allocproc_slot in
   match r with None => ret (-1) | Some np => fork_rest me np end) s.
Proof.
  unfold fork, allocproc, fork_rest. rewrite bind_assoc. unfold bind.
  destruct (allocproc_slot s) as [[np|] s1| | |]; auto.
Qed.

Lemma fork_rest_becomes me np s r s' :
  fork_rest me np s = Ok r s' →
  becomes s (upd (tab s) np k_unused) s' ∨ becomes s (upd (tab s) np (k_child me)) s'.
Proof.
  unfold fork_rest, allocproc_stack. intros H. pose proof (becomes_refl s) as B. unbind H. unbind R. silent.
  unbind R. silent. destruct (_ =? 0).
  - unbind R. visible k_unused. injection R as <- <-. injection H as <- <-. by left.
  - unbind R. silent. unbind R. silent. injection R as <- <-. apply fork_body_becomes in H as [H|H]; [left|right]; by eapply becomes_upd.
Qed.

Definition k_woken (k : key) : key :=
  if bool_decide (k_state k = SLEEPING) then kset_state RUNNABLE k else k.

Lemma kill_becomes pid s r s' :
  kill pid s = Ok r s' → ∃ i, becomes s (upd (tab s) i k_woken) s'.
Proof.
  unfold kill. destruct (find_slot _ _ _) as [i|] eqn:Hf.
  - intros H. exists i. pose proof (becomes_refl s) as B. unbind H. silent. pose proof R as (HT & _).
    unbind H. got. apply tab_lookup in R0. rewrite HT in R0. unbind H. injection H as <- <-.
    unfold is_state in *. case_bool_decide as Hs.
    + visible (kset_state RUNNABLE). eapply becomes_ext; [done|]. intros j. unfold upd. case_decide; [|done]. subst.
      rewrite R0. cbn. unfold k_woken. by rewrite bool_decide_true.
    + injection R1 as <-. eapply becomes_ext; [done|]. intros j. unfold upd. case_decide; [|done]. subst.
      rewrite R0. cbn. unfold k_woken. by rewrite bool_decide_false.
  - intros [= <- <-]. exists (length (ptable s)). eapply becomes_ext; [apply becomes_refl|]. intros j. unfold upd.
    case_decide; [|done]. subst. unfold tab. by rewrite lookup_ge_None_2.
Qed.

Lemma modp_awake f i : awake (modp (E:=E) f i).
Proof. intros s ch s'. unfold modp. by case_match. Qed.
Lemma getp_awake i : awake (getp (E:=E) i).
Proof. intros s ch s'. unfold getp. by case_match. Qed.
Lemma env_awake {A} (m : M E A) : awake m → awake (env m).
Proof. intros Hm s ch s'. unfold env, zoom. destruct (m (ps_env s)) eqn:Hs; try done. by apply Hm in Hs. Qed.
Lemma sched_awake c held me : awake (sched (E:=E) c held me).
Proof.
  unfold sched. repeat (case_match; [apply awake_panic|]). apply awake_bind; [apply getp_awake|]. intros p.
  by repeat case_match.
Qed.
Lemma reap_awake i : awake (reap i).
Proof.
  unfold reap. repeat (apply awake_bind; [first [apply modp_awake|apply getp_awake|
    apply env_awake, pe_kfree_awake|apply env_awake, pe_freevm_awake]|intros ?]). apply awake_ret.
Qed.

Definition k_asleep (ch : chan) (k : key) : key := mkKey SLEEPING (k_pid k) (k_parent k) (Some ch).

Lemma sleep_becomes c pt ch me s ch' s' :
  sleep c pt ch me s = Sleeping ch' s' → ch' = ch ∧ becomes s (upd (tab s) me (k_asleep ch)) s'.
Proof.
  unfold sleep. pose proof (becomes_refl s) as B.
  intros [Hs|([] & s1 & R1 & Hs)]%bind_Sleeping_inv; [by apply modp_awake in Hs|].
  apply bind_Sleeping_inv in Hs as [Hs|([] & s2 & R2 & Hs)]; [by apply modp_awake in Hs|].
  visible (λ k, mkKey (k_state k) (k_pid k) (k_parent k) (Some ch)). visible (kset_state SLEEPING).
  apply bind_Sleeping_inv in Hs as [Hs|(b & s3 & R3 & Hs)]; [by apply sched_awake in Hs|].
  apply sched_pure in R3 as ->. injection Hs as <- <-. split; [done|].
  eapply becomes_ext; [done|]. intros j. by rewrite upd_upd.
Qed.

(** What a pass of [wait] finds. *)
Lemma wait_Ok c me s r s' :
  wait c me s = Ok r s' →
  becomes s (tab s) s' ∨
  ∃ i k, tab s i = Some k ∧ k_parent k = Some me ∧ k_state k = ZOMBIE ∧ r = k_pid k ∧
    becomes s (upd (tab s) i k_reaped) s'.
Proof.
  unfold wait. rewrite bind_gets. destruct (wait_scan me (ptable s) 0 false) as [hk [i|]] eqn:Hw.
  - apply wait_scan_Some in Hw as (p & _ & Hp & Hpar & Hz). rewrite Nat.sub_0_r in Hp. intros H. right.
    exists i, (key_of p). split; [by apply tab_lookup|]. split; [done|]. split; [done|]. split; [|by eapply reap_becomes].
    unfold reap in H. unbind H. apply getp_inv in R as [-> R]. rewrite Hp in R. injection R as <-.
    do 8 unbind H. by injection H as <- _.
  - intros H. unbind H. got. destruct (_ || _).
    + injection H as <- <-. by left.
    + unbind H. exfalso. revert R0. unfold sleep. intros (? & ? & _ & H1)%bind_Ok_inv.
      apply bind_Ok_inv in H1 as (? & ? & _ & H1). by apply bind_Ok_inv in H1 as (? & ? & _ & H1).
Qed.

Lemma wait_Sleeping c me s ch s' :
  wait c me s = Sleeping ch s' →
  becomes s (upd (tab s) me (k_asleep (Chan "proc" me))) s' ∧
  (∃ j k, tab s j = Some k ∧ k_parent k = Some me) ∧
  (∀ j k, tab s j = Some k → k_parent k = Some me → k_state k ≠ ZOMBIE).
Proof.
  unfold wait. rewrite bind_gets. destruct (wait_scan me (ptable s) 0 false) as [hk [i|]] eqn:Hw.
  { by intros Hs%reap_awake. }
  apply wait_scan_None in Hw as [Hz Hk]. intros [Hs|(p & s1 & R1 & Hs)]%bind_Sleeping_inv; [by apply getp_awake in Hs|].
  apply getp_inv in R1 as [-> R1]. destruct (negb hk || _) eqn:Hc; [done|]. apply orb_false_iff in Hc as [Hhk _].
  apply bind_Sleeping_inv in Hs as [Hs|(? & ? & _ & Hs)]; [|done]. apply sleep_becomes in Hs as [_ Hs].
  split; [done|]. split.
  - destruct hk; [|done]. destruct (Hk eq_refl) as [|(q & [j Hq]%list_elem_of_lookup & Hpar)]; [done|].
    exists j, (key_of q). split; [by apply tab_lookup|done].
  - intros j k. unfold tab. destruct (ptable s !! j) as [q|] eqn:Hq; [|done]. intros [= <-]. cbn. apply Hz.
    by eapply list_elem_of_lookup_2.
Qed.

Lemma close_fd_silent me fd s s' : close_fd me fd s = Ok tt s' → becomes s (tab s) s'.
Proof.
  unfold close_fd. intros H. pose proof (becomes_refl s) as B. unbind H. got. destruct (nth fd (p_ofile _) None).
  - unbind H. silent. by silent.
  - by injection H as <-.
Qed.

Lemma exit_files_becomes me s s' :
  exit_files me s = Ok tt s' → becomes s (tab s) s' ∧ initproc s ≠ Some me.
Proof.
  unfold exit_files. rewrite bind_gets. case_bool_decide; [done|]. intros Hx. split; [|done].
  pose proof (becomes_refl s) as B. unbind Hx. silent_loop close_fd_silent. unbind Hx. silent. unbind Hx. got.
  unbind Hx. silent. unbind Hx. silent. by silent.
Qed.

(** *** The first process *)

Definition zero_tf : trapframe := mkTf 0 0 0 0 0 0 0 0 0 0 0 0 0 0 0 0 0 0 0.
(** The process table as the loader zeroes it. *)
Definition zero_proc : proc :=
  mkProc 0 0 0 UNUSED 0 None zero_tf (mkCtx 0 0 0 0 0) 0 None 0 (replicate NOFILE None) None (replicate 16 0).
Definition zero_state (e : E) : pst E := mkPst e (replicate NPROC zero_proc) 1 None.

Definition unused_key : key := mkKey UNUSED 0 None None.
Definition init_key : key := mkKey RUNNABLE 1 None None.
Definition boot_table : table := λ i,
  if decide (i = O) then Some init_key else if decide (i < NPROC)%nat then Some unused_key else None.

Lemma tab_zero e i : tab (zero_state e) i = if decide (i < NPROC)%nat then Some unused_key else None.
Proof.
  unfold tab, zero_state; cbn [ptable]. case_decide as Hi.
  - by rewrite lookup_replicate_2.
  - by rewrite lookup_ge_None_2 by (rewrite length_replicate; lia).
Qed.

Lemma alloc_first e i s' : allocproc_slot (zero_state e) = Ok (Some i) s' → i = O.
Proof.
  unfold allocproc_slot. change (find_slot _ _ _) with (Some O). intros H. unbind H. by injection H as <- _.
Qed.

Lemma userinit_boots e s' :
  userinit lb (zero_state e) = Ok tt s' →
  (∀ i, tab s' i = boot_table i) ∧ nextpid s' = 2 ∧ initproc s' = Some O.
Proof.
  unfold userinit. intros H. unbind H. rewrite bind_modify in H. destruct a as [i|]; [|done].
  unfold allocproc in R. unbind R. destruct a as [i'|]; [|done]. pose proof (alloc_first _ _ _ R0) as ->.
  apply allocproc_slot_becomes in R0 as (k & Hk & Hu & HT & Hn & _).
  assert (i = O ∧ becomes s0 (tab s0) s) as [-> (HT1 & Hn1 & _)].
  { unfold allocproc_stack in R. pose proof (becomes_refl s0) as B. unbind R. silent. unbind R. silent.
    destruct (_ =? 0); [by unbind R|]. unbind R. silent. unbind R. silent. by injection R as <- <-. }
  set (s1 := mkPst (ps_env s) (ptable s) (nextpid s) (Some O)) in H. pose proof (becomes_refl s1) as B.
  unbind H. silent. unbind H. silent. destruct (_ =? 0); [done|]. unbind H. silent. unbind H. silent. unbind H. silent.
  unbind H. silent. unbind H. silent. unbind H. silent. visible (kset_state RUNNABLE).
  destruct H as (HT2 & Hn2 & Hip & _). split; [|split; [by rewrite Hn2; cbn; rewrite Hn1, Hn|done]].
  intros j. rewrite HT2. unfold upd, boot_table. change (tab s1 j) with (tab s j). rewrite HT1, HT. unfold upd.
  destruct (decide (j = O)) as [->|]; by rewrite tab_zero.
Qed.
End effects.
