(* ===== verification/ProcInv.v ===== *)
(** * All CPUs and all processes: the invariants of proc.c

    A machine is the process table with, for each CPU, the process it runs, and
    the phase of processes that are inside fork or exit.  Its steps are the
    critical sections of Proc.v, in any order, by any process that is on a CPU. *)
From S2P Require Import Prelude Str Spinlock Proc.

Inductive phase := Forking (np : nat) | Exiting.

Record mach (E : Type) := mkMach { m_st : pst E; m_cpus : list (option nat); m_phase : gmap nat phase }.
Arguments mkMach {E}.
Arguments m_st {E}.
Arguments m_cpus {E}.
Arguments m_phase {E}.

Section machine.
Context {E : Type} {PE : ProcEnv E}.
Context (lb : labels).
Implicit Types (m : mach E) (s : pst E).

(** CPU [c] runs process [i], which is in no phase. *)
Definition runs m (c i : nat) : Prop := m_cpus m !! c = Some (Some i).
Definition free_runs m (c i : nat) : Prop := runs m c i ∧ m_phase m !! i = None.

Inductive step : mach E → mach E → Prop :=
| m_dispatch m c k i s' :
    m_cpus m !! c = Some None → scheduler_next (ptable (m_st m)) k = Some i →
    dispatch i (m_st m) = Ok tt s' →
    step m (mkMach s' (<[c := Some i]> (m_cpus m)) (m_phase m))
| m_resume m c i s' :
    runs m c i → sleep_resume i (m_st m) = Ok tt s' →
    step m (mkMach s' (m_cpus m) (m_phase m))
| m_yield m c i cp b s' :
    runs m c i → yield cp i (m_st m) = Ok b s' →
    step m (mkMach s' (<[c := None]> (m_cpus m)) (m_phase m))
| m_sleep m c i cp ch s' :
    free_runs m c i → (∀ j : nat, ch ≠ Chan "proc" j) → sleep cp false ch i (m_st m) = Sleeping ch s' →
    step m (mkMach s' (<[c := None]> (m_cpus m)) (m_phase m))
| m_wakeup m ch s' :
    wakeup ch (m_st m) = Ok tt s' →
    step m (mkMach s' (m_cpus m) (m_phase m))
| m_kill m pid r s' :
    kill pid (m_st m) = Ok r s' →
    step m (mkMach s' (m_cpus m) (m_phase m))
(** fork: the pid counter has not reached the largest [int] yet. *)
| m_fork_slot m c i np s' :
    free_runs m c i → nextpid (m_st m) < 2 ^ 31 - 1 → allocproc_slot (m_st m) = Ok (Some np) s' →
    step m (mkMach s' (m_cpus m) (<[i := Forking np]> (m_phase m)))
| m_fork_rest m c i np r s' :
    runs m c i → m_phase m !! i = Some (Forking np) → fork_rest lb i np (m_st m) = Ok r s' →
    step m (mkMach s' (m_cpus m) (delete i (m_phase m)))
| m_exit_files m c i s' :
    free_runs m c i → exit_files i (m_st m) = Ok tt s' →
    step m (mkMach s' (m_cpus m) (<[i := Exiting]> (m_phase m)))
| m_exit m c i cp s' :
    runs m c i → m_phase m !! i = Some Exiting → exit_locked cp i (m_st m) = Ok tt s' →
    step m (mkMach s' (<[c := None]> (m_cpus m)) (delete i (m_phase m)))
| m_wait m c i cp r s' :
    free_runs m c i → wait cp i (m_st m) = Ok r s' →
    step m (mkMach s' (m_cpus m) (m_phase m))
| m_wait_sleep m c i cp ch s' :
    free_runs m c i → wait cp i (m_st m) = Sleeping ch s' →
    step m (mkMach s' (<[c := None]> (m_cpus m)) (m_phase m))
(** Anything else the kernel does leaves state, pid, parent and channel of every
    process alone. *)
| m_internal m s' :
    becomes (m_st m) (tab (m_st m)) s' →
    step m (mkMach s' (m_cpus m) (m_phase m)).
End machine.

(** ** The invariants, over tables *)

Definition used (k : key) : Prop := k_state k ≠ UNUSED ∧ k_state k ≠ EMBRYO.
Definition live (k : key) : Prop := used k ∧ k_state k ≠ ZOMBIE.
(** Asleep in [wait], as process [j]. *)
Definition waiting (k : key) (j : nat) : Prop :=
  k_state k = SLEEPING ∧ k_chan k = Some (Chan "proc" j).

(** A process is RUNNING exactly when one CPU runs it. *)
Record cpus_ok (T : table) (cs : list (option nat)) : Prop := {
  co_running (c i : nat) : cs !! c = Some (Some i) → ∃ k, T i = Some k ∧ k_state k = RUNNING;
  co_once (c c' i : nat) : cs !! c = Some (Some i) → cs !! c' = Some (Some i) → c = c';
  co_on i k : T i = Some k → k_state k = RUNNING → ∃ c : nat, cs !! c = Some (Some i) }.

Record pids_ok (T : table) (next : Z) : Prop := {
  po_next : 0 < next < 2 ^ 31;
  po_range i k : T i = Some k → k_state k ≠ UNUSED → 0 < k_pid k < next;
  po_inj i j k k' : T i = Some k → T j = Some k' → k_state k ≠ UNUSED → k_state k' ≠ UNUSED →
    k_pid k = k_pid k' → i = j }.

Record parents_ok (T : table) (ip : option nat) : Prop := {
  pa_init : ∃ i k, ip = Some i ∧ T i = Some k ∧ live k ∧ k_parent k = None;
  pa_self i k : T i = Some k → k_parent k ≠ Some i;
  pa_live i k q : T i = Some k → k_parent k = Some q → used k ∧ ∃ kq, T q = Some kq ∧ live kq;
  pa_some i k : T i = Some k → used k → ip = Some i ∨ is_Some (k_parent k) }.

(** Whoever sleeps in wait has a child, and no zombie child. *)
Definition waits_ok (T : table) : Prop :=
  ∀ i k j, T i = Some k → waiting k j →
    j = i ∧ (∃ x kx, T x = Some kx ∧ k_parent kx = Some i) ∧
    (∀ x kx, T x = Some kx → k_parent kx = Some i → k_state kx ≠ ZOMBIE).

Record phases_ok (T : table) (ip : option nat) (ph : gmap nat phase) : Prop := {
  ph_embryo i np : ph !! i = Some (Forking np) → ∃ k, T np = Some k ∧ k_state k = EMBRYO;
  ph_inj i j np : ph !! i = Some (Forking np) → ph !! j = Some (Forking np) → i = j;
  ph_exit i : ph !! i = Some Exiting → ip ≠ Some i }.

(** ** Benign changes *)

(** A change of one process that matters to [cpus_ok] only, and when [w] is
    [false], to [waits_ok]. *)
Record benign_up_to (w : bool) (k k' : key) : Prop := {
  be_pid : k_pid k' = k_pid k;
  be_parent : k_parent k' = k_parent k;
  be_unused : k_state k' = UNUSED ↔ k_state k = UNUSED;
  be_embryo : k_state k' = EMBRYO ↔ k_state k = EMBRYO;
  be_zombie : k_state k' = ZOMBIE ↔ k_state k = ZOMBIE;
  be_wait j : w = true → waiting k' j → waiting k j }.
Abbreviation benign := (benign_up_to true).

Definition benign_all (w : bool) (T T' : table) : Prop :=
  ∀ i, match T i, T' i with Some k, Some k' => benign_up_to w k k' | None, None => True | _, _ => False end.

Lemma benign_refl k : benign k k.
Proof. done. Qed.

Section benign.
Context (w : bool) (T T' : table).
Hypothesis HB : benign_all w T T'.

Lemma benign_bwd i k' : T' i = Some k' → ∃ k, T i = Some k ∧ benign_up_to w k k'.
Proof. specialize (HB i). intros E1. rewrite E1 in HB. destruct (T i); [eauto|done]. Qed.
Lemma benign_fwd i k : T i = Some k → ∃ k', T' i = Some k' ∧ benign_up_to w k k'.
Proof. specialize (HB i). intros E1. rewrite E1 in HB. destruct (T' i); [eauto|done]. Qed.

Lemma benign_used k k' : benign_up_to w k k' → used k' ↔ used k.
Proof. intros []. unfold used. naive_solver. Qed.
Lemma benign_live k k' : benign_up_to w k k' → live k' ↔ live k.
Proof. intros []. unfold live, used. naive_solver. Qed.

Lemma pids_benign next : pids_ok T next → pids_ok T' next.
Proof.
  intros [H1 H2 H3]. split; [done| |].
  - intros i k' (k & Hk & [-> _ Hu _ _ _])%benign_bwd Hn. apply (H2 i); [done|by rewrite <- Hu].
  - intros i j k1' k2' (k1 & Hk1 & [-> _ Hu1 _ _ _])%benign_bwd (k2 & Hk2 & [-> _ Hu2 _ _ _])%benign_bwd.
    rewrite Hu1, Hu2. eauto.
Qed.

Lemma parents_benign ip : parents_ok T ip → parents_ok T' ip.
Proof.
  intros [(i0 & k0 & -> & Hk0 & Hl0 & Hp0) Hself H2 H3]. split.
  - destruct (benign_fwd i0 k0 Hk0) as (k0' & Hk0' & Hb). exists i0, k0'. split_and!; [done|done|by apply (benign_live k0)|].
    by rewrite (be_parent _ _ _ Hb).
  - intros i k' (k & Hk & Hb)%benign_bwd. rewrite (be_parent _ _ _ Hb). by apply Hself.
  - intros i k' q (k & Hk & Hb)%benign_bwd. rewrite (be_parent _ _ _ Hb). intros Hq.
    destruct (H2 i k q Hk Hq) as (Hu & kq & Hkq & Hl). split; [by apply (benign_used k)|].
    destruct (benign_fwd q kq Hkq) as (kq' & Hkq' & Hb'). exists kq'. split; [done|by apply (benign_live kq)].
  - intros i k' (k & Hk & Hb)%benign_bwd Hu. rewrite (be_parent _ _ _ Hb). apply (H3 i k Hk). by apply (benign_used k k').
Qed.

Lemma waits_benign : w = true → waits_ok T → waits_ok T'.
Proof.
  intros Hwt HW i k' j (k & Hk & Hb)%benign_bwd Hw. apply (be_wait _ _ _ Hb j Hwt) in Hw.
  destruct (HW i k j Hk Hw) as (-> & (x & kx & Hx & Hpx) & Hz). split; [done|]. split.
  - destruct (benign_fwd x kx Hx) as (kx' & Hx' & Hbx). exists x, kx'. split; [done|]. by rewrite (be_parent _ _ _ Hbx).
  - intros y ky' (ky & Hy & Hby)%benign_bwd. rewrite (be_parent _ _ _ Hby), (be_zombie _ _ _ Hby). by apply (Hz y).
Qed.

Lemma phases_benign ip ph : phases_ok T ip ph → phases_ok T' ip ph.
Proof.
  intros [H1 H2 H3]. split; [|done..]. intros i np (k & Hk & He)%H1.
  destruct (benign_fwd np k Hk) as (k' & Hk' & Hb). exists k'. split; [done|]. by apply (be_embryo _ _ _ Hb).
Qed.
End benign.

(** ** CPUs *)

Definition running (T : table) (i : nat) : Prop := ∃ k, T i = Some k ∧ k_state k = RUNNING.

Section cpus.
Context (T T' : table) (cs : list (option nat)).
Hypothesis Hok : cpus_ok T cs.

Lemma cpus_same : (∀ i, running T' i ↔ running T i) → cpus_ok T' cs.
Proof.
  destruct Hok as [H1 H2 H3]. intros Hr. split; [|done|].
  - intros c i Hc. apply Hr, (H1 c i Hc).
  - intros i k Hk Hs. destruct (proj1 (Hr i)) as (k0 & Hk0 & Hs0); [by exists k|eauto].
Qed.

Lemma cpus_start c i :
  cs !! c = Some None → ¬ running T i → running T' i → (∀ j, j ≠ i → running T' j ↔ running T j) →
  cpus_ok T' (<[c := Some i]> cs).
Proof.
  destruct Hok as [H1 H2 H3]. intros Hc Hno Hyes Hr.
  assert (∀ (c' j : nat), <[c := Some i]> cs !! c' = Some (Some j) → (c' = c ∧ j = i) ∨ (c' ≠ c ∧ j ≠ i ∧ cs !! c' = Some (Some j))) as Hcs.
  { intros c' j [(-> & [= ->] & _)|[? Hj]]%list_lookup_insert_Some; [by left|right]. split_and!; [done| |done].
    intros ->. by apply Hno, (H1 c'). }
  split.
  - intros c' j [[-> ->]|(_ & Hj & Hc')]%Hcs; [done|]. by apply Hr, (H1 c').
  - intros c1 c2 j [[-> ->]|(? & ? & ?)]%Hcs [[-> ?]|(? & ? & ?)]%Hcs; (done || by eapply H2).
  - intros j k Hk Hs. destruct (decide (j = i)) as [->|Hne].
    + exists c. apply list_lookup_insert_eq. by eapply lookup_lt_Some.
    + destruct (proj1 (Hr j Hne)) as (k0 & Hk0 & Hs0); [by exists k|]. destruct (H3 j k0 Hk0 Hs0) as [c' Hc'].
      exists c'. rewrite list_lookup_insert_ne; [done|]. intros <-. by rewrite Hc in Hc'.
Qed.

Lemma cpus_stop c i :
  cs !! c = Some (Some i) → ¬ running T' i → (∀ j, j ≠ i → running T' j ↔ running T j) →
  cpus_ok T' (<[c := None]> cs).
Proof.
  destruct Hok as [H1 H2 H3]. intros Hc Hno Hr.
  assert (∀ (c' j : nat), <[c := None]> cs !! c' = Some (Some j) → c' ≠ c ∧ cs !! c' = Some (Some j)) as Hcs.
  { by intros c' j [(-> & ? & _)|[? Hj]]%list_lookup_insert_Some. }
  split.
  - intros c' j [Hne Hj]%Hcs. apply Hr; [|by apply (H1 c')]. intros ->. by apply Hne, (H2 _ _ i).
  - intros c1 c2 j [_ ?]%Hcs [_ ?]%Hcs. by eapply H2.
  - intros j k Hk Hs. assert (j ≠ i) as Hne by (intros ->; by apply Hno; exists k).
    destruct (proj1 (Hr j Hne)) as (k0 & Hk0 & Hs0); [by exists k|]. destruct (H3 j k0 Hk0 Hs0) as [c' Hc'].
    exists c'. rewrite list_lookup_insert_ne; [done|]. intros <-. rewrite Hc in Hc'. congruence.
Qed.
End cpus.

(** ** The steps keep the invariants *)

Section steps.
Context {E : Type} {PE : ProcEnv E}.
Context (lb : labels).
Implicit Types (m : mach E) (s : pst E) (T : table).

Record inv s (cs : list (option nat)) (ph : gmap nat phase) : Prop := {
  i_cpus : cpus_ok (tab s) cs;
  i_pids : pids_ok (tab s) (nextpid s);
  i_parents : parents_ok (tab s) (initproc s);
  i_waits : waits_ok (tab s);
  i_phases : phases_ok (tab s) (initproc s) ph }.

Lemma inv_benign s cs ph T s' cs' :
  inv s cs ph → becomes s T s' → benign_all true (tab s) T → cpus_ok T cs' → inv s' cs' ph.
Proof.
  intros [_ Hp Hq Hw Hf] (HT & Hn & Hi & _) HB Hc.
  assert (benign_all true (tab s) (tab s')) as HB' by (intros i; rewrite HT; apply HB).
  split; rewrite ?Hn, ?Hi.
  - apply (cpus_same T); [done|]. intros i. unfold running. by rewrite HT.
  - by eapply pids_benign.
  - by eapply parents_benign.
  - by eapply waits_benign.
  - by eapply phases_benign.
Qed.

Lemma upd_benign T i g : (∀ k, T i = Some k → benign k (g k)) → benign_all true T (upd T i g).
Proof.
  intros Hg j. unfold upd. destruct (decide (j = i)) as [->|].
  - destruct (T i); [by apply Hg|done].
  - by destruct (T j).
Qed.
Lemma fmap_benign T (f : key → key) : (∀ k, benign k (f k)) → benign_all true T (λ i, f <$> T i).
Proof. intros Hf i. destruct (T i); [apply Hf|done]. Qed.

Lemma running_upd_ne T i g j : j ≠ i → running (upd T i g) j ↔ running T j.
Proof. intros Hj. unfold running, upd. by destruct (decide (j = i)). Qed.
Lemma running_upd_eq T i g k : T i = Some k → running (upd T i g) i ↔ k_state (g k) = RUNNING.
Proof.
  intros Hk. unfold running, upd. destruct (decide (i = i)); [|done]. rewrite Hk. cbn. naive_solver.
Qed.
Lemma running_eq T i k : T i = Some k → running T i ↔ k_state k = RUNNING.
Proof. unfold running. naive_solver. Qed.

(** A step on one slot that does not change what is running. *)
Lemma cpus_upd T cs i g :
  cpus_ok T cs → (∀ k, T i = Some k → k_state (g k) = RUNNING ↔ k_state k = RUNNING) → cpus_ok (upd T i g) cs.
Proof.
  intros Hc Hg. eapply cpus_same; [done|]. intros j. destruct (decide (j = i)) as [->|]; [|by apply running_upd_ne].
  destruct (T i) as [k|] eqn:Hk.
  - by rewrite (running_upd_eq T i g k Hk), (running_eq T i k Hk), (Hg k).
  - unfold running, upd. destruct (decide (i = i)); [|done]. by rewrite Hk.
Qed.

Lemma kwake_benign c k : benign k (kwake c k).
Proof. unfold kwake. case_bool_decide as Hb; [destruct Hb as [Hs _]|done]. split; cbn; rewrite ?Hs; try done. by intros j _ [? _]. Qed.
Lemma kwake_running c k : k_state (kwake c k) = RUNNING ↔ k_state k = RUNNING.
Proof. unfold kwake. case_bool_decide as Hb; [destruct Hb as [Hs _]|done]. cbn. by rewrite Hs. Qed.
Lemma k_woken_benign k : benign k (k_woken k).
Proof. unfold k_woken. case_bool_decide as Hs; [|done]. split; cbn; rewrite ?Hs; try done. by intros j _ [? _]. Qed.

Lemma state_benign k st :
  k_state k = RUNNABLE ∨ k_state k = RUNNING → st = RUNNABLE ∨ st = RUNNING → benign k (kset_state st k).
Proof. intros Hk Hst. destruct Hk as [Hk|Hk], Hst as [-> | ->]; split; cbn; rewrite ?Hk; try done; by intros j _ [? _]. Qed.

(** *** Dispatch, resumption, yield, sleep, wakeup, kill *)

Lemma inv_dispatch s cs ph c k i s' :
  inv s cs ph → cs !! c = Some None → scheduler_next (ptable s) k = Some i → dispatch i s = Ok tt s' →
  inv s' (<[c := Some i]> cs) ph.
Proof.
  intros Hi Hc Hn H. unfold dispatch in H. apply bind_Ok_inv in H as ([] & s1 & R1 & R2).
  assert (s1 = s) as ->.
  { unfold switchuvm in R1. apply bind_Ok_inv in R1 as (p & s2 & Rp & R1). apply getp_inv in Rp as [-> _].
    repeat (case_match; [done|]). by injection R1 as <-. }
  apply find_slot_Some in Hn as (p & Hki & Hp & Hr). rewrite lookup_drop, Nat.add_comm, Nat.sub_add in Hp by done.
  apply bool_decide_eq_true in Hr. apply tab_lookup in Hp.
  apply (modp_becomes _ (kset_state RUNNING)) in R2; [|done].
  eapply inv_benign; [done|done| |].
  - apply upd_benign. intros k0 Hk0. rewrite Hp in Hk0. injection Hk0 as <-. apply state_benign; [left; done|by right].
  - eapply cpus_start; [apply Hi|done| | |].
    + rewrite (running_eq _ _ _ Hp). cbn. by rewrite Hr.
    + by rewrite (running_upd_eq _ _ _ _ Hp).
    + intros j Hj. by apply running_upd_ne.
Qed.

(** The process on a CPU is RUNNING. *)
Lemma on_cpu s cs ph (c i : nat) : inv s cs ph → cs !! c = Some (Some i) → ∃ k, tab s i = Some k ∧ k_state k = RUNNING.
Proof. intros Hi. apply (co_running _ _ (i_cpus _ _ _ Hi)). Qed.

Lemma inv_resume s cs ph (c i : nat) s' :
  inv s cs ph → cs !! c = Some (Some i) → sleep_resume i s = Ok tt s' → inv s' cs ph.
Proof.
  intros Hi Hc H. destruct (on_cpu s cs ph c i Hi Hc) as (k & Hk & Hr).
  apply (modp_becomes _ (λ k, mkKey (k_state k) (k_pid k) (k_parent k) None)) in H; [|done].
  eapply inv_benign; [done|done|apply upd_benign|apply cpus_upd; [apply Hi|done]].
  intros k0 _. split; try done. by intros j _ [_ ?].
Qed.

(** A process leaves its CPU; [g] is what happens to it. *)
Lemma inv_leave s cs ph (c i : nat) g s' :
  inv s cs ph → cs !! c = Some (Some i) → becomes s (upd (tab s) i g) s' →
  (∀ k, k_state k = RUNNING → benign k (g k) ∧ k_state (g k) ≠ RUNNING) → inv s' (<[c := None]> cs) ph.
Proof.
  intros Hi Hc HB Hg. destruct (on_cpu s cs ph c i Hi Hc) as (k & Hk & Hr).
  eapply inv_benign; [done|done|apply upd_benign|].
  - intros k0 Hk0. rewrite Hk in Hk0. injection Hk0 as <-. by apply Hg.
  - eapply cpus_stop; [apply Hi|done| |].
    + rewrite (running_upd_eq _ _ _ _ Hk). by apply Hg.
    + intros j Hj. by apply running_upd_ne.
Qed.

Lemma inv_yield s cs ph (c i : nat) cp b s' :
  inv s cs ph → cs !! c = Some (Some i) → yield cp i s = Ok b s' → inv s' (<[c := None]> cs) ph.
Proof.
  intros Hi Hc H. unfold yield in H. apply bind_Ok_inv in H as ([] & s1 & R1 & R2). apply sched_pure in R2 as ->.
  apply (modp_becomes _ (kset_state RUNNABLE)) in R1; [|done]. eapply inv_leave; [done..|].
  intros k Hk. split; [|done]. apply state_benign; auto.
Qed.

Lemma inv_sleep s cs ph (c i : nat) cp ch s' :
  inv s cs ph → cs !! c = Some (Some i) → (∀ j : nat, ch ≠ Chan "proc" j) →
  sleep cp false ch i s = Sleeping ch s' → inv s' (<[c := None]> cs) ph.
Proof.
  intros Hi Hc Hch [_ H]%sleep_becomes. eapply inv_leave; [done..|]. intros k Hk. split; [|done].
  split; cbn; rewrite ?Hk; try done. intros j _ [_ [= ->]]. by destruct (Hch j).
Qed.

Lemma inv_wakeup s cs ph ch s' : inv s cs ph → wakeup ch s = Ok tt s' → inv s' cs ph.
Proof.
  intros Hi H%wakeup1_becomes. eapply inv_benign; [done|done|apply fmap_benign, kwake_benign|].
  eapply cpus_same; [apply Hi|]. intros i. unfold running. destruct (tab s i) as [k|]; cbn; [|naive_solver].
  pose proof (kwake_running ch k). naive_solver.
Qed.

Lemma inv_kill s cs ph pid r s' : inv s cs ph → kill pid s = Ok r s' → inv s' cs ph.
Proof.
  intros Hi [i H]%kill_becomes. eapply inv_benign; [done|done|apply upd_benign; intros; apply k_woken_benign|].
  apply cpus_upd; [apply Hi|]. intros k _. unfold k_woken. case_bool_decide as Hs; cbn; [by rewrite Hs|done].
Qed.

Lemma inv_internal s cs ph s' : inv s cs ph → becomes s (tab s) s' → inv s' cs ph.
Proof. intros Hi HB. eapply inv_benign; [done|done| |apply Hi]. intros i. by destruct (tab s i). Qed.

(** *** fork *)

Lemma upd_Some T i g j k : upd T i g j = Some k →
  (j = i ∧ ∃ k0, T i = Some k0 ∧ k = g k0) ∨ (j ≠ i ∧ T j = Some k).
Proof.
  unfold upd. destruct (decide (j = i)) as [->|]; [|by right]. destruct (T i) as [k0|]; [|done].
  intros [= <-]. left. eauto.
Qed.
Lemma upd_eq T i g k : T i = Some k → upd T i g i = Some (g k).
Proof. intros Hk. unfold upd. destruct (decide (i = i)); [|done]. by rewrite Hk. Qed.
Lemma upd_ne T i g j : j ≠ i → upd T i g j = T j.
Proof. intros Hj. unfold upd. by destruct (decide (j = i)). Qed.

(** The predicates depend on the table pointwise. *)
Lemma ext_benign T T' : (∀ i, T' i = T i) → benign_all true T T'.
Proof. intros H i. rewrite H. by destruct (T i). Qed.

Lemma inv_table s cs ph T :
  (∀ i, tab s i = T i) → cpus_ok T cs → pids_ok T (nextpid s) → parents_ok T (initproc s) → waits_ok T →
  phases_ok T (initproc s) ph → inv s cs ph.
Proof.
  intros HT Hc Hp Hq Hw Hf. pose proof (ext_benign T (tab s) HT) as HB. split.
  - apply (cpus_same T); [done|]. intros i. unfold running. by rewrite HT.
  - by eapply pids_benign.
  - by eapply parents_benign.
  - by eapply waits_benign.
  - by eapply phases_benign.
Qed.

Lemma inv_fork_slot s cs ph (c i np : nat) s' :
  inv s cs ph → cs !! c = Some (Some i) → nextpid s < 2 ^ 31 - 1 → allocproc_slot s = Ok (Some np) s' →
  inv s' cs (<[i := Forking np]> ph).
Proof.
  intros Hi Hc Hn (k & Hk & Hu & HT & Hnext & Hip)%allocproc_slot_becomes.
  pose proof Hi as [Hcp [Hp1 Hp2 Hp3] [(i0 & k0 & Hi0 & Hk0 & Hl0 & Hpar0) Hself Hq2 Hq3] Hw [Hf1 Hf2 Hf3]].
  assert (k_parent k = None) as Hpar.
  { destruct (k_parent k) as [q|] eqn:Hq; [|done]. by destruct (Hq2 np k q Hk Hq) as [[? _] _]. }
  rewrite s32_small in Hnext by (unfold is_s32; lia).
  eapply inv_table; [exact HT|rewrite ?Hnext, ?Hip..].
  - apply cpus_upd; [done|]. intros k1 Hk1. rewrite Hk in Hk1. injection Hk1 as <-. cbn. by rewrite Hu.
  - split; [lia| |].
    + intros j kj [(-> & k1 & _ & ->)|[_ Hj]]%upd_Some Hs; cbn; [lia|]. specialize (Hp2 j kj Hj Hs). lia.
    + intros j1 j2 k1 k2 [(-> & k1' & _ & ->)|[? Hj1]]%upd_Some [(-> & k2' & _ & ->)|[? Hj2]]%upd_Some Hs1 Hs2 Epid; cbn in Epid.
      * done.
      * specialize (Hp2 j2 k2 Hj2 Hs2). lia.
      * specialize (Hp2 j1 k1 Hj1 Hs1). lia.
      * by eapply Hp3.
  - assert (i0 ≠ np) as Hne by (intros ->; rewrite Hk in Hk0; injection Hk0 as <-; by destruct Hl0 as [[? _] _]).
    split.
    + exists i0, k0. rewrite upd_ne by done. done.
    + intros j kj [(-> & k1 & Hk1 & ->)|[_ Hj]]%upd_Some; cbn; by apply Hself.
    + intros j kj q [(-> & k1 & Hk1 & ->)|[_ Hj]]%upd_Some Hq; cbn in Hq; [congruence|].
      destruct (Hq2 j kj q Hj Hq) as (Huj & kq & Hkq & Hlq). split; [done|]. exists kq. split; [|done].
      rewrite upd_ne; [done|]. intros ->. rewrite Hk in Hkq. injection Hkq as <-. by destruct Hlq as [[? _] _].
    + intros j kj [(-> & k1 & Hk1 & ->)|[_ Hj]]%upd_Some Huj; [by destruct Huj as [_ ?]|eauto].
  - intros j kj z [(-> & k1 & _ & ->)|[Hj Hkj]]%upd_Some Hwj; [by destruct Hwj|].
    destruct (Hw j kj z Hkj Hwj) as (-> & (x & kx & Hx & Hpx) & Hz). split; [done|]. split.
    + exists x, kx. rewrite upd_ne; [done|]. intros ->. congruence.
    + intros y ky [(-> & k1 & Hk1 & ->)|[_ Hy]]%upd_Some Hpy; [done|by apply (Hz y)].
  - split.
    + intros j np' [[<- [= <-]]|[Hj Hph]]%lookup_insert_Some.
      * eexists. split; [by apply upd_eq|done].
      * destruct (Hf1 j np' Hph) as (ke & Hke & He). exists ke. split; [|done]. rewrite upd_ne; [done|].
        intros ->. congruence.
    + assert (∀ j, ph !! j ≠ Some (Forking np)) as Hfresh.
      { intros j Hj. destruct (Hf1 j np Hj) as (ke & Hke & He). congruence. }
      intros j1 j2 np' [[<- [= <-]]|[? H1]]%lookup_insert_Some [[<- ?]|[? H2]]%lookup_insert_Some; try done.
      * by destruct (Hfresh j2).
      * simplify_eq. by destruct (Hfresh j1).
      * by eapply Hf2.
    + intros j [[<- ?]|[_ Hj]]%lookup_insert_Some; [done|by apply Hf3].
Qed.

(** Slot [np] goes from EMBRYO to UNUSED, or becomes a child of [i]. *)
Lemma inv_fork_rest s cs ph (c i np : nat) r s' :
  inv s cs ph → cs !! c = Some (Some i) → ph !! i = Some (Forking np) →
  fork_rest lb i np s = Ok r s' → inv s' cs (delete i ph).
Proof.
  intros Hi Hc Hph H. pose proof Hi as [Hcp [Hp1 Hp2 Hp3] [(i0 & k0 & Hi0 & Hk0 & Hl0 & Hpar0) Hself Hq2 Hq3] Hw [Hf1 Hf2 Hf3]].
  destruct (Hf1 i np Hph) as (k & Hk & He). destruct (on_cpu s cs ph c i Hi Hc) as (ki & Hki & Hri).
  assert (k_parent k = None) as Hpar.
  { destruct (k_parent k) as [q|] eqn:Hq; [|done]. by destruct (Hq2 np k q Hk Hq) as [[_ ?] _]. }
  assert (i ≠ np) as Hinp by (intros ->; congruence).
  assert (i0 ≠ np) as Hne by (intros ->; rewrite Hk in Hk0; injection Hk0 as <-; by destruct Hl0 as [[_ ?] _]).
  assert (∃ g, becomes s (upd (tab s) np g) s' ∧ k_pid (g k) = k_pid k ∧
    ((k_state (g k) = UNUSED ∧ k_parent (g k) = None) ∨ (k_state (g k) = RUNNABLE ∧ k_parent (g k) = Some i)))
    as (g & HB & Hpid & Hg).
  { apply fork_rest_becomes in H as [H|H]; eexists; (split; [exact H|]); cbn; auto. }
  destruct HB as (HT & Hn & Hip & _). eapply inv_table; [exact HT|rewrite ?Hn, ?Hip..].
  - apply cpus_upd; [done|]. intros k1 Hk1. rewrite Hk in Hk1. injection Hk1 as <-. rewrite He. by destruct Hg as [[-> _]|[-> _]].
  - split; [done| |].
    + intros j kj [(-> & k1 & Hk1 & ->)|[_ Hj]]%upd_Some Hs; [|by eapply Hp2]. rewrite Hk in Hk1. injection Hk1 as <-.
      rewrite Hpid. apply (Hp2 np k Hk). by rewrite He.
    + assert (∀ j kj, j ≠ np → tab s j = Some kj → k_state kj ≠ UNUSED → k_pid kj ≠ k_pid k) as Hdiff.
      { intros j kj Hj Hkj Hs Epid. apply Hj. eapply Hp3; [done..|by rewrite He|done]. }
      intros j1 j2 k1 k2 [(-> & k1' & Hk1 & ->)|[? Hj1]]%upd_Some [(-> & k2' & Hk2 & ->)|[? Hj2]]%upd_Some Hs1 Hs2 Epid; try done.
      * rewrite Hk in Hk1. injection Hk1 as <-. rewrite Hpid in Epid. by destruct (Hdiff j2 k2).
      * rewrite Hk in Hk2. injection Hk2 as <-. rewrite Hpid in Epid. by destruct (Hdiff j1 k1).
      * by eapply Hp3.
  - split.
    + exists i0, k0. by rewrite upd_ne.
    + intros j kj [(-> & k1 & Hk1 & ->)|[_ Hj]]%upd_Some; [|by apply Hself].
      rewrite Hk in Hk1. injection Hk1 as <-. destruct Hg as [[_ ->]|[_ ->]]; congruence.
    + assert (∀ q kq, tab s q = Some kq → live kq → ∃ kq, upd (tab s) np g q = Some kq ∧ live kq) as Hlive.
      { intros q kq Hkq Hlq. exists kq. split; [|done]. rewrite upd_ne; [done|]. intros ->. rewrite Hk in Hkq.
        injection Hkq as <-. by destruct Hlq as [[_ ?] _]. }
      intros j kj q [(-> & k1 & Hk1 & ->)|[_ Hj]]%upd_Some Hq.
      * rewrite Hk in Hk1. injection Hk1 as <-. destruct Hg as [[_ ?]|[Hs Hpi]]; [congruence|].
        assert (q = i) as -> by congruence. split; [by split; rewrite Hs|]. apply (Hlive i ki); [done|].
        by split; [split|]; rewrite Hri.
      * destruct (Hq2 j kj q Hj Hq) as (Huj & kq & Hkq & Hlq). eauto.
    + intros j kj [(-> & k1 & Hk1 & ->)|[_ Hj]]%upd_Some Huj; [|eauto]. rewrite Hk in Hk1. injection Hk1 as <-.
      right. destruct Hg as [[? _]|[_ ->]]; [by destruct Huj|done].
  - intros j kj z [(-> & k1 & Hk1 & ->)|[Hj Hkj]]%upd_Some Hwj.
    { rewrite Hk in Hk1. injection Hk1 as <-. destruct Hwj as [Hs1 _], Hg as [[Hs _]|[Hs _]]; congruence. }
    destruct (Hw j kj z Hkj Hwj) as (-> & (x & kx & Hx & Hpx) & Hz). split; [done|]. split.
    + exists x, kx. rewrite upd_ne; [done|]. intros ->. congruence.
    + intros y ky [(-> & k1 & Hk1 & ->)|[_ Hy]]%upd_Some Hpy; [|by apply (Hz y)].
      rewrite Hk in Hk1. injection Hk1 as <-. destruct Hg as [[Hs _]|[Hs _]]; congruence.
  - split.
    + intros j np' [Hji Hj]%lookup_delete_Some. destruct (Hf1 j np' Hj) as (ke & Hke & Hs). exists ke. split; [|done].
      rewrite upd_ne; [done|]. intros ->. apply Hji. by eapply Hf2.
    + intros j1 j2 np' [_ H1]%lookup_delete_Some [_ H2]%lookup_delete_Some. by eapply Hf2.
    + intros j [_ Hj]%lookup_delete_Some. by apply Hf3.
Qed.

(** *** exit *)

(** How exit of process [me] changes process [j]. *)
Record exit_key (T : table) (me : nat) (pm ip : option nat) (j : nat) (k k' : key) : Prop := {
  ek_pid : k_pid k' = k_pid k;
  ek_parent : k_parent k' = if decide (k_parent k = Some me) then ip else k_parent k;
  ek_me : j = me → k_state k' = ZOMBIE;
  ek_state : j ≠ me → k_state k' = k_state k ∨ (k_state k = SLEEPING ∧ k_state k' = RUNNABLE);
  ek_wait z : j ≠ me → waiting k' z → waiting k z ∧ pm ≠ Some z ∧
    ((∃ x kx, T x = Some kx ∧ k_parent kx = Some me ∧ k_state kx = ZOMBIE) → ip ≠ Some z) }.

Lemma zchild_true me (T : table) n x kx :
  (x < n)%nat → T x = Some kx → k_parent kx = Some me → k_state kx = ZOMBIE → zchild me T n = true.
Proof.
  intros Hx Hk Hp Hz. unfold zchild. apply existsb_exists. exists x. split; [apply in_seq; lia|].
  unfold zombie_child. rewrite Hk. by apply bool_decide_true.
Qed.

Lemma kwake_state c k : k_state (kwake c k) = k_state k ∨ (k_state k = SLEEPING ∧ k_state (kwake c k) = RUNNABLE).
Proof. unfold kwake. case_bool_decide as Hb; [right|by left]. by destruct Hb. Qed.
Lemma kwake_chan c k : k_chan (kwake c k) = k_chan k.
Proof. unfold kwake. by case_bool_decide. Qed.
Lemma kwake_not c k z : waiting (kwake c k) z → waiting k z ∧ c ≠ Some (Chan "proc" z).
Proof.
  unfold kwake. case_bool_decide as Hb; [by intros [? _]|]. intros [Hs Hc]. split; [done|]. naive_solver.
Qed.

Lemma exit_table (T : table) me pm ip n j k :
  T j = Some k → (∀ x kx, T x = Some kx → (x < n)%nat) →
  ∃ k', upd (passed me ip (λ j, kwake (proc_chan pm) <$> T j) n) me (kset_state ZOMBIE) j = Some k' ∧
        exit_key T me pm ip j k k'.
Proof.
  intros Hk Hn. set (T1 := λ j, kwake (proc_chan pm) <$> T j).
  set (k1 := kwake (proc_chan pm) k). set (k2 := if zchild me T1 n then kwake (proc_chan ip) k1 else k1).
  assert (passed me ip T1 n j = Some (kpass me ip k2)) as Hpass.
  { unfold passed, T1. rewrite Hk. cbn. destruct (decide (j < n)%nat) as [|Hj]; [done|]. by destruct Hj; eapply Hn. }
  assert (k_pid k2 = k_pid k ∧ k_parent k2 = k_parent k) as [Hpid Hpar].
  { unfold k2, k1. by case_match; rewrite ?kwake_pid, ?kwake_parent. }
  assert (k_state k2 = k_state k ∨ (k_state k = SLEEPING ∧ k_state k2 = RUNNABLE)) as Hst.
  { unfold k2, k1. destruct (kwake_state (proc_chan pm) k) as [E1|[E1 E2]], (zchild me T1 n); try by auto.
    - destruct (kwake_state (proc_chan ip) (kwake (proc_chan pm) k)) as [E3|[E3 E4]]; [left; congruence|right; split; congruence].
    - destruct (kwake_state (proc_chan ip) (kwake (proc_chan pm) k)) as [E3|[E3 E4]]; [right; split; congruence|congruence]. }
  assert (∀ z, waiting k2 z → waiting k z ∧ pm ≠ Some z ∧
    ((∃ x kx, T x = Some kx ∧ k_parent kx = Some me ∧ k_state kx = ZOMBIE) → ip ≠ Some z)) as Hwt.
  { intros z Hw. assert (waiting k1 z) as Hw1 by (unfold k2 in Hw; destruct (zchild _ _ _); [by apply kwake_not in Hw as [? _]|done]).
    apply kwake_not in Hw1 as [Hw0 Hpm]. split; [done|]. split; [intros ->; by apply Hpm|]. intros (x & kx & Hx & Hpx & Hzx) ->.
    unfold k2 in Hw. rewrite (zchild_true me T1 n x (kwake (proc_chan pm) kx)) in Hw.
    - apply kwake_not in Hw as [_ Hn']. by apply Hn'.
    - by eapply Hn.
    - unfold T1. by rewrite Hx.
    - by rewrite kwake_parent.
    - by apply kwake_zombie. }
  assert (k_parent (kpass me ip k2) = if decide (k_parent k = Some me) then ip else k_parent k) as Hkp.
  { unfold kpass. cbn. rewrite Hpar. repeat case_decide; case_bool_decide; done. }
  unfold upd. destruct (decide (j = me)) as [->|Hj]; rewrite Hpass; cbn; eexists; (split; [done|]); split; cbn; try done.
  intros z _ [Hs Hc]. by apply Hwt.
Qed.

Lemma tab_lt s j k : tab s j = Some k → (j < length (ptable s))%nat.
Proof. unfold tab. destruct (ptable s !! j) eqn:Hj; [|done]. intros _. by eapply lookup_lt_Some. Qed.

Section exit.
Context (s : pst E) (cs : list (option nat)) (ph : gmap nat phase) (c me : nat) (km : key) (T' : table).
Hypothesis Hi : inv s cs ph.
Hypothesis Hc : cs !! c = Some (Some me).
Hypothesis Hkm : tab s me = Some km.
Hypothesis Hnot : initproc s ≠ Some me.
Hypothesis HT' : ∀ j, match tab s j, T' j with
  | Some k, Some k' => exit_key (tab s) me (k_parent km) (initproc s) j k k'
  | None, None => True
  | _, _ => False
  end.

Lemma exit_bwd j k' : T' j = Some k' → ∃ k, tab s j = Some k ∧ exit_key (tab s) me (k_parent km) (initproc s) j k k'.
Proof. intros E1. pose proof (HT' j) as H. rewrite E1 in H. destruct (tab s j); [eauto|done]. Qed.
Lemma exit_fwd j k : tab s j = Some k → ∃ k', T' j = Some k' ∧ exit_key (tab s) me (k_parent km) (initproc s) j k k'.
Proof. intros E1. pose proof (HT' j) as H. rewrite E1 in H. destruct (T' j); [eauto|done]. Qed.

Lemma exit_running_me : k_state km = RUNNING.
Proof. destruct (on_cpu s cs ph c me Hi Hc) as (k & Hk & Hr). congruence. Qed.

(** Every process but [me] keeps its stage of life. *)
Lemma exit_stage j k k' :
  exit_key (tab s) me (k_parent km) (initproc s) j k k' → j ≠ me →
  ∀ st, st = UNUSED ∨ st = EMBRYO ∨ st = ZOMBIE ∨ st = RUNNING → k_state k' = st ↔ k_state k = st.
Proof. intros Hx Hj st Hst. destruct (ek_state _ _ _ _ _ _ _ Hx Hj) as [->|[E1 E2]]; [done|]. rewrite E1, E2. naive_solver. Qed.

Lemma exit_unused j k k' :
  tab s j = Some k → exit_key (tab s) me (k_parent km) (initproc s) j k k' →
  (k_state k' = UNUSED ↔ k_state k = UNUSED) ∧ (k_state k' = EMBRYO ↔ k_state k = EMBRYO).
Proof.
  intros Hk Hx. destruct (decide (j = me)) as [->|Hj].
  - rewrite (ek_me _ _ _ _ _ _ _ Hx eq_refl). assert (k = km) as -> by congruence. by rewrite exit_running_me.
  - split; apply (exit_stage j); auto.
Qed.

Lemma exit_cpus : cpus_ok T' (<[c := None]> cs).
Proof.
  eapply cpus_stop; [apply Hi|done| |].
  - intros (k' & (k & Hk & Hx)%exit_bwd & Hr). by rewrite (ek_me _ _ _ _ _ _ _ Hx eq_refl) in Hr.
  - intros j Hj. split.
    + intros (k' & (k & Hk & Hx)%exit_bwd & Hr). exists k. split; [done|]. apply (exit_stage j k k' Hx Hj RUNNING); auto.
    + intros (k & (k' & Hk & Hx)%exit_fwd & Hr). exists k'. split; [done|]. apply (exit_stage j k k' Hx Hj RUNNING); auto.
Qed.

Lemma exit_pids : pids_ok T' (nextpid s).
Proof.
  destruct (i_pids _ _ _ Hi) as [H1 H2 H3]. split; [done| |].
  - intros j k' (k & Hk & Hx)%exit_bwd Hu. rewrite (ek_pid _ _ _ _ _ _ _ Hx). apply (H2 j k Hk).
    by destruct (exit_unused j k k' Hk Hx) as [<- _].
  - intros j1 j2 k1' k2' (k1 & Hk1 & Hx1)%exit_bwd (k2 & Hk2 & Hx2)%exit_bwd.
    rewrite (ek_pid _ _ _ _ _ _ _ Hx1), (ek_pid _ _ _ _ _ _ _ Hx2).
    destruct (exit_unused _ _ _ Hk1 Hx1) as [-> _], (exit_unused _ _ _ Hk2 Hx2) as [-> _]. eauto.
Qed.

Lemma exit_live j k : tab s j = Some k → live k → j ≠ me → ∃ k', T' j = Some k' ∧ live k'.
Proof.
  intros Hk [[Hu He] Hz] Hj. destruct (exit_fwd j k Hk) as (k' & Hk' & Hx). exists k'. split; [done|].
  split; [split|]; intros Hs; [apply Hu|apply He|apply Hz]; eapply (exit_stage j k k'); eauto.
Qed.

Lemma exit_parents : parents_ok T' (initproc s).
Proof.
  destruct (i_parents _ _ _ Hi) as [(i0 & k0 & Hi0 & Hk0 & Hl0 & Hp0) Hself H2 H3].
  assert (i0 ≠ me) as Hne by congruence. split.
  - destruct (exit_live i0 k0 Hk0 Hl0 Hne) as (k0' & Hk0' & Hl0'). exists i0, k0'. split_and!; [done..|].
    apply exit_bwd in Hk0' as (k & Hk & Hx). rewrite (ek_parent _ _ _ _ _ _ _ Hx).
    assert (k = k0) as -> by congruence. rewrite Hp0. by destruct (decide (None = Some me)).
  - intros j k' (k & Hk & Hx)%exit_bwd. rewrite (ek_parent _ _ _ _ _ _ _ Hx). case_decide; [|by apply Hself].
    intros E1. assert (j = i0) as -> by congruence. congruence.
  - intros j k' q (k & Hk & Hx)%exit_bwd. rewrite (ek_parent _ _ _ _ _ _ _ Hx). intros Hq.
    destruct (exit_unused _ _ _ Hk Hx) as [Hu He].
    destruct (decide (k_parent k = Some me)) as [E1|E1].
    + destruct (H2 j k me Hk E1) as ([? ?] & _). split; [by split; rewrite ?Hu, ?He|].
      assert (q = i0) as -> by congruence. by apply (exit_live i0 k0).
    + destruct (H2 j k q Hk Hq) as ([? ?] & kq & Hkq & Hlq). split; [by split; rewrite ?Hu, ?He|].
      apply (exit_live q kq); [done..|]. congruence.
  - intros j k' (k & Hk & Hx)%exit_bwd [Hu' He']. rewrite (ek_parent _ _ _ _ _ _ _ Hx).
    destruct (exit_unused _ _ _ Hk Hx) as [Hu He]. rewrite Hu in Hu'. rewrite He in He'.
    destruct (H3 j k Hk) as [?|?]; [done|by left|right]. case_decide; [by rewrite Hi0|done].
Qed.

Lemma exit_waits : waits_ok T'.
Proof.
  intros j k' z (k & Hk & Hx)%exit_bwd Hw.
  assert (j ≠ me) as Hj by (intros ->; destruct Hw as [Hs _]; by rewrite (ek_me _ _ _ _ _ _ _ Hx eq_refl) in Hs).
  destruct (ek_wait _ _ _ _ _ _ _ Hx z Hj Hw) as (Hw0 & Hpm & Hip).
  destruct (i_waits _ _ _ Hi j k z Hk Hw0) as (-> & (x & kx & Hkx & Hpx) & Hz). split; [done|]. split.
  - destruct (exit_fwd x kx Hkx) as (kx' & Hkx' & Hxx). exists x, kx'. split; [done|].
    rewrite (ek_parent _ _ _ _ _ _ _ Hxx), Hpx. case_decide; [congruence|done].
  - intros y ky' (ky & Hy & Hxy)%exit_bwd. rewrite (ek_parent _ _ _ _ _ _ _ Hxy). intros Hpy Hzy.
    destruct (decide (y = me)) as [->|Hyme].
    + assert (ky = km) as -> by congruence. apply Hpm. case_decide as Hself; [|done].
      by apply (pa_self _ _ (i_parents _ _ _ Hi)) in Hself.
    + apply (exit_stage y ky ky' Hxy Hyme ZOMBIE) in Hzy; [|auto]. case_decide as Hc'.
      * apply Hip; [|done]. eauto.
      * by apply (Hz y ky).
Qed.

Lemma exit_phases : phases_ok T' (initproc s) (delete me ph).
Proof.
  destruct (i_phases _ _ _ Hi) as [H1 H2 H3]. split.
  - intros j np [_ (k & Hk & He)%H1]%lookup_delete_Some. destruct (exit_fwd np k Hk) as (k' & Hk' & Hx).
    exists k'. split; [done|]. by destruct (exit_unused np k k' Hk Hx) as [_ ->].
  - intros j1 j2 np [_ ?]%lookup_delete_Some [_ ?]%lookup_delete_Some. by eapply H2.
  - intros j [_ ?]%lookup_delete_Some. by apply H3.
Qed.
End exit.

Lemma inv_exit s cs ph (c me : nat) cp s' :
  inv s cs ph → cs !! c = Some (Some me) → ph !! me = Some Exiting → exit_locked cp me s = Ok tt s' →
  inv s' (<[c := None]> cs) (delete me ph).
Proof.
  intros Hi Hc Hph H. destruct (on_cpu s cs ph c me Hi Hc) as (km & Hkm & _).
  pose proof (ph_exit _ _ _ (i_phases _ _ _ Hi) me Hph) as Hnot.
  pose proof (exit_locked_becomes cp me s s' km _ H Hkm eq_refl) as (HT & Hn & Hip & _).
  set (T' := upd _ me _) in HT.
  assert (∀ j, match tab s j, T' j with
    | Some k, Some k' => exit_key (tab s) me (k_parent km) (initproc s) j k k'
    | None, None => True | _, _ => False end) as HT'.
  { intros j. destruct (tab s j) as [k|] eqn:Hk.
    - destruct (exit_table (tab s) me (k_parent km) (initproc s) (length (ptable s)) j k Hk) as (k' & E1 & Hx); [apply tab_lt|].
      unfold T'. by rewrite E1.
    - unfold T', upd, passed. rewrite Hk. by destruct (decide (j = me)). }
  eapply inv_table; [exact HT|rewrite ?Hn, ?Hip..].
  - by eapply exit_cpus.
  - by eapply exit_pids.
  - by eapply exit_parents.
  - by eapply exit_waits.
  - by eapply exit_phases.
Qed.

(** *** wait *)

Lemma inv_reap s cs ph (c me i : nat) k s' :
  inv s cs ph → cs !! c = Some (Some me) → tab s i = Some k → k_parent k = Some me → k_state k = ZOMBIE →
  becomes s (upd (tab s) i k_reaped) s' → inv s' cs ph.
Proof.
  intros Hi Hc Hk Hpar Hz (HT & Hn & Hip & _). destruct (on_cpu s cs ph c me Hi Hc) as (km & Hkm & Hr).
  destruct Hi as [Hcp [Hp1 Hp2 Hp3] [(i0 & k0 & Hi0 & Hk0 & Hl0 & Hpar0) Hself Hq2 Hq3] Hw [Hf1 Hf2 Hf3]].
  assert (∀ q kq, tab s q = Some kq → k_state kq ≠ ZOMBIE → upd (tab s) i k_reaped q = Some kq) as Hkeep.
  { intros q kq Hkq Hs. rewrite upd_ne; [done|]. intros ->. congruence. }
  assert (∀ j kj, upd (tab s) i k_reaped j = Some kj → k_state kj ≠ UNUSED ∨ is_Some (k_parent kj) → tab s j = Some kj) as Hback.
  { intros j kj [(-> & k1 & _ & ->)|[_ ?]]%upd_Some; [|done]. cbn. intros [?|[? ?]]; done. }
  eapply inv_table; [exact HT|rewrite ?Hn, ?Hip..].
  - apply cpus_upd; [done|]. intros k1 Hk1. rewrite Hk in Hk1. injection Hk1 as <-. cbn. by rewrite Hz.
  - split; [done| |].
    + intros j kj Hj Hs. apply (Hp2 j kj); [|done]. by apply Hback; [|left].
    + intros j1 j2 k1 k2 H1 H2 Hs1 Hs2. apply (Hp3 j1 j2 k1 k2); [..|done|done]; apply Hback; auto.
  - split.
    + exists i0, k0. split_and!; [done| |done..]. apply Hkeep; [done|]. apply Hl0.
    + intros j kj Hj Hp. apply (Hself j kj); [|done]. apply Hback; [done|]. right. by eexists.
    + intros j kj q Hj Hq. apply Hback in Hj; [|right; by eexists].
      destruct (Hq2 j kj q Hj Hq) as (Hu & kq & Hkq & Hlq). split; [done|]. exists kq. split; [|done].
      apply Hkeep; [done|]. apply Hlq.
    + intros j kj Hj Hu. apply (Hq3 j kj); [|done]. apply Hback; [done|]. left. apply Hu.
  - intros j kj z Hj Hwj. apply Hback in Hj; [|left; destruct Hwj as [-> _]; done].
    destruct (Hw j kj z Hj Hwj) as (-> & (x & kx & Hx & Hpx) & Hzj). split; [done|]. split.
    + exists x, kx. split; [|done]. apply Hkeep; [done|]. by apply (Hzj x).
    + intros y ky Hy Hpy. apply (Hzj y ky); [|done]. apply Hback; [done|]. right. by eexists.
  - split; [|done..]. intros j np (ke & Hke & He)%Hf1. exists ke. split; [|done]. apply Hkeep; [done|]. by rewrite He.
Qed.

Lemma inv_wait_sleep s cs ph (c me : nat) cp ch s' :
  inv s cs ph → cs !! c = Some (Some me) → wait cp me s = Sleeping ch s' → inv s' (<[c := None]> cs) ph.
Proof.
  intros Hi Hc ((HT & Hn & Hip & _) & (x & kx & Hx & Hpx) & Hz)%wait_Sleeping.
  destruct (on_cpu s cs ph c me Hi Hc) as (km & Hkm & Hr). pose proof Hi as [Hcp Hp Hq Hw Hf].
  assert (benign_all false (tab s) (upd (tab s) me (k_asleep (Chan "proc" me)))) as HB.
  { intros j. unfold upd. destruct (decide (j = me)) as [->|]; [|by destruct (tab s j)]. rewrite Hkm. cbn.
    split; cbn; rewrite ?Hr; done. }
  eapply inv_table; [exact HT|rewrite ?Hn, ?Hip..].
  - eapply cpus_stop; [apply Hi|done| |].
    + by rewrite (running_upd_eq _ _ _ _ Hkm).
    + intros j Hj. by apply running_upd_ne.
  - by eapply pids_benign.
  - by eapply parents_benign.
  - assert (∀ y ky, upd (tab s) me (k_asleep (Chan "proc" me)) y = Some ky →
      ∃ ky0, tab s y = Some ky0 ∧ k_parent ky = k_parent ky0 ∧ (k_state ky = ZOMBIE → k_state ky0 = ZOMBIE)) as Hback.
    { intros y ky [(-> & k1 & Hk1 & ->)|[_ Hy]]%upd_Some; [|eauto]. exists k1. by rewrite Hk1. }
    assert (∀ j y ky, tab s y = Some ky → k_parent ky = Some j →
      ∃ x kx, upd (tab s) me (k_asleep (Chan "proc" me)) x = Some kx ∧ k_parent kx = Some j) as Hchild.
    { intros j y ky Hy Hpy. destruct (decide (y = me)) as [->|].
      - eexists me, _. split; [by apply upd_eq|done].
      - exists y, ky. by rewrite upd_ne. }
    intros j kj z [(-> & k1 & Hk1 & ->)|[Hj Hkj]]%upd_Some Hwj.
    + destruct Hwj as [_ [= Hzz]]. assert (z = me) as -> by lia. split; [done|]. split; [exact (Hchild me x kx Hx Hpx)|].
      intros y ky (ky0 & Hy & -> & Hzy)%Hback Hpy Hzz'. exact (Hz y ky0 Hy Hpy (Hzy Hzz')).
    + destruct (Hw j kj z Hkj Hwj) as (-> & (y & ky & Hy & Hpy) & Hzj). split; [done|]. split; [exact (Hchild j y ky Hy Hpy)|].
      intros w kw (kw0 & Hw0 & -> & Hzw)%Hback Hpw Hzw'. exact (Hzj w kw0 Hw0 Hpw (Hzw Hzw')).
  - by eapply phases_benign.
Qed.

Definition minv m : Prop := inv (m_st m) (m_cpus m) (m_phase m).

Lemma minv_step m m' : step lb m m' → minv m → minv m'.
Proof.
  intros Hs Hi. unfold minv in *. destruct Hs; cbn [m_st m_cpus m_phase].
  - by eapply inv_dispatch.
  - by eapply inv_resume.
  - by eapply inv_yield.
  - match goal with H : free_runs _ _ _ |- _ => destruct H end. by eapply inv_sleep.
  - by eapply inv_wakeup.
  - by eapply inv_kill.
  - match goal with H : free_runs _ _ _ |- _ => destruct H end. by eapply inv_fork_slot.
  - by eapply inv_fork_rest.
  - match goal with H : exit_files _ _ = _ |- _ => apply exit_files_becomes in H as [HB Hnot] end.
    pose proof (inv_internal _ _ _ _ Hi HB) as [Hcp Hp Hq Hw [Hf1 Hf2 Hf3]]. destruct HB as (_ & _ & Hip & _).
    split; [done..|]. split.
    + by intros j np [[<- ?]|[_ Hj]]%lookup_insert_Some; [|apply (Hf1 j)].
    + intros j1 j2 np [[<- ?]|[_ ?]]%lookup_insert_Some [[<- ?]|[_ ?]]%lookup_insert_Some; (done || by eapply Hf2).
    + intros j [[<- _]|[_ ?]]%lookup_insert_Some; [by rewrite Hip|by apply Hf3].
  - by eapply inv_exit.
  - match goal with H : free_runs _ _ _ |- _ => destruct H as [Hr _] end.
    match goal with H : wait _ _ _ = _ |- _ => apply wait_Ok in H as [H|(x & k & Hk & Hp & Hz & _ & H)] end.
    + by eapply inv_internal.
    + by eapply inv_reap.
  - match goal with H : free_runs _ _ _ |- _ => destruct H end. by eapply inv_wait_sleep.
  - by eapply inv_internal.
Qed.

Lemma minv_reachable m m' : rtc (step lb) m m' → minv m → minv m'.
Proof. induction 1; eauto using minv_step. Qed.
End steps.

(** ** From boot on *)

Section boot.
Context {E : Type} {PE : ProcEnv E}.
Context (lb : labels).

(** The machine userinit leaves: [n] idle CPUs. *)
Definition booted (s : pst E) (n : nat) : mach E := mkMach s (replicate n None) ∅.

Lemma boot_table_Some i k : boot_table i = Some k → (i = O ∧ k = init_key) ∨ (i ≠ O ∧ k = unused_key).
Proof. unfold boot_table. repeat case_decide; naive_solver. Qed.

Lemma booted_inv e s n : userinit lb (zero_state e) = Ok tt s → minv (booted s n).
Proof.
  intros (HT & Hn & Hip)%userinit_boots. unfold minv, booted; cbn [m_st m_cpus m_phase].
  assert (∀ c i : nat, replicate n (None : option nat) !! c ≠ Some (Some i)) as Hidle.
  { intros c i [? ?]%lookup_replicate. done. }
  assert (∀ i k, boot_table i = Some k → k_state k ≠ RUNNING ∧ k_parent k = None ∧ k_chan k = None) as Hplain.
  { intros i k [[_ ->]|[_ ->]]%boot_table_Some; done. }
  eapply inv_table; [exact HT|rewrite ?Hn, ?Hip..].
  - split.
    + intros c i Hc. by apply Hidle in Hc.
    + intros c c' i Hc. by apply Hidle in Hc.
    + intros i k Hk Hs. by destruct (Hplain i k Hk).
  - split; [done| |].
    + intros i k [[_ ->]|[_ ->]]%boot_table_Some; done.
    + intros i j k k' [[-> ->]|[_ ->]]%boot_table_Some [[-> ->]|[_ ->]]%boot_table_Some; done.
  - split.
    + exists O, init_key. done.
    + intros i k Hk. by destruct (Hplain i k Hk) as (_ & -> & _).
    + intros i k q Hk. by destruct (Hplain i k Hk) as (_ & -> & _).
    + intros i k [[-> ->]|[_ ->]]%boot_table_Some; [by left|]. by intros [? _].
  - intros i k j Hk [_ Hc]. destruct (Hplain i k Hk) as (_ & _ & Hc'). congruence.
  - split; intros *; by rewrite lookup_empty.
Qed.

Lemma reachable_inv e s n m :
  userinit lb (zero_state e) = Ok tt s → rtc (step lb) (booted s n) m → minv m.
Proof. intros Hb Hr. eapply minv_reachable; [exact Hr|by eapply booted_inv]. Qed.
End boot.

(** C8: whatever the CPUs and processes do after userinit, in any interleaving
    of dispatch, yield, sleep, wakeup, kill, fork, exit and wait, no two CPUs
    ever run the same process, and a process is RUNNING exactly when some CPU
    runs it. *)
Theorem one_cpu_per_process {E} {PE : ProcEnv E} (lb : labels) (e : E) (s : pst E) (n : nat) (m : mach E) :
  userinit lb (zero_state e) = Ok tt s → rtc (step lb) (booted s n) m →
  (∀ c c' i : nat, runs m c i → runs m c' i → c = c') ∧
  (∀ i p, ptable (m_st m) !! i = Some p → p_state p = RUNNING ↔ ∃ c, runs m c i).
Proof.
  intros Hb Hr. destruct (i_cpus _ _ _ (reachable_inv lb e s n m Hb Hr)) as [H1 H2 H3].
  split; [intros c c' i; apply H2|]. intros i p Hp%tab_lookup. split.
  - apply (H3 i _ Hp).
  - intros [c Hc]. destruct (H1 c i Hc) as (k & Hk & Hs). by rewrite Hp in Hk; injection Hk as <-.
Qed.

(** C9: the process tree.  At every reachable state every process in use other
    than init has a parent that is in use and not a zombie, so that its exit
    status will be collected; init never exits; and the pids of all slots that
    are not UNUSED are positive and pairwise different, as long as the pid
    counter does not overflow. *)
Theorem process_tree {E} {PE : ProcEnv E} (lb : labels) (e : E) (s : pst E) (n : nat) (m : mach E) :
  userinit lb (zero_state e) = Ok tt s → rtc (step lb) (booted s n) m →
  let l := ptable (m_st m) in
  (∃ i p, initproc (m_st m) = Some i ∧ l !! i = Some p ∧ live (key_of p)) ∧
  (∀ i p, l !! i = Some p → used (key_of p) → initproc (m_st m) ≠ Some i →
     ∃ q pq, p_parent p = Some q ∧ q ≠ i ∧ l !! q = Some pq ∧ live (key_of pq)) ∧
  (∀ i j p q, l !! i = Some p → l !! j = Some q → p_state p ≠ UNUSED → p_state q ≠ UNUSED →
     0 < p_pid p ∧ (p_pid p = p_pid q → i = j)).
Proof.
  intros Hb Hr l. pose proof (reachable_inv lb e s n m Hb Hr) as [_ [_ Hp2 Hp3] [(i0 & k0 & Hi0 & Hk0 & Hl0 & _) Hself Hq2 Hq3] _ _].
  assert (∀ i k, tab (m_st m) i = Some k → ∃ p, l !! i = Some p ∧ k = key_of p) as Hl.
  { intros i k. unfold tab. fold l. destruct (l !! i); naive_solver. }
  split_and!.
  - destruct (Hl i0 k0 Hk0) as (p & Hp & ->). exists i0, p. done.
  - intros i p Hp%tab_lookup Hu Hni. destruct (Hq3 i _ Hp Hu) as [?|[q Hq]]; [done|].
    destruct (Hq2 i _ q Hp Hq) as (_ & kq & Hkq & Hlq). destruct (Hl q kq Hkq) as (pq & Hpq & ->).
    exists q, pq. split_and!; [done| |done|done..]. intros ->. by apply (Hself i _ Hp).
  - intros i j p q Hp%tab_lookup Hq%tab_lookup Hup Huq. split; [by apply (Hp2 i _ Hp)|]. intros Epid.
    by eapply Hp3.
Qed.

(** C7: no exit is lost.  At every reachable state a process that sleeps in wait
    has at least one child, and none of its children is a zombie: an exiting
    child, or a zombie that init inherits, always wakes the process that has to
    collect it. *)
Theorem wait_not_lost {E} {PE : ProcEnv E} (lb : labels) (e : E) (s : pst E) (n : nat) (m : mach E) (i : nat) (p : proc) :
  userinit lb (zero_state e) = Ok tt s → rtc (step lb) (booted s n) m →
  ptable (m_st m) !! i = Some p → p_state p = SLEEPING → p_chan p = Some (Chan "proc" i) →
  (∃ j q, ptable (m_st m) !! j = Some q ∧ p_parent q = Some i) ∧
  (∀ j q, ptable (m_st m) !! j = Some q → p_parent q = Some i → p_state q ≠ ZOMBIE).
Proof.
  intros Hb Hr Hp%tab_lookup Hs Hc. pose proof (i_waits _ _ _ (reachable_inv lb e s n m Hb Hr)) as Hw.
  destruct (Hw i _ i Hp) as (_ & (x & kx & Hx & Hpx) & Hz); [done|]. split.
  - unfold tab in Hx. destruct (ptable (m_st m) !! x) as [q|] eqn:Hq; [|done]. injection Hx as <-. by exists x, q.
  - intros j q Hq%tab_lookup Hpq. by apply (Hz j _ Hq).
Qed.

(** ** The scheduler's loop *)

(** The position of the loop after [n] decisions, [t j] being the table that
    decision [j] sees. *)
Fixpoint sched_pos (t : nat → list proc) (k : nat) (n : nat) : nat :=
  match n with
  | O => k
  | S n => match scheduler_next (t n) (sched_pos t k n) with Some i => S i | None => O end
  end.

(** Decisions until slot [i] is reached from position [k]. *)
Definition distance (i k : nat) : nat := if decide (k ≤ i)%nat then i - k else NPROC - k + 1 + i.

Lemma find_slot_first f l i0 i p :
  l !! i = Some p → f p = true → ∃ j, find_slot f l i0 = Some (i0 + j)%nat ∧ (j ≤ i)%nat.
Proof.
  revert i0 i; induction l as [|q l IH]; intros i0 i; simpl; [done|]. destruct (f q) eqn:Hq.
  - intros _ _. exists O. rewrite Nat.add_0_r. split; [done|lia].
  - destruct i as [|i]; simpl; [intros [= ->]; congruence|]. intros Hi Hf. destruct (IH (S i0) i Hi Hf) as (j & -> & Hj).
    exists (S j). split; [f_equal; lia|lia].
Qed.

Lemma scheduler_progress l k i p :
  length l = NPROC → l !! i = Some p → p_state p = RUNNABLE → (k ≤ NPROC)%nat →
  scheduler_next l k = Some i ∨
  let k' := match scheduler_next l k with Some j => S j | None => O end in
  (k' ≤ NPROC)%nat ∧ (distance i k' < distance i k)%nat.
Proof.
  intros Hlen Hi Hr Hk. pose proof (lookup_lt_Some _ _ _ Hi) as Hlt. rewrite Hlen in Hlt. unfold scheduler_next, distance.
  destruct (decide (k ≤ i)%nat) as [Hle|Hgt].
  - destruct (find_slot_first (is_state RUNNABLE) (drop k l) k (i - k) p) as (j & -> & Hj).
    + rewrite lookup_drop. by replace (k + (i - k))%nat with i by lia.
    + by apply bool_decide_true.
    + destruct (decide (k + j = i)%nat) as [->|]; [by left|right]. cbn zeta. case_decide; lia.
  - right. destruct (find_slot _ _ _) as [j|] eqn:Hf; cbn zeta.
    + apply find_slot_Some in Hf as (q & Hkj & Hq%lookup_lt_Some & _). rewrite length_drop, Hlen in Hq.
      case_decide; lia.
    + case_decide; lia.
Qed.

(** C10: the scheduler is fair.  However the table changes between its
    decisions, a process that is RUNNABLE whenever the scheduler decides is
    chosen within NPROC + 1 decisions (counting the end of a pass over the table
    as one), from whatever slot the loop starts. *)
Theorem scheduler_fair (t : nat → list proc) (i k : nat) :
  (∀ n, length (t n) = NPROC) → (∀ n, ∃ p, t n !! i = Some p ∧ p_state p = RUNNABLE) → (k ≤ NPROC)%nat →
  ∃ n, (n ≤ NPROC)%nat ∧ scheduler_next (t n) (sched_pos t k n) = Some i.
Proof.
  intros Hlen Hr Hk.
  assert (∀ d n, (sched_pos t k n ≤ NPROC)%nat → (distance i (sched_pos t k n) ≤ d)%nat →
    ∃ n', (n' ≤ n + d)%nat ∧ scheduler_next (t n') (sched_pos t k n') = Some i) as Hd.
  { induction d as [d IH] using lt_wf_ind. intros n Hn Hdist. destruct (Hr n) as (p & Hp & Hrun).
    destruct (scheduler_progress (t n) (sched_pos t k n) i p (Hlen n) Hp Hrun Hn) as [?|[Hk' Hlt]]; [by exists n; split; [lia|]|].
    destruct (IH (d - 1)%nat ltac:(lia) (S n)) as (n' & Hn' & ?); [exact Hk'|simpl; lia|]. exists n'. split; [lia|done]. }
  destruct (Hr O) as (p & Hp%lookup_lt_Some & _). rewrite Hlen in Hp.
  destruct (Hd NPROC O) as (n & Hn & ?); [done| |by exists n]. simpl. unfold distance. case_decide; lia.
Qed.

(** ** kill(0) *)

Lemma find_slot_least f l i0 i p :
  l !! i = Some p → f p = true → (∀ j q, (j < i)%nat → l !! j = Some q → f q = false) →
  find_slot f l i0 = Some (i0 + i)%nat.
Proof.
  revert i0 i; induction l as [|q l IH]; intros i0 i; simpl; [done|]. destruct i as [|i]; simpl.
  - intros [= ->] -> _. f_equal; lia.
  - intros Hi Hf Hless. rewrite (Hless O q) by (lia || done). rewrite (IH (S i0) i Hi Hf); [f_equal; lia|].
    intros j r Hj Hr. apply (Hless (S j) r); [lia|done].
Qed.

(** Kill does not check that the slot it finds is in use.  A slot that was
    never used, or whose process was collected by wait, has pid 0, so kill(0)
    succeeds on the first such slot and marks it killed; allocproc does not
    clear the flag, and the next process created in the slot starts out killed. *)
Lemma kill_zero_poisons_slot {E} (s : pst E) (i : nat) (p : proc) :
  ptable s !! i = Some p → p_state p = UNUSED → p_pid p = 0 →
  (∀ j q, (j < i)%nat → ptable s !! j = Some q → p_state q ≠ UNUSED ∧ p_pid q ≠ 0) →
  ∃ s1 s2 q, kill 0 s = Ok 0 s1 ∧ allocproc_slot s1 = Ok (Some i) s2 ∧
    ptable s2 !! i = Some q ∧ p_state q = EMBRYO ∧ p_pid q = nextpid s ∧ p_killed q = 1.
Proof.
  intros Hp Hu Hpid Hless. pose proof (lookup_lt_Some _ _ _ Hp) as Hlt.
  set (s1 := set_table (<[i := set_killed 1 p]> (ptable s)) s).
  assert (ptable s1 !! i = Some (set_killed 1 p)) as Hp1 by by apply list_lookup_insert_eq.
  assert (kill 0 s = Ok 0 s1) as R1.
  { unfold kill. rewrite (find_slot_least _ _ 0 i p Hp).
    - simpl. unfold bind, modp, getp. rewrite Hp. cbn. fold s1. rewrite list_lookup_insert_eq by done.
      unfold is_state. by rewrite bool_decide_false by (cbn; congruence).
    - by rewrite Hpid.
    - intros j q Hj Hq. apply Z.eqb_neq. by eapply Hless. }
  eexists s1, _, _. split; [exact R1|]. unfold allocproc_slot. rewrite (find_slot_least _ _ 0 i _ Hp1).
  - simpl. unfold bind, modp. rewrite Hp1. split; [done|]. cbn. rewrite list_lookup_insert_eq by by rewrite length_insert. done.
  - by apply bool_decide_true.
  - intros j q Hj. unfold s1; cbn. rewrite list_lookup_insert_ne by lia. intros Hq. apply bool_decide_false.
    by eapply Hless.
Qed.

(** ** A run *)

(** An environment with memory and open files without bound. *)
#[refine] Instance demo_env : ProcEnv Z := {|
  pe_kalloc := λ n, Ok n (n + 4096);
  pe_kfree _ := ret tt;
  pe_setupkvm := λ n, Ok n (n + 4096);
  pe_inituvm _ := ret tt;
  pe_allocuvm _ _ sz := ret sz;
  pe_deallocuvm _ _ sz := ret sz;
  pe_copyuvm _ _ := λ n, Ok n (n + 4096);
  pe_freevm _ := ret tt;
  pe_filedup f := ret f;
  pe_fileclose _ := ret tt;
  pe_idup ip := ret ip;
  pe_begin_op := ret tt;
  pe_end_op := ret tt;
  pe_iput _ := ret tt;
  pe_namei _ := ret (Some O) |}.
Proof. all: intros; apply awake_ret. Defined.

Definition st_of {A} (r : res (pst Z) A) (s : pst Z) : pst Z :=
  match r with Ok _ s' => s' | Sleeping _ s' => s' | _ => s end.

Definition demo_labels : labels := mkLabels 0x80103000 0x80105000.

(** init is dispatched, forks a child and waits for it. *)
Definition demo0 : pst Z := st_of (userinit demo_labels (zero_state 0x80400000)) (zero_state 0).
Definition demo1 : pst Z := st_of (dispatch 0 demo0) demo0.
Definition demo2 : pst Z := st_of (allocproc_slot demo1) demo1.
Definition demo3 : pst Z := st_of (fork_rest demo_labels 0 1 demo2) demo2.
Definition demo_cpu : cpu := mkCpu 0 false true.
Definition demo4 : pst Z := st_of (wait demo_cpu 0 demo3) demo3.

Definition demo_waiting : mach Z := mkMach demo4 [None; None] (delete O (<[O := Forking 1]> ∅)).

Lemma demo_boot : userinit demo_labels (zero_state 0x80400000) = Ok tt demo0.
Proof. vm_compute. reflexivity. Qed.

Lemma demo_reach : rtc (step demo_labels) (booted demo0 2) demo_waiting.
Proof.
  eapply rtc_l; [apply (m_dispatch _ _ 0 0 0 demo1); vm_compute; reflexivity|].
  eapply rtc_l; [apply (m_fork_slot _ _ 0 0 1 demo2); [split|..]; vm_compute; reflexivity|].
  eapply rtc_l; [eapply (m_fork_rest _ _ 0 0 1 2 demo3); vm_compute; reflexivity|].
  eapply rtc_l; [eapply (m_wait_sleep _ _ 0 0 demo_cpu (Chan "proc" 0) demo4); [split|]; vm_compute; reflexivity|].
  apply rtc_refl.
Qed.

Lemma one_cpu_per_process_witness :
  (∀ c c' i : nat, runs demo_waiting c i → runs demo_waiting c' i → c = c') ∧
  (∀ i p, ptable (m_st demo_waiting) !! i = Some p → p_state p = RUNNING ↔ ∃ c, runs demo_waiting c i).
Proof. exact (one_cpu_per_process demo_labels 0x80400000 demo0 2 demo_waiting demo_boot demo_reach). Defined.

Lemma process_tree_witness :
  let l := ptable (m_st demo_waiting) in
  (∃ i p, initproc (m_st demo_waiting) = Some i ∧ l !! i = Some p ∧ live (key_of p)) ∧
  (∀ i p, l !! i = Some p → used (key_of p) → initproc (m_st demo_waiting) ≠ Some i →
     ∃ q pq, p_parent p = Some q ∧ q ≠ i ∧ l !! q = Some pq ∧ live (key_of pq)) ∧
  (∀ i j p q, l !! i = Some p → l !! j = Some q → p_state p ≠ UNUSED → p_state q ≠ UNUSED →
     0 < p_pid p ∧ (p_pid p = p_pid q → i = j)).
Proof. exact (process_tree demo_labels 0x80400000 demo0 2 demo_waiting demo_boot demo_reach). Defined.

Definition demo_init : proc := nth 0 (ptable demo4) zero_proc.

Lemma wait_not_lost_witness :
  (∃ j q, ptable (m_st demo_waiting) !! j = Some q ∧ p_parent q = Some O) ∧
  (∀ j q, ptable (m_st demo_waiting) !! j = Some q → p_parent q = Some O → p_state q ≠ ZOMBIE).
Proof.
  apply (wait_not_lost demo_labels 0x80400000 demo0 2 demo_waiting 0 demo_init demo_boot demo_reach);
    vm_compute; reflexivity.
Defined.

Lemma scheduler_fair_witness :
  ∃ n, (n ≤ NPROC)%nat ∧ scheduler_next (ptable demo3) (sched_pos (λ _, ptable demo3) 2 n) = Some 1%nat.
Proof.
  apply (scheduler_fair (λ _, ptable demo3) 1 2).
  - intros _. vm_compute. reflexivity.
  - intros _. exists (nth 1 (ptable demo3) zero_proc). split; vm_compute; reflexivity.
  - vm_compute. lia.
Defined.

Lemma kill_zero_poisons_slot_witness :
  ∃ s1 s2 q, kill 0 demo0 = Ok 0 s1 ∧ allocproc_slot s1 = Ok (Some 1%nat) s2 ∧
    ptable s2 !! 1%nat = Some q ∧ p_state q = EMBRYO ∧ p_pid q = nextpid demo0 ∧ p_killed q = 1.
Proof.
  apply (kill_zero_poisons_slot demo0 1 zero_proc); [vm_compute; reflexivity..|].
  intros j q Hj Hq. assert (j = O) as -> by lia. vm_compute in Hq. injection Hq as <-. split; discriminate.
Defined.
