(* ===== verification/File.v ===== *)
(** * Open files: file.c, and the allocation of pipes

    The table [ftable] of open files over the file system of Fs.v and the pipes
    of Pipe.v.  A [struct file *] is an index into the table, a [struct pipe *]
    the address of the page that holds the pipe.  ftable.lock makes the updates
    of a slot atomic.  begin_op and end_op come from the layer below through the
    class [LogOps]. *)
From S2P Require Import Prelude Str Sleeplock Memide Log BlockLayer Fs Pipe Kalloc.

Definition NFILE : nat := 100.
Definition MAXOPBLOCKS : Z := 10.

Inductive ftype := FD_NONE | FD_PIPE | FD_INODE.
#[global] Instance ftype_eq_dec : EqDecision ftype.
Proof. solve_decision. Defined.

(** [struct file] *)
Record file := mkFile {
  fi_type : ftype; fi_ref : Z; fi_readable : bool; fi_writable : bool; fi_pipe : Z; fi_ip : nat; fi_off : Z }.

Definition fset_ref (r : Z) (f : file) : file :=
  mkFile (fi_type f) r (fi_readable f) (fi_writable f) (fi_pipe f) (fi_ip f) (fi_off f).
Definition fset_type (t : ftype) (f : file) : file :=
  mkFile t (fi_ref f) (fi_readable f) (fi_writable f) (fi_pipe f) (fi_ip f) (fi_off f).
Definition fset_off (o : Z) (f : file) : file :=
  mkFile (fi_type f) (fi_ref f) (fi_readable f) (fi_writable f) (fi_pipe f) (fi_ip f) o.
(** An end of a pipe, as pipealloc fills it in. *)
Definition fset_pipe (r w : bool) (p : Z) (f : file) : file :=
  mkFile FD_PIPE (fi_ref f) r w p (fi_ip f) (fi_off f).
(** An open inode, as sys_open fills it in. *)
Definition fset_inode (ip : nat) (r w : bool) (f : file) : file :=
  mkFile FD_INODE (fi_ref f) r w (fi_pipe f) ip 0.

(** [lo_end_op] gets the pid of the caller, which locks buffers when it commits. *)
Class LogOps (S : Type) := { lo_begin_op : M S unit; lo_end_op : Z → M S unit }.
#[global] Instance log_ops : LogOps lst := {| lo_begin_op := begin_op; lo_end_op := end_op |}.

(** The state: file system, open files, pipes by address, and kernel memory. *)
Record fist (S : Type) := mkFist {
  x_fs : fsst S; x_ftable : list file; x_pipes : gmap Z pipe; x_kmem : kmem }.
Arguments mkFist {S}.
Arguments x_fs {S}.
Arguments x_ftable {S}.
Arguments x_pipes {S}.
Arguments x_kmem {S}.

Section code.
Context {S : Type} {BL : BlockLayer S} {LO : LogOps S}.
(** The calling process's pid and killed flag, the device table, and the linker
    symbol [end]. *)
Context (me : Z) (killed : bool) (devsw : Z → devfuns S) (kend : Z).

Abbreviation X A := (M (fist S) A).

Definition onfs {A} (m : M (fsst S) A) : X A :=
  zoom x_fs (λ f s, mkFist f (x_ftable s) (x_pipes s) (x_kmem s)) m.
Definition onmem {A} (m : M kmem A) : X A :=
  zoom x_kmem (λ k s, mkFist (x_fs s) (x_ftable s) (x_pipes s) k) m.
Definition set_ftable (l : list file) (s : fist S) : fist S := mkFist (x_fs s) l (x_pipes s) (x_kmem s).
Definition set_pipes (m : gmap Z pipe) (s : fist S) : fist S := mkFist (x_fs s) (x_ftable s) m (x_kmem s).

Definition xbegin_op : X unit := onfs (onl lo_begin_op).
Definition xend_op : X unit := onfs (onl (lo_end_op me)).

Definition getf (f : nat) : X file := λ s,
  match x_ftable s !! f with Some x => Ok x s | None => Panic "page fault" end.
Definition modf (g : file → file) (f : nat) : X unit := λ s,
  match x_ftable s !! f with
  | Some x => Ok tt (set_ftable (<[f := g x]> (x_ftable s)) s)
  | None => Panic "page fault"
  end.
Definition getpipe (p : Z) : X pipe := λ s,
  match x_pipes s !! p with Some x => Ok x s | None => Panic "page fault" end.

(** ** Slots *)

Fixpoint free_slot (l : list file) (i : nat) : option nat :=
  match l with
  | [] => None
  | f :: l => if fi_ref f =? 0 then Some i else free_slot l (Datatypes.S i)
  end.

Definition filealloc : X (option nat) := λ s,
  match free_slot (x_ftable s) 0 with
  | Some i => (do! modf (fset_ref 1) i in ret (Some i)) s
  | None => Ok None s
  end.

Definition filedup (f : nat) : X nat :=
  let! x := getf f in
  if fi_ref x <? 1 then panic "filedup" else
  do! modf (fset_ref (s32 (fi_ref x + 1))) f in
  ret f.

(** [pipeclose]: the last end to close frees the page. *)
Definition xpipeclose (p : Z) (writable : bool) : X unit :=
  let! x := getpipe p in
  let '(gone, x) := pipeclose writable x in
  do! modify (λ s, set_pipes (<[p := x]> (x_pipes s)) s) in
  if gone then
    do! onmem (kfree kend p) in
    modify (λ s, set_pipes (delete p (x_pipes s)) s)
  else ret tt.

Definition fileclose (f : nat) : X unit :=
  let! x := getf f in
  if fi_ref x <? 1 then panic "fileclose" else
  do! modf (fset_ref (s32 (fi_ref x - 1))) f in
  if 0 <? s32 (fi_ref x - 1) then ret tt else
  let! ff := getf f in
  do! modf (λ y, fset_type FD_NONE (fset_ref 0 y)) f in
  match fi_type ff with
  | FD_PIPE => xpipeclose (fi_pipe ff) (fi_writable ff)
  | FD_INODE =>
      do! xbegin_op in
      do! onfs (iput me (fi_ip ff)) in
      xend_op
  | FD_NONE => ret tt
  end.

(** ** Pipes *)

(** The jump to [bad] in pipealloc: no page is held there. *)
Definition pipealloc_bad (f0 f1 : option nat) : X (option (nat * nat)) :=
  do! (match f0 with Some f => fileclose f | None => ret tt end) in
  do! (match f1 with Some f => fileclose f | None => ret tt end) in
  ret None.

(** The page's bytes become the pipe's buffer, whatever they hold. *)
Definition pipealloc : X (option (nat * nat)) :=
  let! f0 := filealloc in
  match f0 with
  | None => pipealloc_bad None None
  | Some f0 =>
      let! f1 := filealloc in
      match f1 with
      | None => pipealloc_bad (Some f0) None
      | Some f1 =>
          let! p := onmem kalloc in
          if p =? 0 then pipealloc_bad (Some f0) (Some f1) else
          let! m := gets (λ s, km_mem (x_kmem s)) in
          let d := (λ i : nat, m (p + i)) <$> seq 0 PIPESIZE in
          do! modify (λ s, set_pipes (<[p := pipe_init d]> (x_pipes s)) s) in
          do! modf (fset_pipe true false p) f0 in
          do! modf (fset_pipe false true p) f1 in
          ret (Some (f0, f1))
      end
  end.

(** One stretch of pipewrite, up to its return or its sleep. *)
Definition xpipewrite (p : Z) (src : bytes) (n : Z) : X Z :=
  let! x := getpipe p in
  let '(r, x) := pipewrite killed (take (Z.to_nat n) src) x in
  do! modify (λ s, set_pipes (<[p := x]> (x_pipes s)) s) in
  match r with
  | WDone => ret n
  | WFail => ret (-1)
  | WSleep _ => λ s, Sleeping (Chan "pipe nwrite" p) s
  end.

Definition xpiperead (p : Z) (n : Z) : X (Z * bytes) :=
  let! x := getpipe p in
  let '(r, x) := piperead killed n x in
  do! modify (λ s, set_pipes (<[p := x]> (x_pipes s)) s) in
  match r with
  | RDone l => ret (Z.of_nat (length l), l)
  | RFail => ret (-1, [])
  | RSleep => λ s, Sleeping (Chan "pipe nread" p) s
  end.

(** ** Reading and writing *)

Definition filestat (f : nat) : X (option stat) :=
  let! x := getf f in
  match fi_type x with
  | FD_INODE =>
      do! onfs (ilock me (fi_ip x)) in
      let! st := onfs (stati (fi_ip x)) in
      do! onfs (iunlock me (fi_ip x)) in
      ret (Some st)
  | _ => ret None
  end.

(** [fileread]: the result and the bytes stored at [addr]. *)
Definition fileread (f : nat) (n : Z) : X (Z * bytes) :=
  let! x := getf f in
  if negb (fi_readable x) then ret (-1, []) else
  match fi_type x with
  | FD_PIPE => xpiperead (fi_pipe x) n
  | FD_INODE =>
      do! onfs (ilock me (fi_ip x)) in
      let! r := onfs (readi devsw (fi_ip x) (fi_off x) (u32 n)) in
      do! (if 0 <? r.1 then modf (λ y, fset_off (u32 (fi_off y + r.1)) y) f else ret tt) in
      do! onfs (iunlock me (fi_ip x)) in
      ret r
  | FD_NONE => panic "fileread"
  end.

(** [int max = ((MAXOPBLOCKS-1-1-2) / 2) * 512] *)
Definition max_chunk : Z := (MAXOPBLOCKS - 1 - 1 - 2) / 2 * 512.

(** The loop of filewrite on an inode; the result is [i]. *)
Fixpoint write_loop (fuel : nat) (f : nat) (src : bytes) (i n : Z) : X Z :=
  match fuel with
  | O => λ _, Fuel
  | Datatypes.S fuel =>
      if i <? n then
        let n1 := Z.min (n - i) max_chunk in
        do! xbegin_op in
        let! x := getf f in
        do! onfs (ilock me (fi_ip x)) in
        let! r := onfs (writei devsw (fi_ip x) (subarr src (Z.to_nat i) (Z.to_nat n1)) (fi_off x) n1) in
        do! (if 0 <? r then modf (λ y, fset_off (u32 (fi_off y + r)) y) f else ret tt) in
        do! onfs (iunlock me (fi_ip x)) in
        do! xend_op in
        if r <? 0 then ret i else
        if negb (r =? n1) then panic "short filewrite" else
        write_loop fuel f src (i + r) n
      else ret i
  end.

Definition write_fuel (n : Z) : nat := Datatypes.S (Z.to_nat (n / max_chunk) + 1).

Definition filewrite (f : nat) (src : bytes) (n : Z) : X Z :=
  let! x := getf f in
  if negb (fi_writable x) then ret (-1) else
  match fi_type x with
  | FD_PIPE => xpipewrite (fi_pipe x) src n
  | FD_INODE =>
      let! i := write_loop (write_fuel n) f src 0 n in
      ret (if i =? n then n else -1)
  | FD_NONE => panic "filewrite"
  end.
End code.

(** ** Reference counts *)

Section refs.
Context {S : Type} {BL : BlockLayer S} {LO : LogOps S}.
Context (me kend : Z).
Implicit Types (s : fist S) (f : nat) (R : list nat).

(** The references to open files that descriptors and kernel code hold. *)
Definition refs_of (R : list nat) (f : nat) : Z := Z.of_nat (length (filter (λ g, g = f) R)).

Lemma refs_of_cons g R f : refs_of (g :: R) f = (if decide (g = f) then 1 else 0) + refs_of R f.
Proof. unfold refs_of. rewrite filter_cons. case_decide; simpl length; lia. Qed.
Lemma refs_of_nonneg R f : 0 ≤ refs_of R f.
Proof. unfold refs_of. lia. Qed.
Lemma refs_of_pos R f : 0 < refs_of R f ↔ f ∈ R.
Proof.
  induction R as [|g R IH]; [split; [done|by intros ?%elem_of_nil]|].
  rewrite refs_of_cons, elem_of_cons, <- IH. pose proof (refs_of_nonneg R f). case_decide as E; [subst; lia|].
  split; [right; lia|intros [->|]; [done|lia]].
Qed.
Lemma refs_of_perm R R' f : R ≡ₚ R' → refs_of R f = refs_of R' f.
Proof. intros H. unfold refs_of. by rewrite H. Qed.
Lemma refs_of_le R f : refs_of R f ≤ Z.of_nat (length R).
Proof. unfold refs_of. pose proof (length_filter (λ g, g = f) R). lia. Qed.

(** The count of every slot is the number of references to it. *)
Record refs_ok s R : Prop := {
  ro_count f x : x_ftable s !! f = Some x → fi_ref x = refs_of R f;
  ro_dom f : f ∈ R → is_Some (x_ftable s !! f);
  ro_small : Z.of_nat (length R) < 2 ^ 31 - 1 }.

Inductive fstep : fist S * list nat → fist S * list nat → Prop :=
| f_alloc s R f s' : Z.of_nat (length R) + 1 < 2 ^ 31 - 1 →
    filealloc s = Ok (Some f) s' → fstep (s, R) (s', f :: R)
| f_dup s R f s' : Z.of_nat (length R) + 1 < 2 ^ 31 - 1 → f ∈ R →
    filedup f s = Ok f s' → fstep (s, R) (s', f :: R)
| f_close s R R' f s' : R ≡ₚ f :: R' → fileclose me kend f s = Ok tt s' → fstep (s, R) (s', R')
(** Any other change of the kernel's state leaves the counts alone. *)
| f_other s R s' : fi_ref <$> x_ftable s' = fi_ref <$> x_ftable s → fstep (s, R) (s', R).

Lemma modf_run g f s x :
  x_ftable s !! f = Some x → modf g f s = Ok tt (set_ftable (<[f := g x]> (x_ftable s)) s).
Proof. intros Hx. unfold modf. by rewrite Hx. Qed.

Lemma getf_inv f s x s' : getf f s = Ok x s' → s' = s.
Proof. unfold getf. case_match; naive_solver. Qed.
Lemma getpipe_inv p s x s' : getpipe p s = Ok x s' → s' = s.
Proof. unfold getpipe. case_match; naive_solver. Qed.
Lemma onfs_ftable {A} (m : M (fsst S) A) s a s' : onfs m s = Ok a s' → x_ftable s' = x_ftable s.
Proof. unfold onfs, zoom. intros H. case_match; by simplify_eq/=. Qed.
Lemma onmem_ftable {A} (m : M kmem A) s a s' : onmem m s = Ok a s' → x_ftable s' = x_ftable s.
Proof. unfold onmem, zoom. intros H. by case_match; simplify_eq. Qed.

Lemma xpipeclose_ftable p w s s' : xpipeclose kend p w s = Ok tt s' → x_ftable s' = x_ftable s.
Proof.
  unfold xpipeclose. intros (x & s1 & R1 & H)%bind_Ok_inv.
  apply getpipe_inv in R1 as ->.
  destruct (pipeclose w x) as [[] y]; rewrite bind_modify in H.
  - apply bind_Ok_inv in H as ([] & s2 & R2 & H). injection H as <-. by apply onmem_ftable in R2.
  - by injection H as <-.
Qed.

(** Whatever else it does, fileclose drops one reference. *)
Lemma fileclose_ftable f s x s' :
  x_ftable s !! f = Some x → fileclose me kend f s = Ok tt s' →
  ∃ y, x_ftable s' = <[f := y]> (x_ftable s) ∧ 1 ≤ fi_ref x ∧
    fi_ref y = if 0 <? s32 (fi_ref x - 1) then s32 (fi_ref x - 1) else 0.
Proof.
  intros Hx H. unfold fileclose in H. pose proof (lookup_lt_Some _ _ _ Hx) as Hlt.
  assert (getf f s = Ok x s) as Rg by (unfold getf; by rewrite Hx). rewrite (bind_Ok _ _ _ _ _ Rg) in H.
  destruct (Z.ltb_spec (fi_ref x) 1) as [|Hr]; [done|]. rewrite (bind_Ok _ _ _ _ _ (modf_run _ _ _ _ Hx)) in H.
  set (s1 := set_ftable _ s) in H. destruct (0 <? s32 (fi_ref x - 1)).
  { injection H as <-. eexists. split; [done|]. done. }
  apply bind_Ok_inv in H as (ff & s2 & R2 & H).
  apply getf_inv in R2 as ->.
  assert (x_ftable s1 !! f = Some (fset_ref (s32 (fi_ref x - 1)) x)) as Hx1 by by apply list_lookup_insert_eq.
  rewrite (bind_Ok _ _ _ _ _ (modf_run _ _ _ _ Hx1)) in H. cbn [s1 set_ftable x_ftable] in H.
  set (s3 := set_ftable _ s1) in H.
  assert (x_ftable s' = x_ftable s3) as ->.
  { destruct (fi_type ff); [by injection H as <-|by apply xpipeclose_ftable in H|].
    apply bind_Ok_inv in H as ([] & s4 & R4%onfs_ftable & H). apply bind_Ok_inv in H as ([] & s5 & R5%onfs_ftable & H%onfs_ftable).
    congruence. }
  eexists. split; [unfold s3, s1; cbn; by rewrite list_insert_insert_eq|]. done.
Qed.

Lemma free_slot_Some l i0 i : free_slot l i0 = Some i → ∃ x, (i0 ≤ i)%nat ∧ l !! (i - i0)%nat = Some x ∧ fi_ref x = 0.
Proof.
  revert i0; induction l as [|x l IH]; intros i0; simpl; [done|]. destruct (Z.eqb_spec (fi_ref x) 0).
  - intros [= <-]. exists x. by rewrite Nat.sub_diag.
  - intros (y & Hle & Hy & Hr)%IH. exists y. split; [lia|]. split; [|done].
    by replace (i - i0)%nat with (Datatypes.S (i - Datatypes.S i0)) by lia.
Qed.
Lemma free_slot_None l i0 x : free_slot l i0 = None → x ∈ l → fi_ref x ≠ 0.
Proof.
  revert i0; induction l as [|y l IH]; intros i0; simpl; [by intros _ ?%elem_of_nil|].
  destruct (Z.eqb_spec (fi_ref y) 0); [done|]. intros H [->|Hx]%elem_of_cons; [done|by eapply IH].
Qed.

Lemma filealloc_run s :
  (∃ f x, filealloc s = Ok (Some f) (set_ftable (<[f := fset_ref 1 x]> (x_ftable s)) s) ∧
     x_ftable s !! f = Some x ∧ fi_ref x = 0) ∨
  (filealloc s = Ok None s ∧ ∀ f x, x_ftable s !! f = Some x → fi_ref x ≠ 0).
Proof.
  unfold filealloc. destruct (free_slot (x_ftable s) 0) as [f|] eqn:Hf.
  - left. apply free_slot_Some in Hf as (x & _ & Hx & Hr). rewrite Nat.sub_0_r in Hx. exists f, x.
    rewrite (bind_Ok _ _ _ _ _ (modf_run _ _ _ _ Hx)). done.
  - right. split; [done|]. intros f x Hx. eapply free_slot_None; [done|]. by eapply list_elem_of_lookup_2.
Qed.

(** Changing the count of one slot along with the references to it. *)
Lemma refs_ok_insert s R R' f y s' :
  refs_ok s R → x_ftable s' = <[f := y]> (x_ftable s) → is_Some (x_ftable s !! f) →
  fi_ref y = refs_of R' f → (∀ g, g ≠ f → refs_of R' g = refs_of R g) → Z.of_nat (length R') < 2 ^ 31 - 1 →
  refs_ok s' R'.
Proof.
  intros [H1 H2 H3] Et [x Hx] Hy Hg Hlen. pose proof (lookup_lt_Some _ _ _ Hx) as Hlt. split; [| |done].
  - intros g z. rewrite Et. destruct (decide (g = f)) as [->|Hne].
    + rewrite list_lookup_insert_eq by done. by intros [= <-].
    + rewrite list_lookup_insert_ne by done. rewrite Hg by done. apply H1.
  - intros g Hgin. rewrite Et. destruct (decide (g = f)) as [->|Hne]; [by rewrite list_lookup_insert_eq|].
    rewrite list_lookup_insert_ne by done. apply H2, refs_of_pos. rewrite <- Hg by done. by apply refs_of_pos.
Qed.

Lemma refs_ok_step c c' : fstep c c' → refs_ok c.1 c.2 → refs_ok c'.1 c'.2.
Proof.
  intros Hs Hok. pose proof Hok as [H1 H2 H3].
  destruct Hs as [s R f s' Hlen Ra|s R f s' Hlen Hin Rd|s R R' f s' HP Rc|s R s' Ht]; cbn [fst snd] in *.
  - destruct (filealloc_run s) as [(g & x & Rg & Hx & Hr)|[Rg _]]; rewrite Ra in Rg; [|done]. simplify_eq.
    eapply (refs_ok_insert s R _ g); [done|done|by eexists| | |simpl length; lia].
    + cbn. rewrite refs_of_cons, <- (H1 g x Hx), Hr. by rewrite decide_True.
    + intros h Hne. rewrite refs_of_cons, decide_False by done. lia.
  - destruct (H2 f Hin) as [x Hx]. unfold filedup in Rd.
    assert (getf f s = Ok x s) as Rg by (unfold getf; by rewrite Hx). rewrite (bind_Ok _ _ _ _ _ Rg) in Rd.
    destruct (fi_ref x <? 1); [done|]. rewrite (bind_Ok _ _ _ _ _ (modf_run _ _ _ _ Hx)) in Rd. injection Rd as <-.
    eapply (refs_ok_insert s R _ f); [done|done|by eexists| | |simpl length; lia].
    + cbn. rewrite refs_of_cons, decide_True, <- (H1 f x Hx) by done. rewrite s32_small; [lia|].
      rewrite (H1 f x Hx). pose proof (refs_of_le R f). pose proof (refs_of_nonneg R f). unfold is_s32. lia.
    + intros h Hne. rewrite refs_of_cons, decide_False by done. lia.
  - destruct (H2 f) as [x Hx]; [rewrite HP; apply list_elem_of_here|].
    destruct (fileclose_ftable f s x s' Hx Rc) as (y & Et & Hr & Hy).
    assert (refs_of R f = 1 + refs_of R' f) as HR by (rewrite (refs_of_perm _ _ f HP), refs_of_cons, decide_True by done; done).
    assert (fi_ref x = refs_of R f) as Ex by by apply H1. pose proof (refs_of_nonneg R' f). pose proof (refs_of_le R f).
    rewrite s32_small in Hy by (unfold is_s32; lia).
    eapply (refs_ok_insert s R R' f); [done|done|by eexists| | |rewrite HP in H3; simpl length in H3; lia].
    + rewrite Hy. destruct (Z.ltb_spec 0 (fi_ref x - 1)); lia.
    + intros g Hne. rewrite (refs_of_perm _ _ g HP), refs_of_cons, decide_False by done. lia.
  - split; [| |done].
    + intros f x Hx. assert ((fi_ref <$> x_ftable s') !! f = Some (fi_ref x)) as E by by rewrite list_lookup_fmap, Hx.
      rewrite Ht, list_lookup_fmap in E. destruct (x_ftable s !! f) as [z|] eqn:Hz; [|done]. injection E as <-. by apply H1.
    + intros f Hf. apply H2 in Hf. rewrite <- (fmap_is_Some fi_ref), <- list_lookup_fmap in Hf |- *. by rewrite Ht.
Qed.

Lemma refs_ok_reachable c c' : rtc fstep c c' → refs_ok c.1 c.2 → refs_ok c'.1 c'.2.
Proof. induction 1 as [|c1 c2 c3 Hs _ IH]; [done|]. intros Hok. by eapply IH, refs_ok_step. Qed.
End refs.

(** C21: reference counts of open files are exact.  Start from a table whose
    counts are 0, and let the kernel allocate, duplicate and close references it
    holds, and do anything else that leaves the counts alone, in any order
    (fewer than 2^31 references).  Then filealloc only ever returns a slot that
    nobody refers to, and fails only when every slot is referred to; filedup and
    fileclose of a held reference pass their checks; and the count of every slot
    is the number of references held to it. *)
Theorem file_refcount {S} {BL : BlockLayer S} {LO : LogOps S} (me kend : Z) (s0 : fist S) (c : fist S * list nat) :
  (∀ f x, x_ftable s0 !! f = Some x → fi_ref x = 0) → rtc (fstep me kend) (s0, []) c →
  (∀ f x, x_ftable c.1 !! f = Some x → fi_ref x = refs_of c.2 f) ∧
  (∀ f, f ∈ c.2 → ∃ x, x_ftable c.1 !! f = Some x ∧ 1 ≤ fi_ref x ∧ ∃ s', filedup f c.1 = Ok f s') ∧
  (∃ r s', filealloc c.1 = Ok r s' ∧
     match r with Some f => f ∉ c.2 | None => ∀ f, is_Some (x_ftable c.1 !! f) → f ∈ c.2 end).
Proof.
  intros H0 Hr. assert (refs_ok c.1 c.2) as [H1 H2 H3].
  { assert (refs_ok s0 []) as Hok.
    { split; [intros f x Hx; by rewrite (H0 f x Hx)|by intros f ?%elem_of_nil|done]. }
    exact (refs_ok_reachable me kend (s0, []) c Hr Hok). }
  split; [done|]. split.
  - intros f Hf. destruct (H2 f Hf) as [x Hx]. pose proof (proj2 (refs_of_pos c.2 f) Hf) as Hpos.
    rewrite <- (H1 f x Hx) in Hpos. exists x. split; [done|]. split; [lia|]. unfold filedup.
    assert (getf f c.1 = Ok x c.1) as Rg by (unfold getf; by rewrite Hx). rewrite (bind_Ok _ _ _ _ _ Rg).
    destruct (Z.ltb_spec (fi_ref x) 1); [lia|]. rewrite (bind_Ok _ _ _ _ _ (modf_run _ _ _ _ Hx)). by eexists.
  - destruct (filealloc_run c.1) as [(f & x & R & Hx & Hz)|[R Hall]]; eexists _, _; (split; [exact R|]); cbn.
    + rewrite <- refs_of_pos, <- (H1 f x Hx). lia.
    + intros f [x Hx]. apply refs_of_pos. rewrite <- (H1 f x Hx). specialize (Hall f x Hx).
      rewrite (H1 f x Hx) in *. pose proof (refs_of_nonneg c.2 f). lia.
Qed.

(** Two slots, the first one referred to twice. *)
Definition empty_file : file := mkFile FD_NONE 0 false false 0 0 0.
Definition demo_files : fist tx :=
  mkFist (mkFsst (mkTx ∅ ∅ ∅ ∅) (mkSb 0 0 0 0 0 0 0) []) [empty_file; empty_file] ∅ (mkKmem (λ _, 0) 0 0 0).
Definition ram_ops : LogOps tx := {| lo_begin_op := ret tt; lo_end_op _ := ret tt |}.
Definition after_ {A} (m : M (fist tx) A) (s : fist tx) : fist tx := match m s with Ok _ s' => s' | _ => s end.
Definition demo_files2 : fist tx := after_ (filedup 0) (after_ filealloc demo_files).

Lemma file_refcount_witness :
  (∀ f x, x_ftable demo_files2 !! f = Some x → fi_ref x = refs_of [O; O] f) ∧
  (∀ f, f ∈ [O; O] → ∃ x, x_ftable demo_files2 !! f = Some x ∧ 1 ≤ fi_ref x ∧ ∃ s', filedup f demo_files2 = Ok f s') ∧
  (∃ r s', filealloc demo_files2 = Ok r s' ∧
     match r with Some f => f ∉ [O; O] | None => ∀ f, is_Some (x_ftable demo_files2 !! f) → f ∈ [O; O] end).
Proof.
  apply (@file_refcount tx (ram_layer 3 3) ram_ops 1 0x80100000 demo_files (demo_files2, [O; O])).
  - intros [|[|f]] x Hx; [injection Hx as <-; reflexivity..|discriminate].
  - eapply rtc_l; [apply (f_alloc _ _ demo_files [] 0 (after_ filealloc demo_files)); [simpl; lia|reflexivity]|].
    eapply rtc_l; [apply (f_dup _ _ _ [O] 0 demo_files2); [simpl; lia|apply list_elem_of_here|reflexivity]|].
    apply rtc_refl.
Defined.

(** A chunk of filewrite fits in the log.  Whatever the file offset, a
    chunk of at most [max] bytes touches at most four data blocks; together with
    one free-map block for each of them, the inode and the indirect block it
    needs no more than the MAXOPBLOCKS that begin_op reserves. *)
Lemma chunk_fits_log (off n : Z) :
  0 ≤ off → 0 < n ≤ max_chunk →
  let touched := (off + n - 1) / BSIZE - off / BSIZE + 1 in
  touched ≤ 4 ∧ touched + touched + 1 + 1 ≤ MAXOPBLOCKS.
Proof. unfold max_chunk, MAXOPBLOCKS, BSIZE. intros Hoff Hn. change (Z.of_nat 512) with 512. cbn zeta. Z.div_mod_to_equations. lia. Qed.

Lemma chunk_fits_log_witness :
  let touched := (300 + 1536 - 1) / BSIZE - 300 / BSIZE + 1 in
  touched ≤ 4 ∧ touched + touched + 1 + 1 ≤ MAXOPBLOCKS.
Proof. apply (chunk_fits_log 300 1536); [lia|split; [lia|vm_compute; discriminate]]. Defined.
