(* ===== verification/Kernel.v ===== *)
(** * The kernel put together, and system-call arguments (syscall.c)

    [kernel_env] implements the interface that proc.c uses (Proc.v) with the
    page allocator, the page tables, the open files and the file system; the
    state of the whole kernel is then the process table over those components.
    The second part is syscall.c's fetching of arguments from user memory, which
    the kernel reads through the page table of the calling process. *)
From S2P Require Import Prelude Str Spinlock Sleeplock Memide Log BlockLayer Fs Pipe Kalloc Vm Proc File.

(** ** Freeing memory never sleeps *)

Lemma kfree_awake kend v : awake (kfree kend v).
Proof. intros s ch s'. unfold kfree. by case_match. Qed.
Lemma walkpgdir_awake pgdir va : awake (walkpgdir pgdir va false).
Proof. unfold walkpgdir. apply awake_bind; [apply awake_gets|]. intros e. by case_match. Qed.
Lemma dealloc_loop_awake kend fuel pgdir a oldsz : awake (dealloc_loop kend fuel pgdir a oldsz).
Proof.
  revert a; induction fuel as [|fuel IH]; intros a; simpl; [done|]. case_match; [|apply awake_ret].
  apply awake_bind; [apply walkpgdir_awake|]. intros pte. case_match; [apply IH|].
  apply awake_bind; [apply awake_gets|]. intros e. apply awake_bind; [|intros; apply IH].
  case_match; [|apply awake_ret]. case_match; [apply awake_panic|].
  apply awake_bind; [apply kfree_awake|intros; apply awake_modify].
Qed.
Lemma freevm_awake kend pgdir : awake (freevm kend pgdir).
Proof.
  unfold freevm. case_match; [apply awake_panic|]. apply awake_bind.
  { unfold deallocuvm. case_match; [apply awake_ret|]. apply awake_bind; [apply dealloc_loop_awake|intros; apply awake_ret]. }
  intros _. apply awake_bind; [|intros; apply kfree_awake]. apply awake_for_each. intros i.
  apply awake_bind; [apply awake_gets|]. intros e. case_match; [apply kfree_awake|apply awake_ret].
Qed.

(** ** The environment of proc.c *)

(** What the linker and the machine fix: the symbols [end] and [data], the
    address and size of initcode, and the device table. *)
Record platform (S : Type) := mkPlatform {
  pl_end : Z; pl_data : Z; pl_init : Z; pl_init_sz : Z; pl_labels : labels; pl_devsw : Z → devfuns S }.
Arguments pl_end {S}.
Arguments pl_data {S}.
Arguments pl_init {S}.
Arguments pl_init_sz {S}.
Arguments pl_labels {S}.
Arguments pl_devsw {S}.

Section env.
Context {S : Type} {BL : BlockLayer S} {LO : LogOps S}.
Context (pl : platform S) (me : Z).

Lemma onmem_awake {A} (m : M kmem A) : awake m → awake (onmem (S:=S) m).
Proof. intros Hm s ch s'. unfold onmem, zoom. destruct (m (x_kmem s)) eqn:Hs; try done. by apply Hm in Hs. Qed.

(** [me]: the pid of the process that makes the calls. *)
Definition kernel_env : ProcEnv (fist S) := {|
  pe_kalloc := onmem kalloc;
  pe_kfree v := onmem (kfree (pl_end pl) v);
  pe_setupkvm := onmem (setupkvm (pl_end pl) (pl_data pl));
  pe_inituvm d := onmem (inituvm d (pl_init pl) (pl_init_sz pl));
  pe_allocuvm d o n := onmem (allocuvm (pl_end pl) d o n);
  pe_deallocuvm d o n := onmem (deallocuvm (pl_end pl) d o n);
  pe_copyuvm d sz := onmem (copyuvm (pl_end pl) (pl_data pl) d sz);
  pe_freevm d := onmem (freevm (pl_end pl) d);
  pe_filedup := filedup;
  pe_fileclose f := fileclose me (pl_end pl) f;
  pe_idup ip := onfs (idup ip);
  pe_begin_op := xbegin_op;
  pe_end_op := xend_op me;
  pe_iput ip := onfs (iput me ip);
  pe_namei path := onfs (namei me (pl_devsw pl) 0 path);
  pe_kfree_awake v := onmem_awake _ (kfree_awake _ v);
  pe_freevm_awake d := onmem_awake _ (freevm_awake _ d) |}.
End env.

(** The state of the kernel. *)
Definition kst (S : Type) : Type := pst (fist S).

(** ** System-call arguments *)

Section args.
Context {S : Type}.
(** The index of the calling process. *)
Context (me : nat).

Abbreviation K A := (M (kst S) A).

Definition kenv {A} (m : M (fist S) A) : K A := env m.
Definition kmemory : K mem := gets (λ s, km_mem (x_kmem (ps_env s))).

(** A load of a byte by the kernel through the current page table; a page that
    is not present traps in the kernel. *)
Definition uload8 (a : Z) : K Z :=
  let! p := getp me in
  let! m := kmemory in
  match translate m (p_pgdir p) a with
  | Some e => ret (m (P2V (PTE_ADDR e) + a `mod` PGSIZE))
  | None => panic "trap"
  end.

Definition uload32 (a : Z) : K Z :=
  let! b0 := uload8 a in
  let! b1 := uload8 (a + 1) in
  let! b2 := uload8 (a + 2) in
  let! b3 := uload8 (a + 3) in
  ret (le_val [b0; b1; b2; b3]).

(** A store of a byte. *)
Definition ustore8 (a v : Z) : K unit :=
  let! p := getp me in
  let! m := kmemory in
  match translate m (p_pgdir p) a with
  | Some e => kenv (onmem (on_mem (λ m, st8 m (P2V (PTE_ADDR e) + a `mod` PGSIZE) v)))
  | None => panic "trap"
  end.

(** Bytes stored at consecutive user addresses. *)
Fixpoint ustore (a : Z) (l : bytes) : K unit :=
  match l with
  | [] => ret tt
  | b :: l => do! ustore8 a b in ustore (a + 1) l
  end.

(** [n] bytes from user address [a]. *)
Fixpoint uload (a : Z) (n : nat) : K bytes :=
  match n with
  | O => ret []
  | Datatypes.S n => let! b := uload8 a in let! l := uload (a + 1) n in ret (b :: l)
  end.

(** [fetchint]: [None] for -1, else the [int] stored at [ip]. *)
Definition fetchint (addr : Z) : K (option Z) :=
  let! p := getp me in
  if (p_sz p <=? addr) || (p_sz p <? u32 (addr + 4)) then ret None else
  let! v := uload32 addr in
  ret (Some (s32 v)).

(** The scan of [fetchstr] from [s]; [n] bytes are left before [ep]. *)
Fixpoint fetchstr_loop (s : Z) (n : nat) (acc : bytes) : K (option bytes) :=
  match n with
  | O => ret None
  | Datatypes.S n =>
      let! c := uload8 s in
      if c =? 0 then ret (Some acc) else fetchstr_loop (s + 1) n (acc ++ [c])
  end.

(** [fetchstr]: the string; its length is the result of the C function. *)
Definition fetchstr (addr : Z) : K (option bytes) :=
  let! p := getp me in
  if p_sz p <=? addr then ret None else
  fetchstr_loop addr (Z.to_nat (p_sz p - addr)) [].

Definition argint (n : Z) : K (option Z) :=
  let! p := getp me in
  fetchint (u32 (tf_esp (p_tf p) + 4 + 4 * n)).

(** [argptr]: the address, which the C code stores at [pp]. *)
Definition argptr (n size : Z) : K (option Z) :=
  let! p := getp me in
  let! i := argint n in
  match i with
  | None => ret None
  | Some i =>
      if (size <? 0) || (p_sz p <=? u32 i) || (p_sz p <? u32 (u32 i + size)) then ret None
      else ret (Some (u32 i))
  end.

(** [argstr]: the address, as [pp] receives it, and the string. *)
Definition argstr (n : Z) : K (option bytes) :=
  let! addr := argint n in
  match addr with
  | None => ret None
  | Some addr => fetchstr (u32 addr)
  end.
End args.

(** ** Arguments stay inside the process *)

Section bounds.
Context {S : Type} (me : nat).
Implicit Types (s : kst S).

(** The byte of user memory at [a]. *)
Definition ubyte s (a : Z) : option Z :=
  match ptable s !! me with
  | Some p =>
      let m := km_mem (x_kmem (ps_env s)) in
      (λ e, m (P2V (PTE_ADDR e) + a `mod` PGSIZE)) <$> translate m (p_pgdir p) a
  | None => None
  end.

Lemma uload8_inv a s b s' : uload8 me a s = Ok b s' → s' = s ∧ ubyte s a = Some b.
Proof.
  unfold uload8. intros (p & s1 & R1 & H)%bind_Ok_inv. apply getp_inv in R1 as [-> Hp].
  unfold kmemory in H. rewrite bind_gets in H. unfold ubyte. rewrite Hp. cbn zeta.
  destruct (translate _ _ a); [|done]. by injection H as <- <-.
Qed.

Lemma uload8_run a s b : ubyte s a = Some b → uload8 me a s = Ok b s.
Proof.
  unfold ubyte, uload8. destruct (ptable s !! me) as [p|] eqn:Hp; [|done]. intros (e & Ht & ->)%fmap_Some.
  assert (getp me s = Ok p s) as Rg by (unfold getp; by rewrite Hp). rewrite (bind_Ok _ _ _ _ _ Rg).
  unfold kmemory. rewrite bind_gets. by rewrite Ht.
Qed.

Lemma fetchstr_loop_inv a n acc s l s' :
  fetchstr_loop me a n acc s = Ok (Some l) s' →
  s' = s ∧ ∃ t, l = acc ++ t ∧ (length t < n)%nat ∧ (∀ (i : nat) c, t !! i = Some c → c ≠ 0 ∧ ubyte s (a + i) = Some c) ∧
    ubyte s (a + length t) = Some 0.
Proof.
  revert a acc; induction n as [|n IH]; intros a acc; simpl; [done|].
  intros (c & s1 & R1 & H)%bind_Ok_inv. apply uload8_inv in R1 as [-> Hc]. destruct (Z.eqb_spec c 0) as [->|Hne].
  - injection H as <- <-. split; [done|]. exists []. rewrite app_nil_r, Z.add_0_r. split_and!; [done|simpl; lia|done|done].
  - apply IH in H as (-> & t & -> & Hlt & Ht & Hz). split; [done|]. exists (c :: t). rewrite <- app_assoc. simpl.
    split_and!; [done|lia| |by replace (a + Datatypes.S (length t)) with (a + 1 + length t) by lia].
    intros [|i] d; simpl; [intros [= <-]; by rewrite Z.add_0_r|].
    intros Hd. replace (a + Datatypes.S i) with (a + 1 + i) by lia. by apply Ht.
Qed.
End bounds.

(** C20: system-call arguments are fetched from inside the process.  For a
    process no larger than KERNBASE: when fetchint succeeds it has read four
    bytes below the process size; when argptr accepts a block of [size] bytes
    the whole block lies below the process size, also for sizes where the
    32-bit sum could wrap around; and when fetchstr succeeds it returns the bytes
    up to the first NUL, all below the process size. *)
Theorem syscall_args_in_bounds {S} (me : nat) (s : kst S) (p : proc) :
  ptable s !! me = Some p → 0 ≤ p_sz p ≤ KERNBASE →
  (∀ addr v s', is_u32 addr → fetchint me addr s = Ok (Some v) s' → s' = s ∧ addr + 4 ≤ p_sz p) ∧
  (∀ n size a s', is_s32 size → argptr me n size s = Ok (Some a) s' → s' = s ∧ 0 ≤ a ∧ 0 ≤ size ∧ a + size ≤ p_sz p) ∧
  (∀ addr l s', is_u32 addr → fetchstr me addr s = Ok (Some l) s' →
     s' = s ∧ addr + length l < p_sz p ∧ ubyte me s (addr + length l) = Some 0 ∧
     ∀ (i : nat) c, l !! i = Some c → c ≠ 0 ∧ ubyte me s (addr + i) = Some c).
Proof.
  intros Hp Hsz. unfold KERNBASE in Hsz.
  assert (∀ (x : proc) s1, getp me s = Ok x s1 → x = p ∧ s1 = s) as Hg.
  { intros x s1 [-> H]%getp_inv. rewrite Hp in H. by injection H as <-. }
  assert (∀ addr v s', is_u32 addr → fetchint me addr s = Ok (Some v) s' → s' = s ∧ addr + 4 ≤ p_sz p) as Hint.
  { intros addr v s' Ha. unfold fetchint. intros (x & s1 & R1 & H)%bind_Ok_inv. apply Hg in R1 as [-> ->].
    destruct (Z.leb_spec (p_sz p) addr) as [|Hlt]; [done|]. unfold is_u32 in Ha.
    rewrite u32_small in H by (unfold is_u32; lia). destruct (Z.ltb_spec (p_sz p) (addr + 4)); [done|]. cbn [orb] in H.
    unfold uload32 in H. apply bind_Ok_inv in H as (w & s2 & R2 & H). injection H as _ <-. split; [|lia].
    apply bind_Ok_inv in R2 as (b0 & t0 & Q0 & R2). apply uload8_inv in Q0 as [-> _].
    apply bind_Ok_inv in R2 as (b1 & t1 & Q1 & R2). apply uload8_inv in Q1 as [-> _].
    apply bind_Ok_inv in R2 as (b2 & t2 & Q2 & R2). apply uload8_inv in Q2 as [-> _].
    apply bind_Ok_inv in R2 as (b3 & t3 & Q3 & R2). apply uload8_inv in Q3 as [-> _]. by injection R2 as _ <-. }
  split; [exact Hint|]. split.
  - intros n size a s' Hs. unfold argptr. intros (x & s1 & R1 & H)%bind_Ok_inv. apply Hg in R1 as [-> ->].
    apply bind_Ok_inv in H as ([i|] & s2 & R2 & H); [|done]. unfold argint in R2.
    apply bind_Ok_inv in R2 as (x & s3 & R3 & R2). apply Hg in R3 as [-> ->]. apply Hint in R2 as [-> _]; [|apply u32_range].
    pose proof (u32_range i) as Hi. unfold is_u32, is_s32 in *.
    destruct (Z.ltb_spec size 0) as [|Hs0]; [done|]. destruct (Z.leb_spec (p_sz p) (u32 i)); [done|].
    rewrite (u32_small (u32 i + size)) in H by (unfold is_u32; lia).
    destruct (Z.ltb_spec (p_sz p) (u32 i + size)); [done|]. injection H as <- <-. split; [done|lia].
  - intros addr l s' Ha. unfold fetchstr. intros (x & s1 & R1 & H)%bind_Ok_inv. apply Hg in R1 as [-> ->].
    destruct (Z.leb_spec (p_sz p) addr) as [|Hlt]; [done|].
    apply fetchstr_loop_inv in H as (-> & t & -> & Hlen & Ht & Hz). split; [done|]. cbn [app]. split; [lia|]. done.
Qed.

(** A process with one page of memory: page directory at 0x80102000, page table
    at 0x80103000, the page at 0x80104000 holding the string "hi" at address 8. *)
Definition one_page : mem :=
  st8 (st8 (st32 (st32 (λ _, 0) 0x80102000 0x103007) 0x80103000 0x104007) 0x80104008 104) 0x80104009 105.
Definition one_proc : proc :=
  mkProc 4096 0x80102000 0x80105000 RUNNING 1 None zero_tf (mkCtx 0 0 0 0 0) 0 None 0 (replicate NOFILE None) (Some O)
    (replicate 16 0).
Definition one_state : kst tx :=
  mkPst (mkFist (mkFsst (mkTx ∅ ∅ ∅ ∅) (mkSb 0 0 0 0 0 0 0) []) [] ∅ (mkKmem one_page 0 0 0)) [one_proc] 2 (Some O).

Example fetch_hi : fetchstr 0 8 one_state = Ok (Some [104; 105]) one_state.
Proof. vm_compute. reflexivity. Qed.

Lemma syscall_args_in_bounds_witness :
  (∀ addr v s', is_u32 addr → fetchint 0 addr one_state = Ok (Some v) s' → s' = one_state ∧ addr + 4 ≤ 4096) ∧
  (∀ n size a s', is_s32 size → argptr 0 n size one_state = Ok (Some a) s' →
     s' = one_state ∧ 0 ≤ a ∧ 0 ≤ size ∧ a + size ≤ 4096) ∧
  (∀ addr l s', is_u32 addr → fetchstr 0 addr one_state = Ok (Some l) s' →
     s' = one_state ∧ addr + length l < 4096 ∧ ubyte 0 one_state (addr + length l) = Some 0 ∧
     ∀ (i : nat) c, l !! i = Some c → c ≠ 0 ∧ ubyte 0 one_state (addr + i) = Some c).
Proof. apply (syscall_args_in_bounds 0 one_state one_proc); [reflexivity|vm_compute; split; discriminate]. Defined.
