(* ===== verification/Exec.v ===== *)
(** * Program loading: exec.c and loaduvm of vm.c

    exec builds the new address space from the file, then commits to it.  The
    arguments are given as their strings; the ELF structures are read from the
    bytes of the file at their offsets. *)
From S2P Require Import Prelude Str Spinlock Sleeplock Memide Log BlockLayer Fs Pipe Kalloc Vm Proc File Kernel.

Definition MAXARG : nat := 32.
Definition ELF_MAGIC : Z := 0x464C457F.
Definition ELF_PROG_LOAD : Z := 1.

(** A field of type [uint], at its offset. *)
Definition field (d : bytes) (off : nat) : Z := u32 (rd32 d off).
Lemma field_range d off : is_u32 (field d off).
Proof. unfold field, u32, is_u32. by apply Z.mod_pos_bound. Qed.

(** [struct elfhdr]: the fields exec uses, at their offsets in 52 bytes. *)
Record elfhdr := mkElf { e_magic : Z; e_entry : Z; e_phoff : Z; e_phnum : Z }.
Definition decode_elf (d : bytes) : elfhdr := mkElf (field d 0) (field d 24) (field d 28) (u16 (rd16 d 44)).

(** [struct proghdr]: 32 bytes. *)
Record proghdr := mkPh {
  ph_type : Z; ph_off : Z; ph_vaddr : Z; ph_paddr : Z; ph_filesz : Z; ph_memsz : Z; ph_flags : Z; ph_align : Z }.
Definition decode_ph (d : bytes) : proghdr :=
  mkPh (field d 0) (field d 4) (field d 8) (field d 12) (field d 16) (field d 20) (field d 24) (field d 28).

(** The path after its last slash. *)
Fixpoint last_elem (path last : bytes) : bytes :=
  match path with
  | [] => last
  | c :: path => last_elem path (if c =? 47 then path else last)
  end.

Section code.
Context {S : Type} {BL : BlockLayer S} {LO : LogOps S}.
Context (pl : platform S).
(** The calling process, its slot and its pid. *)
Context (me : nat) (pid : Z).

Abbreviation K A := (M (kst S) A).

Definition fs {A} (m : M (fsst S) A) : K A := kenv (onfs m).
Definition vm {A} (m : M kmem A) : K A := kenv (onmem m).

(** One page of [loaduvm]: [n] bytes of the file at [off] into the page at
    [addr].  [false] is the return of -1. *)
Definition load_page (pgdir addr : Z) (ip : nat) (off n : Z) : K bool :=
  let! pte := vm (walkpgdir pgdir addr false) in
  if pte =? 0 then panic "loaduvm: address should exist" else
  let! e := vm (load32 pte) in
  let! r := fs (readi (pl_devsw pl) ip off n) in
  do! vm (on_mem (λ m, mem_put m (P2V (PTE_ADDR e)) r.2)) in
  ret (r.1 =? n).

Fixpoint load_loop (fuel : nat) (pgdir addr : Z) (ip : nat) (offset sz i : Z) : K Z :=
  match fuel with
  | O => λ _, Fuel
  | Datatypes.S fuel =>
      if i <? sz then
        let n := if u32 (sz - i) <? PGSIZE then sz - i else PGSIZE in
        let! ok := load_page pgdir (u32 (addr + i)) ip (u32 (offset + i)) n in
        if ok then load_loop fuel pgdir addr ip offset sz (u32 (i + PGSIZE)) else ret (-1)
      else ret 0
  end.

Definition loaduvm (pgdir addr : Z) (ip : nat) (offset sz : Z) : K Z :=
  if truthy (addr `mod` PGSIZE) then panic "loaduvm: addr must be page aligned" else
  load_loop (Datatypes.S (Z.to_nat (sz / PGSIZE + 1))) pgdir addr ip offset sz 0.

(** The loop over the program headers: [n] are left, the next one at [off].  The
    result is the new size, [None] the jump to [bad]. *)
Fixpoint load_segments (n : nat) (pgdir : Z) (ip : nat) (off sz : Z) : K (option Z) :=
  match n with
  | O => ret (Some sz)
  | Datatypes.S n =>
      let! r := fs (readi (pl_devsw pl) ip (u32 off) 32) in
      if negb (r.1 =? 32) then ret None else
      let ph := decode_ph r.2 in
      if negb (ph_type ph =? ELF_PROG_LOAD) then load_segments n pgdir ip (s32 (off + 32)) sz else
      if ph_memsz ph <? ph_filesz ph then ret None else
      if u32 (ph_vaddr ph + ph_memsz ph) <? ph_vaddr ph then ret None else
      let! sz := vm (allocuvm (pl_end pl) pgdir sz (u32 (ph_vaddr ph + ph_memsz ph))) in
      if sz =? 0 then ret None else
      if truthy (ph_vaddr ph `mod` PGSIZE) then ret None else
      let! r := loaduvm pgdir (ph_vaddr ph) ip (ph_off ph) (ph_filesz ph) in
      if r <? 0 then ret None else
      load_segments n pgdir ip (s32 (off + 32)) sz
  end.

(** The loop that pushes the argument strings; [acc] are their addresses so far. *)
Fixpoint push_args (argv : list bytes) (argc : nat) (pgdir sp : Z) (acc : list Z) : K (option (Z * list Z)) :=
  match argv with
  | [] => ret (Some (sp, acc))
  | a :: argv =>
      if (MAXARG <=? argc)%nat then ret None else
      let sp := Z.land (u32 (sp - (length a + 1))) (Z.lnot 3) in
      let! r := vm (copyout pgdir sp (a ++ [0])) in
      if r <? 0 then ret None else
      push_args argv (Datatypes.S argc) pgdir sp (acc ++ [sp])
  end.

(** The words of [ustack]. *)
Definition ustack (sp : Z) (args : list Z) : list Z :=
  let argc := Z.of_nat (length args) in
  [0xffffffff; argc; u32 (sp - (argc + 1) * 4)] ++ args ++ [0].

(** The stack: two pages above the program, the lower one inaccessible, with the
    arguments in the upper one.  The result is the size and the stack pointer. *)
Definition build_stack (pgdir sz : Z) (argv : list bytes) : K (option (Z * Z)) :=
  let sz := PGROUNDUP sz in
  let! sz := vm (allocuvm (pl_end pl) pgdir sz (u32 (sz + 2 * PGSIZE))) in
  if sz =? 0 then ret None else
  do! vm (clearpteu pgdir (u32 (sz - 2 * PGSIZE))) in
  let! r := push_args argv 0 pgdir sz [] in
  match r with
  | None => ret None
  | Some (sp, args) =>
      let sp' := u32 (sp - (3 + length args + 1) * 4) in
      let! r := vm (copyout pgdir sp' (concat (le_bytes 4 <$> ustack sp args))) in
      if r <? 0 then ret None else ret (Some (sz, sp'))
  end.

(** [bad:]; a null [pgdir] is 0. *)
Definition exec_bad (pgdir : Z) (ip : option nat) : K unit :=
  do! (if truthy pgdir then vm (freevm (pl_end pl) pgdir) else ret tt) in
  match ip with
  | Some ip =>
      do! fs (iunlockput pid ip) in
      kenv (xend_op pid)
  | None => ret tt
  end.

(** Everything up to the point where exec commits: page directory, size, entry
    point and stack pointer of the new image, or [None] after the clean-up. *)
Definition exec_image (path : bytes) (argv : list bytes) : K (option (Z * Z * Z * Z)) :=
  let! p := getp me in
  do! kenv xbegin_op in
  let! r := fs (namei pid (pl_devsw pl) (default NINODE (p_cwd p)) path) in
  match r with
  | None =>
      do! kenv (xend_op pid) in
      ret None
  | Some ip =>
      do! fs (ilock pid ip) in
      let! h := fs (readi (pl_devsw pl) ip 0 52) in
      if negb (h.1 =? 52) || negb (e_magic (decode_elf h.2) =? ELF_MAGIC) then
        do! exec_bad 0 (Some ip) in ret None
      else
      let elf := decode_elf h.2 in
      let! pgdir := vm (setupkvm (pl_end pl) (pl_data pl)) in
      if pgdir =? 0 then do! exec_bad 0 (Some ip) in ret None else
      let! sz := load_segments (Z.to_nat (e_phnum elf)) pgdir ip (s32 (e_phoff elf)) 0 in
      match sz with
      | None => do! exec_bad pgdir (Some ip) in ret None
      | Some sz =>
          do! fs (iunlockput pid ip) in
          do! kenv (xend_op pid) in
          let! r := build_stack pgdir sz argv in
          match r with
          | None => do! exec_bad pgdir None in ret None
          | Some (sz, sp) => ret (Some (pgdir, sz, e_entry elf, sp))
          end
      end
  end.

(** Commit to the user image. *)
Definition exec_commit (path : bytes) (pgdir sz entry sp : Z) : K Z :=
  do! modp (λ p, set_name (list_inserts 0 (safestrcpy (cstr (last_elem path path)) 16) (p_name p)) p) me in
  let! p := getp me in
  do! modp (set_pgdir pgdir) me in
  do! modp (set_sz sz) me in
  do! modp (λ p, let t := p_tf p in
      set_tf (mkTf (tf_edi t) (tf_esi t) (tf_ebp t) (tf_oesp t) (tf_ebx t) (tf_edx t) (tf_ecx t) (tf_eax t)
        (tf_gs t) (tf_fs t) (tf_es t) (tf_ds t) (tf_trapno t)
        (tf_err t) entry (tf_cs t) (tf_eflags t) sp (tf_ss t)) p) me in
  do! switchuvm me in
  do! vm (freevm (pl_end pl) (p_pgdir p)) in
  ret 0.

Definition exec (path : bytes) (argv : list bytes) : K Z :=
  let! r := exec_image path argv in
  match r with
  | None => ret (-1)
  | Some (pgdir, sz, entry, sp) => exec_commit path pgdir sz entry sp
  end.
End code.

(** ** exec is all or nothing for the process *)

Section quiet.
Context {S : Type} {BL : BlockLayer S} {LO : LogOps S}.
Context (pl : platform S) (me : nat) (pid : Z).

(** Code that does not touch the process table. *)
Definition quiet {A} (m : M (kst S) A) : Prop :=
  ∀ s a s', m s = Ok a s' → ptable s' = ptable s ∧ nextpid s' = nextpid s ∧ initproc s' = initproc s.

Lemma quiet_ret {A} (a : A) : quiet (ret a).
Proof. by intros s x s' [= _ <-]. Qed.
Lemma quiet_panic {A} msg : quiet (panic (A:=A) msg).
Proof. done. Qed.
Lemma quiet_bind {A B} (m : M (kst S) A) (k : A → M (kst S) B) : quiet m → (∀ a, quiet (k a)) → quiet (bind m k).
Proof.
  intros Hm Hk s b s' (a & s1 & R1 & R2)%bind_Ok_inv. apply Hm in R1 as (? & ? & ?). apply Hk in R2 as (? & ? & ?).
  split_and!; congruence.
Qed.
Lemma quiet_kenv {A} (m : M (fist S) A) : quiet (kenv m).
Proof. intros s a s' H. unfold kenv, env, zoom in H. case_match; naive_solver. Qed.
Lemma quiet_getp i : quiet (getp i).
Proof. by intros s a s' [-> _]%getp_inv. Qed.
Lemma quiet_if {A} (b : bool) (m1 m2 : M (kst S) A) : quiet m1 → quiet m2 → quiet (if b then m1 else m2).
Proof. by destruct b. Qed.

Ltac quiet :=
  repeat first
    [ apply quiet_ret | apply quiet_panic | apply quiet_kenv | apply quiet_getp
    | apply quiet_bind; [|intros ?] | apply quiet_if | case_match ].

Lemma quiet_load_loop fuel pgdir addr ip offset sz i : quiet (load_loop pl fuel pgdir addr ip offset sz i).
Proof. revert i; induction fuel as [|fuel IH]; intros i; simpl; [done|]. unfold load_page, fs, vm. quiet; apply IH. Qed.
Lemma quiet_load_segments n pgdir ip off sz : quiet (load_segments pl n pgdir ip off sz).
Proof.
  revert off sz; induction n as [|n IH]; intros off sz; simpl; unfold fs, vm, loaduvm; quiet; (apply IH || apply quiet_load_loop).
Qed.
Lemma quiet_push_args argv argc pgdir sp acc : quiet (push_args argv argc pgdir sp acc).
Proof. revert argc sp acc; induction argv as [|a argv IH]; intros argc sp acc; simpl; unfold vm; quiet; apply IH. Qed.
Lemma quiet_exec_bad pgdir ip : quiet (exec_bad pl pid pgdir ip).
Proof. unfold exec_bad, fs, vm. quiet. Qed.

Lemma quiet_exec_image path argv : quiet (exec_image pl me pid path argv).
Proof.
  unfold exec_image, build_stack, fs, vm. repeat first
    [ apply quiet_load_segments | apply quiet_push_args | apply quiet_exec_bad
    | apply quiet_ret | apply quiet_panic | apply quiet_kenv | apply quiet_getp
    | apply quiet_bind; [|intros ?] | case_match ].
Qed.

(** The commit does not fail. *)
Lemma exec_commit_ret path pgdir sz entry sp s r s' :
  exec_commit pl me path pgdir sz entry sp s = Ok r s' → r = 0.
Proof. unfold exec_commit. intros H. do 7 apply bind_Ok_inv in H as (? & ? & _ & H). by injection H as <- _. Qed.
End quiet.

(** A process whose working directory is empty runs "sh". *)
Definition empty_dir : inode := mkInode 1 1 1 initsleeplock 1 T_DIR 0 0 1 0 (replicate 13 0).
Definition exec_state : kst tx :=
  mkPst (mkFist (mkFsst (mkTx ∅ ∅ ∅ ∅) (mkSb 0 0 0 0 0 0 0) [empty_dir]) [] ∅ (mkKmem one_page 0 0 0)) [one_proc] 2 (Some O).
Definition demo_platform : platform tx :=
  {| pl_end := 0x80115a00; pl_data := 0x80108000; pl_init := 0; pl_init_sz := 0; pl_labels := mkLabels 0 0;
     pl_devsw := λ _, {| dv_read := None; dv_write := None |} |}.
