(* ===== verification/ExecMem.v ===== *)
(** * exec and the memory

    Exec.v follows exec.c; here is what it does to the physical memory.  The new
    address space is built in pages that were free ([built]); until exec commits,
    no other byte of memory changes.  If it gives up, these pages are free again;
    if it commits, the pages of the old address space are. *)
From S2P Require Import Prelude Str Spinlock Sleeplock Memide Log BlockLayer Fs Pipe Kalloc Vm VmSpace VmUser VmSystem Proc File Kernel Exec.

(** ** The address space under construction *)

Section build.
Context (kend kdata : Z).
Hypothesis Hkend : KERNBASE < kend.
Hypothesis Hdata : kdata `mod` PGSIZE = 0 ∧ KERNLINK < kdata < KERNBASE + PHYSTOP.
(** The memory when exec started, and its free pages. *)
Context (s0 : kmem) (l0 : list Z).
Implicit Types (s : kmem) (l : list Z).

(** Only bytes of the free pages have changed, and these pages are free again. *)
Definition unbuilt s : Prop := ∃ l, free_pages kend s l ∧ evolves l0 s0 l s.

Record built_at (d sz : Z) s l (tabs us : gmap Z Z) : Prop := {
  bu_space : space kend s l d tabs us (klook (kmap kdata));
  bu_evolves : evolves l0 s0 (l ++ pages d tabs us) s;
  bu_size : 0 ≤ sz < KERNBASE;
  bu_exact va : upage va → va < sz ↔ is_Some (us !! va) }.
Definition built (d sz : Z) s : Prop := ∃ l tabs us, built_at d sz s l tabs us.

Lemma built_setup d s : free_pages kend s0 l0 → setupkvm kend kdata s0 = Ok d s → (d = 0 ∧ unbuilt s) ∨ (d ≠ 0 ∧ built d 0 s).
Proof.
  intros Hf R. destruct (setupkvm_spec kend Hkend kdata Hdata s0 l0 Hf) as (d' & s' & l' & R' & H). rewrite R in R'. injection R' as <- <-.
  destruct H as [(-> & F & V & _)|(Hd & tabs & S' & V & _)]; [left; split; [done|by exists l']|right]. split; [done|]. exists l', tabs, ∅. split; [done| |unfold KERNBASE; lia|].
  - unfold pages, frames. by rewrite map_to_list_empty, app_nil_r.
  - intros va [_ Hva]. rewrite lookup_empty. split; [lia|by intros [? ?]].
Qed.

Lemma built_free d sz s s' : built d sz s → freevm kend d s = Ok tt s' → unbuilt s'.
Proof.
  intros (l & tabs & us & [Hs V _ _]) R. destruct (freevm_spec kend Hkend s l _ _ _ _ Hs) as (s2 & l' & R' & F & V'). rewrite R in R'. injection R' as <-.
  exists l'. split; [done|]. by eapply evolves_trans.
Qed.

(** [allocuvm] never shrinks: the result is the larger size, or 0. *)
Lemma built_grow d sz newsz s r s' : built d sz s → 0 ≤ newsz → allocuvm kend d sz newsz s = Ok r s' →
  built d (if r =? 0 then sz else r) s' ∧ (r ≠ 0 → newsz ≤ r ∧ sz ≤ r).
Proof.
  intros Hb Hn R. destruct (decide (KERNBASE ≤ newsz)) as [Hbig|Hsmall].
  { unfold allocuvm in R. rewrite (proj2 (Z.leb_le _ _)) in R by done. injection R as <- <-. done. }
  pose proof Hb as (l & tabs & us & [Hs V Hz He]). destruct (decide (newsz < sz)) as [Hlt|Hge].
  { unfold allocuvm in R. rewrite (proj2 (Z.leb_gt _ _)), (proj2 (Z.ltb_lt _ _)) in R by lia. injection R as <- <-. split; [by case_match|lia]. }
  destruct (PGROUNDUP_spec sz) as [_ HR]; [lia|unfold PGSIZE, KERNBASE in *; lia|].
  destruct (allocuvm_spec kend Hkend s l _ _ _ _ sz newsz Hs ltac:(lia) ltac:(lia)) as (r' & s2 & l' & tabs' & us' & R' & S' & _ & V' & H).
  { intros va Hva. destruct (us !! va) as [e|] eqn:Ee; [|done]. destruct (sp_udom _ _ _ _ _ _ _ Hs _ _ Ee) as (Hup & _). assert (va < sz) by (apply He; [done|by eexists]). lia. }
  rewrite R in R'. injection R' as <- <-. assert (evolves l0 s0 (l' ++ pages d tabs' us') s') as V2 by (by eapply evolves_trans).
  destruct H as [(-> & G1 & G2 & _)|(-> & -> & _)]; [|split; [by exists l', tabs', us|done]].
  split; [|lia]. assert ((if newsz =? 0 then sz else newsz) = newsz) as -> by (destruct (Z.eqb_spec newsz 0); lia).
  exists l', tabs', us'. split; [done|done|lia|]. intros va Hva. destruct (decide (PGROUNDUP sz ≤ va < newsz)) as [Hin|Hout].
  - destruct (G2 va Hva Hin) as (e & -> & _). split; [by eexists|lia].
  - rewrite G1, <- He by done. pose proof (below_round kdata va sz Hva Hz). lia.
Qed.

(** A page of the user, and stores into it. *)
Lemma built_page d sz s va : built d sz s → upage va → va < sz →
  ∃ pte, walkpgdir d va false s = Ok pte s ∧ pte ≠ 0 ∧
  ∀ m, (∀ x, x < frame (ld32 (km_mem s) pte) ∨ frame (ld32 (km_mem s) pte) + PGSIZE ≤ x → m x = km_mem s x) → built d sz (set_mem m s).
Proof.
  intros (l & tabs & us & [Hs V Hz He]) Hup Hlt. destruct (proj1 (He va Hup) Hlt) as [e Ee]. pose proof (walk_look _ _ _ _ _ _ _ va Hs) as W.
  destruct (tabs !! PDX va) as [t|] eqn:Et; [|by destruct (no_table _ _ _ _ _ _ _ _ _ Hs Ee)].
  destruct (look_user kend Hkend _ _ _ _ _ _ va t Hs Hup Et) as [Hl Hnz]. rewrite Ee in Hl. cbn zeta in Hl. destruct (present (ld32 _ _)); [|done]. injection Hl as Hl.
  exists (t + 4 * PTX va). split; [done|]. split; [done|]. rewrite <- Hl. intros m Hm. exists l, tabs, us. destruct (write_frame kend Hkend s l d tabs us _ va e m Hs Ee Hm) as [S' _]. split; [done| |done|done].
  split; [apply V|]. intros x Hx. cbn [km_mem set_mem]. rewrite Hm; [by apply V|]. apply (outside_perm _ (l ++ pages d tabs us)) in Hx; [|symmetry; apply V].
  apply Hx. apply elem_of_app. right. by eapply frame_in.
Qed.

(** [copyout] of bytes that lie below the size, and of bytes in the address range
    of the devices. *)
Lemma built_out d sz s va (buf : bytes) r s' : built d sz s → 0 ≤ va → va + length buf ≤ sz → copyout d va buf s = Ok r s' →
  built d sz s' ∧ (r < 0 ∨ copied_out d va buf (length buf) s s').
Proof.
  intros (l & tabs & us & [Hs V Hz He]) Hva Hlen R. destruct (copyout_spec kend Hkend s l _ _ _ _ va buf Hs Hva ltac:(lia)) as (r' & s2 & k & R' & S' & Hk & U & M & Hr).
  { intros p Hp Hp'. apply He; [done|lia]. }
  rewrite R in R'. injection R' as <- <-. split.
  - exists l, tabs, us. split; [done| |done|done]. split; [apply V|]. intros x Hx. rewrite M; [by apply V|]. apply (outside_perm _ (l ++ pages d tabs us)) in Hx; [|symmetry; apply V].
    intros v Hv. apply Hx. apply elem_of_app. by right.
  - destruct Hr as [[_ ->]|[-> _]]; [by right|by left].
Qed.

Lemma kernel_page d sz s va : built d sz s → DEVSPACE ≤ va < 2 ^ 32 → va `mod` PGSIZE = 0 → uva2ka d va s = Ok 0 s.
Proof.
  intros (l & tabs & us & [Hs _ _ _]) Hva Hm. unfold uva2ka. rewrite (bind_Ok _ _ _ _ _ (walk_look _ _ _ _ _ _ _ va Hs)). unfold load32. rewrite bind_gets.
  pose proof (sp_kern _ _ _ _ _ _ _ Hs va ltac:(unfold DEVSPACE, KERNBASE in *; lia)) as T. unfold translate in T.
  rewrite (sp_tabs _ _ _ _ _ _ _ Hs) in T by apply PDX_range.
  assert (klook (kmap kdata) va = Some (Z.lor (Z.lor va PTE_W) PTE_P)) as Ek.
  { destruct Hdata as [_ H2]. assert (V2P kdata = kdata - KERNBASE) as Ed by (apply u32_small; unfold is_u32, KERNLINK, KERNBASE, EXTMEM, PHYSTOP in *; lia).
    assert (∀ a b p q, 0 ≤ b - a < 2 ^ 32 → ksize (mkKmap p a b q) = b - a) as Es by (intros; by apply u32_small).
    assert (ksize (mkKmap DEVSPACE DEVSPACE 0 PTE_W) = 2 ^ 32 - DEVSPACE) as Es4 by reflexivity.
    unfold kmap. change (V2P KERNLINK) with EXTMEM. rewrite Ed. cbn [klook virt phys_start phys_end k_perm]. unfold KERNLINK in *. rewrite Es4, !Es by (unfold KERNBASE, EXTMEM, PHYSTOP in *; lia).
    unfold KERNBASE, EXTMEM, PHYSTOP, DEVSPACE in *. repeat case_decide; try lia. do 3 f_equal. rewrite PGROUNDDOWN_spec, Hm. lia. }
  rewrite Ek in T. destruct (tabs !! PDX va) as [t|]; [|done]. set (e := ld32 _ _) in *. destruct (truthy (Z.land e PTE_P)); [|done]. injection T as ->.
  assert (Z.land (Z.lor (Z.lor va PTE_W) PTE_P) PTE_U = 0) as ->; [|by destruct (_ =? 0)].
  rewrite !Z.land_lor_distr_l. change (Z.land PTE_W PTE_U) with 0. change (Z.land PTE_P PTE_U) with 0. rewrite !Z.lor_0_r.
  change (Z.land va (Z.land 0xFFF PTE_U) = 0). rewrite Z.land_assoc. fold (PTE_FLAGS va). by rewrite PTE_FLAGS_spec, Hm.
Qed.

Lemma built_high d sz s va (buf : bytes) : built d sz s → DEVSPACE ≤ va < 2 ^ 32 → buf ≠ [] → copyout d va buf s = Ok (-1) s.
Proof.
  intros Hb Hva Hne. unfold copyout. destruct (Z.to_nat _ + 3)%nat as [|fuel] eqn:Ef; [lia|]. cbn [copyout_loop]. destruct buf as [|b buf]; [done|]. cbn zeta.
  rewrite (proj2 (Z.ltb_lt 0 _)) by (cbn; lia). erewrite bind_Ok; [|apply (kernel_page d sz); [done| |]]; [done| |].
  - rewrite PGROUNDDOWN_spec. unfold DEVSPACE, PGSIZE in *. Z.to_euclidean_division_equations. lia.
  - rewrite PGROUNDDOWN_spec. unfold PGSIZE. Z.to_euclidean_division_equations. lia.
Qed.

Lemma built_guard d sz s va s' : built d sz s → upage va → va < sz → clearpteu d va s = Ok tt s' → built d sz s'.
Proof.
  intros (l & tabs & us & [Hs V Hz He]) Hup Hlt R. destruct (proj1 (He va Hup) Hlt) as [e Ee]. destruct (clearpteu_spec kend Hkend s l _ _ _ _ va e Hs Ee) as (s2 & R' & S' & V' & _).
  rewrite R in R'. injection R' as <-. destruct (sp_udom _ _ _ _ _ _ _ Hs _ _ Ee) as (_ & Hu & Hp). destruct (guard_spec e Hu Hp) as (_ & _ & G & _).
  exists l, tabs, (<[va := guard e]> us). split; [done| |done|].
  - eapply evolves_trans; [exact V|]. apply (evolves_perm _ _ _ _ _ _ (evolves_frame (frames us) _ _ _ _ V')); unfold pages; [solve_Permutation|]. rewrite (frames_upd us va e) by done. solve_Permutation.
  - intros p Hp'. rewrite (He p Hp'). destruct (decide (va = p)) as [<-|Hne]; [rewrite lookup_insert_eq, Ee; split; by eexists|]. by rewrite lookup_insert_ne.
Qed.
End build.

(** ** What a program finds in its memory *)

(** The bytes [buf] at the user address [va]. *)
Definition reads (m : mem) (d va : Z) (buf : bytes) : Prop :=
  0 ≤ va ∧ va + length buf ≤ KERNBASE ∧ ∀ (k : nat) b, buf !! k = Some b → uread m d (va + k) = Some b.

Lemma copied_reads d va buf s s' : 0 ≤ va → va + length buf ≤ KERNBASE → copied_out d va buf (length buf) s s' → reads (km_mem s') d va buf.
Proof.
  intros Hva Hle H. split; [done|]. split; [done|]. intros k b Hb. pose proof (lookup_lt_Some _ _ _ Hb). rewrite H, decide_True by lia. f_equal. replace (Z.to_nat (va + k - va)) with k by lia. by apply nth_lookup_Some.
Qed.
Lemma copied_keeps d va (buf : bytes) s s' a t : copied_out d va buf (length buf) s s' → va + length buf ≤ a →
  reads (km_mem s) d a t → reads (km_mem s') d a t.
Proof. intros H Ha (H0 & Hl & Hr). split; [done|]. split; [done|]. intros k b Hb. pose proof (lookup_lt_Some _ _ _ Hb). rewrite H, decide_False by lia. by apply Hr. Qed.

Lemma reads_same m m' d va buf : (∀ va, 0 ≤ va < KERNBASE → uread m' d va = uread m d va) → reads m d va buf → reads m' d va buf.
Proof. intros H (H0 & Hl & Hr). split; [done|]. split; [done|]. intros k b Hb. pose proof (lookup_lt_Some _ _ _ Hb). rewrite H by lia. by apply Hr. Qed.

(** The stack of a new program at [sp]: a return address, the number of arguments,
    the address of their array, and the array with its null pointer; the
    arguments are null-terminated strings. *)
Definition stack_at (m : mem) (d sp : Z) (argv : list bytes) : Prop :=
  ∃ args : list Z, reads m d sp (concat (le_bytes 4 <$> [0xffffffff; Z.of_nat (length argv); sp + 12] ++ args ++ [0])) ∧
  Forall2 (λ a x, reads m d a (x ++ [0])) args argv.

(** ** exec up to the commit *)

(** A device stores at most the bytes it is asked for. *)
Definition devices_bounded {S} (devsw : Z → devfuns S) : Prop := ∀ major read ip n f r f',
  dv_read (devsw major) = Some read → read ip n f = Ok r f' → Z.of_nat (length r.2) ≤ Z.max 0 n.

Definition kmem_of {S} (s : kst S) : kmem := x_kmem (ps_env s).

Lemma vm_inv {S A} (m : M kmem A) (s : kst S) a s' : vm m s = Ok a s' → m (kmem_of s) = Ok a (kmem_of s').
Proof. unfold vm, kenv, env, onmem, zoom, kmem_of. destruct (m _); naive_solver. Qed.
Lemma fs_inv {S A} (m : M (fsst S) A) (s : kst S) a s' : fs m s = Ok a s' → kmem_of s' = kmem_of s ∧ m (x_fs (ps_env s)) = Ok a (x_fs (ps_env s')).
Proof. unfold fs, kenv, env, onfs, zoom, kmem_of. destruct (m _); naive_solver. Qed.

Section image.
Context {S : Type} {BL : BlockLayer S} {LO : LogOps S}.
Context (pl : platform S) (me : nat) (pid : Z).
Hypothesis Hkend : KERNBASE < pl_end pl.
Hypothesis Hdata : pl_data pl `mod` PGSIZE = 0 ∧ KERNLINK < pl_data pl < KERNBASE + PHYSTOP.
Hypothesis Hdev : devices_bounded (pl_devsw pl).
Context (s0 : kmem) (l0 : list Z).
Hypothesis Hfree : free_pages (pl_end pl) s0 l0.
Implicit Types s : kst S.

Abbreviation holding d sz s := (built (pl_end pl) (pl_data pl) s0 l0 d sz (kmem_of s)).
Abbreviation nothing s := (unbuilt (pl_end pl) s0 l0 (kmem_of s)).

Lemma readi_loop_length ip n : ∀ fuel tot off acc (f : fsst S) r f', 0 ≤ off → Z.of_nat (length acc) ≤ tot ≤ n →
  readi_loop ip fuel tot off n acc f = Ok r f' → Z.of_nat (length r) ≤ n.
Proof.
  induction fuel as [|fuel IH]; intros tot off acc f r f' Ho Ha; cbn [readi_loop]; [done|]. destruct (Z.ltb_spec tot n).
  - intros (x & f1 & _ & H1)%bind_Ok_inv. apply bind_Ok_inv in H1 as (addr & f2 & _ & H1). apply bind_Ok_inv in H1 as (bp & f3 & _ & H1).
    apply bind_Ok_inv in H1 as (dd & f4 & _ & H1). apply bind_Ok_inv in H1 as (? & f5 & _ & H1). pose proof (Z.mod_pos_bound off BSIZE ltac:(done)).
    eapply IH; [| |exact H1]; [lia|]. rewrite length_app. unfold subarr. rewrite length_take. lia.
  - intros [= <- _]. lia.
Qed.
Lemma readi_length ip off n (f : fsst S) r f' : 0 ≤ off → 0 ≤ n < 2 ^ 31 → readi (pl_devsw pl) ip off n f = Ok r f' → Z.of_nat (length r.2) ≤ n.
Proof.
  intros Ho Hn. unfold readi. intros (x & f1 & _ & H)%bind_Ok_inv. destruct (i_type x =? T_DEV).
  - destruct (_ || _); [injection H as <- _; cbn; lia|]. destruct (dv_read _) as [read|] eqn:Er; [|injection H as <- _; cbn; lia].
    apply (Hdev _ _ _ _ _ _ _ Er) in H. rewrite s32_small in H by (unfold is_s32; lia). lia.
  - destruct (Z.ltb_spec (i_size x) off), (Z.ltb_spec (u32 (off + n)) off); cbn [orb] in H; try (injection H as <- _; cbn; lia).
    apply bind_Ok_inv in H as (dst & f2 & H & H'). injection H' as <- _. cbn [snd]. set (n' := if _ <? _ then _ else _) in *.
    assert (0 ≤ n' ≤ n) as Hn'.
    { unfold n'. destruct (Z.ltb_spec (i_size x) (u32 (off + n))); [|lia]. split; [lia|]. assert (u32 (off + n) ≤ off + n) by (apply Z.mod_le; lia). lia. }
    apply (readi_loop_length ip n') in H; [lia|done|cbn; lia].
Qed.

Lemma load_page_holding d sz addr ip off n s b s' : holding d sz s → upage addr → addr < sz → 0 ≤ off → 0 ≤ n ≤ PGSIZE →
  load_page pl d addr ip off n s = Ok b s' → holding d sz s'.
Proof.
  intros Hh Hup Hlt Ho Hn. unfold load_page. destruct (built_page _ _ Hkend _ _ _ _ _ addr Hh Hup Hlt) as (pte & W & Hnz & Hput).
  intros (pte' & s1 & R1%vm_inv & H)%bind_Ok_inv. rewrite W in R1. injection R1 as <- E1. rewrite (proj2 (Z.eqb_neq _ _) Hnz) in H.
  apply bind_Ok_inv in H as (e & s2 & R2%vm_inv & H). rewrite <- E1 in R2. injection R2 as <- E2.
  apply bind_Ok_inv in H as (r & s3 & [E3 R3]%fs_inv & H). apply readi_length in R3; [|done|unfold PGSIZE in *; lia].
  apply bind_Ok_inv in H as ([] & s4 & R4%vm_inv & H). injection H as _ <-. unfold on_mem, modify in R4. injection R4 as <-. rewrite E3, <- E2. apply Hput.
  intros x Hx. rewrite mem_put_spec, decide_False; [done|]. unfold frame in Hx. lia.
Qed.

Lemma load_loop_holding d sz addr ip off fsz : addr `mod` PGSIZE = 0 → 0 ≤ addr → addr + fsz ≤ sz →
  ∀ fuel i s r s', holding d sz s → i `mod` PGSIZE = 0 → 0 ≤ i → load_loop pl fuel d addr ip off fsz i s = Ok r s' → holding d sz s'.
Proof.
  intros Ha Ha0 Hle. induction fuel as [|fuel IH]; intros i s r s' Hh Hi Hi0; cbn [load_loop]; [done|].
  destruct (Z.ltb_spec i fsz) as [Hlt|]; [|by intros [= _ <-]].
  destruct Hh as (l & tabs & us & Hb). pose proof (bu_size _ _ _ _ _ _ _ _ _ _ Hb) as Hz. assert (holding d sz s) as Hh by (by exists l, tabs, us). clear Hb.
  intros (ok & s1 & R1 & H)%bind_Ok_inv. rewrite (u32_small (addr + i)) in R1 by (unfold is_u32, KERNBASE in *; lia).
  assert (upage (addr + i)) as Hup by (split; [rewrite Zplus_mod, Ha, Hi; done|lia]).
  apply (load_page_holding d sz) in R1; [|done|done|lia|unfold u32; by apply Z.mod_pos_bound|].
  2:{ rewrite u32_small by (unfold is_u32, KERNBASE in *; lia). destruct (Z.ltb_spec (fsz - i) PGSIZE); unfold PGSIZE in *; lia. }
  destruct ok; [|by injection H as _ <-]. rewrite (u32_small (i + PGSIZE)) in H by (unfold is_u32, KERNBASE, PGSIZE in *; lia).
  eapply (IH (i + PGSIZE)); [exact R1| |unfold PGSIZE; lia|exact H]. by rewrite <- Zplus_mod_idemp_r, Z_mod_same_full, Z.add_0_r.
Qed.

Lemma load_segments_holding d ip : ∀ n off sz s r s', holding d sz s → load_segments pl n d ip off sz s = Ok r s' →
  match r with Some sz' => holding d sz' s' | None => ∃ sz', holding d sz' s' end.
Proof.
  induction n as [|n IH]; intros off sz s r s' Hh; cbn [load_segments]; [by intros [= <- <-]|].
  intros (h & s1 & [E1 R1]%fs_inv & H)%bind_Ok_inv. rewrite <- E1 in Hh.
  destruct (negb (h.1 =? 32)); [injection H as <- <-; by eauto|]. set (ph := decode_ph h.2) in *. pose proof (field_range h.2 8) as Hva. pose proof (field_range h.2 16) as Hfs.
  change (field h.2 8) with (ph_vaddr ph) in Hva. change (field h.2 16) with (ph_filesz ph) in Hfs. unfold is_u32 in *.
  destruct (negb _); [by eapply IH; [exact Hh|exact H]|]. destruct (Z.ltb_spec (ph_memsz ph) (ph_filesz ph)); [injection H as <- <-; by eauto|].
  destruct (Z.ltb_spec (u32 (ph_vaddr ph + ph_memsz ph)) (ph_vaddr ph)) as [|Hw]; [injection H as <- <-; by eauto|].
  assert (u32 (ph_vaddr ph + ph_memsz ph) = ph_vaddr ph + ph_memsz ph) as Eu.
  { pose proof (field_range h.2 20) as Hms. change (field h.2 20) with (ph_memsz ph) in Hms. unfold is_u32 in Hms. unfold u32 in *. destruct (decide (ph_vaddr ph + ph_memsz ph < 2 ^ 32)); [apply Z.mod_small; lia|].
    rewrite <- (Z.mod_unique_pos _ (2 ^ 32) 1 (ph_vaddr ph + ph_memsz ph - 2 ^ 32)) in Hw by lia. lia. }
  rewrite Eu in H. apply bind_Ok_inv in H as (sz1 & s2 & R2%vm_inv & H).
  destruct (built_grow _ _ Hkend _ _ _ _ (ph_vaddr ph + ph_memsz ph) _ _ _ Hh ltac:(lia) R2) as [H2 Hsz]. destruct (Z.eqb_spec sz1 0) as [|Hnz]; [injection H as <- <-; by eauto|].
  destruct (Hsz Hnz) as [Hsz1 _]. destruct (truthy (ph_vaddr ph `mod` PGSIZE)) eqn:Hal; [injection H as <- <-; by eauto|].
  assert (ph_vaddr ph `mod` PGSIZE = 0) as Hal' by (unfold truthy in Hal; by apply negb_false_iff, Z.eqb_eq in Hal).
  apply bind_Ok_inv in H as (r3 & s3 & R3 & H). unfold loaduvm in R3. rewrite Hal in R3. apply (load_loop_holding d sz1) in R3; [|done|lia|lia|done|done|lia].
  destruct (r3 <? 0); [injection H as <- <-; by eauto|]. by eapply IH; [exact R3|exact H].
Qed.

(** *** The stack *)

(** The strings pushed so far lie at or above [sp]. *)
Definition pushed_at s d sz sp : list Z → list bytes → Prop :=
  Forall2 (λ a x, sp ≤ a ∧ a + length x + 1 ≤ sz ∧ reads (km_mem (kmem_of s)) d a (x ++ [0])).

Lemma pushed_copied s s' d sz sp sp' (buf : bytes) acc done : sz < KERNBASE → 0 ≤ sp' → sp' + length buf ≤ sp → copied_out d sp' buf (length buf) (kmem_of s) (kmem_of s') →
  pushed_at s d sz sp acc done → pushed_at s' d sz sp' acc done.
Proof.
  intros Hz H0 Hle Hc. apply Forall2_impl. intros a x (H1 & H2 & H3). split; [lia|]. split; [done|]. eapply copied_keeps; [exact Hc|lia|done].
Qed.

(** A store below [sp], or one that wraps around to the end of memory and fails. *)
Lemma push_holding d sz sp sp' k (buf : bytes) s r s' : holding d sz s → 0 ≤ sp ≤ sz → buf ≠ [] → length buf ≤ k → 0 ≤ k ≤ 2 ^ 25 → sp' = u32 (sp - k) →
  vm (copyout d sp' buf) s = Ok r s' → holding d sz s' ∧ (r < 0 ∨ (sp' = sp - k ∧ 0 ≤ sp' ∧ copied_out d sp' buf (length buf) (kmem_of s) (kmem_of s'))).
Proof.
  intros Hh Hsp Hne Hk Hk2 -> R%vm_inv. pose proof Hh as (l & tabs & us & Hb). pose proof (bu_size _ _ _ _ _ _ _ _ _ _ Hb) as Hz. clear Hb.
  destruct (decide (k ≤ sp)) as [Hle|Hgt].
  - rewrite u32_small in * by (unfold is_u32, KERNBASE in *; lia). destruct (built_out _ _ Hkend _ _ d sz _ (sp - k) buf _ _ Hh ltac:(lia) ltac:(lia) R) as [? [?|?]]; [auto|]. split; [done|]. right. split; [done|]. split; [lia|done].
  - assert (u32 (sp - k) = sp - k + 2 ^ 32) as E by (unfold u32; symmetry; apply (Z.mod_unique_pos _ _ (-1)); unfold KERNBASE in *; lia). rewrite E in R.
    rewrite (built_high _ _ Hdata _ _ _ _ _ _ _ Hh) in R; [|unfold DEVSPACE; lia|done]. injection R as <- E'. rewrite <- E'. auto with lia.
Qed.

Lemma land_lnot3 x : Z.land x (Z.lnot 3) = x - x `mod` 4.
Proof. rewrite <- Z.ldiff_land. change 3 with (Z.ones 2). rewrite Z.ldiff_ones_r, Z.shiftr_div_pow2, Z.shiftl_mul_pow2 by lia. change (2 ^ 2) with 4. pose proof (Z.div_mod x 4). lia. Qed.

Lemma push_args_holding d sz : ∀ argv argc sp acc done s r s', Forall (λ a : bytes, length a + 4 ≤ 2 ^ 25) argv → holding d sz s → 0 ≤ sp ≤ sz →
  argc = length acc → (length acc ≤ MAXARG)%nat → pushed_at s d sz sp acc done → push_args argv argc d sp acc s = Ok r s' →
  holding d sz s' ∧ match r with None => True | Some (sp', args) => 0 ≤ sp' ≤ sz ∧ (length args ≤ MAXARG)%nat ∧ pushed_at s' d sz sp' args (done ++ argv) end.
Proof.
  induction argv as [|a argv IH]; intros argc sp acc done s r s' Hsh Hh Hsp Hc Hm Hp; cbn [push_args].
  { intros [= <- <-]. rewrite app_nil_r. done. }
  apply Forall_cons_1 in Hsh as [Ha Hsh]. destruct (Nat.leb_spec MAXARG argc) as [|Hlt]; [by intros [= <- <-]|].
  pose proof Hh as (l & tabs & us & Hb). pose proof (bu_size _ _ _ _ _ _ _ _ _ _ Hb) as Hz. clear Hb.
  set (x := sp - (length a + 1)). set (k := length a + 1 + x `mod` 4). pose proof (Z.mod_pos_bound x 4 ltac:(done)) as Hx4.
  assert (Z.land (u32 x) (Z.lnot 3) = u32 (sp - k)) as ->.
  { rewrite land_lnot3. assert (u32 x `mod` 4 = x `mod` 4) as -> by (unfold u32; change (2 ^ 32) with (4 * 2 ^ 30); rewrite Z.rem_mul_r, Z.mul_comm, Z_mod_plus_full by lia; by apply Z.mod_mod).
    unfold u32. replace (sp - k) with (x - x `mod` 4) by (unfold k, x; lia). rewrite (Z.mod_eq x (2 ^ 32)) by lia. Z.to_euclidean_division_equations. nia. }
  cbn zeta. intros (r1 & s1 & R1 & H)%bind_Ok_inv.
  destruct (push_holding d sz sp (u32 (sp - k)) k (a ++ [0]) s r1 s1 Hh Hsp) as [H1 Hr]; [by destruct a|rewrite length_app; cbn; lia|lia|done|exact R1|].
  destruct (Z.ltb_spec r1 0) as [|Hr1]; [injection H as <- <-; done|]. destruct Hr as [?|(Esp & Hsp' & Hcp)]; [lia|]. rewrite Esp in *.
  rewrite cons_middle, app_assoc. eapply (IH _ (sp - k) (acc ++ [sp - k]) (done ++ [a])); [done|exact H1|lia| | | |exact H].
  - rewrite length_app. cbn. lia.
  - rewrite length_app. cbn. lia.
  - apply Forall2_app; [eapply pushed_copied; [| | |exact Hcp|exact Hp]; [lia|done|rewrite length_app; cbn; lia]|]. constructor; [|constructor].
    split; [lia|]. split; [lia|]. eapply copied_reads; [done|rewrite length_app; cbn; lia|exact Hcp].
Qed.

Lemma length_words (ws : list Z) : length (concat (le_bytes 4 <$> ws)) = (4 * length ws)%nat.
Proof. induction ws as [|w ws IH]; [done|]. cbn [fmap list_fmap concat length]. rewrite length_app, IH, length_le_bytes. lia. Qed.

Lemma build_stack_holding d sz argv s r s' : Forall (λ a : bytes, length a + 4 ≤ 2 ^ 25) argv → holding d sz s → build_stack pl d sz argv s = Ok r s' →
  match r with None => ∃ sz', holding d sz' s' | Some (sz', sp) => holding d sz' s' ∧ stack_at (km_mem (kmem_of s')) d sp argv end.
Proof.
  intros Hsh Hh. unfold build_stack. pose proof Hh as (l & tabs & us & Hb). pose proof (bu_size _ _ _ _ _ _ _ _ _ _ Hb) as Hz.
  destruct (PGROUNDUP_spec sz) as [HR0 HR]; [lia|unfold PGSIZE, KERNBASE in *; lia|]. rewrite u32_small by (unfold is_u32, PGSIZE, KERNBASE in *; lia).
  intros (sz2 & s2 & R2%vm_inv & H)%bind_Ok_inv. cbv zeta in H. destruct (decide (PGROUNDUP sz = KERNBASE)) as [Etop|Etop].
  { unfold allocuvm in R2. rewrite (proj2 (Z.leb_le _ _)) in R2 by (unfold PGSIZE in *; lia). injection R2 as <- E2. injection H as <- <-. exists sz. by rewrite <- E2. }
  assert (holding d (PGROUNDUP sz) s) as Hh1.
  { exists l, tabs, us. destruct Hb as [H1 H2 _ H4]. split; [done|done|unfold PGSIZE, KERNBASE in *; Z.to_euclidean_division_equations; lia|]. intros va Hva. rewrite <- H4 by done. by apply (below_round 0). }
  destruct (built_grow _ _ Hkend _ _ _ _ (PGROUNDUP sz + 2 * PGSIZE) _ _ _ Hh1 ltac:(unfold PGSIZE in *; lia) R2) as [H2 Hsz]. destruct (Z.eqb_spec sz2 0) as [|Hnz]; [injection H as <- <-; by eauto|].
  destruct (Hsz Hnz) as [Hsz2 _]. clear Hb l tabs us. pose proof H2 as (l & tabs & us & Hb). pose proof (bu_size _ _ _ _ _ _ _ _ _ _ Hb) as Hz2.
  assert (sz2 = PGROUNDUP sz + 2 * PGSIZE) as Esz.
  { unfold allocuvm in R2. destruct (_ <=? _); [by injection R2 as <- _|]. destruct (_ <? _) eqn:E; [apply Z.ltb_lt in E; unfold PGSIZE in *; lia|]. apply bind_Ok_inv in R2 as (ok & ? & _ & R2). injection R2 as R2 _. by destruct ok. }
  apply bind_Ok_inv in H as ([] & s3 & R3%vm_inv & H). rewrite u32_small in R3 by (unfold is_u32, PGSIZE, KERNBASE in *; lia).
  apply (built_guard _ (pl_data pl) Hkend s0 l0 d sz2) in R3; [|done|split; [replace (sz2 - 2 * PGSIZE) with (PGROUNDUP sz) by lia; done|unfold PGSIZE, KERNBASE in *; lia]|unfold PGSIZE; lia].
  apply bind_Ok_inv in H as (o & s4 & R4 & H). destruct (push_args_holding d sz2 argv 0 sz2 [] [] s3 o s4 Hsh R3 ltac:(lia) eq_refl ltac:(cbn; lia) ltac:(constructor) R4) as [H4 Ho].
  destruct o as [[sp args]|]; [|injection H as <- <-; by eauto]. destruct Ho as (Hsp & Hlen & Hp). cbn [app] in Hp.
  apply bind_Ok_inv in H as (r5 & s5 & R5 & H). set (k := (3 + length args + 1) * 4) in *. unfold MAXARG in Hlen.
  assert (length (concat (le_bytes 4 <$> ustack sp args)) = Z.to_nat k) as Elen by (rewrite length_words; unfold ustack; cbn [length app]; rewrite length_app; cbn; lia).
  destruct (push_holding d sz2 sp (u32 (sp - k)) k (concat (le_bytes 4 <$> ustack sp args)) s4 r5 s5 H4 Hsp) as [H5 Hr]; [intros E; rewrite E in Elen; cbn in Elen; lia|lia|lia|reflexivity|exact R5|].
  destruct (Z.ltb_spec r5 0) as [|Hr5]; injection H as <- <-; [by eauto|]. split; [done|]. destruct Hr as [?|(Esp & Hsp' & Hcp)]; [lia|]. exists args.
  pose proof Hp as Eargs%Forall2_length. rewrite Esp in *. split.
  - assert (ustack sp args = [0xffffffff; Z.of_nat (length argv); sp - k + 12] ++ args ++ [0]) as <-.
    { unfold ustack. rewrite Eargs. do 3 f_equal. unfold k in *. f_equal. rewrite u32_small by (unfold is_u32, KERNBASE in *; lia). lia. }
    eapply copied_reads; [done|lia|exact Hcp].
  - assert (pushed_at s5 d sz2 (sp - k) args argv) as Hp5 by (apply (pushed_copied s4 s5 d sz2 sp (sp - k) (concat (le_bytes 4 <$> ustack sp args))); [lia|done|lia|exact Hcp|exact Hp]).
    revert Hp5. apply Forall2_impl. by intros a x (_ & _ & ?).
Qed.

(** *** Giving up, and the whole image *)

Lemma exec_bad_nothing d ip s s' : (if decide (d = 0) then nothing s else ∃ sz, holding d sz s) → exec_bad pl pid d ip s = Ok tt s' → nothing s'.
Proof.
  intros Hd. unfold exec_bad. intros ([] & s1 & R1 & H)%bind_Ok_inv.
  assert (nothing s1) as H1.
  { unfold truthy in R1. destruct (Z.eqb_spec d 0) as [->|Hnz]; cbn [negb] in R1; [injection R1 as <-; exact Hd|]. rewrite decide_False in Hd by done. destruct Hd as [sz Hh].
    apply vm_inv in R1. by eapply built_free. }
  destruct ip as [ip|]; [|by injection H as <-]. apply bind_Ok_inv in H as ([] & s2 & [E2 _]%fs_inv & H). apply fs_inv in H as [E3 _]. by rewrite E3, E2.
Qed.

(** The memory after [exec_image]: nothing was taken, or the new image is there. *)
Definition image_made argv s (r : option (Z * Z * Z * Z)) : Prop :=
  match r with None => nothing s | Some (d, sz, _, sp) => holding d sz s ∧ stack_at (km_mem (kmem_of s)) d sp argv end.

Lemma exec_image_made path argv s r s' : kmem_of s = s0 → Forall (λ a : bytes, length a + 4 ≤ 2 ^ 25) argv →
  exec_image pl me pid path argv s = Ok r s' → image_made argv s' r.
Proof.
  intros E0 Hsh. assert (∀ x : kst S, kmem_of x = s0 → nothing x) as Hno by (intros x ->; by exists l0). assert (∀ d (x : kst S) sz, d ≠ 0 → holding d sz x → if decide (d = 0) then nothing x else ∃ sz, holding d sz x) as Hsome.
  { intros d x sz Hd Hh. rewrite decide_False by done. by exists sz. }
  unfold exec_image. intros (p & s1 & [-> _]%getp_inv & H)%bind_Ok_inv. apply bind_Ok_inv in H as ([] & s2 & [E2 _]%fs_inv & H).
  apply bind_Ok_inv in H as (o & s3 & [E3 _]%fs_inv & H). destruct o as [ip|].
  2:{ apply bind_Ok_inv in H as ([] & s4 & [E4 _]%fs_inv & H). injection H as <- <-. apply Hno. congruence. }
  apply bind_Ok_inv in H as ([] & s4 & [E4 _]%fs_inv & H). apply bind_Ok_inv in H as (h & s5 & [E5 _]%fs_inv & H).
  assert (kmem_of s5 = s0) as E5' by congruence. assert (∀ x y, kmem_of x = s0 → exec_bad pl pid 0 (Some ip) x = Ok tt y → nothing y) as Hbad0.
  { intros x y Ex. apply exec_bad_nothing. rewrite decide_True by done. by apply Hno. }
  destruct (_ || _); [apply bind_Ok_inv in H as ([] & s6 & R6 & H); injection H as <- <-; by eapply Hbad0|].
  apply bind_Ok_inv in H as (d & s6 & R6%vm_inv & H). rewrite E5' in R6. destruct (built_setup _ _ Hkend Hdata _ _ _ _ Hfree R6) as [[-> Hn]|[Hd Hh]].
  { cbn [Z.eqb] in H. apply bind_Ok_inv in H as ([] & s7 & R7 & H). injection H as <- <-. eapply exec_bad_nothing; [|exact R7]. by rewrite decide_True. }
  rewrite (proj2 (Z.eqb_neq _ _) Hd) in H. apply bind_Ok_inv in H as (o & s7 & R7 & H). apply load_segments_holding in R7; [|done]. destruct o as [sz|].
  2:{ destruct R7 as [sz R7]. apply bind_Ok_inv in H as ([] & s8 & R8 & H). injection H as <- <-. eapply exec_bad_nothing; [|exact R8]. by apply (Hsome d s7 sz). }
  apply bind_Ok_inv in H as ([] & s8 & [E8 _]%fs_inv & H). apply bind_Ok_inv in H as ([] & s9 & [E9 _]%fs_inv & H). rewrite <- E8, <- E9 in R7.
  apply bind_Ok_inv in H as (o & s10 & R10 & H). apply build_stack_holding in R10; [|done|done]. destruct o as [[sz' sp]|]; [by injection H as <- <-|].
  destruct R10 as [sz' R10]. apply bind_Ok_inv in H as ([] & s11 & R11 & H). injection H as <- <-. eapply exec_bad_nothing; [|exact R11]. by apply (Hsome d s10 sz').
Qed.
End image.

(** ** exec is all or nothing *)

(** The process with its new image. *)
Definition image_proc (path : bytes) (d sz entry sp : Z) (p : proc) : proc :=
  let p := set_name (list_inserts 0 (safestrcpy (cstr (last_elem path path)) 16) (p_name p)) p in
  let t := p_tf p in
  set_tf (mkTf (tf_edi t) (tf_esi t) (tf_ebp t) (tf_oesp t) (tf_ebx t) (tf_edx t) (tf_ecx t) (tf_eax t)
    (tf_gs t) (tf_fs t) (tf_es t) (tf_ds t) (tf_trapno t)
    (tf_err t) entry (tf_cs t) (tf_eflags t) sp (tf_ss t)) (set_sz sz (set_pgdir d p)).

Lemma modp_table {E} f i (s : pst E) s' p : ptable s !! i = Some p → modp f i s = Ok tt s' → ptable s' = <[i := f p]> (ptable s) ∧ ps_env s' = ps_env s ∧ ptable s' !! i = Some (f p).
Proof.
  intros Hp. unfold modp. rewrite Hp. intros [= <-]. split; [done|]. split; [done|]. cbn. apply list_lookup_insert_eq. by eapply lookup_lt_Some.
Qed.
Lemma switchuvm_same {E} i (s : pst E) s' : switchuvm i s = Ok tt s' → s' = s.
Proof. unfold switchuvm. intros (p & s1 & [-> _]%getp_inv & H)%bind_Ok_inv. repeat (case_match; [done|]). by injection H as <-. Qed.

Lemma exec_commit_run {S} {BL : BlockLayer S} {LO : LogOps S} (pl : platform S) me path d sz entry sp (s : kst S) r s' p : ptable s !! me = Some p →
  exec_commit pl me path d sz entry sp s = Ok r s' →
  r = 0 ∧ ptable s' = <[me := image_proc path d sz entry sp p]> (ptable s) ∧ freevm (pl_end pl) (p_pgdir p) (kmem_of s) = Ok tt (kmem_of s').
Proof.
  intros Hp. unfold exec_commit. intros ([] & s1 & R1 & H)%bind_Ok_inv. destruct (modp_table _ _ _ _ _ Hp R1) as (T1 & E1 & P1).
  apply bind_Ok_inv in H as (q & s1' & [-> Hq]%getp_inv & H). rewrite P1 in Hq. injection Hq as <-.
  apply bind_Ok_inv in H as ([] & s2 & R2 & H). destruct (modp_table _ _ _ _ _ P1 R2) as (T2 & E2 & P2).
  apply bind_Ok_inv in H as ([] & s3 & R3 & H). destruct (modp_table _ _ _ _ _ P2 R3) as (T3 & E3 & P3).
  apply bind_Ok_inv in H as ([] & s4 & R4 & H). destruct (modp_table _ _ _ _ _ P3 R4) as (T4 & E4 & P4).
  apply bind_Ok_inv in H as ([] & s5 & ->%switchuvm_same & H). apply bind_Ok_inv in H as ([] & s6 & R6 & H). injection H as <- <-. split; [done|]. split.
  - apply quiet_kenv in R6 as (-> & _). by rewrite T4, T3, T2, T1, !list_insert_insert_eq.
  - apply vm_inv in R6. unfold kmem_of at 1 in R6. rewrite E4, E3, E2, E1 in R6. exact R6.
Qed.

Section commit.
Context (kend kdata : Z).
Hypothesis Hkend : KERNBASE < kend.

(** The old address space is freed next to the new one. *)
Lemma swap_spaces s0 l old tabs us kt d sz s1 s2 : space kend s0 l old tabs us kt → built kend kdata s0 l d sz s1 → freevm kend old s1 = Ok tt s2 →
  ∃ l' tabs' us', space kend s2 l' d tabs' us' (klook (kmap kdata)) ∧ evolves (l ++ pages old tabs us) s0 (l' ++ pages d tabs' us') s2 ∧
  0 ≤ sz < KERNBASE ∧ (∀ va, upage va → va < sz ↔ is_Some (us' !! va)) ∧ ∀ va, 0 ≤ va < KERNBASE → uread (km_mem s2) d va = uread (km_mem s1) d va.
Proof.
  intros Hold (l1 & tabs' & us' & [Hs V Hz He]) R. destruct (sp_split _ _ _ _ _ _ _ Hold) as (_ & Hsep & Hnd).
  assert (∀ v, v ∈ l1 ++ pages d tabs' us' ↔ v ∈ l) as Hin by (intros v; by rewrite (proj1 V)).
  destruct (space_other kend s0 l old tabs us kt s1 l1 _ _ Hold (sp_free _ _ _ _ _ _ _ Hs) V) as [Ho _].
  { intros v Hv. apply Hin, elem_of_app. by left. }
  { intros v Hv. eapply sp_aligned; [exact Hold|]. apply elem_of_app. by left. }
  { intros v Hv Hl. by apply (Hsep v). }
  destruct (freevm_spec kend Hkend _ _ _ _ _ _ Ho) as (s2' & l2 & R' & F & V2). rewrite R in R'. injection R' as <-.
  destruct (space_other kend s1 l1 d tabs' us' _ s2 l2 _ _ Hs F V2) as [Hd Hm].
  { intros v Hv. by rewrite <- (proj1 V2). }
  { intros v Hv. eapply sp_aligned; [exact Ho|done]. }
  { intros v Hv. rewrite elem_of_app. intros [Hl|Hp].
    - destruct (sp_split _ _ _ _ _ _ _ Hs) as (_ & H & _). by apply (H v).
    - apply (Hsep v); [|done]. apply Hin, elem_of_app. by right. }
  exists l2, tabs', us'. split; [done|]. split; [|split; [done|split; [done|]]].
  - eapply (evolves_trans _ s0 ((l1 ++ pages old tabs us) ++ pages d tabs' us') s1).
    + apply (evolves_perm (pages old tabs us ++ l) s0 (pages old tabs us ++ l1 ++ pages d tabs' us') s1); [by apply evolves_frame|solve_Permutation|solve_Permutation].
    + apply (evolves_perm (pages d tabs' us' ++ l1 ++ pages old tabs us) s1 (pages d tabs' us' ++ l2) s2); [by apply evolves_frame|solve_Permutation|solve_Permutation].
  - intros va Hva. rewrite (uread_space _ _ _ _ _ _ _ _ Hd Hva), (uread_space _ _ _ _ _ _ _ _ Hs Hva). destruct (us' !! PGROUNDDOWN va) as [e|] eqn:Ee; [|done]. cbn. destruct (user e); [|done].
    f_equal. apply (Hm (frame e)); [by eapply frame_in|]. pose proof (Z.mod_pos_bound va PGSIZE ltac:(done)). lia.
Qed.
End commit.

(** C18: exec is all or nothing, for the process and for the memory.  Let the
    caller's address space be in order and no argument be 32 megabytes long.
    If exec returns -1, for whatever reason (no such file, bad header, no memory,
    a segment or an argument that does not fit), every process is exactly as it
    was, the same pages are free as before, and no byte of any other page has
    changed: not the caller's memory, not that of another process, no page
    table, kernel stack or pipe.  Otherwise it returns 0; no process but the
    caller has changed, and that only in name, size, page directory, %eip and
    %esp; the new directory is a page table whose user part is exactly the
    pages below the new size, with the kernel's mappings above; the pages of the
    old address space are free again, none is lost, and only bytes of pages that
    were free or the caller's have changed; and at %esp the new program finds
    the number of its arguments and their strings. *)
Theorem exec_all_or_nothing {S} {BL : BlockLayer S} {LO : LogOps S} (pl : platform S) (me : nat) (pid : Z)
    (path : bytes) (argv : list bytes) (s : kst S) (r : Z) (s' : kst S) (p : proc) (l : list Z) (tabs us : gmap Z Z) :
  KERNBASE < pl_end pl → pl_data pl `mod` PGSIZE = 0 ∧ KERNLINK < pl_data pl < KERNBASE + PHYSTOP → devices_bounded (pl_devsw pl) →
  Forall (λ a : bytes, length a + 4 ≤ 2 ^ 25) argv →
  ptable s !! me = Some p → space (pl_end pl) (kmem_of s) l (p_pgdir p) tabs us (klook (kmap (pl_data pl))) →
  exec pl me pid path argv s = Ok r s' →
  (r = -1 ∧ ptable s' = ptable s ∧ (∃ l', free_pages (pl_end pl) (kmem_of s') l' ∧ l' ≡ₚ l) ∧
   ∀ x, outside l x → km_mem (kmem_of s') x = km_mem (kmem_of s) x) ∨
  (r = 0 ∧ ∃ d sz entry sp l' tabs' us',
   ptable s' = <[me := image_proc path d sz entry sp p]> (ptable s) ∧
   space (pl_end pl) (kmem_of s') l' d tabs' us' (klook (kmap (pl_data pl))) ∧ 0 ≤ sz < KERNBASE ∧ (∀ va, upage va → va < sz ↔ is_Some (us' !! va)) ∧
   l' ++ pages d tabs' us' ≡ₚ l ++ pages (p_pgdir p) tabs us ∧
   (∀ x, outside (l ++ pages (p_pgdir p) tabs us) x → km_mem (kmem_of s') x = km_mem (kmem_of s) x) ∧
   stack_at (km_mem (kmem_of s')) d sp argv).
Proof.
  intros Hkend Hdata Hdev Hsh Hp Hs (o & s1 & R1 & H)%bind_Ok_inv. pose proof (quiet_exec_image _ _ _ _ _ _ _ _ R1) as (Et & _ & _).
  apply (exec_image_made pl me pid Hkend Hdata Hdev (kmem_of s) l (sp_free _ _ _ _ _ _ _ Hs)) in R1; [|done|done].
  destruct o as [[[[d sz] entry] sp]|]; [right|left].
  - destruct R1 as [Hh (args & Hst & Hargs)]. rewrite <- Et in Hp. destruct (exec_commit_run pl me path d sz entry sp s1 r s' p Hp H) as (-> & T & F). split; [done|].
    destruct (swap_spaces _ _ Hkend _ _ _ _ _ _ _ _ _ _ Hs Hh F) as (l' & tabs' & us' & S' & [V1 V2] & Hz & He & Hu).
    exists d, sz, entry, sp, l', tabs', us'. rewrite T, Et. repeat (split; [done|]). exists args. split; [by eapply reads_same|].
    revert Hargs. apply Forall2_impl. intros a x. by apply reads_same.
  - injection H as <- <-. split; [done|]. split; [done|]. destruct R1 as (l' & F & [V1 V2]). split; [by exists l'|done].
Qed.

(** A process whose working directory is empty asks for "sh", on a machine with
    sixteen megabytes of memory. *)
Definition demo_machine : platform tx :=
  {| pl_end := demo_end; pl_data := demo_data; pl_init := 0; pl_init_sz := 0; pl_labels := mkLabels 0 0;
     pl_devsw := λ _, {| dv_read := None; dv_write := None |} |}.
Definition demo_caller (d : Z) (k : kmem) : kst tx :=
  mkPst (mkFist (mkFsst (mkTx ∅ ∅ ∅ ∅) (mkSb 0 0 0 0 0 0 0) [empty_dir]) [] ∅ k) [set_pgdir d one_proc] 2 (Some O).

Lemma exec_all_or_nothing_witness : ∃ (d : Z) (k : kmem) (s' : kst tx) (l : list Z), free_pages demo_end k l ∧
  @exec tx (ram_layer 30 30) ram_ops demo_machine 0 1 [115; 104] [[115; 104]] (demo_caller d k) = Ok (-1) s' ∧
  ptable s' = [set_pgdir d one_proc] ∧ ∀ x, outside l x → km_mem (kmem_of s') x = km_mem k x.
Proof.
  destruct demo_system as (s0 & l0 & c & u & l & F0 & Hr & Hu & _ & Fl & _). destruct demo_layout as [Hk Hd].
  destruct (reach_accounted demo_end demo_data Hk Hd l0 s0 c F0 Hr) as (l1 & bs & E & Ha). rewrite E in Hu. apply list_elem_of_fmap in Hu as (a & -> & Hin).
  pose proof (ac_ok _ _ _ _ _ _ Ha) as Hok. rewrite list.Forall_forall in Hok. destruct (Hok a Hin) as [Hs _ _].
  set (d := us_dir (a_u a)) in *. set (k := vs_mem c) in *. clearbody d k.
  assert (∃ s', @exec tx (ram_layer 30 30) ram_ops demo_machine 0 1 [115; 104] [[115; 104]] (demo_caller d k) = Ok (-1) s') as [s' R] by (eexists; vm_compute; reflexivity).
  exists d, k, s', l1. split; [apply Ha|]. split; [done|].
  destruct (@exec_all_or_nothing tx (ram_layer 30 30) ram_ops demo_machine 0 1 [115; 104] [[115; 104]] (demo_caller d k) (-1) s' (set_pgdir d one_proc) l1 (a_tabs a) (a_us a))
    as [(_ & T & _ & M)|[? _]]; [exact Hk|exact Hd|done|by repeat constructor|reflexivity|exact Hs|exact R| |done].
  split; [exact T|exact M].
Defined.
