(* ===== verification/Boot.v ===== *)
(** * The boot loader: bootmain.c

    bootmain reads the kernel, an ELF file that starts at sector 1 of disk 0,
    sector by sector through the ports of the disk controller, copies its
    segments to their physical addresses and jumps to its entry point.  The
    state is the physical memory and the device; the result is the entry point,
    or [None] when the file is not an ELF file. *)
From S2P Require Import Prelude Str Kalloc Port Exec.

Definition SECTSIZE : Z := 512.

Record boot (D : Type) := mkBoot { bt_mem : mem; bt_dev : D }.
Arguments mkBoot {D}.
Arguments bt_mem {D}.
Arguments bt_dev {D}.

(** The bytes [l] stored at [a]. *)
Definition store (m : mem) (a : Z) (l : bytes) : mem := λ x,
  if (a <=? x) && (x <? a + length l) then nth (Z.to_nat (x - a)) l 0 else m x.
Definition load (m : mem) (a : Z) (n : nat) : bytes := (λ i, m (a + Z.of_nat i)) <$> seq 0 n.

Section code.
(** [polls] bounds the status readings of one wait. *)
Context {D : Type} {P : PortIO D} (polls : nat).

Fixpoint waitdisk_loop (fuel : nat) : M D unit :=
  match fuel with
  | O => λ _, Fuel
  | S fuel =>
      let! r := inb 0x1f7 in
      if negb (Z.land r 0xc0 =? 0x40) then waitdisk_loop fuel else ret tt
  end.
Definition waitdisk : M D unit := waitdisk_loop polls.

(** The sector's bytes, as the device delivers them. *)
Definition read_sector (offset : Z) : M D bytes :=
  do! waitdisk in
  do! outb 0x1f2 1 in
  do! outb 0x1f3 offset in
  do! outb 0x1f4 (Z.shiftr offset 8) in
  do! outb 0x1f5 (Z.shiftr offset 16) in
  do! outb 0x1f6 (Z.lor (Z.shiftr offset 24) 0xe0) in
  do! outb 0x1f7 0x20 in
  do! waitdisk in
  insl 0x1f0 (Z.to_nat (SECTSIZE / 4)).

Definition readsect (dst offset : Z) : M (boot D) unit :=
  let! data := zoom bt_dev (λ d s, mkBoot (bt_mem s) d) (read_sector offset) in
  modify (λ s, mkBoot (store (bt_mem s) dst data) (bt_dev s)).

(** [for(; pa < epa; pa += SECTSIZE, offset++)] *)
Fixpoint readseg_loop (pa epa offset : Z) (fuel : nat) : M (boot D) unit :=
  match fuel with
  | O => λ _, Fuel
  | S fuel =>
      if negb (pa <? epa) then ret tt else
      do! readsect pa offset in
      readseg_loop (u32 (pa + SECTSIZE)) epa (u32 (offset + 1)) fuel
  end.
Definition readseg (pa count offset : Z) : M (boot D) unit :=
  let epa := u32 (pa + count) in
  let pa := u32 (pa - offset `mod` SECTSIZE) in
  let offset := u32 (offset / SECTSIZE + 1) in
  readseg_loop pa epa offset (Z.to_nat (count / SECTSIZE) + 3).

Definition elf : Z := 0x10000.

(** The program header at [ph], read from memory. *)
Definition get_ph (ph : Z) : M (boot D) proghdr := λ s, Ok (decode_ph (load (bt_mem s) ph 32)) s.

(** One iteration of the loop over the headers. *)
Definition seg_body (ph : Z) : M (boot D) unit :=
  let! h := get_ph ph in
  let pa := ph_paddr h in
  do! readseg pa (ph_filesz h) (ph_off h) in
  let! h := get_ph ph in
  if ph_filesz h <? ph_memsz h then
    modify (λ s, mkBoot (stosb (bt_mem s) (u32 (pa + ph_filesz h)) 0 (ph_memsz h - ph_filesz h)) (bt_dev s))
  else ret tt.

(** [for(; ph < eph; ph++)] *)
Fixpoint seg_loop (ph eph : Z) (fuel : nat) : M (boot D) unit :=
  match fuel with
  | O => λ _, Fuel
  | S fuel => if negb (ph <? eph) then ret tt else do! seg_body ph in seg_loop (u32 (ph + 32)) eph fuel
  end.

Definition bootmain : M (boot D) (option Z) :=
  do! readseg elf 4096 0 in
  let! s := get in
  let h := decode_elf (load (bt_mem s) elf 52) in
  if negb (e_magic h =? ELF_MAGIC) then ret None else
  let ph := u32 (elf + e_phoff h) in
  do! seg_loop ph (u32 (ph + 32 * e_phnum h)) (S (Z.to_nat (e_phnum h))) in
  let! s := get in
  ret (Some (e_entry (decode_elf (load (bt_mem s) elf 52)))).
End code.

(** ** Reading sectors *)

Section disk.
Context {D : Type} {P : PortIO D} {A : AtaDisk D} (polls : nat).
(** The sectors of the kernel file, from sector 1 of disk 0 on. *)
Context (sector : Z → bytes) (nsec : Z).
Context (Hsector : ∀ k, length (sector k) = 512%nat).

(** The disk is idle and holds the kernel file; commands end within a wait. *)
Definition ready (d : D) : Prop := ∃ a, ata_rep d a ∧ a_busy a = 0%nat ∧ a_op a = ANone ∧ a_err a = false ∧ (a_latency a < polls)%nat ∧
  ∀ k, 0 ≤ k < nsec → a_media a !! (0, 1 + k) = Some (sector k).

Definition idle (a : ata) : ata := mkAta (a_regs a) (a_media a) (a_op a) 0 (a_err a) (a_latency a).

Lemma waitdisk_spec fuel : ∀ d a, ata_rep d a → a_err a = false → (a_busy a < fuel)%nat → (∀ dr sec x, a_op a ≠ AWriting dr sec x) →
  ∃ d', waitdisk_loop fuel d = Ok tt d' ∧ ata_rep d' (idle a).
Proof.
  induction fuel as [|fuel IH]; intros d a Hr He Hb Hop; [lia|]. cbn [waitdisk_loop]. destruct (inb_status d a Hr) as (d1 & R1 & H1). mstep R1.
  unfold ata_status, ata_poll in *. rewrite He. destruct (a_busy a) as [|[|n]] eqn:Eb; cbn [Nat.ltb Nat.leb].
  - change (negb (Z.land 0x40 0xc0 =? 0x40)) with false. exists d1. split; [done|]. replace (idle a) with a by (destruct a; cbn in *; by subst). done.
  - change (negb (Z.land 0x80 0xc0 =? 0x40)) with true. cbn iota.
    assert (ata_done a = idle a) as Ed by (unfold ata_done, idle; destruct (a_op a) as [| | |dr sec x] eqn:Eo; try done; by destruct (Hop dr sec x)).
    rewrite Ed in H1. destruct (IH d1 (idle a) H1) as (d2 & R2 & H2); [done|cbn; lia|done|]. by exists d2.
  - change (negb (Z.land 0x80 0xc0 =? 0x40)) with true. cbn iota.
    destruct (IH d1 _ H1) as (d2 & R2 & H2); [done|cbn; lia|done|]. exists d2. split; [done|]. exact H2.
Qed.

(** The registers that name sector [n] of disk 0. *)
Lemma sector_regs n a : 0 ≤ n < 2 ^ 28 → let a' := ata_out 0x1f6 (u8 (Z.lor (Z.shiftr n 24) 0xe0)) (ata_out 0x1f5 (u8 (Z.shiftr n 16))
    (ata_out 0x1f4 (u8 (Z.shiftr n 8)) (ata_out 0x1f3 (u8 n) (ata_out 0x1f2 (u8 1) a)))) in
  reg a' 0x1f2 = 1 ∧ lba a' = n ∧ drive a' = 0.
Proof.
  intros Hn. unfold lba, drive. rewrite !reg_out by lia. repeat first [rewrite decide_False by lia | rewrite decide_True by done].
  rewrite !Z.shiftr_div_pow2 by lia. assert (0 ≤ n / 2 ^ 24 < 16) as Ht by (split; [apply Z.div_pos; lia|apply Z.div_lt_upper_bound; lia]).
  assert (∀ t, t ∈ seqZ 0 16 → u8 (Z.lor t 0xe0) = 224 + t) as Hlor.
  { apply list.Forall_forall. apply (bool_decide_unpack _). vm_compute. reflexivity. }
  rewrite Hlor by (apply elem_of_seqZ; lia). split; [done|]. replace ((224 + n / 2 ^ 24) `mod` 16) with (n / 2 ^ 24) by (apply (Z.mod_unique_pos _ _ 14); lia).
  replace ((224 + n / 2 ^ 24) / 16) with 14 by (apply (Z.div_unique_pos _ _ _ (n / 2 ^ 24)); lia). split; [|done]. unfold u8.
  change (2 ^ 24) with 16777216 in *. change (2 ^ 16) with 65536. change (2 ^ 8) with 256. Z.to_euclidean_division_equations; lia.
Qed.

(** One register write, the controller idle. *)
Lemma outb_idle d a p v : ata_rep d a → p ∈ ata_ports → a_busy a = 0%nat → p ≠ 0x1f7 →
  ∃ d', outb p v d = Ok tt d' ∧ ata_rep d' (ata_out p (u8 v) a) ∧ a_busy (ata_out p (u8 v) a) = 0%nat.
Proof.
  intros Hr Hp Hb Hne. destruct (outb_run d a p v Hr Hp Hb) as (d' & R & H'). exists d'. split; [done|]. split; [done|].
  by destruct (same_disk_out p (u8 v) a a Hne ltac:(done)) as (_ & _ & -> & _).
Qed.

Lemma read_sector_spec d k : ready d → 0 ≤ k < nsec → nsec < 2 ^ 27 →
  ∃ d', read_sector polls (1 + k) d = Ok (sector k) d' ∧ ready d'.
Proof.
  intros (a & Hr & Hb & Ho & He & Hl & Hm) Hk Hn. unfold read_sector, waitdisk.
  destruct (waitdisk_spec polls d a Hr He ltac:(lia) ltac:(by rewrite Ho)) as (d0 & R0 & H0). mstep R0. clear d R0 Hr.
  replace (idle a) with a in H0 by (destruct a; cbn in *; by subst).
  assert (∀ p, p ∈ [0x1f2; 0x1f3; 0x1f4; 0x1f5; 0x1f6; 0x1f7] → p ∈ ata_ports) as Hin by (unfold ata_ports; set_solver).
  destruct (sector_regs (1 + k) a ltac:(lia)) as (E1 & E2 & E3).
  do 5 (match goal with H : ata_rep ?d1 ?a1 |- context [outb ?p ?v] =>
    destruct (outb_idle d1 a1 p v H ltac:(apply Hin; set_solver) ltac:(done) ltac:(done)) as (?d' & ?R & ?H' & ?Hbz); mstep R; clear R H end).
  match goal with H : ata_rep ?d1 ?a1 |- _ => rename H into H6; rename d1 into d6; set (a6 := a1) in * end.
  assert (same_disk a a6) as (Em & Eo & Eb & Ee & El) by (repeat apply same_disk_out; done).
  destruct (outb_run d6 a6 0x1f7 0x20 H6 ltac:(apply Hin; set_solver) ltac:(done)) as (d7 & R7 & H7). mstep R7. clear R7 H6.
  unfold ata_out at 1 in H7. rewrite E1, E2, E3 in H7. change (u8 0x20) with 0x20 in H7. cbn [Z.eqb Pos.eqb andb] in H7. 
  destruct (waitdisk_spec polls d7 _ H7) as (d8 & R8 & H8); [cbn [a_err]; by rewrite Ee|cbn [a_busy]; by rewrite El|done|]. mstep R8. clear R8 H7.
  unfold insl. change (4 * Z.to_nat (SECTSIZE / 4))%nat with 512%nat.
  destruct (ata_insl_ok d8 _ 0 (1 + k) (sector k) H8 eq_refl eq_refl) as (d9 & R9 & H9).
  { cbn [idle a_media]. rewrite Em. by apply Hm. }
  exists d9. split; [done|]. eexists. split; [exact H9|]. cbn [idle set_op a_busy a_op a_err a_latency a_media]. by rewrite Ee, El, Em.
Qed.

(** ** Segments *)

Hypothesis Hnsec : nsec < 2 ^ 22.

(** Byte [k] of the kernel file. *)
Definition kbyte (k : Z) : Z := nth (Z.to_nat (k `mod` 512)) (sector (k / 512)) 0.

Implicit Types (s : boot D) (m : mem).

Lemma readsect_spec s dst q : ready (bt_dev s) → 0 ≤ q < nsec →
  ∃ s', readsect polls dst (1 + q) s = Ok tt s' ∧ ready (bt_dev s') ∧
  ∀ x, bt_mem s' x = if (dst <=? x) && (x <? dst + 512) then kbyte (512 * q + (x - dst)) else bt_mem s x.
Proof.
  intros Hr Hq. destruct (read_sector_spec (bt_dev s) q Hr Hq ltac:(lia)) as (d' & R & H'). unfold readsect.
  erewrite bind_Ok; [|unfold zoom; rewrite R; reflexivity]. eexists. split; [reflexivity|]. split; [exact H'|].
  intros x. cbn. unfold store. rewrite Hsector. change (Z.of_nat 512) with 512. zcases; [|done..].
  unfold kbyte. rewrite (Z.mul_comm 512 q), Z.add_comm, Z.div_add, Z.mod_add by lia.
  by rewrite (Z.div_small (x - dst)), (Z.mod_small (x - dst)) by lia.
Qed.

Lemma readseg_loop_spec fuel : ∀ s pa epa q (n : nat), ready (bt_dev s) → (n < fuel)%nat →
  0 ≤ pa → pa + 512 * n < 2 ^ 32 → epa ≤ pa + 512 * n < epa + 512 → 0 ≤ q → q + n ≤ nsec →
  ∃ s', readseg_loop polls pa epa (1 + q) fuel s = Ok tt s' ∧ ready (bt_dev s') ∧
  ∀ x, bt_mem s' x = if (pa <=? x) && (x <? pa + 512 * n) then kbyte (512 * q + (x - pa)) else bt_mem s x.
Proof.
  induction fuel as [|fuel IH]; intros s pa epa q n Hr Hf Hpa Hend He Hq Hqn; [lia|]. cbn [readseg_loop].
  destruct (Z.ltb_spec pa epa) as [Hlt|Hge]; cbn [negb].
  - destruct n as [|n]; [lia|]. destruct (readsect_spec s pa q Hr ltac:(lia)) as (s1 & R1 & H1 & M1). mstep R1.
    unfold SECTSIZE. rewrite !u32_small by (unfold is_u32; lia). replace (1 + q + 1) with (1 + (q + 1)) by lia.
    destruct (IH s1 (pa + 512) epa (q + 1) n) as (s2 & R2 & H2 & M2); [done|lia..|]. exists s2. split; [done|]. split; [done|].
    intros x. rewrite M2, M1. zcases; try lia; f_equal; lia.
  - replace n with O by lia. exists s. split; [done|]. split; [done|]. intros x. zcases; (done || lia).
Qed.

(** The memory the sectors of a segment fill. *)
Definition seg_lo (pa off : Z) : Z := pa - off `mod` 512.
Definition seg_hi (pa count off : Z) : Z := seg_lo pa off + 512 * ((count + off `mod` 512 + 511) / 512).

Lemma readseg_spec s pa count off : ready (bt_dev s) → 0 ≤ count → 0 ≤ off → off `mod` 512 ≤ pa → pa + count + 512 ≤ 2 ^ 32 →
  off + count ≤ 512 * nsec →
  ∃ s', readseg polls pa count off s = Ok tt s' ∧ ready (bt_dev s') ∧
  ∀ x, bt_mem s' x = if (seg_lo pa off <=? x) && (x <? seg_hi pa count off) then kbyte (off + (x - pa)) else bt_mem s x.
Proof.
  intros Hr Hc Ho Hpa Hend Hfile. unfold readseg, SECTSIZE.
  assert (0 ≤ off `mod` 512 < 512) as Hmod by (apply Z.mod_pos_bound; lia).
  pose proof (Z.div_mod off 512 ltac:(lia)) as Hdm. set (r := off `mod` 512) in *. set (q := off / 512) in *.
  assert (0 ≤ q) by (apply Z.div_pos; lia).
  rewrite !u32_small by (unfold is_u32; lia). replace (q + 1) with (1 + q) by lia.
  set (n := (count + r + 511) / 512). assert (count + r ≤ 512 * n < count + r + 512) as Hn by (unfold n; Z.to_euclidean_division_equations; lia).
  destruct (readseg_loop_spec (Z.to_nat (count / 512) + 3) s (pa - r) (pa + count) q (Z.to_nat n)) as (s' & R & H' & M');
    [done|Z.to_euclidean_division_equations; lia|lia..|]. 
  exists s'. split; [done|]. split; [done|]. intros x. rewrite M'. unfold seg_hi, seg_lo. fold r. fold n. rewrite Z2Nat.id by lia.
  zcases; try lia. f_equal. lia.
Qed.

(** What a program header asks for, what loading it may write, and the memory
    that is the segment's. *)
Definition seg_loaded m (h : proghdr) : Prop :=
  (∀ k, 0 ≤ k < ph_filesz h → m (ph_paddr h + k) = kbyte (ph_off h + k)) ∧
  (∀ k, ph_filesz h ≤ k < ph_memsz h → m (ph_paddr h + k) = 0).
Definition seg_touches (h : proghdr) (x : Z) : Prop :=
  seg_lo (ph_paddr h) (ph_off h) ≤ x < seg_hi (ph_paddr h) (ph_filesz h) (ph_off h) ∨ ph_paddr h + ph_filesz h ≤ x < ph_paddr h + ph_memsz h.
Definition seg_owns (h : proghdr) (x : Z) : Prop := ph_paddr h ≤ x < ph_paddr h + Z.max (ph_filesz h) (ph_memsz h).

(** The segment fits in memory, off the header page, and is in the file. *)
Record seg_ok (h : proghdr) : Prop := {
  so_sizes : 0 ≤ ph_filesz h ∧ 0 ≤ ph_memsz h ∧ 0 ≤ ph_off h;
  so_lo : ph_off h `mod` 512 ≤ ph_paddr h;
  so_hi : ph_paddr h + ph_filesz h + 512 ≤ 2 ^ 32 ∧ ph_paddr h + ph_memsz h ≤ 2 ^ 32;
  so_file : ph_off h + ph_filesz h ≤ 512 * nsec;
  so_page x : seg_touches h x → x < elf ∨ elf + 4096 ≤ x }.

Lemma load_ext m m' a (n : nat) : (∀ x, a ≤ x < a + n → m' x = m x) → load m' a n = load m a n.
Proof. intros H. unfold load. apply list_fmap_ext. intros i x Hx%lookup_seq. apply H. lia. Qed.

(** The headers that follow [ph], in the page that holds them. *)
Definition headers_at m (ph : Z) (hs : list proghdr) : Prop :=
  elf ≤ ph ∧ ph + 32 * length hs ≤ elf + 4096 ∧ ∀ (i : nat) h, hs !! i = Some h → decode_ph (load m (ph + 32 * i) 32) = h.

Lemma headers_ext m m' ph hs : (∀ x, elf ≤ x < elf + 4096 → m' x = m x) → headers_at m ph hs → headers_at m' ph hs.
Proof.
  intros Hm (H1 & H2 & H3). split; [done|]. split; [done|]. intros i h Hi. rewrite (load_ext m m'); [by apply H3|].
  intros x Hx. apply Hm. apply lookup_lt_Some in Hi. lia.
Qed.
Lemma headers_tail m ph h hs : headers_at m ph (h :: hs) → headers_at m (ph + 32) hs.
Proof.
  intros (H1 & H2 & H3). cbn [length] in H2. split; [lia|]. split; [lia|]. intros i h' Hi.
  rewrite <- (H3 (S i) h' Hi). do 2 f_equal. lia.
Qed.

Lemma seg_body_spec s ph h hs : ready (bt_dev s) → headers_at (bt_mem s) ph (h :: hs) → seg_ok h →
  ∃ s', seg_body polls ph s = Ok tt s' ∧ ready (bt_dev s') ∧ seg_loaded (bt_mem s') h ∧
  ∀ x, ¬ seg_touches h x → bt_mem s' x = bt_mem s x.
Proof.
  intros Hr Hh [(Hf & Hm & Ho) Hlo (Hhi & Hhi') Hfile Hpage]. unfold seg_body.
  assert (∀ s1, headers_at (bt_mem s1) ph (h :: hs) → get_ph ph s1 = Ok h s1) as Hget.
  { intros s1 (_ & _ & H1). pose proof (H1 O h eq_refl) as E. replace (ph + 32 * 0%nat) with ph in E by lia. unfold get_ph. by rewrite E. }
  mstep (Hget s Hh). destruct (readseg_spec s (ph_paddr h) (ph_filesz h) (ph_off h) Hr Hf Ho Hlo Hhi Hfile) as (s1 & R1 & H1 & M1). mstep R1.
  assert (∀ x, elf ≤ x < elf + 4096 → bt_mem s1 x = bt_mem s x) as Hpg.
  { intros x Hx. rewrite M1. zcases; try done. exfalso. destruct (Hpage x); [left; lia|lia..]. }
  mstep (Hget s1 (headers_ext _ _ _ _ Hpg Hh)).
  assert (0 ≤ ph_off h `mod` 512 < 512) as Hmod by (apply Z.mod_pos_bound; lia).
  assert (seg_lo (ph_paddr h) (ph_off h) ≤ ph_paddr h ∧ ph_paddr h + ph_filesz h ≤ seg_hi (ph_paddr h) (ph_filesz h) (ph_off h)) as [Hlo' Hhi2]
    by (unfold seg_hi, seg_lo; Z.to_euclidean_division_equations; lia).
  destruct (Z.ltb_spec (ph_filesz h) (ph_memsz h)) as [Hlt|Hge].
  - eexists. split; [reflexivity|]. cbn [bt_mem bt_dev]. split; [done|].
    rewrite u32_small by (unfold is_u32; lia). unfold stosb, seg_loaded, seg_touches.
    split; [split|]; [intros k Hk|intros k Hk|intros x Hx]; rewrite stosb_loop_spec; rewrite ?M1, Z2Nat.id by lia; zcases; try lia; try done; f_equal; lia.
  - exists s1. split; [done|]. split; [done|]. unfold seg_loaded, seg_touches. split; [split|]; [intros k Hk|intros k Hk; lia|intros x Hx]; rewrite M1; zcases; try lia; try done; f_equal; lia.
Qed.

(** A later segment does not spoil an earlier one. *)
Definition seg_after (h h' : proghdr) : Prop := ∀ x, seg_owns h x → ¬ seg_touches h' x.

Lemma seg_loaded_ext m m' h : 0 ≤ ph_filesz h → (∀ x, seg_owns h x → m' x = m x) → seg_loaded m h → seg_loaded m' h.
Proof.
  intros Hf Hm [H1 H2]. split; intros k Hk; rewrite Hm; first [by apply H1 | by apply H2 | unfold seg_owns; lia].
Qed.

Lemma seg_loop_spec hs : ∀ s ph, ready (bt_dev s) → headers_at (bt_mem s) ph hs → Forall seg_ok hs → ForallOrdPairs seg_after hs →
  ∃ s', seg_loop polls ph (ph + 32 * length hs) (S (length hs)) s = Ok tt s' ∧ ready (bt_dev s') ∧
  (∀ h, h ∈ hs → seg_loaded (bt_mem s') h) ∧ ∀ x, (∀ h, h ∈ hs → ¬ seg_touches h x) → bt_mem s' x = bt_mem s x.
Proof.
  induction hs as [|h hs IH]; intros s ph Hr Hh Hok Hord.
  - cbn [seg_loop]. rewrite (proj2 (Z.ltb_ge _ _)) by (cbn; lia). cbn [negb]. exists s. split; [done|]. split; [done|]. split; [set_solver|done].
  - apply list.Forall_cons in Hok as [Hh0 Hok]. inversion Hord as [|? ? Ha Hord']; subst.
    destruct (seg_body_spec s ph h hs Hr Hh Hh0) as (s1 & R1 & H1 & L1 & M1).
    pose proof Hh as (Hp1 & Hp2 & _). cbn [length] in Hp2 |- *. unfold elf in *.
    rewrite (eq_refl : seg_loop polls _ _ (S (S (length hs))) = λ s, (if negb (ph <? ph + 32 * S (length hs)) then ret tt else
      do! seg_body polls ph in seg_loop polls (u32 (ph + 32)) (ph + 32 * S (length hs)) (S (length hs))) s).
    rewrite (proj2 (Z.ltb_lt _ _)) by lia. cbn [negb]. mstep R1. rewrite u32_small by (unfold is_u32; lia).
    assert (∀ x, elf ≤ x < elf + 4096 → bt_mem s1 x = bt_mem s x) as Hpg by (intros x Hx; apply M1; intros Ht; destruct (so_page h Hh0 x Ht); lia).
    destruct (IH s1 (ph + 32) H1 (headers_tail _ _ _ _ (headers_ext _ _ _ _ Hpg Hh)) Hok Hord') as (s2 & R2 & H2 & L2 & M2).
    exists s2. replace (ph + 32 * S (length hs)) with (ph + 32 + 32 * length hs) by lia. split; [done|]. split; [done|]. split.
    + intros h' [->|Hin]%elem_of_cons; [|by apply L2]. eapply seg_loaded_ext; [apply Hh0| |exact L1]. intros x Hx. apply M2. intros h1 Hin1.
      rewrite list.Forall_forall in Ha. by apply (Ha h1).
    + intros x Hx. rewrite M2 by set_solver. apply M1. set_solver.
Qed.

(** ** The kernel file *)

Definition file_bytes (off : Z) (n : nat) : bytes := (λ i, kbyte (off + Z.of_nat i)) <$> seq 0 n.
Definition file_elf : elfhdr := decode_elf (file_bytes 0 52).
Definition file_headers : list proghdr :=
  (λ i : nat, decode_ph (file_bytes (e_phoff file_elf + 32 * i) 32)) <$> seq 0 (Z.to_nat (e_phnum file_elf)).

(** The page of headers, after the first read. *)
Lemma page_load m off (n : nat) : (∀ x, elf ≤ x < elf + 4096 → m x = kbyte (x - elf)) → 0 ≤ off → off + n ≤ 4096 →
  load m (elf + off) n = file_bytes off n.
Proof.
  intros Hm Ho Hn. unfold load, file_bytes. apply list_fmap_ext. intros i x Hx%lookup_seq. rewrite Hm by lia. f_equal. lia.
Qed.
Lemma page_headers m : (∀ x, elf ≤ x < elf + 4096 → m x = kbyte (x - elf)) → 0 ≤ e_phoff file_elf → 0 ≤ e_phnum file_elf →
  e_phoff file_elf + 32 * e_phnum file_elf ≤ 4096 → headers_at m (elf + e_phoff file_elf) file_headers.
Proof.
  intros Hm Ho Hn He. unfold headers_at. assert (length file_headers = Z.to_nat (e_phnum file_elf)) as Hl by (unfold file_headers; by rewrite length_fmap, length_seq).
  rewrite Hl. split; [lia|]. split; [lia|]. intros i h Hi. pose proof (lookup_lt_Some _ _ _ Hi) as Hlt. rewrite Hl in Hlt.
  unfold file_headers in Hi. rewrite list_lookup_fmap, lookup_seq_lt in Hi by done. cbn in Hi. injection Hi as <-.
  rewrite <- Z.add_assoc. by rewrite page_load by (done || lia).
Qed.

Lemma bootmain_run s : ready (bt_dev s) → 8 ≤ nsec →
  (e_magic file_elf ≠ ELF_MAGIC → ∃ s', bootmain polls s = Ok None s') ∧
  (e_magic file_elf = ELF_MAGIC → 0 ≤ e_phoff file_elf → 0 ≤ e_phnum file_elf → e_phoff file_elf + 32 * e_phnum file_elf ≤ 4096 →
   Forall seg_ok file_headers → ForallOrdPairs seg_after file_headers →
   ∃ s', bootmain polls s = Ok (Some (e_entry file_elf)) s' ∧ (∀ h, h ∈ file_headers → seg_loaded (bt_mem s') h) ∧
   ∀ x, x < elf ∨ elf + 4096 ≤ x → (∀ h, h ∈ file_headers → ¬ seg_touches h x) → bt_mem s' x = bt_mem s x).
Proof.
  intros Hr Hn. destruct (readseg_spec s elf 4096 0 Hr) as (s1 & R1 & H1 & M1); [lia|lia|by vm_compute|unfold elf; lia|lia|].
  change (seg_lo elf 0) with elf in M1. change (seg_hi elf 4096 0) with (elf + 4096) in M1.
  assert (∀ x, elf ≤ x < elf + 4096 → bt_mem s1 x = kbyte (x - elf)) as Hpage.
  { intros x Hx. rewrite M1. by zcases; try lia. }
  assert (∀ m, (∀ x, elf ≤ x < elf + 4096 → m x = kbyte (x - elf)) → decode_elf (load m elf 52) = file_elf) as Helf.
  { intros m Hm. unfold file_elf. rewrite <- (page_load m 0 52) by (done || lia). by rewrite Z.add_0_r. }
  unfold bootmain. mstep R1. erewrite (bind_Ok get); [|reflexivity]. rewrite (Helf _ Hpage).
  split; [intros Hne%Z.eqb_neq|intros ->%Z.eqb_eq Hpo Hpn Hpe Hok Hord]; [rewrite Hne; by eexists|]. cbn [negb].
  rewrite !u32_small by (unfold is_u32, elf; lia).
  assert (length file_headers = Z.to_nat (e_phnum file_elf)) as Hl by (unfold file_headers; by rewrite length_fmap, length_seq).
  destruct (seg_loop_spec file_headers s1 (elf + e_phoff file_elf) H1 (page_headers _ Hpage Hpo Hpn Hpe) Hok Hord) as (s2 & R2 & H2 & L2 & M2).
  rewrite Hl, Z2Nat.id in R2 by lia. mstep R2. erewrite (bind_Ok get); [|reflexivity]. exists s2. rewrite Helf.
  - split; [done|]. split; [done|]. intros x Hx Ht. rewrite (M2 x Ht), M1. zcases; (done || lia).
  - intros x Hx. rewrite M2; [by apply Hpage|]. intros h Hin Ht. rewrite list.Forall_forall in Hok. destruct (so_page h (Hok h Hin) x Ht); lia.
Qed.

(** C38: The boot loader loads the kernel.  Whatever the disk's latency, on a
    disk that holds an ELF file from sector 1 on, whose headers are in its first
    page and whose segments fit, stay off the header page and do not spoil one
    another, bootmain reads each segment's bytes to its physical address, zeroes
    the rest of its memory, and jumps to the file's entry point; memory off the
    header page and off the segments' sectors is unchanged.  On a file without
    the ELF magic number it returns. *)
Theorem bootmain_loads s : ready (bt_dev s) → 8 ≤ nsec →
  (e_magic file_elf ≠ ELF_MAGIC → ∃ s', bootmain polls s = Ok None s') ∧
  (e_magic file_elf = ELF_MAGIC → 0 ≤ e_phoff file_elf → 0 ≤ e_phnum file_elf → e_phoff file_elf + 32 * e_phnum file_elf ≤ 4096 →
   Forall seg_ok file_headers → ForallOrdPairs seg_after file_headers →
   ∃ s', bootmain polls s = Ok (Some (e_entry file_elf)) s' ∧ (∀ h, h ∈ file_headers → seg_loaded (bt_mem s') h) ∧
   ∀ x, x < elf ∨ elf + 4096 ≤ x → (∀ h, h ∈ file_headers → ¬ seg_touches h x) → bt_mem s' x = bt_mem s x).
Proof. apply bootmain_run. Qed.
End disk.

(** A kernel of two segments; the second starts inside a sector and has zeroed
    memory after its bytes. *)
Definition small_elf : bytes :=
  le_bytes 4 ELF_MAGIC ++ replicate 20 0 ++ le_bytes 4 0x10000c ++ le_bytes 4 52 ++ replicate 12 0 ++ le_bytes 2 2 ++ replicate 6 0 ++
  concat (le_bytes 4 <$> [1; 4096; 0; 0x100000; 600; 600; 0; 0]) ++ concat (le_bytes 4 <$> [1; 5130; 0; 0x10140a; 100; 1000; 0; 0]) ++ replicate 396 0.
Definition small_sector (k : Z) : bytes := if k =? 0 then small_elf else replicate 512 (u8 k).
Definition small_disk : ata :=
  mkAta ∅ (list_to_map ((λ k, ((0, 1 + k), small_sector k)) <$> seqZ 0 11)) ANone 0 false 3.
Definition small_boot : boot ata := mkBoot (λ _, 255) small_disk.

Lemma small_sector_length k : length (small_sector k) = 512%nat.
Proof. unfold small_sector. case_match; [vm_compute; reflexivity|apply length_replicate]. Qed.
Lemma small_ready : ready 5 small_sector 11 small_disk.
Proof.
  exists small_disk. split.
  { split; [done|]. split; [|done]. intros p d Hd. apply elem_of_list_to_map_2 in Hd. apply list_elem_of_fmap in Hd as (k & [= -> ->] & _). apply small_sector_length. }
  repeat (split; [done || (cbn; lia)|]). intros k Hk. cbn [small_disk a_media]. apply elem_of_list_to_map_1.
  - rewrite <- list_fmap_compose. apply (bool_decide_unpack _). vm_compute. reflexivity.
  - apply list_elem_of_fmap. exists k. split; [done|]. apply elem_of_seqZ. lia.
Qed.

Ltac small_seg := unfold seg_owns, seg_touches, seg_hi, seg_lo, elf; cbn [ph_filesz ph_memsz ph_off ph_paddr]; Z.to_euclidean_division_equations; lia.
Lemma bootmain_loads_witness : ∃ s', bootmain 5 small_boot = Ok (Some 0x10000c) s' ∧
  bt_mem s' 0x100000 = 8 ∧ bt_mem s' 0x100200 = 9 ∧ bt_mem s' 0x10140a = 10 ∧ bt_mem s' (0x10140a + 100) = 0 ∧ bt_mem s' 0x200000 = 255.
Proof.
  assert (file_headers small_sector = [mkPh 1 4096 0 0x100000 600 600 0 0; mkPh 1 5130 0 0x10140a 100 1000 0 0]) as Eh by (vm_compute; reflexivity).
  destruct (bootmain_loads 5 small_sector 11 small_sector_length ltac:(lia) small_boot small_ready ltac:(lia)) as [_ H].
  destruct H as (s' & R & L & U); [vm_compute; reflexivity|vm_compute; done|vm_compute; done|vm_compute; done|..].
  - rewrite Eh. apply list.Forall_cons. split; [|apply list.Forall_cons; split; [|by apply list.Forall_nil]];
      (split; [cbn; lia|vm_compute; done|cbn; lia|cbn; lia|intros x; small_seg]).
  - rewrite Eh. apply FOP_cons; [apply list.Forall_cons; split; [|by apply list.Forall_nil]|apply FOP_cons; [by apply list.Forall_nil|apply FOP_nil]].
    intros x. small_seg.
  - exists s'. split; [exact R|]. rewrite Eh in L, U. apply list.Forall_forall in L.
    apply list.Forall_cons in L as [[L1 _] L]. apply list.Forall_cons in L as [[L2 L3] _]. cbn [ph_filesz ph_memsz ph_off ph_paddr] in L1, L2, L3.
    split; [exact (L1 0 ltac:(lia))|]. split; [exact (L1 512 ltac:(lia))|]. split; [exact (L2 0 ltac:(lia))|]. split; [exact (L3 100 ltac:(lia))|].
    apply U; [right; unfold elf; lia|]. apply list.Forall_forall. apply list.Forall_cons. split; [small_seg|].
    apply list.Forall_cons. split; [small_seg|by apply list.Forall_nil].
Defined.
