(* ===== verification/Sysfile.v ===== *)
(** * File-system system calls: sysfile.c

    Each call is the whole C function: its arguments are fetched from the
    caller's memory, and it runs over the kernel state of Kernel.v.  [me] is the
    slot of the calling process, [pid] its pid. *)
From S2P Require Import Prelude Str Spinlock Sleeplock Memide Log BlockLayer Fs Pipe Kalloc Vm Proc File Kernel Exec.

Definition O_RDONLY : Z := 0.
Definition O_WRONLY : Z := 1.
Definition O_RDWR : Z := 2.
Definition O_CREATE : Z := 0x200.

Definition with_nlink (f : Z → Z) (x : inode) : inode :=
  mkInode (i_dev x) (i_inum x) (i_ref x) (i_lock x) (i_valid x) (i_type x) (i_major x) (i_minor x)
    (s16 (f (i_nlink x))) (i_size x) (i_addrs x).
(** The fields create fills in. *)
Definition with_device (major minor : Z) (x : inode) : inode :=
  mkInode (i_dev x) (i_inum x) (i_ref x) (i_lock x) (i_valid x) (i_type x) (s16 major) (s16 minor)
    1 (i_size x) (i_addrs x).

(** Bytes of [struct stat]: type (with two bytes of padding), dev, ino, nlink
    (with padding), size. *)
Definition stat_bytes (st : stat) : bytes :=
  le_bytes 2 (st_type st) ++ [0; 0] ++ le_bytes 4 (st_dev st) ++ le_bytes 4 (st_ino st) ++
  le_bytes 2 (st_nlink st) ++ [0; 0] ++ le_bytes 4 (st_size st).

(** The first free descriptor. *)
Fixpoint free_fd (l : list (option nat)) (fd : nat) : option nat :=
  match l with
  | [] => None
  | None :: _ => Some fd
  | Some _ :: l => free_fd l (S fd)
  end.

Notation "'let?' x := m 'else' e 'in' k" :=
  (bind m (λ o, match o with Some x => k | None => e end))
  (at level 10, x pattern, m at level 100, e at level 100, k at level 200) : kernel_scope.

Section code.
Context {S : Type} {BL : BlockLayer S} {LO : LogOps S}.
Context (pl : platform S) (me : nat) (pid : Z).

Abbreviation K A := (M (kst S) A).

Definition begin_op : K unit := kenv xbegin_op.
Definition end_op : K unit := kenv (xend_op pid).
Definition fail : K Z := ret (-1).
(** [end_op(); return -1;] *)
Definition end_fail : K Z := do! end_op in fail.
Definition cwd : K nat := let! p := getp me in ret (default NINODE (p_cwd p)).
Definition killed : K bool := let! p := getp me in ret (truthy (p_killed p)).
Definition knamei (path : bytes) : K (option nat) :=
  let! c := cwd in fs (namei pid (pl_devsw pl) c path).
(** The name buffer is on the caller's stack. *)
Definition knameiparent (path : bytes) : K (option (nat * bytes)) :=
  let! c := cwd in fs (nameiparent pid (pl_devsw pl) c path (replicate DIRSIZ 0)).

(** ** Descriptors *)

Definition argfd (n : Z) : K (option (nat * nat)) :=
  let? fd := argint me n else ret None in
  if (fd <? 0) || (NOFILE <=? fd) then ret None else
  let! p := getp me in
  match nth (Z.to_nat fd) (p_ofile p) None with
  | None => ret None
  | Some f => ret (Some (Z.to_nat fd, f))
  end.

Definition fdalloc (f : nat) : K (option nat) :=
  let! p := getp me in
  match free_fd (p_ofile p) 0 with
  | None => ret None
  | Some fd =>
      do! modp (λ p, set_ofile (<[fd := Some f]> (p_ofile p)) p) me in
      ret (Some fd)
  end.

Definition clear_fd (fd : nat) : K unit := modp (λ p, set_ofile (<[fd := None]> (p_ofile p)) p) me.

Definition sys_dup : K Z :=
  let? (_, f) := argfd 0 else fail in
  let? fd := fdalloc f else fail in
  do! kenv (filedup f) in
  ret (Z.of_nat fd).

Definition sys_read : K Z :=
  let? (_, f) := argfd 0 else fail in
  let? n := argint me 2 else fail in
  let? p := argptr me 1 n else fail in
  let! k := killed in
  let! r := kenv (fileread pid k (pl_devsw pl) f n) in
  do! ustore me p r.2 in
  ret r.1.

Definition sys_write : K Z :=
  let? (_, f) := argfd 0 else fail in
  let? n := argint me 2 else fail in
  let? p := argptr me 1 n else fail in
  let! k := killed in
  let! src := uload me p (Z.to_nat n) in
  kenv (filewrite pid k (pl_devsw pl) f src n).

Definition sys_close : K Z :=
  let? (fd, f) := argfd 0 else fail in
  do! clear_fd fd in
  do! kenv (fileclose pid (pl_end pl) f) in
  ret 0.

Definition sys_fstat : K Z :=
  let? (_, f) := argfd 0 else fail in
  let? st := argptr me 1 20 else fail in
  let! r := kenv (filestat pid f) in
  match r with
  | None => fail
  | Some x => do! ustore me st (stat_bytes x) in ret 0
  end.

(** ** Links *)

(** [bad:] of sys_link *)
Definition link_bad (ip : nat) : K Z :=
  do! fs (ilock pid ip) in
  do! fs (modi (with_nlink (λ n, n - 1)) ip) in
  do! fs (iupdate ip) in
  do! fs (iunlockput pid ip) in
  end_fail.

Definition sys_link : K Z :=
  let? old := argstr me 0 else fail in
  let? new := argstr me 1 else fail in
  do! begin_op in
  let? ip := knamei old else end_fail in
  do! fs (ilock pid ip) in
  let! x := fs (geti ip) in
  if i_type x =? T_DIR then
    do! fs (iunlockput pid ip) in
    end_fail
  else
  do! fs (modi (with_nlink (λ n, n + 1)) ip) in
  do! fs (iupdate ip) in
  do! fs (iunlock pid ip) in
  let? (dp, name) := knameiparent new else link_bad ip in
  do! fs (ilock pid dp) in
  let! d := fs (geti dp) in
  let! x := fs (geti ip) in
  let! r := (if negb (i_dev d =? i_dev x) then fail else fs (dirlink pid (pl_devsw pl) dp name (i_inum x))) in
  if r <? 0 then
    do! fs (iunlockput pid dp) in
    link_bad ip
  else
  do! fs (iunlockput pid dp) in
  do! fs (iput pid ip) in
  do! end_op in
  ret 0.

(** An entry in use, at index [k]. *)
Definition used_at (dp k : nat) : M (fsst S) (option unit) :=
  let! r := readi (pl_devsw pl) dp (16 * k) 16 in
  if negb (r.1 =? 16) then panic "isdirempty: readi" else
  ret (if de_inum r.2 =? 0 then None else Some tt).

Definition isdirempty (dp : nat) : K bool :=
  let! d := fs (geti dp) in
  let! r := fs (first_some (seq 2 (dirent_count (i_size d) - 2)) (used_at dp)) in
  ret (match r with Some _ => false | None => true end).

(** [bad:] of sys_unlink *)
Definition unlink_bad (dp : nat) : K Z :=
  do! fs (iunlockput pid dp) in
  end_fail.

Definition sys_unlink : K Z :=
  let? path := argstr me 0 else fail in
  do! begin_op in
  let? (dp, name) := knameiparent path else end_fail in
  do! fs (ilock pid dp) in
  if (namecmp name [46] =? 0) || (namecmp name [46; 46] =? 0) then unlink_bad dp else
  let? (ip, off) := fs (dirlookup (pl_devsw pl) dp name) else unlink_bad dp in
  do! fs (ilock pid ip) in
  let! x := fs (geti ip) in
  if i_nlink x <? 1 then panic "unlink: nlink < 1" else
  let! full := (if i_type x =? T_DIR then let! e := isdirempty ip in ret (negb e) else ret false) in
  if full : bool then
    do! fs (iunlockput pid ip) in
    unlink_bad dp
  else
  let! r := fs (writei (pl_devsw pl) dp (replicate 16 0) off 16) in
  if negb (r =? 16) then panic "unlink: writei" else
  do! (if i_type x =? T_DIR then
         do! fs (modi (with_nlink (λ n, n - 1)) dp) in
         fs (iupdate dp)
       else ret tt) in
  do! fs (iunlockput pid dp) in
  do! fs (modi (with_nlink (λ n, n - 1)) ip) in
  do! fs (iupdate ip) in
  do! fs (iunlockput pid ip) in
  do! end_op in
  ret 0.

(** ** Creation *)

(** The part of create that makes a new inode in directory [dp]. *)
Definition create_new (dp : nat) (name : bytes) (type major minor : Z) : K (option nat) :=
  let! d := fs (geti dp) in
  let! ip := fs (ialloc (i_dev d) type) in
  do! fs (ilock pid ip) in
  do! fs (modi (with_device major minor) ip) in
  do! fs (iupdate ip) in
  let! x := fs (geti ip) in
  do! (if type =? T_DIR then
         do! fs (modi (with_nlink (λ n, n + 1)) dp) in
         do! fs (iupdate dp) in
         let! r1 := fs (dirlink pid (pl_devsw pl) ip [46] (i_inum x)) in
         if r1 <? 0 then panic "create dots" else
         let! d := fs (geti dp) in
         let! r2 := fs (dirlink pid (pl_devsw pl) ip [46; 46] (i_inum d)) in
         if r2 <? 0 then panic "create dots" else ret tt
       else ret tt) in
  let! r := fs (dirlink pid (pl_devsw pl) dp name (i_inum x)) in
  if r <? 0 then panic "create: dirlink" else
  do! fs (iunlockput pid dp) in
  ret (Some ip).

Definition create (path : bytes) (type major minor : Z) : K (option nat) :=
  let? (dp, name) := knameiparent path else ret None in
  do! fs (ilock pid dp) in
  let! hit := fs (dirlookup (pl_devsw pl) dp name) in
  match hit with
  | Some (ip, _) =>
      do! fs (iunlockput pid dp) in
      do! fs (ilock pid ip) in
      let! x := fs (geti ip) in
      if (type =? T_FILE) && (i_type x =? T_FILE) then ret (Some ip) else
      do! fs (iunlockput pid ip) in
      ret None
  | None => create_new dp name type major minor
  end.

(** The inode sys_open opens, locked; [None] after [end_op(); return -1]. *)
Definition open_inode (path : bytes) (omode : Z) : K (option nat) :=
  if truthy (Z.land omode O_CREATE) then
    let? ip := create path T_FILE 0 0 else (do! end_op in ret None) in
    ret (Some ip)
  else
    let? ip := knamei path else (do! end_op in ret None) in
    do! fs (ilock pid ip) in
    let! x := fs (geti ip) in
    if (i_type x =? T_DIR) && negb (omode =? O_RDONLY) then
      do! fs (iunlockput pid ip) in
      do! end_op in
      ret None
    else ret (Some ip).

Definition sys_open : K Z :=
  let? path := argstr me 0 else fail in
  let? omode := argint me 1 else fail in
  do! begin_op in
  let? ip := open_inode path omode else fail in
  let bad := (do! fs (iunlockput pid ip) in end_fail) in
  let? f := kenv filealloc else bad in
  let? fd := fdalloc f else (do! kenv (fileclose pid (pl_end pl) f) in bad) in
  do! fs (iunlock pid ip) in
  do! end_op in
  do! kenv (modf (fset_inode ip (negb (truthy (Z.land omode O_WRONLY)))
                    (truthy (Z.land omode O_WRONLY) || truthy (Z.land omode O_RDWR))) f) in
  ret (Z.of_nat fd).

Definition sys_mkdir : K Z :=
  do! begin_op in
  let? path := argstr me 0 else end_fail in
  let? ip := create path T_DIR 0 0 else end_fail in
  do! fs (iunlockput pid ip) in
  do! end_op in
  ret 0.

Definition sys_mknod : K Z :=
  do! begin_op in
  let? path := argstr me 0 else end_fail in
  let? major := argint me 1 else end_fail in
  let? minor := argint me 2 else end_fail in
  let? ip := create path T_DEV (s16 major) (s16 minor) else end_fail in
  do! fs (iunlockput pid ip) in
  do! end_op in
  ret 0.

Definition sys_chdir : K Z :=
  do! begin_op in
  let? path := argstr me 0 else end_fail in
  let? ip := knamei path else end_fail in
  do! fs (ilock pid ip) in
  let! x := fs (geti ip) in
  if negb (i_type x =? T_DIR) then
    do! fs (iunlockput pid ip) in
    end_fail
  else
  do! fs (iunlock pid ip) in
  let! c := cwd in
  do! fs (iput pid c) in
  do! end_op in
  do! modp (set_cwd (Some ip)) me in
  ret 0.

(** ** exec and pipe *)

(** The loop of sys_exec from argument [i] on; [n] slots of [argv] are left. *)
Fixpoint exec_args (n : nat) (uargv i : Z) (acc : list bytes) : K (option (list bytes)) :=
  match n with
  | O => ret None
  | Datatypes.S n =>
      let? uarg := fetchint me (u32 (uargv + 4 * i)) else ret None in
      if uarg =? 0 then ret (Some acc) else
      let? a := fetchstr me (u32 uarg) else ret None in
      exec_args n uargv (i + 1) (acc ++ [a])
  end.

Definition sys_exec : K Z :=
  let? path := argstr me 0 else fail in
  let? uargv := argint me 1 else fail in
  let? argv := exec_args MAXARG (u32 uargv) 0 [] else fail in
  exec pl me pid path argv.

(** The clean-up of sys_pipe. *)
Definition pipe_bad (fd0 : option nat) (rf wf : nat) : K Z :=
  do! (match fd0 with Some fd => clear_fd fd | None => ret tt end) in
  do! kenv (fileclose pid (pl_end pl) rf) in
  do! kenv (fileclose pid (pl_end pl) wf) in
  fail.

Definition sys_pipe : K Z :=
  let? fd := argptr me 0 8 else fail in
  let? (rf, wf) := kenv (pipealloc pid (pl_end pl)) else fail in
  let? fd0 := fdalloc rf else pipe_bad None rf wf in
  let? fd1 := fdalloc wf else pipe_bad (Some fd0) rf wf in
  do! ustore me fd (le_bytes 4 fd0 ++ le_bytes 4 fd1) in
  ret 0.
End code.

(** ** Descriptor tables *)

Lemma free_fd_Some l i0 fd :
  free_fd l i0 = Some fd → (i0 ≤ fd)%nat ∧ l !! (fd - i0)%nat = Some None ∧
    ∀ j, (j < fd - i0)%nat → ∃ f, l !! j = Some (Some f).
Proof.
  revert i0; induction l as [|[f|] l IH]; intros i0; simpl; [done| |].
  - intros (Hle & Hfd & Hall)%IH. replace (fd - i0)%nat with (S (fd - S i0)) by lia. split; [lia|]. split; [done|].
    intros [|j] Hj; simpl; [by exists f|]. apply Hall. lia.
  - intros [= <-]. rewrite Nat.sub_diag. split; [done|]. split; [done|]. lia.
Qed.
Lemma free_fd_None l i0 j : free_fd l i0 = None → (j < length l)%nat → ∃ f, l !! j = Some (Some f).
Proof.
  revert i0 j; induction l as [|[f|] l IH]; intros i0 j; simpl; [lia| |done].
  intros H Hj. destruct j as [|j]; simpl; [by exists f|]. eapply IH; [done|lia].
Qed.

Section fds.
Context {S : Type} {BL : BlockLayer S} {LO : LogOps S}.
Context (pl : platform S) (me : nat) (pid : Z).
Implicit Types (s : kst S).

(** The descriptors of the caller. *)
Definition fds s : list (option nat) := match ptable s !! me with Some p => p_ofile p | None => [] end.

Lemma quiet_gets {A} (f : kst S → A) : quiet (gets f).
Proof. by intros s a s' [= _ <-]. Qed.
Lemma quiet_uload8 a : quiet (uload8 (S:=S) me a).
Proof. intros s b s' [-> _]%uload8_inv. done. Qed.
Lemma quiet_fetchint a : quiet (fetchint (S:=S) me a).
Proof.
  unfold fetchint. apply quiet_bind; [apply quiet_getp|]. intros p. apply quiet_if; [apply quiet_ret|].
  apply quiet_bind; [|intros; apply quiet_ret]. unfold uload32.
  repeat (apply quiet_bind; [apply quiet_uload8|intros ?]). apply quiet_ret.
Qed.
Lemma quiet_argint n : quiet (argint (S:=S) me n).
Proof. unfold argint. apply quiet_bind; [apply quiet_getp|intros; apply quiet_fetchint]. Qed.
Lemma quiet_argptr n size : quiet (argptr (S:=S) me n size).
Proof.
  unfold argptr. apply quiet_bind; [apply quiet_getp|]. intros p. apply quiet_bind; [apply quiet_argint|].
  intros [i|]; [apply quiet_if; apply quiet_ret|apply quiet_ret].
Qed.

Lemma quiet_fds {A} (m : M (kst S) A) s a s' : quiet m → m s = Ok a s' → fds s' = fds s.
Proof. intros Hm H. apply Hm in H as (E & _ & _). unfold fds. by rewrite E. Qed.

Lemma modp_fds g s s' : modp (λ p, set_ofile (g (p_ofile p)) p) me s = Ok tt s' → fds s' = g (fds s).
Proof.
  unfold modp, fds. destruct (ptable s !! me) as [p|] eqn:Hp; [|done]. intros [= <-]. cbn.
  by rewrite list_lookup_insert_eq by by eapply lookup_lt_Some.
Qed.

(** fdalloc takes the lowest free descriptor. *)
Lemma fdalloc_inv f s r s' :
  fdalloc me f s = Ok r s' →
  match r with
  | None => s' = s ∧ free_fd (fds s) 0 = None
  | Some fd => free_fd (fds s) 0 = Some fd ∧ fds s' = <[fd := Some f]> (fds s)
  end.
Proof.
  unfold fdalloc. intros (p & s1 & R1 & H)%bind_Ok_inv. apply getp_inv in R1 as [-> Hp].
  assert (fds s = p_ofile p) as Ef by (unfold fds; by rewrite Hp). rewrite Ef.
  destruct (free_fd (p_ofile p) 0) as [fd|] eqn:Hf.
  - apply bind_Ok_inv in H as ([] & s2 & R2 & H). injection H as <- <-. split; [done|].
    apply (modp_fds (λ l, <[fd := Some f]> l)) in R2. by rewrite R2, Ef.
  - by injection H as <- <-.
Qed.

Lemma argfd_inv n s r s' :
  argfd me n s = Ok r s' →
  fds s' = fds s ∧ match r with Some (fd, f) => (fd < NOFILE)%nat ∧ nth fd (fds s) None = Some f | None => True end.
Proof.
  unfold argfd. intros (o & s1 & R1 & H)%bind_Ok_inv. apply (quiet_fds _ _ _ _ (quiet_argint n)) in R1. rewrite <- R1.
  destruct o as [fd|]; [|by injection H as <- <-].
  destruct (Z.ltb_spec fd 0); [by injection H as <- <-|]. destruct (Z.leb_spec NOFILE fd); [by injection H as <- <-|].
  cbn [orb] in H. apply bind_Ok_inv in H as (p & s2 & R2 & H). apply getp_inv in R2 as [-> Hp].
  assert (fds s1 = p_ofile p) as Ef by (unfold fds; by rewrite Hp). rewrite Ef.
  destruct (nth (Z.to_nat fd) (p_ofile p) None) as [f|] eqn:Hf; injection H as <- <-; rewrite Ef; [|done].
  split; [done|]. split; [lia|done].
Qed.

Lemma fd_undo (l : list (option nat)) fd f : free_fd l 0 = Some fd → <[fd := None]> (<[fd := Some f]> l) = l.
Proof.
  intros (_ & Hfd & _)%free_fd_Some. rewrite Nat.sub_0_r in Hfd.
  rewrite list_insert_insert_eq. by apply list_insert_id.
Qed.
End fds.

(** Dup.  If sys_dup returns a descriptor, it is the lowest one that was
    free, it refers to the same open file as the descriptor given as argument,
    which is valid, and no other descriptor has changed; if it returns -1, no
    descriptor has changed. *)
Theorem sys_dup_correct {S} (me : nat) (s s' : kst S) (r : Z) :
  sys_dup me s = Ok r s' →
  (r = -1 ∧ fds me s' = fds me s) ∨
  (∃ (fd fd' : nat) f, r = fd' ∧ (fd < NOFILE)%nat ∧ nth fd (fds me s) None = Some f ∧
     fds me s !! fd' = Some None ∧ (∀ j, (j < fd')%nat → ∃ g, fds me s !! j = Some (Some g)) ∧
     fds me s' = <[fd' := Some f]> (fds me s)).
Proof.
  unfold sys_dup. intros (o & s1 & R1 & H)%bind_Ok_inv. apply argfd_inv in R1 as [E1 Ho].
  destruct o as [[fd f]|]; [|injection H as <- <-; by left]. destruct Ho as [Hfd Hf].
  apply bind_Ok_inv in H as (o & s2 & R2 & H). apply fdalloc_inv in R2.
  destruct o as [fd'|]; [right|left; injection H as <- <-; by destruct R2 as [-> _]].
  destruct R2 as [Hfree E2]. apply bind_Ok_inv in H as (x & s3 & R3 & H). injection H as <- <-.
  apply (quiet_fds me _ _ _ _ (quiet_kenv _)) in R3. rewrite E1 in Hfree, E2.
  apply free_fd_Some in Hfree as (_ & Hfd' & Hall). rewrite Nat.sub_0_r in Hfd', Hall.
  exists fd, fd', f. split_and!; [done..|]. by rewrite R3, E2.
Qed.

(** pipe fails cleanly.  If sys_pipe returns -1, because of a bad pointer,
    because open files, memory or descriptors ran out, the descriptor table of
    the caller is as it was, also when the first of the two descriptors had
    already been taken; if it returns 0 it has taken the two lowest free
    descriptors for two new open files. *)
Lemma sys_pipe_descriptors {S} {BL : BlockLayer S} {LO : LogOps S} (pl : platform S) (me : nat) (pid : Z)
    (s s' : kst S) (r : Z) :
  sys_pipe pl me pid s = Ok r s' →
  (r = -1 ∧ fds me s' = fds me s) ∨
  (r = 0 ∧ ∃ fd0 fd1 rf wf, free_fd (fds me s) 0 = Some fd0 ∧ free_fd (<[fd0 := Some rf]> (fds me s)) 0 = Some fd1 ∧
     fds me s' = <[fd1 := Some wf]> (<[fd0 := Some rf]> (fds me s))).
Proof.
  pose proof (λ A (m : M (fist S) A) x a y, quiet_fds me (kenv m) x a y (quiet_kenv m)) as Hk.
  assert (∀ a l (x y : kst S), ustore me a l x = Ok tt y → fds me y = fds me x) as Hus.
  { intros a l. revert a. induction l as [|b l IH]; intros a x y; simpl; [by intros [= <-]|].
    intros ([] & z & R1 & R2)%bind_Ok_inv. apply IH in R2. rewrite R2. unfold ustore8 in R1.
    apply bind_Ok_inv in R1 as (p & z1 & Q1 & R1). apply getp_inv in Q1 as [-> _]. unfold kmemory in R1. rewrite bind_gets in R1.
    case_match; [|done]. by apply Hk in R1. }
  unfold sys_pipe. intros (o & s1 & R1 & H)%bind_Ok_inv. apply (quiet_fds me _ _ _ _ (quiet_argptr me 0 8)) in R1.
  rewrite <- R1. clear R1. destruct o as [a|]; [|injection H as <- <-; by left].
  apply bind_Ok_inv in H as (o & s2 & R2%Hk & H). rewrite <- R2. clear R2.
  destruct o as [[rf wf]|]; [|injection H as <- <-; by left].
  assert (∀ fd0 x y v, pipe_bad pl me pid fd0 rf wf x = Ok v y → v = -1 ∧
    fds me y = match fd0 with Some fd => <[fd := None]> (fds me x) | None => fds me x end) as Hbad.
  { intros fd0 x y v. unfold pipe_bad. intros ([] & x1 & Q1 & Q)%bind_Ok_inv.
    apply bind_Ok_inv in Q as ([] & x2 & Q2%Hk & Q). apply bind_Ok_inv in Q as ([] & x3 & Q3%Hk & Q).
    injection Q as <- <-. split; [done|]. rewrite Q3, Q2. destruct fd0 as [fd|]; [|by injection Q1 as <-].
    by apply (modp_fds me (λ l, <[fd := None]> l)) in Q1. }
  apply bind_Ok_inv in H as (o & s3 & R3 & H). apply fdalloc_inv in R3. destruct o as [fd0|].
  - destruct R3 as [Hfd0 E3]. apply bind_Ok_inv in H as (o & s4 & R4 & H). apply fdalloc_inv in R4. destruct o as [fd1|].
    + destruct R4 as [Hfd1 E4]. apply bind_Ok_inv in H as ([] & s5 & R5%Hus & H). injection H as <- <-. right. split; [done|].
      exists fd0, fd1, rf, wf. rewrite <- E3. split_and!; [done..|]. by rewrite R5, E4.
    + destruct R4 as [-> _]. apply Hbad in H as [-> ->]. left. split; [done|]. by rewrite E3, fd_undo.
  - destruct R3 as [-> _]. apply Hbad in H as [-> ->]. by left.
Qed.

(** A process with an open file in descriptor 0, two free open files and one
    free page; its arguments, read at address 4, are 0. *)
Definition fd_proc : proc := set_ofile (<[O := Some O]> (replicate NOFILE None)) one_proc.
Definition fd_state : kst tx :=
  mkPst (mkFist (mkFsst (mkTx ∅ ∅ ∅ ∅) (mkSb 0 0 0 0 0 0 0) [empty_dir])
           [mkFile FD_INODE 1 true false 0 0 0; empty_file; empty_file] ∅ (mkKmem one_page 0 0x80116000 0))
    [fd_proc] 2 (Some O).
Definition ran {A} (m : M (kst tx) A) : kst tx := match m fd_state with Ok _ s => s | _ => fd_state end.

Lemma sys_dup_correct_witness :
  (1 = -1 ∧ fds 0 (ran (sys_dup 0)) = fds 0 fd_state) ∨
  (∃ (fd fd' : nat) f, 1 = fd' ∧ (fd < NOFILE)%nat ∧ nth fd (fds 0 fd_state) None = Some f ∧
     fds 0 fd_state !! fd' = Some None ∧ (∀ j, (j < fd')%nat → ∃ g, fds 0 fd_state !! j = Some (Some g)) ∧
     fds 0 (ran (sys_dup 0)) = <[fd' := Some f]> (fds 0 fd_state)).
Proof. apply (sys_dup_correct 0 fd_state). vm_compute. reflexivity. Defined.

Definition demo_pipe : M (kst tx) Z := @sys_pipe tx (ram_layer 30 30) ram_ops demo_platform 0 1.

Lemma sys_pipe_descriptors_witness :
  (0 = -1 ∧ fds 0 (ran demo_pipe) = fds 0 fd_state) ∨
  (0 = 0 ∧ ∃ fd0 fd1 rf wf, free_fd (fds 0 fd_state) 0 = Some fd0 ∧
     free_fd (<[fd0 := Some rf]> (fds 0 fd_state)) 0 = Some fd1 ∧
     fds 0 (ran demo_pipe) = <[fd1 := Some wf]> (<[fd0 := Some rf]> (fds 0 fd_state))).
Proof.
  apply (@sys_pipe_descriptors tx (ram_layer 30 30) ram_ops demo_platform 0 1 fd_state).
  assert (match demo_pipe fd_state with Ok r _ => r = 0 | _ => False end) as Hr by (vm_compute; reflexivity).
  unfold ran. unfold demo_pipe in *. destruct (sys_pipe _ _ _ fd_state) as [r s| | |]; [|destruct Hr..]. subst. reflexivity.
Defined.
