(* ===== verification/Syscalls.v ===== *)
(** * System calls and traps: sysproc.c, syscall.c, trap.c

    [syscall] dispatches on %eax over all the system calls; [trap] is the
    kernel's entry point for system calls, interrupts and faults.  [exit] does
    not return: calls after which the process is gone have no result, and
    [trap] ends with [TExit].  [trap] also ends where it yields the CPU, with
    [TYield]; [trap_resumed] is what it does when the process runs again, and
    [trap_returned] what it does when a system call that slept is done;
    [trap_run] puts the pieces together.  The messages of trap and its
    acknowledgements to the interrupt controller (lapiceoi, in Lapic.v) touch
    nothing of this state and are left out. *)
From S2P Require Import Prelude Str Port Spinlock Sleeplock Memide Log BlockLayer Fs Pipe Kalloc Vm Proc File Kernel Exec Sysfile.

Definition T_SYSCALL : Z := 64.
Definition DPL_USER : Z := 3.
Definition ticks_chan : chan := Chan "ticks" 0.

(** The kernel with the clock. *)
Record ksys (S : Type) := mkKsys { y_k : kst S; y_ticks : Z }.
Arguments mkKsys {S}.
Arguments y_k {S}.
Arguments y_ticks {S}.

Inductive trap_out := TReturn | TExit | TYield.

Section code.
Context {S : Type} {BL : BlockLayer S} {LO : LogOps S}.
(** [c]: the CPU; [cpu0]: whether its number is 0; [me], [pid]: the calling
    process; [device n]: the interrupt handler of the device at trap number [n]. *)
Context (pl : platform S) (c : cpu) (cpu0 : bool) (me : nat) (pid : Z).
Context (device : Z → M (kst S) unit).

Abbreviation Y A := (M (ksys S) A).

Definition onk {A} (m : M (kst S) A) : Y A := zoom y_k (λ k s, mkKsys k (y_ticks s)) m.
#[local] Instance the_env : ProcEnv (fist S) := kernel_env pl pid.

(** ** sysproc.c *)

Definition sys_fork : Y Z := onk (fork (pl_labels pl) me).
Definition sys_exit : Y unit := onk (exit c me).
Definition sys_wait : Y Z := onk (wait c me).
Definition sys_kill : Y Z :=
  let? p := onk (argint me 0) else ret (-1) in
  onk (kill p).
Definition sys_getpid : Y Z := let! p := onk (getp me) in ret (p_pid p).
Definition sys_sbrk : Y Z :=
  let? n := onk (argint me 0) else ret (-1) in
  let! p := onk (getp me) in
  let! r := onk (growproc me n) in
  ret (if r <? 0 then -1 else s32 (p_sz p)).

(** The loop of sys_sleep, up to its return or the next sleep; it is run again
    when the process is woken. *)
Definition sleep_test (ticks0 n : Z) : Y Z :=
  let! t := gets y_ticks in
  if u32 (t - ticks0) <? u32 n then
    let! p := onk (getp me) in
    if truthy (p_killed p) then ret (-1) else
    do! onk (sleep (pushed c) false ticks_chan me) in
    ret 0
  else ret 0.

Definition sys_sleep : Y Z :=
  let? n := onk (argint me 0) else ret (-1) in
  let! ticks0 := gets y_ticks in
  sleep_test ticks0 n.

Definition sys_uptime : Y Z := let! t := gets y_ticks in ret (s32 t).

(** ** The dispatcher *)

(** [syscalls[num]()]; [Some None] for sys_exit, which does not return, [None]
    for a number without an entry. *)
Definition syscalls (num : Z) : option (Y (option Z)) :=
  let call (m : Y Z) : option (Y (option Z)) := Some (let! r := m in ret (Some r)) in
  if num =? 1 then call sys_fork
  else if num =? 2 then Some (do! sys_exit in ret None)
  else if num =? 3 then call sys_wait
  else if num =? 4 then call (onk (sys_pipe pl me pid))
  else if num =? 5 then call (onk (sys_read pl me pid))
  else if num =? 6 then call sys_kill
  else if num =? 7 then call (onk (sys_exec pl me pid))
  else if num =? 8 then call (onk (sys_fstat me pid))
  else if num =? 9 then call (onk (sys_chdir pl me pid))
  else if num =? 10 then call (onk (sys_dup me))
  else if num =? 11 then call sys_getpid
  else if num =? 12 then call sys_sbrk
  else if num =? 13 then call sys_sleep
  else if num =? 14 then call sys_uptime
  else if num =? 15 then call (onk (sys_open pl me pid))
  else if num =? 16 then call (onk (sys_write pl me pid))
  else if num =? 17 then call (onk (sys_mknod pl me pid))
  else if num =? 18 then call (onk (sys_unlink pl me pid))
  else if num =? 19 then call (onk (sys_link pl me pid))
  else if num =? 20 then call (onk (sys_mkdir pl me pid))
  else if num =? 21 then call (onk (sys_close pl me pid))
  else None.

Definition set_result (r : Z) : Y unit := onk (modp (λ p, set_tf (set_eax (u32 r) (p_tf p)) p) me).

(** [syscall]: [true] when it returns. *)
Definition syscall : Y bool :=
  let! p := onk (getp me) in
  match syscalls (s32 (tf_eax (p_tf p))) with
  | Some m =>
      let! r := m in
      match r with
      | Some r => do! set_result r in ret true
      | None => ret false
      end
  | None => do! set_result (-1) in ret true
  end.

(** ** trap.c *)

Definition killed_now : Y bool := let! p := onk (getp me) in ret (truthy (p_killed p)).
Definition do_exit : Y trap_out := do! onk (exit c me) in ret TExit.
Definition user_mode (tf : trapframe) : bool := Z.land (tf_cs tf) 3 =? DPL_USER.

(** The interrupt of a trap number other than T_SYSCALL; [cur]: whether a
    process runs on the CPU. *)
Definition handle (cur : bool) (tf : trapframe) : Y unit :=
  let n := tf_trapno tf in
  if n =? T_IRQ0 + IRQ_TIMER then
    if cpu0 then
      do! modify (λ s, mkKsys (y_k s) (u32 (y_ticks s + 1))) in
      onk (wakeup (Some ticks_chan))
    else ret tt
  else if (n =? T_IRQ0 + IRQ_IDE) || (n =? T_IRQ0 + IRQ_KBD) || (n =? T_IRQ0 + IRQ_COM1) then onk (device n)
  else if (n =? T_IRQ0 + IRQ_IDE + 1) || (n =? T_IRQ0 + 7) || (n =? T_IRQ0 + IRQ_SPURIOUS) then ret tt
  else if negb cur || (Z.land (tf_cs tf) 3 =? 0) then panic "trap"
  else onk (modp (set_killed 1) me).

(** [if(myproc() && myproc()->killed && (tf->cs&3) == DPL_USER) exit();], which
    stands twice in trap: before yield, and after it for a process that was
    killed since. *)
Definition kill_check (cur : bool) (tf : trapframe) : Y trap_out :=
  if cur && user_mode tf then
    let! k := killed_now in
    if k : bool then do_exit else ret TReturn
  else ret TReturn.

(** The end of trap, when the process runs again after yield. *)
Definition trap_resumed (cur : bool) (tf : trapframe) : Y trap_out := kill_check cur tf.

(** [if(myproc()->killed) exit(); return;] after the system call. *)
Definition trap_returned : Y trap_out :=
  let! k := killed_now in
  if k : bool then do_exit else ret TReturn.

(** [myproc()->tf = tf; syscall();] *)
Definition trap_call (tf : trapframe) : Y bool :=
  do! onk (modp (set_tf tf) me) in
  syscall.

Definition trap (cur : bool) (tf : trapframe) : Y trap_out :=
  if tf_trapno tf =? T_SYSCALL then
    let! k := killed_now in
    if k : bool then do_exit else
    let! back := trap_call tf in
    if negb back then ret TExit else trap_returned
  else
    do! handle cur tf in
    let! out := kill_check cur tf in
    match out with
    | TExit => ret TExit
    | _ =>
        if cur then
          let! p := onk (getp me) in
          if is_state RUNNING p && (tf_trapno tf =? T_IRQ0 + IRQ_TIMER) then
            do! onk (yield c me) in
            ret TYield
          else trap_resumed cur tf
        else ret TReturn
    end.

(** The whole handling of a trap of a process.  While the process waits, in yield
    or asleep in a system call, the rest of the system may do anything to the
    state, such as kill the process; the call that slept may also go on to
    change anything.  Only a process that was not killed gets into the call; one
    that sleeps inside exit never comes back. *)
Inductive trap_run (tf : trapframe) (s : ksys S) (out : trap_out) (s' : ksys S) : Prop :=
| run_through : trap true tf s = Ok out s' → out ≠ TYield → trap_run tf s out s'
| run_yield s1 s2 : trap true tf s = Ok TYield s1 → trap_resumed true tf s2 = Ok out s' → trap_run tf s out s'
| run_sleep ch s1 s2 : tf_trapno tf = T_SYSCALL → killed_now s = Ok false s → trap_call tf s = Sleeping ch s1 →
    trap_returned s2 = Ok out s' → trap_run tf s out s'.
End code.

(** ** Properties *)

Section props.
Context {S : Type} {BL : BlockLayer S} {LO : LogOps S}.
Context (pl : platform S) (c : cpu) (cpu0 : bool) (me : nat) (pid : Z) (device : Z → M (kst S) unit).
Implicit Types (s : ksys S).

Lemma onk_getp s p : ptable (y_k s) !! me = Some p → onk (getp me) s = Ok p s.
Proof. intros Hp. unfold onk, zoom, getp. rewrite Hp. by destruct s. Qed.

Lemma onk_getp_inv s p s' : onk (getp me) s = Ok p s' → s' = s ∧ ptable (y_k s) !! me = Some p.
Proof.
  unfold onk, zoom, getp. destruct s as [k t]; cbn. destruct (ptable k !! me); [|done]. by intros [= <- <-].
Qed.

Lemma syscalls_range num : is_Some (syscalls pl c me pid num) ↔ 1 ≤ num ≤ 21.
Proof.
  unfold syscalls. cbv zeta.
  repeat match goal with
  | |- context [num =? ?k] => destruct (Z.eqb_spec num k) as [->|]; [split; [lia|by eexists]|]
  end.
  split; [by intros [? ?]|lia].
Qed.

Lemma pushed_spec (x : cpu) : ncli (pushed x) = ncli x + 1 ∧ fl_if (pushed x) = false.
Proof. unfold pushed. rewrite pushcli_run. done. Qed.
Lemma popped_spec (x : cpu) : 1 < ncli x → fl_if x = false → ncli (popped x) = ncli x - 1 ∧ fl_if (popped x) = false.
Proof.
  intros Hn Hf. unfold popped. rewrite popcli_run by (cbn; (done || lia)). cbn.
  destruct (Z.eqb_spec (ncli x) 1); [lia|]. done.
Qed.

(** A process that holds one lock can always go to sleep. *)
Lemma sleep_sleeps (x : cpu) ch (k : kst S) p :
  ptable k !! me = Some p → ncli x = 1 → fl_if x = false →
  ∃ k', sleep x false ch me k = Sleeping ch k'.
Proof.
  intros Hp Hn Hf. unfold sleep. cbv zeta. pose proof (pushed_spec x) as [Hn1 Hf1].
  destruct (popped_spec (pushed x)) as [Hn2 Hf2]; [lia|done|]. set (y := popped (pushed x)) in *.
  destruct (modp_run (set_chan (Some ch)) me k p Hp) as (k1 & R1 & Hp1). rewrite (bind_Ok _ _ _ _ _ R1).
  destruct (modp_run (set_state SLEEPING) me k1 _ Hp1) as (k2 & R2 & Hp2). rewrite (bind_Ok _ _ _ _ _ R2).
  assert (sched y true me k2 = Ok (intena y) k2) as R3.
  { unfold sched. rewrite Hn2, Hn1, Hn. cbn [negb]. change (1 + 1 - 1 =? 1) with true. cbn [negb].
    rewrite (bind_Ok _ _ _ _ _ (getp_run _ _ _ Hp2)). cbn. by rewrite Hf2. }
  rewrite (bind_Ok _ _ _ _ _ R3). by eexists.
Qed.
End props.

(** An unknown system call is refused.  When %eax holds a number that has
    no entry in the table, syscall stores -1 in %eax of the caller and changes
    nothing else. *)
Theorem syscall_unknown {S} {BL : BlockLayer S} {LO : LogOps S} (pl : platform S) (c : cpu) (me : nat) (pid : Z)
    (s : ksys S) (p : proc) :
  ptable (y_k s) !! me = Some p → ¬ (1 ≤ s32 (tf_eax (p_tf p)) ≤ 21) →
  syscall pl c me pid s =
    Ok true (mkKsys (set_table (<[me := set_tf (set_eax 0xffffffff (p_tf p)) p]> (ptable (y_k s))) (y_k s)) (y_ticks s)).
Proof.
  intros Hp Hnum. unfold syscall. rewrite (bind_Ok _ _ _ _ _ (onk_getp me s p Hp)).
  destruct (syscalls pl c me pid (s32 (tf_eax (p_tf p)))) as [m|] eqn:Hs.
  - destruct Hnum. apply (syscalls_range pl c me pid). by rewrite Hs.
  - unfold set_result, onk, zoom, bind, modp. cbn. by rewrite Hp.
Qed.

(** How long sleep sleeps.  [k] ticks after sys_sleep read the clock, also
    across a wrap-around of the tick counter, the loop returns 0 if [k] has
    reached [n], fails if the process was killed, and otherwise goes to sleep on
    the clock; a negative [n] counts as n + 2^32, so that sleep(-1) does not
    return before 2^32 - 1 ticks. *)
Lemma sleep_duration {S} (c : cpu) (me : nat) (ticks0 n k : Z) (s : ksys S) (p : proc) :
  is_u32 ticks0 → is_s32 n → 0 ≤ k < 2 ^ 32 → y_ticks s = u32 (ticks0 + k) →
  ptable (y_k s) !! me = Some p → ncli c = 0 →
  if k <? (if n <? 0 then n + 2 ^ 32 else n) then
    if truthy (p_killed p) then sleep_test c me ticks0 n s = Ok (-1) s
    else ∃ s', sleep_test c me ticks0 n s = Sleeping ticks_chan s'
  else sleep_test c me ticks0 n s = Ok 0 s.
Proof.
  intros H0 Hn Hk Ht Hp Hc. unfold sleep_test. rewrite bind_gets, Ht.
  assert (u32 (u32 (ticks0 + k) - ticks0) = k) as ->.
  { unfold u32. rewrite Zminus_mod_idemp_l. replace (ticks0 + k - ticks0) with k by lia. by apply Z.mod_small. }
  assert (u32 n = if n <? 0 then n + 2 ^ 32 else n) as ->.
  { unfold is_s32 in Hn. destruct (Z.ltb_spec n 0); [|apply u32_small; unfold is_u32; lia].
    unfold u32. rewrite <- (Z.mod_unique_pos n (2 ^ 32) (-1) (n + 2 ^ 32)); lia. }
  destruct (k <? _); [|done]. rewrite (bind_Ok _ _ _ _ _ (onk_getp me s p Hp)).
  destruct (truthy (p_killed p)); [done|]. pose proof (pushed_spec c) as [Hn1 Hf1].
  destruct (sleep_sleeps me (pushed c) ticks_chan (y_k s) p Hp) as [k' Rk]; [lia|done|].
  unfold bind, onk, zoom. rewrite Rk. by eexists.
Qed.

(** ** Killed processes *)

Section killed.
Context {S : Type} {BL : BlockLayer S} {LO : LogOps S}.
Context (pl : platform S) (c : cpu) (cpu0 : bool) (me : nat) (pid : Z) (device : Z → M (kst S) unit).
Implicit Types (s : ksys S) (q : proc).

(** The state and the killed mark of the process. *)
Definition is_zombie s : Prop := ∃ q, ptable (y_k s) !! me = Some q ∧ p_state q = ZOMBIE.
Definition marked s : Prop := ∃ q, ptable (y_k s) !! me = Some q ∧ p_killed q ≠ 0.
Definition unmarked s : Prop := ∃ q, ptable (y_k s) !! me = Some q ∧ p_killed q = 0.

Lemma onk_inv {A} (m : M (kst S) A) s a s' : onk m s = Ok a s' → m (y_k s) = Ok a (y_k s').
Proof. unfold onk, zoom. destruct (m (y_k s)); naive_solver. Qed.
Lemma modp_lookup {E} f i (s s' : pst E) : modp f i s = Ok tt s' → ∃ q, ptable s !! i = Some q ∧ ptable s' !! i = Some (f q).
Proof.
  unfold modp. destruct (ptable s !! i) as [q|] eqn:Hq; [|done]. intros [= <-]. exists q. split; [done|]. cbn. apply list_lookup_insert_eq. by eapply lookup_lt_Some.
Qed.

Lemma exit_zombie {E} {PE : ProcEnv E} (s s' : pst E) : exit c me s = Ok tt s' → ∃ q, ptable s' !! me = Some q ∧ p_state q = ZOMBIE.
Proof.
  unfold exit, exit_locked. intros ([] & s1 & _ & H)%bind_Ok_inv. apply bind_Ok_inv in H as (p & s2 & _ & H). apply bind_Ok_inv in H as ([] & s3 & _ & H).
  rewrite bind_gets in H. apply bind_Ok_inv in H as ([] & s4 & _ & H). apply bind_Ok_inv in H as ([] & s5 & R5 & H).
  apply bind_Ok_inv in H as (b & s6 & ->%sched_pure & H). injection H as <-. apply modp_lookup in R5 as (q & _ & Hq). by exists (set_state ZOMBIE q).
Qed.
Lemma do_exit_zombie s out s' : do_exit pl c me pid s = Ok out s' → out = TExit ∧ is_zombie s' ∧ exit (PE:=kernel_env pl pid) c me (y_k s) = Ok tt (y_k s').
Proof. unfold do_exit. intros ([] & s1 & R%onk_inv & H)%bind_Ok_inv. injection H as <- <-. split; [done|]. split; [by eapply exit_zombie|done]. Qed.

Lemma killed_now_inv s k s' : killed_now me s = Ok k s' → s' = s ∧ if k then marked s else unmarked s.
Proof.
  unfold killed_now. intros (q & s1 & [-> Hq]%onk_getp_inv & H)%bind_Ok_inv. injection H as <- <-. split; [done|].
  unfold truthy. destruct (Z.eqb_spec (p_killed q) 0); cbn [negb]; by exists q.
Qed.
Lemma not_both s : marked s → unmarked s → False.
Proof. intros (q & Hq & H) (q' & Hq' & H'). rewrite Hq in Hq'. injection Hq' as <-. done. Qed.

(** The checks of trap. *)
Lemma returned_cases s out s' : trap_returned pl c me pid s = Ok out s' → (out = TReturn ∧ unmarked s') ∨ (out = TExit ∧ is_zombie s').
Proof.
  unfold trap_returned. intros (k & s1 & [-> Hk]%killed_now_inv & H)%bind_Ok_inv. destruct k; [|left; by injection H as <- <-]. right. by apply do_exit_zombie in H as (? & ? & _).
Qed.
Lemma checked_cases tf s out s' : user_mode tf = true → kill_check pl c me pid true tf s = Ok out s' →
  (out = TReturn ∧ s' = s ∧ unmarked s') ∨ (out = TExit ∧ is_zombie s' ∧ marked s).
Proof.
  intros Hu. unfold kill_check. rewrite Hu. cbn [andb]. intros (k & s1 & [-> Hk]%killed_now_inv & H)%bind_Ok_inv.
  destruct k; [right|left; by injection H as <- <-]. by apply do_exit_zombie in H as (? & ? & _).
Qed.
Lemma resumed_cases tf s out s' : user_mode tf = true → trap_resumed pl c me pid true tf s = Ok out s' →
  (out = TReturn ∧ s' = s ∧ unmarked s') ∨ (out = TExit ∧ is_zombie s' ∧ marked s).
Proof. apply checked_cases. Qed.

(** Only sys_exit does not return, and it leaves a zombie. *)
Lemma no_return num m s s' : syscalls pl c me pid num = Some m → m s = Ok None s' → is_zombie s'.
Proof.
  assert (∀ m' : M (ksys S) Z, (let! r := m' in ret (Some r)) s ≠ Ok None s') as Hcall.
  { intros m' (r & s1 & _ & ?)%bind_Ok_inv. done. }
  unfold syscalls. cbv zeta. destruct (num =? 1); [intros [= <-] H; by apply Hcall in H|]. destruct (num =? 2).
  { intros [= <-] ([] & s1 & R%onk_inv & H)%bind_Ok_inv. injection H as <-. by eapply exit_zombie. }
  repeat (destruct (num =? _); [intros [= <-] H; by apply Hcall in H|]). done.
Qed.
Lemma call_gone tf s s' : trap_call pl c me pid tf s = Ok false s' → is_zombie s'.
Proof.
  unfold trap_call, syscall. intros ([] & s1 & _ & H)%bind_Ok_inv. apply bind_Ok_inv in H as (p & s2 & _ & H). destruct (syscalls _ _ _ _ _) as [m|] eqn:Em.
  - apply bind_Ok_inv in H as ([r|] & s3 & R & H); [by apply bind_Ok_inv in H as (? & ? & _ & ?)|]. injection H as <-. by eapply no_return.
  - by apply bind_Ok_inv in H as (? & ? & _ & ?).
Qed.

Hypothesis Hdev : ∀ n k k' i, device n k = Ok tt k' → p_killed <$> ptable k' !! i = p_killed <$> ptable k !! i.

(** No interrupt takes the mark away. *)
Lemma handle_marked tf s s' : handle cpu0 me device true tf s = Ok tt s' → marked s → marked s'.
Proof.
  intros H (q & Hq & Hk). assert (∀ k k' : kst S, p_killed <$> ptable k' !! me = p_killed <$> ptable k !! me → ptable k !! me = Some q → ∃ q', ptable k' !! me = Some q' ∧ p_killed q' ≠ 0) as Hkeep.
  { intros k k' E E'. rewrite E' in E. destruct (ptable k' !! me) as [q'|]; [|done]. injection E as E. exists q'. by rewrite E. }
  unfold handle in H. destruct (_ =? _); [destruct cpu0|].
  - rewrite bind_modify in H. apply onk_inv in H. cbn [y_k] in H. unfold wakeup, wakeup1, modify in H. injection H as H. apply (Hkeep (y_k s)); [|done]. rewrite <- H. cbn.
    rewrite list_lookup_fmap. destruct (ptable (y_k s) !! me); [|done]. cbn. unfold wakeup_one. by case_match.
  - injection H as <-. by exists q.
  - destruct (_ || _); [apply onk_inv in H; apply (Hkeep (y_k s)); [by eapply Hdev|done]|]. destruct (_ || _); [injection H as <-; by exists q|].
    destruct (_ || _); [done|]. apply onk_inv, modp_lookup in H as (q' & _ & Hq'). by exists (set_killed 1 q').
Qed.

Lemma trap_cases tf s out s' : tf_trapno tf = T_SYSCALL ∨ user_mode tf = true → trap pl c cpu0 me pid device true tf s = Ok out s' →
  ((out = TReturn ∧ unmarked s') ∨ (out = TExit ∧ is_zombie s') ∨ (out = TYield ∧ user_mode tf = true ∧ ¬ marked s)) ∧
  (marked s → out = TExit ∧ (tf_trapno tf = T_SYSCALL → exit (PE:=kernel_env pl pid) c me (y_k s) = Ok tt (y_k s'))).
Proof.
  intros Hu. unfold trap. destruct (Z.eqb_spec (tf_trapno tf) T_SYSCALL) as [|Hne].
  - intros (k & s1 & [-> Hk]%killed_now_inv & H)%bind_Ok_inv. destruct k.
    { apply do_exit_zombie in H as (-> & Hz & Hx). auto 6. }
    split; [|intros Hm; by destruct (not_both s)]. apply bind_Ok_inv in H as (back & s2 & R & H). destruct back; cbn [negb] in H.
    + apply returned_cases in H as [?|?]; auto.
    + injection H as <- <-. apply call_gone in R. auto.
  - destruct Hu as [?|Hu]; [done|]. intros ([] & s1 & R1 & H)%bind_Ok_inv. apply bind_Ok_inv in H as (o & s2 & R2 & H). pose proof (handle_marked _ _ _ R1) as Hm.
    apply (checked_cases tf) in R2 as [(-> & -> & Hun)|(-> & Hz & _)]; [|injection H as <- <-; split; [by auto|by intros _; split]|done].
    assert (¬ marked s) as Hnot by (intros Hs; by apply (not_both s1); [apply Hm|]). split; [|done].
    apply bind_Ok_inv in H as (q & s3 & [-> _]%onk_getp_inv & H). destruct (_ && _).
    + apply bind_Ok_inv in H as (b & s4 & _ & H). injection H as <- <-. auto.
    + apply (resumed_cases tf) in H as [(-> & -> & ?)|(-> & ? & _)]; auto.
Qed.
End killed.

(** C19: a killed process does not return to user space.  However the handling of a
    trap goes, whatever happens while the process has given up the CPU in yield
    or sleeps in a system call: when it ends for a process that was in user mode
    or made a system call, either trap returns and the process is not marked
    killed, or the process has become a zombie.  A process that is marked when
    the trap comes does not return and does not give up the CPU either: it exits
    at once, and if the trap is a system call, that call is not made.  The
    interrupt handlers of the devices must not change the mark. *)
Theorem killed_never_returns {S} {BL : BlockLayer S} {LO : LogOps S} (pl : platform S) (c : cpu) (cpu0 : bool)
    (me : nat) (pid : Z) (device : Z → M (kst S) unit) (tf : trapframe) (s : ksys S) (out : trap_out) (s' : ksys S) :
  (∀ n k k' i, device n k = Ok tt k' → p_killed <$> ptable k' !! i = p_killed <$> ptable k !! i) →
  tf_trapno tf = T_SYSCALL ∨ user_mode tf = true →
  trap_run pl c cpu0 me pid device tf s out s' →
  ((out = TReturn ∧ ∃ q, ptable (y_k s') !! me = Some q ∧ p_killed q = 0) ∨
   (out = TExit ∧ ∃ q, ptable (y_k s') !! me = Some q ∧ p_state q = ZOMBIE)) ∧
  ((∃ p, ptable (y_k s) !! me = Some p ∧ p_killed p ≠ 0) →
   out = TExit ∧ (tf_trapno tf = T_SYSCALL → exit (PE:=kernel_env pl pid) c me (y_k s) = Ok tt (y_k s'))).
Proof.
  intros Hdev Hu [R Hne|s1 s2 R1 R2|ch s1 s2 E Hk _ R2].
  - destruct (trap_cases pl c cpu0 me pid device Hdev tf s out s' Hu R) as [[?|[?|[? _]]] H]; [auto..|done].
  - destruct (trap_cases pl c cpu0 me pid device Hdev tf s TYield s1 Hu R1) as [[[? _]|[[? _]|(_ & Hm & Hnot)]] _]; [done..|].
    split; [|intros H; by destruct Hnot]. apply resumed_cases in R2 as [(-> & _ & ?)|(-> & ? & _)]; auto.
  - apply killed_now_inv in Hk as [_ Hk]. split; [by eapply returned_cases|]. intros Hm. by destruct (not_both me s).
Qed.

(** ** Examples *)

Definition sys_state : ksys tx := mkKsys fd_state 0xfffffffe.
Definition quiet_cpu : cpu := mkCpu 0 false true.

Lemma syscall_unknown_witness :
  @syscall tx (ram_layer 30 30) ram_ops demo_platform quiet_cpu 0 1 sys_state =
    Ok true (mkKsys (set_table (<[O := set_tf (set_eax 0xffffffff zero_tf) fd_proc]> [fd_proc]) fd_state) 0xfffffffe).
Proof.
  apply (@syscall_unknown tx (ram_layer 30 30) ram_ops demo_platform quiet_cpu 0 1 sys_state fd_proc); [reflexivity|].
  vm_compute. intros [H _]. apply H. reflexivity.
Defined.

(** Three ticks later, past the wrap-around, a sleep of five goes on. *)
Lemma sleep_duration_witness :
  ∃ s', sleep_test quiet_cpu 0 0xfffffffe 5 (mkKsys fd_state 1) = Sleeping ticks_chan s'.
Proof.
  apply (sleep_duration quiet_cpu 0 0xfffffffe 5 3 (mkKsys fd_state 1) fd_proc);
    [split; lia|split; lia|lia|reflexivity|reflexivity|reflexivity].
Defined.

(** A timer interrupt in user mode: the process yields, another one kills it, and
    when it runs again it exits. *)
Definition timer_tf : trapframe := mkTf 0 0 0 0 0 0 0 0 0 0 0 0 32 0 0 27 0 0 0.
Definition user_proc : proc := set_cwd (Some O) (set_state RUNNING (set_ofile (replicate NOFILE None) one_proc)).
Definition user_state : ksys tx :=
  mkKsys (mkPst (mkFist (mkFsst (mkTx ∅ ∅ ∅ ∅) (mkSb 0 0 0 0 0 0 0) [empty_dir]) [] ∅ (mkKmem one_page 0 0 0)) [zero_proc; user_proc] 2 (Some O)) 5.
Definition no_device (n : Z) : M (kst tx) unit := ret tt.
Definition state_after {A} (r : res (ksys tx) A) : ksys tx := match r with Ok _ s => s | Sleeping _ s => s | _ => user_state end.
Definition yielded : ksys tx := state_after (@trap tx (ram_layer 30 30) ram_ops demo_platform quiet_cpu true 1 1 no_device true timer_tf user_state).
Definition marked_state : ksys tx := state_after (onk (kill 1) yielded).
Definition run_again : ksys tx := state_after (onk (dispatch 1) marked_state).
Definition exited : ksys tx := state_after (@trap_resumed tx (ram_layer 30 30) ram_ops demo_platform quiet_cpu 1 1 true timer_tf run_again).

Lemma killed_never_returns_witness :
  @trap_run tx (ram_layer 30 30) ram_ops demo_platform quiet_cpu true 1 1 no_device timer_tf user_state TExit exited ∧
  ∃ q, ptable (y_k exited) !! 1%nat = Some q ∧ p_state q = ZOMBIE.
Proof.
  assert (@trap_run tx (ram_layer 30 30) ram_ops demo_platform quiet_cpu true 1 1 no_device timer_tf user_state TExit exited) as R.
  { apply (run_yield _ _ _ _ _ _ _ _ _ _ yielded run_again); vm_compute; reflexivity. }
  split; [exact R|].
  destruct (@killed_never_returns tx (ram_layer 30 30) ram_ops demo_platform quiet_cpu true 1 1 no_device timer_tf user_state TExit exited) as [[[? _]|[_ H]] _].
  - intros n k k' i [= <-]. reflexivity.
  - right. reflexivity.
  - exact R.
  - discriminate.
  - exact H.
Defined.
