(* ===== verification/Printf.v ===== *)
(** * Formatted output: printf.c (user library)

    [printint] fills a buffer of sixteen bytes backwards; the model keeps the
    bytes stored so far and gives [None] when a store would leave the buffer.
    [printf] is the state machine of the source; the words after the format
    on the stack are a function of their position, and a string argument is
    looked up in [strs], the NUL-terminated string at an address.  The result
    is the bytes written to the descriptor, in order. *)
From S2P Require Import Prelude Str.

(** The characters of a literal of the source. *)
Definition chars (s : string) : list Z := (λ a, Z.of_nat (Ascii.nat_of_ascii a)) <$> String.list_ascii_of_string s.

Definition BUFSIZE : nat := 16.
Definition upper_digits : list Z := chars "0123456789ABCDEF".
Definition lower_digits : list Z := chars "0123456789abcdef".

(** [do buf[i++] = digits[x % base]; while((x /= base) != 0)], [n] bytes left. *)
Fixpoint digit_loop (digits : list Z) (base x : Z) (n : nat) : option (list Z) :=
  match n with
  | O => None
  | S n =>
      let d := nth (Z.to_nat (x `mod` base)) digits 0 in
      if x / base =? 0 then Some [d] else cons d <$> digit_loop digits base (x / base) n
  end.

(** The body both [printint] functions share: the buffer is filled from its
    first byte and written out from its last. *)
Definition int_text (digits : list Z) (xx base : Z) (sgn : bool) : option (list Z) :=
  let neg := sgn && (xx <? 0) in
  let x := if neg then u32 (- xx) else u32 xx in
  buf ← digit_loop digits base x BUFSIZE;
  if neg then
    (if (length buf <? BUFSIZE)%nat then Some (rev (buf ++ [45])) else None)
  else Some (rev buf).

Definition printint (xx base : Z) (sgn : bool) : option (list Z) := int_text upper_digits xx base sgn.

Section format.
(** The words after the format, and the strings in memory. *)
Context (args : nat → Z) (strs : Z → list Z).

Definition null_text : list Z := chars "(null)".

(** [state] is [true] after a percent sign (37); [ap] counts the words used. *)
Fixpoint printf_loop (fmt : list Z) (state : bool) (ap : nat) : option (list Z) :=
  match fmt with
  | [] => Some []
  | ch :: fmt =>
      let c := Z.land ch 255 in
      if negb state then
        if c =? 37 then printf_loop fmt true ap
        else cons (u8 c) <$> printf_loop fmt false ap
      else if c =? 100 then
        t ← printint (s32 (args ap)) 10 true; app t <$> printf_loop fmt false (S ap)
      else if (c =? 120) || (c =? 112) then
        t ← printint (s32 (args ap)) 16 false; app t <$> printf_loop fmt false (S ap)
      else if c =? 115 then
        let s := args ap in
        app (if s =? 0 then null_text else strs s) <$> printf_loop fmt false (S ap)
      else if c =? 99 then cons (u8 (args ap)) <$> printf_loop fmt false (S ap)
      else if c =? 37 then cons (u8 c) <$> printf_loop fmt false ap
      else app [37; u8 c] <$> printf_loop fmt false ap
  end.
Definition printf (fmt : list Z) : option (list Z) := printf_loop fmt false 0.
End format.

(** ** Numerals *)

(** The value of a decimal numeral, most significant digit first. *)
Definition dec_val (l : list Z) : Z := foldl (λ n c, n * 10 + (c - 48)) 0 l.
Definition is_digit (c : Z) : Prop := 48 ≤ c ≤ 57.

Lemma dec_val_snoc l c : dec_val (l ++ [c]) = dec_val l * 10 + (c - 48).
Proof. unfold dec_val. by rewrite foldl_app. Qed.

Lemma nth_digit (digits := upper_digits) d : 0 ≤ d < 10 → nth (Z.to_nat d) digits 0 = 48 + d.
Proof.
  intros Hd. assert (d = 0 ∨ d = 1 ∨ d = 2 ∨ d = 3 ∨ d = 4 ∨ d = 5 ∨ d = 6 ∨ d = 7 ∨ d = 8 ∨ d = 9) as H by lia.
  by repeat destruct H as [->|H]; [..|subst d].
Qed.

(** What the digit loop leaves in the buffer, read backwards, is the shortest
    decimal numeral of [x]. *)
Lemma digit_loop_spec (n : nat) x :
  0 ≤ x < 10 ^ n → (0 < n)%nat →
  ∃ ds, digit_loop upper_digits 10 x n = Some ds ∧ (length ds ≤ n)%nat ∧ ds ≠ [] ∧
    Forall is_digit ds ∧ dec_val (rev ds) = x ∧
    (x = 0 ∧ ds = [48] ∨ 0 < x ∧ head (rev ds) ≠ Some 48).
Proof.
  revert x; induction n as [|n IH]; intros x Hx Hn; [lia|]. cbn [digit_loop].
  assert (0 ≤ x `mod` 10 < 10) as Hd by (apply Z.mod_pos_bound; lia).
  rewrite nth_digit by done.
  destruct (Z.eqb_spec (x / 10) 0) as [H0|H0].
  - assert (x `mod` 10 = x) as -> by (Z.div_mod_to_equations; lia).
    exists [48 + x]. split; [done|]. split; [simpl; lia|]. split; [done|].
    assert (0 ≤ x < 10) by (Z.div_mod_to_equations; lia).
    split; [repeat constructor; unfold is_digit; lia|]. unfold dec_val; simpl. split; [lia|].
    destruct (decide (x = 0)) as [->|]; [by left|right]. split; [lia|]. intros [=]; lia.
  - destruct (IH (x / 10)) as (ds & R & Hl & Hne & Hds & Hv & Hh).
    { rewrite Nat2Z.inj_succ, Z.pow_succ_r in Hx by lia. Z.div_mod_to_equations; lia. }
    { destruct n; [|lia]. exfalso. change (10 ^ 1%nat) with 10 in Hx. Z.div_mod_to_equations; lia. }
    rewrite R. exists (48 + x `mod` 10 :: ds). split; [done|]. split; [simpl; lia|]. split; [done|].
    split; [constructor; [unfold is_digit; lia|done]|].
    simpl rev. rewrite dec_val_snoc, Hv. split; [Z.div_mod_to_equations; lia|].
    right. split; [Z.div_mod_to_equations; lia|].
    destruct Hh as [[? _]|[_ Hh]]; [done|]. destruct (rev ds) as [|y l] eqn:E; [|done].
    apply (f_equal (@length Z)) in E. rewrite length_rev in E. destruct ds; simpl in E; [done|lia].
Qed.

(** [printint] in base 10 prints the sign and the shortest numeral, for every
    [int] including the most negative one, within eleven bytes. *)
Lemma printint_decimal xx : is_s32 xx →
  ∃ ds, printint xx 10 true = Some ((if xx <? 0 then [45] else []) ++ ds) ∧
    Forall is_digit ds ∧ dec_val ds = Z.abs xx ∧ (length ds ≤ 10)%nat ∧
    (head ds = Some 48 → ds = [48]).
Proof.
  intros Hx. unfold is_s32 in Hx.
  assert (∃ ds, digit_loop upper_digits 10 (Z.abs xx) BUFSIZE = Some ds ∧ (length ds ≤ 10)%nat ∧
    Forall is_digit (rev ds) ∧ dec_val (rev ds) = Z.abs xx ∧ (head (rev ds) = Some 48 → rev ds = [48])) as (ds & R & Hl & Hd & Hv & Hh).
  { destruct (digit_loop_spec 10 (Z.abs xx)) as (ds & R & Hl & _ & Hd & Hv & Hh); [lia..|].
    assert (∀ n x ds k, digit_loop upper_digits 10 x n = Some ds → digit_loop upper_digits 10 x (n + k) = Some ds) as Hmono.
    { clear. induction n as [|n IH]; intros x ds k; [done|]; cbn [digit_loop Nat.add]. destruct (_ =? _); [done|].
      destruct (digit_loop _ _ _ n) as [l|] eqn:E; [|done]. by rewrite (IH _ _ k E). }
    exists ds. split; [exact (Hmono 10%nat _ _ 6%nat R)|]. split; [done|].
    split; [by apply Forall_rev|]. split; [done|].
    destruct Hh as [[_ ->]|[_ Hh]]; [done|]. by intros ?. }
  exists (rev ds). rewrite length_rev. split; [|done]. unfold printint, int_text.
  destruct (Z.ltb_spec xx 0); simpl andb; cbn iota.
  - rewrite u32_small by (unfold is_u32; lia). replace (- xx) with (Z.abs xx) by lia. rewrite R. cbn [mbind option_bind].
    destruct (Nat.ltb_spec (length ds) BUFSIZE); [|unfold BUFSIZE in *; lia]. by rewrite rev_app_distr.
  - rewrite u32_small by (unfold is_u32; lia). rewrite <- (Z.abs_eq xx) at 1 by lia. by rewrite R.
Qed.

(** [atoi] evaluates a numeral that fits an [int]. *)
Lemma atoi_from_digits s ds i n fuel :
  Forall is_digit ds → 0 ≤ n → (∀ k, s (i + k)%nat = cstr ds k) → (length ds < fuel)%nat →
  foldl (λ n c, n * 10 + (c - 48)) n ds < 2 ^ 31 →
  atoi_from s i n fuel = Some (foldl (λ n c, n * 10 + (c - 48)) n ds).
Proof.
  intros Hds. revert i n fuel. induction Hds as [|c ds Hc Hds IH]; intros i n fuel Hn Hs Hf Hb;
    (destruct fuel as [|fuel]; [simpl in Hf; lia|]); simpl in *.
  - pose proof (Hs O) as H0. rewrite Nat.add_0_r in H0. rewrite H0. done.
  - pose proof (Hs O) as H0. rewrite Nat.add_0_r in H0. rewrite H0. change (cstr (c :: ds) O) with c. unfold is_digit in Hc.
    assert ((48 <=? c) && (c <=? 57) = true) as -> by (zcases; lia).
    assert (∀ l m, 0 ≤ m → Forall is_digit l → m ≤ foldl (λ n c, n * 10 + (c - 48)) m l) as Hmono.
    { clear. intros l. induction l as [|c l IH]; intros m Hm; simpl; [lia|]. intros [Hc Hl]%Forall_cons_1.
      unfold is_digit in Hc. specialize (IH (m * 10 + (c - 48))). specialize (IH ltac:(lia) Hl). lia. }
    pose proof (Hmono ds (n * 10 + (c - 48)) ltac:(lia) Hds) as Hle.
    replace (n * 10 + c - 48) with (n * 10 + (c - 48)) by lia.
    rewrite s32_small by (unfold is_s32; lia). apply IH; try done; try lia.
    intros k. specialize (Hs (S k)). by rewrite Nat.add_succ_r in Hs.
Qed.

(** Reading back with [atoi] what [printf] prints for a decimal gives the
    number; the sign of a negative one is printed in front of the numeral of
    its absolute value. *)
Lemma printf_atoi_roundtrip args strs n :
  is_s32 n → args O = u32 n →
  ∃ ds, printf args strs (chars "%d") = Some ((if n <? 0 then [45] else []) ++ ds) ∧
    dec_val ds = Z.abs n ∧ (- 2 ^ 31 < n → atoi (cstr ds) (S (length ds)) = Some (Z.abs n)).
Proof.
  intros Hn Ha. destruct (printint_decimal n Hn) as (ds & R & Hd & Hv & _ & _).
  exists ds. unfold printf. change (chars "%d") with [37; 100]. cbn -[printint atoi].
  assert (s32 (args O) = n) as ->.
  { rewrite Ha. unfold s32, u32. rewrite Zmod_mod. apply (s32_small n Hn). }
  rewrite R. cbn -[atoi]. rewrite app_nil_r. split; [done|]. split; [done|]. intros Hmin.
  unfold atoi. unfold dec_val in Hv. unfold is_s32 in Hn. rewrite <- Hv.
  apply atoi_from_digits; rewrite ?Hv; auto with lia.
Qed.
