(* ===== verification/Mkfs.v ===== *)
(** * The file-system builder: mkfs.c

    mkfs runs on the development host and writes the image a kernel starts
    from.  The state is the image (its sectors), the superblock it fills in, and
    the next free inode and block.  The host is little-endian, so [xint] and
    [xshort] keep a value in range; a structure written to the image is its
    little-endian bytes, as in Fs.v.  [exit(1)] and a failed assertion are
    [panic]. *)
From S2P Require Import Prelude Str Sleeplock Memide Log BlockLayer Fs Printf.

Definition NINODES : Z := 200.
Definition FSSIZE : Z := 1000.
Definition nbitmap : Z := FSSIZE / (BSIZE * 8) + 1.
Definition ninodeblocks : Z := NINODES / IPB + 1.
Definition nlog : Z := 30.

Definition xshort (x : Z) : Z := le_val (le_bytes 2 x).
Definition xint (x : Z) : Z := le_val (le_bytes 4 x).

Record mkst := mkMk { mk_img : gmap Z bytes; mk_sb : superblock; freeinode : Z; freeblock : Z }.
Definition set_img (i : gmap Z bytes) (s : mkst) : mkst := mkMk i (mk_sb s) (freeinode s) (freeblock s).

(** The sector at the file offset [sec * BSIZE], computed as a uint. *)
Definition at_sector (sec : Z) : Z := u32 (sec * BSIZE) / BSIZE.

Definition wsect (sec : Z) (buf : bytes) : M mkst unit :=
  modify (λ s, set_img (<[at_sector sec := buf]> (mk_img s)) s).
Definition rsect (sec : Z) : M mkst bytes := λ s,
  match mk_img s !! at_sector sec with Some d => Ok d s | None => Panic "read" end.

Definition winode (inum : Z) (ip : dinode) : M mkst unit :=
  let! sb := gets mk_sb in
  let bn := IBLOCK inum sb in
  let! buf := rsect bn in
  wsect bn (list_inserts (dinode_off inum) (encode_dinode ip) buf).

Definition rinode (inum : Z) : M mkst dinode :=
  let! sb := gets mk_sb in
  let! buf := rsect (IBLOCK inum sb) in
  ret (decode_dinode buf (dinode_off inum)).

(** [freeinode++] and [freeblock++]. *)
Definition next_inode : M mkst Z := λ s,
  Ok (freeinode s) (mkMk (mk_img s) (mk_sb s) (u32 (freeinode s + 1)) (freeblock s)).
Definition next_block : M mkst Z := λ s,
  Ok (freeblock s) (mkMk (mk_img s) (mk_sb s) (freeinode s) (u32 (freeblock s + 1))).

Definition ialloc (type : Z) : M mkst Z :=
  let! inum := next_inode in
  do! winode inum (mkDinode (xshort type) 0 0 (xshort 1) (xint 0) (replicate (S NDIRECT) 0)) in
  ret inum.

(** The first [used] bits of the map. *)
Definition used_bits (used : Z) : bytes :=
  foldl (λ buf i, set_bit buf (Z.of_nat i)) (replicate BSIZE 0) (seq 0 (Z.to_nat used)).
Definition balloc (used : Z) : M mkst unit :=
  if negb (used <? BSIZE * 8) then panic "assert" else
  let! sb := gets mk_sb in
  wsect (sb_bmapstart sb) (used_bits used).

Definition set_addr (k : nat) (b : Z) (d : dinode) : dinode :=
  mkDinode (di_type d) (di_major d) (di_minor d) (di_nlink d) (di_size d) (<[k := b]> (di_addrs d)).
Definition set_size (n : Z) (d : dinode) : dinode :=
  mkDinode (di_type d) (di_major d) (di_minor d) (di_nlink d) n (di_addrs d).

(** The block [x] of file block [fbn], allocated if need be. *)
Definition file_block (din : dinode) (fbn : nat) : M mkst (dinode * Z) :=
  if (fbn <? NDIRECT)%nat then
    let! din := (if xint (nth fbn (di_addrs din) 0) =? 0 then let! b := next_block in ret (set_addr fbn (xint b) din) else ret din) in
    ret (din, xint (nth fbn (di_addrs din) 0))
  else
    let! din := (if xint (nth NDIRECT (di_addrs din) 0) =? 0 then let! b := next_block in ret (set_addr NDIRECT (xint b) din) else ret din) in
    let! indirect := rsect (xint (nth NDIRECT (di_addrs din) 0)) in
    let! indirect :=
      (if rd32 indirect (4 * (fbn - NDIRECT)) =? 0 then
         let! b := next_block in
         let indirect := wr32 indirect (4 * (fbn - NDIRECT)) (xint b) in
         do! wsect (xint (nth NDIRECT (di_addrs din) 0)) indirect in
         ret indirect
       else ret indirect) in
    ret (din, xint (rd32 indirect (4 * (fbn - NDIRECT)))).

(** [while(n > 0)] of [iappend]; [p] is what is left to append. *)
Fixpoint iappend_loop (din : dinode) (off : Z) (p : bytes) (fuel : nat) : M mkst (dinode * Z) :=
  match fuel with
  | O => λ _, Fuel
  | S fuel =>
      let n := Z.of_nat (length p) in
      if negb (0 <? n) then ret (din, off) else
      let fbn := off / BSIZE in
      if MAXFILE <=? fbn then panic "assert" else
      let! (din, x) := file_block din (Z.to_nat fbn) in
      let n1 := Z.min n (u32 ((fbn + 1) * BSIZE - off)) in
      let! buf := rsect x in
      do! wsect x (list_inserts (Z.to_nat (off - fbn * BSIZE)) (take (Z.to_nat n1) p) buf) in
      iappend_loop din (u32 (off + n1)) (drop (Z.to_nat n1) p) fuel
  end.

Definition iappend (inum : Z) (p : bytes) : M mkst unit :=
  let! din := rinode inum in
  let! (din, off) := iappend_loop din (xint (di_size din)) p (S (length p)) in
  winode inum (set_size (xint off) din).

(** A directory entry after [bzero], the inode number and the name. *)
Definition dirent (inum : Z) (name : list Z) : bytes := mk_dirent (xshort inum) (strncpy (cstr name) DIRSIZ).

(** [while((cc = read(fd, buf, sizeof(buf))) > 0)]: reads give full blocks as long
    as the file lasts. *)
Fixpoint copy_loop (inum : Z) (data : bytes) (fuel : nat) : M mkst unit :=
  match fuel with
  | O => λ _, Fuel
  | S fuel =>
      match take BSIZE data with
      | [] => ret tt
      | buf => do! iappend inum buf in copy_loop inum (drop BSIZE data) fuel
      end
  end.

(** One file of the command line: its name and, if it can be opened, its data. *)
Definition add_file (rootino : Z) (f : list Z * option bytes) : M mkst unit :=
  let '(name, data) := f in
  if bool_decide (47 ∈ name) then panic "assert" else
  match data with
  | None => panic "open"
  | Some data =>
      let name := (match name with c :: rest => if c =? 95 then rest else name | [] => name end) in
      let! inum := ialloc T_FILE in
      do! iappend rootino (dirent inum name) in
      copy_loop inum data (S (length data))
  end.

Definition encode_sb (sb : superblock) : bytes :=
  concat (le_bytes 4 <$> [sb_size sb; sb_nblocks sb; sb_ninodes sb; sb_nlog sb; sb_logstart sb; sb_inodestart sb; sb_bmapstart sb]).

Definition nmeta : Z := 2 + nlog + ninodeblocks + nbitmap.
Definition the_sb : superblock :=
  mkSb (xint FSSIZE) (xint (FSSIZE - nmeta)) (xint NINODES) (xint nlog) (xint 2) (xint (2 + nlog)) (xint (2 + nlog + ninodeblocks)).

Definition main (files : list (list Z * option bytes)) : M mkst unit :=
  do! modify (λ s, mkMk (mk_img s) the_sb (freeinode s) nmeta) in
  do! for_each (seq 0 (Z.to_nat FSSIZE)) (λ i, wsect i (replicate BSIZE 0)) in
  do! wsect 1 (list_inserts 0 (encode_sb the_sb) (replicate BSIZE 0)) in
  let! rootino := ialloc T_DIR in
  if negb (rootino =? ROOTINO) then panic "assert" else
  do! iappend rootino (dirent rootino (chars ".")) in
  do! iappend rootino (dirent rootino (chars "..")) in
  do! for_each files (add_file rootino) in
  let! din := rinode rootino in
  let off := xint (di_size din) in
  let off := u32 ((off / BSIZE + 1) * BSIZE) in
  do! winode rootino (set_size (xint off) din) in
  let! used := gets freeblock in
  balloc used.

(** The program at start: the image file is empty. *)
Definition mk_start : mkst := mkMk ∅ (mkSb 0 0 0 0 0 0 0) 1 0.
