(* ===== verification/MkfsInv.v ===== *)
(** * The image that mkfs builds

    [fblocks] says which blocks hold the contents of a file; [mk_rep] that the
    image under construction holds a list of files whose blocks are disjoint.
    The theorem: mkfs ends, and on its image the file system of Fs.v finds the
    superblock, the files with their contents, the root directory and the map
    of free blocks. *)
From S2P Require Import Prelude Str Sleeplock Memide Log BlockLayer Fs FsAlloc FsFile Printf Mkfs.

(** Blocks of a file of [m] bytes, without and with its indirect block. *)
Definition nblk (m : nat) : nat := (m + 511) / 512.
Definition need (m : nat) : nat := nblk m + (if (12 <? nblk m)%nat then 1 else 0).

Definition ind_of (addrs : list Z) : Z := nth 12 addrs 0.
Definition own (addrs ds : list Z) : list Z := ds ++ (if ind_of addrs =? 0 then [] else [ind_of addrs]).

(** The inode addresses [addrs] lead to the data blocks [ds], which hold the
    bytes [c], followed by zeros. *)
Record fblocks (img : gmap Z bytes) (addrs ds : list Z) (c : bytes) : Prop := {
  fb_len : length addrs = 13%nat;
  fb_u32 : Forall is_u32 addrs;
  fb_direct : ∀ k, (k < 12)%nat → nth k addrs 0 = nth k ds 0;
  fb_ind0 : (length ds ≤ 12)%nat → ind_of addrs = 0;
  fb_ind : (12 < length ds)%nat → ind_of addrs ≠ 0 ∧ ∃ a, img !! ind_of addrs = Some a ∧ length a = 512%nat ∧
    ∀ k, (k < 128)%nat → rd32 a (4 * k) = nth (12 + k) ds 0;
  fb_blk : ∀ k b, ds !! k = Some b → ∃ d, img !! b = Some d ∧ length d = 512%nat ∧
    ∀ i, (i < 512)%nat → nth i d 0 = nth (512 * k + i) c 0;
  fb_fit : (length c ≤ 512 * length ds)%nat }.

Lemma fblocks_frame img img' addrs ds c : fblocks img addrs ds c →
  (∀ b, b ∈ own addrs ds → img' !! b = img !! b) → fblocks img' addrs ds c.
Proof.
  intros H0 H. pose proof H0 as []. split; try done.
  - intros Hl. destruct (fb_ind _ _ _ _ H0 Hl) as (Hz & a & Ha & Hrest). split; [done|]. exists a. split; [|done]. rewrite <- Ha. apply H.
    unfold own. rewrite (proj2 (Z.eqb_neq _ _) Hz). apply elem_of_app. right. by apply list_elem_of_singleton.
  - intros k b Hk. destruct (fb_blk _ _ _ _ H0 k b Hk) as (d & Hd & Hrest). exists d. split; [|done]. rewrite <- Hd. apply H.
    unfold own. apply elem_of_app. left. by eapply list_elem_of_lookup_2.
Qed.

(** The state of the builder: all sectors are there, the free ones are zero. *)
Record mk_ok (s : mkst) : Prop := {
  mo_sb : mk_sb s = the_sb;
  mo_free : nmeta ≤ freeblock s ≤ FSSIZE;
  mo_dom : ∀ b, is_Some (mk_img s !! b) → 0 ≤ b < FSSIZE;
  mo_img : ∀ b, 0 ≤ b < FSSIZE → ∃ d, mk_img s !! b = Some d ∧ length d = 512%nat;
  mo_zero : ∀ b, freeblock s ≤ b < FSSIZE → mk_img s !! b = Some (replicate BSIZE 0) }.

Lemma at_sector_id b : 0 ≤ b < FSSIZE → at_sector b = b.
Proof. unfold at_sector, FSSIZE. intros H. rewrite u32_small by (unfold is_u32, BSIZE; lia). by rewrite Z.div_mul. Qed.

Lemma rsect_run s b d : 0 ≤ b < FSSIZE → mk_img s !! b = Some d → rsect b s = Ok d s.
Proof. intros Hb Hd. unfold rsect. by rewrite at_sector_id, Hd. Qed.
Lemma wsect_run s b d : 0 ≤ b < FSSIZE → wsect b d s = Ok tt (set_img (<[b := d]> (mk_img s)) s).
Proof. intros Hb. unfold wsect, modify. by rewrite at_sector_id. Qed.

Lemma mk_ok_write s b d : mk_ok s → length d = 512%nat → 0 ≤ b < freeblock s → mk_ok (set_img (<[b := d]> (mk_img s)) s).
Proof.
  intros [Hsb Hf Hdm Hi Hz] Hd Hb. split; try done; cbn.
  - intros c. destruct (decide (c = b)) as [->|]; [lia|rewrite lookup_insert_ne by done; apply Hdm].
  - intros c Hc. destruct (decide (c = b)) as [->|]; [rewrite lookup_insert_eq; eauto|rewrite lookup_insert_ne by done; by apply Hi].
  - intros c Hc. rewrite lookup_insert_ne by lia. by apply Hz.
Qed.

Lemma xint_small x : is_u32 x → xint x = x.
Proof. intros H. unfold xint. rewrite (le_val_le_bytes 4). by apply u32_small. Qed.

Lemma next_block_ok s : mk_ok s → freeblock s < FSSIZE →
  next_block s = Ok (freeblock s) (mkMk (mk_img s) (mk_sb s) (freeinode s) (freeblock s + 1)) ∧
  mk_ok (mkMk (mk_img s) (mk_sb s) (freeinode s) (freeblock s + 1)).
Proof.
  intros [Hsb Hf Hdm Hi Hz] Hlt. unfold next_block. rewrite u32_small by (unfold is_u32, FSSIZE in *; change nmeta with 59 in *; lia). split; [done|].
  split; cbn [mk_sb freeblock mk_img]; [done|lia|done|done|]. intros b Hb. apply Hz. lia.
Qed.

(** ** A block for the end of a file *)

(** What the two ways of finding a block have in common. *)
Record extended (s s' : mkst) (addrs addrs' ds ds' : list Z) (c : bytes) : Prop := {
  ex_ok : mk_ok s';
  ex_blocks : fblocks (mk_img s') addrs' ds' c;
  ex_nodup : NoDup (own addrs' ds');
  ex_range : Forall (λ b, nmeta ≤ b < freeblock s') (own addrs' ds');
  ex_inode : freeinode s' = freeinode s;
  ex_free : freeblock s' = freeblock s + (length (own addrs' ds') - length (own addrs ds));
  ex_frame : ∀ b, 0 ≤ b < freeblock s → b ∉ own addrs ds → mk_img s' !! b = mk_img s !! b;
  ex_new : ∀ b, b ∈ own addrs' ds' → b ∈ own addrs ds ∨ freeblock s ≤ b }.

Lemma extended_refl s addrs ds c : mk_ok s → fblocks (mk_img s) addrs ds c → NoDup (own addrs ds) →
  Forall (λ b, nmeta ≤ b < freeblock s) (own addrs ds) → extended s s addrs addrs ds ds c.
Proof. intros. split; try done; [lia|]. by left. Qed.

Lemma extended_trans s1 s2 s3 a1 a2 a3 ds1 ds2 ds3 c c' :
  extended s1 s2 a1 a2 ds1 ds2 c → freeblock s1 ≤ freeblock s2 → extended s2 s3 a2 a3 ds2 ds3 c' → extended s1 s3 a1 a3 ds1 ds3 c'.
Proof.
  intros [] Hle [Hok3 Hb3 Hn3 Hr3 Hi3 Hf3 Hfr3 Hnew3]. split; try done; [congruence|lia| |].
  - intros b Hb Hno. rewrite Hfr3; [by apply ex_frame0|lia|]. intros Hin. destruct (ex_new0 b Hin); [done|lia].
  - intros b Hb. destruct (Hnew3 b Hb) as [Hin|Hge]; [by apply ex_new0|right; lia].
Qed.

Lemma nth_repeat_zero n i : nth i (replicate n 0) 0 = (0 : Z).
Proof. revert i. induction n as [|n IH]; intros [|i]; simpl; auto. Qed.
Lemma nth_snoc (ds : list Z) b k : nth k (ds ++ [b]) 0 = if decide (k = length ds) then b else nth k ds 0.
Proof.
  destruct (decide (k = length ds)) as [->|Hne]; [by rewrite app_nth2, Nat.sub_diag by lia|].
  destruct (decide (k < length ds)%nat); [by rewrite app_nth1 by lia|]. rewrite (nth_overflow ds), nth_overflow by (rewrite ?length_app; simpl; lia). done.
Qed.
Lemma nth_insert (l : list Z) k j b : (k < length l)%nat → nth j (<[k := b]> l) 0 = if decide (j = k) then b else nth j l 0.
Proof.
  intros Hk. rewrite !nth_lookup. destruct (decide (j = k)) as [->|Hne]; [by rewrite list_lookup_insert_eq|by rewrite list_lookup_insert_ne].
Qed.

(** The zero block at the end of the file. *)
Lemma fb_blk_snoc (img img' : gmap Z bytes) (ds : list Z) (c : bytes) (b : Z) : (∀ k b, ds !! k = Some b → ∃ d, img !! b = Some d ∧ length d = 512%nat ∧
    ∀ i, (i < 512)%nat → nth i d 0 = nth (512 * k + i) c 0) →
  (∀ b', b' ∈ ds → img' !! b' = img !! b') → img' !! b = Some (replicate BSIZE 0) → (length c ≤ 512 * length ds)%nat →
  ∀ k b', (ds ++ [b]) !! k = Some b' → ∃ d, img' !! b' = Some d ∧ length d = 512%nat ∧
    ∀ i, (i < 512)%nat → nth i d 0 = nth (512 * k + i) c 0.
Proof.
  intros Hblk Hfr Hz Hfit k b' Hk. apply lookup_app_Some in Hk as [Hk|[Hge Hk]].
  - rewrite Hfr by (by eapply list_elem_of_lookup_2). by apply Hblk.
  - apply list_lookup_singleton_Some in Hk as [Hk <-]. exists (replicate BSIZE 0). split; [done|]. split; [apply length_replicate|].
    intros i Hi. rewrite nth_repeat_zero, (nth_overflow c) by lia. done.
Qed.

Lemma range_cons hi hi' l b : nmeta ≤ b < hi' → hi ≤ hi' → Forall (λ b, nmeta ≤ b < hi) l → Forall (λ b, nmeta ≤ b < hi') (b :: l).
Proof. intros Hb Hle Hl. constructor; [done|]. revert Hl. apply Forall_impl. intros ? ?. lia. Qed.

(** The fields of an inode other than its addresses. *)
Definition same_fields (x y : dinode) : Prop :=
  di_type y = di_type x ∧ di_major y = di_major x ∧ di_minor y = di_minor x ∧ di_nlink y = di_nlink x ∧ di_size y = di_size x.

Section block.
Context (s : mkst) (din : dinode) (ds : list Z) (c : bytes) (fbn : nat).
Context (Hok : mk_ok s) (Hb : fblocks (mk_img s) (di_addrs din) ds c) (Hnd : NoDup (own (di_addrs din) ds)).
Context (Hrg : Forall (λ b, nmeta ≤ b < freeblock s) (own (di_addrs din) ds)) (Hfbn : (fbn < 140)%nat).

Lemma own_range b : b ∈ own (di_addrs din) ds → 59 ≤ b < freeblock s.
Proof. intros H. pose proof (proj1 (list.Forall_forall _ _) Hrg b H) as Hx. exact Hx. Qed.
Lemma ds_range b : b ∈ ds → 59 ≤ b < freeblock s.
Proof. intros H. apply own_range. unfold own. apply elem_of_app. by left. Qed.
Lemma ds_nth k : (k < length ds)%nat → 59 ≤ nth k ds 0 < freeblock s.
Proof. intros H. apply ds_range. destruct (lookup_lt_is_Some_2 ds k H) as [b E]. rewrite (nth_lookup_Some _ _ _ _ E). by eapply list_elem_of_lookup_2. Qed.

Lemma free_u32 : is_u32 (freeblock s).
Proof. pose proof (mo_free _ Hok) as H. change nmeta with 59 in H. unfold FSSIZE, is_u32 in *. lia. Qed.
Lemma block_u32 b : b < freeblock s → 0 ≤ b → is_u32 b.
Proof. pose proof free_u32. unfold is_u32 in *. lia. Qed.

(** An existing block. *)
Lemma file_block_old : length ds = S fbn → file_block din fbn s = Ok (din, nth fbn ds 0) s.
Proof.
  intros Hl. pose proof (ds_nth fbn ltac:(lia)) as Hx. pose proof (mo_free _ Hok) as Hfr. unfold file_block, NDIRECT.
  assert (xint (nth fbn ds 0) = nth fbn ds 0) as Ex by (apply xint_small; apply block_u32; lia).
  destruct (Nat.ltb_spec fbn 12) as [Hlt|Hge].
  - rewrite (fb_direct _ _ _ _ Hb) by lia. rewrite Ex. rewrite (proj2 (Z.eqb_neq (nth fbn ds 0) 0)) by lia. rewrite bind_ret.
    by rewrite (fb_direct _ _ _ _ Hb), Ex by lia.
  - destruct (fb_ind _ _ _ _ Hb ltac:(lia)) as (Hz & a & Ha & Hal & Hent). fold (ind_of (di_addrs din)).
    assert (59 ≤ ind_of (di_addrs din) < freeblock s) as Hi.
    { apply own_range. unfold own. rewrite (proj2 (Z.eqb_neq _ _) Hz). apply elem_of_app. right. by apply list_elem_of_singleton. }
    assert (xint (ind_of (di_addrs din)) = ind_of (di_addrs din)) as Ei by (apply xint_small; apply block_u32; lia).
    rewrite Ei, (proj2 (Z.eqb_neq _ _) Hz), bind_ret. change (nth 12 (di_addrs din) 0) with (ind_of (di_addrs din)). rewrite Ei.
    erewrite bind_Ok; [|apply (rsect_run s _ _); [unfold FSSIZE in *; lia|exact Ha]].
    rewrite Hent by lia. replace (12 + (fbn - 12))%nat with fbn by lia. rewrite (proj2 (Z.eqb_neq (nth fbn ds 0) 0)) by lia. rewrite bind_ret.
    rewrite Hent by lia. replace (12 + (fbn - 12))%nat with fbn by lia. by rewrite Ex.
Qed.

Lemma own_snoc b : own (di_addrs din) (ds ++ [b]) ≡ₚ b :: own (di_addrs din) ds.
Proof. unfold own. solve_Permutation. Qed.

Lemma fresh_own b : freeblock s ≤ b → b ∉ own (di_addrs din) ds.
Proof. intros Hle Hin. pose proof (own_range b Hin). lia. Qed.

(** A new direct block. *)
Lemma file_block_direct : length ds = fbn → (fbn < 12)%nat → freeblock s < FSSIZE →
  ∃ s' din', file_block din fbn s = Ok (din', freeblock s) s' ∧ same_fields din din' ∧
    extended s s' (di_addrs din) (di_addrs din') ds (ds ++ [freeblock s]) c.
Proof.
  intros Hl Hlt Hfree. destruct (next_block_ok s Hok Hfree) as [R Hok']. set (b := freeblock s) in *.
  pose proof (mo_free _ Hok) as Hfr. change nmeta with 59 in Hfr. fold b in Hfr. pose proof free_u32 as Hu. fold b in Hu.
  pose proof (fb_len _ _ _ _ Hb) as Hlen.
  unfold file_block, NDIRECT. rewrite (proj2 (Nat.ltb_lt fbn 12) Hlt), (fb_direct _ _ _ _ Hb), (nth_overflow ds) by lia.
  change (xint 0 =? 0) with true. cbn iota. rewrite bind_assoc. mstep R. rewrite bind_ret. cbn [di_addrs set_addr].
  rewrite nth_insert, decide_True, !xint_small by (done || lia). set (s1 := mkMk _ _ _ _) in *. exists s1, (set_addr fbn b din). split; [done|]. split; [done|].
  cbn [di_addrs set_addr]. assert (ind_of (<[fbn:=b]> (di_addrs din)) = ind_of (di_addrs din)) as Eind.
  { unfold ind_of. rewrite nth_insert, decide_False by lia. done. }
  assert (own (<[fbn:=b]> (di_addrs din)) (ds ++ [b]) ≡ₚ b :: own (di_addrs din) ds) as Hperm by (rewrite <- own_snoc; unfold own; by rewrite Eind).
  split; [done| | | |done| |done|].
  - split; rewrite ?Eind.
    + by rewrite length_insert.
    + apply Forall_insert; [apply Hb|done].
    + intros k Hk. rewrite nth_insert, nth_snoc, Hl by lia. destruct (decide (k = fbn)); [done|]. by apply Hb.
    + intros _. apply Hb. lia.
    + rewrite length_app. simpl. lia.
    + apply (fb_blk_snoc (mk_img s)); [apply Hb|done| |apply Hb]. apply (mo_zero _ Hok). lia.
    + pose proof (fb_fit _ _ _ _ Hb). rewrite length_app. simpl. lia.
  - rewrite Hperm. apply list.NoDup_cons. split; [|done]. apply fresh_own. done.
  - rewrite Hperm. apply (range_cons b (freeblock s1) (own (di_addrs din) ds) b); [change nmeta with 59; cbn [freeblock s1]; lia|cbn; lia|done].
  - rewrite Hperm. cbn [freeblock length s1]. lia.
  - intros x. rewrite Hperm. intros [->|Hx]%elem_of_cons; [by right|by left].
Qed.

(** The indirect block [i] with its entries [a], allocated if there was none. *)
Record indirect (s1 : mkst) (din1 : dinode) (a : bytes) : Prop := {
  in_ok : mk_ok s1;
  in_img : mk_img s1 = mk_img s;
  in_inode : freeinode s1 = freeinode s;
  in_rest : same_fields din din1;
  in_nonzero : ind_of (di_addrs din1) ≠ 0;
  in_block : mk_img s !! ind_of (di_addrs din1) = Some a;
  in_length : length a = 512%nat;
  in_entries : ∀ k, (k < 128)%nat → rd32 a (4 * k) = nth (12 + k) ds 0;
  in_direct : ∀ k, (k < 12)%nat → nth k (di_addrs din1) 0 = nth k ds 0;
  in_addrs : length (di_addrs din1) = 13%nat ∧ Forall is_u32 (di_addrs din1);
  in_nodup : NoDup (ds ++ [ind_of (di_addrs din1)]);
  in_range : Forall (λ b, nmeta ≤ b < freeblock s1) (ds ++ [ind_of (di_addrs din1)]);
  in_free : freeblock s1 = freeblock s + (S (length ds) - length (own (di_addrs din) ds));
  in_fresh : ind_of (di_addrs din1) ∈ own (di_addrs din) ds ∨ freeblock s ≤ ind_of (di_addrs din1) }.

Lemma rd32_zeros n k : rd32 (replicate n 0) k = 0.
Proof.
  unfold rd32, subarr. rewrite drop_replicate, take_replicate. generalize (4 `min` (n - k))%nat. intros m.
  induction m as [|m IH]; [done|]. simpl. by rewrite IH.
Qed.

Lemma find_indirect : length ds = fbn → (12 ≤ fbn)%nat → freeblock s + 2 ≤ FSSIZE ∨ ((12 < fbn)%nat ∧ freeblock s < FSSIZE) →
  ∃ s1 din1 a, (if xint (nth NDIRECT (di_addrs din) 0) =? 0 then let! b := next_block in ret (set_addr NDIRECT (xint b) din) else ret din) s = Ok din1 s1 ∧
    indirect s1 din1 a.
Proof.
  intros Hl Hge Hroom. pose proof (mo_free _ Hok) as Hfr. change nmeta with 59 in Hfr. pose proof free_u32 as Hu.
  pose proof (fb_len _ _ _ _ Hb) as Hlen. unfold NDIRECT. change (nth 12 (di_addrs din) 0) with (ind_of (di_addrs din)).
  destruct (decide (fbn = 12%nat)) as [E12|Hne].
  - rewrite (fb_ind0 _ _ _ _ Hb) by lia. change (xint 0 =? 0) with true. cbn iota.
    destruct (next_block_ok s Hok ltac:(lia)) as [R Hok']. mstep R. set (s1 := mkMk _ _ _ _) in *. rewrite xint_small by done.
    eexists s1, _, (replicate BSIZE 0). split; [done|].
    assert (ind_of (di_addrs (set_addr 12 (freeblock s) din)) = freeblock s) as Ei.
    { unfold ind_of. cbn. rewrite nth_insert, decide_True by (done || lia). done. }
    assert (own (di_addrs din) ds = ds) as Eo by (unfold own; rewrite (fb_ind0 _ _ _ _ Hb) by lia; by rewrite app_nil_r).
    split; rewrite ?Ei; try done.
    + lia.
    + apply (mo_zero _ Hok). lia.
    + intros k Hk. rewrite rd32_zeros, nth_overflow by lia. done.
    + intros k Hk. cbn. rewrite nth_insert, decide_False by lia. by apply Hb.
    + cbn. rewrite length_insert. split; [done|]. apply Forall_insert; [apply Hb|done].
    + rewrite <- Eo. apply list.NoDup_app. split; [done|]. split; [|apply NoDup_singleton].
      intros x Hx Hx'. apply list_elem_of_singleton in Hx' as ->. by apply (fresh_own (freeblock s)).
    + rewrite Permutation_app_comm. cbn [app]. rewrite Eo in Hrg. eapply range_cons; [change nmeta with 59; cbn [freeblock s1]; lia| |exact Hrg]. cbn; lia.
    + rewrite Eo. cbn [freeblock s1]. lia.
    + right. lia.
  - destruct (fb_ind _ _ _ _ Hb ltac:(lia)) as (Hz & a & Ha & Hal & Hent).
    assert (own (di_addrs din) ds = ds ++ [ind_of (di_addrs din)]) as Eo by (unfold own; by rewrite (proj2 (Z.eqb_neq _ _) Hz)).
    assert (ind_of (di_addrs din) ∈ own (di_addrs din) ds) as Hin by (rewrite Eo; apply elem_of_app; right; by apply list_elem_of_singleton).
    pose proof (own_range _ Hin) as Hi. rewrite xint_small by (apply block_u32; lia). rewrite (proj2 (Z.eqb_neq _ _) Hz).
    exists s, din, a. split; [done|]. split; try done.
    + apply Hb.
    + split; apply Hb.
    + by rewrite <- Eo.
    + by rewrite <- Eo.
    + rewrite Eo, length_app. simpl. lia.
    + by left.
Qed.

(** A new block with its entry in the indirect block. *)
Lemma file_block_indirect : length ds = fbn → (12 ≤ fbn)%nat → freeblock s + 2 ≤ FSSIZE ∨ ((12 < fbn)%nat ∧ freeblock s < FSSIZE) →
  ∃ s' din' b, file_block din fbn s = Ok (din', b) s' ∧ same_fields din din' ∧
    extended s s' (di_addrs din) (di_addrs din') ds (ds ++ [b]) c.
Proof.
  intros Hl Hge Hroom. destruct (find_indirect Hl Hge Hroom) as (s1 & din1 & a & R1 & [Hok1 Eimg Eino Hsame Hz Ha Hal Hent Hdir [Hl13 Hu32] Hnd1 Hrg1 Hfr1 Hfresh]).
  pose proof (mo_free _ Hok) as Hfr. change nmeta with 59 in Hfr. pose proof free_u32 as Hu.
  set (i := ind_of (di_addrs din1)) in *. set (b := freeblock s1).
  assert (59 ≤ i < b) as Hi.
  { apply (proj1 (list.Forall_forall _ _) Hrg1). apply elem_of_app. right. by apply list_elem_of_singleton. }
  assert (length (own (di_addrs din) ds) = if decide (fbn = 12)%nat then fbn else S fbn) as Hol.
  { unfold own. rewrite length_app, Hl. case_decide as E12.
    - rewrite (fb_ind0 _ _ _ _ Hb) by lia. simpl. lia.
    - destruct (fb_ind _ _ _ _ Hb ltac:(lia)) as (Hz' & _). rewrite (proj2 (Z.eqb_neq _ _) Hz'). simpl. lia. }
  assert (b < FSSIZE) as HbF by (unfold b; rewrite Hfr1, Hol, Hl; case_decide; lia).
  destruct (next_block_ok s1 Hok1 HbF) as [R2 Hok2]. fold b in R2, Hok2. set (s2 := mkMk _ _ _ _) in *.
  assert (is_u32 b) as Hub by (unfold is_u32, FSSIZE in *; lia). assert (is_u32 i) as Hui by (unfold is_u32 in *; lia).
  set (a' := wr32 a (4 * (fbn - 12)) b). assert (length a' = 512%nat) as Hal' by (unfold a'; by rewrite length_wr32).
  pose proof (mk_ok_write s2 i a' Hok2 Hal' ltac:(cbn; lia)) as Hok3. set (s3 := set_img _ s2) in *.
  assert (b ∉ ds ++ [i]) as Hbn. { intros Hin. apply (proj1 (list.Forall_forall _ _) Hrg1) in Hin. unfold b in Hin. lia. }
  assert (i ∉ ds) as Hids by (apply list.NoDup_app in Hnd1 as (_ & Hx & _); intros Hin; apply (Hx i Hin); by apply list_elem_of_singleton).
  assert (own (di_addrs din1) (ds ++ [b]) ≡ₚ b :: ds ++ [i]) as Hperm.
  { unfold own. fold i. rewrite (proj2 (Z.eqb_neq _ _) Hz). solve_Permutation. }
  exists s3, din1, b. split; [|split; [done|]].
  - unfold file_block. rewrite (proj2 (Nat.ltb_ge fbn NDIRECT)) by (unfold NDIRECT; lia). mstep R1. fold i. unfold NDIRECT. fold i.
    change (nth 12 (di_addrs din1) 0) with i. rewrite (xint_small i Hui). erewrite bind_Ok; [|apply rsect_run; [lia|rewrite Eimg; exact Ha]].
    rewrite Hent by lia. rewrite (nth_overflow ds) by lia. cbn [Z.eqb]. rewrite bind_assoc. mstep R2. rewrite xint_small by done. fold a'.
    rewrite bind_assoc. erewrite bind_Ok; [|apply wsect_run; lia]. rewrite bind_ret. unfold ret. do 2 f_equal.
    unfold a'. rewrite rd32_wr32_eq by lia. rewrite u32_small by done. by apply xint_small.
  - split; [done| | | |done| | |].
    + split; fold i.
      * done.
      * done.
      * intros k Hk. rewrite nth_snoc, decide_False by lia. by apply Hdir.
      * rewrite length_app. simpl. lia.
      * intros _. split; [done|]. exists a'. split; [apply lookup_insert_eq|]. split; [done|]. intros k Hk. rewrite nth_snoc. unfold a'.
        destruct (decide (12 + k = length ds)%nat) as [E|E].
        -- replace k with (fbn - 12)%nat by lia. rewrite rd32_wr32_eq by lia. by apply u32_small.
        -- rewrite rd32_wr32_ne by lia. by apply Hent.
      * apply (fb_blk_snoc (mk_img s)); [apply Hb| | |apply Hb]; cbn.
        -- intros b' Hb'. rewrite lookup_insert_ne by (intros ->; done). by rewrite Eimg.
        -- rewrite lookup_insert_ne by lia. apply (mo_zero _ Hok1). fold b. lia.
      * pose proof (fb_fit _ _ _ _ Hb). rewrite length_app. simpl. lia.
    + rewrite Hperm. by apply list.NoDup_cons.
    + rewrite Hperm. eapply range_cons; [change nmeta with 59; cbn [freeblock s3 set_img s2]; lia| |exact Hrg1]. cbn; lia.
    + rewrite Hperm. cbn [freeblock s3 set_img s2 length]. rewrite length_app. unfold b. rewrite Hfr1. simpl. lia.
    + intros b' Hb' Hno. cbn. rewrite lookup_insert_ne, Eimg; [done|]. intros <-. destruct Hfresh as [Hf|Hf]; [done|lia].
    + intros x. rewrite Hperm. intros [->|[Hx|Hx]%elem_of_app]%elem_of_cons; [right; unfold b; rewrite Hfr1, Hol, Hl; case_decide; lia| |].
      * left. unfold own. apply elem_of_app. by left.
      * apply list_elem_of_singleton in Hx as ->. exact Hfresh.
Qed.
End block.

Lemma own_length img addrs ds c : fblocks img addrs ds c → length (own addrs ds) = (length ds + if (12 <? length ds)%nat then 1 else 0)%nat.
Proof.
  intros H. unfold own. rewrite length_app. destruct (Nat.ltb_spec 12 (length ds)) as [Hlt|Hge].
  - destruct (fb_ind _ _ _ _ H Hlt) as [Hz _]. by rewrite (proj2 (Z.eqb_neq _ _) Hz).
  - by rewrite (fb_ind0 _ _ _ _ H) by lia.
Qed.

Lemma nblk_step m : nblk m = (if decide (m `mod` 512 = 0) then m / 512 else S (m / 512))%nat.
Proof.
  unfold nblk. pose proof (Nat.div_mod_eq m 512) as H. pose proof (Nat.mod_upper_bound m 512 ltac:(lia)) as Hm. case_decide as E.
  - symmetry. apply (Nat.div_unique _ _ _ 511); lia.
  - symmetry. apply (Nat.div_unique _ _ _ (m `mod` 512 - 1)); lia.
Qed.
Lemma nblk_succ m : nblk (S m) = S (m / 512).
Proof. unfold nblk. replace (S m + 511)%nat with (m + 1 * 512)%nat by lia. rewrite Nat.div_add by lia. lia. Qed.
Lemma nblk_mono m n : (m ≤ n)%nat → (nblk m ≤ nblk n)%nat.
Proof. intros H. unfold nblk. apply Nat.Div0.div_le_mono. lia. Qed.
Lemma need_mono m n : (m ≤ n)%nat → (need m ≤ need n)%nat.
Proof. intros H%nblk_mono. unfold need. destruct (Nat.ltb_spec 12 (nblk m)), (Nat.ltb_spec 12 (nblk n)); lia. Qed.

(** The block the next byte goes to. *)
Lemma file_block_spec s din ds c : mk_ok s → fblocks (mk_img s) (di_addrs din) ds c → NoDup (own (di_addrs din) ds) →
  Forall (λ b, nmeta ≤ b < freeblock s) (own (di_addrs din) ds) → length ds = nblk (length c) → (length c < 140 * 512)%nat →
  freeblock s + (need (S (length c)) - need (length c)) ≤ FSSIZE →
  ∃ s' din' ds' x, file_block din (length c / 512) s = Ok (din', x) s' ∧ same_fields din din' ∧
    extended s s' (di_addrs din) (di_addrs din') ds ds' c ∧ ds' !! (length c / 512)%nat = Some x ∧ length ds' = S (length c / 512).
Proof.
  intros Hok Hb Hnd Hrg Hl Hmax Hroom. set (fbn := (length c / 512)%nat) in *.
  assert (fbn < 140)%nat as Hfbn by (apply Nat.Div0.div_lt_upper_bound; lia).
  unfold need in Hroom. rewrite nblk_succ in Hroom. rewrite nblk_step in Hl, Hroom. fold fbn in Hl, Hroom. destruct (decide (length c `mod` 512 = 0)%nat).
  - destruct (decide (fbn < 12)%nat) as [Hlt|Hge].
    + destruct (file_block_direct s din ds c fbn Hok Hb Hnd Hrg Hfbn Hl Hlt) as (s' & din' & R & Hs & He).
      { destruct (Nat.ltb_spec 12 (S fbn)), (Nat.ltb_spec 12 fbn); lia. }
      exists s', din', (ds ++ [freeblock s]), (freeblock s). split; [done|]. split; [done|]. split; [done|]. rewrite <- Hl. split; [apply list_lookup_middle; done|].
      rewrite length_app. simpl. lia.
    + destruct (file_block_indirect s din ds c fbn Hok Hb Hnd Hrg Hfbn Hl ltac:(lia)) as (s' & din' & x & R & Hs & He).
      { destruct (Nat.ltb_spec 12 (S fbn)), (Nat.ltb_spec 12 fbn); lia. }
      exists s', din', (ds ++ [x]), x. split; [done|]. split; [done|]. split; [done|]. rewrite <- Hl. split; [apply list_lookup_middle; done|].
      rewrite length_app. simpl. lia.
  - exists s, din, ds, (nth fbn ds 0). split; [by eapply file_block_old|]. split; [done|]. split; [by apply extended_refl|]. split; [|done].
    destruct (lookup_lt_is_Some_2 ds fbn) as [x Hx]; [lia|]. by rewrite (nth_lookup_Some _ _ _ _ Hx).
Qed.

(** ** Appending bytes *)

(** The bytes [p1] go into the last block. *)
Lemma write_spec s addrs ds c x p1 d : mk_ok s → fblocks (mk_img s) addrs ds c → NoDup (own addrs ds) →
  Forall (λ b, nmeta ≤ b < freeblock s) (own addrs ds) → length ds = S (length c / 512) → ds !! (length c / 512)%nat = Some x →
  mk_img s !! x = Some d → (length c `mod` 512 + length p1 ≤ 512)%nat →
  extended s (set_img (<[x := list_inserts (length c `mod` 512) p1 d]> (mk_img s)) s) addrs addrs ds ds (c ++ p1).
Proof.
  intros Hok Hb Hnd Hrg Hl Hx Hd Hfit. set (fbn := (length c / 512)%nat) in *. set (o := (length c `mod` 512)%nat) in *.
  assert (length c = 512 * fbn + o)%nat as Ec by (apply Nat.div_mod_eq).
  assert (x ∈ own addrs ds) as Hin by (unfold own; apply elem_of_app; left; by eapply list_elem_of_lookup_2).
  assert (59 ≤ x < freeblock s) as Hxr by (pose proof (proj1 (list.Forall_forall _ _) Hrg x Hin) as E; exact E).
  destruct (fb_blk _ _ _ _ Hb fbn x Hx) as (d' & Hd' & Hdl & Hbytes). rewrite Hd in Hd'. injection Hd' as <-.
  assert (NoDup ds) as Hnds by (unfold own in Hnd; by apply list.NoDup_app in Hnd as [? _]).
  split; try done.
  - apply mk_ok_write; [done|by rewrite length_inserts|lia].
  - split; try apply Hb; cbn [mk_img set_img].
    + intros H12. destruct (fb_ind _ _ _ _ Hb H12) as (Hz & a & Ha & Hrest). split; [done|]. exists a. split; [|done].
      rewrite lookup_insert_ne; [done|]. intros ->. unfold own in Hnd. rewrite (proj2 (Z.eqb_neq _ _) Hz) in Hnd.
      apply list.NoDup_app in Hnd as (_ & Hdis & _). eapply (Hdis (ind_of addrs)); [by eapply list_elem_of_lookup_2|by apply list_elem_of_singleton].
    + intros k b Hk. destruct (decide (k = fbn)) as [->|Hne].
      * rewrite Hx in Hk. injection Hk as <-. rewrite lookup_insert_eq. eexists. split; [done|]. split; [by rewrite length_inserts|]. intros i Hi.
        rewrite nth_lookup. destruct (decide (i < o)%nat) as [Hio|Hio].
        -- rewrite list_lookup_inserts_lt, <- nth_lookup, Hbytes, app_nth1 by lia. done.
        -- destruct (decide (i < o + length p1)%nat) as [Hip|Hip].
           ++ rewrite list_lookup_inserts, <- nth_lookup by lia. rewrite app_nth2 by lia. f_equal. lia.
           ++ rewrite list_lookup_inserts_ge, <- nth_lookup, Hbytes by lia. rewrite !nth_overflow; [done|rewrite length_app; lia|lia].
      * destruct (fb_blk _ _ _ _ Hb k b Hk) as (d1 & Hd1 & Hl1 & Hb1). exists d1.
        rewrite lookup_insert_ne by (intros ->; apply Hne; by eapply NoDup_lookup). split; [done|]. split; [done|]. intros i Hi.
        pose proof (lookup_lt_Some _ _ _ Hk). rewrite app_nth1 by lia. by apply Hb1.
    + rewrite length_app. lia.
  - cbn; lia.
  - intros b Hbr Hno. cbn. rewrite lookup_insert_ne; [done|]. by intros ->.
  - by left.
Qed.

Lemma iappend_loop_spec fuel : ∀ s din ds c p, mk_ok s → fblocks (mk_img s) (di_addrs din) ds c → NoDup (own (di_addrs din) ds) →
  Forall (λ b, nmeta ≤ b < freeblock s) (own (di_addrs din) ds) → length ds = nblk (length c) → (length c + length p ≤ 140 * 512)%nat →
  freeblock s + (need (length c + length p) - need (length c)) ≤ FSSIZE → (length p < fuel)%nat →
  ∃ s' din' ds', iappend_loop din (length c) p fuel s = Ok (din', Z.of_nat (length c + length p)) s' ∧ same_fields din din' ∧
    extended s s' (di_addrs din) (di_addrs din') ds ds' (c ++ p) ∧ length ds' = nblk (length c + length p).
Proof.
  induction fuel as [|fuel IH]; intros s din ds c p Hok Hb Hnd Hrg Hl Hmax Hroom Hf; [lia|]. cbn [iappend_loop].
  destruct p as [|p0 p'] eqn:Ep.
  { cbn [length Z.of_nat]. cbn. exists s, din, ds. rewrite app_nil_r, Nat.add_0_r. split; [done|]. split; [done|]. split; [by apply extended_refl|done]. }
  rewrite <- Ep in *. assert (0 < length p)%nat as Hp by (rewrite Ep; simpl; lia). clear Ep p0 p'.
  rewrite (proj2 (Z.ltb_lt 0 (length p))) by lia. cbn [negb].
  set (m := length c) in *. set (fbn := (m / 512)%nat). pose proof (Nat.div_mod_eq m 512) as Em. fold fbn in Em.
  pose proof (Nat.mod_upper_bound m 512 ltac:(lia)) as Hmod. set (o := (m `mod` 512)%nat) in *.
  change (Z.of_nat BSIZE) with 512. assert (Z.of_nat m / 512 = Z.of_nat fbn) as -> by (unfold fbn; by rewrite (Nat2Z.inj_div m 512)).
  assert (fbn < 140)%nat as Hfbn by (apply Nat.Div0.div_lt_upper_bound; lia).
  rewrite (proj2 (Z.leb_gt MAXFILE fbn)) by (unfold MAXFILE; lia). rewrite Nat2Z.id.
  pose proof (need_mono (S m) (m + length p) ltac:(lia)) as Hn1. pose proof (need_mono m (S m) ltac:(lia)) as Hn0.
  destruct (file_block_spec s din ds c Hok Hb Hnd Hrg Hl) as (s1 & din1 & ds1 & x & R1 & Hs1 & He1 & Hx & Hl1); [fold m; lia|fold m; lia|].
  fold m in Hx, Hl1, R1. fold fbn in Hx, Hl1, R1. mstep R1. pose proof He1 as [Hok1 Hb1 Hnd1 Hrg1 Hi1 Hf1 Hfr1 Hnew1].
  set (n1 := (length p `min` (512 - o))%nat).
  assert (Z.to_nat (Z.min (length p) (u32 ((fbn + 1) * 512 - m))) = n1 ∧ Z.min (length p) (u32 ((fbn + 1) * 512 - m)) = n1) as [En1 En1'].
  { rewrite u32_small by (unfold is_u32; lia). unfold n1. lia. }
  rewrite En1, En1'. destruct (fb_blk _ _ _ _ Hb1 fbn x Hx) as (d & Hd & Hdl & _).
  assert (59 ≤ x < freeblock s1) as Hxr.
  { apply (proj1 (list.Forall_forall _ _) Hrg1). unfold own. apply elem_of_app. left. by eapply list_elem_of_lookup_2. }
  pose proof (mo_free _ Hok1) as Hfree1. erewrite bind_Ok; [|apply rsect_run; [lia|exact Hd]]. erewrite bind_Ok; [|apply wsect_run; lia].
  replace (Z.to_nat (m - fbn * 512)) with o by lia.
  pose proof (write_spec s1 (di_addrs din1) ds1 c x (take n1 p) d Hok1 Hb1 Hnd1 Hrg1 Hl1 Hx Hd ltac:(fold m; fold o; rewrite length_take; lia)) as He2.
  fold m in He2. fold o in He2. set (s2 := set_img _ s1) in *. pose proof He2 as [Hok2 Hb2 Hnd2 Hrg2 Hi2 Hf2 Hfr2 Hnew2].
  assert (length (take n1 p) = n1) as Hn by (rewrite length_take; lia).
  assert (length (c ++ take n1 p) = m + n1)%nat as Hcn by (rewrite length_app, Hn; done).
  rewrite u32_small by (unfold is_u32; lia). replace (Z.of_nat m + Z.of_nat n1) with (Z.of_nat (length (c ++ take n1 p))) by lia.
  assert (length ds1 = nblk (m + n1)) as Hl2.
  { rewrite Hl1. unfold nblk. rewrite Em. unfold n1. destruct (decide (length p ≤ 512 - o)%nat).
    - rewrite Nat.min_l by lia. apply (Nat.div_unique _ _ _ (o + length p - 1)); lia.
    - rewrite Nat.min_r by lia. apply (Nat.div_unique _ _ _ 511); lia. }
  assert (freeblock s2 = freeblock s + (need (m + n1) - need m)) as Hfr.
  { rewrite Hf2, Hf1, (own_length _ _ _ _ Hb1), (own_length _ _ _ _ Hb), Hl2, Hl. unfold need. lia. }
  pose proof (need_mono (m + n1) (m + length p) ltac:(lia)) as Hn3. pose proof (need_mono m (m + n1) ltac:(lia)) as Hn4.
  destruct (IH s2 din1 ds1 (c ++ take n1 p) (drop n1 p) Hok2 Hb2 Hnd2 Hrg2) as (s' & din' & ds' & R & Hs & He & Hl').
  { by rewrite Hcn. } { rewrite Hcn, length_drop. lia. }
  { rewrite Hcn, length_drop. replace (m + n1 + (length p - n1))%nat with (m + length p)%nat by lia. lia. } { rewrite length_drop. lia. }
  exists s', din', ds'. rewrite Hcn, length_drop in R, Hl'. replace (m + n1 + (length p - n1))%nat with (m + length p)%nat in R, Hl' by lia.
  rewrite Hcn, R. split; [done|]. split; [|split; [|done]].
  - destruct Hs1 as (?&?&?&?&?), Hs as (?&?&?&?&?). unfold same_fields. split_and!; congruence.
  - rewrite <- app_assoc, take_drop in He. eapply extended_trans; [exact He1|lia|]. eapply extended_trans; [exact He2|cbn; lia|exact He].
Qed.

(** ** The image under construction *)

Record mfile := mkFile { mf_type : Z; mf_data : bytes; mf_addrs : list Z; mf_blocks : list Z }.
Definition owned (f : mfile) : list Z := own (mf_addrs f) (mf_blocks f).

Definition inode_sector (inum : Z) : Z := 32 + inum / 8.
Definition get_inode (img : gmap Z bytes) (inum : Z) : dinode := decode_dinode (default [] (img !! inode_sector inum)) (dinode_off inum).
Definition inode_of (f : mfile) : dinode := mkDinode (mf_type f) 0 0 1 (length (mf_data f)) (mf_addrs f).

(** The contents of a file are where its inode says. *)
Record file_ok (img : gmap Z bytes) (f : mfile) : Prop := {
  fo_blocks : fblocks img (mf_addrs f) (mf_blocks f) (mf_data f);
  fo_len : length (mf_blocks f) = nblk (length (mf_data f));
  fo_max : (length (mf_data f) ≤ 140 * 512)%nat;
  fo_type : is_s16 (mf_type f) }.

Definition sb_block : bytes := list_inserts 0 (encode_sb the_sb) (replicate BSIZE 0).
Definition meta_block (b : Z) : bytes := if b =? 1 then sb_block else replicate BSIZE 0.

Record mk_rep (s : mkst) (F : list mfile) : Prop := {
  mr_ok : mk_ok s;
  mr_next : freeinode s = length F + 1;
  mr_count : length F < NINODES;
  mr_meta : ∀ b, 0 ≤ b < 32 ∨ b = 58 → mk_img s !! b = Some (meta_block b);
  mr_inode : ∀ (k : nat) f, F !! k = Some f → get_inode (mk_img s) (k + 1) = inode_of f;
  mr_unused : ∀ i, length F + 1 ≤ i < NINODES → di_type (get_inode (mk_img s) i) = 0;
  mr_file : ∀ f, f ∈ F → file_ok (mk_img s) f;
  mr_nodup : NoDup (concat (owned <$> F));
  mr_range : Forall (λ b, nmeta ≤ b < freeblock s) (concat (owned <$> F));
  mr_free : freeblock s = nmeta + sum_list_with (λ f, need (length (mf_data f))) F }.

Lemma inode_sector_range i : 0 ≤ i < NINODES → 32 ≤ inode_sector i < 57 ∧ IBLOCK i the_sb = inode_sector i.
Proof.
  unfold NINODES, inode_sector. intros Hi. assert (0 ≤ i / 8 < 25) as H by (split; [apply Z.div_pos; lia|apply Z.div_lt_upper_bound; lia]).
  split; [lia|]. unfold IBLOCK, IPB. change (sb_inodestart the_sb) with 32. rewrite u32_small by (unfold is_u32; lia). lia.
Qed.

Lemma inode_of_wf img f : file_ok img f → dinode_wf (inode_of f).
Proof.
  intros [[] _ Hm Ht]. split; cbn; unfold is_s16, is_u32 in *; try done; lia.
Qed.

Lemma winode_spec s i x : mk_ok s → 0 ≤ i < NINODES → dinode_wf x →
  ∃ d, winode i x s = Ok tt (set_img (<[inode_sector i := d]> (mk_img s)) s) ∧
    mk_ok (set_img (<[inode_sector i := d]> (mk_img s)) s) ∧
    get_inode (<[inode_sector i := d]> (mk_img s)) i = x ∧
    ∀ j, j ≠ i → get_inode (<[inode_sector i := d]> (mk_img s)) j = get_inode (mk_img s) j.
Proof.
  intros Hok Hi Hx. destruct (inode_sector_range i Hi) as [Hs Eb]. pose proof (mo_free _ Hok) as Hf. change nmeta with 59 in Hf.
  destruct (mo_img _ Hok (inode_sector i)) as (d & Hd & Hl); [unfold FSSIZE; lia|].
  exists (list_inserts (dinode_off i) (encode_dinode x) d). unfold winode. rewrite bind_gets, (mo_sb _ Hok), Eb.
  erewrite bind_Ok; [|apply rsect_run; [unfold FSSIZE; lia|exact Hd]]. rewrite wsect_run by (unfold FSSIZE; lia). split; [done|]. split; [|split].
  - apply mk_ok_write; [done|by rewrite length_inserts|lia].
  - unfold get_inode. rewrite lookup_insert_eq. by apply dinode_store_eq.
  - intros j Hj. unfold get_inode. destruct (decide (inode_sector j = inode_sector i)) as [E|E]; [|by rewrite lookup_insert_ne].
    rewrite E, lookup_insert_eq, Hd. apply dinode_store_ne; [done|]. unfold inode_sector, IPB in *.
    pose proof (Z.div_mod i 8 ltac:(lia)). pose proof (Z.div_mod j 8 ltac:(lia)). lia.
Qed.

Lemma rinode_spec s i : mk_ok s → 0 ≤ i < NINODES → rinode i s = Ok (get_inode (mk_img s) i) s.
Proof.
  intros Hok Hi. destruct (inode_sector_range i Hi) as [Hs Eb]. destruct (mo_img _ Hok (inode_sector i)) as (d & Hd & Hl); [unfold FSSIZE; lia|].
  unfold rinode. rewrite bind_gets, (mo_sb _ Hok), Eb. erewrite bind_Ok; [|apply rsect_run; [unfold FSSIZE; lia|exact Hd]].
  unfold get_inode. by rewrite Hd.
Qed.

Lemma file_ok_frame img img' f : file_ok img f → (∀ b, b ∈ owned f → img' !! b = img !! b) → file_ok img' f.
Proof. intros [] H. split; try done. by eapply fblocks_frame. Qed.

(** Files up to the one that changes, that one, and the others. *)
Lemma owned_split F1 f F2 : concat (owned <$> F1 ++ f :: F2) ≡ₚ owned f ++ concat (owned <$> F1 ++ F2).
Proof. rewrite !fmap_app, fmap_cons, !concat_app. cbn. solve_Permutation. Qed.

Lemma in_owned f F b : f ∈ F → b ∈ owned f → b ∈ concat (owned <$> F).
Proof.
  intros Hf Hb. rewrite list_elem_of_In, in_concat. exists (owned f). rewrite <- !list_elem_of_In. split; [|done].
  by apply (list_elem_of_fmap_2 owned).
Qed.

(** A new file record in place of [f]: enough is known of the image. *)
Lemma mk_rep_update s s' F1 f f' F2 : mk_rep s (F1 ++ f :: F2) → mk_ok s' → freeinode s' = freeinode s →
  file_ok (mk_img s') f' → get_inode (mk_img s') (length F1 + 1) = inode_of f' →
  (∀ i, 0 ≤ i < NINODES → i ≠ length F1 + 1 → get_inode (mk_img s') i = get_inode (mk_img s) i) →
  (∀ b, 0 ≤ b < 32 ∨ b = 58 → mk_img s' !! b = mk_img s !! b) →
  (∀ b, b ∈ concat (owned <$> F1 ++ F2) → mk_img s' !! b = mk_img s !! b) →
  NoDup (owned f') → Forall (λ b, nmeta ≤ b < freeblock s') (owned f') → (∀ b, b ∈ owned f' → b ∈ owned f ∨ freeblock s ≤ b) →
  freeblock s' = freeblock s + (need (length (mf_data f')) - need (length (mf_data f))) → freeblock s ≤ freeblock s' →
  mk_rep s' (F1 ++ f' :: F2).
Proof.
  intros [Hok Hnx Hct Hmt Hin Hun Hfl Hnd Hrg Hfr] Hok' Hfi Hf' Hi' Hio Hmeta Hrest Hnd' Hrg' Hnew Hfree Hle.
  rewrite owned_split in Hnd, Hrg. apply list.NoDup_app in Hnd as (_ & Hdis & Hndr). apply Forall_app in Hrg as [_ Hrgr].
  assert (length (F1 ++ f' :: F2) = length (F1 ++ f :: F2)) as El by (rewrite !length_app; done).
  split; rewrite ?El; try done.
  - congruence.
  - intros b Hb. rewrite Hmeta by done. by apply Hmt.
  - intros k g Hk. destruct (decide (k = length F1)) as [->|Hne].
    + rewrite list_lookup_middle in Hk by done. injection Hk as <-. done.
    + pose proof (lookup_lt_Some _ _ _ Hk). rewrite Hio by lia. apply Hin. rewrite <- Hk. destruct (decide (k < length F1)%nat); [by rewrite !lookup_app_l by lia|].
      rewrite !lookup_app_r by lia. destruct (k - length F1)%nat eqn:E; [lia|done].
  - intros i Hi. rewrite Hio; [by apply Hun|lia|]. rewrite length_app in Hi. simpl in Hi. lia.
  - intros g Hg. apply elem_of_app in Hg as [Hg|Hg]; [|apply elem_of_cons in Hg as [->|Hg]; [done|]].
    + eapply file_ok_frame; [apply Hfl; apply elem_of_app; by left|]. intros b Hb. apply Hrest. eapply in_owned; [|exact Hb]. apply elem_of_app. by left.
    + eapply file_ok_frame; [apply Hfl; apply elem_of_app; right; by apply list_elem_of_further|]. intros b Hb. apply Hrest.
      eapply in_owned; [|exact Hb]. apply elem_of_app. by right.
  - rewrite owned_split. apply list.NoDup_app. split; [done|]. split; [|done]. intros b Hb Hb'. destruct (Hnew b Hb) as [Ho|Hge]; [by apply (Hdis b)|].
    pose proof (proj1 (list.Forall_forall _ _) Hrgr b Hb') as Hx. cbn in Hx. lia.
  - rewrite owned_split. apply Forall_app. split; [done|]. revert Hrgr. apply Forall_impl. intros b Hb. lia.
  - rewrite Hfree, Hfr, !sum_list_with_app. cbn [sum_list_with]. lia.
Qed.

Lemma mk_rep_range s F f b : mk_rep s F → f ∈ F → b ∈ owned f → nmeta ≤ b < freeblock s.
Proof. intros H Hf Hb. apply (proj1 (list.Forall_forall _ _) (mr_range _ _ H)). by eapply in_owned. Qed.

Lemma mk_rep_owned s F1 f F2 : mk_rep s (F1 ++ f :: F2) →
  NoDup (owned f) ∧ Forall (λ b, nmeta ≤ b < freeblock s) (owned f) ∧ ∀ b, b ∈ owned f → b ∉ concat (owned <$> F1 ++ F2).
Proof.
  intros [_ _ _ _ _ _ _ Hnd Hrg _]. rewrite owned_split in Hnd, Hrg. apply list.NoDup_app in Hnd as (? & Hdis & _). apply Forall_app in Hrg as [? _].
  done.
Qed.

Lemma get_inode_frame img img' : (∀ b, 0 ≤ b < 59 → img' !! b = img !! b) → ∀ i, 0 ≤ i < NINODES → get_inode img' i = get_inode img i.
Proof. intros H i Hi. destruct (inode_sector_range i Hi) as [Hs _]. unfold get_inode. rewrite H; [done|lia]. Qed.

(** ** Appending to a file of the image *)
Lemma iappend_spec s F1 f F2 p : mk_rep s (F1 ++ f :: F2) → (length (mf_data f) + length p ≤ 140 * 512)%nat →
  freeblock s + (need (length (mf_data f) + length p) - need (length (mf_data f))) ≤ FSSIZE →
  ∃ s' addrs ds, iappend (length F1 + 1) p s = Ok tt s' ∧ mk_rep s' (F1 ++ mkFile (mf_type f) (mf_data f ++ p) addrs ds :: F2).
Proof.
  intros Hr Hmax Hroom. assert (f ∈ F1 ++ f :: F2) as Hf by (apply elem_of_app; right; apply list_elem_of_here).
  pose proof (mr_file _ _ Hr f Hf) as Hfo. pose proof Hfo as [Hb Hl _ Ht]. destruct (mk_rep_owned _ _ _ _ Hr) as (Hnd & Hrg & Hdis).
  pose proof (mr_ok _ _ Hr) as Hok. pose proof (mr_count _ _ Hr) as Hct. rewrite length_app in Hct. cbn [length] in Hct.
  assert (0 ≤ Z.of_nat (length F1) + 1 < NINODES) as Hi by (unfold NINODES in *; lia).
  unfold iappend. erewrite bind_Ok; [|by apply rinode_spec]. rewrite (mr_inode _ _ Hr (length F1) f) by (by apply list_lookup_middle).
  cbn [inode_of di_size]. rewrite xint_small by (unfold is_u32; lia).
  destruct (iappend_loop_spec (S (length p)) s (inode_of f) (mf_blocks f) (mf_data f) p Hok Hb Hnd Hrg Hl Hmax Hroom ltac:(lia))
    as (s1 & din & ds & R & Hsame & Hex & Hlds).
  mstep R. destruct Hsame as (Et & Emj & Emn & Enl & _). cbn [inode_of di_type di_major di_minor di_nlink] in *.
  pose proof Hex as [Hok1 Hb1 Hnd1 Hrg1 Hi1 Hf1 Hfr1 Hnew1]. cbn [inode_of di_addrs] in *.
  rewrite xint_small by (unfold is_u32; lia). set (f' := mkFile (mf_type f) (mf_data f ++ p) (di_addrs din) ds).
  assert (file_ok (mk_img s1) f') as Hfo1 by (split; cbn [f' mf_addrs mf_blocks mf_data mf_type]; rewrite ?length_app; done).
  assert (set_size (length (mf_data f) + length p)%nat din = inode_of f') as ->.
  { unfold set_size, inode_of, f'. cbn [mf_type mf_data mf_addrs]. rewrite length_app. congruence. }
  destruct (winode_spec s1 (length F1 + 1) (inode_of f') Hok1 Hi (inode_of_wf _ _ Hfo1)) as (d & Rw & Hok2 & Hself & Hoth).
  destruct (inode_sector_range _ Hi) as [Hsec _]. set (s2 := set_img _ s1) in *.
  assert (freeblock s ≤ freeblock s1) as Hle.
  { rewrite Hf1, (own_length _ _ _ _ Hb1), (own_length _ _ _ _ Hb), Hlds, Hl. pose proof (need_mono (length (mf_data f)) (length (mf_data f) + length p) ltac:(lia)).
    unfold need in *. lia. }
  pose proof (mo_free _ Hok) as Hfree. change nmeta with 59 in Hfree.
  assert (∀ b, 0 ≤ b < 59 → mk_img s1 !! b = mk_img s !! b) as Hlow.
  { intros b Hbr. apply Hfr1; [lia|]. intros Hin. pose proof (proj1 (list.Forall_forall _ _) Hrg b Hin) as Hx. change nmeta with 59 in Hx. cbn in Hx. lia. }
  assert (∀ b, inode_sector (length F1 + 1) ≠ b → mk_img s2 !! b = mk_img s1 !! b) as Hs2 by (intros b Hne; unfold s2; cbn; by rewrite lookup_insert_ne).
  assert (∀ b, b ∈ own (di_addrs din) ds → mk_img s2 !! b = mk_img s1 !! b) as Hown2.
  { intros b Hin. apply Hs2. pose proof (proj1 (list.Forall_forall _ _) Hrg1 b Hin) as Hx. change nmeta with 59 in Hx. cbn in Hx. lia. }
  exists s2, (di_addrs din), ds. split; [done|]. eapply mk_rep_update; try done.
  - by eapply file_ok_frame.
  - intros i Hir Hne. rewrite Hoth by done. by apply get_inode_frame.
  - intros b Hbr. rewrite Hs2 by lia. apply Hlow. lia.
  - intros b Hin. pose proof (mr_range _ _ Hr) as Hall. rewrite owned_split in Hall. apply Forall_app in Hall as [_ Hall].
    pose proof (proj1 (list.Forall_forall _ _) Hall b Hin) as Hx. change nmeta with 59 in Hx. cbn in Hx.
    rewrite Hs2 by lia. apply Hfr1; [lia|]. intros Ho. by apply (Hdis b).
  - cbn [f' mf_data]. rewrite length_app. change (freeblock s2) with (freeblock s1).
    rewrite Hf1, (own_length _ _ _ _ Hb1), (own_length _ _ _ _ Hb), Hlds, Hl. unfold need. lia.
Qed.

(** ** A new file *)
Definition new_file (type : Z) : mfile := mkFile type [] (replicate 13 0) [].

Lemma new_file_ok img type : is_s16 type → file_ok img (new_file type).
Proof.
  intros Ht. split; cbn [new_file mf_addrs mf_blocks mf_data mf_type]; [|done|cbn [length]; lia|done]. split.
  - done.
  - by repeat constructor.
  - intros k Hk. rewrite nth_repeat_zero. by destruct k.
  - done.
  - cbn. lia.
  - intros k b Hk. by rewrite lookup_nil in Hk.
  - done.
Qed.

Lemma xshort_small x : 0 ≤ x < 32768 → xshort x = x.
Proof. intros H. unfold xshort. rewrite (le_val_le_bytes 2). apply Z.mod_small. change (2 ^ (8 * 2%nat)) with 65536. lia. Qed.

Lemma next_inode_ok s : mk_ok s → is_u32 (freeinode s + 1) →
  next_inode s = Ok (freeinode s) (mkMk (mk_img s) (mk_sb s) (freeinode s + 1) (freeblock s)) ∧
  mk_ok (mkMk (mk_img s) (mk_sb s) (freeinode s + 1) (freeblock s)).
Proof. intros [] Hu. unfold next_inode. rewrite u32_small by done. done. Qed.

Lemma ialloc_spec s F type : mk_rep s F → length F + 1 < NINODES → 0 ≤ type < 32768 →
  ∃ s', ialloc type s = Ok (length F + 1) s' ∧ mk_rep s' (F ++ [new_file type]) ∧ freeblock s' = freeblock s.
Proof.
  intros Hr Hct Ht. pose proof Hr as [Hok Hnx _ Hmt Hin Hun Hfl Hnd Hrg Hfr]. unfold NINODES in Hct.
  unfold ialloc. destruct (next_inode_ok s Hok) as [R Hok1]; [unfold is_u32; lia|]. mstep R. set (s1 := mkMk _ _ _ _) in *.
  rewrite !xshort_small, xint_small by (unfold is_u32; lia). change (mkDinode type 0 0 1 0 (replicate (S NDIRECT) 0)) with (inode_of (new_file type)).
  assert (is_s16 type) as Ht16 by (unfold is_s16; lia). rewrite Hnx.
  assert (0 ≤ length F + 1 < NINODES) as Hi by (unfold NINODES; lia).
  destruct (winode_spec s1 (length F + 1) (inode_of (new_file type)) Hok1 Hi (inode_of_wf (mk_img s) _ (new_file_ok _ _ Ht16)))
    as (d & Rw & Hok2 & Hself & Hoth).
  destruct (inode_sector_range _ Hi) as [Hsec _]. mstep Rw. set (s2 := set_img _ s1) in *. exists s2. split; [done|]. split; [|done].
  assert (∀ b, inode_sector (length F + 1) ≠ b → mk_img s2 !! b = mk_img s !! b) as Hs2 by (intros b Hne; unfold s2; cbn; by rewrite lookup_insert_ne).
  assert (concat (owned <$> F ++ [new_file type]) = concat (owned <$> F)) as Ec by (rewrite fmap_app, concat_app; cbn; by rewrite app_nil_r).
  split; rewrite ?length_app, ?Ec; cbn [length]; try done.
  - change (freeinode s2) with (freeinode s + 1). lia.
  - unfold NINODES. lia.
  - intros b Hb. rewrite Hs2 by lia. by apply Hmt.
  - intros k f Hk. apply lookup_app_Some in Hk as [Hk|[Hge Hk]].
    + pose proof (lookup_lt_Some _ _ _ Hk). unfold s2. cbn [set_img mk_img]. rewrite Hoth by lia. by apply Hin.
    + apply list_lookup_singleton_Some in Hk as [Hk <-]. replace (Z.of_nat k) with (Z.of_nat (length F)) by lia. exact Hself.
  - intros i Hir. unfold s2. cbn [set_img mk_img]. rewrite Hoth by lia. apply Hun. lia.
  - intros f [Hf| ->%list_elem_of_singleton]%elem_of_app; [|by apply new_file_ok]. eapply file_ok_frame; [by apply Hfl|].
    intros b Hb. apply Hs2. pose proof (mk_rep_range _ _ _ _ Hr Hf Hb) as Hx. change nmeta with 59 in Hx. lia.
  - rewrite sum_list_with_app. cbn [sum_list_with new_file mf_data length]. change (need 0) with 0%nat. rewrite !Nat.add_0_r. done.
Qed.

(** ** Copying the data of a file *)
Lemma copy_loop_spec fuel : ∀ s F1 f F2 data, mk_rep s (F1 ++ f :: F2) → (length (mf_data f) + length data ≤ 140 * 512)%nat →
  freeblock s + (need (length (mf_data f) + length data) - need (length (mf_data f))) ≤ FSSIZE → (length data < fuel)%nat →
  ∃ s' addrs ds, copy_loop (length F1 + 1) data fuel s = Ok tt s' ∧
    mk_rep s' (F1 ++ mkFile (mf_type f) (mf_data f ++ data) addrs ds :: F2).
Proof.
  induction fuel as [|fuel IH]; intros s F1 f F2 data Hr Hmax Hroom Hfuel; [lia|]. cbn [copy_loop].
  assert (length (take BSIZE data) = length data `min` 512)%nat as Elen by (rewrite length_take; unfold BSIZE; lia).
  destruct (take BSIZE data) as [|x buf] eqn:Et.
  { destruct data; [|done]. exists s, (mf_addrs f), (mf_blocks f). split; [done|]. rewrite app_nil_r. by destruct f. }
  rewrite <- Et in *. assert (0 < length (take BSIZE data))%nat by (rewrite Et; simpl; lia). clear Et x buf.
  pose proof (need_mono (length (mf_data f) + length (take BSIZE data)) (length (mf_data f) + length data) ltac:(lia)) as Hm.
  pose proof (need_mono (length (mf_data f)) (length (mf_data f) + length (take BSIZE data)) ltac:(lia)) as Hm2.
  destruct (iappend_spec s F1 f F2 (take BSIZE data) Hr ltac:(lia) ltac:(lia)) as (s1 & a1 & ds1 & R & Hr1). mstep R.
  pose proof (mr_free _ _ Hr) as Hf0. pose proof (mr_free _ _ Hr1) as Hf1. rewrite !sum_list_with_app in Hf0, Hf1. cbn [sum_list_with mf_data] in Hf0, Hf1.
  assert (length data = length (take BSIZE data) + length (drop BSIZE data))%nat as Ed by (rewrite <- length_app; by rewrite take_drop).
  destruct (IH s1 F1 _ F2 (drop BSIZE data) Hr1) as (s2 & a2 & ds2 & R2 & Hr2); cbn [mf_data]; rewrite ?length_app in *.
  - lia.
  - rewrite <- Nat.add_assoc, <- Ed. lia.
  - lia.
  - exists s2, a2, ds2. split; [done|]. cbn [mf_type mf_data] in Hr2. by rewrite <- app_assoc, take_drop in Hr2.
Qed.

(** ** What the image should hold *)

(** The name without its leading underscore. *)
Definition strip (name : list Z) : list Z :=
  match name with c :: rest => if c =? 95 then rest else name | [] => name end.

Definition entries (files : list (list Z * bytes)) : bytes :=
  concat (imap (λ k f, dirent (Z.of_nat k + 2) (strip f.1)) files).
Definition root_data (files : list (list Z * bytes)) : bytes :=
  dirent 1 (chars ".") ++ dirent 1 (chars "..") ++ entries files.

(** The files in the order of their inodes: the root directory first. *)
Definition tree (files : list (list Z * bytes)) : list (Z * bytes) :=
  (T_DIR, root_data files) :: ((λ f, (T_FILE, f.2)) <$> files).
Definition shape (F : list mfile) : list (Z * bytes) := (λ f, (mf_type f, mf_data f)) <$> F.
Definition blocks (l : list (Z * bytes)) : nat := sum_list_with (λ c, need (length c.2)) l.

Definition command_line (files : list (list Z * bytes)) : list (list Z * option bytes) := (λ f, (f.1, Some f.2)) <$> files.

(** The files fit in the image. *)
Record fits (files : list (list Z * bytes)) : Prop := {
  ft_name : Forall (λ f, 47 ∉ f.1) files;
  ft_size : Forall (λ f, (length f.2 ≤ 140 * 512)%nat) files;
  ft_count : (length files ≤ 198)%nat;
  ft_blocks : nmeta + blocks (tree files) ≤ FSSIZE }.

Lemma length_dirent i n : length (dirent i n) = 16%nat.
Proof. unfold dirent, mk_dirent. by rewrite length_app, length_strncpy. Qed.

Lemma entries_snoc files f : entries (files ++ [f]) = entries files ++ dirent (length files + 2) (strip f.1).
Proof. unfold entries. rewrite imap_app, concat_app. cbn. by rewrite app_nil_r, Nat.add_0_r. Qed.
Lemma length_entries files : length (entries files) = (16 * length files)%nat.
Proof. induction files as [|f files IH] using rev_ind; [done|]. rewrite entries_snoc, !length_app, IH, length_dirent. simpl. lia. Qed.
Lemma length_root_data files : length (root_data files) = (32 + 16 * length files)%nat.
Proof. unfold root_data. rewrite !length_app, !length_dirent, length_entries. lia. Qed.
Lemma root_data_snoc files f : root_data (files ++ [f]) = root_data files ++ dirent (length files + 2) (strip f.1).
Proof. unfold root_data. by rewrite entries_snoc, !app_assoc. Qed.
Lemma tree_snoc files f : tree (files ++ [f]) = (T_DIR, root_data (files ++ [f])) :: ((λ f, (T_FILE, f.2)) <$> files) ++ [(T_FILE, f.2)].
Proof. unfold tree. by rewrite fmap_app. Qed.

Lemma blocks_cons t (d : bytes) l : blocks ((t, d) :: l) = (need (length d) + blocks l)%nat.
Proof. done. Qed.
Lemma blocks_app l1 l2 : blocks (l1 ++ l2) = (blocks l1 + blocks l2)%nat.
Proof. apply sum_list_with_app. Qed.
Lemma shape_cons f F : shape (f :: F) = (mf_type f, mf_data f) :: shape F.
Proof. done. Qed.
Lemma shape_app F1 F2 : shape (F1 ++ F2) = shape F1 ++ shape F2.
Proof. apply fmap_app. Qed.

Lemma blocks_snoc files f : (blocks (tree files) ≤ blocks (tree (files ++ [f])))%nat.
Proof.
  rewrite tree_snoc. unfold tree. rewrite !blocks_cons, blocks_app, !length_root_data, length_app.
  pose proof (need_mono (32 + 16 * length files) (32 + 16 * (length files + length [f])) ltac:(lia)). lia.
Qed.
Lemma blocks_prefix files rest : (blocks (tree files) ≤ blocks (tree (files ++ rest)))%nat.
Proof.
  induction rest as [|f rest IH] using rev_ind; [by rewrite app_nil_r|]. rewrite app_assoc. pose proof (blocks_snoc (files ++ rest) f). lia.
Qed.

Lemma blocks_shape F : blocks (shape F) = sum_list_with (λ f, need (length (mf_data f))) F.
Proof. induction F as [|f F IH]; [done|]. unfold blocks, shape in *. rewrite fmap_cons. cbn [sum_list_with snd]. by rewrite IH. Qed.
Lemma mk_rep_free s F : mk_rep s F → freeblock s = nmeta + blocks (shape F).
Proof. intros H. rewrite blocks_shape. apply H. Qed.

(** ** One file of the command line *)
Lemma add_file_spec s F files f : mk_rep s F → shape F = tree files → fits (files ++ [f]) →
  ∃ s' F', add_file 1 (f.1, Some f.2) s = Ok tt s' ∧ mk_rep s' F' ∧ shape F' = tree (files ++ [f]).
Proof.
  intros Hr Hs [Hnm Hsz Hct Hbl]. apply Forall_app in Hnm as [_ Hnm]. apply Forall_app in Hsz as [_ Hsz]. inversion_clear Hnm as [|?? Hn _]. inversion_clear Hsz as [|?? Hz _].
  rewrite length_app in Hct. cbn [length] in Hct. destruct F as [|r Fs]; [done|]. unfold tree in Hs. rewrite shape_cons in Hs. injection Hs as Etr Edr Efs.
  assert (length Fs = length files) as Elen by (rewrite <- (length_fmap (λ f, (T_FILE, f.2)) files), <- Efs; by unfold shape; rewrite length_fmap).
  rewrite tree_snoc, blocks_cons, blocks_app, blocks_cons, <- Efs in Hbl. rewrite root_data_snoc in *.
  pose proof (length_root_data files) as Hlr. rewrite length_app, length_dirent in Hbl.
  unfold add_file. rewrite bool_decide_eq_false_2 by done. fold (strip f.1).
  destruct (ialloc_spec s (r :: Fs) T_FILE Hr) as (s1 & R1 & Hr1 & Hf1); [unfold NINODES; cbn [length]; lia|done|]. mstep R1.
  pose proof (mk_rep_free _ _ Hr) as Hfree. rewrite shape_cons, blocks_cons, Edr in Hfree.
  replace (Z.of_nat (length (r :: Fs)) + 1) with (Z.of_nat (length files) + 2) by (cbn [length]; lia).
  destruct (iappend_spec s1 [] r (Fs ++ [new_file T_FILE]) (dirent (length files + 2) (strip f.1)) Hr1) as (s2 & a2 & ds2 & R2 & Hr2).
  { rewrite Edr, length_dirent. lia. } { rewrite Edr, length_dirent. lia. }
  cbn [length] in R2. mstep R2. rewrite Edr, Etr in Hr2.
  pose proof (mk_rep_free _ _ Hr2) as Hfree2. cbn [app] in Hfree2.
  rewrite shape_cons, blocks_cons, shape_app, blocks_app in Hfree2. cbn [mf_data] in Hfree2. rewrite length_app, length_dirent in Hfree2.
  change (blocks (shape [new_file T_FILE])) with 0%nat in Hfree2. change (blocks []) with 0%nat in Hbl.
  rewrite app_comm_cons in Hr2. cbn [app] in Hr2. rewrite app_comm_cons in Hr2.
  destruct (copy_loop_spec (S (length f.2)) s2 _ _ [] f.2 Hr2) as (s3 & a3 & ds3 & R3 & Hr3); cbn [new_file mf_data mf_type length] in *.
  - lia.
  - change (need 0) with 0%nat. cbn [Nat.add]. lia.
  - lia.
  - replace (Z.of_nat (S (length Fs)) + 1) with (Z.of_nat (length files) + 2) in R3 by lia.
    exists s3. eexists. split; [exact R3|]. split; [exact Hr3|].
    rewrite shape_app, shape_cons. cbn [mf_type mf_data app]. rewrite tree_snoc, <- Efs, root_data_snoc. done.
Qed.

Lemma fits_prefix files rest : fits (files ++ rest) → fits files.
Proof.
  intros [Hn Hs Hc Hb]. apply Forall_app in Hn as [? _]. apply Forall_app in Hs as [? _]. rewrite length_app in Hc.
  split; [done..|lia|]. pose proof (blocks_prefix files rest). lia.
Qed.

Lemma add_files_spec rest : ∀ s F files, mk_rep s F → shape F = tree files → fits (files ++ rest) →
  ∃ s' F', for_each (command_line rest) (add_file 1) s = Ok tt s' ∧ mk_rep s' F' ∧ shape F' = tree (files ++ rest).
Proof.
  induction rest as [|f rest IH]; intros s F files Hr Hs Hf; cbn [command_line fmap list_fmap for_each].
  { rewrite app_nil_r. by exists s, F. }
  rewrite cons_middle, app_assoc in Hf. destruct (add_file_spec s F files f Hr Hs) as (s1 & F1 & R1 & Hr1 & Hs1); [by eapply fits_prefix|].
  mstep R1. rewrite cons_middle, app_assoc. by eapply IH.
Qed.

(** ** The empty image *)
Lemma zero_sectors n : ∀ k s, (k + n ≤ 1000)%nat →
  ∃ img, for_each (seq k n) (λ i, wsect (Z.of_nat i) (replicate BSIZE 0)) s = Ok tt (set_img img s) ∧
    ∀ b, img !! b = if decide (k ≤ b < k + n) then Some (replicate BSIZE 0) else mk_img s !! b.
Proof.
  induction n as [|n IH]; intros k s Hk; cbn [seq for_each].
  - exists (mk_img s). split; [by destruct s|]. intros b. rewrite decide_False by lia. done.
  - erewrite bind_Ok; [|apply wsect_run; unfold FSSIZE; lia].
    destruct (IH (S k) (set_img (<[Z.of_nat k := replicate BSIZE 0]> (mk_img s)) s)) as (img & R & Hi); [lia|]. exists img. split; [exact R|].
    intros b. rewrite Hi. cbn [set_img mk_img]. destruct (decide (b = Z.of_nat k)) as [->|Hne].
    + rewrite lookup_insert_eq, decide_False, decide_True by lia. done.
    + rewrite lookup_insert_ne by done. repeat case_decide; (done || lia).
Qed.

Lemma zero_inode i : 0 ≤ i → di_type (decode_dinode (replicate BSIZE 0) (dinode_off i)) = 0.
Proof.
  intros Hi. unfold dinode_off, IPB. pose proof (Z.mod_pos_bound i 8 ltac:(lia)) as Hm.
  assert (i `mod` 8 ∈ [0; 1; 2; 3; 4; 5; 6; 7]) as Hin by (rewrite !elem_of_cons; lia). revert Hin. generalize (i `mod` 8).
  assert (Forall (λ m, di_type (decode_dinode (replicate BSIZE 0) (64 * Z.to_nat m)) = 0) [0; 1; 2; 3; 4; 5; 6; 7]) as H by (by repeat constructor).
  intros m. by apply (proj1 (list.Forall_forall _ _) H).
Qed.

Lemma start_rep img : (∀ b, img !! b = if decide (0 ≤ b < 1000) then Some (replicate BSIZE 0) else None) →
  mk_rep (mkMk (<[1 := sb_block]> img) the_sb 1 nmeta) [].
Proof.
  intros Hi. assert (∀ b, 0 ≤ b < 1000 → img !! b = Some (replicate BSIZE 0)) as Hz by (intros b Hb; by rewrite Hi, decide_True).
  assert (∀ b, 0 ≤ b < 1000 → b ≠ 1 → <[1 := sb_block]> img !! b = Some (replicate BSIZE 0)) as Hz'.
  { intros b Hb Hne. rewrite lookup_insert_ne by done. by apply Hz. }
  assert (length sb_block = 512%nat) as Hl by (unfold sb_block; by rewrite length_inserts, length_replicate).
  split; cbn [mk_img freeinode freeblock length fmap list_fmap concat]; try done.
  - split; cbn [mk_img freeinode freeblock mk_sb]; [done|done| | |].
    + intros b. destruct (decide (b = 1)) as [->|Hne]; [unfold FSSIZE; lia|]. rewrite lookup_insert_ne by done. rewrite Hi. case_decide; [unfold FSSIZE; lia|].
      by intros [].
    + intros b Hb. destruct (decide (b = 1)) as [->|Hne]; [rewrite lookup_insert_eq; by eexists|]. rewrite Hz' by done. eexists. split; [done|]. apply length_replicate.
    + intros b Hb. change nmeta with 59 in Hb. apply Hz'; [unfold FSSIZE in Hb|]; lia.
  - intros b Hb. unfold meta_block. destruct (Z.eqb_spec b 1) as [->|Hne]; [apply lookup_insert_eq|]. apply Hz'; lia.
  - intros i Hir. destruct (inode_sector_range i ltac:(unfold NINODES in *; lia)) as [Hs _]. unfold get_inode. rewrite Hz' by lia. cbn [default]. apply zero_inode. lia.
  - intros f Hf. by apply elem_of_nil in Hf.
  - constructor.
Qed.

(** ** The free map *)
Lemma used_bits_spec n : (n ≤ 4096)%nat → length (used_bits n) = 512%nat ∧
  ∀ b, 0 ≤ b < 4096 → bit_clear (used_bits n) b = (Z.of_nat n <=? b).
Proof.
  unfold used_bits. rewrite Nat2Z.id. induction n as [|n IH]; intros Hn.
  - split; [apply length_replicate|]. intros b Hb. cbn [seq foldl]. rewrite (proj2 (Z.leb_le _ _)) by lia. unfold bit_clear, byte_at.
    rewrite nth_repeat_zero. done.
  - rewrite seq_S, foldl_app. cbn [foldl]. destruct IH as [Hl Hbits]; [lia|]. split; [by rewrite length_set_bit|]. intros b Hb.
    rewrite set_bit_spec by first [exact Hl|change BPB with 4096; lia]. destruct (decide (b = Z.of_nat (0 + n))) as [->|Hne].
    + symmetry. apply Z.leb_gt. lia.
    + rewrite Hbits by done. apply Bool.eq_iff_eq_true. rewrite !Z.leb_le. lia.
Qed.

(** ** The finished image *)

(** The size of the root directory is rounded up to the next multiple of a
    block, past the last entry. *)
Definition rounded (n : nat) : Z := (Z.of_nat n / BSIZE + 1) * BSIZE.

(** The image holds the files: [F] gives each its inode addresses and blocks. *)
Record built (img : gmap Z bytes) (files : list (list Z * bytes)) (F : list mfile) : Prop := {
  bt_shape : shape F = tree files;
  bt_dom : ∀ b, is_Some (img !! b) → 0 ≤ b < FSSIZE;
  bt_sectors : ∀ b, 0 ≤ b < FSSIZE → ∃ d, img !! b = Some d ∧ length d = BSIZE;
  bt_sb : decode_sb (default [] (img !! 1)) = the_sb;
  bt_log : ∀ b, 2 ≤ b < 2 + nlog → img !! b = Some (replicate BSIZE 0);
  bt_root : ∃ f, F !! 0%nat = Some f ∧ get_inode img ROOTINO = set_size (rounded (length (root_data files))) (inode_of f);
  bt_inode : ∀ (k : nat) f, F !! k = Some f → (0 < k)%nat → get_inode img (k + 1) = inode_of f;
  bt_unused : ∀ i, length files + 2 ≤ i < NINODES → di_type (get_inode img i) = 0;
  bt_file : ∀ f, f ∈ F → file_ok img f;
  bt_disjoint : NoDup (concat (owned <$> F));
  bt_range : Forall (λ b, nmeta ≤ b < FSSIZE) (concat (owned <$> F));
  bt_map : ∀ b, 0 ≤ b < FSSIZE →
    bit_clear (default [] (img !! sb_bmapstart the_sb)) b = false ↔ b < nmeta ∨ b ∈ concat (owned <$> F) }.

Lemma length_concat_owned img F : (∀ f, f ∈ F → file_ok img f) → length (concat (owned <$> F)) = blocks (shape F).
Proof.
  induction F as [|f F IH]; intros H; [done|]. rewrite fmap_cons, shape_cons, blocks_cons. cbn [concat]. rewrite length_app, IH.
  - destruct (H f) as [Hb Hl _ _]; [apply list_elem_of_here|]. unfold owned. pose proof (own_length _ _ _ _ Hb) as E. rewrite Hl in E. unfold need. lia.
  - intros g Hg. apply H. by apply list_elem_of_further.
Qed.

(** Every block below [freeblock] is in use: the blocks of the files fill it. *)
Lemma owned_exact s F b : mk_rep s F → nmeta ≤ b → (b < freeblock s ↔ b ∈ concat (owned <$> F)).
Proof.
  intros Hr Hb. pose proof (mr_range _ _ Hr) as Hrg. split; [|intros Hin; by apply (proj1 (list.Forall_forall _ _) Hrg)].
  intros Hlt. assert (concat (owned <$> F) ≡ₚ seqZ nmeta (blocks (shape F))) as ->.
  { apply submseteq_length_Permutation.
    - apply NoDup_submseteq; [apply Hr|]. intros x Hx. apply elem_of_seqZ. pose proof (proj1 (list.Forall_forall _ _) Hrg x Hx) as Hy. cbn in Hy.
      rewrite (mk_rep_free _ _ Hr) in Hy. lia.
    - rewrite length_seqZ, (length_concat_owned (mk_img s)) by apply Hr. lia. }
  apply elem_of_seqZ. rewrite (mk_rep_free _ _ Hr) in Hlt. lia.
Qed.

Lemma rep_built s r Fs files : mk_rep s (r :: Fs) → shape (r :: Fs) = tree files → freeblock s ≤ FSSIZE →
  ∃ s', (let! din := rinode 1 in
         do! winode 1 (set_size (xint (u32 ((xint (di_size din) / BSIZE + 1) * BSIZE))) din) in
         let! used := gets freeblock in balloc used) s = Ok tt s' ∧ built (mk_img s') files (r :: Fs).
Proof.
  intros Hr Hs Hfull. pose proof Hr as [Hok Hnx Hct Hmt Hin Hun Hfl Hnd Hrg Hfr].
  erewrite bind_Ok; [|by apply rinode_spec]. pose proof (Hin 0%nat r eq_refl) as Hi1. change (Z.of_nat 0 + 1) with 1 in Hi1. rewrite Hi1.
  pose proof Hs as Hs0. unfold tree in Hs. rewrite shape_cons in Hs. injection Hs as Etr Edr Efs.
  assert (length Fs = length files) as Elen by (rewrite <- (length_fmap (λ f, (T_FILE, f.2)) files), <- Efs; by unfold shape; rewrite length_fmap).
  cbn [length] in Hct, Hun. unfold NINODES in Hct. pose proof (length_root_data files) as Hlr. cbn [inode_of di_size]. rewrite Edr.
  assert (0 ≤ rounded (length (root_data files)) < 4096) as Hrd.
  { unfold rounded. change (Z.of_nat BSIZE) with 512. pose proof (Z.div_mod (length (root_data files)) 512 ltac:(lia)).
    pose proof (Z.mod_pos_bound (length (root_data files)) 512 ltac:(lia)). lia. }
  rewrite (xint_small (Z.of_nat (length (root_data files)))) by (unfold is_u32; lia). fold (rounded (length (root_data files))).
  rewrite u32_small, xint_small by (unfold is_u32; lia). set (x := set_size _ _).
  assert (dinode_wf x) as Hx.
  { pose proof (inode_of_wf _ _ (Hfl r (list_elem_of_here _ _))) as []. unfold x, set_size. split; cbn [di_type di_major di_minor di_nlink di_size di_addrs]; try done.
    unfold is_u32. lia. }
  destruct (winode_spec s 1 x Hok ltac:(done) Hx) as (d & Rw & Hok2 & Hself & Hoth). mstep Rw. set (s1 := set_img _ s) in *.
  rewrite bind_gets. unfold balloc. change (freeblock s1) with (freeblock s). pose proof (mo_free _ Hok) as Hfr1. change nmeta with 59 in Hfr1. unfold FSSIZE in Hfr1.
  rewrite (proj2 (Z.ltb_lt (freeblock s) (BSIZE * 8))) by (unfold BSIZE; lia). cbn [negb]. rewrite bind_gets. change (mk_sb s1) with (mk_sb s). rewrite (mo_sb _ Hok).
  change (sb_bmapstart the_sb) with 58. rewrite wsect_run by (unfold FSSIZE; lia). eexists. split; [done|].
  destruct (used_bits_spec (Z.to_nat (freeblock s)) ltac:(lia)) as [Hul Hub]. rewrite Z2Nat.id in Hul, Hub by lia.
  cbn [set_img mk_img]. change (inode_sector 1) with 32 in *. set (img := <[58 := _]> _).
  assert (∀ b, b ≠ 58 → b ≠ 32 → img !! b = mk_img s !! b) as Hold by (intros b H1 H2; unfold img; cbn; by rewrite !lookup_insert_ne).
  assert (∀ i, 0 ≤ i < NINODES → get_inode img i = get_inode (<[32:=d]> (mk_img s)) i) as Hgi.
  { intros i Hi. destruct (inode_sector_range i Hi) as [Hsec _]. unfold get_inode, img. rewrite lookup_insert_ne by lia. done. }
  assert (∀ b, b ∈ concat (owned <$> r :: Fs) → 59 ≤ b) as Hge.
  { intros b Hb. pose proof (proj1 (list.Forall_forall _ _) Hrg b Hb) as Hy. change nmeta with 59 in Hy. cbn in Hy. lia. }
  split; [done| | | | | | | | |done| |].
  - intros b. unfold img. destruct (decide (b = 58)) as [->|H58]; [unfold FSSIZE; lia|]. rewrite lookup_insert_ne by done. apply (mo_dom _ Hok2).
  - intros b Hb. destruct (decide (b = 58)) as [->|H58]; [exists (used_bits (freeblock s)); split; [apply lookup_insert_eq|exact Hul]|].
    unfold img. rewrite lookup_insert_ne by done. by apply Hok2.
  - rewrite Hold by done. rewrite Hmt by lia. reflexivity.
  - change nlog with 30. intros b Hb. rewrite Hold by lia. rewrite Hmt by lia. unfold meta_block. rewrite (proj2 (Z.eqb_neq b 1)) by lia. done.
  - exists r. split; [done|]. change ROOTINO with 1. rewrite Hgi by done. exact Hself.
  - intros k f Hk Hpos. pose proof (lookup_lt_Some _ _ _ Hk) as Hlt. cbn [length] in Hlt. rewrite Hgi by (unfold NINODES; lia). rewrite Hoth by lia. by apply Hin.
  - intros i Hi. rewrite Hgi, Hoth by lia. apply Hun. lia.
  - intros f Hf. eapply file_ok_frame; [by apply Hfl|]. intros b Hb. pose proof (Hge b (in_owned _ _ _ Hf Hb)). apply Hold; lia.
  - revert Hrg. apply Forall_impl. intros b. unfold FSSIZE in *. lia.
  - intros b Hb. change (sb_bmapstart the_sb) with 58. unfold img. rewrite lookup_insert_eq. cbn [default]. unfold FSSIZE in Hb. rewrite Hub by lia.
    rewrite Z.leb_gt. change nmeta with 59. destruct (decide (b < 59)) as [Hlt|Hnl].
    + split; [by left|lia].
    + rewrite (owned_exact _ _ _ Hr) by (change nmeta with 59; lia). split; [by right|]. intros [?|?]; [lia|done].
Qed.

Lemma mkfs_builds files : fits files → ∃ s' F, main (command_line files) mk_start = Ok tt s' ∧ built (mk_img s') files F.
Proof.
  intros Hfit. unfold main. rewrite bind_modify. destruct (zero_sectors (Z.to_nat FSSIZE) 0 (mkMk ∅ the_sb 1 nmeta) ltac:(done)) as (img & R0 & Himg).
  change (mkMk _ _ _ _) with (mkMk ∅ the_sb 1 nmeta). mstep R0. erewrite bind_Ok; [|by apply wsect_run]. fold sb_block.
  pose proof (start_rep img Himg) as Hr0. change (set_img _ _) with (mkMk (<[1 := sb_block]> img) the_sb 1 nmeta). clear R0. set (s0 := mkMk (<[1 := sb_block]> img) _ _ _) in *.
  destruct (ialloc_spec s0 [] T_DIR Hr0 ltac:(done) ltac:(done)) as (s1 & R1 & Hr1 & Hf1). change (Z.of_nat (length []) + 1) with 1 in R1. mstep R1. change (1 =? ROOTINO) with true. cbn [negb].
  destruct (iappend_spec s1 [] (new_file T_DIR) [] (dirent 1 (chars ".")) Hr1) as (s2 & a2 & ds2 & R2 & Hr2).
  { rewrite length_dirent. cbn [new_file mf_data length]. lia. }
  { rewrite length_dirent, Hf1. change (freeblock s0) with 59. cbn [new_file mf_data length]. change (need (0 + 16)) with 1%nat. change (need 0) with 0%nat. unfold FSSIZE. lia. }
  change (Z.of_nat (length []) + 1) with 1 in R2. mstep R2. pose proof (mk_rep_free _ _ Hr2) as Hf2. cbn [app] in Hf2. rewrite shape_cons, blocks_cons in Hf2.
  cbn [new_file mf_data mf_type app] in *. rewrite length_dirent in Hf2. change (nmeta + _) with 60 in Hf2.
  destruct (iappend_spec s2 [] _ [] (dirent 1 (chars "..")) Hr2) as (s3 & a3 & ds3 & R3 & Hr3).
  { rewrite !length_dirent. cbn [mf_data]. rewrite length_dirent. lia. }
  { cbn [mf_data]. rewrite !length_dirent, Hf2. change (need (16 + 16)) with 1%nat. change (need 16) with 1%nat. unfold FSSIZE. lia. }
  change (Z.of_nat (length []) + 1) with 1 in R3. mstep R3. cbn [mf_data mf_type app] in *.
  destruct (add_files_spec files s3 _ [] Hr3) as (s4 & F & R4 & Hr4 & Hs4); [done|done|]. mstep R4. cbn [app] in Hs4.
  destruct F as [|r Fs]; [done|]. destruct (rep_built s4 r Fs files Hr4 Hs4) as (s5 & R5 & Hb); [apply (mo_free _ (mr_ok _ _ Hr4))|].
  exists s5, (r :: Fs). split; [exact R5|done].
Qed.

(** C5: mkfs builds a file system.  For files whose names have no slash and
    whose number and sizes fit in the image, mkfs ends without an error; the
    superblock describes the layout, the log is empty, inode 1 is the root
    directory with an entry per file, inode k + 2 is file k with its contents,
    direct or through the indirect block, the other inodes are free, no block
    belongs to two files, and the free map marks exactly the metadata and the
    blocks of the files as in use. *)
Theorem mkfs_image files : fits files → ∃ s' F, main (command_line files) mk_start = Ok tt s' ∧ built (mk_img s') files F.
Proof. apply mkfs_builds. Qed.

(** Two files, the second with an indirect block. *)
Definition two_files : list (list Z * bytes) := [([95; 97], [1; 2; 3]); ([98], replicate (100 * 70) 7)].

Lemma two_files_fit : fits two_files.
Proof.
  split.
  - constructor; [|constructor; [|constructor]]; cbn [fst]; apply (bool_decide_unpack _); vm_compute; reflexivity.
  - apply Forall_cons; [cbn [snd length]; lia|]. apply Forall_cons; [cbn [snd]; rewrite length_replicate; lia|]. by apply Forall_nil.
  - cbn. lia.
  - vm_compute. discriminate.
Qed.

Lemma mkfs_image_witness : ∃ s' F, main (command_line two_files) mk_start = Ok tt s' ∧ built (mk_img s') two_files F.
Proof. apply (mkfs_image two_files). exact two_files_fit. Defined.
