(* ===== verification/MkfsBoot.v ===== *)
(** * From mkfs to the kernel

    The image of mkfs.c is what the kernel of fs.c expects: the theorem
    composes mkfs (MkfsInv.v) with iinit, namei, ilock and readi (FsDir.v,
    FsFile.v), over any block layer that shows the image. *)
From S2P Require Import Prelude Str Sleeplock Memide Log BlockLayer Fs FsAlloc FsFile FsDir Printf Mkfs MkfsInv.

(** ** A file of the image, as readi sees it *)

Section file.
Context (img : gmap Z bytes) (f : mfile) (x : inode).
Context (Hok : file_ok img f) (Hx : i_addrs x = mf_addrs f).

Lemma built_addr (k : nat) : (k < length (mf_blocks f))%nat → file_addr img x k = nth k (mf_blocks f) 0.
Proof.
  intros Hk. destruct Hok as [Hb Hl Hm _]. unfold file_addr. rewrite Hx, Nat2Z.id. destruct (Z.ltb_spec k NDIRECT) as [Hlt|Hge].
  - apply Hb. unfold NDIRECT in Hlt. lia.
  - unfold NDIRECT in *. destruct (fb_ind _ _ _ _ Hb) as (_ & a & Ha & _ & He); [lia|]. unfold ind_of in Ha. rewrite Ha.
    replace (Z.to_nat (Z.of_nat k - 12%nat)) with (k - 12)%nat by lia. rewrite He.
    + f_equal. lia.
    + rewrite Hl in Hk. assert (nblk (length (mf_data f)) < 141)%nat by (unfold nblk; apply Nat.Div0.div_lt_upper_bound; lia). lia.
Qed.

Lemma built_byte (off : nat) : (off < 512 * length (mf_blocks f))%nat → file_byte img x off = nth off (mf_data f) 0.
Proof.
  intros Ho. assert (off / 512 < length (mf_blocks f))%nat as Hk by (apply Nat.Div0.div_lt_upper_bound; lia).
  unfold file_byte. change (Z.of_nat BSIZE) with (Z.of_nat 512). rewrite <- Nat2Z.inj_div, <- Nat2Z.inj_mod, Nat2Z.id, built_addr by done.
  destruct (lookup_lt_is_Some_2 _ _ Hk) as [b Eb]. rewrite (nth_lookup_Some _ _ _ _ Eb).
  destruct (fb_blk _ _ _ _ (fo_blocks _ _ Hok) _ b Eb) as (d & Hd & _ & Hby). rewrite Hd, Hby by (by apply Nat.mod_upper_bound).
  f_equal. symmetry. apply Nat.div_mod_eq.
Qed.

Lemma built_slice (off n : nat) : (off + n ≤ 512 * length (mf_blocks f))%nat →
  file_slice img x off n = (λ i, nth (off + i) (mf_data f) 0) <$> seq 0 n.
Proof.
  intros H. unfold file_slice. apply list_fmap_ext. intros i j Hj. apply lookup_seq in Hj as [-> Hi].
  rewrite <- Nat2Z.inj_add. apply built_byte. lia.
Qed.

Lemma built_blocks t : t_view t = img → t_held t = ∅ → t_touched t = ∅ → i_dev x = 1 → (∀ b, b ∈ owned f → b ≠ 0) →
  blocks_ok t x (length (mf_blocks f)).
Proof.
  intros Hv Hh Ht Hd Hnz. pose proof Hok as [Hb Hl Hm _].
  assert (nblk (length (mf_data f)) < 141)%nat as Hmax by (unfold nblk; apply Nat.Div0.div_lt_upper_bound; lia).
  split; [done|unfold MAXFILE; lia|done| |].
  - intros k Hk. rewrite <- (Z2Nat.id k) by lia. rewrite Hv, Hh. rewrite built_addr by lia. destruct (lookup_lt_is_Some_2 (mf_blocks f) (Z.to_nat k)) as [b Eb]; [lia|].
    rewrite (nth_lookup_Some _ _ _ _ Eb). split; [|split; [done|]].
    + apply Hnz. unfold owned, own. apply elem_of_app. left. by eapply list_elem_of_lookup_2.
    + destruct (fb_blk _ _ _ _ Hb _ b Eb) as (d & Hdb & Hlen & _). by exists d.
  - rewrite Hv, Hh, Hx. unfold NDIRECT. intros H12. destruct (fb_ind _ _ _ _ Hb) as (Hz & a & Ha & _); [lia|]. unfold ind_of in *. eauto.
Qed.
End file.

Lemma map_nth_seq (l : bytes) (off n : nat) : (off + n ≤ length l)%nat → (λ i, nth (off + i) l 0) <$> seq 0 n = subarr l off n.
Proof.
  intros H. apply list_eq. intros i. destruct (decide (i < n)%nat) as [Hi|Hi].
  - rewrite list_lookup_fmap, lookup_subarr by done. rewrite (lookup_seq_lt 0 n i) by done. cbn. rewrite nth_lookup.
    destruct (lookup_lt_is_Some_2 l (off + i)) as [b ->]; [lia|done].
  - rewrite !lookup_ge_None_2; [done|rewrite length_subarr; lia|rewrite length_fmap, length_seq; lia].
Qed.

(** ** The root directory *)

Definition root_entries (files : list (list Z * bytes)) : list bytes :=
  dirent 1 (chars ".") :: dirent 1 (chars "..") :: imap (λ k f, dirent (Z.of_nat k + 2) (strip f.1)) files.

Lemma root_data_entries files : root_data files = concat (root_entries files).
Proof. done. Qed.

Lemma root_entries_16 files : Forall (λ e, length e = 16%nat) (root_entries files).
Proof.
  repeat (constructor; [apply length_dirent|]). apply Forall_lookup_2. intros k e He. rewrite list_lookup_imap in He. destruct (files !! k); [|done].
  injection He as <-. apply length_dirent.
Qed.

Lemma nth_concat_16 (L : list bytes) k i e : Forall (λ e, length e = 16%nat) L → L !! k = Some e → (i < 16)%nat → nth (16 * k + i) (concat L) 0 = nth i e 0.
Proof.
  intros HL. revert k. induction HL as [|h L Hh HL IH]; intros [|k] He Hi; [done|done| |]; cbn [concat].
  - injection He as ->. rewrite app_nth1 by lia. f_equal.
  - rewrite app_nth2 by lia. rewrite Hh, <- (IH k He Hi). f_equal. lia.
Qed.

Lemma slice_list (e : bytes) n (g : nat → Z) : length e = n → (∀ i, (i < n)%nat → g i = nth i e 0) → g <$> seq 0 n = e.
Proof.
  intros Hl Hg. apply list_eq. intros i. destruct (decide (i < n)%nat) as [Hi|Hi].
  - rewrite list_lookup_fmap, (lookup_seq_lt 0 n i) by done. cbn. rewrite Hg, nth_lookup by done.
    destruct (lookup_lt_is_Some_2 e i) as [b ->]; [lia|done].
  - rewrite !lookup_ge_None_2; [done|lia|rewrite length_fmap, length_seq; lia].
Qed.

(** An entry of a directory entry written by mkfs. *)
Lemma de_inum_dirent i w : 0 ≤ i < 32768 → de_inum (dirent i w) = i.
Proof.
  intros Hi. unfold de_inum, dirent, mk_dirent, rd16. rewrite xshort_small by done. unfold subarr. rewrite drop_0.
  change 2%nat with (length (le_bytes 2 i)). rewrite take_app_length. by apply xshort_small.
Qed.

Lemma cprefix_cstr w (n : nat) : (0 ∉ w) → cprefix (cstr w) n = take n w.
Proof.
  intros Hw. apply cprefix_from_app.
  - intros j Hj. unfold cstr. cbn. rewrite !nth_lookup. rewrite length_take in Hj. by rewrite lookup_take_lt by lia.
  - by intros ?%elem_of_prefix.
  - rewrite length_take. lia.
  - rewrite length_take. destruct (decide (n ≤ length w)%nat); [left; lia|right]. unfold cstr. cbn. apply nth_overflow. lia.
Qed.
Lemma strncpy_name w : (0 ∉ w) → strncpy (cstr w) DIRSIZ = take DIRSIZ w ++ replicate (DIRSIZ - length (take DIRSIZ w)) 0.
Proof. intros Hw. by rewrite strncpy_correct, cprefix_cstr. Qed.

Lemma entry_name_dirent i w : (0 ∉ w) → entry_name (dirent i w) = take DIRSIZ w.
Proof.
  intros Hw. unfold entry_name, dirent, de_name, mk_dirent. set (b := le_bytes 2 _). replace (subarr (b ++ _) 2 DIRSIZ) with (strncpy (cstr w) DIRSIZ).
  2:{ unfold subarr. change 2%nat with (length b). rewrite drop_app_length, take_ge; [done|]. by rewrite length_strncpy. }
  rewrite strncpy_name by done. apply cprefix_from_app.
  - intros j Hj. unfold cstr. cbn [Nat.add]. by rewrite app_nth1.
  - by intros ?%elem_of_prefix.
  - rewrite length_take. lia.
  - destruct (decide (length (take DIRSIZ w) = DIRSIZ)); [by left|right]. unfold cstr. cbn [Nat.add]. rewrite app_nth2, nth_repeat_zero by lia. done.
Qed.

Lemma dirent_bytes i w : is_bytes w → (0 ∉ w) → is_bytes (dirent i w).
Proof.
  intros Hw Hz. unfold dirent, mk_dirent. apply Forall_app. split; [apply le_bytes_is_bytes|]. rewrite strncpy_name by done.
  apply Forall_app. split; [by apply Forall_take|]. apply Forall_replicate. unfold is_u8. lia.
Qed.

(** Names are C strings. *)
Definition names_ok (files : list (list Z * bytes)) : Prop := Forall (λ f, is_bytes f.1 ∧ (0 ∉ f.1)) files.

(** The entries do not end at the end of a block. *)
Definition loose (files : list (list Z * bytes)) : Prop := ((length files + 2) `mod` 32 ≠ 0)%nat.

Lemma dots : (is_bytes (chars ".") ∧ (0 ∉ chars ".")) ∧ is_bytes (chars "..") ∧ (0 ∉ chars "..").
Proof.
  change (chars ".") with [46]. change (chars "..") with [46; 46].
  split; split; first [by repeat constructor; unfold is_u8; lia|by rewrite !not_elem_of_cons; split_and!; try done; apply not_elem_of_nil].
Qed.

Section image.
Context (img : gmap Z bytes) (files : list (list Z * bytes)) (F : list mfile) (r : mfile).
Context (Hb : built img files F) (Hr : F !! 0%nat = Some r) (Hfit : fits files) (Hnames : names_ok files) (Hloose : loose files).

Lemma strip_ok w : is_bytes w → (0 ∉ w) → is_bytes (strip w) ∧ (0 ∉ strip w).
Proof.
  intros Hw Hz. destruct w as [|c w]; [done|]. cbn. destruct (c =? 95); [|done]. split; [by inversion Hw|]. intros H. apply Hz. by right.
Qed.

Lemma image_inode i : 0 ≤ i < NINODES → disk_inode the_sb img i = get_inode img i.
Proof. intros Hi. destruct (inode_sector_range i Hi) as [_ E]. unfold disk_inode, get_inode. by rewrite E. Qed.

Lemma root_file : file_ok img r ∧ mf_data r = root_data files ∧ mf_type r = T_DIR ∧
  disk_inode the_sb img 1 = set_size (rounded (length (root_data files))) (inode_of r).
Proof.
  assert (r ∈ F) as Hin by (by eapply list_elem_of_lookup_2). pose proof (bt_shape _ _ _ Hb) as Hs. destruct F as [|r' Fs]; [done|]. injection Hr as ->.
  rewrite shape_cons in Hs. injection Hs as Et Ed _. split; [by apply (bt_file _ _ _ Hb)|]. split; [done|]. split; [done|].
  rewrite image_inode by done. destruct (bt_root _ _ _ Hb) as (f & Hf & E). injection Hf as <-. exact E.
Qed.

Lemma root_blocks : rounded (length (root_data files)) = 512 * Z.of_nat (length (mf_blocks r)).
Proof.
  destruct root_file as ([_ Hl _ _] & Ed & _). rewrite Hl, Ed, length_root_data. unfold rounded, nblk, loose in *. change (Z.of_nat BSIZE) with (Z.of_nat 512).
  rewrite <- Nat2Z.inj_div. set (n := length files) in *. assert ((32 + 16 * n + 511) / 512 = (32 + 16 * n) / 512 + 1)%nat as E; [|lia].
  assert ((32 + 16 * n) `mod` 512 ≠ 0)%nat as Hm.
  { replace (32 + 16 * n)%nat with ((n + 2) * 16)%nat by lia. change 512%nat with (32 * 16)%nat. rewrite Nat.Div0.mul_mod_distr_r. lia. }
  pose proof (Nat.div_mod_eq (32 + 16 * n) 512). pose proof (Nat.mod_upper_bound (32 + 16 * n) 512 ltac:(lia)).
  symmetry. apply (Nat.div_unique _ _ _ ((32 + 16 * n) `mod` 512 - 1)); lia.
Qed.

Lemma root_entry x k : i_addrs x = mf_addrs r → (16 * (k + 1) ≤ 512 * length (mf_blocks r))%nat →
  dir_entry img x k = default (replicate 16 0) (root_entries files !! k).
Proof.
  intros Hx Hk. destruct root_file as (Hok & Ed & _). unfold dir_entry. replace (16 * Z.of_nat k) with (Z.of_nat (16 * k)) by lia.
  rewrite (built_slice img r x Hok Hx) by lia. rewrite Ed, root_data_entries. pose proof (root_entries_16 files) as H16.
  destruct (root_entries files !! k) as [e|] eqn:Ee; cbn [default].
  - apply slice_list; [by eapply Forall_lookup_1 in H16|]. intros i Hi. by apply nth_concat_16.
  - apply slice_list; [done|]. intros i Hi. rewrite nth_repeat_zero. apply nth_overflow. rewrite <- root_data_entries, length_root_data.
    apply lookup_ge_None_1 in Ee. unfold root_entries in Ee. cbn [length] in Ee. rewrite length_imap in Ee. lia.
Qed.

Definition image_inodes (i : Z) : Prop := 1 ≤ i ≤ length files + 1.

(** What an entry of the root directory holds. *)
Lemma root_entries_cases k e : root_entries files !! k = Some e →
  is_bytes e ∧ ∃ i w, e = dirent i w ∧ (0 ∉ w) ∧ image_inodes i ∧ i < 32768.
Proof.
  pose proof (ft_count _ Hfit) as Hct. unfold root_entries, image_inodes. destruct k as [|[|k]]; cbn [lookup list_lookup].
  - intros [= <-]. destruct dots as [[H1 H2] _]. split; [by apply dirent_bytes|]. exists 1, (chars "."). split; [done|]. split; [done|lia].
  - intros [= <-]. destruct dots as [_ [H1 H2]]. split; [by apply dirent_bytes|]. exists 1, (chars ".."). split; [done|]. split; [done|lia].
  - intros He. change (imap (λ k f, dirent (Z.of_nat k + 2) (strip f.1)) files !! k = Some e) in He. rewrite list_lookup_imap in He.
    destruct (files !! k) as [f|] eqn:Ef; [|done]. injection He as <-. pose proof (lookup_lt_Some _ _ _ Ef). pose proof (Forall_lookup_1 _ _ _ _ Hnames Ef) as [Hy Hz].
    destruct (strip_ok _ Hy Hz) as [Hsb Hsz]. split; [by apply dirent_bytes|]. eexists _, _. split; [done|]. split; [done|]. lia.
Qed.

(** The other inodes are the files. *)
Lemma file_inode k name data : files !! k = Some (name, data) → ∃ f, F !! S k = Some f ∧ file_ok img f ∧ mf_data f = data ∧ mf_type f = T_FILE ∧
  disk_inode the_sb img (k + 2) = inode_of f.
Proof.
  intros Hk. pose proof (bt_shape _ _ _ Hb) as Hs. assert (shape F !! S k = Some (T_FILE, data)) as Hsk.
  { rewrite Hs. unfold tree. change (((λ f : list Z * bytes, (T_FILE, f.2)) <$> files) !! k = Some (T_FILE, data)). rewrite list_lookup_fmap, Hk. done. }
  unfold shape in Hsk. rewrite list_lookup_fmap in Hsk. destruct (F !! S k) as [f|] eqn:Ef; [|done]. injection Hsk as Et Ed. exists f.
  split; [done|]. split; [apply (bt_file _ _ _ Hb); by eapply list_elem_of_lookup_2|]. split; [done|]. split; [done|].
  pose proof (ft_count _ Hfit). pose proof (lookup_lt_Some _ _ _ Hk). rewrite image_inode by (unfold NINODES; lia).
  replace (Z.of_nat k + 2) with (Z.of_nat (S k) + 1) by lia. apply (bt_inode _ _ _ Hb); [done|lia].
Qed.

Context (t : tx) (Hv : t_view t = img) (Hh : t_held t = ∅) (Ht : t_touched t = ∅).

Lemma owned_nonzero f b : f ∈ F → b ∈ owned f → b ≠ 0.
Proof.
  intros Hf Hin. pose proof (in_owned _ _ _ Hf Hin) as Hc.
  pose proof (proj1 (list.Forall_forall _ _) (bt_range _ _ _ Hb) b Hc) as Hx. change nmeta with 59 in Hx. cbn in Hx. lia.
Qed.

Lemma image_ok : tree_ok the_sb t image_inodes.
Proof.
  destruct root_file as (Hok & Ed & Ety & Edi). pose proof (ft_count _ Hfit) as Hct. pose proof root_blocks as Hrb. intros i Hi. unfold image_inodes in Hi.
  destruct (inode_sector_range i ltac:(unfold NINODES; lia)) as [Hsec Eib].
  assert (∃ f n, file_ok img f ∧ disk_inode the_sb img i = set_size n (inode_of f) ∧ (mf_type f = T_DIR → i = 1) ∧ mf_type f ≠ 0) as (f & n & Hfo & Edk & Htd & Htz).
  { destruct (decide (i = 1)) as [->|Hne]; [exists r; eexists; split_and!; try done; by rewrite Ety|].
    destruct (lookup_lt_is_Some_2 files (Z.to_nat (i - 2))) as [[nm da] Ek]; [lia|]. destruct (file_inode _ nm da Ek) as (f & _ & Hfo & _ & Et & Edk).
    exists f, (length (mf_data f)). rewrite Z2Nat.id in Edk by lia. replace (i - 2 + 2) with i in Edk by lia. split_and!; try done; by rewrite Et. }
  rewrite Hv. split.
  - split; rewrite ?Hv, ?Hh, ?Edk; [|done|done|done]. rewrite Eib. destruct (bt_sectors _ _ _ Hb (inode_sector i)) as (d & Hd & _); [unfold FSSIZE; lia|eauto].
  - rewrite Edk. intros Hdir. specialize (Htd Hdir). subst i. clear f n Hfo Edk Htz Hdir.
    assert (i_addrs (inode_at the_sb img 1) = mf_addrs r) as Ea by (unfold inode_at; cbn [with_disk i_addrs]; by rewrite Edi).
    assert (length (mf_blocks r) = nblk (length (root_data files)) ∧ (length (root_data files) ≤ 3200)%nat) as [El Hlr].
    { split; [rewrite <- Ed; apply Hok|]. rewrite length_root_data. lia. }
    assert (nblk (length (root_data files)) ≤ 7)%nat as Hn7 by (unfold nblk; apply Nat.lt_succ_r, Nat.Div0.div_lt_upper_bound; lia).
    assert (dirent_count (di_size (disk_inode the_sb img 1)) = 32 * length (mf_blocks r))%nat as Ec.
    { rewrite Edi. cbn [set_size di_size]. rewrite Hrb. unfold dirent_count. replace ((512 * Z.of_nat (length (mf_blocks r)) + 15) / 16) with (32 * Z.of_nat (length (mf_blocks r))); [lia|].
      apply (Z.div_unique_pos _ _ _ 15); lia. }
    split; rewrite ?Hv, ?Ec.
    + rewrite Edi. cbn [set_size di_size]. rewrite Hrb. unfold MAXFILE, BSIZE. lia.
    + rewrite Edi. cbn [set_size di_size]. rewrite Hrb. replace (512 * Z.of_nat (length (mf_blocks r))) with (32 * Z.of_nat (length (mf_blocks r)) * 16) by lia. apply Z.mod_mul. lia.
    + rewrite Edi. cbn [set_size di_size]. rewrite Hrb. replace ((512 * Z.of_nat (length (mf_blocks r)) + (BSIZE - 1)) / BSIZE) with (Z.of_nat (length (mf_blocks r))).
      { apply (built_blocks img); try done. intros b Hbo. eapply owned_nonzero; [|done]. by eapply list_elem_of_lookup_2. }
      apply (Z.div_unique_pos _ _ _ 511); unfold BSIZE; lia.
    + intros k Hk. rewrite (root_entry _ _ Ea) by lia. destruct (root_entries files !! k) as [e|] eqn:Ee; cbn [default]; [by apply (root_entries_cases k)|].
      apply Forall_replicate. unfold is_u8. lia.
    + intros k Hk. rewrite (root_entry _ _ Ea) by lia. destruct (root_entries files !! k) as [e|] eqn:Ee; [|done]. change (default (replicate 16 0) (Some e)) with e. intros _.
      destruct (root_entries_cases k e Ee) as (_ & i & w & -> & _ & Hi' & Hi''). unfold image_inodes in Hi'. rewrite de_inum_dirent by lia. done.
Qed.

(** Looking up the name of a file in the root directory. *)
Lemma root_find k name data w : files !! k = Some (name, data) → w = take DIRSIZ (strip name) → w ≠ chars "." → w ≠ chars ".." →
  (∀ j f, (j < k)%nat → files !! j = Some f → take DIRSIZ (strip f.1) ≠ w) →
  dir_find img (inode_at the_sb img 1) w = Some (Z.of_nat k + 2).
Proof.
  intros Hk Ew Hd1 Hd2 Hfirst. destruct root_file as (Hok & Ed & _ & Edi). pose proof (ft_count _ Hfit) as Hct. pose proof (lookup_lt_Some _ _ _ Hk) as Hlt.
  assert (i_addrs (inode_at the_sb img 1) = mf_addrs r) as Ea by (unfold inode_at; cbn [with_disk i_addrs]; by rewrite Edi).
  assert (32 + 16 * length files ≤ 512 * length (mf_blocks r))%nat as Hroom.
  { rewrite <- length_root_data, <- Ed. apply (fb_fit _ _ _ _ (fo_blocks _ _ Hok)). }
  assert (dirent_count (i_size (inode_at the_sb img 1)) = 32 * length (mf_blocks r))%nat as Ec.
  { unfold inode_at. cbn [with_disk i_size]. rewrite Edi. cbn [set_size di_size]. rewrite root_blocks. unfold dirent_count.
    replace ((512 * Z.of_nat (length (mf_blocks r)) + 15) / 16) with (32 * Z.of_nat (length (mf_blocks r))); [lia|]. apply (Z.div_unique_pos _ _ _ 15); lia. }
  assert (∀ j e, (j ≤ k + 1)%nat → root_entries files !! j = Some e → entry_name e ≠ w) as Hbefore.
  { intros [|[|j]] e Hj; cbn [root_entries lookup list_lookup].
    - intros [= <-]. rewrite entry_name_dirent by apply dots. intros <-. by apply Hd1.
    - intros [= <-]. rewrite entry_name_dirent by apply dots. intros <-. by apply Hd2.
    - intros He. change (imap (λ k f, dirent (Z.of_nat k + 2) (strip f.1)) files !! j = Some e) in He. rewrite list_lookup_imap in He.
      destruct (files !! j) as [f|] eqn:Ef; [|done]. injection He as <-. pose proof (Forall_lookup_1 _ _ _ _ Hnames Ef) as [Hy Hz].
      rewrite entry_name_dirent by (by apply strip_ok). apply (Hfirst j f); [lia|done]. }
  assert (root_entries files !! (k + 2)%nat = Some (dirent (k + 2) (strip name))) as He.
  { rewrite Nat.add_comm. change (imap (λ k f, dirent (Z.of_nat k + 2) (strip f.1)) files !! k = Some (dirent (k + 2) (strip name))). by rewrite list_lookup_imap, Hk. }
  pose proof (Forall_lookup_1 _ _ _ _ Hnames Hk) as [Hy Hz]. cbn [fst] in *. destruct (strip_ok _ Hy Hz) as [Hsb Hsz].
  unfold dir_find. pose proof (find_seq_spec (λ j, names w (dir_entry img (inode_at the_sb img 1) j)) (dirent_count (i_size (inode_at the_sb img 1)))) as Hf.
  assert (names w (dir_entry img (inode_at the_sb img 1) (k + 2)) = true) as Hhit.
  { rewrite (root_entry _ _ Ea) by lia. rewrite He. change (default (replicate 16 0) (Some ?e)) with e. unfold names. rewrite de_inum_dirent, entry_name_dirent by (done || lia).
    rewrite (proj2 (Z.eqb_neq _ _)) by lia. cbn [negb andb]. by apply bool_decide_eq_true_2. }
  destruct (find _ _) as [j|] eqn:Ej; [|by rewrite Hf in Hhit by lia]. destruct Hf as (Hjc & Hj & Hmin). cbn [fmap option_fmap option_map].
  assert (j = k + 2)%nat as ->.
  { destruct (decide (j < k + 2)%nat) as [Hjk|Hjk].
    - exfalso. rewrite (root_entry _ _ Ea) in Hj by lia. destruct (lookup_lt_is_Some_2 (root_entries files) j) as [e Ee].
      { unfold root_entries. cbn [length]. rewrite length_imap. lia. }
      rewrite Ee in Hj. change (default (replicate 16 0) (Some e)) with e in Hj. unfold names in Hj. apply andb_true_iff in Hj as [_ Hj%bool_decide_eq_true].
      by apply (Hbefore j e ltac:(lia) Ee).
    - destruct (decide (j = k + 2)%nat); [done|]. rewrite (Hmin (k + 2)%nat) in Hhit by lia. done. }
  rewrite (root_entry _ _ Ea) by lia. rewrite He. change (default (replicate 16 0) (Some ?e)) with e. f_equal. apply de_inum_dirent. lia.
Qed.
End image.

(** ** A kernel on the image *)

(** Start the file system, open a file by its path and read from it. *)
Definition open_and_read {S} {BL : BlockLayer S} (me : Z) (devsw : Z → devfuns S) (path : list Z) (off n : Z) : M (fsst S) (option (Z * bytes)) :=
  do! iinit 1 in
  let! r := namei me devsw 0 path in
  match r with
  | None => ret None
  | Some ip =>
      do! ilock me ip in
      let! r := readi devsw ip off n in
      ret (Some r)
  end.

Section boot.
Context {S : Type} {BL : BlockLayer S}.

Lemma init_locks (s : fsst S) : f_inode s = replicate NINODE blank_inode →
  for_each (seq 0 NINODE) (λ i, modi (with_ilock initsleeplock) i) s = Ok tt s.
Proof.
  intros Hi. assert (∀ l, Forall (λ i, (i < NINODE)%nat) l → for_each l (λ i, modi (with_ilock initsleeplock) i) s = Ok tt s) as H.
  { induction 1 as [|i l Hlt _ IH]; [done|]. cbn [for_each]. assert (f_inode s !! i = Some blank_inode) as Hb by (rewrite Hi; by apply lookup_replicate_2).
    rewrite (bind_Ok _ _ _ _ _ (modi_run _ _ _ _ Hb)). change (with_ilock initsleeplock blank_inode) with blank_inode.
    rewrite list_insert_id by done. by destruct s. }
  apply H. apply Forall_forall. intros i Hin%in_seq. lia.
Qed.

Lemma iinit_spec (s : fsst S) t sb : f_inode s = replicate NINODE blank_inode → frep s t → sb_on_disk sb t → settled t →
  ∃ s', iinit 1 s = Ok tt s' ∧ frep s' t ∧ f_sb s' = sb ∧ f_inode s' = f_inode s.
Proof.
  intros Hi Hr Hsb [Ht Hsp]. unfold iinit. rewrite (bind_Ok _ _ _ _ _ (init_locks s Hi)).
  apply readsb_ok; [done|done|done|]. by eapply space_room.
Qed.
End boot.

(** C4: The kernel reads what mkfs stored.  Build an image from any files that
    fit; start the file system on it, open a file of the command line by its
    name and read: the result is the bytes of that file, at every offset and
    length (-1 past its end).  When names agree in their first 14 bytes, the
    first file is found.  The entries of the root directory must not end
    exactly at the end of a block. *)
Theorem mkfs_then_read {S} {BL : BlockLayer S} (me : Z) (devsw : Z → devfuns S) (s : fsst S) t m files k name data path e off n :
  fits files → names_ok files → loose files → main (command_line files) mk_start = Ok tt m →
  frep s t → t_view t = mk_img m → t_held t = ∅ → settled t → f_inode s = replicate NINODE blank_inode →
  files !! k = Some (name, data) → absolute path = true → path_elems path = [e] → is_bytes path → (0 ∉ path) →
  take DIRSIZ e = take DIRSIZ (strip name) → take DIRSIZ e ≠ chars "." → take DIRSIZ e ≠ chars ".." →
  (∀ j f, (j < k)%nat → files !! j = Some f → take DIRSIZ (strip f.1) ≠ take DIRSIZ e) → is_u32 off → is_u32 n →
  ∃ s', open_and_read me devsw path off n s =
    Ok (Some (if (length data <? off) || (2 ^ 32 <=? off + n) then (-1, [])
              else let len := Z.min n (length data - off) in (len, subarr data (Z.to_nat off) (Z.to_nat len)))) s'.
Proof.
  intros Hfit Hnames Hloose Hmain Hr Hv Hh Hset Hblank Hk Habs Hpath Hpb Hpz Ee Hd1 Hd2 Hfirst Hoff Hn.
  destruct (mkfs_builds files Hfit) as (m' & F & Hm' & Hb). rewrite Hmain in Hm'. injection Hm' as <-. rewrite <- Hv in Hb.
  destruct (bt_root _ _ _ Hb) as (r & HFr & _). pose proof Hset as [Htt Hsp].
  assert (sb_on_disk the_sb t) as Hsb.
  { destruct (bt_sectors _ _ _ Hb 1) as (d & Hd & _); [unfold FSSIZE; lia|]. exists d. split; [done|]. split; [|by rewrite Hh]. pose proof (bt_sb _ _ _ Hb) as E. by rewrite Hd in E. }
  destruct (iinit_spec s t the_sb Hblank Hr Hsb Hset) as (s1 & R1 & Hr1 & Esb & Ei). rewrite Hblank in Ei.
  unfold open_and_read. mstep R1. pose proof (blank_icache me s1 t NINODE Hr1 Ei) as Hc1. rewrite Esb in Hc1.
  pose proof (image_ok _ files F r Hb HFr Hfit Hnames Hloose t eq_refl Hh Htt) as Htree.
  pose proof (ft_count _ Hfit) as Hct. pose proof (lookup_lt_Some _ _ _ Hk) as Hlt.
  assert (finds me the_sb t ∅ false ROOTINO [e] (namex me devsw 0 path (replicate DIRSIZ 0) false s1)) as Hf.
  { rewrite <- Hpath. apply (namex_spec me devsw the_sb s1 t (image_inodes files) ∅ false 0 ROOTINO path (replicate DIRSIZ 0) Hc1 Hset Htree).
    - apply map_Forall_empty.
    - rewrite map_size_empty, Ei, length_replicate. unfold NINODE. lia.
    - exact Hpb.
    - exact Hpz.
    - apply length_replicate.
    - apply Forall_replicate. unfold is_u8. lia.
    - unfold image_inodes, ROOTINO. lia.
    - by rewrite Habs. }
  unfold finds in Hf. cbn [walk] in Hf. destruct (root_file _ files F r Hb HFr) as (_ & _ & Ety & Edi).
  change ROOTINO with 1 in Hf. rewrite Edi in Hf. cbn [set_size inode_of di_type] in Hf. rewrite Ety in Hf. change (negb (T_DIR =? T_DIR)) with false in Hf. cbn [andb] in Hf.
  rewrite (root_find _ files F r Hb HFr Hfit Hnames Hloose k name data) in Hf by done.
  destruct Hf as (s2 & ip & y & nm & R2 & Hc2 & Hy & Ey & Hry & _). unfold namei. rewrite bind_assoc. mstep R2. rewrite bind_ret. cbn [fmap option_fmap option_map fst].
  destruct (file_inode _ files F Hb Hfit k name data Hk) as (f & HF & Hfo & Ed & Et & Ef).
  assert (on_disk the_sb t (i_inum y)) as Hod by (rewrite Ey; apply Htree; unfold image_inodes; lia).
  destruct (ilock_spec me the_sb s2 t _ ip y Hc2 Hset Hy Hry Hod) as (s3 & x & R3 & Hc3 & _ & Hx & Ex & Hrx). mstep R3. rewrite Ey in Ex.
  pose proof (ic_lock _ _ _ _ _ _ Hc3 ip x Hx) as Hl. rewrite bool_decide_eq_true_2 in Hl by done. destruct Hl as (_ & Hval & _).
  pose proof (ic_entry _ _ _ _ _ _ Hc3 ip x Hx) as [_ Hdev Hdisk]. specialize (Hdev Hrx). destruct (Hdisk Hrx) as [Hv0|[_ Hdsk]]; [congruence|].
  rewrite Ex, Ef in Hdsk. unfold dinode_of, inode_of in Hdsk. injection Hdsk as Etx _ _ _ Esx Eax.
  assert ((i_size x + (BSIZE - 1)) / BSIZE = Z.of_nat (length (mf_blocks f))) as Enb.
  { rewrite Esx, (fo_len _ _ Hfo). unfold nblk. change (Z.of_nat BSIZE) with (Z.of_nat 512). rewrite Nat2Z.inj_div. f_equal. lia. }
  pose proof (fo_max _ _ Hfo) as Hmax. pose proof (fb_fit _ _ _ _ (fo_blocks _ _ Hfo)) as Hcap.
  destruct (readi_ok devsw s3 t ip x off n (ic_rep _ _ _ _ _ _ Hc3) Hx) as (s4 & _ & _ & R4); [by rewrite Etx, Et| |done|done|done| |].
  { rewrite Enb. apply (built_blocks (t_view t) f x Hfo Eax t eq_refl Hh Htt Hdev). intros b. apply (owned_nonzero _ _ _ Hb). by eapply list_elem_of_lookup_2. }
  { rewrite Esx. unfold MAXFILE, BSIZE. lia. }
  mstep R4. exists s4. unfold ret. f_equal. f_equal. rewrite Esx, Ed. unfold is_u32 in *.
  destruct (Z.ltb_spec (length data) off); [done|]. destruct (Z.leb_spec (2 ^ 32) (off + n)); [done|]. cbn [orb]. cbn zeta. f_equal.
  rewrite Ed in Hcap. rewrite <- (Z2Nat.id off) at 1 by lia. rewrite (built_slice (t_view t) f x Hfo Eax) by lia. rewrite Ed. apply map_nth_seq. lia.
Qed.

(** ** "/a" of a small image *)
Definition image_tx (m : mkst) : tx := mkTx (mk_img m) ∅ ∅ ∅.
Definition image_fs (m : mkst) : fsst tx := mkFsst (image_tx m) (mkSb 0 0 0 0 0 0 0) (replicate NINODE blank_inode).
#[local] Instance image_layer : BlockLayer tx := ram_layer 30 29.

Lemma mkfs_then_read_witness :
  ∃ m s', main (command_line two_files) mk_start = Ok tt m ∧
    open_and_read 7 no_dev [47; 97] 1 5 (image_fs m) = Ok (Some (2, [2; 3])) s'.
Proof.
  destruct (mkfs_builds two_files two_files_fit) as (m & F & Hm & Hb). exists m.
  destruct (mkfs_then_read 7 no_dev (image_fs m) (image_tx m) m two_files 0 [95; 97] [1; 2; 3] [47; 97] [97] 1 5) as (s' & R).
  - exact two_files_fit.
  - constructor; [|constructor; [|constructor]]; (split; [repeat constructor; unfold is_u8; lia|]); apply (bool_decide_unpack _); vm_compute; reflexivity.
  - vm_compute. discriminate.
  - exact Hm.
  - split; [reflexivity|]. split; [|done]. intros b Hs. apply (bt_dom _ _ _ Hb b Hs).
  - reflexivity.
  - reflexivity.
  - split; [reflexivity|]. split; cbn; rewrite ?dom_empty_L, ?union_empty_l_L, size_empty; lia.
  - reflexivity.
  - reflexivity.
  - reflexivity.
  - reflexivity.
  - repeat constructor; unfold is_u8; lia.
  - apply (bool_decide_unpack _). vm_compute. reflexivity.
  - reflexivity.
  - discriminate.
  - discriminate.
  - intros j f Hj. lia.
  - unfold is_u32; lia.
  - unfold is_u32; lia.
  - exists s'. split; [exact Hm|]. rewrite R. reflexivity.
Defined.
