(* ===== verification/Grep.v ===== *)
(** * Pattern search: grep.c

    Patterns and lines are C strings: lists of their bytes before the NUL, the
    end of the list being the NUL the source tests for.  [grep] works on its
    buffer [buf], a byte memory from address 0 on; the file descriptor is the
    list of chunks its reads will deliver (a read takes from the first chunk
    only, so short reads of pipes and consoles are covered, and a regular file
    is one chunk).  Output is what is written to descriptor 1 or 2. *)
From S2P Require Import Prelude Str Printf.

(** ['^'] is 94, ['*'] 42, ['$'] 36, ['.'] 46 and newline 10. *)

(** ** The matcher *)

(** The loop of [matchstar]; [here] is [matchhere(re, -)]. *)
Fixpoint matchstar_loop (here : list Z → bool) (c : Z) (text : list Z) : bool :=
  if here text then true else
  match text with
  | [] => false
  | x :: text => if (x =? c) || (c =? 46) then matchstar_loop here c text else false
  end.

Fixpoint matchhere (re text : list Z) : bool :=
  match re with
  | [] => true
  | r0 :: re1 =>
      match re1 with
      | 42 :: re2 => matchstar_loop (matchhere re2) r0 text
      | _ =>
          if (r0 =? 36) && (match re1 with [] => true | _ => false end)
          then (match text with [] => true | _ => false end)
          else match text with
               | [] => false
               | x :: text => if (r0 =? 46) || (r0 =? x) then matchhere re1 text else false
               end
      end
  end.

Definition matchstar (c : Z) (re text : list Z) : bool := matchstar_loop (matchhere re) c text.

(** The loop of [match_], over the suffixes of the text, the empty one too. *)
Fixpoint match_loop (re text : list Z) : bool :=
  if matchhere re text then true else
  match text with [] => false | _ :: text => match_loop re text end.

Definition match_ (re text : list Z) : bool :=
  match re with
  | 94 :: re' => matchhere re' text
  | _ => match_loop re text
  end.

(** ** What a pattern means *)

Inductive item := One (c : Z) | Star (c : Z).
Record pattern := Pattern { anchored : bool; items : list item; at_end : bool }.

Definition accepts (c x : Z) : Prop := c = 46 ∨ c = x.

(** The strings a list of items generates. *)
Fixpoint lang (l : list item) (w : list Z) : Prop :=
  match l with
  | [] => w = []
  | One c :: l => ∃ x w', w = x :: w' ∧ accepts c x ∧ lang l w'
  | Star c :: l => ∃ u w', w = u ++ w' ∧ Forall (accepts c) u ∧ lang l w'
  end.

(** A text matches when a substring is generated, at the start or the end of
    the text when the pattern is anchored there. *)
Definition pmatches (p : pattern) (text : list Z) : Prop :=
  ∃ pre mid post, text = pre ++ mid ++ post ∧ lang (items p) mid ∧
    (anchored p = true → pre = []) ∧ (at_end p = true → post = []).

(** The syntax: a star binds the character before it, a last dollar anchors. *)
Fixpoint parse_items (re : list Z) : list item * bool :=
  match re with
  | [] => ([], false)
  | c :: re1 =>
      match re1 with
      | 42 :: re2 => let '(l, e) := parse_items re2 in (Star c :: l, e)
      | [] => if c =? 36 then ([], true) else ([One c], false)
      | _ => let '(l, e) := parse_items re1 in (One c :: l, e)
      end
  end.
Definition parse (re : list Z) : pattern :=
  match re with
  | 94 :: re' => let '(l, e) := parse_items re' in Pattern true l e
  | _ => let '(l, e) := parse_items re in Pattern false l e
  end.

Definition here_matches (p : list item * bool) (text : list Z) : Prop :=
  ∃ mid post, text = mid ++ post ∧ lang (p.1) mid ∧ (p.2 = true → post = []).

Lemma accepts_bool c x : (x =? c) || (c =? 46) = true ↔ accepts c x.
Proof. unfold accepts. rewrite orb_true_iff, !Z.eqb_eq. intuition congruence. Qed.

Lemma here_matches_nil text : here_matches ([], false) text.
Proof. by exists [], text. Qed.
Lemma here_matches_end text : here_matches ([], true) text ↔ text = [].
Proof. split; [intros (mid & post & -> & -> & H); by rewrite H|intros ->; by exists [], []]. Qed.
Lemma here_matches_one c l e text :
  here_matches (One c :: l, e) text ↔ ∃ x t, text = x :: t ∧ accepts c x ∧ here_matches (l, e) t.
Proof.
  split.
  - intros (mid & post & -> & (x & w & -> & Hc & Hw) & He). exists x, (w ++ post). split; [done|]. split; [done|].
    by exists w, post.
  - intros (x & t & -> & Hc & mid & post & -> & Hw & He). exists (x :: mid), post. split; [done|].
    split; [|done]. by exists x, mid.
Qed.
Lemma here_matches_star c l e text :
  here_matches (Star c :: l, e) text ↔ ∃ u t, text = u ++ t ∧ Forall (accepts c) u ∧ here_matches (l, e) t.
Proof.
  split.
  - intros (mid & post & -> & (u & w & -> & Hc & Hw) & He). exists u, (w ++ post). rewrite app_assoc. split; [done|].
    split; [done|]. by exists w, post.
  - intros (u & t & -> & Hc & mid & post & -> & Hw & He). exists (u ++ mid), post. rewrite app_assoc. split; [done|].
    split; [|done]. by exists u, mid.
Qed.

Lemma matchstar_loop_spec here c text :
  matchstar_loop here c text = true ↔ ∃ u t, text = u ++ t ∧ Forall (accepts c) u ∧ here t = true.
Proof.
  split.
  - induction text as [|x text IH]; simpl; destruct (here _) eqn:Hh; intros H; try done.
    1,2: eexists [], _; split; [done|by split].
    destruct ((x =? c) || (c =? 46)) eqn:Ha; [|done]. apply accepts_bool in Ha.
    destruct (IH H) as (u & t & -> & Hu & Ht). exists (x :: u), t. split; [done|]. by split; [constructor|].
  - intros (u & t & -> & Hu & Ht). induction Hu as [|x u Hx Hu IH]; simpl.
    + destruct t; simpl; by rewrite Ht.
    + destruct (here (x :: u ++ t)); [done|]. apply accepts_bool in Hx. by rewrite Hx, IH.
Qed.

(** The recursion of both functions takes one or two characters at a time. *)
Lemma pattern_ind (P : list Z → Prop) :
  P [] → (∀ c re, P re → P (c :: 42 :: re)) →
  (∀ c re, (∀ re', re ≠ 42 :: re') → P re → P (c :: re)) → ∀ re, P re.
Proof.
  intros H0 Hstar Hone. refine (well_founded_ind (well_founded_ltof _ (@length Z)) P _).
  unfold ltof. intros [|c re] IH; [done|].
  destruct re as [|d re]; [apply Hone; [done|by apply IH; simpl; lia]|].
  destruct (decide (d = 42)) as [->|Hd].
  - apply Hstar, IH. simpl. lia.
  - apply Hone; [congruence|]. apply IH. simpl. lia.
Qed.

Lemma not_star_match {A} (re : list Z) (f : list Z → A) (g : A) :
  (∀ re', re ≠ 42 :: re') → match re with 42 :: re2 => f re2 | _ => g end = g.
Proof.
  intros H. destruct re as [|d re]; [done|]. destruct (decide (d = 42)) as [->|Hd]; [by destruct (H re)|].
  repeat case_match; congruence.
Qed.

Lemma matchhere_one c re text : (∀ re', re ≠ 42 :: re') →
  matchhere (c :: re) text =
  if (c =? 36) && (match re with [] => true | _ => false end)
  then (match text with [] => true | _ => false end)
  else match text with
       | [] => false
       | x :: text => if (c =? 46) || (c =? x) then matchhere re text else false
       end.
Proof. intros H. cbn [matchhere]. by rewrite not_star_match. Qed.

Lemma parse_items_one c re : (∀ re', re ≠ 42 :: re') →
  parse_items (c :: re) =
  if (c =? 36) && (match re with [] => true | _ => false end) then ([], true)
  else (One c :: (parse_items re).1, (parse_items re).2).
Proof.
  intros H. destruct re as [|d re]; [cbn; by destruct (c =? 36)|]. rewrite andb_false_r.
  assert (d ≠ 42) by (intros ->; by destruct (H re)).
  transitivity (let '(l, e) := parse_items (d :: re) in (One c :: l, e)); [|by destruct (parse_items _)].
  cbn [parse_items]. repeat case_match; congruence.
Qed.

Lemma matchhere_spec re text : matchhere re text = true ↔ here_matches (parse_items re) text.
Proof.
  revert re text.
  apply (pattern_ind (λ re, ∀ text, matchhere re text = true ↔ here_matches (parse_items re) text)).
  - intros text. split; [intros _; apply here_matches_nil|done].
  - intros c re IH text. cbn [matchhere parse_items]. rewrite matchstar_loop_spec.
    destruct (parse_items re) as [l e]. rewrite here_matches_star. by setoid_rewrite IH.
  - intros c re Hre IH text. rewrite matchhere_one, parse_items_one by done.
    destruct ((c =? 36) && _).
    + rewrite here_matches_end. by destruct text.
    + destruct (parse_items re) as [l e]. rewrite here_matches_one. cbn [fst snd]. destruct text as [|x t].
      * split; [done|]. by intros (? & ? & ? & _).
      * rewrite (Z.eqb_sym c x), orb_comm. destruct ((x =? c) || (c =? 46)) eqn:Ha.
        -- apply accepts_bool in Ha. rewrite IH. split; [by exists x, t|]. by intros (? & ? & [= <- <-] & _ & ?).
        -- split; [done|]. intros (? & ? & [= <- <-] & Hc & _). apply accepts_bool in Hc. congruence.
Qed.

Lemma match_loop_spec re text :
  match_loop re text = true ↔ ∃ pre t, text = pre ++ t ∧ here_matches (parse_items re) t.
Proof.
  setoid_rewrite <- matchhere_spec. split.
  - induction text as [|x text IH]; simpl; destruct (matchhere _ _) eqn:Hh; intros H; try done.
    1,2: by eexists [], _.
    destruct (IH H) as (pre & t & -> & Ht). by exists (x :: pre), t.
  - intros (pre & t & -> & Ht). induction pre as [|x pre IH]; simpl.
    + destruct t; simpl; by rewrite Ht.
    + by destruct (matchhere re (x :: pre ++ t)).
Qed.

(** C31: [match] decides the declarative meaning of the pattern: a text matches
    exactly when some substring of it, anchored where the pattern says so, is
    generated by the pattern's items. *)
Theorem match_correct re text : match_ re text = true ↔ pmatches (parse re) text.
Proof.
  assert (∀ re, (match_loop re text = true ↔ pmatches (let '(l, e) := parse_items re in Pattern false l e) text) ∧
    (matchhere re text = true ↔ pmatches (let '(l, e) := parse_items re in Pattern true l e) text)) as H.
  { clear re. intros re. rewrite match_loop_spec, matchhere_spec. destruct (parse_items re) as [l e].
    unfold pmatches, here_matches. cbn. split; split.
    - intros (pre & t & -> & mid & post & -> & ? & ?). by exists pre, mid, post.
    - intros (pre & mid & post & -> & ? & _ & ?). exists pre, (mid ++ post). split; [done|]. by exists mid, post.
    - intros (mid & post & -> & ? & ?). by exists [], mid, post.
    - intros (pre & mid & post & -> & ? & Hp & ?). rewrite (Hp eq_refl). by exists mid, post. }
  unfold match_, parse. destruct re as [|c re]; [apply H|].
  destruct (decide (c = 94)) as [->|Hc]; [apply H|].
  pose proof (proj1 (H (c :: re))). repeat case_match; congruence || done.
Qed.

(** ** The search loop *)

Definition GREPBUF : Z := 1024.

(** The bytes [a .. a+n-1] of the buffer, and a store of several bytes. *)
Definition bytes_at (b : mem) (a : Z) (n : nat) : list Z := (λ i : nat, b (a + i)) <$> seq 0 n.
Fixpoint put (b : mem) (a : Z) (l : list Z) : mem :=
  match l with [] => b | x :: l => put (st8 b a x) (a + 1) l end.

(** [read(fd, -, n)]: what the next chunk has, [n] bytes at most. *)
Definition fd_read (chunks : list (list Z)) (n : nat) : list Z * list (list Z) :=
  match chunks with
  | [] => ([], [])
  | c :: cs => (take n c, match drop n c with [] => cs | r => r :: cs end)
  end.

(** [while((q = strchr(p, '\n')) != 0)]: the buffer, [p] and the output after
    the loop; [None] only when the fuel or the buffer's NUL is missing. *)
Fixpoint line_loop (pattern : list Z) (b : mem) (p : Z) (out : list Z) (fuel : nat) : option (mem * Z * list Z) :=
  match fuel with
  | O => None
  | S fuel =>
      match strchr (λ i, b (p + i)) 10 (Z.to_nat GREPBUF) with
      | None => None
      | Some None => Some (b, p, out)
      | Some (Some k) =>
          let q := p + k in
          let b := st8 b q 0 in
          if match_ pattern (cprefix (λ i, b (p + i)) (Z.to_nat GREPBUF)) then
            let b := st8 b q 10 in
            line_loop pattern b (q + 1) (out ++ bytes_at b p (Z.to_nat (q + 1 - p))) fuel
          else line_loop pattern b (q + 1) out fuel
      end
  end.

Fixpoint grep_loop (pattern : list Z) (b : mem) (m : Z) (fd : list (list Z)) (out : list Z) (fuel : nat) : option (list Z) :=
  match fuel with
  | O => None
  | S fuel =>
      let '(data, fd) := fd_read fd (Z.to_nat (GREPBUF - m - 1)) in
      match data with
      | [] => Some out
      | _ =>
          let b := put b m data in
          let m := m + length data in
          let b := st8 b m 0 in
          match line_loop pattern b 0 out (Z.to_nat (m + 1)) with
          | None => None
          | Some (b, p, out) =>
              let m := if p =? 0 then 0 else m in
              if 0 <? m then
                let m := m - p in grep_loop pattern (ulib_memmove b 0 p m) m fd out fuel
              else grep_loop pattern b m fd out fuel
          end
      end
  end.

(** [buf] is zero at start; every read but the last takes at least a byte. *)
Definition grep (pattern : list Z) (fd : list (list Z)) : option (list Z) :=
  grep_loop pattern (λ _, 0) 0 fd [] (S (length (concat fd))).

(** The [main] function: [argv] without the program name; [open] gives the
    descriptor of a file or fails.  Result: the writes, with their descriptor. *)
Fixpoint grep_files (open : list Z → option (list (list Z))) (pattern : list Z) (files : list (list Z)) : option (list (Z * list Z)) :=
  match files with
  | [] => Some []
  | f :: files =>
      match open f with
      | None =>
          t ← printf (λ _, 1) (λ _, f) (chars "grep: cannot open %s" ++ [10]); Some [(1, t)]
      | Some fd =>
          o ← grep pattern fd; cons (1, o) <$> grep_files open pattern files
      end
  end.
Definition grep_main (open : list Z → option (list (list Z))) (stdin : list (list Z)) (args : list (list Z)) : option (list (Z * list Z)) :=
  match args with
  | [] => t ← printf (λ _, 0) (λ _, []) (chars "usage: grep pattern [file ...]" ++ [10]); Some [(2, t)]
  | [pattern] => o ← grep pattern stdin; Some [(1, o)]
  | pattern :: files => grep_files open pattern files
  end.

(** ** The lines of a file *)

(** The complete lines, without their newline, and the unfinished rest. *)
Fixpoint split_lines (l : list Z) : list (list Z) * list Z :=
  match l with
  | [] => ([], [])
  | x :: l =>
      let '(ls, r) := split_lines l in
      if x =? 10 then ([] :: ls, r)
      else match ls with [] => ([], x :: r) | l1 :: ls => ((x :: l1) :: ls, r) end
  end.
Abbreviation lines l := (fst (split_lines l)).
Abbreviation tail_of l := (snd (split_lines l)).

(** The matching lines, with their newline, in order. *)
Definition selected (pattern : list Z) (ls : list (list Z)) : list Z :=
  concat ((λ l, if match_ pattern l then l ++ [10] else []) <$> ls).

Lemma selected_app pattern l1 l2 : selected pattern (l1 ++ l2) = selected pattern l1 ++ selected pattern l2.
Proof. unfold selected. by rewrite fmap_app, concat_app. Qed.

Lemma split_lines_app a b :
  split_lines (a ++ b) = (lines a ++ lines (tail_of a ++ b), tail_of (tail_of a ++ b)).
Proof.
  induction a as [|x a IH]; simpl; [by destruct (split_lines b)|]. rewrite IH.
  destruct (split_lines a) as [[|l1 ls] r]; destruct (Z.eqb_spec x 10); cbn [fst snd app]; try done.
  - cbn [split_lines]. destruct (split_lines (r ++ b)) as [[|] ?]; destruct (Z.eqb_spec x 10); done.
Qed.

Lemma split_lines_none l : 10 ∉ l ↔ split_lines l = ([], l).
Proof.
  induction l as [|x l IH]; simpl; [split; [done|set_solver]|]. rewrite not_elem_of_cons, IH.
  split; [intros [Hx ->]; by destruct (Z.eqb_spec x 10)|].
  destruct (split_lines l) as [[|l1 ls] r]; destruct (Z.eqb_spec x 10); try done. by intros [= ->].
Qed.

Lemma split_lines_first a b : 10 ∉ a → split_lines (a ++ 10 :: b) = (a :: lines b, tail_of b).
Proof.
  intros Ha. induction a as [|x a IH]; simpl.
  - by destruct (split_lines b).
  - apply not_elem_of_cons in Ha as [Hx Ha]. rewrite IH by done. by destruct (Z.eqb_spec x 10).
Qed.

Lemma tail_of_no_newline l : 10 ∉ tail_of l.
Proof.
  induction l as [|x l IH]; simpl; [set_solver|].
  destruct (split_lines l) as [[|l1 ls] r]; destruct (Z.eqb_spec x 10); cbn in *; set_solver.
Qed.

(** The lines, put together again, are the text. *)
Lemma split_lines_join l : l = concat ((λ x, x ++ [10]) <$> lines l) ++ tail_of l.
Proof.
  induction l as [|x l IH]; simpl; [done|]. rewrite IH at 1.
  destruct (split_lines l) as [[|l1 ls] r]; destruct (Z.eqb_spec x 10); simpl; by subst.
Qed.

Lemma first_newline (l : list Z) : 10 ∈ l → ∃ a b, l = a ++ 10 :: b ∧ 10 ∉ a.
Proof.
  induction l as [|x l IH]; [set_solver|]. destruct (decide (x = 10)) as [->|Hx].
  - intros _. exists [], l. split; [done|]. set_solver.
  - intros H. destruct IH as (a & b & -> & Ha); [set_solver|]. exists (x :: a), b. split; [done|]. set_solver.
Qed.

(** ** Buffers *)

Definition holds (b : mem) (a : Z) (l : list Z) : Prop := ∀ i : nat, (i < length l)%nat → b (a + i) = cstr l i.

Lemma holds_app b a l1 l2 : holds b a (l1 ++ l2) ↔ holds b a l1 ∧ holds b (a + length l1) l2.
Proof.
  unfold holds, cstr. rewrite length_app. split.
  - intros H. split; intros i Hi.
    + rewrite H by lia. by rewrite app_nth1.
    + replace (a + length l1 + i) with (a + (length l1 + i)%nat) by lia. rewrite H by lia. rewrite app_nth2 by lia. f_equal. lia.
  - intros [H1 H2] i Hi. destruct (decide (i < length l1)%nat).
    + rewrite app_nth1 by done. by apply H1.
    + rewrite app_nth2 by lia. rewrite <- H2 by lia. f_equal. lia.
Qed.

Lemma holds_cons b a x l : holds b a (x :: l) ↔ b a = x ∧ holds b (a + 1) l.
Proof.
  rewrite (holds_app b a [x] l). split; intros [H1 H2]; (split; [|exact H2]).
  - specialize (H1 0%nat ltac:(simpl; lia)). by rewrite Z.add_0_r in H1.
  - intros i Hi. simpl in Hi. destruct i; [|lia]. by rewrite Z.add_0_r.
Qed.

Lemma holds_st8 b a l x v : holds b a l → x < a ∨ a + length l ≤ x → holds (st8 b x v) a l.
Proof. intros H Hx i Hi. unfold st8. destruct (Z.eqb_spec (a + i) x); [lia|]. by apply H. Qed.

Lemma put_before b a l x : x < a → put b a l x = b x.
Proof. revert b a. induction l as [|y l IH]; intros b a Hx; simpl; [done|]. rewrite IH by lia. unfold st8. zcases; lia. Qed.

Lemma holds_put b a l : holds (put b a l) a l.
Proof.
  revert b a. induction l as [|x l IH]; intros b a; [intros i Hi; simpl in Hi; lia|].
  apply holds_cons. split; [|apply IH]. simpl. rewrite put_before by lia. unfold st8. by rewrite Z.eqb_refl.
Qed.

Lemma holds_put_before b a l k : holds b a k → holds (put b (a + length k) l) a k.
Proof. intros H i Hi. rewrite put_before by lia. by apply H. Qed.

Lemma holds_bytes_at b a l : holds b a l → bytes_at b a (length l) = l.
Proof.
  intros H. apply list_eq; intros i. unfold bytes_at. rewrite list_lookup_fmap.
  destruct (decide (i < length l)%nat) as [Hi|Hi].
  - rewrite lookup_seq_lt by done. simpl. rewrite H by done. unfold cstr. rewrite nth_lookup. by destruct (lookup_lt_is_Some_2 l i Hi) as [x ->].
  - rewrite !lookup_ge_None_2; [done|lia|rewrite length_seq; lia].
Qed.

(** The scan of one buffer: the complete lines of [l] are searched, and the
    unfinished rest is left in the buffer from [p] on. *)
Lemma line_loop_spec pattern n l b p out :
  length l = n → holds b p (l ++ [0]) → 0 ∉ l → Z.of_nat n < GREPBUF →
  ∀ fuel, (n < fuel)%nat →
  ∃ b' p', line_loop pattern b p out fuel = Some (b', p', out ++ selected pattern (lines l)) ∧
    p' = p + n - length (tail_of l) ∧ holds b' p' (tail_of l).
Proof.
  revert l b p out. induction n as [n IH] using lt_wf_ind. intros l b p out Hl Hb H0 Hn [|fuel] Hf; [lia|].
  cbn [line_loop]. unfold GREPBUF in *. destruct (decide (10 ∈ l)) as [Hnl|Hnl].
  - destruct (first_newline l Hnl) as (a & r & -> & Ha). rewrite length_app in Hl. simpl in Hl.
    rewrite <- app_assoc in Hb. cbn [app] in Hb. apply holds_app in Hb as [Hba Hb]. apply holds_cons in Hb as [Hq Hr].
    unfold strchr. rewrite (strchr_from_found _ 10 0 (length a)); cbn [Nat.add]; [|intros k Hk|lia|by right].
    2:{ rewrite Hba by done. split; apply cstr_ne; set_solver. }
    rewrite Hq. cbn [truthy negb Z.eqb]. change (truthy 10) with true. cbn iota.
    assert (cprefix (λ i : nat, st8 b (p + length a) 0 (p + i)) (Z.to_nat 1024) = a) as ->.
    { apply cprefix_from_holds; [set_solver| |lia]. intros k Hk. cbn [Nat.add].
      destruct (decide (k < length a)%nat) as [Hk'|Hk'].
      - unfold st8. destruct (Z.eqb_spec (p + k) (p + length a)); [lia|]. by apply Hba.
      - replace k with (length a) by lia. unfold st8. rewrite Z.eqb_refl. unfold cstr. by rewrite nth_overflow by lia. }
    rewrite split_lines_first by done. cbn [fst snd].
    assert (∀ b', holds b' (p + length a + 1) (r ++ [0]) → ∀ out, ∃ b'' p',
      line_loop pattern b' (p + length a + 1) out fuel = Some (b'', p', out ++ selected pattern (lines r)) ∧
      p' = p + n - length (tail_of r) ∧ holds b'' p' (tail_of r)) as Hrest.
    { intros b' Hb' out'. destruct (IH (length r) ltac:(lia) r b' (p + length a + 1) out' eq_refl Hb' ltac:(set_solver) ltac:(lia) fuel ltac:(lia))
        as (b'' & p' & R & -> & Hh). exists b'', (p + length a + 1 + length r - length (tail_of r)).
      split; [done|]. split; [lia|done]. }
    change (selected pattern (a :: lines r)) with ((if match_ pattern a then a ++ [10] else []) ++ selected pattern (lines r)).
    destruct (match_ pattern a).
    + rewrite (app_assoc out). replace (Z.to_nat (p + length a + 1 - p)) with (length (a ++ [10])) by (rewrite length_app; simpl; lia).
      rewrite holds_bytes_at; [apply Hrest; repeat apply holds_st8; first [done|lia]|].
      apply holds_app. split; [do 2 (apply holds_st8; [|lia]); done|]. apply holds_cons. split; [|intros i Hi; simpl in Hi; lia].
      unfold st8. by rewrite Z.eqb_refl.
    + cbn [app]. apply Hrest. apply holds_st8; [done|lia].
  - rewrite (proj1 (split_lines_none l) Hnl). cbn [fst snd]. apply holds_app in Hb as [Hb Hz]. apply holds_cons in Hz as [Hz _].
    unfold strchr. rewrite (strchr_from_found _ 10 0 (length l)); cbn [Nat.add]; [|intros k Hk|lia|by left].
    2:{ rewrite Hb by done. by split; apply cstr_ne. }
    rewrite Hz. cbn. exists b, p. rewrite app_nil_r. split; [done|]. split; [lia|done].
Qed.

Lemma holds_memmove b p l : 0 ≤ p → holds b p l → holds (ulib_memmove b 0 p (length l)) 0 l.
Proof.
  intros Hp H i Hi. rewrite ulib_memmove_correct by lia. unfold blit.
  assert ((0 <=? 0 + i) && (0 + i <? 0 + length l) = true) as -> by (zcases; lia).
  rewrite Z.sub_0_r, Z.add_0_l. by apply H.
Qed.

(** The descriptor of a regular file with [r] still unread. *)
Definition at_rest (fd : list (list Z)) (r : list Z) : Prop := fd = [r] ∨ fd = [] ∧ r = [].

Lemma fd_read_rest fd r k : at_rest fd r → ∃ fd', fd_read fd k = (take k r, fd') ∧ at_rest fd' (drop k r).
Proof.
  intros [->|[-> ->]]; simpl.
  - eexists. split; [done|]. destruct (drop k r); [by right|by left].
  - exists []. rewrite take_nil, drop_nil. split; [done|by right].
Qed.

(** A buffer full without a newline is the start of a line that never ends. *)
Lemma overlong w r : 10 ∉ w → length w = 1023%nat ∨ r = [] →
  Forall (λ l, (length l < 1023)%nat) (lines (w ++ r)) → lines (w ++ r) = [] ∧ lines r = [].
Proof.
  intros Hw Hlen Hb. assert (10 ∉ r) as Hr.
  { intros Hin. destruct (first_newline r Hin) as (a & t & -> & Ha). destruct Hlen as [Hlen|Hlen]; [|by destruct a].
    rewrite app_assoc, split_lines_first in Hb by set_solver. apply Forall_cons_1 in Hb as [Hb _].
    rewrite length_app in Hb. lia. }
  rewrite (proj1 (split_lines_none r) Hr). rewrite (proj1 (split_lines_none (w ++ r))) by set_solver. done.
Qed.

Lemma grep_loop_spec pattern fuel b carry r fd out :
  at_rest fd r → holds b 0 carry → 10 ∉ carry → 0 ∉ carry ++ r → (length carry < 1023)%nat →
  Forall (λ l, (length l < 1023)%nat) (lines (carry ++ r)) → (length r < fuel)%nat →
  grep_loop pattern b (length carry) fd out fuel = Some (out ++ selected pattern (lines (carry ++ r))).
Proof.
  revert b carry r fd out. induction fuel as [|fuel IH]; intros b carry r fd out Hfd Hb Hnl H0 Hc Hlines Hf; [lia|].
  cbn [grep_loop]. replace (Z.to_nat (GREPBUF - length carry - 1)) with (1023 - length carry)%nat by (unfold GREPBUF; lia).
  destruct (fd_read_rest fd r (1023 - length carry) Hfd) as (fd' & -> & Hfd'). set (k := (1023 - length carry)%nat) in *.
  assert (length (take k r) = k ∨ drop k r = []) as Hk.
  { rewrite length_take. destruct (decide (k ≤ length r)%nat); [left; lia|right; apply drop_ge; lia]. }
  pose proof (take_drop k r) as Hr. pose proof (length_take_le r k) as _.
  assert (length (take k r) ≤ k)%nat as Hle by (rewrite length_take; lia).
  set (r' := drop k r) in *. set (data := take k r) in *. clearbody r' data. subst r.
  destruct data as [|x data]; [destruct Hk as [Hk| ->]; [simpl in Hk; lia|]|].
  { rewrite (proj1 (split_lines_none (carry ++ [] ++ []))) by set_solver. by rewrite app_nil_r. }
  set (dt := x :: data) in *. cbv zeta. rewrite (app_assoc carry) in *.
  assert (0 < length dt)%nat by (simpl; lia). clearbody dt. set (w := carry ++ dt) in *.
  assert (length w = (length carry + length dt)%nat) as Hw by apply length_app.
  rewrite <- Nat2Z.inj_add, <- Hw.
  destruct (line_loop_spec pattern (length w) w (st8 (put b (length carry) dt) (length w) 0) 0 out eq_refl)
    with (fuel := Z.to_nat (length w + 1)) as (b' & p' & -> & Hp & Hh); [|set_solver|unfold GREPBUF; lia|lia|].
  { apply holds_app. split; [|apply holds_cons; split; [unfold st8; by rewrite Z.eqb_refl|intros i Hi; simpl in Hi; lia]].
    apply holds_st8; [|lia]. apply holds_app. split; [exact (holds_put_before b 0 dt carry Hb)|apply holds_put]. }
  rewrite Z.add_0_l in Hp. destruct (decide (10 ∈ w)) as [Hin|Hin].
  - destruct (first_newline w Hin) as (a & t & Hat & Ha).
    assert (length (tail_of w) < length w)%nat as Hlt.
    { pose proof (f_equal length (split_lines_join t)) as Hj. rewrite length_app in Hj.
      rewrite Hat, split_lines_first, length_app by done. simpl. lia. }
    destruct (Z.eqb_spec p' 0); [lia|]. destruct (Z.ltb_spec 0 (length w)); [|lia].
    replace (length w - p') with (Z.of_nat (length (tail_of w))) by lia.
    rewrite split_lines_app in Hlines |- *. cbn [fst] in *. apply Forall_app in Hlines as [_ Hlines].
    assert (0 ∉ tail_of w) as Ht0.
    { intros Hz. apply H0. rewrite (split_lines_join w). set_solver. }
    rewrite IH with (r := r'); try done.
    + by rewrite selected_app, app_assoc.
    + apply holds_memmove; [lia|done].
    + apply tail_of_no_newline.
    + set_solver.
    + lia.
    + rewrite length_app in Hf. lia.
  - pose proof (proj1 (split_lines_none w) Hin) as Hsw. rewrite Hsw in Hp, Hh |- *. cbn [fst snd] in *.
    destruct (overlong w r' Hin) as [Hlw Hlr]; [destruct Hk; [left; lia|by right]|done|].
    destruct (Z.eqb_spec p' 0); [|lia]. rewrite Z.ltb_irrefl. rewrite Hlw, app_nil_r.
    change 0 with (Z.of_nat (length (@nil Z))) at 1. rewrite (IH _ [] r'); try done.
    + cbn [app]. by rewrite Hlr, app_nil_r.
    + intros i Hi. simpl in Hi. lia.
    + set_solver.
    + set_solver.
    + simpl. lia.
    + cbn [app]. by rewrite Hlr.
    + rewrite length_app in Hf. lia.
Qed.

(** C32: on a regular file without NUL bytes whose lines fit the buffer, [grep]
    prints exactly the lines that match, in order, each with its newline; a
    last line without newline is never printed. *)
Theorem grep_prints_matches pattern content :
  0 ∉ content → Forall (λ l, (length l < 1023)%nat) (lines content) →
  grep pattern [content] = Some (selected pattern (lines content)).
Proof.
  intros H0 Hl. unfold grep. change 0 with (Z.of_nat (length (@nil Z))) at 2.
  rewrite (grep_loop_spec pattern _ _ [] content [content] []); try done.
  - by left.
  - intros i Hi. simpl in Hi. lia.
  - set_solver.
  - simpl. lia.
  - simpl. rewrite app_nil_r. lia.
Qed.

Lemma grep_prints_matches_witness :
  grep (chars "^a.*z$") [chars "abz" ++ [10] ++ chars "zaz" ++ [10] ++ chars "az"] = Some (chars "abz" ++ [10]).
Proof.
  transitivity (Some (selected (chars "^a.*z$") (lines (chars "abz" ++ [10] ++ chars "zaz" ++ [10] ++ chars "az")))); [|reflexivity].
  apply grep_prints_matches.
  - by apply (bool_decide_unpack _).
  - by apply (bool_decide_unpack _).
Defined.

(** When a read ends inside a line and the buffer holds no newline yet, what
    was read is thrown away: the line [ab], delivered in two reads, is
    searched without its first byte. *)
Lemma grep_drops_partial_line :
  grep (chars "ab") [chars "a"; chars "b" ++ [10]] = Some [] ∧
  grep (chars "ab") [chars "ab" ++ [10]] = Some (chars "ab" ++ [10]).
Proof. split; vm_compute; reflexivity. Qed.
