(* ===== verification/Sh.v ===== *)
(** * The shell's parser: sh.c

    A command line is a C string, the list [l] of its bytes before the NUL;
    pointers into it are indices, and [*ps] is the state of the parsing
    functions.  A parsed command is a tree whose leaves keep the start and end
    index of each word, as the C structures keep pointers; [nulterminate]
    then stores NULs into the line.  [panic] prints and exits, so it ends the
    parse with the message.  [malloc] is taken to succeed: a constructor of
    [cmd] stands for the block the source fills. *)
From S2P Require Import Prelude Str Printf.

Inductive cmd :=
| EXEC (argv : list (nat * nat))
| REDIR (c : cmd) (file efile : nat) (mode fd : Z)
| PIPE (left right : cmd)
| LIST (left right : cmd)
| BACK (c : cmd).

Definition MAXARGS : nat := 10.
Definition O_RDONLY : Z := 0.
Definition O_WRONLY : Z := 1.
Definition O_CREATE : Z := 0x200.

(** [" \t\r\n\v"] and ["<|>&;()"]. *)
Definition whitespace : list Z := [32; 9; 13; 10; 11].
Definition symbols : list Z := [60; 124; 62; 38; 59; 40; 41].

(** [strchr(toks, c) != 0]. *)
Definition has (toks : list Z) (c : Z) : bool :=
  match strchr (cstr toks) c (S (length toks)) with Some (Some _) => true | _ => false end.
Definition is_ws (c : Z) : bool := has whitespace c.
Definition is_word (c : Z) : bool := negb (has whitespace c) && negb (has symbols c).

(** ** Parsing *)

Section parser.
Context (l : list Z).

(** [*s] for a pointer into the line; [es] points at the NUL. *)
Definition at_ (s : nat) : Z := cstr l s.
Definition es : nat := length l.

(** [while(s < es && p( *s)) s++], from [s], with [n = es - s]. *)
Fixpoint skip (p : Z → bool) (s n : nat) : nat :=
  match n with
  | O => s
  | S n => if p (at_ s) then skip p (S s) n else s
  end.
Definition skip_ws (s : nat) : nat := skip is_ws s (es - s).

(** The token, its start and its end. *)
Definition gettoken : M nat (Z * nat * nat) := λ ps,
  let s := skip_ws ps in
  let q := s in
  let c := at_ s in
  let '(tok, s) :=
    if c =? 0 then (c, s)
    else if has [124; 40; 41; 59; 38; 60] c then (c, S s)
    else if c =? 62 then (if at_ (S s) =? 62 then (43, S (S s)) else (c, S s))
    else (97, skip is_word s (es - s)) in
  Ok (tok, q, s) (skip_ws s).

Definition peek (toks : list Z) : M nat bool := λ ps,
  let s := skip_ws ps in
  Ok (truthy (at_ s) && has toks (at_ s)) s.

Definition out_of_fuel {A} : M nat A := λ _, Fuel.

(** [peek(ps, es, "<>")] loop of [parseredirs]. *)
Fixpoint redirs_loop (fuel : nat) (c : cmd) : M nat cmd :=
  match fuel with
  | O => out_of_fuel
  | S fuel =>
      let! more := peek [60; 62] in
      if negb more then ret c else
      let! (tok, _, _) := gettoken in
      let! (a, q, eq) := gettoken in
      if negb (a =? 97) then panic "missing file for redirection" else
      redirs_loop fuel
        (if tok =? 60 then REDIR c q eq O_RDONLY 0
         else if tok =? 62 then REDIR c q eq (Z.lor O_WRONLY O_CREATE) 1
         else if tok =? 43 then REDIR c q eq (Z.lor O_WRONLY O_CREATE) 1
         else c)
  end.
Definition parseredirs (c : cmd) : M nat cmd := redirs_loop (S es) c.

(** [cmd->argv[argc] = q; cmd->eargv[argc] = eq]: [cmd] points at the EXEC node
    at the bottom of the redirections [ret] has been wrapped in. *)
Fixpoint add_arg (c : cmd) (a : nat * nat) : cmd :=
  match c with
  | EXEC argv => EXEC (argv ++ [a])
  | REDIR c f e m d => REDIR (add_arg c a) f e m d
  | _ => c
  end.

(** The argument loop of [parseexec]. *)
Fixpoint args_loop (fuel : nat) (argc : nat) (c : cmd) : M nat cmd :=
  match fuel with
  | O => out_of_fuel
  | S fuel =>
      let! stop := peek [124; 41; 38; 59] in
      if stop : bool then ret c else
      let! (tok, q, eq) := gettoken in
      if tok =? 0 then ret c
      else if negb (tok =? 97) then panic "syntax"
      else
        let c := add_arg c (q, eq) in
        let argc := S argc in
        if (MAXARGS <=? argc)%nat then panic "too many args" else
        let! c := parseredirs c in
        args_loop fuel argc c
  end.

(** [while(peek(ps, es, "&"))] of [parseline]. *)
Fixpoint back_loop (fuel : nat) (c : cmd) : M nat cmd :=
  match fuel with
  | O => out_of_fuel
  | S fuel =>
      let! more := peek [38] in
      if negb more then ret c else
      do! gettoken in
      back_loop fuel (BACK c)
  end.

Fixpoint parseline (fuel : nat) : M nat cmd :=
  match fuel with
  | O => out_of_fuel
  | S fuel =>
      let! c := parsepipe fuel in
      let! c := back_loop (S es) c in
      let! more := peek [59] in
      if more : bool then
        do! gettoken in
        let! c' := parseline fuel in
        ret (LIST c c')
      else ret c
  end
with parsepipe (fuel : nat) : M nat cmd :=
  match fuel with
  | O => out_of_fuel
  | S fuel =>
      let! c := parseexec fuel in
      let! more := peek [124] in
      if more : bool then
        do! gettoken in
        let! c' := parsepipe fuel in
        ret (PIPE c c')
      else ret c
  end
with parseexec (fuel : nat) : M nat cmd :=
  match fuel with
  | O => out_of_fuel
  | S fuel =>
      let! block := peek [40] in
      if block : bool then parseblock fuel else
      let! c := parseredirs (EXEC []) in
      args_loop (S es) 0 c
  end
with parseblock (fuel : nat) : M nat cmd :=
  match fuel with
  | O => out_of_fuel
  | S fuel =>
      let! op := peek [40] in
      if negb op then panic "parseblock" else
      do! gettoken in
      let! c := parseline fuel in
      let! cl := peek [41] in
      if negb cl then panic "syntax - missing )" else
      do! gettoken in
      parseredirs c
  end.
End parser.

(** [nulterminate]: the stores into the line's buffer, in order. *)
Fixpoint nulterminate (c : cmd) (buf : list Z) : list Z :=
  match c with
  | EXEC argv => foldl (λ buf a, <[a.2 := 0]> buf) buf argv
  | REDIR c _ efile _ _ => <[efile := 0]> (nulterminate c buf)
  | PIPE a b | LIST a b => nulterminate b (nulterminate a buf)
  | BACK c => nulterminate c buf
  end.

(** Four levels of functions, one level at least for every character left. *)
Definition parse_fuel (l : list Z) : nat := 4 * S (length l).

(** [parsecmd]: the command and the buffer its strings are read from. *)
Definition parsecmd (l : list Z) : res nat (cmd * list Z) :=
  (let! c := parseline l (parse_fuel l) in
   do! peek l [] in
   let! s := get in
   if negb (s =? es l)%nat then panic "syntax"
   else ret (c, nulterminate c (l ++ [0]))) O.

(** ** What the parser returns *)

(** The start and end of every word of a command. *)
Fixpoint spans (c : cmd) : list (nat * nat) :=
  match c with
  | EXEC argv => argv
  | REDIR c f e _ _ => spans c ++ [(f, e)]
  | PIPE a b | LIST a b => spans a ++ spans b
  | BACK c => spans c
  end.

(** The number of arguments of a command with redirections around it. *)
Fixpoint nargs (c : cmd) : option nat :=
  match c with
  | EXEC argv => Some (length argv)
  | REDIR c _ _ _ _ => nargs c
  | _ => None
  end.

(** Every argument vector has room for the null pointer at its end. *)
Fixpoint args_fit (c : cmd) : Prop :=
  match c with
  | EXEC argv => (length argv < MAXARGS)%nat
  | REDIR c _ _ _ _ => args_fit c
  | PIPE a b | LIST a b => args_fit a ∧ args_fit b
  | BACK c => args_fit c
  end.

(** Only the standard input and output are ever redirected. *)
Fixpoint fds_ok (c : cmd) : Prop :=
  match c with
  | EXEC _ => True
  | REDIR c _ _ _ fd => (fd = 0 ∨ fd = 1) ∧ fds_ok c
  | PIPE a b | LIST a b => fds_ok a ∧ fds_ok b
  | BACK c => fds_ok c
  end.

Lemma nulterminate_spans c buf : nulterminate c buf = foldl (λ buf a, <[a.2 := 0]> buf) buf (spans c).
Proof.
  revert buf. induction c as [argv|c IH f e m d|a IHa b IHb|a IHa b IHb|c IH]; intros buf; simpl; [done|..].
  - by rewrite foldl_app, IH.
  - by rewrite foldl_app, IHb, IHa.
  - by rewrite foldl_app, IHb, IHa.
  - done.
Qed.

Lemma has_spec toks c : 0 ∉ toks → has toks c = true ↔ c ∈ toks.
Proof.
  unfold has, strchr. intros H0.
  assert (∀ fuel i, (length toks < i + fuel)%nat → (i ≤ length toks)%nat →
    (match strchr_from (cstr toks) c i fuel with Some (Some _) => true | _ => false end = true ↔ c ∈ drop i toks)) as H.
  { induction fuel as [|fuel IH]; intros i Hf Hi; [lia|]. cbn [strchr_from]. unfold cstr at 1 2.
    destruct (decide (i < length toks)%nat) as [Hlt|Hge].
    - destruct (lookup_lt_is_Some_2 toks i Hlt) as [x Hx]. rewrite nth_lookup, Hx. change (default 0 (Some x)) with x.
      rewrite (proj2 (truthy_true x)) by (intros ->; apply H0; by eapply list_elem_of_lookup_2).
      rewrite (drop_S toks x i Hx), elem_of_cons. destruct (Z.eqb_spec x c) as [->|Hxc]; [naive_solver|].
      rewrite IH by lia. naive_solver.
    - rewrite nth_overflow by lia. rewrite drop_ge by lia. cbn. split; [done|]. by intros ?%not_elem_of_nil. }
  by rewrite (H (S (length toks)) O) by lia.
Qed.

Section correct.
Context (l : list Z).

Lemma at_es : at_ l (es l) = 0.
Proof. unfold at_, cstr, es. by rewrite nth_overflow. Qed.
Lemma at_nonzero s : (s ≤ es l)%nat → at_ l s ≠ 0 → (s < es l)%nat.
Proof. intros Hs Ha. destruct (decide (s = es l)) as [->|]; [by rewrite at_es in Ha|lia]. Qed.

(** A word: a nonempty run of word characters that ends where no word
    character follows. *)
Definition word (w : nat * nat) : Prop :=
  (w.1 < w.2)%nat ∧ (w.2 ≤ es l)%nat ∧
  (∀ i, (w.1 ≤ i < w.2)%nat → is_word (at_ l i) = true) ∧
  (w.2 = es l ∨ is_word (at_ l w.2) = false).
Definition lexed (c : cmd) : Prop := Forall word (spans c) ∧ fds_ok c.
Definition wf (c : cmd) : Prop := lexed c ∧ args_fit c.

(** The code ends, and when it returns the result satisfies [Q]. *)
Definition runs {A} (m : M nat A) (s : nat) (Q : A → nat → Prop) : Prop :=
  match m s with Ok a s' => Q a s' | Panic _ => True | _ => False end.

Lemma runs_bind {A B} (m : M nat A) (k : A → M nat B) s P Q :
  runs m s P → (∀ a s', P a s' → runs (k a) s' Q) → runs (bind m k) s Q.
Proof. unfold runs, bind. destruct (m s); naive_solver. Qed.
Lemma runs_ret {A} (a : A) s (Q : A → nat → Prop) : Q a s → runs (ret a) s Q.
Proof. done. Qed.
Lemma runs_panic {A} msg s (Q : A → nat → Prop) : runs (panic msg) s Q.
Proof. done. Qed.
Lemma runs_weaken {A} (m : M nat A) s (P Q : A → nat → Prop) :
  runs m s P → (∀ a s', P a s' → Q a s') → runs m s Q.
Proof. unfold runs. destruct (m s); naive_solver. Qed.

Lemma skip_spec p s n :
  (s ≤ skip l p s n ≤ s + n)%nat ∧ (∀ i, (s ≤ i < skip l p s n)%nat → p (at_ l i) = true) ∧
  (skip l p s n = (s + n)%nat ∨ p (at_ l (skip l p s n)) = false).
Proof.
  revert s. induction n as [|n IH]; intros s; simpl.
  - split; [lia|]. split; [lia|]. left. lia.
  - destruct (p (at_ l s)) eqn:Hp.
    + destruct (IH (S s)) as (H1 & H2 & H3). split; [lia|]. split.
      * intros i Hi. destruct (decide (i = s)) as [->|]; [done|]. apply H2. lia.
      * destruct H3; [left; lia|by right].
    + split; [lia|]. split; [lia|by right].
Qed.

Lemma skip_ws_spec s : (s ≤ es l)%nat →
  (s ≤ skip_ws l s ≤ es l)%nat ∧ (skip_ws l s = es l ∨ is_ws (at_ l (skip_ws l s)) = false).
Proof. intros Hs. destruct (skip_spec is_ws s (es l - s)) as (H1 & _ & H3). unfold skip_ws. split; [lia|]. destruct H3; [left; lia|by right]. Qed.

Lemma skip_ws_idem s : (s ≤ es l)%nat → skip_ws l (skip_ws l s) = skip_ws l s.
Proof.
  intros Hs. destruct (skip_ws_spec s Hs) as [H1 [->|H2]]; unfold skip_ws at 1; [by rewrite Nat.sub_diag|].
  destruct (es l - skip_ws l s)%nat; simpl; [done|]. by rewrite H2.
Qed.

Lemma is_word_not_symbol c : is_ws c = false → has [124; 40; 41; 59; 38; 60] c = false → c ≠ 62 → is_word c = true.
Proof.
  intros Hw Hs Hc. unfold is_word. unfold is_ws in Hw. rewrite Hw. simpl. apply negb_true_iff, not_true_iff_false.
  intros H. apply has_spec in H; [|set_solver]. apply not_true_iff_false in Hs. rewrite has_spec in Hs by set_solver.
  unfold symbols in H. set_solver.
Qed.

Lemma gettoken_spec s : (s ≤ es l)%nat →
  runs (gettoken l) s (λ '(tok, q, eq) s', (s ≤ s' ≤ es l)%nat ∧ (tok = 97 → word (q, eq)) ∧
    (at_ l (skip_ws l s) ≠ 0 → (s < s')%nat) ∧ (tok = 97 → (s < s')%nat)).
Proof.
  intros Hs. unfold runs, gettoken. destruct (skip_ws_spec s Hs) as [H1 H2]. set (s1 := skip_ws l s) in *.
  assert (∀ s2, (s1 ≤ s2 ≤ es l)%nat → (s ≤ skip_ws l s2 ≤ es l)%nat ∧ (s1 < s2 → s < skip_ws l s2)%nat) as Hend.
  { intros s2 Hs2. destruct (skip_ws_spec s2) as [? _]; lia. }
  destruct (Z.eqb_spec (at_ l s1) 0) as [Hc|Hc].
  { rewrite Hc. destruct (Hend s1) as [? _]; [lia|]. done. }
  pose proof (at_nonzero s1 ltac:(lia) Hc) as Hlt. destruct H2 as [H2|H2]; [lia|].
  destruct (has [124; 40; 41; 59; 38; 60] (at_ l s1)) eqn:Hsym.
  { destruct (Hend (S s1)) as [? Hgt]; [lia|]. split; [done|].
    assert (at_ l s1 ≠ 97) by (apply has_spec in Hsym; [intros E; rewrite E in Hsym|]; set_solver).
    split; [done|]. split; [intros _; apply Hgt; lia|done]. }
  destruct (Z.eqb_spec (at_ l s1) 62) as [E|E].
  { rewrite E. destruct (Z.eqb_spec (at_ l (S s1)) 62) as [E2|E2].
    - assert (S s1 < es l)%nat by (apply at_nonzero; [lia|by rewrite E2]).
      destruct (Hend (S (S s1))) as [? Hgt]; [lia|]. split; [done|]. split; [done|]. split; [intros _; apply Hgt; lia|done].
    - destruct (Hend (S s1)) as [? Hgt]; [lia|]. split; [done|]. split; [done|]. split; [intros _; apply Hgt; lia|done]. }
  pose proof (is_word_not_symbol _ H2 Hsym E) as Hw.
  destruct (skip_spec is_word s1 (es l - s1)) as (K1 & K2 & K3). set (e := skip l is_word s1 (es l - s1)) in *.
  assert (s1 < e)%nat.
  { destruct (decide (s1 = e)) as [Heq|]; [|lia]. destruct K3 as [K3|K3]; [lia|]. rewrite <- Heq in K3. congruence. }
  destruct (Hend e) as [? Hgt]; [lia|]. split; [done|]. split.
  - intros _. split; [done|]. split; [simpl; lia|]. split; [done|]. destruct K3; [left; simpl; lia|by right].
  - split; intros _; apply Hgt; lia.
Qed.

Lemma peek_spec toks s : (s ≤ es l)%nat →
  runs (peek l toks) s (λ b s', (s ≤ s' ≤ es l)%nat ∧ (b = true → at_ l (skip_ws l s') ≠ 0)).
Proof.
  intros Hs. unfold runs, peek. destruct (skip_ws_spec s Hs) as [H1 _]. split; [done|].
  rewrite skip_ws_idem by done. intros [H _]%andb_true_iff. by apply truthy_true.
Qed.

Lemma redirs_loop_spec fuel c s : (s ≤ es l)%nat → (es l - s < fuel)%nat → lexed c →
  runs (redirs_loop l fuel c) s (λ c' s', (s ≤ s' ≤ es l)%nat ∧ lexed c' ∧ nargs c' = nargs c ∧ (args_fit c → args_fit c')).
Proof.
  revert c s. induction fuel as [|fuel IH]; intros c s Hs Hf Hc; [lia|]. cbn [redirs_loop].
  eapply runs_bind; [by apply peek_spec|]. intros more s1 [H1 Hm]. destruct more; [|done]. specialize (Hm eq_refl).
  cbn [negb]. eapply runs_bind; [apply gettoken_spec; lia|]. intros [[tok ?] ?] s2 (H2 & _ & Hadv & _). specialize (Hadv Hm).
  eapply runs_bind; [apply gettoken_spec; lia|]. intros [[a q] e] s3 (H3 & Hw & _).
  destruct (Z.eqb_spec a 97) as [->|]; [|done]. specialize (Hw eq_refl). cbn [negb].
  assert (∀ m d, d = 0 ∨ d = 1 → lexed (REDIR c q e m d)) as Hr.
  { intros m d Hd. destruct Hc. split; [|by split]. simpl. apply Forall_app. by split; [|apply Forall_singleton]. }
  eapply runs_weaken; [apply IH; [lia|lia|repeat case_match; auto]|].
  intros c' s' (Hr1 & Hr2 & Hr3 & Hr4). split; [lia|]. split; [done|]. rewrite Hr3.
  split; [by repeat case_match|]. intros Hfit. apply Hr4. by repeat case_match.
Qed.

Lemma add_arg_lexed c a n : nargs c = Some n → lexed c → word a → lexed (add_arg c a).
Proof.
  unfold lexed. induction c as [argv|c IH f e m d| | |]; simpl; intros Hn [Hc Hd] Ha; try done.
  - split; [|done]. apply Forall_app. by split; [|apply Forall_singleton].
  - apply Forall_app in Hc as [Hc Hf]. destruct Hd, IH; [done..|]. split; [by apply Forall_app|done].
Qed.
Lemma add_arg_nargs c a n : nargs c = Some n → nargs (add_arg c a) = Some (S n).
Proof. induction c; simpl; try done; try (by auto). intros [= <-]. by rewrite length_app, Nat.add_1_r. Qed.
Lemma nargs_fit c n : nargs c = Some n → (n < MAXARGS)%nat → args_fit c.
Proof. induction c; simpl; try done; try (by auto). by intros [= <-]. Qed.

(** Where the functions of the grammar stop: a well-formed command, further on. *)
Definition parsed (s : nat) (c : cmd) (s' : nat) : Prop := (s ≤ s' ≤ es l)%nat ∧ wf c.

Lemma args_loop_spec fuel argc c s : (s ≤ es l)%nat → (es l - s < fuel)%nat →
  lexed c → nargs c = Some argc → (argc < MAXARGS)%nat →
  runs (args_loop l fuel argc c) s (parsed s).
Proof.
  revert argc c s. induction fuel as [|fuel IH]; intros argc c s Hs Hf Hc Hn Ha; [lia|]. cbn [args_loop].
  assert (wf c) as Hwf by (split; [done|by eapply nargs_fit]).
  eapply runs_bind; [by apply peek_spec|]. intros stop s1 [H1 _]. destruct stop; [by split|].
  eapply runs_bind; [apply gettoken_spec; lia|]. intros [[tok q] e] s2 (H2 & Hw & _ & Hadv).
  destruct (tok =? 0); [apply runs_ret; split; [lia|done]|]. destruct (Z.eqb_spec tok 97) as [->|]; [|done].
  specialize (Hw eq_refl). specialize (Hadv eq_refl). cbn [negb].
  destruct (Nat.leb_spec MAXARGS (S argc)); [done|].
  eapply runs_bind; [apply redirs_loop_spec; [lia|lia|by eapply add_arg_lexed]|].
  intros c' s3 (H3 & Hc' & Hn' & _). rewrite (add_arg_nargs c (q, e) argc Hn) in Hn'.
  eapply runs_weaken; [apply IH; first [done|lia]|]. intros c'' s' [? ?]. split; [lia|done].
Qed.

Lemma back_loop_spec fuel c s : (s ≤ es l)%nat → (es l - s < fuel)%nat → wf c → runs (back_loop l fuel c) s (parsed s).
Proof.
  revert c s. induction fuel as [|fuel IH]; intros c s Hs Hf Hc; [lia|]. cbn [back_loop].
  eapply runs_bind; [by apply peek_spec|]. intros more s1 [H1 Hm]. destruct more; [|by split]. specialize (Hm eq_refl). cbn [negb].
  eapply runs_bind; [apply gettoken_spec; lia|]. intros [[? ?] ?] s2 (H2 & _ & Hadv & _). specialize (Hadv Hm).
  eapply runs_weaken; [apply IH; [lia|lia|done]|]. intros c' s' [? ?]. split; [lia|done].
Qed.

Lemma wf_pair c c' : wf c → wf c' → wf (LIST c c') ∧ wf (PIPE c c').
Proof. intros [[H1 H1'] H2] [[H3 H3'] H4]. split; (split; [split; [simpl; by apply Forall_app|done]|done]). Qed.

(** The four functions of the grammar, each with the fuel it needs at [s]. *)
Lemma parse_spec fuel s : (s ≤ es l)%nat →
  ((4 * (es l - s) + 4 ≤ fuel)%nat → runs (parseline l fuel) s (parsed s)) ∧
  ((4 * (es l - s) + 3 ≤ fuel)%nat → runs (parsepipe l fuel) s (parsed s)) ∧
  ((4 * (es l - s) + 2 ≤ fuel)%nat → runs (parseexec l fuel) s (parsed s)) ∧
  ((4 * (es l - s) + 1 ≤ fuel)%nat → runs (parseblock l fuel) s (parsed s)).
Proof.
  revert s. induction fuel as [|fuel IH]; intros s Hs; [repeat split; lia|].
  split; [|split; [|split]]; intros Hf; cbn [parseline parsepipe parseexec parseblock].
  - eapply runs_bind; [apply (IH s); lia|]. intros c s1 [H1 Hc].
    eapply runs_bind; [apply back_loop_spec; [lia|lia|done]|]. intros c1 s2 [H2 Hc1].
    eapply runs_bind; [apply peek_spec; lia|]. intros more s3 [H3 Hm]. destruct more; [|split; [lia|done]].
    eapply runs_bind; [apply gettoken_spec; lia|]. intros [[? ?] ?] s4 (H4 & _ & Hadv & _). specialize (Hadv (Hm eq_refl)).
    eapply runs_bind; [apply (IH s4); lia|]. intros c2 s5 [H5 Hc2]. split; [lia|by apply wf_pair].
  - eapply runs_bind; [apply (IH s); lia|]. intros c s1 [H1 Hc].
    eapply runs_bind; [apply peek_spec; lia|]. intros more s3 [H3 Hm]. destruct more; [|split; [lia|done]].
    eapply runs_bind; [apply gettoken_spec; lia|]. intros [[? ?] ?] s4 (H4 & _ & Hadv & _). specialize (Hadv (Hm eq_refl)).
    eapply runs_bind; [apply (IH s4); lia|]. intros c2 s5 [H5 Hc2]. split; [lia|by apply wf_pair].
  - eapply runs_bind; [apply peek_spec; lia|]. intros block s1 [H1 _]. destruct block.
    + eapply runs_weaken; [apply (IH s1); lia|]. intros c s' [? ?]. split; [lia|done].
    + eapply runs_bind; [apply redirs_loop_spec; [lia|lia|by split; [constructor|]]|]. intros c s2 (H2 & Hc & Hn & _).
      eapply runs_weaken; [apply args_loop_spec; first [done|lia|unfold MAXARGS; lia]|].
      intros c' s' [? ?]. split; [lia|done].
  - eapply runs_bind; [apply peek_spec; lia|]. intros op s1 [H1 Hm]. destruct op; [|done]. cbn [negb].
    eapply runs_bind; [apply gettoken_spec; lia|]. intros [[? ?] ?] s4 (H4 & _ & Hadv & _). specialize (Hadv (Hm eq_refl)).
    eapply runs_bind; [apply (IH s4); lia|]. intros c s5 [H5 Hc].
    eapply runs_bind; [apply peek_spec; lia|]. intros cl s6 [H6 _]. destruct cl; [|done]. cbn [negb].
    eapply runs_bind; [apply gettoken_spec; lia|]. intros [[? ?] ?] s7 (H7 & _).
    eapply runs_weaken; [apply redirs_loop_spec; [lia|lia|apply Hc]|]. intros c' s' (? & ? & _ & Hfit). split; [lia|].
    split; [done|apply Hfit, Hc].
Qed.

Lemma parsecmd_spec :
  runs (λ _, parsecmd l) 0%nat (λ r _, wf r.1 ∧ r.2 = nulterminate r.1 (l ++ [0])).
Proof.
  unfold parsecmd. apply runs_bind with (P := parsed 0).
  - apply (parse_spec (parse_fuel l) 0); unfold parse_fuel, es; lia.
  - intros c s [Hs Hc]. eapply runs_bind; [apply peek_spec; lia|]. intros _ s' _.
    unfold runs, bind, get. by destruct (s' =? es l)%nat; cbn.
Qed.
End correct.

(** C29: the parser ends on every line, however nested: the fuel of the model
    is never used up, so [parsecmd] returns a command or stops with one of its
    error messages. *)
Theorem parsecmd_terminates l :
  (∃ c buf s, parsecmd l = Ok (c, buf) s) ∨ ∃ msg, parsecmd l = Panic msg.
Proof.
  pose proof (parsecmd_spec l) as H. unfold runs in H.
  destruct (parsecmd l) as [[c buf] s|msg| |]; try done; eauto.
Qed.

(** The strings [nulterminate] leaves behind: the NULs go to the ends of words
    only, so every word stays whole and ends at its own NUL. *)
Lemma lookup_stores (ws : list (nat * nat)) (buf : list Z) (i : nat) :
  foldl (λ buf a, <[a.2 := 0]> buf) buf ws !! i = (if decide (i ∈ ws.*2) then (λ _, 0) <$> buf !! i else buf !! i).
Proof.
  revert buf. induction ws as [|w ws IH]; intros buf; cbn [foldl fmap list_fmap]; [done|]. rewrite IH.
  destruct (decide (i = w.2)) as [->|Hi].
  - rewrite (decide_True (P := w.2 ∈ w.2 :: _)) by set_solver.
    destruct (decide (w.2 < length buf)%nat) as [Hlt|Hge].
    + rewrite list_lookup_insert_eq by done. destruct (lookup_lt_is_Some_2 buf w.2 Hlt) as [x ->]. by case_decide.
    + rewrite list_insert_ge by lia. rewrite lookup_ge_None_2 by lia. by case_decide.
  - rewrite list_lookup_insert_ne by done. do 2 case_decide; set_solver.
Qed.

(** C30: when [parsecmd] accepts a line, every argument vector has room for its
    final null pointer, and every word (argument or file name), read as a C
    string from the buffer that [nulterminate] has written into, is exactly
    the run of word characters of the line at that place. *)
Theorem parsed_words l c buf s w :
  0 ∉ l → parsecmd l = Ok (c, buf) s → w ∈ spans c →
  args_fit c ∧ word l w ∧
  cprefix (λ i, cstr buf (w.1 + i)) (S (length l)) = subarr l w.1 (w.2 - w.1).
Proof.
  intros Hl Hp Hw. pose proof (parsecmd_spec l) as H. unfold runs in H. rewrite Hp in H. cbn in H.
  destruct H as [[[Hws _] Hfit] ->]. split; [done|]. rewrite list.Forall_forall in Hws. pose proof (Hws w Hw) as Hword.
  split; [done|]. destruct Hword as (H1 & H2 & H3 & H4). unfold es in *.
  assert (∀ i, i ∈ (spans c).*2 → i = length l ∨ is_word (at_ l i) = false) as Hends.
  { intros i Hi. apply list_elem_of_fmap in Hi as (w' & -> & Hw'). by destruct (Hws w' Hw') as (_ & _ & _ & H). }
  apply cprefix_from_holds.
  - intros H0. apply Hl. unfold subarr in H0. apply elem_of_prefix in H0. rewrite <- (take_drop w.1 l). set_solver.
  - intros k Hk. rewrite length_subarr in Hk by lia. cbn [Nat.add]. unfold cstr. rewrite !nth_lookup.
    rewrite nulterminate_spans, lookup_stores. case_decide as Hin.
    + assert (k = (w.2 - w.1)%nat) as ->.
      { destruct (Hends _ Hin) as [E|E]; [lia|]. destruct (decide (k = w.2 - w.1)%nat); [done|]. rewrite H3 in E by lia. done. }
      rewrite (lookup_ge_None_2 (subarr _ _ _)) by (rewrite length_subarr; lia). by destruct (_ !! _).
    + assert (k < w.2 - w.1)%nat as Hlt.
      { destruct (decide (k = w.2 - w.1)%nat) as [->|]; [|lia]. destruct Hin. replace (w.1 + (w.2 - w.1))%nat with w.2 by lia.
        by apply list_elem_of_fmap_2. }
      rewrite lookup_subarr by done. by rewrite lookup_app_l by lia.
  - rewrite length_subarr by lia. lia.
Qed.

Lemma parsed_words_witness :
  ∃ c buf s, parsecmd (chars "cat<in | wc") = Ok (c, buf) s ∧
    cprefix (λ i, cstr buf (4 + i)) 12 = chars "in".
Proof.
  destruct (parsecmd (chars "cat<in | wc")) as [[c buf] s| | |] eqn:E; try (exfalso; revert E; vm_compute; discriminate).
  exists c, buf, s. split; [reflexivity|].
  assert ((4%nat, 6%nat) ∈ spans c) as Hin.
  { revert E. vm_compute. intros [= <- _ _]. apply (list_elem_of_lookup_2 _ 1). reflexivity. }
  destruct (parsed_words (chars "cat<in | wc") c buf s (4%nat, 6%nat)) as (_ & _ & H); [by apply (bool_decide_unpack _)|exact E|exact Hin|].
  exact H.
Defined.
