(* ===== verification/ShRun.v ===== *)
(** * Running commands: runcmd, getcmd and main of sh.c

    A shell process is a tree of the system calls it makes: each node names a
    call and the rest of the program for every result it can have.  The
    programs are translated from the source; [run] then gives them the
    descriptor semantics of the kernel (tables are copied by fork, the lowest
    free descriptor is used, as [Sysfile] shows of [fdalloc]) and collects the
    programs executed with the table they start with. *)
From S2P Require Import Prelude Str Printf Sh.

Inductive prog :=
| Exit
| Exec (argv : list (list Z)) (failed : prog)
| Close (fd : Z) (k : prog)
| Open (file : list Z) (mode : Z) (k : Z → prog)
| Dup (fd : Z) (k : Z → prog)
| Pipe (k : option (Z * Z) → prog)
| Fork (k : Z → prog)
| Wait (k : prog)
| Write (fd : Z) (text : option (list Z)) (k : prog).

(** ** The programs *)

Definition panic_ (s : string) : prog := Write 2 (printf (λ _, 1) (λ _, chars s) (chars "%s" ++ [10])) Exit.
Definition fork1 (k : Z → prog) : prog := Fork (λ pid, if pid =? -1 then panic_ "fork" else k pid).

Section runcmd.
(** The string at a word of the command. *)
Context (str : nat * nat → list Z).

(** [runcmd] never returns, so it has no continuation. *)
Fixpoint runcmd (c : cmd) : prog :=
  match c with
  | EXEC argv =>
      match argv with
      | [] => Exit
      | a :: _ =>
          Exec (str <$> argv)
            (Write 2 (printf (λ _, 1) (λ _, str a) (chars "exec %s failed" ++ [10])) Exit)
      end
  | REDIR c file efile mode fd =>
      Close fd
        (Open (str (file, efile)) mode (λ r,
          if r <? 0 then
            Write 2 (printf (λ _, 1) (λ _, str (file, efile)) (chars "open %s failed" ++ [10])) Exit
          else runcmd c))
  | LIST a b =>
      fork1 (λ pid, if pid =? 0 then runcmd a else Wait (runcmd b))
  | PIPE a b =>
      Pipe (λ r,
        match r with
        | None => panic_ "pipe"
        | Some (p0, p1) =>
            fork1 (λ pid, if pid =? 0 then
              Close 1 (Dup p1 (λ _, Close p0 (Close p1 (runcmd a))))
            else
            fork1 (λ pid, if pid =? 0 then
              Close 0 (Dup p0 (λ _, Close p0 (Close p1 (runcmd b))))
            else
              Close p0 (Close p1 (Wait (Wait Exit)))))
        end)
  | BACK c =>
      fork1 (λ pid, if pid =? 0 then runcmd c else Exit)
  end.
End runcmd.

(** The first loop of [main]: open the console until descriptors 0, 1 and 2 are
    in use.  At most [NOFILE] opens succeed. *)
Fixpoint console_loop (fuel : nat) (k : prog) : prog :=
  match fuel with
  | O => k
  | S fuel =>
      Open (chars "console") 2 (λ fd,
        if fd <? 0 then k
        else if 3 <=? fd then Close fd k
        else console_loop fuel k)
  end.
Definition open_console (k : prog) : prog := console_loop 17 k.

(** [gets(buf, max)] on the bytes standard input still has; [i] of them are in
    the buffer, in reverse.  (ulib.c) *)
Fixpoint gets_loop (input : list Z) (n : nat) : list Z * list Z :=
  match n, input with
  | S n, c :: input =>
      if (c =? 10) || (c =? 13) then ([c], input)
      else let '(l, input) := gets_loop input n in (c :: l, input)
  | _, _ => ([], input)
  end.
Definition gets (input : list Z) (max : nat) : list Z * list Z := gets_loop input (max - 1).

(** [getcmd]: the bytes of the line before a NUL, and the input left; [None] at
    the end of the input.  The prompt is written first. *)
Definition getcmd (input : list Z) : option (list Z * list Z) :=
  let '(l, input) := gets input 100 in
  let s := cprefix (cstr l) 100 in
  match s with [] => None | _ => Some (s, input) end.

(** What [main] does with a line: change directory itself, or fork a child that
    parses and runs it, and wait for the child. *)
Inductive action :=
| Chdir (path : list Z)
| Child (p : option prog).

(** The child's program: [runcmd(parsecmd(buf))]. *)
Definition child (line : list Z) : option prog :=
  match parsecmd line with
  | Ok (c, buf) _ => Some (runcmd (λ w, cprefix (λ i, cstr buf (w.1 + i)) (S (length line))) c)
  | Panic msg => Some (panic_ msg)
  | _ => None
  end.

Fixpoint main_loop (input : list Z) (fuel : nat) : list action :=
  match fuel with
  | O => []
  | S fuel =>
      match getcmd input with
      | None => []
      | Some (line, input) =>
          (match line with
           | 99 :: 100 :: 32 :: _ => Chdir (drop 3 (take (length line - 1) line))
           | _ => Child (child line)
           end) :: main_loop input fuel
      end
  end.
(** Every line takes at least a byte. *)
Definition main (input : list Z) : list action := main_loop input (S (length input)).

(** ** Descriptors *)

Inductive obj :=
| Inherited (n : Z)
| File (path : list Z) (mode : Z)
| PipeR (n : nat)
| PipeW (n : nat).
Abbreviation table := (gmap Z obj).
Definition NOFILE : nat := 16.

(** The lowest free descriptor. *)
Definition lowest (t : table) : option Z :=
  head (filter (λ fd, t !! fd = None) (Z.of_nat <$> seq 0 NOFILE)).

Section run.
(** Which programs exist and which files can be opened. *)
Context (can_exec : list (list Z) → bool) (can_open : list Z → Z → bool).

Definition alloc (t : table) (o : obj) (k : Z → table → list (list (list Z) * table) * nat) : list (list (list Z) * table) * nat :=
  match lowest t with
  | Some fd => k fd (<[fd := o]> t)
  | None => k (-1) t
  end.

(** The programs executed, each with its descriptor table, and the number of
    pipes made so far.  The processes of a fork have tables of their own. *)
Fixpoint run (p : prog) (t : table) (n : nat) : list (list (list Z) * table) * nat :=
  match p with
  | Exit => ([], n)
  | Exec argv failed => if can_exec argv then ([(argv, t)], n) else run failed t n
  | Close fd k => run k (delete fd t) n
  | Open file mode k =>
      if can_open file mode then alloc t (File file mode) (λ fd t, run (k fd) t n)
      else run (k (-1)) t n
  | Dup fd k =>
      match t !! fd with
      | Some o => alloc t o (λ fd t, run (k fd) t n)
      | None => run (k (-1)) t n
      end
  | Pipe k =>
      match lowest t with
      | None => run (k None) t n
      | Some p0 =>
          let t' := <[p0 := PipeR n]> t in
          match lowest t' with
          | None => run (k None) t n
          | Some p1 => run (k (Some (p0, p1))) (<[p1 := PipeW n]> t') (S n)
          end
      end
  | Fork k =>
      let '(c, n) := run (k 0) t n in
      let '(d, n) := run (k 1) t n in (c ++ d, n)
  | Wait k => run k t n
  | Write _ _ k => run k t n
  end.

(** ** What a command means *)

(** The table of a program with the given input, output and error. *)
Definition std (i o e : obj) : table := <[0 := i]> (<[1 := o]> {[2 := e]}).

Section meaning.
Context (str : nat * nat → list Z).

(** The programs a command runs, each with its input and output. *)
Fixpoint stages (c : cmd) (i o : obj) (n : nat) : list (list (list Z) * obj * obj) * nat :=
  match c with
  | EXEC argv =>
      match argv with
      | [] => ([], n)
      | _ => if can_exec (str <$> argv) then ([(str <$> argv, i, o)], n) else ([], n)
      end
  | REDIR c file efile mode fd =>
      if can_open (str (file, efile)) mode then
        let f := File (str (file, efile)) mode in
        if fd =? 0 then stages c f o n else stages c i f n
      else ([], n)
  | PIPE a b =>
      let '(x, n') := stages a i (PipeW n) (S n) in
      let '(y, n') := stages b (PipeR n) o n' in (x ++ y, n')
  | LIST a b =>
      let '(x, n') := stages a i o n in
      let '(y, n') := stages b i o n' in (x ++ y, n')
  | BACK c => stages c i o n
  end.
End meaning.

Definition started (e : obj) (x : list (list Z) * obj * obj) : list (list Z) * table := (x.1.1, std x.1.2 x.2 e).

Lemma run_redir i o e fd f : fd = 0 ∨ fd = 1 →
  lowest (delete fd (std i o e)) = Some fd ∧
  <[fd := f]> (delete fd (std i o e)) = if fd =? 0 then std f o e else std i f e.
Proof. intros [->| ->]; (split; [reflexivity|]); reflexivity. Qed.

Lemma run_pipe_left i o e r w :
  let t := <[4 := w]> (<[3 := r]> (std i o e)) in
  lowest (delete 1 t) = Some 1 ∧ delete 1 t !! 4 = Some w ∧
  delete 4 (delete 3 (<[1 := w]> (delete 1 t))) = std i w e.
Proof. repeat split; reflexivity. Qed.

Lemma run_pipe_right i o e r w :
  let t := <[4 := w]> (<[3 := r]> (std i o e)) in
  lowest (delete 0 t) = Some 0 ∧ delete 0 t !! 3 = Some r ∧
  delete 4 (delete 3 (<[0 := r]> (delete 0 t))) = std r o e.
Proof. repeat split; reflexivity. Qed.

Lemma run_runcmd str c i o e n : fds_ok c →
  run (runcmd str c) (std i o e) n = (started e <$> (stages str c i o n).1, (stages str c i o n).2).
Proof.
  revert i o n. induction c as [argv|c IH f ef m d|a IHa b IHb|a IHa b IHb|c IH]; intros i o n Hc; cbn [runcmd stages].
  - destruct argv as [|w argv]; [done|]. cbn [run]. by destruct (can_exec _).
  - destruct Hc as [Hd Hc]. cbn [run]. destruct (can_open _ m); [|done].
    destruct (run_redir i o e d (File (str (f, ef)) m) Hd) as [H1 H2]. unfold alloc. rewrite H1, H2.
    assert ((d <? 0) = false) as -> by (destruct Hd; subst; done). destruct (d =? 0); by rewrite IH.
  - destruct Hc as [Ha Hb]. cbn [run fork1]. change (lowest (std i o e)) with (Some 3). cbn iota.
    change (lowest (<[3 := PipeR n]> (std i o e))) with (Some 4). cbn iota zeta. unfold fork1. cbn [run Z.eqb].
    destruct (run_pipe_left i o e (PipeR n) (PipeW n)) as (L1 & L2 & L3).
    destruct (run_pipe_right i o e (PipeR n) (PipeW n)) as (R1 & R2 & R3).
    rewrite L2. unfold alloc. rewrite L1, L3, IHa by done. destruct (stages str a i (PipeW n) (S n)) as [x n1].
    cbn [fst snd]. rewrite R2, R1, R3, IHb by done. destruct (stages str b (PipeR n) o n1) as [y n2]. cbn [fst snd].
    by rewrite app_nil_r, fmap_app.
  - destruct Hc as [Ha Hb]. unfold fork1. cbn [run Z.eqb]. rewrite IHa by done. destruct (stages str a i o n) as [x n1].
    cbn [fst snd]. rewrite IHb by done. destruct (stages str b i o n1) as [y n2]. cbn [fst snd]. by rewrite fmap_app.
  - unfold fork1. cbn [run Z.eqb]. rewrite IH by done. destruct (stages str c i o n) as [x n1]. cbn [fst snd]. by rewrite app_nil_r.
Qed.
End run.

(** C28: the child the shell forks for a line, started with descriptors 0, 1 and
    2, executes exactly the programs the parsed command means, in order: each
    has its redirections and its pipe ends as standard input and output, the
    shell's standard error, and no other descriptor. *)
Theorem shell_wiring can_exec can_open line c buf s i o e n :
  parsecmd line = Ok (c, buf) s →
  let str := λ w : nat * nat, cprefix (λ k, cstr buf (w.1 + k)) (S (length line)) in
  ∃ p, child line = Some p ∧
    run can_exec can_open p (std i o e) n =
      (started e <$> (stages can_exec can_open str c i o n).1, (stages can_exec can_open str c i o n).2).
Proof.
  intros Hp str. unfold child. rewrite Hp. eexists. split; [reflexivity|]. apply run_runcmd.
  pose proof (parsecmd_spec line) as H. unfold runs in H. rewrite Hp in H. apply H.
Qed.

Lemma shell_wiring_witness :
  ∃ c buf s p, parsecmd (chars "cat < a | wc > b") = Ok (c, buf) s ∧ child (chars "cat < a | wc > b") = Some p ∧
    run (λ _, true) (λ _ _, true) p (std (Inherited 0) (Inherited 1) (Inherited 2)) 0 =
    ([([chars "cat"], std (File (chars "a") 0) (PipeW 0) (Inherited 2));
      ([chars "wc"], std (PipeR 0) (File (chars "b") 513) (Inherited 2))], 1%nat).
Proof.
  destruct (parsecmd (chars "cat < a | wc > b")) as [[c buf] s| | |] eqn:E; try (exfalso; revert E; vm_compute; discriminate).
  destruct (shell_wiring (λ _, true) (λ _ _, true) (chars "cat < a | wc > b") c buf s
    (Inherited 0) (Inherited 1) (Inherited 2) 0 E) as (p & Hp & Hr).
  exists c, buf, s, p. split; [reflexivity|]. split; [exact Hp|]. rewrite Hr.
  vm_compute in E. injection E as <- <- <-. vm_compute. reflexivity.
Defined.

Lemma console_step can_exec can_open f k t n fd :
  can_open (chars "console") 2 = true → lowest t = Some fd → (fd <? 0) = false →
  let t' := <[fd := File (chars "console") 2]> t in
  run can_exec can_open (console_loop (S f) k) t n =
  if 3 <=? fd then run can_exec can_open k (delete fd t') n else run can_exec can_open (console_loop f k) t' n.
Proof. intros H Hl Hfd t'. cbn [console_loop run]. rewrite H. unfold alloc. rewrite Hl, Hfd. by destruct (3 <=? fd). Qed.

(** The first loop of [main] leaves the console on descriptors 0, 1 and 2 and
    nothing else, when nothing was open before. *)
Lemma open_console_std can_exec can_open k n :
  can_open (chars "console") 2 = true →
  let con := File (chars "console") 2 in
  run can_exec can_open (open_console k) ∅ n = run can_exec can_open k (std con con con) n.
Proof.
  intros H con. unfold open_console.
  do 4 (erewrite console_step; [|exact H|reflexivity|reflexivity]; eval_ifs).
  reflexivity.
Qed.

(** [>>] truncates nothing and appends nothing: it means what [>] means. *)
Lemma append_is_overwrite :
  (∃ c b s, parsecmd (chars "a >> f") = Ok (c, b) s ∧ stages (λ _, true) (λ _ _, true) (λ w, subarr (chars "a >> f") w.1 (w.2 - w.1)) c (Inherited 0) (Inherited 1) 0
     = ([([chars "a"], Inherited 0, File (chars "f") 513)], 0%nat)) ∧
  (∃ c b s, parsecmd (chars "a > f") = Ok (c, b) s ∧ stages (λ _, true) (λ _ _, true) (λ w, subarr (chars "a > f") w.1 (w.2 - w.1)) c (Inherited 0) (Inherited 1) 0
     = ([([chars "a"], Inherited 0, File (chars "f") 513)], 0%nat)).
Proof. split; (eexists _, _, _; split; [vm_compute; reflexivity|vm_compute; reflexivity]). Qed.

(** A line without its newline (the end of the input, or a line of 99 bytes)
    loses its last character in [cd]. *)
Lemma cd_chops_last : main (chars "cd ab") = [Chdir (chars "a")].
Proof. reflexivity. Qed.
