(* ===== verification/OldEditor.v ===== *)
(** * The earlier editor: editor_old.c

    The text is an array of 256 pointers to lines of 256 bytes; a null pointer
    ends it.  A slot is [None] for a null pointer, or the string in the line's
    buffer; [malloc] is taken to succeed.  The state also has the two global
    variables, the bytes still to come on standard input, what was written to
    standard output, and the files.  An access outside the array or before a
    buffer ends the run with [panic]; [exit()] ends the command loop. *)
From S2P Require Import Prelude Str Printf ShRun.

Definition BUF_SIZE : nat := 256.
Definition MAX_LINE_NUMBER : nat := 256.
Definition MAX_LINE_LENGTH : nat := 256.

Record old := Old {
  text : list (option (list Z)); changed : bool; auto_show : bool;
  o_input : list Z; o_output : list (list Z); o_files : gmap (list Z) (list Z) }.

Definition set_otext (t : list (option (list Z))) (s : old) : old := Old t (changed s) (auto_show s) (o_input s) (o_output s) (o_files s).
Definition set_changed (c : bool) (s : old) : old := Old (text s) c (auto_show s) (o_input s) (o_output s) (o_files s).
Definition set_auto (a : bool) (s : old) : old := Old (text s) (changed s) a (o_input s) (o_output s) (o_files s).
Definition set_oinput (i : list Z) (s : old) : old := Old (text s) (changed s) (auto_show s) i (o_output s) (o_files s).
Definition set_ooutput (o : list (list Z)) (s : old) : old := Old (text s) (changed s) (auto_show s) (o_input s) o (o_files s).
Definition set_ofiles (f : gmap (list Z) (list Z)) (s : old) : old := Old (text s) (changed s) (auto_show s) (o_input s) (o_output s) f.

(** [text[i]], and the string a line pointer leads to. *)
Definition slot (i : nat) : M old (option (list Z)) := λ s,
  match text s !! i with Some p => Ok p s | None => Panic "out of bounds" end.
Definition line (i : nat) : M old (list Z) :=
  let! p := slot i in
  match p with Some l => ret l | None => panic "bad pointer" end.
Definition put (i : nat) (p : option (list Z)) : M old unit := λ s,
  match text s !! i with Some _ => Ok tt (set_otext (<[i := p]> (text s)) s) | None => Panic "out of bounds" end.

Definition print (t : list Z) : M old unit := modify (λ s, set_ooutput (o_output s ++ [t]) s).
Definition puts (t : string) : M old unit := print (chars t ++ [10]).
Definition num_text (n : Z) : list Z := default [] (printint n 10 true).

(** The string in a buffer. *)
Definition cstring (b : list Z) : list Z := cprefix (cstr b) (length b).

(** A zeroed buffer after [gets], with the last character of the string removed:
    [input[strlen(input) - 1] = 0]. *)
Definition gets_line : M old (list Z) := λ s,
  let '(l, rest) := gets (o_input s) MAX_LINE_LENGTH in
  let b := list_inserts 0 l (replicate MAX_LINE_LENGTH 0) in
  match length (cstring b) with
  | O => Panic "out of bounds"
  | S n => Ok (<[n := 0]> b) (set_oinput rest s)
  end.

(** ** Lines *)

(** The first [len] bytes at [src] go to the end of the line, if they fit. *)
Definition strcat_n (dest src : list Z) (len : nat) : list Z :=
  if (len =? 0)%nat then dest else
  let pos := length dest in
  if (MAX_LINE_LENGTH <=? len + pos)%nat then dest else
  cstring (dest ++ take len src).

Definition line_text (j : nat) (l : list Z) : list Z :=
  num_text ((Z.of_nat j + 1) / 100) ++ num_text (((Z.of_nat j + 1) `mod` 100) / 10) ++ num_text ((Z.of_nat j + 1) `mod` 10) ++
  chars ":" ++ l ++ [10].

(** [for(; text[j] != NULL; j++)]. *)
Fixpoint show_lines (j fuel : nat) : M old unit :=
  match fuel with
  | O => λ _, Fuel
  | S fuel =>
      let! p := slot j in
      match p with
      | None => ret tt
      | Some l => do! print (line_text j l) in show_lines (S j) fuel
      end
  end.
Definition show_text : M old unit :=
  do! puts "****************************************" in
  do! puts "the contents of the file are:" in
  show_lines 0 (S MAX_LINE_NUMBER).

(** The highest line number, from 0; -1 if the text has no line. *)
Fixpoint line_number_from (t : list (option (list Z))) (i : Z) : Z :=
  match t with
  | [] => i - 1
  | None :: _ => i - 1
  | Some _ :: t => line_number_from t (i + 1)
  end.
Definition get_line_number : M old Z := Prelude.gets (λ s, line_number_from (take MAX_LINE_NUMBER (text s)) 0).

(** The loop stops at a space; another character than a digit gives -1. *)
Fixpoint number_from (src : list Z) (number : Z) : Z :=
  match src with
  | [] => number
  | c :: src =>
      if c =? 32 then number else
      if (57 <? c) || (c <? 48) then -1 else number_from src (s32 (10 * number + (c - 48)))
  end.
Definition stringtonumber (src : list Z) : Z := number_from src 0.

(** ** Commands *)

(** The text of a line: after the command, or asked for. *)
Definition ask (extra : list Z) : M old (list Z) :=
  match extra with
  | [] => do! puts "please input content:" in let! b := gets_line in ret (cstring b)
  | _ => ret extra
  end.

Definition end_change : M old unit :=
  do! modify (set_changed true) in
  let! a := Prelude.gets auto_show in
  if a : bool then show_text else ret tt.

(** [for(; i > n; i--)]: [k] is [i - n]. *)
Fixpoint shift_loop (n k : nat) : M old unit :=
  match k with
  | O => ret tt
  | S k' =>
      let! p := slot (n + k') in
      do! (match p with None => ret tt | Some l => put (n + S k') (Some l) end) in
      shift_loop n k'
  end.

Definition com_ins (n : Z) (extra : list Z) : M old unit :=
  let! last := get_line_number in
  if (n <? 0) || (last + 1 <? n) then puts "invalid line number" else
  let! input := ask extra in
  let n := Z.to_nat n in
  do! shift_loop n (MAX_LINE_NUMBER - 1 - n) in
  let! p := slot n in
  match p with
  | None =>
      do! put n (Some []) in
      let! prev := (match n with O => panic "out of bounds" | S m => line m end) in
      match prev with
      | [] => do! put (n - 1) (Some input) in end_change
      | _ => do! put n (Some input) in end_change
      end
  | Some _ => do! put n (Some input) in end_change
  end.

Definition com_mod (n : Z) (extra : list Z) : M old unit :=
  let! last := get_line_number in
  if (n <=? 0) || (last + 1 <? n) then puts "invalid line number" else
  let! input := ask extra in
  do! line (Z.to_nat (n - 1)) in
  do! put (Z.to_nat (n - 1)) (Some input) in
  end_change.

(** [for(; text[i + 1] != NULL; i++)]: the index where the loop ends. *)
Fixpoint pull_loop (i fuel : nat) : M old nat :=
  match fuel with
  | O => λ _, Fuel
  | S fuel =>
      let! p := slot (S i) in
      match p with
      | None => ret i
      | Some l =>
          do! put i (Some l) in
          do! put (S i) (Some []) in
          pull_loop (S i) fuel
      end
  end.

Definition com_del (n : Z) : M old unit :=
  let! last := get_line_number in
  if (n <=? 0) || (last + 1 <? n) then puts "invalid line number" else
  do! line (Z.to_nat (n - 1)) in
  do! put (Z.to_nat (n - 1)) (Some []) in
  let! i := pull_loop (Z.to_nat (n - 1)) (S MAX_LINE_NUMBER) in
  do! (if negb (i =? 0)%nat then put i None else ret tt) in
  end_change.

Definition com_help : M old unit :=
  do! puts "****************************************" in
  do! puts "instructions for use:" in
  do! puts "ins-n, insert a line after line n" in
  do! puts "mod-n, modify line n" in
  do! puts "del-n, delete line n" in
  do! puts "ins, insert a line after the last line" in
  do! puts "mod, modify the last line" in
  do! puts "del, delete the last line" in
  do! puts "show, enable show current contents after executing a command." in
  do! puts "hide, disable show current contents after executing a command." in
  do! puts "save, save the file" in
  puts "exit, exit editor".

(** ** Files *)

Section files.
(** Whether a path can be created. *)
Context (can_create : list Z → bool).

Definition write_file (path t : list Z) : M old unit :=
  modify (λ s, set_ofiles (<[path := default [] (o_files s !! path) ++ t]> (o_files s)) s).

(** [for(; text[i] != NULL; i++)]. *)
Fixpoint save_lines (path : list Z) (i fuel : nat) : M old unit :=
  match fuel with
  | O => λ _, Fuel
  | S fuel =>
      let! p := slot i in
      match p with
      | None => ret tt
      | Some l =>
          do! write_file path [10] in
          do! write_file path l in
          save_lines path (S i) fuel
      end
  end.

(** [false] when the program has ended. *)
Definition com_save (path : list Z) : M old bool :=
  do! modify (λ s, set_ofiles (delete path (o_files s)) s) in
  if negb (can_create path) then do! puts "save failed, file can't open:" in ret false else
  do! modify (λ s, set_ofiles (<[path := []]> (o_files s)) s) in
  let! p := slot 0 in
  match p with
  | None => ret true
  | Some l =>
      do! write_file path l in
      do! save_lines path 1 (S MAX_LINE_NUMBER) in
      do! puts "saved successfully" in
      do! modify (set_changed false) in
      ret true
  end.

(** [strcmp(input, "...") == 0]. *)
Definition same (b : list Z) (s : string) : bool :=
  match strcmp (cstr b) (cstr (chars s)) 16 with Some r => r =? 0 | None => false end.

(** [while(changed == 1)]: every turn reads a line; [false] when [com_save] ended
    the program. *)
Fixpoint exit_loop (path : list Z) (fuel : nat) : M old bool :=
  match fuel with
  | O => λ _, Fuel
  | S fuel =>
      let! c := Prelude.gets changed in
      if negb c then ret true else
      do! puts "save the file? y/n" in
      let! b := gets_line in
      if same b "y" then
        let! go := com_save path in
        if go : bool then exit_loop path fuel else ret false
      else if same b "n" then ret true
      else do! puts "wrong answer?" in exit_loop path fuel
  end.

(** The loop that frees the lines. *)
Fixpoint free_lines (i fuel : nat) : M old unit :=
  match fuel with
  | O => λ _, Fuel
  | S fuel =>
      let! p := slot i in
      match p with
      | None => ret tt
      | Some _ => do! put i None in free_lines (S i) fuel
      end
  end.

Definition com_exit (path : list Z) : M old unit :=
  let! n := Prelude.gets (λ s, length (o_input s)) in
  let! go := exit_loop path (2 + n) in
  if go : bool then free_lines 0 (S MAX_LINE_NUMBER) else ret tt.

(** ** Loading *)

(** [for(i = next; i < len && buf[i] != '\n'; i++)]. *)
Fixpoint newline_at (b : list Z) (i n : nat) : nat :=
  match n with
  | O => i
  | S n => if nth i b 0 =? 10 then i else newline_at b (S i) n
  end.

(** [while(i < len)]: the line number, and whether the text is full. *)
Fixpoint load_lines (b : list Z) (len next line_number fuel : nat) : M old (nat * bool) :=
  match fuel with
  | O => λ _, Fuel
  | S fuel =>
      let i := newline_at b next (len - next) in
      let! l := line line_number in
      do! put line_number (Some (strcat_n l (drop next b) (i - next))) in
      let! (line_number, is_full) :=
        (if (i <? len)%nat && (nth i b 0 =? 10) then
           if (MAX_LINE_NUMBER - 1 <=? line_number)%nat then ret (line_number, true)
           else do! put (S line_number) (Some []) in ret (S line_number, false)
         else ret (line_number, false)) in
      if is_full || (len - 1 <=? i)%nat then ret (line_number, is_full)
      else load_lines b len (S i) line_number fuel
  end.

(** [while((len = read(fd, buf, BUF_SIZE)) > 0)]; [rest] is what is left of the
    file. *)
Fixpoint read_chunks (rest : list Z) (line_number fuel : nat) : M old nat :=
  match fuel with
  | O => λ _, Fuel
  | S fuel =>
      let b := take BUF_SIZE rest in
      match b with
      | [] => ret line_number
      | _ =>
          let! (line_number, is_full) := load_lines b (length b) 0 line_number (S (length b)) in
          if is_full : bool then ret line_number else read_chunks (drop BUF_SIZE rest) line_number fuel
      end
  end.

(** ** The command loop *)

(** [for(; j < 8; j++)]: where the argument of the command starts. *)
Fixpoint arg_pos (b : list Z) (j n : nat) : nat :=
  match n with
  | O => MAX_LINE_LENGTH - 1
  | S n => if nth j b 0 =? 32 then S j else arg_pos b (S j) n
  end.

Definition invalid : M old unit := do! puts "invalid command." in com_help.

Definition starts (b : list Z) (a1 a2 a3 : Z) : bool := (nth 0 b 0 =? a1) && (nth 1 b 0 =? a2) && (nth 2 b 0 =? a3).

(** One command: the new line number, and whether the loop goes on. *)
Definition old_command (path b : list Z) (line_number : Z) : M old (Z * bool) :=
  let extra := cstring (drop (arg_pos b 0 8) b) in
  let n := stringtonumber (cstring (drop 4 b)) in
  let k := default 0 (atoi (cstr (drop 4 b)) MAX_LINE_LENGTH) in
  let dash := (nth 3 b 0 =? 45) && (0 <=? n) in
  if starts b 105 110 115 then
    if dash then do! com_ins n extra in let! l := get_line_number in ret (l, true)
    else if (nth 3 b 0 =? 32) || (nth 3 b 0 =? 0) then
      do! com_ins (line_number + 1) extra in let! l := get_line_number in ret (l, true)
    else do! invalid in ret (line_number, true)
  else if starts b 109 111 100 then
    if dash then do! com_mod k extra in ret (line_number, true)
    else if (nth 3 b 0 =? 32) || (nth 3 b 0 =? 0) then do! com_mod (line_number + 1) extra in ret (line_number, true)
    else do! invalid in ret (line_number, true)
  else if starts b 100 101 108 then
    if dash then do! com_del k in let! l := get_line_number in ret (l, true)
    else if nth 3 b 0 =? 0 then do! com_del (line_number + 1) in let! l := get_line_number in ret (l, true)
    else do! invalid in ret (line_number, true)
  else if same b "show" then
    do! modify (set_auto true) in
    do! puts "enable show current contents after text changed." in ret (line_number, true)
  else if same b "hide" then
    do! modify (set_auto false) in
    do! puts "disable show current contents after text changed." in ret (line_number, true)
  else if same b "help" then do! com_help in ret (line_number, true)
  else if same b "save" || match strcmp (cstr b) (cstr (chars "CTRL+S" ++ [10])) 16 with Some r => r =? 0 | None => false end then
    let! go := com_save path in ret (line_number, go)
  else if same b "exit" then do! com_exit path in ret (line_number, false)
  else do! invalid in ret (line_number, true).

Fixpoint old_loop (path : list Z) (line_number : Z) (fuel : nat) : M old unit :=
  match fuel with
  | O => λ _, Fuel
  | S fuel =>
      do! print (10 :: chars "please input command:" ++ [10]) in
      let! b := gets_line in
      let! (line_number, go) := old_command path b line_number in
      if go : bool then old_loop path line_number fuel else ret tt
  end.

(** [main]; the fuel bounds the number of commands. *)
Definition old_main (argv : list (list Z)) (fuel : nat) : M old unit :=
  match argv with
  | [] => puts "please input the command as [editor file_name]"
  | path :: _ =>
      do! put 0 (Some []) in
      let! f := Prelude.gets (λ s, o_files s !! path) in
      match f with
      | None => puts "File do not exist"
      | Some data =>
          do! puts "file exist" in
          let! line_number := read_chunks data 0 (S (length data)) in
          do! show_text in
          do! com_help in
          old_loop path (Z.of_nat line_number) fuel
      end
  end.
End files.

(** The editor at start. *)
Definition old_start (stdin : list Z) (fs : gmap (list Z) (list Z)) : old :=
  Old (replicate MAX_LINE_NUMBER None) false true stdin [] fs.

(** ** The text as a list of lines *)

(** The slots show the lines [L], and one slot at least is null. *)
Definition slots (L : list (list Z)) : list (option (list Z)) := (Some <$> L) ++ replicate (MAX_LINE_NUMBER - length L) None.
Definition holds (s : old) (L : list (list Z)) : Prop := text s = slots L ∧ (length L < MAX_LINE_NUMBER)%nat.

(** Everything but the text and the output. *)
Definition same_rest (s s' : old) : Prop :=
  changed s' = changed s ∧ auto_show s' = auto_show s ∧ o_input s' = o_input s ∧ o_files s' = o_files s.

Lemma slots_lookup L i : (i < MAX_LINE_NUMBER)%nat → slots L !! i = Some (L !! i).
Proof.
  intros Hi. unfold slots. destruct (decide (i < length L)%nat) as [Hlt|Hge].
  - rewrite lookup_app_l by (by rewrite length_fmap). rewrite list_lookup_fmap. destruct (lookup_lt_is_Some_2 L i Hlt) as [l ->]. done.
  - rewrite lookup_app_r by (rewrite length_fmap; lia). rewrite length_fmap, lookup_replicate_2, (lookup_ge_None_2 L) by lia. done.
Qed.
Lemma length_slots L : (length L ≤ MAX_LINE_NUMBER)%nat → length (slots L) = MAX_LINE_NUMBER.
Proof. intros H. unfold slots. rewrite length_app, length_fmap, length_replicate. lia. Qed.

(** Slots with the same contents at every index are the same. *)
Lemma slots_eq t L : (length L ≤ MAX_LINE_NUMBER)%nat → length t = MAX_LINE_NUMBER → (∀ i, (i < MAX_LINE_NUMBER)%nat → t !! i = Some (L !! i)) → t = slots L.
Proof.
  intros HL Ht H. apply list_eq. intros i. destruct (decide (i < MAX_LINE_NUMBER)%nat) as [Hi|Hi].
  - by rewrite H, slots_lookup.
  - rewrite !lookup_ge_None_2; [done|rewrite length_slots; lia|lia].
Qed.

Lemma slot_run s L i : text s = slots L → (i < MAX_LINE_NUMBER)%nat → slot i s = Ok (L !! i) s.
Proof. intros Ht Hi. unfold slot. by rewrite Ht, slots_lookup. Qed.
Lemma line_run s L i l : text s = slots L → (i < MAX_LINE_NUMBER)%nat → L !! i = Some l → line i s = Ok l s.
Proof. intros Ht Hi Hl. unfold line. erewrite bind_Ok by (by eapply slot_run). by rewrite Hl. Qed.
Lemma put_run s L i p : text s = slots L → (i < MAX_LINE_NUMBER)%nat → put i p s = Ok tt (set_otext (<[i := p]> (slots L)) s).
Proof. intros Ht Hi. unfold put. by rewrite Ht, slots_lookup. Qed.

Lemma line_number_slots L i n : line_number_from ((Some <$> L) ++ replicate n None) i = i + length L - 1.
Proof.
  revert i. induction L as [|l L IH]; intros i; cbn.
  - destruct n; cbn; lia.
  - rewrite IH. lia.
Qed.
Lemma get_line_number_run s L : text s = slots L → (length L ≤ MAX_LINE_NUMBER)%nat → get_line_number s = Ok (length L - 1) s.
Proof.
  intros Ht HL. unfold get_line_number, Prelude.gets. rewrite Ht, take_ge by (rewrite length_slots; lia). unfold slots. rewrite line_number_slots. done.
Qed.

(** *** Display *)
Lemma show_lines_spec L fuel : ∀ s j, holds s L → (j ≤ length L)%nat → (length L < j + fuel)%nat →
  ∃ s', show_lines j fuel s = Ok tt s' ∧ text s' = text s ∧ same_rest s s'.
Proof.
  induction fuel as [|fuel IH]; intros s j [Ht HL] Hj Hf; [lia|]. cbn [show_lines]. erewrite bind_Ok by (by eapply slot_run; [|lia]).
  destruct (L !! j) as [l|] eqn:E; [|by exists s]. unfold print. rewrite bind_modify.
  destruct (IH (set_ooutput (o_output s ++ [line_text j l]) s) (S j)) as (s' & R & Ht' & Hs'); [by split|by apply lookup_lt_Some in E|lia|].
  by exists s'.
Qed.

Lemma end_change_spec s L : holds s L →
  ∃ s', end_change s = Ok tt s' ∧ holds s' L ∧ changed s' = true ∧ o_input s' = o_input s ∧ o_files s' = o_files s.
Proof.
  intros [Ht HL]. unfold end_change. rewrite bind_modify. unfold Prelude.gets at 1. unfold bind at 1. cbn [auto_show set_changed]. destruct (auto_show s).
  - unfold show_text, puts, print. rewrite !bind_modify. set (s1 := set_ooutput _ _).
    destruct (show_lines_spec L (S MAX_LINE_NUMBER) s1 0) as (s' & R & Ht' & Hc & _ & Hi & Hf); [by split|lia|lia|].
    exists s'. split; [exact R|]. split; [|done]. split; [by rewrite Ht'|done].
  - eexists. split; [done|]. split; [by split|done].
Qed.

(** *** Insertion *)
Lemma shift_loop_spec n k : ∀ s, length (text s) = MAX_LINE_NUMBER → (n + k < MAX_LINE_NUMBER)%nat →
  ∃ s', shift_loop n k s = Ok tt s' ∧ length (text s') = MAX_LINE_NUMBER ∧ same_rest s s' ∧ o_output s' = o_output s ∧
    ∀ i, text s' !! i = if bool_decide (n < i ≤ n + k)%nat then match text s !! (i - 1)%nat with Some (Some l) => Some (Some l) | _ => text s !! i end else text s !! i.
Proof.
  induction k as [|k IH]; intros s Hl Hk; cbn [shift_loop].
  - exists s. split_and!; try done. intros i. rewrite bool_decide_eq_false_2 by lia. done.
  - destruct (lookup_lt_is_Some_2 (text s) (n + k)) as [p Hp]; [lia|]. destruct (lookup_lt_is_Some_2 (text s) (n + S k)) as [q Hq]; [lia|].
    erewrite bind_Ok by (unfold slot; by rewrite Hp).
    assert (∃ s1, (match p with None => ret tt | Some l => put (n + S k) (Some l) end) s = Ok tt s1 ∧ same_rest s s1 ∧ o_output s1 = o_output s ∧
      text s1 = <[(n + S k)%nat := match p with Some l => Some l | None => q end]> (text s)) as (s1 & R1 & Hs1 & Ho1 & Ht1).
    { destruct p as [l|]; [unfold put; rewrite Hq; eexists; done|]. exists s. split; [done|]. split; [done|]. split; [done|]. by rewrite list_insert_id. }
    mstep R1. destruct (IH s1) as (s' & R & Hl' & (Hc & Ha & Hi' & Hf) & Ho & H); [rewrite Ht1, length_insert; done|lia|].
    exists s'. destruct Hs1 as (?&?&?&?). split; [exact R|]. split; [done|]. split; [split_and!; congruence|]. split; [congruence|]. intros i. rewrite H, Ht1.
    destruct (decide (i = n + S k)%nat) as [->|Hne].
    + rewrite bool_decide_eq_false_2, bool_decide_eq_true_2 by lia. rewrite list_lookup_insert_eq by lia. replace (n + S k - 1)%nat with (n + k)%nat by lia.
      rewrite Hp. by destruct p.
    + destruct (decide (n < i ≤ n + k)%nat).
      * rewrite !bool_decide_eq_true_2 by lia. rewrite !list_lookup_insert_ne by lia. done.
      * rewrite !bool_decide_eq_false_2 by lia. rewrite list_lookup_insert_ne by lia. done.
Qed.

(** What the commands do to the lines.  A line inserted after an empty last line
    goes in front of it. *)
Definition ins_lines (n : nat) (x : list Z) (L : list (list Z)) : list (list Z) :=
  if (n =? length L)%nat && bool_decide (nth (n - 1) L [] = []) then <[(n - 1)%nat := x]> L ++ [[]] else take n L ++ x :: drop n L.
Definition del_lines (n : nat) (L : list (list Z)) : list (list Z) :=
  if (length L =? 1)%nat then [[]] else take (n - 1) L ++ drop n L.

(** The state after a command. *)
Definition edited (s : old) (L : list (list Z)) (r : res old unit) : Prop :=
  ∃ s', r = Ok tt s' ∧ holds s' L ∧ changed s' = true ∧ o_input s' = o_input s ∧ o_files s' = o_files s.

Lemma lookup_ins (L : list (list Z)) n x i : (n ≤ length L)%nat →
  (take n L ++ x :: drop n L) !! i = if decide (i = n) then Some x else if decide (i < n)%nat then L !! i else L !! (i - 1)%nat.
Proof.
  intros Hn. assert (length (take n L) = n) as El by (rewrite length_take; lia). destruct (decide (i = n)) as [->|Hne].
  - by rewrite list_lookup_middle.
  - destruct (decide (i < n)%nat) as [Hlt|Hge].
    + rewrite lookup_app_l by lia. by rewrite lookup_take_lt.
    + rewrite lookup_app_r by lia. rewrite El. destruct (i - n)%nat as [|j] eqn:E; [lia|]. change (drop n L !! j = L !! (i - 1)%nat). rewrite lookup_drop. f_equal. lia.
Qed.

(** A store that completes the lines [L']. *)
Lemma put_end s t i x L' : text s = t → length t = MAX_LINE_NUMBER → (i < MAX_LINE_NUMBER)%nat → (length L' < MAX_LINE_NUMBER)%nat →
  (∀ j, (j < MAX_LINE_NUMBER)%nat → <[i := Some x]> t !! j = Some (L' !! j)) → edited s L' ((do! put i (Some x) in end_change) s).
Proof.
  intros <- Hl Hi HL H. assert (put i (Some x) s = Ok tt (set_otext (<[i := Some x]> (text s)) s)) as R.
  { unfold put. destruct (lookup_lt_is_Some_2 (text s) i) as [p ->]; [lia|done]. }
  mstep R. destruct (end_change_spec (set_otext (<[i := Some x]> (text s)) s) L') as (s' & R' & Hh & Hc & Hin & Hf).
  { split; [|done]. apply slots_eq; [lia|cbn [set_otext text]; by rewrite length_insert|done]. }
  by exists s'.
Qed.

Lemma com_ins_spec s0 s L n extra x : holds s0 L → L ≠ [] → 0 ≤ n ≤ length L → (S (length L) < MAX_LINE_NUMBER)%nat →
  ask extra s0 = Ok x s → text s = text s0 → edited s (ins_lines (Z.to_nat n) x L) (com_ins n extra s0).
Proof.
  intros [Ht HL] Hne Hn Hroom Hask Hs. unfold com_ins. erewrite bind_Ok by (apply (get_line_number_run s0 L); [done|lia]).
  rewrite (proj2 (Z.ltb_ge n 0)), (proj2 (Z.ltb_ge _ n)) by lia. cbn [orb]. mstep Hask. rewrite <- Hs in Ht.
  rewrite <- (Z2Nat.id n) in Hn by lia. set (k := Z.to_nat n) in *. assert (k ≤ length L)%nat as Hk by lia.
  destruct (shift_loop_spec k (MAX_LINE_NUMBER - 1 - k) s) as (s1 & R1 & Hl1 & (Hc & Ha & Hi & Hf) & Ho & H1); [rewrite Ht, length_slots; lia|lia|]. mstep R1.
  assert (∀ i, (i < MAX_LINE_NUMBER)%nat → text s1 !! i = Some (if decide (k < i)%nat then L !! (i - 1)%nat else L !! i)) as Ht1.
  { intros i Hi'. rewrite H1, Ht, !slots_lookup by lia. destruct (decide (k < i)%nat).
    - rewrite bool_decide_eq_true_2 by lia. destruct (L !! (i - 1)%nat) eqn:E; [done|]. apply lookup_ge_None_1 in E. rewrite lookup_ge_None_2; [done|lia].
    - rewrite bool_decide_eq_false_2 by lia. done. }
  assert (slot k s1 = Ok (L !! k) s1) as R2 by (unfold slot; rewrite Ht1, decide_False by lia; done). mstep R2.
  assert (∀ s2 L', edited s1 L' s2 → edited s L' s2) as Hout by (intros r L' (s2 & ? & ? & ? & ? & ?); exists s2; split_and!; try done; congruence).
  apply Hout. destruct (decide (k = length L)) as [Ek|Ek].
  - rewrite lookup_ge_None_2 by lia. assert (put k (Some []) s1 = Ok tt (set_otext (<[k := Some []]> (text s1)) s1)) as R3.
    { unfold put. rewrite Ht1 by lia. done. }
    mstep R3. set (s2 := set_otext _ s1). destruct k as [|m] eqn:Ekm; [destruct L; done|]. cbn [Nat.sub]. rewrite Nat.sub_0_r.
    destruct (lookup_lt_is_Some_2 L m) as [l El]; [lia|].
    assert (line m s2 = Ok l s2) as R4.
    { unfold line, slot, s2. unfold bind. cbn [text set_otext]. rewrite list_lookup_insert_ne, Ht1, decide_False, El by lia. done. }
    mstep R4. assert (∀ s3 L', edited s2 L' s3 → edited s1 L' s3) as Hout2 by (intros r L' (s3 & ? & ? & ? & ? & ?); by exists s3).
    apply Hout2. unfold ins_lines. rewrite (proj2 (Nat.eqb_eq (S m) (length L))) by done. replace (S m - 1)%nat with m by lia. rewrite (nth_lookup_Some _ _ _ _ El). cbn [andb].
    destruct l as [|l0 l'].
    + rewrite bool_decide_eq_true_2 by done. eapply put_end; [done|by cbn; rewrite length_insert|lia|rewrite length_app, length_insert; cbn; lia|].
      intros j Hj. cbn [s2 text set_otext]. destruct (decide (j = m)) as [->|Hjm].
      * rewrite list_lookup_insert_eq by (rewrite length_insert; lia). rewrite lookup_app_l by (rewrite length_insert; lia). by rewrite list_lookup_insert_eq by lia.
      * rewrite list_lookup_insert_ne by done. destruct (decide (j = S m)) as [->|Hjs].
        -- rewrite list_lookup_insert_eq by lia. rewrite lookup_app_r by (rewrite length_insert; lia). rewrite length_insert, Ek, Nat.sub_diag. done.
        -- rewrite list_lookup_insert_ne, Ht1 by lia. destruct (decide (S m < j)%nat).
           ++ rewrite !lookup_ge_None_2; [done|rewrite length_app, length_insert; cbn; lia|lia].
           ++ rewrite lookup_app_l by (rewrite length_insert; lia). by rewrite list_lookup_insert_ne.
    + rewrite bool_decide_eq_false_2 by done. eapply put_end; [done|by cbn; rewrite length_insert|lia|rewrite length_app, length_take; cbn [length]; rewrite length_drop; lia|].
      intros j Hj. cbn [s2 text set_otext]. rewrite list_insert_insert_eq, lookup_ins by lia. destruct (decide (j = S m)) as [->|Hjs].
      * by rewrite list_lookup_insert_eq by lia.
      * rewrite list_lookup_insert_ne, Ht1 by lia. repeat case_decide; (done || lia).
  - destruct (lookup_lt_is_Some_2 L k) as [l El]; [lia|]. rewrite El. unfold ins_lines. rewrite (proj2 (Nat.eqb_neq k (length L))) by done. cbn [andb].
    eapply put_end; [done|done|lia|rewrite length_app, length_take; cbn [length]; rewrite length_drop; lia|].
    intros j Hj. rewrite lookup_ins by lia. destruct (decide (j = k)) as [->|Hjk].
    + by rewrite list_lookup_insert_eq by lia.
    + rewrite list_lookup_insert_ne, Ht1 by lia. repeat case_decide; (done || lia).
Qed.

(** *** Modification and deletion *)
Lemma com_mod_spec s0 s L n extra x : holds s0 L → 1 ≤ n ≤ length L → ask extra s0 = Ok x s → text s = text s0 →
  edited s (<[Z.to_nat (n - 1) := x]> L) (com_mod n extra s0).
Proof.
  intros [Ht HL] Hn Hask Hs. unfold com_mod. erewrite bind_Ok by (apply (get_line_number_run s0 L); [done|lia]).
  rewrite (proj2 (Z.leb_gt n 0)), (proj2 (Z.ltb_ge _ n)) by lia. cbn [orb]. mstep Hask. rewrite <- Hs in Ht.
  set (k := Z.to_nat (n - 1)). assert (k < length L)%nat as Hk by (unfold k; lia). destruct (lookup_lt_is_Some_2 L k Hk) as [l El].
  erewrite bind_Ok by (eapply line_run; [done|lia|done]). eapply put_end; [exact Ht|rewrite length_slots; lia|lia|by rewrite length_insert|].
  intros j Hj. destruct (decide (j = k)) as [->|Hne].
  - rewrite !list_lookup_insert_eq; [done|lia|rewrite length_slots; lia].
  - rewrite !list_lookup_insert_ne by done. by apply slots_lookup.
Qed.

Lemma pull_loop_spec B : ∀ A x s fuel, text s = slots (A ++ x :: B) → (length (A ++ x :: B) < MAX_LINE_NUMBER)%nat → (length B < fuel)%nat →
  ∃ s', pull_loop (length A) fuel s = Ok (length A + length B)%nat s' ∧ same_rest s s' ∧
    text s' = slots (A ++ B ++ [match B with [] => x | _ => [] end]).
Proof.
  induction B as [|y B IH]; intros A x s fuel Ht HL Hf; (destruct fuel as [|fuel]; [simpl in Hf; lia|]); cbn [pull_loop]; rewrite length_app in HL; cbn [length] in HL.
  - erewrite bind_Ok by (eapply slot_run; [done|lia]). rewrite lookup_ge_None_2 by (rewrite length_app; cbn; lia). rewrite Nat.add_0_r. exists s. done.
  - erewrite bind_Ok by (eapply slot_run; [done|lia]). replace ((A ++ x :: y :: B) !! S (length A)) with (Some y).
    2:{ rewrite lookup_app_r by lia. replace (S (length A) - length A)%nat with 1%nat by lia. done. }
    erewrite bind_Ok by (eapply put_run; [done|lia]). set (s1 := set_otext _ s).
    assert (text s1 = slots (A ++ y :: y :: B)) as Ht1.
    { apply slots_eq; [rewrite length_app; cbn; lia|cbn; rewrite length_insert, length_slots; rewrite ?length_app; cbn; lia|].
      intros i Hi. cbn [s1 set_otext text]. destruct (decide (i = length A)) as [->|Hne].
      - rewrite list_lookup_insert_eq by (rewrite length_slots; rewrite ?length_app; cbn; lia). by rewrite list_lookup_middle.
      - rewrite list_lookup_insert_ne, slots_lookup by done. f_equal. destruct (decide (i < length A)%nat); [by rewrite !lookup_app_l by lia|].
        rewrite !lookup_app_r by lia. destruct (i - length A)%nat eqn:E; [lia|done]. }
    erewrite bind_Ok by (eapply put_run; [done|lia]). set (s2 := set_otext _ s1).
    assert (text s2 = slots ((A ++ [y]) ++ [] :: B)) as Ht2.
    { rewrite <- app_assoc. cbn [app]. apply slots_eq; [rewrite length_app; cbn; lia|cbn; rewrite length_insert, length_slots; rewrite ?length_app; cbn; lia|].
      intros i Hi. cbn [s2 set_otext text]. destruct (decide (i = S (length A))) as [->|Hne].
      - rewrite list_lookup_insert_eq by (rewrite length_slots; rewrite ?length_app; cbn; lia). rewrite lookup_app_r by lia.
        replace (S (length A) - length A)%nat with 1%nat by lia. done.
      - rewrite list_lookup_insert_ne, slots_lookup by done. f_equal. destruct (decide (i < length A)%nat); [by rewrite !lookup_app_l by lia|].
        rewrite !lookup_app_r by lia. destruct (i - length A)%nat as [|[|j]] eqn:E; [done|lia|done]. }
    destruct (IH (A ++ [y]) [] s2 fuel Ht2) as (s' & R & Hs & Hr); [rewrite !length_app; cbn; lia|simpl in Hf; lia|].
    exists s'. rewrite length_app in R. cbn [length] in R. rewrite Nat.add_1_r in R. split; [rewrite R; f_equal; cbn; lia|]. split; [done|].
    rewrite Hr, <- app_assoc. cbn [app]. by destruct B.
Qed.

Lemma com_del_spec s L n : holds s L → 1 ≤ n ≤ length L → edited s (del_lines (Z.to_nat n) L) (com_del n s).
Proof.
  intros [Ht HL] Hn. unfold com_del. erewrite bind_Ok by (apply (get_line_number_run s L); [done|lia]).
  rewrite (proj2 (Z.leb_gt n 0)), (proj2 (Z.ltb_ge _ n)) by lia. cbn [orb].
  set (k := Z.to_nat (n - 1)). assert (k < length L)%nat as Hk by (unfold k; lia). destruct (lookup_lt_is_Some_2 L k Hk) as [l El].
  erewrite bind_Ok by (eapply line_run; [done|lia|done]). erewrite bind_Ok by (eapply put_run; [done|lia]). set (s1 := set_otext _ s).
  assert (length (take k L) = k) as Etk by (rewrite length_take; lia).
  assert (length (take k L ++ [] :: drop (S k) L) = length L) as Elen by (rewrite length_app; cbn [length]; rewrite length_drop; lia).
  assert (text s1 = slots (take k L ++ [] :: drop (S k) L)) as Ht1.
  { apply slots_eq; [lia|cbn; rewrite length_insert, length_slots; lia|]. intros i Hi. cbn [s1 set_otext text]. destruct (decide (i = k)) as [->|Hne].
    - rewrite list_lookup_insert_eq by (rewrite length_slots; lia). by rewrite list_lookup_middle.
    - rewrite list_lookup_insert_ne, slots_lookup by done. f_equal. destruct (decide (i < k)%nat).
      + rewrite lookup_app_l by lia. by rewrite lookup_take_lt.
      + rewrite lookup_app_r by lia. destruct (i - length (take k L))%nat as [|j] eqn:E; [lia|]. change (L !! i = drop (S k) L !! j). rewrite lookup_drop. f_equal. lia. }
  destruct (pull_loop_spec (drop (S k) L) (take k L) [] s1 (S MAX_LINE_NUMBER) Ht1) as (s2 & R2 & (Hc & Ha & Hi & Hf) & Ht2); [lia|rewrite length_drop; lia|].
  change (o_input s1) with (o_input s) in Hi. change (o_files s1) with (o_files s) in Hf. rewrite Etk in R2. mstep R2. rewrite length_drop in *. set (B := drop (S k) L) in *. assert (length B = length L - S k)%nat as ElB by (unfold B; apply length_drop).
  assert (∀ r L', edited s2 L' r → edited s L' r) as Hout by (intros r L' (s3 & ? & ? & ? & ? & ?); exists s3; split_and!; try done; congruence).
  apply Hout. unfold del_lines. replace (Z.to_nat n - 1)%nat with k by (unfold k; lia). replace (Z.to_nat n) with (S k) by (unfold k; lia). fold B.
  assert (match B with [] => [] | _ => [] end = ([] : list Z)) as Em by (by destruct B). rewrite Em in Ht2.
  destruct (Nat.eqb_spec (length L) 1) as [E1|E1].
  - assert (k = 0%nat) as E0 by lia. rewrite E0 in *. replace (0 + (length L - 1))%nat with 0%nat by lia. cbn [Nat.eqb negb]. rewrite bind_ret.
    assert (B = []) as EB by (apply length_zero_iff_nil; lia). rewrite EB in Ht2. cbn in Ht2. destruct (end_change_spec s2 [[]]) as (s3 & R3 & ? & ? & ? & ?); [split; [done|cbn; lia]|].
    by exists s3.
  - rewrite (proj2 (Nat.eqb_neq (k + (length L - S k)) 0)) by lia. cbn [negb].
    assert (put (k + (length L - S k)) None s2 = Ok tt (set_otext (slots (take k L ++ B)) s2)) as R3.
    { erewrite put_run; [|exact Ht2|lia]. f_equal. f_equal. apply slots_eq; [rewrite length_app; lia|rewrite length_insert, length_slots; rewrite ?length_app; cbn; lia|].
      intros i Hi'. rewrite app_assoc. assert (length (take k L ++ B) = k + (length L - S k))%nat as Eab by (rewrite length_app; lia). destruct (decide (i = k + (length L - S k))%nat) as [->|Hne].
      - rewrite list_lookup_insert_eq by (rewrite length_slots; rewrite ?length_app; cbn; lia). rewrite lookup_ge_None_2 by lia. done.
      - rewrite list_lookup_insert_ne, slots_lookup by done. f_equal. destruct (decide (i < k + (length L - S k))%nat); [by rewrite lookup_app_l by lia|].
        rewrite !lookup_ge_None_2; [done|lia|rewrite length_app; cbn; lia]. }
    mstep R3. destruct (end_change_spec (set_otext (slots (take k L ++ B)) s2) (take k L ++ B)) as (s3 & R4 & ? & ? & ? & ?); [split; [done|rewrite length_app; lia]|].
    by exists s3.
Qed.

(** *** Saving *)
Definition join (L : list (list Z)) : list Z :=
  match L with [] => [] | l :: L => l ++ concat (cons 10 <$> L) end.

Lemma write_file_run path t c s : o_files s !! path = Some c → write_file path t s = Ok tt (set_ofiles (<[path := c ++ t]> (o_files s)) s).
Proof. intros H. unfold write_file, modify. by rewrite H. Qed.

Lemma save_lines_spec path L fuel : ∀ s i c, holds s L → o_files s !! path = Some c → (i ≤ length L)%nat → (length L < i + fuel)%nat →
  ∃ s', save_lines path i fuel s = Ok tt s' ∧ text s' = text s ∧ o_input s' = o_input s ∧ o_files s' = <[path := c ++ concat (cons 10 <$> drop i L)]> (o_files s).
Proof.
  induction fuel as [|fuel IH]; intros s i c [Ht HL] Hc Hi Hf; [lia|]. cbn [save_lines]. erewrite bind_Ok by (by eapply slot_run; [|lia]).
  destruct (L !! i) as [l|] eqn:E.
  - erewrite bind_Ok by (by apply write_file_run). erewrite bind_Ok by (apply write_file_run; cbn; apply lookup_insert_eq). cbn [set_ofiles o_files]. rewrite insert_insert_eq.
    set (s1 := set_ofiles _ _). destruct (IH s1 (S i) ((c ++ [10]) ++ l)) as (s' & R & Ht' & Hi' & Hf'); [by split|cbn; apply lookup_insert_eq|by apply lookup_lt_Some in E|lia|].
    exists s'. split; [exact R|]. split; [done|]. split; [done|]. rewrite Hf'. cbn [s1 set_ofiles o_files]. rewrite insert_insert_eq. f_equal.
    rewrite (drop_S _ _ _ E). cbn [fmap list_fmap concat]. by rewrite <- !app_assoc.
  - apply lookup_ge_None_1 in E. exists s. split; [done|]. split; [done|]. split; [done|]. rewrite drop_ge by lia. cbn. by rewrite app_nil_r, insert_id.
Qed.

Lemma com_save_spec can path s L : can path = true → holds s L → L ≠ [] →
  ∃ s', com_save can path s = Ok true s' ∧ holds s' L ∧ changed s' = false ∧ o_input s' = o_input s ∧ o_files s' = <[path := join L]> (o_files s).
Proof.
  intros Hcan [Ht HL] Hne. unfold com_save. rewrite bind_modify, Hcan. cbn [negb]. rewrite bind_modify. destruct L as [|l L]; [done|].
  erewrite bind_Ok by (eapply (slot_run _ (l :: L)); [exact Ht|lia]). change ((l :: L) !! 0%nat) with (Some l). cbn iota.
  erewrite bind_Ok by (apply write_file_run; cbn; apply lookup_insert_eq). cbn [set_ofiles o_files]. rewrite insert_insert_eq. cbn [app]. set (s1 := set_ofiles _ _).
  destruct (save_lines_spec path (l :: L) (S MAX_LINE_NUMBER) s1 1 l) as (s2 & R & Ht2 & Hi2 & Hf2); [by split|cbn; apply lookup_insert_eq|cbn; lia|lia|].
  mstep R. unfold puts, print. rewrite !bind_modify. eexists. split; [done|]. split; [split; [cbn; by rewrite Ht2|done]|]. split; [done|]. split; [done|].
  cbn [set_changed set_ooutput o_files]. rewrite Hf2. cbn [s1 set_ofiles o_files]. rewrite insert_insert_eq, drop_0 || rewrite insert_insert_eq. by rewrite insert_delete_eq.
Qed.

(** *** Loading *)

(** One byte of the file: the end of a line, or a character of the last one. *)
Definition feed (L : list (list Z)) (c : Z) : list (list Z) :=
  if c =? 10 then L ++ [[]] else match rev L with [] => [[c]] | l :: r => rev r ++ [l ++ [c]] end.

Lemma feed_snoc A l c : feed (A ++ [l]) c = if c =? 10 then A ++ [l] ++ [[]] else A ++ [l ++ [c]].
Proof. unfold feed. rewrite rev_app_distr. cbn. rewrite rev_involutive. destruct (c =? 10); [|done]. by rewrite <- app_assoc. Qed.

Lemma feed_piece A l p : (10 ∉ p) → foldl feed (A ++ [l]) p = A ++ [l ++ p].
Proof.
  revert l. induction p as [|c p IH]; intros l Hp; cbn [foldl]; [by rewrite app_nil_r|]. rewrite not_elem_of_cons in Hp. destruct Hp as [Hc Hp].
  rewrite feed_snoc. destruct (Z.eqb_spec c 10); [congruence|]. rewrite IH by done. by rewrite <- app_assoc.
Qed.

(** Lines that the buffers can hold. *)
Definition line_ok (l : list Z) : Prop := (length l < MAX_LINE_LENGTH)%nat ∧ (0 ∉ l).
Definition text_ok (L : list (list Z)) : Prop := Forall line_ok L ∧ (length L < MAX_LINE_NUMBER)%nat.

Lemma feed_ok L c : text_ok (feed L c) → text_ok L.
Proof.
  destruct (rev L) as [|l r] eqn:E.
  - apply (f_equal (@rev _)) in E. rewrite rev_involutive in E. subst L. intros _. split; [done|apply Nat.lt_0_succ].
  - apply (f_equal (@rev _)) in E. rewrite rev_involutive in E. cbn in E. subst L. rewrite feed_snoc. destruct (c =? 10); intros [HF HL].
    + rewrite app_assoc in HF, HL. apply Forall_app in HF as [HF _]. split; [done|]. rewrite !length_app in *. cbn [length] in *. lia.
    + apply Forall_app in HF as [HF H1]. split; [|rewrite !length_app in *; done]. apply Forall_app. split; [done|]. inversion_clear H1 as [|?? [Hl Hz] _].
      constructor; [|constructor]. rewrite length_app in Hl. split; [lia|]. intros H0. apply Hz. apply elem_of_app. by left.
Qed.
Lemma feeds_ok d : ∀ L, text_ok (foldl feed L d) → text_ok L.
Proof. induction d as [|c d IH]; intros L H; [done|]. cbn in H. apply (feed_ok L c). by apply IH. Qed.

(** Splitting the rest of a chunk at its first end of line. *)
Lemma newline_spec b next n : (next + n = length b)%nat → let i := newline_at b next n in
  (next ≤ i ≤ length b)%nat ∧ (10 ∉ take (i - next) (drop next b)) ∧ ((i < length b)%nat → nth i b 0 = 10).
Proof.
  revert next. induction n as [|n IH]; intros next Hn; cbn [newline_at].
  - split; [lia|]. rewrite Nat.sub_diag. cbn. split; [apply not_elem_of_nil|lia].
  - destruct (Z.eqb_spec (nth next b 0) 10) as [E|E].
    + split; [lia|]. rewrite Nat.sub_diag. cbn. split; [apply not_elem_of_nil|done].
    + destruct (IH (S next)) as (Hi & Hno & Hnl); [lia|]. split; [lia|]. split; [|done]. set (i := newline_at b (S next) n) in *.
      destruct (lookup_lt_is_Some_2 b next) as [c Hc]; [lia|]. rewrite (drop_S _ _ _ Hc). replace (i - next)%nat with (S (i - S next)) by lia. cbn [take].
      rewrite not_elem_of_cons. split; [|done]. rewrite (nth_lookup_Some _ _ _ _ Hc) in E. done.
Qed.


Lemma cprefix_from_nth (l : list Z) k : (0 ∉ drop k l) → cprefix_from (cstr l) k (length l - k) = drop k l.
Proof.
  remember (length l - k)%nat as n eqn:En. revert k En. induction n as [|n IH]; intros k En Hl; cbn [cprefix_from]; [by rewrite drop_ge by lia|].
  destruct (lookup_lt_is_Some_2 l k) as [c Hc]; [lia|]. rewrite (drop_S _ _ _ Hc) in *. rewrite not_elem_of_cons in Hl. destruct Hl as [Hc0 Hl].
  unfold cstr at 1 2. rewrite (nth_lookup_Some _ _ _ _ Hc), (proj2 (truthy_true c)) by congruence. f_equal. apply IH; [lia|done].
Qed.
Lemma cstring_id l : (0 ∉ l) → cstring l = l.
Proof. intros Hl. pose proof (cprefix_from_nth l 0 Hl) as H. by rewrite Nat.sub_0_r, drop_0 in H. Qed.

Lemma strcat_n_ok l src n : line_ok (l ++ take n src) → (n ≤ length src)%nat → strcat_n l src n = l ++ take n src.
Proof.
  intros [Hl Hz] Hn. unfold strcat_n. destruct (Nat.eqb_spec n 0) as [->|Hne]; [cbn; by rewrite app_nil_r|]. rewrite length_app, length_take in Hl.
  rewrite (proj2 (Nat.leb_gt _ _)) by lia. by apply cstring_id.
Qed.

(** A store of the last line, and a new line after it. *)
Lemma put_last s A l x : text s = slots (A ++ [l]) → (S (length A) < MAX_LINE_NUMBER)%nat →
  put (length A) (Some x) s = Ok tt (set_otext (slots (A ++ [x])) s).
Proof.
  intros Ht HA. erewrite put_run; [|done|lia]. f_equal. f_equal. apply slots_eq; [rewrite length_app; cbn [length]; lia|rewrite length_insert, length_slots; rewrite ?length_app; cbn [length]; lia|].
  intros i Hi. destruct (decide (i = length A)) as [->|Hne].
  - rewrite list_lookup_insert_eq by (rewrite length_slots; rewrite ?length_app; cbn [length]; lia). by rewrite list_lookup_middle.
  - rewrite list_lookup_insert_ne, slots_lookup by done. f_equal. destruct (decide (i < length A)%nat); [by rewrite !lookup_app_l by lia|].
    rewrite !lookup_ge_None_2; [done|rewrite length_app; cbn [length]; lia..].
Qed.
Lemma put_next s L : text s = slots L → (S (length L) < MAX_LINE_NUMBER)%nat → put (length L) (Some []) s = Ok tt (set_otext (slots (L ++ [[]])) s).
Proof.
  intros Ht HL. erewrite put_run; [|done|lia]. f_equal. f_equal. apply slots_eq; [rewrite length_app; cbn [length]; lia|rewrite length_insert, length_slots; lia|].
  intros i Hi. destruct (decide (i = length L)) as [->|Hne].
  - rewrite list_lookup_insert_eq by (rewrite length_slots; lia). by rewrite list_lookup_middle.
  - rewrite list_lookup_insert_ne, slots_lookup by done. f_equal. destruct (decide (i < length L)%nat); [by rewrite lookup_app_l by lia|].
    rewrite !lookup_ge_None_2; [done|rewrite length_app; cbn [length]; lia|lia].
Qed.

(** The state after loading: the lines, the last one unfinished. *)
Definition loaded (s : old) (L : list (list Z)) (s' : old) : Prop :=
  text s' = slots L ∧ same_rest s s' ∧ o_output s' = o_output s.

Lemma load_lines_spec b fuel : ∀ next s A cur, text s = slots (A ++ [cur]) → (next < length b)%nat →
  text_ok (foldl feed (A ++ [cur]) (drop next b)) → (length b - next < fuel)%nat →
  ∃ s' A' cur', load_lines b (length b) next (length A) fuel s = Ok (length A', false) s' ∧
    foldl feed (A ++ [cur]) (drop next b) = A' ++ [cur'] ∧ loaded s (A' ++ [cur']) s'.
Proof.
  induction fuel as [|fuel IH]; intros next s A cur Ht Hnx Hok Hf; [lia|]. cbn [load_lines].
  pose proof (newline_spec b next (length b - next) ltac:(lia)) as (Hi & Hno & Hnl). set (i := newline_at b next (length b - next)) in *.
  set (p := take (i - next) (drop next b)) in *. assert (length p = i - next)%nat as Hp by (unfold p; rewrite length_take, length_drop; lia).
  assert (drop next b = p ++ drop i b) as Ed by (unfold p; rewrite <- (take_drop (i - next) (drop next b)) at 1; rewrite drop_drop; repeat f_equal; lia).
  rewrite Ed, foldl_app, feed_piece in Hok by done. pose proof (feeds_ok _ _ Hok) as [Hlines Hlen]. rewrite length_app in Hlen. cbn [length] in Hlen.
  apply Forall_app in Hlines as [_ Hlast]. inversion_clear Hlast as [|?? Hcur _].
  erewrite bind_Ok by (eapply (line_run _ _ _ cur); [done|lia|by apply list_lookup_middle]). fold p.
  rewrite (strcat_n_ok cur (drop next b) (i - next)) by (done || rewrite length_drop; lia). fold p.
  erewrite bind_Ok by (eapply put_last; [done|lia]). set (s1 := set_otext _ s).
  assert (foldl feed (A ++ [cur]) (drop next b) = foldl feed (A ++ [cur ++ p]) (drop i b)) as Efold by (rewrite Ed, foldl_app, feed_piece by done; done).
  destruct (decide (i < length b)%nat) as [Hlt|Hge].
  - rewrite (Hnl Hlt), (proj2 (Nat.ltb_lt _ _) Hlt). cbn [Z.eqb Pos.eqb andb].
    assert (drop i b = 10 :: drop (S i) b) as Edi.
    { destruct (lookup_lt_is_Some_2 b i Hlt) as [c Hc]. rewrite (drop_S _ _ _ Hc). by rewrite <- (Hnl Hlt), (nth_lookup_Some _ _ _ _ Hc). }
    rewrite Edi in Hok, Efold. cbn [foldl] in Hok, Efold. rewrite feed_snoc in Hok, Efold. cbn [Z.eqb Pos.eqb] in Hok, Efold. rewrite app_assoc in Hok, Efold.
    pose proof (feeds_ok _ _ Hok) as [_ Hlen2]. rewrite !length_app in Hlen2. cbn [length] in Hlen2. rewrite (proj2 (Nat.leb_gt _ _)) by lia. rewrite bind_assoc.
    assert (length (A ++ [cur ++ p]) = S (length A)) as EA by (rewrite length_app; cbn [length]; lia).
    rewrite <- EA. erewrite bind_Ok by (apply put_next; [done|lia]). rewrite bind_ret. cbn [orb]. set (s2 := set_otext _ s1).
    destruct (Nat.leb_spec (length b - 1) i) as [Hend|Hmore].
    + exists s2, (A ++ [cur ++ p]), []. rewrite (drop_ge b (S i)) in Efold by lia. cbn [foldl] in Efold. split; [done|]. split; [exact Efold|]. done.
    + destruct (IH (S i) s2 (A ++ [cur ++ p]) []) as (s' & A' & cur' & R & E & Hl & Hs & Ho); [done|lia|exact Hok|lia|].
      exists s', A', cur'. split; [exact R|]. split; [congruence|]. done.
  - assert (i = length b) as Ei by lia. rewrite (proj2 (Nat.ltb_ge i (length b))) by lia. cbn [andb]. rewrite bind_ret. cbn [orb].
    rewrite (proj2 (Nat.leb_le _ _)) by lia. exists s1, A, (cur ++ p). rewrite (drop_ge b i) in Efold by lia. done.
Qed.

Lemma read_chunks_spec fuel : ∀ rest s A cur, text s = slots (A ++ [cur]) → text_ok (foldl feed (A ++ [cur]) rest) → (length rest < fuel)%nat →
  ∃ s' A' cur', read_chunks rest (length A) fuel s = Ok (length A') s' ∧ foldl feed (A ++ [cur]) rest = A' ++ [cur'] ∧ loaded s (A' ++ [cur']) s'.
Proof.
  induction fuel as [|fuel IH]; intros rest s A cur Ht Hok Hf; [lia|]. cbn [read_chunks]. destruct rest as [|c rest'] eqn:Er.
  { cbn. by exists s, A, cur. }
  rewrite <- Er in *. assert (0 < length (take BUF_SIZE rest))%nat as Hpos by (rewrite Er; cbn; lia). set (b := take BUF_SIZE rest) in *.
  assert (rest = b ++ drop BUF_SIZE rest) as Eb by (unfold b; by rewrite take_drop). clearbody b. rewrite Eb, foldl_app in Hok.
  destruct (load_lines_spec b (S (length b)) 0 s A cur Ht Hpos) as (s1 & A1 & cur1 & R1 & E1 & Ht1 & (?&?&?&?) & Ho1); [rewrite drop_0; by eapply feeds_ok|lia|].
  destruct b as [|b0 b']; [cbn in Hpos; lia|]. set (b := b0 :: b') in *. mstep R1. rewrite drop_0 in E1.
  destruct (IH (drop BUF_SIZE rest) s1 A1 cur1 Ht1) as (s2 & A2 & cur2 & R2 & E2 & Ht2 & (?&?&?&?) & Ho2); [by rewrite <- E1|rewrite Eb, length_app in Hf; lia|].
  exists s2, A2, cur2. split; [exact R2|]. split; [rewrite Eb, foldl_app, E1; exact E2|]. split; [done|]. split; [split_and!; congruence|congruence].
Qed.

Lemma feed_join_from L : Forall (λ l, (10 ∉ l)) L → ∀ A l, (10 ∉ l) → foldl feed (A ++ [[]]) (l ++ concat (cons 10 <$> L)) = A ++ l :: L.
Proof.
  induction 1 as [|l' L Hl' _ IH]; intros A l Hl; rewrite foldl_app, feed_piece by done; [done|].
  cbn [fmap list_fmap concat app foldl]. rewrite feed_snoc. cbn [Z.eqb Pos.eqb app]. change (A ++ [l; []]) with (A ++ [l] ++ [[]]). rewrite app_assoc, IH by done.
  by rewrite <- app_assoc.
Qed.

(** Loading what was saved gives the lines. *)
Lemma feed_join L : L ≠ [] → Forall (λ l, (10 ∉ l)) L → foldl feed [[]] (join L) = L.
Proof.
  intros Hne HL. destruct L as [|l L]; [done|]. inversion_clear HL as [|?? Hl HL']. apply (feed_join_from L HL' [] l Hl).
Qed.

(** ** The command line *)

(** A buffer with a string in it. *)
Definition pad (l : list Z) : list Z := l ++ replicate (MAX_LINE_LENGTH - length l) 0.

Lemma nth_pad l i : nth i (pad l) 0 = nth i l 0.
Proof.
  unfold pad. destruct (decide (i < length l)%nat); [by rewrite app_nth1|]. rewrite app_nth2, (nth_overflow l) by lia. rewrite nth_lookup.
  destruct (replicate _ _ !! _) as [z|] eqn:E; [|done]. by apply lookup_replicate in E as [-> _].
Qed.

Lemma drop_pad l k : (k ≤ length l)%nat → drop k (pad l) = drop k l ++ replicate (MAX_LINE_LENGTH - length l) 0.
Proof. intros Hk. unfold pad. by rewrite drop_app_le. Qed.

Lemma cstring_drop_pad l k : (0 ∉ l) → (k ≤ length l < MAX_LINE_LENGTH)%nat → cstring (drop k (pad l)) = drop k l.
Proof.
  intros Hl Hk. rewrite drop_pad by lia. set (m := drop k l). assert (0 ∉ m) as Hm by (intros H; apply Hl; rewrite <- (take_drop k l); apply elem_of_app; by right).
  unfold cstring, cprefix. apply cprefix_from_holds; [done| |rewrite length_app, length_replicate; lia]. intros j Hj. cbn [Nat.add]. unfold cstr.
  destruct (decide (j < length m)%nat); [by rewrite app_nth1|]. rewrite app_nth2, (nth_overflow m) by lia. rewrite nth_lookup.
  destruct (replicate _ _ !! _) as [z|] eqn:E; [|done]. by apply lookup_replicate in E as [-> _].
Qed.

(** A line of input, as typed. *)
Definition typed (l : list Z) : Prop := (length l < MAX_LINE_LENGTH - 1)%nat ∧ Forall (λ c, c ≠ 0 ∧ c ≠ 10 ∧ c ≠ 13) l.

Lemma typed_nonzero l : Forall (λ c, c ≠ 0 ∧ c ≠ 10 ∧ c ≠ 13) l → (0 ∉ l).
Proof. intros H H0. pose proof (proj1 (list.Forall_forall _ _) H 0 H0) as [? _]. done. Qed.

Lemma gets_typed l rest n : Forall (λ c, c ≠ 0 ∧ c ≠ 10 ∧ c ≠ 13) l → (length l < n)%nat → gets_loop (l ++ 10 :: rest) n = (l ++ [10], rest).
Proof.
  revert n. induction l as [|c l IH]; intros n Hl Hn; (destruct n as [|n]; [cbn in Hn; lia|]); [done|]. inversion_clear Hl as [|?? (H0 & H1 & H2) Hl'].
  cbn [gets_loop app]. rewrite (proj2 (Z.eqb_neq c 10)), (proj2 (Z.eqb_neq c 13)) by done. cbn [orb]. rewrite IH by (done || (cbn in Hn; lia)). done.
Qed.

Lemma gets_line_run s l rest : typed l → o_input s = l ++ 10 :: rest → gets_line s = Ok (pad l) (set_oinput rest s).
Proof.
  intros (Hlen & Hl) Hi. unfold gets_line, gets. rewrite Hi, gets_typed by (done || lia).
  assert (list_inserts 0 (l ++ [10]) (replicate MAX_LINE_LENGTH 0) = pad (l ++ [10])) as ->.
  { unfold pad. apply list_eq. intros i. destruct (decide (i < length (l ++ [10%Z]))%nat) as [Hlt|Hge].
    - rewrite list_lookup_inserts by (rewrite ?length_replicate, ?length_app in *; cbn [length] in *; lia). rewrite Nat.sub_0_r. symmetry. by apply lookup_app_l.
    - rewrite list_lookup_inserts_ge by lia. rewrite lookup_app_r by lia. destruct (decide (i < MAX_LINE_LENGTH)%nat).
      + rewrite !lookup_replicate_2; [done|lia|lia].
      + rewrite !lookup_ge_None_2; [done|rewrite length_replicate; lia..]. }
  pose proof (cstring_drop_pad (l ++ [10]) 0) as Hc. rewrite !drop_0 in Hc. rewrite Hc.
  2:{ intros [H0|H0%list_elem_of_singleton]%elem_of_app; [by apply (typed_nonzero l)|done]. } 2:{ rewrite length_app. cbn [length]. lia. }
  rewrite length_app, Nat.add_comm. cbn [length Nat.add]. f_equal. unfold pad. rewrite <- app_assoc. rewrite insert_app_r_alt by lia. rewrite Nat.sub_diag. cbn [app list_insert].
  rewrite length_app. cbn [length]. replace (MAX_LINE_LENGTH - length l)%nat with (S (MAX_LINE_LENGTH - (length l + 1))) by lia. done.
Qed.

(** A number as typed, and its value. *)
Definition digit (c : Z) : Prop := 48 ≤ c ≤ 57.
Definition value (ds : list Z) : Z := foldl (λ n c, 10 * n + (c - 48)) 0 ds.

Lemma value_bound ds : ∀ n, Forall digit ds → 0 ≤ n → 0 ≤ foldl (λ n c, 10 * n + (c - 48)) n ds < (n + 1) * 10 ^ length ds.
Proof.
  induction ds as [|c ds IH]; intros n Hd Hn; cbn [foldl length]; [cbn; lia|]. inversion_clear Hd as [|?? Hc Hd']. unfold digit in Hc.
  specialize (IH (10 * n + (c - 48)) Hd' ltac:(lia)). rewrite Nat2Z.inj_succ, Z.pow_succ_r by lia. nia.
Qed.

Lemma number_typed ds tail : ∀ n, Forall digit ds → 0 ≤ n → (n + 1) * 10 ^ length ds < 2 ^ 31 → (tail = [] ∨ ∃ t, tail = 32 :: t) →
  number_from (ds ++ tail) n = foldl (λ n c, 10 * n + (c - 48)) n ds.
Proof.
  induction ds as [|c ds IH]; intros n Hd Hn Hb Ht; cbn [app number_from foldl].
  - destruct Ht as [->|[t ->]]; done.
  - inversion_clear Hd as [|?? Hc Hd']. unfold digit in Hc. cbn [length] in Hb. rewrite Nat2Z.inj_succ, Z.pow_succ_r in Hb by lia.
    pose proof (Z.pow_pos_nonneg 10 (length ds) ltac:(lia) ltac:(lia)).
    rewrite (proj2 (Z.eqb_neq c 32)), (proj2 (Z.ltb_ge 57 c)), (proj2 (Z.ltb_ge c 48)) by lia. cbn [orb]. rewrite s32_small by (unfold is_s32; nia). apply IH; [done|lia|nia|done].
Qed.

Lemma atoi_typed ds tail : ∀ n i fuel f, (∀ k, f (i + k)%nat = cstr (ds ++ tail) k) → Forall digit ds → 0 ≤ n → (n + 1) * 10 ^ length ds < 2 ^ 31 →
  (tail = [] ∨ ∃ t, tail = 32 :: t) → (length ds < fuel)%nat → atoi_from f i n fuel = Some (foldl (λ n c, 10 * n + (c - 48)) n ds).
Proof.
  induction ds as [|c ds IH]; intros n i fuel f Hf Hd Hn Hb Ht Hfu; (destruct fuel as [|fuel]; [lia|]); cbn [atoi_from foldl].
  - pose proof (Hf 0%nat) as H0. rewrite Nat.add_0_r in H0. rewrite H0. unfold cstr. destruct Ht as [->|[t ->]]; done.
  - pose proof (Hf 0%nat) as H0. rewrite Nat.add_0_r in H0. cbn in H0. inversion_clear Hd as [|?? Hc Hd']. unfold digit in Hc. cbn [length] in Hb, Hfu. rewrite Nat2Z.inj_succ, Z.pow_succ_r in Hb by lia.
    pose proof (Z.pow_pos_nonneg 10 (length ds) ltac:(lia) ltac:(lia)).
    rewrite H0, (proj2 (Z.leb_le 48 c)), (proj2 (Z.leb_le c 57)) by lia. cbn [andb]. rewrite s32_small by (unfold is_s32; nia).
    replace (n * 10 + c - 48) with (10 * n + (c - 48)) by lia. apply IH; try done; [|lia|nia|lia]. intros k. specialize (Hf (S k)). rewrite Nat.add_succ_r in Hf. exact Hf.
Qed.

(** ** Sessions *)

(** The commands as typed.  The place of a line is a number or, without one, the
    last line; the text stands behind the command or is asked for, and then is
    the next line of the input. *)
Inductive place := At (ds : list Z) | Last.
Inductive content := Given (x : list Z) | Asked (x : list Z).
Inductive edit :=
| EIns (p : place) (c : content)
| EMod (p : place) (c : content)
| EDel (p : place)
| EShow
| EHide
| EHelp.

Definition place_typed (p : place) : list Z := match p with At ds => 45 :: ds | Last => [] end.
Definition place_line (p : place) (L : list (list Z)) : Z := match p with At ds => value ds | Last => length L end.
Definition content_typed (c : content) : list Z := match c with Given x => 32 :: x | Asked _ => [] end.
Definition content_extra (c : content) : list Z := match c with Given x => x | Asked _ => [] end.
Definition content_text (c : content) : list Z := match c with Given x | Asked x => x end.
Definition content_answer (c : content) : list Z := match c with Given _ => [] | Asked x => x ++ [10] end.

(** The line of the command, and what is typed after it. *)
Definition render (e : edit) : list Z :=
  match e with
  | EIns p c => chars "ins" ++ place_typed p ++ content_typed c
  | EMod p c => chars "mod" ++ place_typed p ++ content_typed c
  | EDel p => chars "del" ++ place_typed p
  | EShow => chars "show"
  | EHide => chars "hide"
  | EHelp => chars "help"
  end.
Definition answer (e : edit) : list Z :=
  match e with EIns _ c | EMod _ c => content_answer c | _ => [] end.

Definition edit_lines (e : edit) (L : list (list Z)) : list (list Z) :=
  match e with
  | EIns p c => ins_lines (Z.to_nat (place_line p L)) (content_text c) L
  | EMod p c => <[Z.to_nat (place_line p L - 1) := content_text c]> L
  | EDel p => del_lines (Z.to_nat (place_line p L)) L
  | _ => L
  end.

(** At most three digits, a line that exists, and room for one more; a text behind
    the command is not empty, one that is asked for may be. *)
Definition number_ok (ds : list Z) : Prop := Forall digit ds ∧ (length ds ≤ 3)%nat.
Definition place_ok (p : place) : Prop := match p with At ds => number_ok ds | Last => True end.
Definition content_ok (c : content) : Prop := match c with Given x => x ≠ [] | Asked x => typed x end.
Definition edit_ok (e : edit) (L : list (list Z)) : Prop :=
  typed (render e) ∧
  match e with
  | EIns p c => place_ok p ∧ content_ok c ∧ place_line p L ≤ length L ∧ (S (length L) < MAX_LINE_NUMBER)%nat
  | EMod p c => place_ok p ∧ content_ok c ∧ 1 ≤ place_line p L ≤ length L
  | EDel p => place_ok p ∧ 1 ≤ place_line p L ≤ length L
  | _ => True
  end.

Lemma number_value ds tail : number_ok ds → (tail = [] ∨ ∃ t, tail = 32 :: t) →
  0 ≤ value ds ∧ stringtonumber (ds ++ tail) = value ds ∧ ∀ f, (∀ k, f k = cstr (ds ++ tail) k) → atoi f MAX_LINE_LENGTH = Some (value ds).
Proof.
  intros [Hd Hl] Ht. assert ((0 + 1) * 10 ^ length ds < 2 ^ 31) as Hb.
  { destruct ds as [|? [|? [|? [|? ?]]]]; cbn [length] in *; try lia; done. }
  pose proof (value_bound ds 0 Hd ltac:(lia)). split; [unfold value; lia|]. split; [by apply number_typed|].
  intros f Hf. apply (atoi_typed ds tail); try done. unfold MAX_LINE_LENGTH. lia.
Qed.

Lemma arg_pos_spec b n : ∀ j k, (j ≤ k < j + n)%nat → nth k b 0 = 32 → (∀ i, (j ≤ i < k)%nat → nth i b 0 ≠ 32) → arg_pos b j n = S k.
Proof.
  induction n as [|n IH]; intros j k Hk Hs Hno; [lia|]. cbn [arg_pos]. destruct (decide (j = k)) as [->|Hne].
  - by rewrite Hs.
  - rewrite (proj2 (Z.eqb_neq _ _)) by (apply Hno; lia). apply IH; [lia|done|]. intros i Hi. apply Hno. lia.
Qed.

(** What follows the first four characters of a command. *)
Lemma command_tail (p l : list Z) : length p = 4%nat → typed (p ++ l) →
  cstring (drop 4 (pad (p ++ l))) = l ∧ ∀ k, cstr (drop 4 (pad (p ++ l))) k = cstr l k.
Proof.
  intros Hp (Hlen & Hc). pose proof (typed_nonzero _ Hc) as Hz. assert (drop 4 (p ++ l) = l) as E4 by (rewrite <- Hp; apply drop_app_length).
  rewrite length_app in Hlen. split; [rewrite cstring_drop_pad by (done || rewrite length_app; lia); done|].
  intros k. unfold cstr. rewrite drop_pad, E4 by (rewrite length_app; lia). destruct (decide (k < length l)%nat); [by rewrite app_nth1|].
  rewrite app_nth2, (nth_overflow l) by lia. rewrite nth_lookup. destruct (replicate _ _ !! _) as [z|] eqn:E; [|done]. by apply lookup_replicate in E as [-> _].
Qed.

Lemma arg_pos_none b n : ∀ j, (∀ i, (j ≤ i < j + n)%nat → nth i b 0 ≠ 32) → arg_pos b j n = (MAX_LINE_LENGTH - 1)%nat.
Proof.
  induction n as [|n IH]; intros j Hno; [done|]. cbn [arg_pos]. rewrite (proj2 (Z.eqb_neq _ _)) by (apply Hno; lia). apply IH. intros i Hi. apply Hno. lia.
Qed.
Lemma nth_no_space (h : list Z) i : (32 ∉ h) → nth i h 0 ≠ 32.
Proof.
  intros Hh E. destruct (h !! i) as [c|] eqn:Ec.
  - rewrite (nth_lookup_Some _ _ _ _ Ec) in E. subst c. apply Hh. by eapply list_elem_of_lookup_2.
  - rewrite nth_overflow in E by (by apply lookup_ge_None_1). done.
Qed.

(** The text of a command: what follows the first space, or nothing. *)
Lemma command_extra (h : list Z) c : (32 ∉ h) → (length h < 8)%nat → typed (h ++ content_typed c) →
  cstring (drop (arg_pos (pad (h ++ content_typed c)) 0 8) (pad (h ++ content_typed c))) = content_extra c.
Proof.
  intros Hh Hl (Hlen & Hc). pose proof (typed_nonzero _ Hc) as Hz. destruct c as [x|x]; cbn [content_typed content_extra] in *.
  - rewrite length_app in Hlen. cbn [length] in Hlen. rewrite (arg_pos_spec _ _ 0 (length h)); [|lia|by rewrite nth_pad, nth_middle|].
    + rewrite cstring_drop_pad; [|done|rewrite length_app; cbn [length]; lia]. rewrite cons_middle, app_assoc.
      replace (S (length h)) with (length (h ++ [32])) by (rewrite length_app; cbn; lia). apply drop_app_length.
    + intros i Hi. rewrite nth_pad, app_nth1 by lia. by apply nth_no_space.
  - rewrite app_nil_r in *. rewrite arg_pos_none by (intros i _; rewrite nth_pad; by apply nth_no_space).
    unfold pad. rewrite drop_app_ge, drop_replicate by lia.
    replace (MAX_LINE_LENGTH - length h - (MAX_LINE_LENGTH - 1 - length h))%nat with 1%nat by lia. done.
Qed.

(** A command with its place and text: the text, the fourth character, and the
    number in both readings. *)
Lemma command_parse name p c : length name = 3%nat → (32 ∉ name) → place_ok p → typed (name ++ place_typed p ++ content_typed c) →
  let b := pad (name ++ place_typed p ++ content_typed c) in
  cstring (drop (arg_pos b 0 8) b) = content_extra c ∧
  match p with
  | At ds => nth 3 b 0 = 45 ∧ 0 ≤ value ds ∧ stringtonumber (cstring (drop 4 b)) = value ds ∧ atoi (cstr (drop 4 b)) MAX_LINE_LENGTH = Some (value ds)
  | Last => nth 3 b 0 = match c with Given _ => 32 | Asked _ => 0 end
  end.
Proof.
  intros Hn Hsp Hp Hty b. split.
  - unfold b. rewrite app_assoc in *. apply command_extra; [|rewrite length_app|done]; destruct p as [ds|]; cbn [place_typed place_ok length] in *;
      rewrite ?app_nil_r; try (done || lia); [|destruct Hp; lia].
    destruct Hp as [Hd _]. rewrite not_elem_of_app, not_elem_of_cons. split; [done|]. split; [done|]. intros H.
    pose proof (proj1 (list.Forall_forall _ _) Hd _ H) as H32. unfold digit in H32. lia.
  - unfold b. rewrite nth_pad, app_nth2, Hn, Nat.sub_diag by lia. destruct p as [ds|]; cbn [place_typed place_ok] in *; [|by destruct c].
    split; [done|]. assert (name ++ (45 :: ds) ++ content_typed c = (name ++ [45]) ++ ds ++ content_typed c) as E by (by rewrite <- app_assoc). rewrite E in *.
    destruct (command_tail (name ++ [45]) (ds ++ content_typed c)) as [E2 E3]; [by rewrite length_app, Hn|done|].
    rewrite E2. destruct (number_value ds (content_typed c) Hp) as (H0 & Hs & Ha); [destruct c; eauto|].
    split; [done|]. split; [done|]. by apply Ha.
Qed.

(** The text of a line, from the command or from the input. *)
Lemma ask_run s c rest : content_ok c → o_input s = content_answer c ++ rest →
  ∃ s', ask (content_extra c) s = Ok (content_text c) s' ∧ text s' = text s ∧ o_input s' = rest ∧ o_files s' = o_files s.
Proof.
  intros Hc Hi. destruct c as [x|x]; cbn [content_ok content_answer content_extra content_text] in *.
  - exists s. split; [by destruct x|done].
  - unfold ask, puts, print. rewrite bind_modify. rewrite <- app_assoc in Hi. erewrite bind_Ok by (by apply gets_line_run).
    destruct Hc as [Hl Hc]. rewrite <- (drop_0 (pad x)), cstring_drop_pad by (by apply typed_nonzero || lia). rewrite drop_0. by eexists.
Qed.

Section session.
Context (can : list Z → bool) (path : list Z).

Lemma edited_length s L r : edited s L r → ∃ s', r = Ok tt s' ∧ holds s' L ∧ get_line_number s' = Ok (length L - 1) s' ∧ o_input s' = o_input s ∧ o_files s' = o_files s.
Proof. intros (s' & -> & [Ht HL] & _ & Hi & Hf). exists s'. split; [done|]. split; [by split|]. split; [apply get_line_number_run; [done|lia]|done]. Qed.

(** The name of a command, as the loop tells it. *)
Lemma starts_name name l x y z : length name = 3%nat → starts (pad (name ++ l)) x y z = starts name x y z.
Proof. intros Hn. unfold starts. by rewrite !nth_pad, !app_nth1 by lia. Qed.

Lemma ins_command p c s L rest : holds s L → L ≠ [] → edit_ok (EIns p c) L → o_input s = content_answer c ++ rest →
  ∃ s', old_command can path (pad (render (EIns p c))) (length L - 1) s = Ok (length (edit_lines (EIns p c) L) - 1, true) s' ∧
    holds s' (edit_lines (EIns p c) L) ∧ o_input s' = rest ∧ o_files s' = o_files s.
Proof.
  intros Hh Hne (Hty & Hp & Hc & Hle & Hroom) Hin. cbn [render edit_lines] in *. destruct (ask_run s c rest Hc Hin) as (s0 & Rask & Ht0 & Hi0 & Hf0).
  destruct (command_parse (chars "ins") p c eq_refl ltac:(by apply (bool_decide_unpack _)) Hp Hty) as [Ex Hpl].
  assert (0 ≤ place_line p L) as Hpos by (destruct p; [apply Hpl|cbn; lia]).
  destruct (edited_length _ _ _ (com_ins_spec s s0 L (place_line p L) _ _ Hh Hne ltac:(lia) Hroom Rask Ht0)) as (s1 & R1 & Hh1 & Hg & Hi & Hf).
  unfold old_command. rewrite Ex, starts_name by done. change (starts (chars "ins") 105 110 115) with true. cbn [Z.eqb Pos.eqb andb]. exists s1. split; [|by rewrite Hi, Hf].
  destruct p as [ds|]; cbn [place_line] in *.
  - destruct Hpl as (E3 & _ & -> & _). rewrite E3, (proj2 (Z.leb_le 0 _) Hpos). cbn [Z.eqb Pos.eqb andb]. mstep R1. by mstep Hg.
  - rewrite Hpl. replace (length L - 1 + 1) with (Z.of_nat (length L)) by lia. destruct c; cbn [Z.eqb Pos.eqb andb orb]; mstep R1; by mstep Hg.
Qed.

Lemma mod_command p c s L rest : holds s L → edit_ok (EMod p c) L → o_input s = content_answer c ++ rest →
  ∃ s', old_command can path (pad (render (EMod p c))) (length L - 1) s = Ok (length (edit_lines (EMod p c) L) - 1, true) s' ∧
    holds s' (edit_lines (EMod p c) L) ∧ o_input s' = rest ∧ o_files s' = o_files s.
Proof.
  intros Hh (Hty & Hp & Hc & Hle) Hin. cbn [render edit_lines] in *. destruct (ask_run s c rest Hc Hin) as (s0 & Rask & Ht0 & Hi0 & Hf0).
  destruct (command_parse (chars "mod") p c eq_refl ltac:(by apply (bool_decide_unpack _)) Hp Hty) as [Ex Hpl].
  destruct (edited_length _ _ _ (com_mod_spec s s0 L (place_line p L) _ _ Hh Hle Rask Ht0)) as (s1 & R1 & Hh1 & _ & Hi & Hf).
  unfold old_command. rewrite Ex, !starts_name, length_insert by done. change (starts (chars "mod") 105 110 115) with false. change (starts (chars "mod") 109 111 100) with true. cbn [Z.eqb Pos.eqb andb]. exists s1. split; [|by rewrite Hi, Hf].
  destruct p as [ds|]; cbn [place_line] in *.
  - destruct Hpl as (E3 & _ & -> & ->). rewrite E3, (proj2 (Z.leb_le 0 (value ds))) by lia. cbn [Z.eqb Pos.eqb andb default]. by mstep R1.
  - rewrite Hpl. replace (length L - 1 + 1) with (Z.of_nat (length L)) by lia. destruct c; cbn [Z.eqb Pos.eqb andb orb]; by mstep R1.
Qed.

Lemma del_command p s L : holds s L → edit_ok (EDel p) L →
  ∃ s', old_command can path (pad (render (EDel p))) (length L - 1) s = Ok (length (edit_lines (EDel p) L) - 1, true) s' ∧
    holds s' (edit_lines (EDel p) L) ∧ o_input s' = o_input s ∧ o_files s' = o_files s.
Proof.
  intros Hh (Hty & Hp & Hle). cbn [render edit_lines] in *.
  destruct (command_parse (chars "del") p (Asked []) eq_refl ltac:(by apply (bool_decide_unpack _)) Hp) as [_ Hpl]; [by rewrite app_nil_r|].
  cbn [content_typed] in Hpl. rewrite app_nil_r in Hpl.
  destruct (edited_length _ _ _ (com_del_spec s L (place_line p L) Hh Hle)) as (s1 & R1 & Hh1 & Hg & Hi & Hf).
  unfold old_command. rewrite !starts_name by done.
  change (starts (chars "del") 105 110 115) with false. change (starts (chars "del") 109 111 100) with false. change (starts (chars "del") 100 101 108) with true. cbn [Z.eqb Pos.eqb andb]. exists s1. split; [|done].
  destruct p as [ds|]; cbn [place_line] in *.
  - destruct Hpl as (E3 & _ & -> & ->). rewrite E3, (proj2 (Z.leb_le 0 (value ds))) by lia. cbn [Z.eqb Pos.eqb andb default]. mstep R1. by mstep Hg.
  - rewrite Hpl. replace (length L - 1 + 1) with (Z.of_nat (length L)) by lia. cbn [Z.eqb Pos.eqb andb orb]. mstep R1. by mstep Hg.
Qed.

Lemma puts_then t (m : M old unit) : (∀ s, ∃ o, m s = Ok tt (set_ooutput o s)) → ∀ s, ∃ o, (do! puts t in m) s = Ok tt (set_ooutput o s).
Proof. intros Hm s. unfold puts, print. rewrite bind_modify. destruct (Hm (set_ooutput (o_output s ++ [chars t ++ [10]]) s)) as [o ->]. by exists o. Qed.
Lemma com_help_run s : ∃ o, com_help s = Ok tt (set_ooutput o s).
Proof. unfold com_help. revert s. do 11 apply puts_then. intros s. eexists. reflexivity. Qed.

Lemma command_spec e s L rest : holds s L → L ≠ [] → edit_ok e L → o_input s = answer e ++ rest →
  ∃ s', old_command can path (pad (render e)) (length L - 1) s = Ok (length (edit_lines e L) - 1, true) s' ∧ holds s' (edit_lines e L) ∧
    o_input s' = rest ∧ o_files s' = o_files s.
Proof.
  intros Hh Hne He Hin. destruct e as [p c|p c|p| | |]; cbn [answer app] in Hin.
  - by apply ins_command.
  - by apply mod_command.
  - destruct (del_command p s L Hh He) as (s' & R & Hh' & Hi & Hf). exists s'. by rewrite Hi.
  - eexists. split; [reflexivity|]. done.
  - eexists. split; [reflexivity|]. done.
  - destruct (com_help_run s) as [o R]. exists (set_ooutput o s). split; [|done].
    change (old_command can path (pad (render EHelp)) (length L - 1) s) with ((do! com_help in ret (length L - 1, true)) s). by mstep R.
Qed.

Lemma edit_lines_nonempty e L : L ≠ [] → edit_lines e L ≠ [].
Proof.
  intros Hne. destruct e as [p c|p c|p| | |]; cbn [edit_lines]; [| | |done..].
  - unfold ins_lines. case_match; by intros [_ ?]%app_eq_nil.
  - intros E. apply Hne. apply length_zero_iff_nil. by rewrite <- (length_insert L (Z.to_nat (place_line p L - 1)) (content_text c)), E.
  - unfold del_lines. destruct (Nat.eqb_spec (length L) 1); [done|]. intros [H1 H2]%app_eq_nil. apply (f_equal length) in H1, H2.
    rewrite length_take in H1. rewrite length_drop in H2. destruct L as [|l0 [|l1 L]]; [done|done|]. cbn [length] in *. lia.
Qed.

(** The edits of a session, each in range when its turn comes. *)
Fixpoint edits_ok (es : list edit) (L : list (list Z)) : Prop :=
  match es with [] => True | e :: es => edit_ok e L ∧ edits_ok es (edit_lines e L) end.
Definition edits_lines (es : list edit) (L : list (list Z)) : list (list Z) := foldl (λ L e, edit_lines e L) L es.
Definition edits_typed (es : list edit) : list Z := concat ((λ e, render e ++ 10 :: answer e) <$> es).

Lemma edits_loop es : ∀ s L fuel rest, holds s L → L ≠ [] → edits_ok es L → o_input s = edits_typed es ++ rest → (length es ≤ fuel)%nat →
  ∃ s', old_loop can path (length L - 1) fuel s = old_loop can path (length (edits_lines es L) - 1) (fuel - length es) s' ∧
    holds s' (edits_lines es L) ∧ edits_lines es L ≠ [] ∧ o_input s' = rest ∧ o_files s' = o_files s.
Proof.
  induction es as [|e es IH]; intros s L fuel rest Hh Hne Hok Hin Hf; [exists s; cbn; by rewrite Nat.sub_0_r|].
  destruct fuel as [|fuel]; [cbn in Hf; lia|]. destruct Hok as [He Hok]. cbn [old_loop]. unfold print. rewrite bind_modify. set (s0 := set_ooutput _ s).
  assert (o_input s0 = render e ++ 10 :: (answer e ++ edits_typed es ++ rest)) as Hin0.
  { change (o_input s0) with (o_input s). rewrite Hin. unfold edits_typed. cbn [fmap list_fmap concat]. by rewrite <- !app_assoc. }
  erewrite bind_Ok by (apply gets_line_run; [apply He|exact Hin0]). set (s1 := set_oinput _ s0).
  destruct (command_spec e s1 L (edits_typed es ++ rest)) as (s2 & R2 & Hh2 & Hi2 & Hf2); [exact Hh|done|done|done|]. mstep R2.
  destruct (IH s2 (edit_lines e L) fuel rest) as (s3 & E3 & Hh3 & Hne3 & Hi3 & Hf3); [done|by apply edit_lines_nonempty|done|done|cbn in Hf; lia|].
  exists s3. split; [exact E3|]. split; [exact Hh3|]. split; [exact Hne3|]. split; [done|]. by rewrite Hf3, Hf2.
Qed.

(** The commands without a number. *)
Lemma save_command ln s : old_command can path (pad (chars "save")) ln s = (let! go := com_save can path in ret (ln, go)) s.
Proof. unfold old_command. change (starts (pad (chars "save")) ?a ?b ?c) with false. cbn iota. reflexivity. Qed.
Lemma exit_command ln s : old_command can path (pad (chars "exit")) ln s = (do! com_exit can path in ret (ln, false)) s.
Proof. unfold old_command. change (starts (pad (chars "exit")) ?a ?b ?c) with false. cbn iota. reflexivity. Qed.

Lemma typed_word w : w = chars "save" ∨ w = chars "exit" → typed w.
Proof. intros [-> | ->]; (split; [cbn; unfold MAX_LINE_LENGTH; lia|]; by repeat constructor). Qed.

Lemma free_lines_spec L fuel : ∀ i s, (∀ j, (i ≤ j < MAX_LINE_NUMBER)%nat → text s !! j = Some (L !! j)) → length (text s) = MAX_LINE_NUMBER →
  (i ≤ length L < MAX_LINE_NUMBER)%nat → (length L < i + fuel)%nat → ∃ s', free_lines i fuel s = Ok tt s' ∧ o_files s' = o_files s.
Proof.
  induction fuel as [|fuel IH]; intros i s Hs Hl Hi Hf; [lia|]. cbn [free_lines]. erewrite bind_Ok by (unfold slot; rewrite Hs by lia; done).
  destruct (L !! i) as [l|] eqn:E; [|by exists s]. apply lookup_lt_Some in E.
  erewrite bind_Ok by (unfold put; rewrite Hs by lia; done). set (s1 := set_otext _ s).
  destruct (IH (S i) s1) as (s' & R & Hf'); [|cbn; by rewrite length_insert|lia|lia|by exists s']. intros j Hj. cbn. rewrite list_lookup_insert_ne by lia. apply Hs. lia.
Qed.

Lemma com_exit_spec s L : holds s L → changed s = false → ∃ s', com_exit can path s = Ok tt s' ∧ o_files s' = o_files s.
Proof.
  intros [Ht HL] Hc. unfold com_exit. unfold Prelude.gets at 1. unfold bind at 1.
  assert (∀ fuel, exit_loop can path (S fuel) s = Ok true s) as R by (intros fuel; cbn [exit_loop]; unfold Prelude.gets, bind; by rewrite Hc).
  erewrite bind_Ok by apply R. apply (free_lines_spec L); [|rewrite Ht, length_slots; lia|lia|lia].
  intros j Hj. rewrite Ht. apply slots_lookup. lia.
Qed.

(** The last two commands of a session. *)
Lemma save_exit s L fuel : can path = true → holds s L → L ≠ [] → o_input s = chars "save" ++ 10 :: chars "exit" ++ [10] → (2 ≤ fuel)%nat →
  ∃ s', old_loop can path (length L - 1) fuel s = Ok tt s' ∧ o_files s' = <[path := join L]> (o_files s).
Proof.
  intros Hcan Hh Hne Hin Hf. destruct fuel as [|[|fuel]]; [lia|lia|]. cbn [old_loop]. unfold print at 1. rewrite bind_modify.
  erewrite bind_Ok by (apply gets_line_run; [apply typed_word; by left|exact Hin]). set (s1 := set_oinput _ _).
  destruct (com_save_spec can path s1 L Hcan Hh Hne) as (s2 & R2 & Hh2 & Hc2 & Hi2 & Hf2).
  erewrite bind_Ok by (rewrite save_command; by erewrite bind_Ok by exact R2). cbn iota.
  cbn [old_loop]. unfold print at 1. rewrite bind_modify.
  erewrite bind_Ok by (apply (gets_line_run _ (chars "exit") []); [apply typed_word; by right|cbn [set_ooutput o_input]; by rewrite Hi2]). set (s3 := set_oinput _ _).
  destruct (com_exit_spec s3 L Hh2 Hc2) as (s4 & R4 & Hf4). erewrite bind_Ok by (rewrite exit_command; by erewrite bind_Ok by exact R4). cbn iota.
  exists s4. split; [done|]. by rewrite Hf4.
Qed.

Lemma show_text_run s L : holds s L → ∃ s', show_text s = Ok tt s' ∧ text s' = text s ∧ same_rest s s'.
Proof.
  intros Hh. unfold show_text, puts, print. rewrite !bind_modify. set (s1 := set_ooutput _ _).
  destruct (show_lines_spec L (S MAX_LINE_NUMBER) s1 0) as (s' & R & Ht & Hs); [exact Hh|lia|destruct Hh; lia|]. by exists s'.
Qed.

Lemma session_spec fs L es fuel : can path = true → L ≠ [] → text_ok L → Forall (λ l, (10 ∉ l)) L → fs !! path = Some (join L) → edits_ok es L →
  (length es + 2 ≤ fuel)%nat →
  ∃ s', old_main can [path] fuel (old_start (edits_typed es ++ chars "save" ++ 10 :: chars "exit" ++ [10]) fs) = Ok tt s' ∧
    o_files s' = <[path := join (edits_lines es L)]> fs.
Proof.
  intros Hcan Hne Hok Hnl Hfs Hes Hf. set (s0 := old_start _ fs). unfold old_main.
  erewrite bind_Ok by (apply (put_next s0 []); [done|apply (bool_decide_unpack _); vm_compute; reflexivity]). cbn [app]. set (s1 := set_otext _ s0).
  unfold Prelude.gets at 1. unfold bind at 1. change (o_files s1) with fs. rewrite Hfs. unfold puts at 1, print at 1. rewrite bind_modify. set (s2 := set_ooutput _ s1).
  pose proof (feed_join L Hne Hnl) as Efeed.
  destruct (read_chunks_spec (S (length (join L))) (join L) s2 [] []) as (s3 & A & cur & R3 & E3 & Ht3 & (Hc3 & Ha3 & Hi3 & Hf3) & Ho3); [done|cbn [app]; by rewrite Efeed|lia|].
  cbn [app length] in R3, E3. rewrite Efeed in E3. mstep R3. rewrite <- E3 in Ht3.
  assert (holds s3 L) as Hh3 by (split; [done|apply Hok]).
  destruct (show_text_run s3 L Hh3) as (s4 & R4 & Ht4 & (Hc4 & Ha4 & Hi4 & Hf4)). mstep R4. destruct (com_help_run s4) as [o R5]. mstep R5. set (s5 := set_ooutput o s4).
  assert (holds s5 L) as Hh5 by (split; [cbn; by rewrite Ht4|apply Hok]).
  replace (Z.of_nat (length A)) with (length L - 1) by (rewrite E3, length_app; cbn; lia).
  destruct (edits_loop es s5 L fuel (chars "save" ++ 10 :: chars "exit" ++ [10]) Hh5 Hne Hes) as (s6 & E6 & Hh6 & Hne6 & Hi6 & Hf6).
  { change (o_input s5) with (o_input s4). rewrite Hi4, Hi3. done. } { lia. }
  rewrite E6. destruct (save_exit s6 (edits_lines es L) (fuel - length es) Hcan Hh6 Hne6 Hi6) as (s7 & R7 & Hf7); [lia|].
  exists s7. split; [exact R7|]. rewrite Hf7, Hf6. change (o_files s5) with (o_files s4). rewrite Hf4, Hf3. done.
Qed.
End session.

(** C37: A session of the earlier editor, on a file of fewer than 256 lines of at
    most 255 bytes.  The commands are any sequence of [ins], [mod] and [del], each
    with a line number ([ins-n]) or for the last line, the text of [ins] and [mod]
    behind the command or, if there is none, given on the next line when the
    editor asks (where it may be empty), and of [show], [hide] and [help]; every
    line number exists when its turn comes, and there is room for the lines
    inserted.  After [save] and [exit] the program ends, the file has exactly the
    edited lines, and the other files are untouched.  The edited lines are those of
    [edit_lines]: a line inserted after a last line that is empty goes in front of
    it ([ins_lines], [ins_before_empty_last]), and deleting the only line leaves an
    empty one. *)
Theorem old_editor_session can path fs L es fuel :
  can path = true → L ≠ [] → text_ok L → Forall (λ l, (10 ∉ l)) L → fs !! path = Some (join L) → edits_ok es L → (length es + 2 ≤ fuel)%nat →
  ∃ s', old_main can [path] fuel (old_start (edits_typed es ++ chars "save" ++ 10 :: chars "exit" ++ [10]) fs) = Ok tt s' ∧
    o_files s' = <[path := join (edits_lines es L)]> fs.
Proof. apply session_spec. Qed.

(** Insert after the first line, modify it with a text that is asked for, add an
    empty last line and fill it, delete the inserted line. *)
Definition demo_session : list edit :=
  [EIns (At [49]) (Given (chars "xy")); EHide; EMod (At [49]) (Asked (chars "q")); EIns Last (Asked []); EHelp; EMod Last (Given (chars "z")); EDel (At [50])].

Lemma old_editor_session_witness :
  ∃ s', old_main (λ _, true) [[102]] 9 (old_start (edits_typed demo_session ++ chars "save" ++ 10 :: chars "exit" ++ [10])
    {[ [102] := join [chars "ab"; chars "c"] ]}) = Ok tt s' ∧ o_files s' = <[ [102] := chars "q" ++ 10 :: chars "c" ++ 10 :: chars "z" ]> {[ [102] := join [chars "ab"; chars "c"] ]}.
Proof.
  destruct (old_editor_session (λ _, true) [102] {[ [102] := join [chars "ab"; chars "c"] ]} [chars "ab"; chars "c"] demo_session 9) as (s' & R & Hf).
  - reflexivity.
  - discriminate.
  - split; [|cbn; unfold MAX_LINE_NUMBER; lia]. repeat constructor; try (apply (bool_decide_unpack _); vm_compute; reflexivity).
  - repeat constructor; apply (bool_decide_unpack _); vm_compute; reflexivity.
  - apply lookup_singleton_eq.
  - assert (number_ok [49] ∧ number_ok [50]) as [H1 H2] by (split; (split; [repeat constructor; unfold digit; lia|cbn; lia])).
    unfold demo_session. cbn [edits_ok]. unfold edit_ok, place_ok, content_ok. split_and!; try (exact H1 || exact H2 || exact I || discriminate); try (vm_compute; lia);
      try (vm_compute; discriminate); repeat constructor; try discriminate; vm_compute; lia.
  - vm_compute. lia.
  - exists s'. split; [exact R|]. rewrite Hf. reflexivity.
Defined.

(** The help text says that [ins-n] inserts a line after line n, and [ins] after the
    last one: when the last line is empty, the new one comes before it. *)
Lemma ins_before_empty_last L x s : holds s (L ++ [[]]) → (S (S (length L)) < MAX_LINE_NUMBER)%nat → x ≠ [] →
  edited s (L ++ [x; []]) (com_ins (length (L ++ [[]])) x s).
Proof.
  intros Hh HL Hx. assert (ins_lines (Z.to_nat (length (L ++ [[]]))) x (L ++ [[]]) = L ++ [x; []]) as <-.
  { unfold ins_lines. rewrite Nat2Z.id, Nat.eqb_refl, length_app. cbn [length]. rewrite Nat.add_sub, nth_middle. cbn [andb].
    rewrite bool_decide_eq_true_2 by done. rewrite insert_app_r_alt, Nat.sub_diag by done. cbn. by rewrite <- app_assoc. }
  apply com_ins_spec; [done|by destruct L|lia|rewrite length_app; cbn; lia|by destruct x|done].
Qed.

(** With all 256 lines in use nothing ends the array: showing the text runs past
    it. *)
Lemma full_text_overrun : com_ins 255 [65] (Old (slots (replicate 255 [66])) false true [] [] ∅) = Panic "out of bounds".
Proof. vm_compute. reflexivity. Qed.

(** A piece of a line that does not fit is dropped as a whole. *)
Lemma long_line_lost : strcat_n [97] (replicate 255 98) 255 = [97].
Proof. vm_compute. reflexivity. Qed.
