(* ===== verification/Editor.v ===== *)
(** * The text editor: editor.c

    The text is a doubly linked list of line nodes between two root nodes, with
    a cursor (a node and its line number) that [findNode] starts from.  The
    state holds the nodes by address ([0] is the null pointer), the global
    variables, the command loop's [args] buffer (which [oriPath] may point
    into), the bytes still to come on standard input, what was written to
    standard output, and the files.  Reading through a null or freed pointer, a
    division by zero and an access outside a local array end the run with
    [panic]; the allocator of Umalloc.v is an abstract supply of fresh
    addresses for nodes that may run dry.  The bytes of a line are a list in its
    node; the allocation of these bytes is taken to succeed. *)
From S2P Require Import Prelude Str Printf ShRun.

Definition MAX_CHAR_INSHOW : Z := 80.
Definition BUF_LINE_LENGTH : Z := 512.
Definition LINE_IDX_SPACE : nat := 5.
Definition COLOR_SPACE : nat := 6.
Definition COMMAND_MAX_LEN : nat := 200.

Record LineNode := Node { n_prev : nat; n_length : Z; n_content : list Z; n_next : nat }.

(** [oriPath] is an argument of the program or the [args] buffer. *)
Inductive pathref := PArg (path : list Z) | PArgsBuf.

Record ed := Ed {
  nodes : gmap nat LineNode; fresh : nat; memory : nat;
  headNode : nat; tailNode : nat; curNode : nat;
  fileLineNum : Z; currentLine : Z; headShowLine : Z;
  showLineIdx : bool; isDirty : bool;
  oriPath : pathref; argsbuf : list Z;
  input : list Z; output : list (list Z); files : gmap (list Z) (list Z) }.

Definition set_nodes (m : gmap nat LineNode) (s : ed) : ed :=
  Ed m (fresh s) (memory s) (headNode s) (tailNode s) (curNode s) (fileLineNum s) (currentLine s) (headShowLine s)
     (showLineIdx s) (isDirty s) (oriPath s) (argsbuf s) (input s) (output s) (files s).
Definition set_alloc (f m : nat) (s : ed) : ed :=
  Ed (nodes s) f m (headNode s) (tailNode s) (curNode s) (fileLineNum s) (currentLine s) (headShowLine s)
     (showLineIdx s) (isDirty s) (oriPath s) (argsbuf s) (input s) (output s) (files s).
Definition set_roots (h t : nat) (s : ed) : ed :=
  Ed (nodes s) (fresh s) (memory s) h t (curNode s) (fileLineNum s) (currentLine s) (headShowLine s)
     (showLineIdx s) (isDirty s) (oriPath s) (argsbuf s) (input s) (output s) (files s).
Definition set_cursor (c : nat) (l : Z) (s : ed) : ed :=
  Ed (nodes s) (fresh s) (memory s) (headNode s) (tailNode s) c (fileLineNum s) l (headShowLine s)
     (showLineIdx s) (isDirty s) (oriPath s) (argsbuf s) (input s) (output s) (files s).
Definition set_lines (n : Z) (s : ed) : ed :=
  Ed (nodes s) (fresh s) (memory s) (headNode s) (tailNode s) (curNode s) n (currentLine s) (headShowLine s)
     (showLineIdx s) (isDirty s) (oriPath s) (argsbuf s) (input s) (output s) (files s).
Definition set_show (h : Z) (i : bool) (s : ed) : ed :=
  Ed (nodes s) (fresh s) (memory s) (headNode s) (tailNode s) (curNode s) (fileLineNum s) (currentLine s) h
     i (isDirty s) (oriPath s) (argsbuf s) (input s) (output s) (files s).
Definition set_dirty (d : bool) (s : ed) : ed :=
  Ed (nodes s) (fresh s) (memory s) (headNode s) (tailNode s) (curNode s) (fileLineNum s) (currentLine s) (headShowLine s)
     (showLineIdx s) d (oriPath s) (argsbuf s) (input s) (output s) (files s).
Definition set_paths (p : pathref) (a : list Z) (s : ed) : ed :=
  Ed (nodes s) (fresh s) (memory s) (headNode s) (tailNode s) (curNode s) (fileLineNum s) (currentLine s) (headShowLine s)
     (showLineIdx s) (isDirty s) p a (input s) (output s) (files s).
Definition set_input (i : list Z) (s : ed) : ed :=
  Ed (nodes s) (fresh s) (memory s) (headNode s) (tailNode s) (curNode s) (fileLineNum s) (currentLine s) (headShowLine s)
     (showLineIdx s) (isDirty s) (oriPath s) (argsbuf s) i (output s) (files s).
Definition set_output (o : list (list Z)) (s : ed) : ed :=
  Ed (nodes s) (fresh s) (memory s) (headNode s) (tailNode s) (curNode s) (fileLineNum s) (currentLine s) (headShowLine s)
     (showLineIdx s) (isDirty s) (oriPath s) (argsbuf s) (input s) o (files s).
Definition set_files (f : gmap (list Z) (list Z)) (s : ed) : ed :=
  Ed (nodes s) (fresh s) (memory s) (headNode s) (tailNode s) (curNode s) (fileLineNum s) (currentLine s) (headShowLine s)
     (showLineIdx s) (isDirty s) (oriPath s) (argsbuf s) (input s) (output s) f.

(** ** Memory and output *)

Definition node_at (a : nat) : M ed LineNode := λ s,
  match nodes s !! a with Some x => Ok x s | None => Panic "bad pointer" end.
Definition update_node (f : LineNode → LineNode) (a : nat) : M ed unit :=
  let! x := node_at a in modify (λ s, set_nodes (<[a := f x]> (nodes s)) s).
Definition set_next (p : nat) (x : LineNode) : LineNode := Node (n_prev x) (n_length x) (n_content x) p.
Definition set_prev (p : nat) (x : LineNode) : LineNode := Node p (n_length x) (n_content x) (n_next x).
Definition set_text (t : list Z) (x : LineNode) : LineNode := Node (n_prev x) (Z.of_nat (length t)) t (n_next x).

(** [malloc(sizeof(LineNode))]: a fresh address, or null. *)
Definition malloc_node : M ed nat := λ s,
  match memory s with
  | O => Ok O s
  | S m => Ok (fresh s) (set_nodes (<[fresh s := Node 0 0 [] 0]> (nodes s)) (set_alloc (S (fresh s)) m s))
  end.

Definition write1 (t : list Z) : M ed unit := modify (λ s, set_output (output s ++ [t]) s).
(** [printf(1, "...\n")] without directives. *)
Definition say (t : string) : M ed unit := write1 (chars t ++ [10]).

(** ** The list *)

Definition initList : M ed bool :=
  let! t := malloc_node in
  let! h := malloc_node in
  if (t =? 0)%nat || (h =? 0)%nat then do! say "malloc error!" in ret false else
  do! modify (set_roots h t) in
  do! update_node (λ _, Node h 0 [] 0) t in
  do! update_node (λ _, Node 0 0 [] t) h in
  ret true.

Definition newNode (prev : nat) : M ed nat :=
  if (prev =? 0)%nat then do! say "the newNode's prev pointer is NULL!" in ret 0%nat else
  let! node := malloc_node in
  if (node =? 0)%nat then do! say "newNode alloc failed!" in ret 0%nat else
  let! p := node_at prev in
  let next := n_next p in
  do! (if negb (next =? 0)%nat then
         do! update_node (set_prev node) next in
         do! update_node (set_next node) prev in
         do! update_node (set_prev prev) node in
         update_node (set_next next) node
       else
         do! update_node (set_next node) prev in
         do! update_node (set_prev prev) node in
         update_node (set_next 0) node) in
  do! update_node (set_text []) node in
  do! modify (λ s, set_lines (fileLineNum s + 1) s) in
  do! modify (set_dirty true) in
  do! modify (λ s, set_cursor (headNode s) 0 s) in
  ret node.

Definition deleteNode (node : nat) : M ed nat :=
  if (node =? 0)%nat then do! say "node is NULL!" in ret 0%nat else
  let! s := get in
  if (node =? headNode s)%nat || (node =? tailNode s)%nat then do! say "can't delete root nodes!" in ret 0%nat else
  let! x := node_at node in
  let next := n_next x in
  do! update_node (set_next next) (n_prev x) in
  do! update_node (set_prev (n_prev x)) next in
  do! modify (λ s, set_nodes (delete node (nodes s)) s) in
  do! modify (λ s, set_lines (fileLineNum s - 1) s) in
  do! modify (set_dirty true) in
  do! modify (λ s, set_cursor (headNode s) 0 s) in
  ret next.

(** [while(now != tmp)] of [freeList]: a line is freed in every turn. *)
Fixpoint free_loop (tmp now : nat) (delNum : Z) (fuel : nat) : M ed Z :=
  match fuel with
  | O => λ _, Fuel
  | S fuel =>
      if (now =? tmp)%nat then ret delNum else
      let! now := deleteNode now in
      if (now =? 0)%nat then ret 0 else
      free_loop tmp now (delNum + 1) fuel
  end.
Definition freeList (start end_ : nat) : M ed Z :=
  let! s := get in
  if (start =? headNode s)%nat || (end_ =? tailNode s)%nat then
    do! say "cannot free list that contain root nodes!" in ret 0
  else
    let! e := node_at end_ in
    free_loop (n_next e) start 0 (2 + size (nodes s)).

(** The four walks of [findNode]. *)
Fixpoint walk_next (stop : nat → bool) (now : nat) (lineIdx index : Z) (fuel : nat) : M ed nat :=
  match fuel with
  | O => λ _, Fuel
  | S fuel =>
      if stop now then ret now else
      if lineIdx =? index then ret now else
      let! x := node_at now in
      walk_next stop (n_next x) (lineIdx + 1) index fuel
  end.
Fixpoint walk_prev (stop : nat → bool) (now : nat) (lineIdx index : Z) (fuel : nat) : M ed nat :=
  match fuel with
  | O => λ _, Fuel
  | S fuel =>
      if stop now then ret now else
      if lineIdx =? index then ret now else
      let! x := node_at now in
      walk_prev stop (n_prev x) (lineIdx - 1) index fuel
  end.
(** [while(now->next != q)] and [while(now->prev != q)]. *)
Fixpoint walk_next_to (q now : nat) (lineIdx index : Z) (fuel : nat) : M ed nat :=
  match fuel with
  | O => λ _, Fuel
  | S fuel =>
      let! x := node_at now in
      if (n_next x =? q)%nat then ret now else
      if lineIdx =? index then ret now else
      walk_next_to q (n_next x) (lineIdx + 1) index fuel
  end.
Fixpoint walk_prev_to (q now : nat) (lineIdx index : Z) (fuel : nat) : M ed nat :=
  match fuel with
  | O => λ _, Fuel
  | S fuel =>
      let! x := node_at now in
      if (n_prev x =? q)%nat then ret now else
      if lineIdx =? index then ret now else
      walk_prev_to q (n_prev x) (lineIdx - 1) index fuel
  end.

Definition findNode (index : Z) : M ed nat :=
  let! s := get in
  let fuel := (2 + size (nodes s))%nat in
  if (fileLineNum s <? index) || (index <? 0) then do! say "index error!" in ret 0%nat else
  if index <=? currentLine s then
    if index - 1 <=? currentLine s - index then
      let! h := node_at (headNode s) in
      walk_next (λ now, now =? curNode s)%nat (n_next h) 1 index fuel
    else walk_prev_to (headNode s) (curNode s) (currentLine s) index fuel
  else
    if index - currentLine s <=? fileLineNum s - index then
      walk_next_to (tailNode s) (curNode s) (currentLine s) index fuel
    else
      let! t := node_at (tailNode s) in
      walk_prev (λ now, now =? curNode s)%nat (n_prev t) (fileLineNum s) index fuel.

(** ** Numbers *)

(** [idx2Str]: the five characters; the loop that removes factors of ten ends
    in a division by zero when the number is 0 modulo 10000. *)
Fixpoint mod_loop (idx mod_ : Z) (fuel : nat) : option Z :=
  match fuel with
  | O => None
  | S fuel => if mod_ =? 0 then None else if idx `rem` mod_ =? 0 then mod_loop idx (mod_ ÷ 10) fuel else Some (mod_ ÷ 10)
  end.
Fixpoint fill_loop (idx mod_ : Z) (n : nat) : list Z :=
  match n with
  | O => []
  | S n => if 1 <=? mod_ then 48 + (idx ÷ mod_) `rem` 10 :: fill_loop idx (mod_ ÷ 10) n else 32 :: fill_loop idx mod_ n
  end.
Definition idx2Str (idx : Z) : option (list Z) :=
  if negb (idx =? -1) then
    m ← mod_loop idx 10000 6; Some (fill_loop idx m LINE_IDX_SPACE)
  else Some (fill_loop idx 0 LINE_IDX_SPACE).

(** [str2Idx] on the bytes from a pointer on: characters that are no digits are
    skipped, and a sixth character that ends nothing gives -1. *)
Definition ends (c : Z) : bool := (c =? 32) || (c =? 0) || (c =? 10).
Fixpoint str2Idx_loop (str : list Z) (i : nat) (idx : Z) (n : nat) : Z * nat :=
  match n with
  | O => (idx, i)
  | S n =>
      let c := nth i str 0 in
      if ends c then (idx, i)
      else str2Idx_loop str (S i) (if (48 <=? c) && (c <=? 57) then idx * 10 + (c - 48) else idx) n
  end.
Definition str2Idx (str : list Z) : Z :=
  let '(idx, i) := str2Idx_loop str 0 0 LINE_IDX_SPACE in
  if ends (nth i str 0) then idx else -1.

(** ** Commands *)

(** An escape sequence, and a number in a message. *)
Definition esc (s : string) : list Z := 27 :: chars s.
Definition dec (n : Z) : list Z := default [] (printint n 10 true).

(** [for(len = 0; args[len] != '\0' && args[len] != '\n'; ++len)], in the bytes
    from a pointer into the buffer on. *)
Fixpoint line_len (args : list Z) : option nat :=
  match args with
  | [] => None
  | c :: args => if (c =? 0) || (c =? 10) then Some O else S <$> line_len args
  end.
(** The text, its index in front of it in green; the strings are printed as far
    as they were set. *)
Definition show_line (idx : Z) (t : list Z) : M ed unit :=
  match idx2Str idx with
  | None => panic "division by zero"
  | Some i => write1 (esc "[32m" ++ i ++ esc "[0m" ++ t ++ [10])
  end.

Definition ins (idx : Z) (args : list Z) : M ed unit :=
  let! prev := (if idx =? 0 then Prelude.gets headNode else findNode idx) in
  if (prev =? 0)%nat then ret tt else
  match line_len args with
  | None => panic "args overrun"
  | Some len =>
      let! now := newNode prev in
      do! update_node (set_text (take len args)) now in
      show_line (idx + 1) (take len args)
  end.

Definition mod_ (idx : Z) (args : list Z) : M ed unit :=
  if idx =? 0 then do! say "index inputed is wrong!" in panic "uninitialised pointer" else
  let! node := findNode idx in
  let! x := node_at node in
  let prev := n_prev x in
  if (prev =? 0)%nat then ret tt else
  match line_len args with
  | None => panic "args overrun"
  | Some len =>
      let! p := node_at prev in
      do! deleteNode (n_next p) in
      let! now := newNode prev in
      do! update_node (set_text (take len args)) now in
      show_line idx (take len args)
  end.

Definition num (args : list Z) : M ed unit :=
  let! s := get in
  if nth 0 args 0 =? 0 then
    if showLineIdx s then
      do! modify (λ s, set_show (headShowLine s) false s) in say "stop showing line index."
    else
      do! modify (λ s, set_show (headShowLine s) true s) in say "start showing line index."
  else if nth 1 args 0 =? 0 then
    if nth 0 args 0 =? 0 then
      do! modify (λ s, set_show (headShowLine s) false s) in say "stop showing line index."
    else if nth 0 args 0 =? 1 then
      do! modify (λ s, set_show (headShowLine s) true s) in say "start showing line index."
    else say "show: 1 ; stop: 0"
  else say "show: 1 ; stop: 0".

(** The end of a word of the arguments, from position [i] on. *)
Fixpoint word_end (args : list Z) (i n : nat) : nat :=
  match n with
  | O => i
  | S n => if ends (nth i args 0) then i else word_end args (S i) n
  end.

Definition del_range (idx1 idx2 : Z) : M ed unit :=
  if idx1 <=? idx2 then
    let! e := findNode idx2 in
    let! b := findNode idx1 in
    let! delNum := freeList b e in
    if 0 <? delNum then
      let! s := get in
      write1 (dec idx1 ++ chars " - " ++ dec idx2 ++ chars " deleted. " ++ dec delNum ++
              chars " lines. fileLine: " ++ dec (fileLineNum s) ++ [10])
    else write1 (chars "delete " ++ dec idx1 ++ chars " - " ++ dec idx2 ++ chars " error." ++ [10])
  else say "idx2 should larger than idx1!".

Definition del (args : list Z) : M ed unit :=
  let! s := get in
  if nth 0 args 0 =? 0 then del_range (fileLineNum s) (fileLineNum s)
  else
    let idx1 := str2Idx args in
    if idx1 =? -1 then say "index1 inputed is wrong!" else
    let i := word_end args 0 COMMAND_MAX_LEN in
    if negb (ends (nth i args 0)) then say "index2 inputed is wrong!" else
    if negb (nth i args 0 =? 32) then del_range idx1 idx1
    else
      let idx2 := str2Idx (drop (S i) args) in
      if idx2 =? -1 then say "index2 inputed is wrong!" else del_range idx1 idx2.

(** The six pointer assignments of [cut]. *)
Definition cut_link (idx1 idx2 tar : Z) : M ed unit :=
  let! n1 := findNode idx1 in
  let! n2 := findNode idx2 in
  let! nt := findNode tar in
  let! x1 := node_at n1 in
  let! x2 := node_at n2 in
  do! update_node (set_next (n_next x2)) (n_prev x1) in
  let! x2 := node_at n2 in
  let! x1 := node_at n1 in
  do! update_node (set_prev (n_prev x1)) (n_next x2) in
  let! xt := node_at nt in
  do! update_node (set_prev n2) (n_next xt) in
  let! xt := node_at nt in
  do! update_node (set_next (n_next xt)) n2 in
  do! update_node (set_next n1) nt in
  do! update_node (set_prev nt) n1 in
  say "successfully linked".

Definition cut (args : list Z) : M ed unit :=
  if nth 0 args 0 =? 0 then say "index1 inputed is wrong!" else
  let idx1 := str2Idx args in
  if idx1 =? -1 then say "index1 inputed is wrong!" else
  let i := word_end args 0 COMMAND_MAX_LEN in
  if negb (nth i args 0 =? 32) then say "index2 inputed is wrong!" else
  let i := S i in
  let idx2 := str2Idx (drop i args) in
  if idx2 =? -1 then say "index2 inputed is wrong!" else
  let i := word_end args i (COMMAND_MAX_LEN - i) in
  if negb (nth i args 0 =? 32) then say "tar inputed is wrong!" else
  let tar := str2Idx (drop (S i) args) in
  if tar =? -1 then say "tar inputed is wrong!" else
  if (idx1 <=? idx2) && ((tar <? idx1) || (idx2 <? tar)) then cut_link idx1 idx2 tar
  else say "index illegal!".

(** ** Display *)

(** The instructions; [showHelp] writes the first 1367 bytes. *)
Definition help_text : list Z :=
  esc "[2J" ++ esc "[H*********************************************************************************" ++ [10] ++
  esc "[0;32mPROGRAM INSTRUCTION:" ++ [10] ++
  chars "COMMANDS IN BRACKETS ARE NECESSARY VARIBLES" ++ esc "[0m" ++ [10] ++
  chars "[i(ns) (string)]:            " ++ esc "[0;32minsert (string) to the end.OK" ++ esc "[0m" ++ [10] ++
  chars "[i(ns)- [idx] (string)]:     " ++ esc "[0;32minsert (string) after line at (idx).OK" ++ esc "[0m" ++ [10] ++
  chars "[d(el) (idx1) (idx2)]:       " ++ esc "[0;32mdelete line from (idx1) to (idx2).OK" ++ esc "[0m" ++ [10] ++
  chars "[m(od) (string)]:            " ++ esc "[0;32mmodify the line at the end to (string).OK" ++ esc "[0m" ++ [10] ++
  chars "[m(od)- [idx] (string)]:     " ++ esc "[0;32mmodify the line at (idx) to (string).OK" ++ esc "[0m" ++ [10] ++
  chars "[c(ut) [idx1] [idx2] [tar]]: " ++ esc "[0;32mcut lines between (idx1) and (idx2) to (tar).OK" ++ esc "[0m" ++ [10] ++
  chars "[l(ist) (idx)]:              " ++ esc "[0;32mdisplay 20 lines around idx and set the cursor to (num+10).OK" ++ esc "[0m" ++ [10] ++
  chars "[p(rev) (num)]:              " ++ esc "[0;32mdisplay previous (num) lines and set the cursor after it.OK" ++ esc "[0m" ++ [10] ++
  chars "[n(ext) (num)]:              " ++ esc "[0;32mdisplay next (num) lines and set the cursor after it.OK" ++ esc "[0m" ++ [10] ++
  chars "[num (1/0)]:                 " ++ esc "[0;32mshow the line index or not.OK" ++ esc "[0m" ++ [10] ++
  chars "[h(elp)]:                    " ++ esc "[0;32mshow command help.OK" ++ esc "[0m" ++ [10] ++
  chars "[w(ri) (path)]:              " ++ esc "[0;32mwrite this file into (path).OK" ++ esc "[0m" ++ [10] ++
  chars "[q(uit)]:                    " ++ esc "[0;32mquit editor.OK" ++ esc "[0m" ++ [10] ++
  chars "[wq]:                        " ++ esc "[0;32mwrite this file into harddisk and quit editor.OK" ++ esc "[0m" ++ [10] ++
  chars "*********************************************************************************" ++ [10].
Definition showHelp : M ed unit := write1 (take (Z.to_nat 1367) help_text).

Definition ruler : list Z := replicate 86 61 ++ [10].

Section display.
(** [lineInShow], 98 bytes of it; [start] is where the shown part begins. *)
Definition LINEBUF : nat := COLOR_SPACE + LINE_IDX_SPACE + COLOR_SPACE - 1 + 80 + 2.
Definition line_init : list Z :=
  list_inserts (COLOR_SPACE + LINE_IDX_SPACE) (esc "[0m" ++ [0])
    (list_inserts 0 (esc "[32m" ++ [0]) (replicate LINEBUF 0)).

(** One part of a line: the buffer after it and the bytes written. *)
Definition show_part (withidx : bool) (idx : list Z) (part : list Z) (b : list Z) : list Z * list Z :=
  if withidx then
    let o := (COLOR_SPACE + LINE_IDX_SPACE + COLOR_SPACE - 1)%nat in
    let b := list_inserts o part b in
    let b := list_inserts COLOR_SPACE idx b in
    let b := list_inserts (o + length part) [10; 0] b in
    (b, take (o + length part + 1) b)
  else
    let o := (COLOR_SPACE + COLOR_SPACE - 1)%nat in
    let b := list_inserts o part b in
    let b := list_inserts (o + length part) [10; 0] b in
    (b, take (o + length part + 1) b).

(** [while(start < curNode->length || start == 0)]. *)
Fixpoint part_loop (start : Z) (b : list Z) (fuel : nat) : M ed (list Z) :=
  match fuel with
  | O => λ _, Fuel
  | S fuel =>
      let! s := get in
      let! x := node_at (curNode s) in
      if negb ((start <? n_length x) || (start =? 0)) then ret b else
      let len := Z.min (n_length x - start) MAX_CHAR_INSHOW in
      let part := subarr (n_content x) (Z.to_nat start) (Z.to_nat len) in
      let! b :=
        (if showLineIdx s then
           match idx2Str (if start =? 0 then currentLine s else -1) with
           | None => panic "division by zero"
           | Some i =>
               do! (if start =? 0 then modify (λ s, set_cursor (curNode s) (currentLine s + 1) s) else ret tt) in
               let '(b, w) := show_part true i part b in
               do! write1 w in ret b
           end
         else
           let '(b, w) := show_part false [] part b in
           do! write1 w in ret b) in
      part_loop (if negb (len =? 0) then start + len else start + 1) b fuel
  end.

(** [while(curNode != tailNode)]. *)
Fixpoint show_loop (endIndex : Z) (b : list Z) (fuel : nat) : M ed unit :=
  match fuel with
  | O => λ _, Fuel
  | S fuel =>
      let! s := get in
      if (curNode s =? tailNode s)%nat then ret tt else
      let! x := node_at (curNode s) in
      let! b := part_loop 0 b (S (S (Z.to_nat (n_length x)))) in
      do! modify (λ s, set_cursor (n_next x) (currentLine s) s) in
      let! s := get in
      if endIndex <? currentLine s then ret tt else show_loop endIndex b fuel
  end.

Definition showFile (index lines : Z) : M ed unit :=
  let! s := get in
  if fileLineNum s =? 0 then say "the file is null!" else
  let index := if fileLineNum s <? index then fileLineNum s else index in
  do! write1 (esc "[2J" ++ esc "[H" ++ ruler) in
  if index =? 0 then
    let! h := node_at (headNode s) in
    do! modify (set_cursor (n_next h) 1) in
    do! modify (λ s, set_show 1 (showLineIdx s) s) in
    do! show_loop (fileLineNum s) line_init (2 + size (nodes s)) in
    write1 ruler
  else
    let index := if index <? 0 then 1 else index in
    let h := headShowLine s + lines - 1 in
    let h := if h <? 0 then 1 else h in
    do! (if lines <? 0 then modify (λ s, set_show h (showLineIdx s) s) else ret tt) in
    let index := if lines <? 0 then h else index in
    let! tmp := findNode index in
    if (tmp =? 0)%nat then ret tt else
    do! modify (set_cursor tmp index) in
    do! modify (λ s, set_show index (showLineIdx s) s) in
    let endIndex := if lines <? 0 then index - lines else index + lines in
    let endIndex := if fileLineNum s <? endIndex then fileLineNum s else endIndex in
    do! show_loop endIndex line_init (2 + size (nodes s)) in
    write1 ruler.
End display.

(** ** Files *)

Section files.
(** Whether a path can be created, and the byte that follows the read buffer of
    [loadFile] in memory. *)
Context (can_create : list Z → bool) (oob : Z).

Definition path_string (p : pathref) (s : ed) : list Z :=
  match p with PArg l => l | PArgsBuf => cprefix (cstr (argsbuf s)) (length (argsbuf s)) end.

Definition append_file (path t : list Z) : M ed unit :=
  modify (λ s, set_files (<[path := default [] (files s !! path) ++ t]> (files s)) s).

(** The buffered writing loop of [saveFile]; it never ends on a line that does
    not fit the buffer. *)
Fixpoint save_loop (path : list Z) (part now lineCount : Z) (b : list Z) (e : Z) (fuel : nat) : M ed (list Z * Z * Z) :=
  match fuel with
  | O => λ _, Fuel
  | S fuel =>
      let! s := get in
      if now =? tailNode s then ret (b, e, lineCount) else
      let! x := node_at (Z.to_nat now) in
      let! (b, e, now, lineCount) :=
        (if e + n_length x + 1 <? BUF_LINE_LENGTH then
           let b := list_inserts (Z.to_nat e) (take (Z.to_nat (n_length x)) (n_content x)) b in
           let e := e + (n_length x + 1) in
           let b := <[Z.to_nat (e - 1) := 10]> b in
           ret (b, e, Z.of_nat (n_next x), lineCount + 1)
         else
           do! append_file path (take (Z.to_nat e) b) in
           ret (b, 0, now, lineCount)) in
      do! (if (0 <? part) && (lineCount `rem` part =? 0) then write1 (chars ".") else ret tt) in
      save_loop path part now lineCount b e fuel
  end.

Definition saveFile (filePath : pathref) : M ed bool :=
  let! s := get in
  let filePath := (match path_string filePath s with [] => oriPath s | _ => filePath end) in
  do! modify (λ s, set_paths filePath (argsbuf s) s) in
  let path := path_string filePath s in
  do! modify (λ s, set_files (delete path (files s)) s) in
  if negb (can_create path) then do! write1 (chars "save failed, file can't open: " ++ path ++ [10]) in ret false else
  do! modify (λ s, set_files (<[path := []]> (files s)) s) in
  let part := fileLineNum s ÷ 10 in
  let! h := node_at (headNode s) in
  do! write1 (chars "fileName: " ++ path ++ [10]) in
  do! write1 (chars "saving") in
  let! (b, e, lineCount) :=
    save_loop path part (Z.of_nat (n_next h)) 0 (replicate (Z.to_nat BUF_LINE_LENGTH) 0) 0 (2 + 2 * size (nodes s)) in
  do! (if 0 <? e then append_file path (take (Z.to_nat e) (<[Z.to_nat e := 0]> b)) else ret tt) in
  do! write1 (chars " saved! file lines: " ++ dec lineCount ++ [10]) in
  do! modify (set_dirty false) in
  ret true.

(** [for(end = start; end < len && buf[end] != '\n'; ++end)]. *)
Fixpoint find_nl (b : list Z) (i n : nat) : nat :=
  match n with
  | O => i
  | S n => if nth i b 0 =? 10 then i else find_nl b (S i) n
  end.

(** [while(start < len)] of [loadFile]; [scaning] says that [now] is unfinished. *)
Fixpoint chunk_loop (b : list Z) (len start : nat) (scaning : bool) (now : nat) (fuel : nat) : M ed (option (bool * nat)) :=
  match fuel with
  | O => λ _, Fuel
  | S fuel =>
      if negb (start <? len)%nat then ret (Some (scaning, now)) else
      let e := find_nl b start (len - start) in
      let! now := (if scaning then ret now else let! s := get in let! t := node_at (tailNode s) in newNode (n_prev t)) in
      if (now =? 0)%nat then do! say "nowNode pointer is NULL!" in ret None else
      let! x := node_at now in
      let seg := subarr b start (e - start) in
      do! (if n_length x =? 0 then update_node (set_text seg) now
           else update_node (set_text (take (Z.to_nat (n_length x)) (n_content x) ++ seg)) now) in
      let c := if (e <? Z.to_nat BUF_LINE_LENGTH)%nat then nth e b 0 else oob in
      if c =? 10 then chunk_loop b len (S e) false 0%nat fuel
      else chunk_loop b len (S e) true now fuel
  end.

(** [while((len = read(file, buf, BUF_LINE_LENGTH)) > 0)]; [rest] is what the
    file has from the read position on. *)
Fixpoint load_loop (rest b : list Z) (scaning : bool) (now : nat) (fuel : nat) : M ed bool :=
  match fuel with
  | O => λ _, Fuel
  | S fuel =>
      let data := take (Z.to_nat BUF_LINE_LENGTH) rest in
      match data with
      | [] => ret true
      | _ =>
          let b := list_inserts 0 data b in
          let! r := chunk_loop b (length data) 0 scaning now (S (length data)) in
          match r with
          | None => ret false
          | Some (scaning, now) => load_loop (drop (Z.to_nat BUF_LINE_LENGTH) rest) b scaning now fuel
          end
      end
  end.

Definition loadFile (filePath : list Z) : M ed bool :=
  let! s := get in
  match files s !! filePath with
  | None =>
      do! say "file not found!" in
      do! modify (λ s, set_paths (PArg filePath) (argsbuf s) s) in
      let! ok := initList in
      if negb ok then do! say "initList error!" in ret false
      else do! say "create new file!" in ret true
  | Some content =>
      do! say "file found!" in
      do! modify (λ s, set_paths (PArg filePath) (argsbuf s) s) in
      let! ok := initList in
      if negb ok then do! say "initList error!" in ret false
      else load_loop content (replicate (Z.to_nat BUF_LINE_LENGTH) 0) false 0%nat (S (length content))
  end.

Definition gets_input (max : nat) : M ed (list Z) := λ s,
  let '(l, rest) := gets (input s) max in Ok l (set_input rest s).

Definition quit : M ed bool :=
  let! s := get in
  if isDirty s then
    do! say "this file has being changed! do you want to overwrite?(Y/N)" in
    let! l := gets_input COMMAND_MAX_LEN in
    if negb ((nth 1 l 0 =? 0) || (nth 1 l 0 =? 10)) then do! say "input error!" in ret false
    else if (nth 0 l 0 =? 89) || (nth 0 l 0 =? 121) then
      let! s := get in
      do! saveFile (oriPath s) in ret true
    else if (nth 0 l 0 =? 78) || (nth 0 l 0 =? 110) then ret true
    else do! say "input error!" in ret false
  else ret true.

(** ** The command loop *)

Definition streq (name : list Z) (s : string) : bool :=
  match strcmp (cstr name) (cstr (chars s)) 10 with Some r => r =? 0 | None => false end.

(** [for(i = 0; args[i] != ' '; ++i)]: the bytes after the first space. *)
Fixpoint after_space (args : list Z) : option (list Z) :=
  match args with
  | [] => None
  | c :: args => if c =? 32 then Some args else after_space args
  end.

(** The commands with an index in front of the text. *)
Definition indexed (args : list Z) (k : Z → list Z → M ed unit) : M ed bool :=
  let idx := str2Idx args in
  if idx =? -1 then do! say "index inputed is wrong!" in ret false else
  match after_space args with
  | None => panic "args overrun"
  | Some t => do! k idx t in ret false
  end.

Definition cmdExec (name : list Z) : M ed bool :=
  let! s := get in
  let args := argsbuf s in
  let isn a b := streq name a || streq name b in
  if nth 0 name 0 =? 0 then do! say "get empty command!" in ret false
  else if isn "i" "ins" then do! ins (fileLineNum s) args in ret false
  else if isn "i-" "ins-" then indexed args ins
  else if isn "d" "del" then do! del args in ret false
  else if isn "m" "mod" then do! mod_ (fileLineNum s) args in ret false
  else if isn "m-" "mod-" then indexed args mod_
  else if isn "c" "cut" then do! cut args in ret false
  else if isn "l" "list" then
    let idx := str2Idx args in
    if idx =? -1 then do! say "index inputed is wrong!" in ret false else
    if negb (idx =? 0) then do! showFile (idx - 10) 20 in ret false
    else do! showFile 1 (fileLineNum s) in ret false
  else if isn "n" "next" then
    let lines := str2Idx args in
    if lines =? -1 then do! say "lines num inputed is wrong!" in ret false else
    let lines := if lines <=? 0 then 20 else lines in
    do! showFile (currentLine s - lines ÷ 2) lines in ret false
  else if isn "p" "prev" then
    let lines := str2Idx args in
    if lines =? -1 then do! say "lines num inputed is wrong!" in ret false else
    let lines := if lines <=? 0 then 20 else lines in
    do! showFile (currentLine s + lines ÷ 2) (- lines) in ret false
  else if streq name "num" then do! num args in ret false
  else if isn "h" "help" then do! showHelp in ret false
  else if isn "w" "wri" then do! saveFile PArgsBuf in ret false
  else if isn "q" "quit" then quit
  else if streq name "wq" then do! saveFile PArgsBuf in quit
  else do! say "command not found!" in ret false.

(** The command's name, at most four characters, and where it ends. *)
Fixpoint get_name (l : list Z) (argi n : nat) : option (list Z * nat) :=
  match n with
  | O => None
  | S n =>
      let c := nth argi l 0 in
      if ends c then Some ([], argi)
      else if (4 <=? argi)%nat then None
      else '(r, e) ← get_name l (S argi) n; Some (c :: r, e)
  end.

(** [while(input[cmdi] != '\n')]: the arguments stored so far; [None] for the
    error message.  A store past the end of [args] is out of bounds. *)
Fixpoint get_args (l : list Z) (cmdi argi : nat) (b : list Z) (fuel : nat) : M ed (option (list Z)) :=
  match fuel with
  | O => λ _, Fuel
  | S fuel =>
      let c := nth cmdi l 0 in
      if c =? 10 then
        (if (argi <? length b)%nat then ret (Some (<[argi := 0]> b)) else panic "args overrun")
      else if (COMMAND_MAX_LEN - 1 <=? argi)%nat then do! say "command args too long!" in ret None
      else if (argi <? length b)%nat then get_args l (S cmdi) (S argi) (<[argi := c]> b) fuel
      else panic "args overrun"
  end.

(** One turn of the command loop: [true] when the editor should exit. *)
Definition cmd_turn : M ed bool :=
  let! s := get in
  do! write1 (10 :: chars (if isDirty s then "*:" else " :")) in
  do! modify (λ s, set_paths (oriPath s) (<[O := 0]> (argsbuf s)) s) in
  let! l := gets_input COMMAND_MAX_LEN in
  match get_name l 0 6 with
  | None => do! say "command name error!" in ret false
  | Some (name, e) =>
      if (nth e l 0 =? 10) || (nth e l 0 =? 0) then cmdExec name
      else
        let! s := get in
        let! r := get_args l (S e) 0 (argsbuf s) (S COMMAND_MAX_LEN) in
        match r with
        | None => ret false
        | Some b =>
            do! modify (λ s, set_paths (oriPath s) b s) in
            cmdExec name
        end
  end.
Fixpoint cmd_loop (fuel : nat) : M ed unit :=
  match fuel with
  | O => λ _, Fuel
  | S fuel => let! stop := cmd_turn in if stop : bool then ret tt else cmd_loop fuel
  end.
Definition cmdLoop (fuel : nat) : M ed unit :=
  let! s := get in
  do! modify (λ s, set_paths (oriPath s) (replicate (COMMAND_MAX_LEN - 5) 0) s) in
  let! h := node_at (headNode s) in
  do! modify (set_cursor (n_next h) 1) in
  cmd_loop fuel.

(** [main]; the fuel bounds the number of commands.  The command loop has no
    exit at the end of its input. *)
Definition editor_main (argv : list (list Z)) (fuel : nat) : M ed unit :=
  match argv with
  | [] => say "Please start this editor using [editor file_name]"
  | path :: _ =>
      let! ok := loadFile path in
      if negb ok then do! say "unsuccessfully load!" in say "" else
      let! s := get in
      do! write1 (chars "successfully load! file lines: " ++ dec (fileLineNum s) ++ [10]) in
      do! modify (set_dirty false) in
      do! showHelp in
      do! cmdLoop fuel in
      let! s := get in
      let! h := node_at (headNode s) in
      let! t := node_at (tailNode s) in
      do! freeList (n_next h) (n_prev t) in
      do! say "free list completed!" in
      do! modify (λ s, set_nodes (delete (tailNode s) (delete (headNode s) (nodes s))) s) in
      say "editor exit."
  end.
End files.

(** The editor at start. *)
Definition ed_start (stdin : list Z) (fs : gmap (list Z) (list Z)) : ed :=
  Ed ∅ 1 1000 0 0 0 0 0 0 true false (PArg []) [] stdin [] fs.
