(* ===== verification/EditorInv.v ===== *)
(** * The editor's list, cursor and files: correctness of editor.c

    [rep] says that the linked nodes stand for a list of lines; [cursor_ok]
    that the cached node is the one at the cached line number.  On such states
    [findNode], the editing commands and the display do what they should, and
    a text that is saved and loaded again is the same text. *)
From S2P Require Import Prelude Str Printf ShRun Grep Editor.

Abbreviation lineno := (nat * list Z)%type.

Definition first_of (L : list lineno) (q : nat) : nat := match L with [] => q | x :: _ => x.1 end.
Fixpoint last_of (p : nat) (L : list lineno) : nat := match L with [] => p | x :: L => last_of x.1 L end.

(** The nodes of [L], doubly linked, between the addresses [p] and [q]. *)
Fixpoint dll (m : gmap nat LineNode) (p : nat) (L : list lineno) (q : nat) : Prop :=
  match L with
  | [] => True
  | x :: L => m !! x.1 = Some (Node p (Z.of_nat (length x.2)) x.2 (first_of L q)) ∧ dll m x.1 L q
  end.

Lemma last_of_snoc p L x : last_of p (L ++ [x]) = x.1.
Proof. revert p. induction L as [|y L IH]; intros p; [done|]. apply IH. Qed.
Lemma first_of_app L1 L2 q : first_of (L1 ++ L2) q = first_of L1 (first_of L2 q).
Proof. by destruct L1. Qed.

Lemma dll_app m p L1 L2 q : dll m p (L1 ++ L2) q ↔ dll m p L1 (first_of L2 q) ∧ dll m (last_of p L1) L2 q.
Proof.
  revert p. induction L1 as [|x L1 IH]; intros p; cbn [dll app last_of]; [tauto|].
  rewrite IH, first_of_app. tauto.
Qed.

Lemma dll_frame m m' p L q : dll m p L q → (∀ a, a ∈ L.*1 → m' !! a = m !! a) → dll m' p L q.
Proof.
  revert p. induction L as [|x L IH]; intros p; cbn [dll]; [done|]. intros [Hx HL] Hm. split.
  - rewrite Hm; [done|]. set_solver.
  - apply IH; [done|]. intros a Ha. apply Hm. set_solver.
Qed.

(** The node at a position, with its neighbours. *)
Definition adr (L : list lineno) (i : nat) : nat := default 0%nat (fst <$> L !! i).

Lemma dll_lookup m p L q i x : dll m p L q → L !! i = Some x →
  m !! x.1 = Some (Node (match i with O => p | S j => adr L j end) (Z.of_nat (length x.2)) x.2
                        (match L !! S i with Some y => y.1 | None => q end)).
Proof.
  revert p i. induction L as [|y L IH]; intros p i; [done|]. intros [Hy HL] Hi. destruct i as [|i].
  - injection Hi as <-. rewrite Hy. by destruct L.
  - rewrite (IH _ _ HL Hi). f_equal. f_equal. by destruct i.
Qed.

(** The nodes of a state, roots included. *)
Definition chain (s : ed) (l : list lineno) : list lineno := (headNode s, []) :: l ++ [(tailNode s, [])].

Record rep (s : ed) (l : list lineno) : Prop := {
  r_dll : dll (nodes s) 0 (chain s l) 0;
  r_nodup : NoDup ((chain s l).*1);
  r_zero : 0%nat ∉ (chain s l).*1;
  r_lines : fileLineNum s = length l;
  r_fresh : (0 < fresh s)%nat ∧ ∀ a, a ∈ dom (nodes s) → (a < fresh s)%nat }.

(** The cursor is the node at its line number; 0 is the head, the number of
    lines plus one the tail. *)
Definition cursor_ok (s : ed) (l : list lineno) : Prop :=
  0 ≤ currentLine s ∧ fst <$> chain s l !! Z.to_nat (currentLine s) = Some (curNode s).

Lemma chain_length s l : length (chain s l) = (length l + 2)%nat.
Proof. unfold chain. simpl. rewrite length_app. simpl. lia. Qed.

Lemma rep_size s l : rep s l → (length l + 2 ≤ size (nodes s))%nat.
Proof.
  intros H. rewrite <- chain_length with (s := s), <- (length_fmap fst), <- size_dom.
  rewrite <- (size_list_to_set (C := gset nat)) by apply H. apply subseteq_size. intros a Ha.
  apply elem_of_list_to_set, list_elem_of_fmap in Ha as (x & -> & Hx). apply list_elem_of_lookup in Hx as [i Hi].
  apply elem_of_dom. by rewrite (dll_lookup _ _ _ _ _ _ (r_dll _ _ H) Hi).
Qed.

Lemma rep_node s l i a t : rep s l → chain s l !! i = Some (a, t) →
  nodes s !! a = Some (Node (match i with O => O | S j => adr (chain s l) j end) (Z.of_nat (length t)) t (adr (chain s l) (S i))).
Proof.
  intros H Hi. pose proof (dll_lookup _ _ _ _ _ _ (r_dll _ _ H) Hi) as E. cbn [fst snd] in E. rewrite E.
  do 2 f_equal. unfold adr. by destruct (chain s l !! S i).
Qed.

Lemma adr_lookup L i x : L !! i = Some x → adr L i = x.1.
Proof. unfold adr. by intros ->. Qed.

(** Addresses at different positions differ. *)
Lemma adr_inj s l i j : rep s l → (i < length l + 2)%nat → (j < length l + 2)%nat →
  adr (chain s l) i = adr (chain s l) j → i = j.
Proof.
  intros H Hi Hj E. rewrite <- (chain_length s) in Hi, Hj.
  destruct (lookup_lt_is_Some_2 _ _ Hi) as [x Hx]. destruct (lookup_lt_is_Some_2 _ _ Hj) as [y Hy].
  rewrite (adr_lookup _ _ _ Hx), (adr_lookup _ _ _ Hy) in E.
  eapply (NoDup_lookup _ _ _ x.1); [apply H|by rewrite list_lookup_fmap, Hx|]. rewrite list_lookup_fmap, Hy, E. done.
Qed.

Lemma adr_nonzero s l i : rep s l → (i < length l + 2)%nat → adr (chain s l) i ≠ 0%nat.
Proof.
  intros H Hi E. rewrite <- (chain_length s) in Hi. destruct (lookup_lt_is_Some_2 _ _ Hi) as [x Hx].
  apply (r_zero _ _ H). rewrite <- E, (adr_lookup _ _ _ Hx). exact (list_elem_of_fmap_2 fst _ x (list_elem_of_lookup_2 _ _ _ Hx)).
Qed.

Lemma adr_head s l : adr (chain s l) 0 = headNode s.
Proof. done. Qed.
Lemma adr_tail s l : adr (chain s l) (S (length l)) = tailNode s.
Proof.
  unfold adr, chain. change (((headNode s, []) :: l ++ [(tailNode s, [])]) !! S (length l)) with ((l ++ [(tailNode s, [] : list Z)]) !! length l).
  by rewrite list_lookup_middle.
Qed.

Lemma node_at_chain s l i : rep s l → (i < length l + 2)%nat →
  ∃ t, node_at (adr (chain s l) i) s =
    Ok (Node (match i with O => O | S j => adr (chain s l) j end) (Z.of_nat (length t)) t (adr (chain s l) (S i))) s.
Proof.
  intros H Hi. rewrite <- (chain_length s) in Hi. destruct (lookup_lt_is_Some_2 _ _ Hi) as [[a t] Hx]. exists t.
  unfold node_at. rewrite (adr_lookup _ _ _ Hx). cbn [fst]. by rewrite (rep_node _ _ _ _ _ H Hx).
Qed.

(** ** [findNode] *)

Section find.
Context (s : ed) (l : list lineno) (H : rep s l).
Let A := adr (chain s l).

Lemma walk_next_spec (stop : nat → bool) (i : nat) k d j fuel :
  (i = j + d)%nat → (1 ≤ j)%nat → (i ≤ length l)%nat → (i ≤ k ≤ length l + 1)%nat → (d < fuel)%nat →
  (∀ a, stop a = (a =? A k)%nat) → walk_next stop (A j) j i fuel s = Ok (A i) s.
Proof.
  revert j fuel. induction d as [|d IH]; intros j fuel Hij H1 Hi Hk Hf Hstop; (destruct fuel as [|fuel]; [lia|]); cbn [walk_next]; rewrite Hstop.
  - replace j with i by lia. destruct (Nat.eqb_spec (A i) (A k)) as [E|E]; [done|]. by rewrite Z.eqb_refl.
  - destruct (Nat.eqb_spec (A j) (A k)) as [E|E]; [apply (adr_inj _ _ _ _ H) in E; lia|].
    destruct (Z.eqb_spec j i); [lia|]. destruct (node_at_chain s l j H ltac:(lia)) as [t R]. erewrite bind_Ok by exact R. cbn [n_next].
    replace (Z.of_nat j + 1) with (Z.of_nat (S j)) by lia. apply IH; try done; lia.
Qed.

Lemma walk_prev_spec (stop : nat → bool) (i : nat) k d j fuel :
  (j = i + d)%nat → (1 ≤ i)%nat → (j ≤ length l)%nat → (k < i)%nat → (d < fuel)%nat →
  (∀ a, stop a = (a =? A k)%nat) → walk_prev stop (A j) j i fuel s = Ok (A i) s.
Proof.
  revert j fuel. induction d as [|d IH]; intros j fuel Hij H1 Hj Hk Hf Hstop; (destruct fuel as [|fuel]; [lia|]); cbn [walk_prev]; rewrite Hstop;
    (destruct (Nat.eqb_spec (A j) (A k)) as [E|E]; [apply (adr_inj _ _ _ _ H) in E; lia|]).
  - replace j with i by lia. by rewrite Z.eqb_refl.
  - destruct (Z.eqb_spec j i); [lia|]. destruct (node_at_chain s l j H ltac:(lia)) as [t R]. erewrite bind_Ok by exact R. cbn [n_prev].
    destruct j as [|j']; [lia|]. replace (Z.of_nat (S j') - 1) with (Z.of_nat j') by lia. apply IH; try done; lia.
Qed.

Lemma walk_next_to_spec (i d j : nat) fuel :
  (i = j + d)%nat → (1 ≤ i ≤ length l)%nat → (d < fuel)%nat → walk_next_to (tailNode s) (A j) j i fuel s = Ok (A i) s.
Proof.
  revert j fuel. induction d as [|d IH]; intros j fuel Hij Hi Hf; (destruct fuel as [|fuel]; [lia|]); cbn [walk_next_to];
    destruct (node_at_chain s l j H ltac:(lia)) as [t R]; fold A in R; erewrite bind_Ok by exact R; cbn [n_next];
    rewrite <- (adr_tail s l); fold A.
  - replace j with i by lia. destruct (_ =? _)%nat; [done|]. by rewrite Z.eqb_refl.
  - destruct (Nat.eqb_spec (A (S j)) (A (S (length l)))) as [E|E]; [apply (adr_inj _ _ _ _ H) in E; lia|].
    destruct (Z.eqb_spec j i); [lia|]. replace (Z.of_nat j + 1) with (Z.of_nat (S j)) by lia.
    unfold A. rewrite (adr_tail s l). apply IH; lia.
Qed.

Lemma walk_prev_to_spec (i d j : nat) fuel :
  (j = i + d)%nat → (1 ≤ i)%nat → (j ≤ length l + 1)%nat → (d < fuel)%nat → walk_prev_to (headNode s) (A j) j i fuel s = Ok (A i) s.
Proof.
  revert j fuel. induction d as [|d IH]; intros j fuel Hij Hi Hj Hf; (destruct fuel as [|fuel]; [lia|]); cbn [walk_prev_to];
    destruct (node_at_chain s l j H ltac:(lia)) as [t R]; fold A in R; erewrite bind_Ok by exact R; cbn [n_prev].
  - replace j with i by lia. destruct (_ =? _)%nat; [done|]. by rewrite Z.eqb_refl.
  - destruct j as [|j']; [lia|]. rewrite <- (adr_head s l). fold A.
    destruct (Nat.eqb_spec (A j') (A 0)) as [E|E]; [apply (adr_inj _ _ _ _ H) in E; lia|].
    destruct (Z.eqb_spec (S j') i); [lia|]. replace (Z.of_nat (S j') - 1) with (Z.of_nat j') by lia.
    unfold A at 1. rewrite adr_head. apply IH; lia.
Qed.
End find.

Lemma findNode_spec s l index :
  rep s l → cursor_ok s l → 1 ≤ index ≤ length l →
  ∃ t, l !! Z.to_nat (index - 1) = Some (adr (chain s l) (Z.to_nat index), t) ∧
    findNode index s = Ok (adr (chain s l) (Z.to_nat index)) s.
Proof.
  intros H [Hc0 Hc] Hi. apply fmap_Some in Hc as (x & Hk & Hcur). pose proof (lookup_lt_Some _ _ _ Hk) as Hlt.
  rewrite chain_length in Hlt. assert (curNode s = adr (chain s l) (Z.to_nat (currentLine s))) as Ec by (by rewrite (adr_lookup _ _ _ Hk)).
  destruct (Z_of_nat_complete index) as [i ->]; [lia|]. rewrite Nat2Z.id in *.
  destruct (Z_of_nat_complete (currentLine s) Hc0) as [k Ek]. rewrite Ek, Nat2Z.id in *.
  replace (Z.to_nat (Z.of_nat i - 1)) with (i - 1)%nat by lia.
  destruct (lookup_lt_is_Some_2 l (i - 1)) as [[a t] Hat]; [lia|]. exists t. split.
  { rewrite Hat. do 2 f_equal. destruct i as [|i]; [lia|]. rewrite Nat.sub_succ, Nat.sub_0_r in Hat.
    unfold adr, chain. change (((headNode s, []) :: l ++ [(tailNode s, [])]) !! S i) with ((l ++ [(tailNode s, [] : list Z)]) !! i).
    by rewrite lookup_app_l, Hat by lia. }
  pose proof (rep_size s l H) as Hsz. unfold findNode. unfold bind at 1, get. rewrite (r_lines _ _ H), Ek, Ec.
  assert ((length l <? i) || (i <? 0) = false) as -> by (zcases; lia). cbn zeta.
  destruct (Z.leb_spec i k).
  - destruct (Z.leb_spec (i - 1) (k - i)).
    + destruct (node_at_chain s l 0 H ltac:(lia)) as [t0 R]. erewrite bind_Ok by exact R. cbn [n_next].
      apply (walk_next_spec s l H _ i k (i - 1) 1); (done || lia).
    + apply (walk_prev_to_spec s l H i (k - i) k); lia.
  - destruct (Z.leb_spec (i - k) (length l - i)).
    + apply (walk_next_to_spec s l H i (i - k) k); lia.
    + destruct (node_at_chain s l (S (length l)) H ltac:(lia)) as [t0 R]. rewrite adr_tail in R. erewrite bind_Ok by exact R. cbn [n_prev].
      apply (walk_prev_spec s l H _ i k (length l - i) (length l)); (done || lia).
Qed.

(** [findNode], which starts from the head, the tail or the cached cursor,
    whichever is nearest, and walks in either direction, is direct indexing:
    from a consistent cursor it returns the node of line [index] for every
    line of the text, without changing anything. *)
Lemma findNode_correct s l index :
  rep s l → cursor_ok s l → 1 ≤ index ≤ length l →
  ∃ t, l !! Z.to_nat (index - 1) = Some (adr (chain s l) (Z.to_nat index), t) ∧
    findNode index s = Ok (adr (chain s l) (Z.to_nat index)) s.
Proof. apply findNode_spec. Qed.

(** A list of two lines, the cursor at the first. *)
Definition ed_two : ed :=
  Ed {[1%nat := Node 4 0 [] 0; 2%nat := Node 0 0 [] 3; 3%nat := Node 2 1 [97] 4; 4%nat := Node 3 2 [98; 99] 1]} 5 100 2 1 3 2 1 0
     true false (PArg [102]) [] [] [] ∅.

Lemma ed_two_rep : rep ed_two [(3%nat, [97]); (4%nat, [98; 99])].
Proof.
  split; [by vm_compute|by apply (bool_decide_unpack _); vm_compute|by apply (bool_decide_unpack _); vm_compute|done|split; [cbn; lia|]].
  intros a [x Hx]%elem_of_dom. assert (map_Forall (λ a _, a < 5)%nat (nodes ed_two)) as H by (by apply (bool_decide_unpack _); vm_compute).
  exact (H a x Hx).
Qed.

Lemma findNode_correct_witness : findNode 2 ed_two = Ok 4%nat ed_two.
Proof.
  destruct (findNode_correct ed_two [(3%nat, [97]); (4%nat, [98; 99])] 2 ed_two_rep) as (t & Ht & R); [by vm_compute|by vm_compute|]. exact R.
Defined.

(** ** Inserting and deleting nodes *)

Lemma update_node_run f a x s : nodes s !! a = Some x →
  update_node f a s = Ok tt (set_nodes (<[a := f x]> (nodes s)) s).
Proof. intros Hx. unfold update_node, bind, node_at. by rewrite Hx. Qed.

Lemma dll_insert m m' p X u v Y q a t :
  dll m p (X ++ u :: v :: Y) q → NoDup ((X ++ u :: v :: Y).*1) → a ∉ (X ++ u :: v :: Y).*1 →
  m' !! a = Some (Node u.1 (Z.of_nat (length t)) t v.1) →
  m' !! u.1 = set_next a <$> m !! u.1 → m' !! v.1 = set_prev a <$> m !! v.1 →
  (∀ k, k ≠ a → k ≠ u.1 → k ≠ v.1 → m' !! k = m !! k) →
  dll m' p (X ++ u :: (a, t) :: v :: Y) q.
Proof.
  intros Hd Hnd Ha Ema Emu Emv Em. rewrite fmap_app, !fmap_cons in *. apply list.NoDup_app in Hnd as (_ & Hx & Hnd).
  apply list.NoDup_cons in Hnd as [Hu Hnd]. apply list.NoDup_cons in Hnd as [Hv _].
  apply dll_app in Hd as [Hd1 (Hdu & Hdv & Hdy)]. apply dll_app. split.
  - eapply dll_frame; [exact Hd1|]. intros k Hk. apply Em; [set_solver|intros ->; apply (Hx u.1); set_solver|intros ->; apply (Hx v.1); set_solver].
  - cbn [dll first_of fst snd] in *. rewrite Emu, Hdu, Ema, Emv, Hdv. cbn. split; [done|]. split; [done|]. split; [done|].
    eapply dll_frame; [exact Hdy|]. intros k Hk. apply Em; [set_solver|intros ->; set_solver|intros ->; set_solver].
Qed.

Lemma dll_delete m m' p X u a v Y q :
  dll m p (X ++ u :: a :: v :: Y) q → NoDup ((X ++ u :: a :: v :: Y).*1) →
  m' !! u.1 = set_next v.1 <$> m !! u.1 → m' !! v.1 = set_prev u.1 <$> m !! v.1 →
  (∀ k, k ≠ a.1 → k ≠ u.1 → k ≠ v.1 → m' !! k = m !! k) →
  dll m' p (X ++ u :: v :: Y) q.
Proof.
  intros Hd Hnd Emu Emv Em. rewrite fmap_app, !fmap_cons in Hnd. apply list.NoDup_app in Hnd as (_ & Hx & Hnd).
  apply list.NoDup_cons in Hnd as [Hu Hnd]. apply list.NoDup_cons in Hnd as [Ha Hnd]. apply list.NoDup_cons in Hnd as [Hv _].
  apply dll_app in Hd as [Hd1 (Hdu & _ & Hdv & Hdy)]. apply dll_app. split.
  - eapply dll_frame; [exact Hd1|]. intros k Hk. apply Em; intros ->; eapply Hx; (exact Hk || set_solver).
  - cbn [dll first_of] in *. rewrite Emu, Hdu, Emv, Hdv. cbn. split; [done|]. split; [done|].
    eapply dll_frame; [exact Hdy|]. intros k Hk. apply Em; intros ->; set_solver.
Qed.

(** What the list operations leave alone. *)
Definition same_rest (s s' : ed) : Prop :=
  headNode s' = headNode s ∧ tailNode s' = tailNode s ∧ showLineIdx s' = showLineIdx s ∧ headShowLine s' = headShowLine s ∧
  oriPath s' = oriPath s ∧ argsbuf s' = argsbuf s ∧ input s' = input s ∧ files s' = files s.

#[global] Instance same_rest_preorder : PreOrder same_rest.
Proof. split; unfold same_rest; [done|]. intros x y z (?&?&?&?&?&?&?&?) (?&?&?&?&?&?&?&?). split_and!; congruence. Qed.

Lemma chain_same s s' l : same_rest s s' → chain s' l = chain s l.
Proof. intros (E1 & E2 & _). unfold chain. by rewrite E1, E2. Qed.

(** The end of [l1] and the start of [l2] in the chain. *)
Lemma chain_split s l1 l2 : ∃ X u v Y, chain s (l1 ++ l2) = X ++ u :: v :: Y ∧
  u.1 = last_of (headNode s) l1 ∧ v.1 = first_of l2 (tailNode s) ∧
  (headNode s, []) :: l1 = X ++ [u] ∧ l2 ++ [(tailNode s, [])] = v :: Y.
Proof.
  destruct (exists_last (l := (headNode s, []) :: l1)) as (X & u & E); [done|].
  destruct (l2 ++ [(tailNode s, [])]) as [|v Y] eqn:E2; [by destruct l2|].
  exists X, u, v, Y. split; [unfold chain; by rewrite <- app_assoc, E2, app_comm_cons, E, <- app_assoc|].
  split. { rewrite <- (last_of_snoc 0 X u), <- E. done. }
  split; [|done]. destruct l2; injection E2 as <- _; done.
Qed.

(** Nodes that are linked are allocated. *)
Lemma rep_fresh s l : rep s l → fresh s ∉ (chain s l).*1.
Proof.
  intros H Hin. apply list_elem_of_fmap in Hin as (x & E & Hx). apply list_elem_of_lookup in Hx as [i Hi].
  destruct (r_fresh _ _ H) as [_ Hf]. specialize (Hf x.1). rewrite E in Hf. enough (x.1 < x.1)%nat by lia. apply Hf, elem_of_dom.
  by rewrite (dll_lookup _ _ _ _ _ _ (r_dll _ _ H) Hi).
Qed.

(** [newNode] links an empty line behind [prev] and moves the cursor to the head. *)
Lemma newNode_spec s l1 l2 m : rep s (l1 ++ l2) → memory s = S m →
  ∃ s', newNode (last_of (headNode s) l1) s = Ok (fresh s) s' ∧ rep s' (l1 ++ (fresh s, []) :: l2) ∧ same_rest s s' ∧
    curNode s' = headNode s ∧ currentLine s' = 0 ∧ memory s' = m ∧ output s' = output s.
Proof.
  intros H Hm. destruct (chain_split s l1 l2) as (X & u & v & Y & EC & Eu & Ev & EX & EY). rewrite <- Eu.
  pose proof (rep_fresh s _ H) as Hfr. pose proof (r_nodup _ _ H) as Hnd. pose proof (r_dll _ _ H) as Hd. pose proof (r_zero _ _ H) as Hz.
  destruct (r_fresh _ _ H) as [Hf0 Hdom]. rewrite EC in *. set (a := fresh s) in *.
  assert (chain s (l1 ++ (a, []) :: l2) = X ++ u :: (a, []) :: v :: Y) as EC'.
  { unfold chain. by rewrite <- app_assoc, app_comm_cons, EX, <- app_assoc, <- EY. }
  pose proof Hd as Hd'. apply dll_app in Hd' as [_ (Hu & Hv & _)]. cbn [first_of] in Hu.
  assert (u.1 ≠ 0 ∧ v.1 ≠ 0 ∧ u.1 ≠ a ∧ v.1 ≠ a)%nat as (Hu0 & Hv0 & Hua & Hva).
  { rewrite fmap_app, !fmap_cons in Hz, Hfr. split_and!; intros E; rewrite E in *; set_solver. }
  assert (u.1 ≠ v.1) as Huv.
  { rewrite fmap_app, !fmap_cons in Hnd. apply list.NoDup_app in Hnd as (_ & _ & Hnd). apply list.NoDup_cons in Hnd as [Hn _]. intros E. rewrite E in Hn. set_solver. }
  unfold newNode. rewrite (proj2 (Nat.eqb_neq _ _) Hu0). unfold bind at 1, malloc_node. rewrite Hm. fold a.
  rewrite (proj2 (Nat.eqb_neq a 0)) by lia.
  set (s1 := set_nodes (<[a := Node 0 0 [] 0]> (nodes s)) (set_alloc (S a) m s)).
  assert (∀ k, k ≠ a → nodes s1 !! k = nodes s !! k) as Hs1 by (intros k Hk; cbn; by rewrite lookup_insert_ne).
  erewrite bind_Ok; [|unfold node_at; by rewrite Hs1, Hu]. cbn [n_next]. rewrite (proj2 (Nat.eqb_neq _ _) Hv0). cbn [negb].
  unfold bind at 1. erewrite bind_Ok; [|eapply update_node_run; by rewrite Hs1, Hv].
  erewrite bind_Ok; [|eapply update_node_run; cbn; by simplify_map_eq].
  erewrite bind_Ok; [|eapply update_node_run; cbn; by simplify_map_eq].
  erewrite update_node_run; [|cbn; by rewrite lookup_insert_eq]. cbn iota beta.
  erewrite bind_Ok; [|eapply update_node_run; cbn; by rewrite lookup_insert_eq].
  rewrite !bind_modify. eexists. split; [reflexivity|]. split; [|by unfold same_rest].
  assert (∀ s', headNode s' = headNode s → tailNode s' = tailNode s → chain s' (l1 ++ (a, []) :: l2) = X ++ u :: (a, []) :: v :: Y) as EC''.
  { intros s' E1 E2. rewrite <- EC'. unfold chain. by rewrite E1, E2. }
  split; rewrite ?EC'' by done; cbn.
  - eapply dll_insert; [exact Hd|exact Hnd|exact Hfr|by rewrite lookup_insert_eq| | |].
    + rewrite Hu. by simplify_map_eq.
    + rewrite Hv. by simplify_map_eq.
    + intros k Hk1 Hk2 Hk3. by simplify_map_eq.
  - rewrite fmap_app, !fmap_cons in *. assert (X.*1 ++ u.1 :: a :: v.1 :: Y.*1 ≡ₚ a :: X.*1 ++ u.1 :: v.1 :: Y.*1) as -> by solve_Permutation.
    by apply list.NoDup_cons.
  - rewrite fmap_app, !fmap_cons in *. rewrite not_elem_of_app, !not_elem_of_cons in *. cbn [fst]. clear -Hz Hf0. intuition lia.
  - rewrite (r_lines _ _ H), !length_app. simpl. lia.
  - split; [lia|]. intros k Hk. rewrite !dom_insert in Hk.
    assert (k = a ∨ k = u.1 ∨ k = v.1 ∨ k ∈ dom (nodes s)) as [->|[->|[->|Hk']]] by (clear -Hk; set_solver); [lia| | |by apply Hdom in Hk'; lia].
    all: apply Nat.lt_lt_succ_r, Hdom, elem_of_dom; eauto.
Qed.

Lemma rep_nodup_mid s l1 a t l2 : rep s (l1 ++ (a, t) :: l2) →
  a ≠ 0%nat ∧ a ≠ headNode s ∧ a ≠ tailNode s ∧ (a ∉ l1.*1) ∧ (a ∉ l2.*1).
Proof.
  intros H. pose proof (r_nodup _ _ H) as Hnd. pose proof (r_zero _ _ H) as Hz. unfold chain in *.
  rewrite <- app_assoc in *. cbn [app] in *. rewrite fmap_cons, fmap_app, fmap_cons, fmap_app in *. cbn [fst] in *.
  apply list.NoDup_cons in Hnd as [Hh Hnd]. apply list.NoDup_app in Hnd as (_ & H1 & Hnd). apply list.NoDup_cons in Hnd as [H2 _].
  rewrite !not_elem_of_cons, not_elem_of_app, not_elem_of_cons in *. split_and!.
  - clear -Hz. intuition congruence.
  - clear -Hh. intuition congruence.
  - intros ->. destruct H2 as [_ H2]. apply H2. apply list_elem_of_here.
  - intros Ha. apply (H1 a Ha). apply list_elem_of_here.
  - apply H2.
Qed.

(** Writing the text of a line. *)
Lemma set_text_spec s l1 a t t' l2 : rep s (l1 ++ (a, t) :: l2) →
  ∃ s', update_node (set_text t') a s = Ok tt s' ∧ rep s' (l1 ++ (a, t') :: l2) ∧ same_rest s s' ∧
    curNode s' = curNode s ∧ currentLine s' = currentLine s ∧ memory s' = memory s ∧ output s' = output s.
Proof.
  intros H. destruct (rep_nodup_mid _ _ _ _ _ H) as (Ha0 & Hah & Hat & Ha1 & Ha2).
  assert (∀ t, chain s (l1 ++ (a, t) :: l2) = ((headNode s, []) :: l1) ++ (a, t) :: l2 ++ [(tailNode s, [])]) as EC
    by (intros; unfold chain; by rewrite <- app_assoc).
  pose proof (r_dll _ _ H) as Hd. rewrite EC in Hd. apply dll_app in Hd as [Hd1 [Hda Hd2]]. cbn [fst snd] in Hda.
  eexists. split; [by apply update_node_run|]. split; [|by unfold same_rest].
  assert (∀ L, (chain (set_nodes (<[a:=set_text t' (Node (last_of 0 ((headNode s, []) :: l1)) (length t) t (first_of (l2 ++ [(tailNode s, [])]) 0))]> (nodes s)) s) L) = chain s L) as Ech by done.
  split; rewrite ?Ech, ?EC.
  - apply dll_app. split; [|split].
    + eapply dll_frame; [exact Hd1|]. intros k Hk. cbn. rewrite lookup_insert_ne; [done|]. intros <-. rewrite fmap_cons in Hk. cbn in Hk. clear -Hk Hah Ha1. set_solver.
    + cbn. by rewrite lookup_insert_eq.
    + eapply dll_frame; [exact Hd2|]. intros k Hk. cbn. rewrite lookup_insert_ne; [done|]. intros <-. rewrite fmap_app in Hk. clear -Hk Hat Ha2. cbn in Hk. set_solver.
  - pose proof (r_nodup _ _ H) as Hnd. rewrite EC in Hnd. by rewrite fmap_app, fmap_cons in *.
  - pose proof (r_zero _ _ H) as Hnd. rewrite EC in Hnd. by rewrite fmap_app, fmap_cons in *.
  - cbn. rewrite (r_lines _ _ H), !length_app. done.
  - cbn. destruct (r_fresh _ _ H) as [Hf Hdom]. split; [done|]. intros k Hk. rewrite dom_insert in Hk.
    apply elem_of_union in Hk as [Hk|Hk]; [|by apply Hdom]. apply elem_of_singleton in Hk as ->. apply Hdom, elem_of_dom. eauto.
Qed.

(** [deleteNode] unlinks a line and moves the cursor to the head. *)
Lemma deleteNode_spec s l1 a t l2 : rep s (l1 ++ (a, t) :: l2) →
  ∃ s', deleteNode a s = Ok (first_of l2 (tailNode s)) s' ∧ rep s' (l1 ++ l2) ∧ same_rest s s' ∧
    curNode s' = headNode s ∧ currentLine s' = 0 ∧ memory s' = memory s ∧ output s' = output s ∧
    nodes s' !! a = None.
Proof.
  intros H. destruct (rep_nodup_mid _ _ _ _ _ H) as (Ha0 & Hah & Hat & Ha1 & Ha2).
  destruct (chain_split s l1 l2) as (X & u & v & Y & EC & Eu & Ev & EX & EY). rewrite <- Ev.
  assert (chain s (l1 ++ (a, t) :: l2) = X ++ u :: (a, t) :: v :: Y) as EC'.
  { unfold chain. by rewrite <- app_assoc, app_comm_cons, EX, <- app_assoc, <- EY. }
  pose proof (r_nodup _ _ H) as Hnd. pose proof (r_dll _ _ H) as Hd. pose proof (r_zero _ _ H) as Hz. rewrite EC' in *.
  pose proof Hd as Hd'. apply dll_app in Hd' as [_ (Hu & Hda & Hv & _)]. cbn [first_of fst snd] in *.
  assert (u.1 ≠ a ∧ v.1 ≠ a ∧ u.1 ≠ v.1) as (Hua & Hva & Huv).
  { rewrite fmap_app, !fmap_cons in Hnd. apply list.NoDup_app in Hnd as (_ & _ & Hnd). apply list.NoDup_cons in Hnd as [Hn1 Hnd].
    apply list.NoDup_cons in Hnd as [Hn2 _]. cbn [fst] in *. rewrite !not_elem_of_cons in *. clear -Hn1 Hn2. intuition congruence. }
  unfold deleteNode. rewrite (proj2 (Nat.eqb_neq _ _) Ha0). unfold bind at 1, get.
  rewrite (proj2 (Nat.eqb_neq _ _) Hah), (proj2 (Nat.eqb_neq _ _) Hat). cbn [orb].
  erewrite bind_Ok; [|unfold node_at; by rewrite Hda]. cbn [n_next n_prev].
  erewrite bind_Ok; [|eapply update_node_run; exact Hu].
  erewrite bind_Ok; [|eapply update_node_run; cbn; by simplify_map_eq].
  rewrite !bind_modify. eexists. split; [reflexivity|]. split; [|split; [by unfold same_rest|]; cbn; rewrite lookup_delete_eq; done].
  assert (∀ s', headNode s' = headNode s → tailNode s' = tailNode s → chain s' (l1 ++ l2) = X ++ u :: v :: Y) as EC''.
  { intros s' E1 E2. rewrite <- EC. unfold chain. by rewrite E1, E2. }
  split; rewrite ?EC'' by done; cbn.
  - eapply dll_delete; [exact Hd|exact Hnd| | |]; cbn [fst].
    + rewrite Hu. rewrite lookup_delete_ne by done. by simplify_map_eq.
    + rewrite Hv. rewrite lookup_delete_ne by done. by simplify_map_eq.
    + intros k Hk1 Hk2 Hk3. rewrite lookup_delete_ne by done. by simplify_map_eq.
  - rewrite fmap_app, !fmap_cons in *. assert (X.*1 ++ u.1 :: a :: v.1 :: Y.*1 ≡ₚ a :: X.*1 ++ u.1 :: v.1 :: Y.*1) as Hp by solve_Permutation.
    cbn [fst] in Hnd. rewrite Hp in Hnd. by apply list.NoDup_cons in Hnd as [_ Hnd].
  - rewrite fmap_app, !fmap_cons in *. rewrite not_elem_of_app, !not_elem_of_cons in *. clear -Hz. intuition lia.
  - rewrite (r_lines _ _ H), !length_app. simpl. lia.
  - destruct (r_fresh _ _ H) as [Hf Hdom]. split; [done|]. intros k Hk. rewrite dom_delete, !dom_insert in Hk.
    assert (k = u.1 ∨ k = v.1 ∨ k ∈ dom (nodes s)) as [->|[->|Hk']] by (clear -Hk; set_solver); apply Hdom; [apply elem_of_dom; eauto..|done].
Qed.

(** ** The editing commands *)

Lemma cursor_head s l : curNode s = headNode s → currentLine s = 0 → cursor_ok s l.
Proof. intros Ec El. unfold cursor_ok. rewrite Ec, El. split; [lia|done]. Qed.

Lemma adr_last_of s l i : (i ≤ length l)%nat → adr (chain s l) i = last_of (headNode s) (take i l).
Proof.
  intros Hi. destruct i as [|i]; [done|]. destruct (lookup_lt_is_Some_2 l i) as [x Hx]; [lia|].
  unfold adr, chain. change (((headNode s, []) :: l ++ [(tailNode s, [])]) !! S i) with ((l ++ [(tailNode s, [] : list Z)]) !! i).
  rewrite lookup_app_l, Hx by lia. cbn. rewrite (take_S_r _ _ _ Hx). by rewrite last_of_snoc.
Qed.

(** What the editing commands do not touch. *)
Abbreviation env_of s := (files s, oriPath s, argsbuf s, input s).

Lemma same_rest_env s s' : same_rest s s' → env_of s' = env_of s.
Proof. intros (_ & _ & _ & _ & -> & -> & -> & ->). done. Qed.

(** The display: whether line numbers are shown, and the first line shown last. *)
Abbreviation view := (bool * Z)%type.
Abbreviation view_of s := (showLineIdx s, headShowLine s).
Lemma same_rest_view s s' : same_rest s s' → view_of s' = view_of s.
Proof. intros (_ & _ & -> & -> & _). done. Qed.

(** The states between commands, for a given text. *)
Record shows (s : ed) (text : list (list Z)) (mem : nat) (v : view) (env : gmap (list Z) (list Z) * pathref * list Z * list Z) : Prop := {
  sh_list : ∃ l, rep s l ∧ cursor_ok s l ∧ l.*2 = text;
  sh_mem : memory s = mem;
  sh_view : view_of s = v;
  sh_env : env_of s = env }.

Lemma idx2Str_some idx : 0 < idx < 10000 → ∃ t, idx2Str idx = Some t ∧ length t = 5%nat.
Proof.
  intros Hi. unfold idx2Str. destruct (Z.eqb_spec idx (-1)); [lia|]. cbn [negb].
  assert (mod_loop idx 10000 6 = Some 1000) as ->.
  { cbn [mod_loop]. rewrite Z.rem_small by lia. by destruct (Z.eqb_spec idx 0); [lia|]. }
  eexists. split; [reflexivity|]. generalize 1000. cbn [fill_loop LINE_IDX_SPACE]. intros m. by repeat case_match.
Qed.

Lemma show_line_run idx t s : 0 < idx < 10000 → ∃ o, show_line idx t s = Ok tt (set_output o s).
Proof. intros Hi. destruct (idx2Str_some idx Hi) as (i & Ei & _). unfold show_line. rewrite Ei. by eexists. Qed.

Lemma shows_output s o text mem v w : shows s text mem v w → shows (set_output o s) text mem v w.
Proof. intros [(l & [] & Hc & E) Hm Hi Hw]. split; [|done|done|done]. exists l. split; [|done]. by split. Qed.

(** A new line with its text, behind [l1]. *)
Lemma new_line_spec s l1 l2 m t : rep s (l1 ++ l2) → memory s = S m →
  ∃ a s', (let! now := newNode (last_of (headNode s) l1) in do! update_node (set_text t) now in ret now) s = Ok a s' ∧
    shows s' (l1.*2 ++ t :: l2.*2) m (view_of s) (env_of s).
Proof.
  intros H Hm. destruct (newNode_spec s l1 l2 m H Hm) as (s1 & R1 & H1 & S1 & C1 & C1' & M1 & _).
  destruct (set_text_spec s1 l1 _ _ t l2 H1) as (s2 & R2 & H2 & S2 & C2 & C2' & M2 & _).
  exists (fresh s), s2. erewrite bind_Ok by exact R1. erewrite bind_Ok by exact R2. split; [done|].
  assert (env_of s2 = env_of s) as Ew by (by apply same_rest_env; etrans). assert (view_of s2 = view_of s) as Ev by (by apply same_rest_view; etrans).
  destruct S1 as (Eh1 & _). destruct S2 as (Eh2 & _).
  split; [|congruence|done|done]. exists (l1 ++ (fresh s, t) :: l2). split; [done|]. split; [apply cursor_head; congruence|].
  by rewrite fmap_app.
Qed.

Lemma ins_spec s text m v w idx args len :
  shows s text (S m) v w → 0 ≤ idx ≤ length text → length text < 9999 → line_len args = Some len →
  ∃ s', ins idx args s = Ok tt s' ∧ shows s' (take (Z.to_nat idx) text ++ take len args :: drop (Z.to_nat idx) text) m v w.
Proof.
  intros [(l & H & Hc & <-) Hm <- <-] Hidx Hn Hlen. rewrite length_fmap in *. unfold ins.
  set (i := Z.to_nat idx). assert (i ≤ length l)%nat as Hil by lia.
  assert ((if idx =? 0 then Prelude.gets headNode else findNode idx) s = Ok (adr (chain s l) i) s) as R.
  { destruct (Z.eqb_spec idx 0) as [->|]; [done|]. destruct (findNode_spec s l idx H Hc) as (t & _ & R); [lia|done]. }
  erewrite bind_Ok by exact R.
  pose proof (adr_nonzero s l i H ltac:(lia)) as Hne.
  rewrite (proj2 (Nat.eqb_neq _ _) Hne), Hlen, adr_last_of by done.
  rewrite <- (take_drop i l) in H.
  destruct (new_line_spec s (take i l) (drop i l) m (take len args) H Hm) as (a & s1 & R1 & H1).
  apply bind_Ok_inv in R1 as (a1 & s2 & R1 & R2). erewrite bind_Ok by exact R1.
  apply bind_Ok_inv in R2 as ([] & s3 & R2 & [= <- ->]). erewrite bind_Ok by exact R2.
  destruct (show_line_run (idx + 1) (take len args) s1 ltac:(lia)) as [o Ro]. exists (set_output o s1). split; [exact Ro|].
  apply shows_output. by rewrite <- fmap_take, <- fmap_drop.
Qed.

Lemma mod_spec s text m v w idx args len :
  shows s text (S m) v w → 1 ≤ idx ≤ length text → length text < 9999 → line_len args = Some len →
  ∃ s', mod_ idx args s = Ok tt s' ∧ shows s' (<[Z.to_nat (idx - 1) := take len args]> text) m v w.
Proof.
  intros [(l & H & Hc & <-) Hm <- <-] Hidx Hn Hlen. rewrite length_fmap in *. unfold mod_.
  destruct (Z.eqb_spec idx 0); [lia|]. destruct (findNode_spec s l idx H Hc Hidx) as (t & Ht & R). erewrite bind_Ok by exact R.
  set (j := Z.to_nat (idx - 1)) in *. assert (Z.to_nat idx = S j) as Ej by lia. rewrite Ej in *.
  destruct (node_at_chain s l (S j) H ltac:(lia)) as [t1 R1]. erewrite bind_Ok by exact R1. cbn [n_prev].
  destruct (node_at_chain s l j H ltac:(lia)) as [t2 R2].
  pose proof (adr_nonzero s l j H ltac:(lia)) as Hne.
  rewrite (proj2 (Nat.eqb_neq _ _) Hne), Hlen. erewrite bind_Ok by exact R2. cbn [n_next].
  pose proof (take_drop_middle _ _ _ Ht) as El. rewrite <- El in H.
  destruct (deleteNode_spec s _ _ _ _ H) as (s1 & R3 & H1 & S1 & C1 & C1' & M1 & _). erewrite bind_Ok by exact R3.
  rewrite adr_last_of by lia. pose proof (same_rest_env _ _ S1) as <-. pose proof (same_rest_view _ _ S1) as <-. destruct S1 as (Eh & _). rewrite <- Eh.
  destruct (new_line_spec s1 _ _ m (take len args) H1 ltac:(congruence)) as (a & s2 & R4 & H2).
  apply bind_Ok_inv in R4 as (a1 & s3 & R4 & R5). erewrite bind_Ok by exact R4.
  apply bind_Ok_inv in R5 as ([] & s4 & R5 & [= <- ->]). erewrite bind_Ok by exact R5.
  destruct (show_line_run idx (take len args) s2 ltac:(lia)) as [o Ro]. exists (set_output o s2). split; [exact Ro|].
  apply shows_output. rewrite insert_take_drop by (rewrite length_fmap; lia). by rewrite fmap_take, fmap_drop in H2.
Qed.

Lemma adr_first_of s l i : (i ≤ length l)%nat → adr (chain s l) (S i) = first_of (drop i l) (tailNode s).
Proof.
  intros Hi. unfold adr, chain. change (((headNode s, []) :: l ++ [(tailNode s, [])]) !! S i) with ((l ++ [(tailNode s, [] : list Z)]) !! i).
  destruct (decide (i < length l)%nat) as [Hlt|Hge].
  - destruct (lookup_lt_is_Some_2 l i Hlt) as [x Hx]. by rewrite lookup_app_l, Hx, (drop_S _ _ _ Hx) by lia.
  - replace i with (length l) by lia. by rewrite list_lookup_middle, drop_all.
Qed.

Lemma free_loop_spec ls : ∀ s l1 l2 delNum fuel, rep s (l1 ++ ls ++ l2) → (length ls < fuel)%nat →
  ∃ s', free_loop (first_of l2 (tailNode s)) (first_of ls (first_of l2 (tailNode s))) delNum fuel s = Ok (delNum + length ls) s' ∧
    rep s' (l1 ++ l2) ∧ same_rest s s' ∧ memory s' = memory s ∧
    (ls ≠ [] → curNode s' = headNode s' ∧ currentLine s' = 0).
Proof.
  induction ls as [|[a t] ls IH]; intros s l1 l2 delNum fuel H Hf; (destruct fuel as [|fuel]; [simpl in Hf; lia|]); cbn [free_loop first_of fst].
  - exists s. rewrite Nat.eqb_refl. split; [by rewrite Z.add_0_r|]. done.
  - assert (∀ b, b = first_of l2 (tailNode s) → a ≠ b) as Hne.
    { intros b -> E. destruct (rep_nodup_mid s l1 a t (ls ++ l2) H) as (_ & _ & Hat & _ & Ha2). destruct l2 as [|[b t'] l2]; [done|].
      cbn in E. subst b. apply Ha2. rewrite fmap_app. apply elem_of_app. right. apply list_elem_of_here. }
    rewrite (proj2 (Nat.eqb_neq _ _) (Hne _ eq_refl)).
    destruct (deleteNode_spec s l1 a t (ls ++ l2) H) as (s1 & R & H1 & S1 & C1 & C1' & M1 & _). erewrite bind_Ok by exact R.
    pose proof S1 as (Eh & Et & _). rewrite first_of_app. set (nx := first_of ls (first_of l2 (tailNode s))).
    assert (nx ≠ 0%nat) as Hnz.
    { unfold nx. rewrite <- first_of_app. pose proof (adr_nonzero s _ (S (S (length l1))) H ltac:(rewrite !length_app; simpl; lia)) as Hz.
      rewrite adr_first_of in Hz by (rewrite !length_app; simpl; lia). rewrite drop_app_ge in Hz by lia.
      by replace (S (length l1) - length l1)%nat with 1%nat in Hz by lia. }
    rewrite (proj2 (Nat.eqb_neq _ _) Hnz). unfold nx. rewrite <- Et.
    destruct (IH s1 l1 l2 (delNum + 1) fuel H1) as (s' & R' & H' & S' & M' & C'); [simpl in Hf; lia|].
    exists s'. split; [rewrite R'; f_equal; simpl; lia|]. split; [done|]. split; [by etrans|]. split; [congruence|]. intros _.
    destruct ls as [|y ls]; [|by apply C']. cbn in R'. destruct fuel; [done|]. cbn in R'. rewrite Nat.eqb_refl in R'. injection R' as _ <-. split; congruence.
Qed.

Lemma del_range_spec s text m v w i1 i2 : shows s text m v w → 1 ≤ i1 ≤ i2 → i2 ≤ length text →
  ∃ s', del_range i1 i2 s = Ok tt s' ∧ shows s' (take (Z.to_nat (i1 - 1)) text ++ drop (Z.to_nat i2) text) m v w.
Proof.
  intros [(l & H & Hc & <-) Hm <- <-] H12 Hn. rewrite length_fmap in *. unfold del_range.
  rewrite (proj2 (Z.leb_le i1 i2)) by lia.
  destruct (findNode_spec s l i2 H Hc ltac:(lia)) as (t2 & _ & R2). erewrite bind_Ok by exact R2.
  destruct (findNode_spec s l i1 H Hc ltac:(lia)) as (t1 & _ & R1). erewrite bind_Ok by exact R1.
  set (j := Z.to_nat (i1 - 1)). set (k := Z.to_nat i2). replace (Z.to_nat i1) with (S j) by lia.
  set (ls := take (k - j) (drop j l)).
  assert (l = take j l ++ ls ++ drop k l) as El.
  { rewrite <- (take_drop j l) at 1. f_equal. rewrite <- (take_drop (k - j) (drop j l)) at 1. rewrite drop_drop. do 2 f_equal. lia. }
  assert (length ls = (k - j)%nat) as Els by (unfold ls; rewrite length_take, length_drop; lia).
  assert (∃ s', freeList (adr (chain s l) (S j)) (adr (chain s l) k) s = Ok (Z.of_nat (k - j)) s' ∧ rep s' (take j l ++ drop k l) ∧
    same_rest s s' ∧ memory s' = memory s ∧ curNode s' = headNode s' ∧ currentLine s' = 0) as (s' & R & H' & S' & M' & C1 & C2).
  { unfold freeList. unfold bind at 1, get. 
    assert (adr (chain s l) (S j) ≠ headNode s) as E1 by (intros E; rewrite <- (adr_head s l) in E; apply (adr_inj _ _ _ _ H) in E; lia).
    assert (adr (chain s l) k ≠ tailNode s) as E2 by (intros E; rewrite <- (adr_tail s l) in E; apply (adr_inj _ _ _ _ H) in E; lia).
    rewrite (proj2 (Nat.eqb_neq _ _) E1), (proj2 (Nat.eqb_neq _ _) E2). cbn [orb].
    destruct (node_at_chain s l k H ltac:(lia)) as [t R]. erewrite bind_Ok by exact R. cbn [n_next].
    pose proof (rep_size s l H) as Hsz. rewrite El in H.
    destruct (free_loop_spec ls s (take j l) (drop k l) 0 (2 + size (nodes s)) H ltac:(lia)) as (s' & R' & H' & S' & M' & C').
    exists s'. rewrite !adr_first_of by lia. rewrite <- first_of_app in R'.
    replace (ls ++ drop k l) with (drop j l) in R'; [|by rewrite <- (take_drop (k - j) (drop j l)) at 1; rewrite drop_drop; unfold ls; do 2 f_equal; lia].
    rewrite R', Els. split; [done|]. split; [done|]. split; [done|]. split; [done|]. apply C'. intros E. rewrite E in Els. simpl in Els. lia. }
  erewrite bind_Ok by exact R. destruct (Z.ltb_spec 0 (Z.of_nat (k - j))); [|lia]. unfold bind at 1, get. eexists. split; [reflexivity|].
  apply shows_output. split; [|congruence|by apply same_rest_view|by apply same_rest_env].
  exists (take j l ++ drop k l). split; [done|]. split; [by apply cursor_head|]. by rewrite fmap_app, fmap_take, fmap_drop.
Qed.

(** ** The display keeps the cursor consistent *)

Lemma rep_cursor s l c k : rep s l → rep (set_cursor c k s) l.
Proof. intros []. by split. Qed.
Lemma rep_output s l o : rep s l → rep (set_output o s) l.
Proof. intros []. by split. Qed.

(** The parts of a line after the first one: only output. *)
Lemma part_loop_rest s t p n start b (fuel : nat) :
  nodes s !! curNode s = Some (Node p (Z.of_nat (length t)) t n) → showLineIdx s = true → 0 < start →
  length t - start < fuel → (0 < fuel)%nat → ∃ b' o, part_loop start b fuel s = Ok b' (set_output o s).
Proof.
  intros Hn Hi. revert s start b Hn Hi. induction fuel as [|fuel IH]; intros s start b Hn Hi Hs Hf Hf0; [lia|]. cbn [part_loop].
  unfold bind at 1, get. erewrite bind_Ok; [|unfold node_at; by rewrite Hn]. cbn [n_length n_content].
  rewrite (proj2 (Z.eqb_neq start 0)) by lia. destruct (Z.ltb_spec start (length t)) as [Hlt|Hge]; cbn [orb negb].
  - rewrite Hi. change (idx2Str (-1)) with (Some [32; 32; 32; 32; 32]). cbn iota.
    set (len := Z.min (length t - start) MAX_CHAR_INSHOW). assert (0 < len) as Hlen by (unfold len, MAX_CHAR_INSHOW; lia).
    rewrite bind_assoc, bind_ret. destruct (show_part true [32; 32; 32; 32; 32] (subarr t (Z.to_nat start) (Z.to_nat len)) b) as [b1 w].
    unfold write1. rewrite bind_assoc, bind_modify, bind_ret.
    rewrite (proj2 (Z.eqb_neq len 0)) by lia. cbn [negb].
    destruct (IH (set_output (output s ++ [w]) s) (start + len) b1) as (b' & o & R); [done|done|lia|lia|lia|].
    rewrite R. by eexists _, _.
  - exists b, (output s). destruct s. done.
Qed.

(** A whole line: its number is printed once, and counts the cursor up. *)
Lemma part_loop_spec s t p n b (fuel : nat) :
  nodes s !! curNode s = Some (Node p (Z.of_nat (length t)) t n) → showLineIdx s = true → 0 < currentLine s < 10000 →
  length t + 1 < fuel → ∃ b' o, part_loop 0 b fuel s = Ok b' (set_output o (set_cursor (curNode s) (currentLine s + 1) s)).
Proof.
  intros Hn Hi Hk Hf. destruct fuel as [|fuel]; [lia|]. cbn [part_loop].
  unfold bind at 1, get. erewrite bind_Ok; [|unfold node_at; by rewrite Hn]. cbn [n_length n_content]. rewrite orb_true_r. cbn [negb].
  rewrite Hi. destruct (idx2Str_some (currentLine s) Hk) as (i & Ei & _). rewrite Z.eqb_refl, Ei, bind_assoc, bind_modify.
  set (len := Z.min (length t - 0) MAX_CHAR_INSHOW). assert (0 ≤ len) as Hlen by (unfold len, MAX_CHAR_INSHOW; lia).
  destruct (show_part true i (subarr t (Z.to_nat 0) (Z.to_nat len)) b) as [b1 w]. unfold write1. rewrite bind_assoc, bind_modify, bind_ret.
  set (s1 := set_output _ _).
  destruct (part_loop_rest s1 t p n (if negb (len =? 0) then 0 + len else 0 + 1) b1 fuel) as (b' & o & R); [done|done|..].
  - destruct (Z.eqb_spec len 0); cbn [negb]; lia.
  - destruct (Z.eqb_spec len 0); cbn [negb]; lia.
  - lia.
  - rewrite R. by eexists _, _.
Qed.

Lemma show_loop_spec l fuel : ∀ s endIndex b (j : nat),
  rep s l → showLineIdx s = true → length l < 9999 → (1 ≤ j ≤ length l + 1)%nat →
  curNode s = adr (chain s l) j → currentLine s = Z.of_nat j → (length l + 1 - j < fuel)%nat →
  ∃ s', show_loop endIndex b fuel s = Ok tt s' ∧ rep s' l ∧ cursor_ok s' l ∧ memory s' = memory s ∧ view_of s' = view_of s ∧ env_of s' = env_of s.
Proof.
  induction fuel as [|fuel IH]; intros s endIndex b j H Hi Hn Hj Hc Hk Hf; [lia|]. cbn [show_loop]. unfold bind at 1, get.
  assert (∀ s' j', chain s' l = chain s l → curNode s' = adr (chain s l) j' → currentLine s' = Z.of_nat j' → (j' ≤ length l + 1)%nat → cursor_ok s' l) as Hcok.
  { intros s' j' Ech Ec El Hj'. unfold cursor_ok. rewrite El, Ech, Nat2Z.id. split; [lia|].
    destruct (lookup_lt_is_Some_2 (chain s l) j') as [x Hx]; [rewrite chain_length; lia|]. rewrite Hx. cbn. by rewrite Ec, (adr_lookup _ _ _ Hx). }
  destruct (Nat.eqb_spec (curNode s) (tailNode s)) as [E|E].
  { exists s. split; [done|]. split; [done|]. split; [apply (Hcok s j); (done || lia)|done]. }
  assert (j ≤ length l)%nat as Hjl.
  { destruct (decide (j = S (length l))) as [->|]; [|lia]. by rewrite adr_tail in Hc. }
  destruct (node_at_chain s l j H ltac:(lia)) as [t R]. rewrite <- Hc in R. erewrite bind_Ok by exact R. cbn [n_length n_next].
  assert (nodes s !! curNode s = Some (Node (match j with O => O | S i => adr (chain s l) i end) (length t) t (adr (chain s l) (S j)))) as Hnode.
  { unfold node_at in R. destruct (nodes s !! curNode s); [|done]. by injection R as ->. }
  destruct (part_loop_spec s t _ _ b (S (S (Z.to_nat (length t)))) Hnode Hi ltac:(lia) ltac:(lia)) as (b' & o & R2).
  erewrite bind_Ok by exact R2. rewrite bind_modify. unfold bind at 1, get.
  set (s1 := set_cursor _ _ (set_output o _)).
  assert (rep s1 l) as H1 by (apply rep_cursor, rep_output, rep_cursor, H).
  assert (currentLine s1 = Z.of_nat (S j)) as El1 by (cbn; lia).
  destruct (endIndex <? currentLine s1).
  - exists s1. split; [done|]. split; [done|]. split; [apply (Hcok s1 (S j)); (done || lia)|done].
  - destruct (IH s1 endIndex b' (S j) H1) as (s' & R' & H' & C' & M' & I' & F'); [done|done|lia|done|done|lia|].
    exists s'. split; [exact R'|]. split; [done|]. split; [done|]. split; [by rewrite M'|]. split; [done|by rewrite F'].
Qed.

(** The first line of a display that goes back by [- lines]. *)
Definition back (h lines : Z) : Z := if h + lines - 1 <? 0 then 1 else h + lines - 1.
(** The first line [showFile] shows in a text of [n] lines; [h] is the one before. *)
Definition show_head (index lines n h : Z) : Z :=
  let i := if n <? index then n else index in
  if n =? 0 then h else if i =? 0 then 1 else if lines <? 0 then back h lines else if i <? 0 then 1 else i.

Lemma showFile_spec s text m h w index lines : shows s text m (true, h) w → 0 ≤ lines ∨ back h lines ≠ 0 → length text < 9999 →
  ∃ s', showFile index lines s = Ok tt s' ∧ shows s' text m (true, show_head index lines (length text) h) w.
Proof.
  intros [(l & H & Hc & <-) Hm Hv <-] Hl Hn. injection Hv as Hi Hh. rewrite length_fmap in *. unfold showFile, show_head. unfold bind at 1, get. rewrite Hh.
  rewrite (r_lines _ _ H). destruct (Z.eqb_spec (length l) 0) as [E0|E0].
  { eexists. split; [reflexivity|]. apply shows_output. split; [by exists l|done|by rewrite Hi, Hh|done]. }
  set (idx := if length l <? index then Z.of_nat (length l) else index).
  assert (idx ≤ length l) as Hidx by (unfold idx; destruct (Z.ltb_spec (length l) index); lia).
  unfold write1 at 1. rewrite bind_modify. set (s0 := set_output _ s).
  assert (rep s0 l) as H0 by (by apply rep_output). pose proof (rep_size s l H) as Hsz.
  assert (∀ s1 (k : nat) hs endIndex, rep s1 l → chain s1 l = chain s l → showLineIdx s1 = true → memory s1 = m → env_of s1 = env_of s → (1 ≤ k ≤ length l)%nat →
      ∃ s', (do! modify (set_cursor (adr (chain s l) k) k) in do! modify (λ s, set_show hs (showLineIdx s) s) in
             do! show_loop endIndex line_init (2 + size (nodes s)) in write1 ruler) s1 = Ok tt s' ∧ shows s' l.*2 m (true, hs) (env_of s)) as Hgo.
  { intros s1 k hs endIndex R1 C1 I1 M1 W1 Hk. rewrite !bind_modify. set (s2 := set_show _ _ _). assert (rep s2 l) as H2 by (destruct R1; by split).
    destruct (show_loop_spec l (2 + size (nodes s)) s2 endIndex line_init k H2) as (s' & R & H' & C' & M' & I' & W'); [done|done|lia|by change (chain s2 l) with (chain s1 l); rewrite C1|done|lia|].
    erewrite bind_Ok by exact R. eexists. split; [reflexivity|]. apply shows_output. split; [by exists l|by rewrite M'|by rewrite I'; cbn; rewrite I1|by rewrite W', <- W1]. }
  destruct (Z.eqb_spec idx 0).
  { destruct (node_at_chain s0 l 0 H0 ltac:(lia)) as [t R]. erewrite bind_Ok by exact R. cbn [n_next]. apply (Hgo s0 1%nat); (done || lia). }
  set (i := if idx <? 0 then 1 else idx). assert (1 ≤ i ≤ length l) as Hir by (unfold i; destruct (Z.ltb_spec idx 0); lia). fold (back h lines).
  destruct (Z.ltb_spec lines 0) as [Hneg|Hpos].
  - rewrite bind_modify. set (s1 := set_show _ _ s0). assert (rep s1 l) as H1 by (destruct H0; by split). assert (1 ≤ back h lines) as Hb by (unfold back in *; destruct (Z.ltb_spec (h + lines - 1) 0); lia).
    destruct (decide (back h lines ≤ length l)) as [Hle|Hgt].
    + destruct (findNode_spec s1 l (back h lines) H1 Hc ltac:(lia)) as (t & _ & R). erewrite bind_Ok by exact R.
      rewrite (proj2 (Nat.eqb_neq _ _) (adr_nonzero s1 l (Z.to_nat (back h lines)) H1 ltac:(lia))).
      specialize (Hgo s1 (Z.to_nat (back h lines))). rewrite Z2Nat.id in Hgo by lia. apply Hgo; (done || lia).
    + erewrite bind_Ok; [|unfold findNode; unfold bind at 1, get; rewrite (r_lines _ _ H1), (proj2 (Z.ltb_lt (length l) _)) by lia; cbn [orb]; unfold say, write1; by rewrite bind_modify].
      cbn [Nat.eqb]. eexists. split; [reflexivity|]. apply shows_output. split; [by exists l|done|by cbn; rewrite Hi|done].
  - rewrite bind_ret. destruct (findNode_spec s0 l i H0 Hc Hir) as (t & _ & R). erewrite bind_Ok by exact R.
    rewrite (proj2 (Nat.eqb_neq _ _) (adr_nonzero s0 l (Z.to_nat i) H0 ltac:(lia))).
    specialize (Hgo s0 (Z.to_nat i)). rewrite Z2Nat.id in Hgo by lia. apply Hgo; (done || lia).
Qed.

(** [num] only switches the line numbers; as an argument it knows the byte 1, not
    the character. *)
Definition num_shown (args : list Z) (b : bool) : bool :=
  if nth 0 args 0 =? 0 then negb b else if (nth 1 args 0 =? 0) && (nth 0 args 0 =? 1) then true else b.
Lemma num_spec s text m b h w args : shows s text m (b, h) w → ∃ s', num args s = Ok tt s' ∧ shows s' text m (num_shown args b, h) w.
Proof.
  intros [(l & H & Hc & <-) Hm Hv <-]. injection Hv as Hi Hh. unfold num, num_shown. unfold bind at 1, get. rewrite Hi.
  assert (∀ b' t, ∃ s', (do! modify (λ s, set_show (headShowLine s) b' s) in say t) s = Ok tt s' ∧ shows s' l.*2 m (b', h) (env_of s)) as Hset.
  { intros b' t. rewrite bind_modify. eexists. split; [reflexivity|]. apply shows_output. split; [exists l; split; [destruct H; by split|done]|done|by cbn; rewrite Hh|done]. }
  assert (∀ t, ∃ s', say t s = Ok tt s' ∧ shows s' l.*2 m (b, h) (env_of s)) as Hsay.
  { intros t. eexists. split; [reflexivity|]. apply shows_output. split; [by exists l|done|by rewrite Hi, Hh|done]. }
  destruct (nth 0 args 0 =? 0); [destruct b; apply Hset|]. destruct (nth 1 args 0 =? 0); [|apply Hsay]. cbn [andb]. destruct (nth 0 args 0 =? 1); [apply Hset|apply Hsay].
Qed.

(** ** The editor as an editor of a list of lines *)

(** The editing commands after their arguments are parsed. *)
Inductive edit :=
| EIns (idx : Z) (args : list Z)
| EMod (idx : Z) (args : list Z)
| EDel (idx1 idx2 : Z)
| EShow (index lines : Z)
| ENum (args : list Z).

Definition edit_run (e : edit) : M ed unit :=
  match e with
  | EIns idx args => ins idx args
  | EMod idx args => mod_ idx args
  | EDel idx1 idx2 => del_range idx1 idx2
  | EShow index lines => showFile index lines
  | ENum args => num args
  end.
Fixpoint edits_run (es : list edit) : M ed unit :=
  match es with [] => ret tt | e :: es => do! edit_run e in edits_run es end.

(** The specification: the same commands on a list of lines, and when they make
    sense there.  A display needs the line numbers to be shown (otherwise it
    loses the cursor, [numbers_off_cursor]), and going back it must not start at
    line 0 ([back_to_zero]); insertion, modification and display print a line
    number, which has to have four digits. *)
Definition arg_text (args : list Z) : list Z := take (default O (line_len args)) args.
Definition edit_text (e : edit) (text : list (list Z)) : list (list Z) :=
  match e with
  | EIns idx args => take (Z.to_nat idx) text ++ arg_text args :: drop (Z.to_nat idx) text
  | EMod idx args => <[Z.to_nat (idx - 1) := arg_text args]> text
  | EDel idx1 idx2 => take (Z.to_nat (idx1 - 1)) text ++ drop (Z.to_nat idx2) text
  | EShow _ _ | ENum _ => text
  end.
Definition edit_view (e : edit) (n : Z) (v : view) : view :=
  match e with
  | EShow index lines => (v.1, show_head index lines n v.2)
  | ENum args => (num_shown args v.1, v.2)
  | _ => v
  end.
Definition edit_ok (e : edit) (n : Z) (v : view) : bool :=
  match e with
  | EIns idx args => (n <? 9999) && (0 <=? idx) && (idx <=? n) && bool_decide (is_Some (line_len args))
  | EMod idx args => (n <? 9999) && (1 <=? idx) && (idx <=? n) && bool_decide (is_Some (line_len args))
  | EDel idx1 idx2 => (1 <=? idx1) && (idx1 <=? idx2) && (idx2 <=? n)
  | EShow _ lines => (n <? 9999) && v.1 && ((0 <=? lines) || negb (back v.2 lines =? 0))
  | ENum _ => true
  end.
Definition edit_nodes (e : edit) : nat := match e with EIns _ _ | EMod _ _ => 1 | _ => 0 end.

Fixpoint edits_text (es : list edit) (text : list (list Z)) : list (list Z) :=
  match es with [] => text | e :: es => edits_text es (edit_text e text) end.
Fixpoint edits_view (es : list edit) (text : list (list Z)) (v : view) : view :=
  match es with [] => v | e :: es => edits_view es (edit_text e text) (edit_view e (length text) v) end.
Fixpoint edits_ok (es : list edit) (text : list (list Z)) (v : view) : bool :=
  match es with [] => true | e :: es => edit_ok e (length text) v && edits_ok es (edit_text e text) (edit_view e (length text) v) end.
Definition edits_nodes (es : list edit) : nat := foldr (λ e n, edit_nodes e + n)%nat O es.

Lemma arg_text_len args len : line_len args = Some len → arg_text args = take len args.
Proof. unfold arg_text. by intros ->. Qed.

Lemma edit_spec e s text m v w : shows s text (edit_nodes e + m) v w → edit_ok e (length text) v = true →
  ∃ s', edit_run e s = Ok tt s' ∧ shows s' (edit_text e text) m (edit_view e (length text) v) w.
Proof.
  intros H Hok. destruct e as [idx args|idx args|idx1 idx2|index lines|args]; cbn [edit_run edit_text edit_view edit_ok edit_nodes Nat.add] in *.
  - apply andb_prop in Hok as [Hr Hl]. apply bool_decide_eq_true in Hl as [len Hl]. rewrite (arg_text_len _ _ Hl). apply ins_spec; [done|lia|lia|done].
  - apply andb_prop in Hok as [Hr Hl]. apply bool_decide_eq_true in Hl as [len Hl]. rewrite (arg_text_len _ _ Hl). apply mod_spec; [done|lia|lia|done].
  - apply del_range_spec; [done|lia|lia].
  - destruct v as [[] h]; [|by rewrite andb_false_r in Hok]. cbn [fst snd] in *. apply showFile_spec; [done| |lia].
    apply andb_prop in Hok as [_ [Hl|Hl]%orb_prop]; [left; lia|right]. by apply negb_true_iff, Z.eqb_neq in Hl.
  - destruct v as [b h]. by apply num_spec.
Qed.

Lemma edits_spec es s text m v w :
  shows s text (edits_nodes es + m) v w → edits_ok es text v = true →
  ∃ s', edits_run es s = Ok tt s' ∧ shows s' (edits_text es text) m (edits_view es text v) w.
Proof.
  revert s text v. induction es as [|e es IH]; intros s text v H Hok; cbn [edits_run edits_text edits_view edits_ok] in *; [by exists s|].
  apply andb_prop in Hok as [Hok1 Hok2]. change (edits_nodes (e :: es)) with (edit_nodes e + edits_nodes es)%nat in H.
  rewrite <- Nat.add_assoc in H. destruct (edit_spec e s text _ _ _ H Hok1) as (s1 & R1 & H1). erewrite bind_Ok by exact R1.
  by apply IH.
Qed.

(** C33: the linked list with its cached cursor refines a plain list of lines.
    Take any sequence of insertions, modifications, deletions, displays
    (forwards and backwards) and switches of the line numbers in which every
    line number exists when its turn comes, with these limits of the code: the
    text has fewer than 9999 lines when a line is inserted, modified or
    displayed, the line numbers are switched on whenever lines are displayed,
    and no display goes back to line 0.  It runs to its end, dereferences no
    bad pointer, and leaves the list showing exactly the lines that the same
    commands give on a plain list of lines. *)
Theorem editor_refines_lines es s text m v w :
  shows s text (edits_nodes es + m) v w → edits_ok es text v = true →
  ∃ s', edits_run es s = Ok tt s' ∧ shows s' (edits_text es text) m (edits_view es text v) w.
Proof. apply edits_spec. Qed.

(** The list of [initList]. *)
Lemma initList_spec s m : nodes s = ∅ → (0 < fresh s)%nat → memory s = S (S m) → fileLineNum s = 0 →
  ∃ s', initList s = Ok true s' ∧ rep s' [] ∧ memory s' = m ∧ view_of s' = view_of s ∧ files s' = files s ∧
    output s' = output s ∧ input s' = input s ∧ oriPath s' = oriPath s ∧ argsbuf s' = argsbuf s.
Proof.
  intros Hn Hf Hm Hl. unfold initList, malloc_node. unfold bind at 1. rewrite Hm. unfold bind at 1. cbn [memory set_nodes set_alloc fresh].
  rewrite (proj2 (Nat.eqb_neq (fresh s) 0)) by lia. cbn [Nat.eqb orb]. rewrite bind_modify.
  erewrite bind_Ok; [|eapply update_node_run; cbn; rewrite lookup_insert_ne by lia; apply lookup_insert_eq].
  erewrite bind_Ok; [|eapply update_node_run; cbn; rewrite lookup_insert_ne by lia; apply lookup_insert_eq].
  eexists. split; [reflexivity|]. split; [|done].
  split; unfold chain; cbn.
  - rewrite lookup_insert_eq, lookup_insert_ne, lookup_insert_eq by lia. done.
  - apply list.NoDup_cons. split; [|by apply NoDup_singleton]. rewrite list_elem_of_singleton. lia.
  - rewrite !not_elem_of_cons. split_and!; [lia|lia|set_solver].
  - done.
  - split; [lia|]. intros a. rewrite Hn, !dom_insert_L, dom_empty_L. clear. set_unfold. lia.
Qed.

Lemma ed_two_shows : shows ed_two [[97]; [98; 99]] 100 (view_of ed_two) (∅, PArg [102], [], []).
Proof. split; [|done..]. eexists. split; [apply ed_two_rep|]. by vm_compute. Qed.

Lemma editor_refines_lines_witness :
  ∃ s', edits_run [EIns 1 [120; 0]; EShow 1 2; ENum [0]; EMod 3 [121; 122; 10]; ENum [0]; EShow 3 (-5); EDel 1 1; EIns 2 [0]] ed_two = Ok tt s' ∧
    shows s' [[120]; [121; 122]; []] 97 (true, 1) (∅, PArg [102], [], []).
Proof.
  destruct (editor_refines_lines [EIns 1 [120; 0]; EShow 1 2; ENum [0]; EMod 3 [121; 122; 10]; ENum [0]; EShow 3 (-5); EDel 1 1; EIns 2 [0]] ed_two [[97]; [98; 99]] 97 _ _ ed_two_shows)
    as (s' & R & H); [by vm_compute|]. exists s'. exact (conj R H).
Defined.

(** ** Displays that go wrong *)

(** Three lines, the cursor as [cmdLoop] sets it. *)
Definition ed_three : ed :=
  Ed (<[1%nat := Node 0 0 [] 3]> (<[2%nat := Node 5 0 [] 0]> (<[3%nat := Node 1 1 [97] 4]> (<[4%nat := Node 3 1 [98] 5]> {[5%nat := Node 4 1 [99] 2]}))))
     6 100 1 2 3 3 1 1 true false (PArg [102]) [] [] [] ∅.
Definition text_after (r : res ed unit) : option (list (list Z)) :=
  match r with
  | Ok _ s => Some ((λ a, default [] (n_content <$> nodes s !! a)) <$> [3; 4; 5]%nat)
  | _ => None
  end.

(** Without line numbers a display does not count the lines: it runs to the end of
    the text, and leaves the cursor at the tail under the line number of its start.
    The next command that looks for its line from there follows the null pointer
    of the tail: with the numbers on, [del 2] after a display deletes line 2, with
    the numbers off it dereferences address 0. *)
Lemma numbers_off_cursor :
  text_after (edits_run [EShow 1 3; EDel 2 2] ed_three) = Some [[97]; []; [99]] ∧
  edits_run [ENum [0]; EShow 1 3; EDel 2 2] ed_three = Panic "bad pointer".
Proof. split; vm_compute; reflexivity. Qed.

(** Going back by exactly the number of lines before the first line shown starts at
    line 0: the line found is that of the cursor, and printing its number 0 divides
    by zero. *)
Lemma back_to_zero : edits_run [EShow 2 0; EShow 3 (-1)] ed_three = Panic "division by zero".
Proof. vm_compute. reflexivity. Qed.
