(* ===== verification/EditorFile.v ===== *)
(** * Loading and saving in the editor

    [loadFile] turns the bytes of a file, read in blocks of 512, into one node
    per line; [saveFile] writes the lines back through a buffer of 512 bytes.
    The theorems say what is loaded and saved and that the two fit together;
    the examples at the end run whole sessions of the editor. *)
From S2P Require Import Prelude Str Printf ShRun Grep Editor EditorInv.

(** The lines of a file: the complete ones and, when the file does not end in a
    newline, the rest. *)
Definition loaded (c : list Z) : list (list Z) :=
  lines c ++ (if bool_decide (tail_of c = []) then [] else [tail_of c]).

(** The bytes of a text. *)
Definition joined (text : list (list Z)) : list Z := concat ((λ t, t ++ [10]) <$> text).

Lemma joined_app t1 t2 : joined (t1 ++ t2) = joined t1 ++ joined t2.
Proof. unfold joined. by rewrite fmap_app, concat_app. Qed.

Lemma loaded_joined text : Forall (λ t, 10 ∉ t) text → loaded (joined text) = text.
Proof.
  intros H. unfold loaded. enough (split_lines (joined text) = (text, [])) as -> by (simpl; by rewrite app_nil_r).
  induction H as [|t text Ht _ IH]; [done|]. change (joined (t :: text)) with ((t ++ [10]) ++ joined text). rewrite <- app_assoc.
  cbn [app]. by rewrite split_lines_first, IH.
Qed.

Lemma tail_of_tail c : lines (tail_of c) = [] ∧ tail_of (tail_of c) = tail_of c.
Proof. by rewrite (proj1 (split_lines_none _) (tail_of_no_newline c)). Qed.

(** A piece without newline, closed by one or not. *)
Lemma split_lines_piece c seg : 10 ∉ seg → split_lines (c ++ seg) = (lines c, tail_of c ++ seg).
Proof.
  intros H. rewrite split_lines_app. pose proof (tail_of_no_newline c).
  rewrite (proj1 (split_lines_none (tail_of c ++ seg))) by set_solver. cbn. by rewrite app_nil_r.
Qed.
Lemma loaded_piece c seg : 10 ∉ seg → seg ≠ [] → loaded (c ++ seg) = lines c ++ [tail_of c ++ seg].
Proof.
  intros H Hne. unfold loaded. rewrite split_lines_piece by done. cbn [fst snd]. rewrite bool_decide_eq_false_2; [done|].
  by intros [_ ?]%app_nil.
Qed.
Lemma split_lines_closed c seg : 10 ∉ seg → split_lines (c ++ seg ++ [10]) = (lines c ++ [tail_of c ++ seg], []).
Proof.
  intros H. rewrite split_lines_app. pose proof (tail_of_no_newline c). rewrite app_assoc, split_lines_first by set_solver. done.
Qed.
Lemma loaded_closed c seg : 10 ∉ seg → loaded (c ++ seg ++ [10]) = lines c ++ [tail_of c ++ seg].
Proof. intros H. unfold loaded. rewrite split_lines_closed by done. cbn. by rewrite app_nil_r. Qed.

Lemma loaded_ext c r : (length (loaded c) ≤ length (loaded (c ++ r)))%nat.
Proof.
  unfold loaded. rewrite split_lines_app. cbn [fst snd]. rewrite !length_app.
  destruct (decide (tail_of c = [])) as [E|E]; [rewrite (bool_decide_eq_true_2 _ E); simpl; lia|].
  rewrite (bool_decide_eq_false_2 _ E). rewrite split_lines_app. destruct (tail_of_tail c) as [-> ->]. cbn [fst snd app length].
  destruct (split_lines (tail_of c ++ r)) as [[|l1 ls] t] eqn:Es; cbn [fst snd length]; [|lia].
  rewrite bool_decide_eq_false_2; [simpl; lia|]. intros ->. pose proof (split_lines_join (tail_of c ++ r)) as Hj. rewrite Es in Hj.
  cbn in Hj. by apply app_nil in Hj as [? _].
Qed.

(** ** Loading *)

Section load.
Context (oob : Z) (Hoob : oob ≠ 10).

Lemma find_nl_spec b n : ∀ i, (i + n ≤ length b)%nat → ∃ d, (d ≤ n)%nat ∧ find_nl b i n = (i + d)%nat ∧ (10 ∉ subarr b i d) ∧
  ((d < n)%nat → b !! (i + d)%nat = Some 10).
Proof.
  induction n as [|n IH]; intros i Hi; cbn [find_nl].
  - exists 0%nat. split; [done|]. split; [lia|]. split; [|lia]. unfold subarr. simpl. set_solver.
  - destruct (lookup_lt_is_Some_2 b i) as [x Hx]; [lia|]. rewrite (nth_lookup_Some _ _ _ _ Hx). destruct (Z.eqb_spec x 10) as [->|Hx10].
    + exists 0%nat. split; [lia|]. split; [lia|]. split; [unfold subarr; simpl; set_solver|]. intros _. by rewrite Nat.add_0_r.
    + destruct (IH (S i)) as (d & Hd & E & Hn & Hl); [lia|]. exists (S d). split; [lia|]. split; [lia|]. split.
      * unfold subarr in *. rewrite (drop_S _ _ _ Hx). cbn [take]. apply not_elem_of_cons. split; [congruence|done].
      * intros Hlt. replace (i + S d)%nat with (S i + d)%nat by lia. apply Hl. lia.
Qed.

(** The list [l] after the prefix [c] of the file, and the unfinished line. *)
Record loading (s0 : ed) (c : list Z) (mem : nat) (s : ed) (l : list lineno) : Prop := {
  ld_rep : rep s l;
  ld_text : l.*2 = loaded c;
  ld_rest : same_rest s0 s;
  ld_mem : (memory s + length (loaded c) = mem)%nat }.
Definition unfinished (c : list Z) (l : list lineno) (scaning : bool) (now : nat) : Prop :=
  scaning = negb (bool_decide (tail_of c = [])) ∧ (scaning = true → ∃ l0 t, l = l0 ++ [(now, t)]).

(** The line that a turn works on: the unfinished one or a new one. *)
Lemma turn_node s0 c mem s l scaning now : loading s0 c mem s l → unfinished c l scaning now → (length (lines c) < mem)%nat →
  ∃ l0 now' s', (if scaning then ret now else let! s := get in let! t := node_at (tailNode s) in newNode (n_prev t)) s = Ok now' s' ∧
    rep s' (l0 ++ [(now', tail_of c)]) ∧ l0.*2 = lines c ∧ same_rest s0 s' ∧ (memory s' + S (length (lines c)) = mem)%nat.
Proof.
  intros [Hr Ht Hs Hm] [-> Hl] Hlt. unfold loaded in *. destruct (decide (tail_of c = [])) as [E|E].
  - rewrite (bool_decide_eq_true_2 _ E) in *. cbn [negb]. rewrite app_nil_r in *. unfold bind at 1, get.
    destruct (node_at_chain s l (S (length l)) Hr) as [t R]; [lia|]. rewrite adr_tail in R. erewrite bind_Ok by exact R. cbn [n_prev].
    destruct (memory s) as [|m] eqn:Em; [lia|]. rewrite <- (app_nil_r l) in Hr.
    destruct (newNode_spec s l [] m Hr Em) as (s' & R' & Hr' & Hs' & _ & _ & Hm' & _).
    rewrite adr_last_of, take_ge by lia. exists l, (fresh s), s'. rewrite E. split; [done|]. split; [done|]. split; [done|].
    split; [by etrans|]. lia.
  - rewrite (bool_decide_eq_false_2 _ E) in *. cbn [negb] in *. specialize (Hl eq_refl).
    destruct Hl as (l0 & t & ->). rewrite fmap_app in Ht. apply app_inj_tail in Ht as [Ht <-].
    exists l0, now, s. split; [done|]. split; [done|]. split; [done|]. split; [done|]. rewrite length_app in Hm. simpl in Hm. lia.
Qed.

(** A whole turn: the piece [seg] is added to that line. *)
Lemma turn_text s0 c mem s l scaning now seg {B} (e : M ed B) (k : nat → M ed B) :
  loading s0 c mem s l → unfinished c l scaning now → (length (lines c) < mem)%nat →
  ∃ l0 now' s', rep s' (l0 ++ [(now', tail_of c ++ seg)]) ∧ l0.*2 = lines c ∧ same_rest s0 s' ∧ (memory s' + S (length (lines c)) = mem)%nat ∧
    (let! now := (if scaning then ret now else let! s := get in let! t := node_at (tailNode s) in newNode (n_prev t)) in
     if (now =? 0)%nat then do! say "nowNode pointer is NULL!" in e else
     let! x := node_at now in
     do! (if n_length x =? 0 then update_node (set_text seg) now
          else update_node (set_text (take (Z.to_nat (n_length x)) (n_content x) ++ seg)) now) in k now) s = k now' s'.
Proof.
  intros Hld Hun Hlt. destruct (turn_node _ _ _ _ _ _ _ Hld Hun Hlt) as (l0 & now' & s1 & R & Hr & Ht & Hs & Hm).
  destruct (rep_nodup_mid _ _ _ _ _ Hr) as (Hz & _).
  destruct (set_text_spec s1 l0 now' _ (tail_of c ++ seg) [] Hr) as (s' & R' & Hr' & Hs' & _ & _ & Hm' & _).
  exists l0, now', s'. split; [done|]. split; [done|]. split; [by etrans|]. split; [lia|].
  erewrite bind_Ok by exact R. rewrite (proj2 (Nat.eqb_neq _ _) Hz).
  assert (nodes s1 !! now' = Some (Node (last_of (headNode s1) l0) (length (tail_of c)) (tail_of c) (tailNode s1))) as Hn.
  { pose proof (r_dll _ _ Hr) as Hd. unfold chain in Hd. rewrite <- app_assoc in Hd. destruct Hd as [_ Hd]. apply dll_app in Hd as [_ [Hd _]]. exact Hd. }
  erewrite bind_Ok; [|unfold node_at; by rewrite Hn]. cbn [n_length n_content]. rewrite Nat2Z.id, take_ge by done.
  assert ((if length (tail_of c) =? 0 then update_node (set_text seg) now' else update_node (set_text (tail_of c ++ seg)) now') s1 = Ok tt s') as R2.
  { destruct (Z.eqb_spec (length (tail_of c)) 0) as [E|_]; [|done]. destruct (tail_of c); [done|simpl in E; lia]. }
  by erewrite bind_Ok by exact R2.
Qed.

Lemma subarr_split (b : list Z) i d n : (d ≤ n)%nat → subarr b i n = subarr b i d ++ subarr b (i + d) (n - d).
Proof.
  intros H. unfold subarr. rewrite <- drop_drop. rewrite <- (take_drop d (take n (drop i b))). rewrite take_take, Nat.min_l by lia.
  f_equal. apply skipn_firstn_comm.
Qed.

Lemma chunk_loop_spec s0 mem b len fuel : ∀ s c l start scaning now,
  length b = 512%nat → (len ≤ 512)%nat → (start ≤ len)%nat → (len - start < fuel)%nat →
  loading s0 c mem s l → unfinished c l scaning now → (length (loaded (c ++ subarr b start (len - start))) ≤ mem)%nat →
  ∃ scaning' now' s' l', chunk_loop oob b len start scaning now fuel s = Ok (Some (scaning', now')) s' ∧
    loading s0 (c ++ subarr b start (len - start)) mem s' l' ∧
    (len = 512%nat → unfinished (c ++ subarr b start (len - start)) l' scaning' now').
Proof.
  induction fuel as [|fuel IH]; intros s c l start scaning now Hb Hlen Hst Hf Hld Hun Hmem; [lia|]. cbn [chunk_loop].
  destruct (Nat.ltb_spec start len) as [Hlt|Hge]; cbn [negb].
  2: { replace (len - start)%nat with 0%nat by lia. unfold subarr. cbn [take]. rewrite app_nil_r. by exists scaning, now, s, l. }
  destruct (find_nl_spec b (len - start) start) as (d & Hd & -> & Hnl & Hat); [lia|].
  replace (start + d - start)%nat with d by lia. set (seg := subarr b start d) in *.
  rewrite (subarr_split b start d (len - start)) in Hmem |- * by done. fold seg in Hmem |- *.
  assert (d = len - start → seg ≠ [])%nat as Hseg.
  { intros Ed E%(f_equal length). unfold seg in E. rewrite length_subarr in E by lia. simpl in E. lia. }
  assert (length (lines c) < mem)%nat as Hlt'.
  { destruct (decide (d < len - start)%nat) as [Hdl|Hdl].
    - specialize (Hat Hdl). revert Hmem. unfold subarr. rewrite (drop_S _ _ _ Hat).
      destruct (len - start - d)%nat eqn:E; [lia|]. cbn [take]. rewrite app_assoc. change (10 :: ?x) with ([10] ++ x). rewrite !app_assoc.
      pose proof (loaded_ext ((c ++ seg) ++ [10]) (take n (drop (S (start + d)) b))) as He.
      pose proof (loaded_closed c seg Hnl) as Hc. rewrite app_assoc in Hc. rewrite Hc, length_app in He. simpl in He. lia.
    - revert Hmem. replace (len - start - d)%nat with 0%nat by lia. unfold subarr at 1. cbn [take]. rewrite app_nil_r.
      rewrite loaded_piece, length_app; [simpl; lia|done|]. apply Hseg. lia. }
  destruct (turn_text s0 c mem s l scaning now seg (ret None)
    (λ now, if (if (start + d <? Z.to_nat BUF_LINE_LENGTH)%nat then nth (start + d) b 0 else oob) =? 10
            then chunk_loop oob b len (S (start + d)) false 0%nat fuel else chunk_loop oob b len (S (start + d)) true now fuel) Hld Hun Hlt')
    as (l0 & now' & s' & Hr & Ht & Hs & Hm & ->).
  change (Z.to_nat BUF_LINE_LENGTH) with 512%nat.
  assert (∀ c', loaded c' = lines c ++ [tail_of c ++ seg] → loading s0 c' mem s' (l0 ++ [(now', tail_of c ++ seg)])) as Hld'.
  { intros c' Ec'. split; [done|by rewrite fmap_app, Ht, Ec'|done|]. rewrite Ec', length_app. simpl. lia. }
  destruct (decide (d < len - start)%nat) as [Hdl|Hdl].
  - specialize (Hat Hdl). rewrite (proj2 (Nat.ltb_lt (start + d) 512)), (nth_lookup_Some _ _ _ _ Hat) by lia. cbn [Z.eqb Pos.eqb].
    assert (subarr b (start + d) (len - start - d) = [10] ++ subarr b (S (start + d)) (len - S (start + d))) as E.
    { unfold subarr. rewrite (drop_S _ _ _ Hat). replace (len - start - d)%nat with (S (len - S (start + d)))%nat by lia. done. }
    rewrite E in Hmem |- *. rewrite !app_assoc in Hmem |- *. rewrite <- (app_assoc c seg) in Hmem |- *.
    eapply IH; [done|done|lia|lia| | |done].
    + apply Hld'. by apply loaded_closed.
    + split; [|done]. by rewrite split_lines_closed.
  - specialize (Hseg ltac:(lia)). replace (start + d)%nat with len by lia. replace (len - start - d)%nat with 0%nat by lia.
    change (subarr b len 0) with (take 0 (drop len b)). cbn [take]. rewrite app_nil_r.
    assert (∀ sc nw, chunk_loop oob b len (S len) sc nw fuel s' = Ok (Some (sc, nw)) s') as Hend.
    { intros sc nw. destruct fuel; [lia|]. cbn [chunk_loop]. by rewrite (proj2 (Nat.ltb_ge (S len) len)) by lia. }
    destruct (_ =? 10) eqn:E10; rewrite Hend; eexists _, _, _, (l0 ++ [(now', tail_of c ++ seg)]); (split; [reflexivity|]);
      (split; [apply Hld'; by apply loaded_piece|]); intros ->.
    + cbn [Nat.ltb Nat.leb] in E10. apply Z.eqb_eq in E10. done.
    + split; [|by exists l0, (tail_of c ++ seg)]. rewrite split_lines_piece by done. cbn [snd].
      rewrite bool_decide_eq_false_2; [done|]. by intros [_ ?]%app_nil.
Qed.

Lemma load_loop_spec s0 mem fuel : ∀ s c l rest b scaning now,
  length b = 512%nat → (length rest < fuel)%nat → loading s0 c mem s l → unfinished c l scaning now → (length (loaded (c ++ rest)) ≤ mem)%nat →
  ∃ s' l', load_loop oob rest b scaning now fuel s = Ok true s' ∧ loading s0 (c ++ rest) mem s' l'.
Proof.
  induction fuel as [|fuel IH]; intros s c l rest b scaning now Hb Hf Hld Hun Hmem; [lia|]. cbn [load_loop].
  change (Z.to_nat BUF_LINE_LENGTH) with 512%nat. destruct rest as [|x rest0] eqn:Er.
  { rewrite take_nil. exists s, l. by rewrite app_nil_r. }
  rewrite <- Er in *. set (data := take 512 rest). set (len := length data).
  assert (len = length rest `min` 512)%nat as Hlen by (unfold len, data; rewrite length_take; lia).
  assert (∀ A (k1 k2 : A), match data with [] => k1 | _ => k2 end = k2) as -> by (intros; unfold data; by rewrite Er).
  set (b' := list_inserts 0 data b). assert (length b' = 512%nat) as Hb' by (unfold b'; by rewrite length_inserts).
  assert (subarr b' 0 (len - 0) = data) as Ed by (rewrite Nat.sub_0_r; apply subarr_inserts_eq; unfold len in Hlen; lia).
  assert (c ++ rest = (c ++ data) ++ drop 512 rest) as Ec by (by rewrite <- app_assoc; unfold data; rewrite take_drop). rewrite Ec in Hmem |- *.
  assert (length rest = S (length rest0)) as Hpos by (by rewrite Er).
  destruct (chunk_loop_spec s0 mem b' len (S len) s c l 0 scaning now) as (sc & nw & s1 & l1 & R & H1 & U1); [done|lia|lia|lia|done|done| |].
  { rewrite Ed. etrans; [apply loaded_ext|exact Hmem]. }
  erewrite bind_Ok by exact R. rewrite Ed in *.
  destruct (decide (len = 512%nat)) as [E512|Hshort].
  - eapply IH; [done| |done|by apply U1|done]. rewrite length_drop. lia.
  - rewrite (drop_ge rest 512) by lia. rewrite app_nil_r. exists s1, l1. split; [|done].
    destruct fuel as [|fuel]; [lia|]. done.
Qed.
End load.

(** A fresh editor. *)
Record starting (s : ed) (mem : nat) : Prop := {
  st_nodes : nodes s = ∅;
  st_fresh : (0 < fresh s)%nat;
  st_lines : fileLineNum s = 0;
  st_idx : showLineIdx s = true;
  st_mem : memory s = mem }.

Lemma load_spec oob path s content m :
  oob ≠ 10 → starting s (2 + length (loaded content) + m) → files s !! path = Some content →
  ∃ s' l, loadFile oob path s = Ok true s' ∧ rep s' l ∧ l.*2 = loaded content ∧ memory s' = m ∧
    view_of s' = (true, headShowLine s) ∧ files s' = files s ∧ input s' = input s ∧ oriPath s' = PArg path.
Proof.
  intros Hoob [Hn Hfr Hl Hi Hm] Hf. unfold loadFile. unfold bind at 1, get. rewrite Hf. unfold say at 1, write1. rewrite !bind_modify.
  set (s1 := set_paths _ _ _). destruct (initList_spec s1 (length (loaded content) + m)) as (s2 & R & Hr & M2 & I2 & F2 & _ & In2 & P2 & _); [done..|].
  erewrite bind_Ok by exact R. cbn [negb].
  destruct (load_loop_spec oob Hoob s2 (length (loaded content) + m) (S (length content)) s2 [] [] content (replicate (Z.to_nat BUF_LINE_LENGTH) 0) false 0%nat)
    as (s' & l & R' & [Hr' Ht' (_ & _ & I3 & S3 & P3 & _ & In3 & F3) Hm']); [done|lia|split; try done; simpl; lia|done|simpl; lia|].
  exists s', l. split; [done|]. cbn [app] in *. split; [done|]. split; [done|]. split; [lia|].
  rewrite I3, S3, F3, In3, P3, F2, In2, P2. injection I2 as -> ->. cbn [s1 set_paths set_output showLineIdx headShowLine]. by rewrite Hi.
Qed.

(** [loadFile] on an existing file, started with enough memory: the list
    holds exactly the lines of the file in order, whatever the lengths of the
    lines and wherever they cross the ends of the 512-byte blocks that are
    read, with the last line when the file does not end in a newline; the
    byte behind the read buffer, which the code looks at, must not be a
    newline. *)
Theorem loadFile_correct oob path s content m :
  oob ≠ 10 → starting s (2 + length (loaded content) + m) → files s !! path = Some content →
  ∃ s' l, loadFile oob path s = Ok true s' ∧ rep s' l ∧ l.*2 = loaded content ∧ memory s' = m ∧
    view_of s' = (true, headShowLine s) ∧ files s' = files s ∧ input s' = input s ∧ oriPath s' = PArg path.
Proof. apply load_spec. Qed.

(** ** Saving *)

(** A line into the buffer, then the newline. *)
Lemma buffer_line (b t : list Z) en : length b = 512%nat → (en + length t + 1 < 512)%nat →
  let b' := <[(en + length t)%nat := 10]> (list_inserts en t b) in
  length b' = 512%nat ∧ take (en + length t + 1) b' = take en b ++ t ++ [10].
Proof.
  intros Hb Hlt b'. assert (length b' = 512%nat) as Hb' by (unfold b'; by rewrite length_insert, length_inserts). split; [done|].
  apply list_eq. intros i. destruct (decide (i < en + length t + 1)%nat) as [Hi|Hi].
  2: { rewrite !lookup_ge_None_2; [done|..]; rewrite ?length_app, ?length_take; simpl; lia. }
  rewrite lookup_take_lt by lia. unfold b'. destruct (decide (i = en + length t)%nat) as [->|Hne].
  - rewrite list_lookup_insert_eq by (rewrite length_inserts; lia).
    rewrite lookup_app_r; rewrite length_take, Nat.min_l by lia; [|lia]. rewrite lookup_app_r by lia.
    by replace (en + length t - en - length t)%nat with 0%nat by lia.
  - rewrite list_lookup_insert_ne by done. destruct (decide (i < en)%nat).
    + rewrite list_lookup_inserts_lt, lookup_app_l, lookup_take_lt by (rewrite ?length_take; lia). done.
    + rewrite list_lookup_inserts, lookup_app_r by (rewrite ?length_take; lia). rewrite length_take, Nat.min_l by lia.
      by rewrite lookup_app_l by lia.
Qed.

Section save.
Context (path : list Z) (part : Z) (s : ed) (l : list lineno) (H : rep s l).
Context (Hlen : Forall (λ t, length t ≤ 510) l.*2).

(** The state while the file has the contents [fc]. *)
Definition saving (o : list (list Z)) (fc : list Z) : ed := set_output o (set_files (<[path := fc]> (files s)) s).

Lemma saving_dots (c : bool) o fc : ∃ o', (if c then write1 (chars ".") else ret tt) (saving o fc) = Ok tt (saving o' fc).
Proof. destruct c; by eexists. Qed.

Lemma saving_append o fc t : append_file path t (saving o fc) = Ok tt (saving o (fc ++ t)).
Proof. unfold append_file, modify, saving. cbn. by rewrite lookup_insert_eq, insert_insert_eq. Qed.

Lemma save_loop_spec fuel : ∀ (k en : nat) b fc o lc,
  (k ≤ length l)%nat → length b = 512%nat → (en < 512)%nat → fc ++ take en b = joined (take k l).*2 →
  (2 * (length l - k) + (if decide (en = 0) then 0 else 1) < fuel)%nat →
  ∃ b' (en' : nat) o' fc', save_loop path part (Z.of_nat (adr (chain s l) (S k))) lc b en fuel (saving o fc) =
      Ok (b', Z.of_nat en', lc + (length l - k)) (saving o' fc') ∧
    length b' = 512%nat ∧ (en' < 512)%nat ∧ fc' ++ take en' b' = joined l.*2.
Proof.
  induction fuel as [|fuel IH]; intros k en b fc o lc Hk Hb Hen Hfc Hf; [lia|]. cbn [save_loop]. unfold bind at 1, get.
  change (tailNode (saving o fc)) with (tailNode s). destruct (Z.eqb_spec (adr (chain s l) (S k)) (tailNode s)) as [E|E].
  { apply Nat2Z.inj in E. rewrite <- (adr_tail s l) in E. apply (adr_inj _ _ _ _ H) in E; [|lia..]. injection E as ->.
    exists b, en, o, fc. rewrite firstn_all in Hfc. split; [|done]. unfold ret. do 3 f_equal. lia. }
  assert (k < length l)%nat as Hkl by (destruct (decide (k = length l)) as [->|]; [by rewrite adr_tail in E|lia]).
  destruct (lookup_lt_is_Some_2 l k Hkl) as [[a t] Hat].
  assert (chain s l !! S k = Some (a, t)) as Hch by (change (chain s l !! S k) with ((l ++ [(tailNode s, [] : list Z)]) !! k); by rewrite lookup_app_l).
  pose proof (rep_node s l (S k) a t H Hch) as Hn. rewrite (adr_lookup _ _ _ Hch), Nat2Z.id. cbn [fst] in *.
  erewrite bind_Ok; [|unfold node_at; cbn [nodes saving set_output set_files]; by rewrite Hn]. cbn [n_length n_content n_next].
  rewrite !Nat2Z.id, (take_ge t) by done. unfold BUF_LINE_LENGTH.
  assert (length t ≤ 510) as Ht510 by (eapply (proj1 (list.Forall_forall _ _) Hlen), list_elem_of_lookup_2 with k; by rewrite list_lookup_fmap, Hat).
  destruct (Z.ltb_spec (en + length t + 1) 512) as [Hfit|Hfull].
  - rewrite bind_ret. destruct (saving_dots ((0 <? part) && ((lc + 1) `rem` part =? 0)) o fc) as [o1 R1]. erewrite bind_Ok by exact R1.
    replace (Z.to_nat (en + (length t + 1) - 1)) with (en + length t)%nat by lia.
    replace (Z.of_nat en + (Z.of_nat (length t) + 1)) with (Z.of_nat (en + length t + 1)) by lia.
    destruct (buffer_line b t en Hb ltac:(lia)) as [Hb' Et]. cbn zeta in Hb', Et.
    destruct (IH (S k) (en + length t + 1)%nat _ fc o1 (lc + 1) ltac:(lia) Hb' ltac:(lia)) as (b' & en' & o' & fc' & R & ? & ? & ?).
    + rewrite Et, app_assoc, Hfc, (take_S_r _ _ _ Hat), fmap_app, joined_app. cbn. by rewrite app_nil_r.
    + repeat case_decide; lia.
    + exists b', en', o', fc'. split; [|done]. rewrite R. by replace (lc + 1 + (length l - S k)) with (lc + (length l - k)) by lia.
  - rewrite bind_assoc. erewrite bind_Ok by apply saving_append. rewrite bind_ret.
    destruct (saving_dots ((0 <? part) && (lc `rem` part =? 0)) o (fc ++ take en b)) as [o1 R1]. erewrite bind_Ok by exact R1.
    destruct (IH k 0%nat b (fc ++ take en b) o1 lc Hk Hb ltac:(lia)) as (b' & en' & o' & fc' & R & ?).
    + by rewrite app_nil_r.
    + destruct (decide (en = 0%nat)) as [->|]; [lia|]. rewrite decide_True by done. lia.
    + exists b', en', o', fc'. split; [|done]. by rewrite (adr_lookup _ _ _ Hch) in R.
Qed.
End save.

(** The parts of the state that the text depends on. *)
Lemma rep_eq s s' l : nodes s' = nodes s → headNode s' = headNode s → tailNode s' = tailNode s → fileLineNum s' = fileLineNum s →
  fresh s' = fresh s → rep s l → rep s' l.
Proof. intros E1 E2 E3 E4 E5 []. split; unfold chain in *; by rewrite ?E1, ?E2, ?E3, ?E4, ?E5. Qed.

(** The file that a [saveFile] writes: the argument, or the one it was loaded
    from or saved to last. *)
Definition save_path (p : pathref) (s : ed) : list Z :=
  match path_string p s with [] => path_string (oriPath s) s | path => path end.

Lemma saveFile_spec can_create p s text m v w :
  shows s text m v w → Forall (λ t, length t ≤ 510) text → can_create (save_path p s) = true →
  ∃ s', saveFile can_create p s = Ok true s' ∧ shows s' text m v (env_of s') ∧ files s' = <[save_path p s := joined text]> (files s) ∧
    isDirty s' = false.
Proof.
  intros [(l & Hr & Hc & <-) Hm Hi _] Hlen Hcan. unfold saveFile. unfold bind at 1, get. rewrite bind_modify.
  set (fp := match path_string p s with [] => oriPath s | _ => p end).
  assert (path_string fp s = save_path p s) as -> by (unfold fp, save_path; by destruct (path_string p s) eqn:E).
  set (path := save_path p s) in *. rewrite bind_modify, Hcan. cbn [negb]. rewrite bind_modify.
  set (s1 := set_files _ _). assert (rep s1 l) as H1 by (by eapply rep_eq; [..|exact Hr]).
  destruct (node_at_chain s1 l 0 H1 ltac:(lia)) as [t R]. rewrite adr_head in R. change (headNode s1) with (headNode s) in R.
  erewrite bind_Ok by exact R. cbn [n_next]. unfold write1 at 1 2. rewrite !bind_modify.
  set (s2 := set_output (output (set_output _ _) ++ _) _).
  assert (s2 = saving path s1 (output s2) []) as Es2.
  { unfold saving, s2, s1. cbn. by rewrite insert_insert_eq. }
  pose proof (rep_size s l Hr) as Hsz.
  destruct (save_loop_spec path (fileLineNum s ÷ 10) s1 l H1 Hlen (2 + 2 * size (nodes s)) 0 0 (replicate (Z.to_nat BUF_LINE_LENGTH) 0) [] (output s2) 0)
    as (b & en & o & fc & R2 & Hb & Hen & Hfc); [lia|done|lia|done|simpl; lia|].
  rewrite <- Es2 in R2. erewrite bind_Ok by exact R2. cbn beta iota.
  assert (∃ o', (if 0 <? Z.of_nat en then append_file path (take (Z.to_nat en) (<[Z.to_nat en:=0]> b)) else ret tt) (saving path s1 o fc) =
            Ok tt (saving path s1 o' (joined l.*2))) as [o' R3].
  { exists o. rewrite <- Hfc, Nat2Z.id. destruct (Z.ltb_spec 0 en).
    - rewrite take_insert_ge by lia. apply saving_append.
    - replace en with 0%nat by lia. cbn [take]. by rewrite app_nil_r. }
  erewrite bind_Ok by exact R3. unfold write1. rewrite !bind_modify. eexists. split; [reflexivity|]. split; [|split; [|done]].
  - split; [exists l; split; [by eapply rep_eq; [..|exact Hr]|done]|done..].
  - unfold saving, s1. cbn. rewrite insert_insert_eq. apply insert_delete_eq.
Qed.

(** ** A session *)

(** Lines have no newline in them. *)
Definition plain (text : list (list Z)) : Prop := Forall (λ t, 10 ∉ t) text.

Lemma loaded_plain c : plain (loaded c).
Proof.
  unfold plain, loaded. apply Forall_app. split; [|destruct (bool_decide _); [done|apply Forall_singleton, tail_of_no_newline]].
  induction c as [|x c IH]; [done|]. simpl. destruct (split_lines c) as [[|l1 ls] r]; destruct (Z.eqb_spec x 10); cbn in *; try done.
  - apply Forall_cons; [set_solver|done].
  - apply Forall_cons; [set_solver|done].
  - apply Forall_cons_1 in IH as [H1 H2]. apply Forall_cons; [set_solver|done].
Qed.

Lemma arg_text_plain args : 10 ∉ arg_text args.
Proof.
  unfold arg_text. induction args as [|c args IH]; cbn [line_len]; [set_solver|].
  destruct ((c =? 0) || (c =? 10)) eqn:E; [cbn; set_solver|]. apply orb_false_iff in E as [_ E%Z.eqb_neq].
  destruct (line_len args); cbn in *; [apply not_elem_of_cons; split; [congruence|done]|set_solver].
Qed.

Lemma edits_plain es text : plain text → plain (edits_text es text).
Proof.
  revert text. induction es as [|e es IH]; intros text H; [done|]. apply IH. unfold plain in *.
  destruct e; cbn [edit_text]; [|apply Forall_insert; [done|apply arg_text_plain]| |done|done].
  - apply Forall_app. split; [by apply Forall_take|]. apply Forall_cons; [apply arg_text_plain|by apply Forall_drop].
  - apply Forall_app. split; [by apply Forall_take|by apply Forall_drop].
Qed.

(** Opening a file, the commands and [w] without an argument; the second line is
    the start of [cmdLoop]. *)
Definition session (can_create : list Z → bool) (oob : Z) (path : list Z) (es : list edit) : M ed bool :=
  let! ok := loadFile oob path in
  let! s := get in
  do! modify (λ s, set_paths (oriPath s) (replicate (COMMAND_MAX_LEN - 5) 0) s) in
  let! h := node_at (headNode s) in
  do! modify (set_cursor (n_next h) 1) in
  do! edits_run es in
  saveFile can_create PArgsBuf.

(** C34: an editing session: the file is loaded, any commands that [edits_ok]
    admits are given (their line numbers exist, the text has fewer than 9999
    lines when one is printed, the line numbers are on when lines are displayed
    and no display goes back to line 0), and the text is saved.  The session ends
    without a bad pointer, the file then has exactly the edited lines, other
    files are as before, and an editor started on the saved file has the edited
    text again.  The saved lines must have at most 510 bytes, and the byte behind
    the read buffer must not be a newline. *)
Theorem editor_session can_create oob path es s content m :
  oob ≠ 10 → path ≠ [] → (can_create path = true) → files s !! path = Some content →
  starting s (2 + length (loaded content) + (edits_nodes es + m)) → edits_ok es (loaded content) (true, headShowLine s) = true →
  let text := edits_text es (loaded content) in
  Forall (λ t, length t ≤ 510) text →
  ∃ s', session can_create oob path es s = Ok true s' ∧ files s' = <[path := joined text]> (files s) ∧ isDirty s' = false ∧
    ∀ s1 m1, starting s1 (2 + length text + m1) → files s1 = files s' →
      ∃ s2 l2, loadFile oob path s1 = Ok true s2 ∧ rep s2 l2 ∧ l2.*2 = text.
Proof.
  intros Hoob Hp Hcan Hf Hst Hok text Hlen. unfold session.
  destruct (load_spec oob path s content _ Hoob Hst Hf) as (s1 & l & R1 & H1 & Et & M1 & I1 & F1 & _ & P1). erewrite bind_Ok by exact R1.
  unfold bind at 1, get. rewrite bind_modify. set (s1a := set_paths _ _ s1).
  assert (rep s1a l) as H1a by (by eapply rep_eq; [..|exact H1]).
  destruct (node_at_chain s1a l 0 H1a ltac:(lia)) as [t R]. rewrite adr_head in R. change (headNode s1a) with (headNode s1) in R.
  erewrite bind_Ok by exact R. cbn [n_next]. rewrite bind_modify. set (s2 := set_cursor _ _ s1a).
  assert (shows s2 (loaded content) (edits_nodes es + m) (true, headShowLine s) (env_of s2)) as H2.
  { split; [|done|done|done]. exists l. split; [by apply rep_cursor|]. split; [|done]. split; [done|].
    unfold s2. cbn [set_cursor currentLine curNode]. change (chain _ l) with (chain s1a l). change (Z.to_nat 1) with 1%nat. unfold adr.
    destruct (lookup_lt_is_Some_2 (chain s1a l) 1) as [x Hx]; [rewrite chain_length; lia|]. by rewrite Hx. }
  destruct (edits_spec es s2 _ m _ _ H2 Hok) as (s3 & R3 & H3). erewrite bind_Ok by exact R3.
  pose proof (sh_env _ _ _ _ _ H3) as E3. injection E3 as EF EP EA _.
  assert (save_path PArgsBuf s3 = path) as Epath.
  { unfold save_path, path_string. rewrite EP, EA. cbn [s2 set_cursor oriPath argsbuf s1a set_paths]. rewrite P1. done. }
  destruct (saveFile_spec can_create PArgsBuf s3 _ m _ _ H3 Hlen) as (s' & R4 & _ & F4 & D4); [by rewrite Epath|].
  exists s'. split; [done|]. rewrite Epath, EF in F4. change (files s2) with (files s1) in F4. rewrite F1 in F4. split; [done|]. split; [done|].
  intros sb mb Hsb Fb. assert (loaded (joined text) = text) as El by (apply loaded_joined, edits_plain, loaded_plain).
  destruct (load_spec oob path sb (joined text) mb Hoob) as (sc & lc & Rc & Hc & Ec & _); [by rewrite El|by rewrite Fb, F4, lookup_insert_eq|].
  exists sc, lc. by rewrite Ec, El.
Qed.

Lemma editor_session_witness :
  ∃ s', session (λ _, true) 0 [102] [EIns 1 [120; 0]; EShow 1 2; EDel 1 1] (ed_start [] {[ [102] := [97; 10; 98] ]}) = Ok true s' ∧
    files s' !! [102] = Some [120; 10; 98; 10].
Proof.
  destruct (editor_session (λ _, true) 0 [102] [EIns 1 [120; 0]; EShow 1 2; EDel 1 1] (ed_start [] {[ [102] := [97; 10; 98] ]}) [97; 10; 98] 995)
    as (s' & R & F & _ & _); [done|done|done|by vm_compute|by split; vm_compute; try lia|by vm_compute|by apply (bool_decide_unpack _); vm_compute|].
  exists s'. split; [exact R|]. rewrite F. by vm_compute.
Defined.

(** ** Lines that are too long *)

(** [saveFile] never ends on a line of 511 bytes or more: the line never fits
    the buffer, so the loop writes the empty buffer for ever.  However many
    turns it is given, it is still at that line. *)
Lemma save_long_line_diverges path part s now b (e : Z) lc fuel x :
  nodes s !! now = Some x → now ≠ tailNode s → 511 ≤ n_length x → 0 ≤ e →
  save_loop path part (Z.of_nat now) lc b e fuel s = Fuel.
Proof.
  revert s e. induction fuel as [|fuel IH]; intros s e Hx Ht Hl He; [done|]. cbn [save_loop]. unfold bind at 1, get.
  rewrite (proj2 (Z.eqb_neq _ _)) by lia. rewrite Nat2Z.id. erewrite bind_Ok; [|unfold node_at; by rewrite Hx].
  unfold BUF_LINE_LENGTH. rewrite (proj2 (Z.ltb_ge _ _)) by lia. rewrite bind_assoc. unfold append_file at 1. rewrite bind_modify, bind_ret.
  destruct ((0 <? part) && (lc `rem` part =? 0)).
  - unfold write1. rewrite bind_modify. by apply IH.
  - rewrite bind_ret. by apply IH.
Qed.

Lemma save_long_line_diverges_witness :
  save_loop [102] 0 3 0 [] 0 1000 (set_nodes {[3%nat := Node 2 511 (replicate 511 97) 1]} ed_two) = Fuel.
Proof. eapply (save_long_line_diverges [102] 0 _ 3); [reflexivity|done|done|done]. Defined.

(** ** Whole runs of the program *)

Definition nl (t : string) : list Z := chars t ++ [10].

(** The editor on the file [f] with the commands [cmds] as its input: the final
    files, or how the run ended. *)
Definition run_editor (content : list string) (cmds : list string) : res ed unit :=
  editor_main (λ p, negb (bool_decide (p = []))) 0 [chars "f"] (length cmds)
    (ed_start (concat (nl <$> cmds)) {[chars "f" := concat (nl <$> content)]}).
Definition file_after (name : string) (r : res ed unit) : option (list Z) :=
  match r with Ok _ s => files s !! chars name | _ => None end.
Definition text (ls : list string) : option (list Z) := Some (concat (nl <$> ls)).

(** The commands work together on the text of a file. *)
Example editor_edits :
  file_after "f" (run_editor ["one"; "three"] ["i four"; "i- 1 two"; "m- 4 vier"; "l"; "d 1"; "w"; "q"]) = text ["two"; "three"; "vier"].
Proof. by vm_compute. Qed.

(** After [w g] the editor keeps a pointer to its argument buffer as the path of
    the file: the next command overwrites it, so the answer Y at [q] saves
    nowhere and the line is lost. *)
Example written_name_lost :
  let r := run_editor ["one"] ["w g"; "i more"; "q"; "Y"] in
  file_after "f" r = text ["one"] ∧ file_after "g" r = text ["one"].
Proof. by vm_compute. Qed.

(** [cut] leaves the cursor alone: afterwards [d 3] deletes another line. *)
Example cut_then_delete :
  file_after "f" (run_editor ["1"; "2"; "3"; "4"; "5"] ["c 1 1 5"; "w"; "q"]) = text ["2"; "3"; "4"; "5"; "1"] ∧
  file_after "f" (run_editor ["1"; "2"; "3"; "4"; "5"] ["c 1 1 5"; "d 3"; "w"; "q"]) = text ["2"; "3"; "4"; "5"].
Proof. by vm_compute. Qed.

(** Line 0 as the target of [cut] is the cursor's line, which may be one of the
    lines that are moved: they are lost. *)
Example cut_to_front :
  file_after "f" (run_editor ["one"; "two"; "three"] ["c 1 1 0"; "w"; "q"]) = text ["two"; "three"].
Proof. by vm_compute. Qed.

(** [cut] does not mark the text as changed: [q] leaves without asking. *)
Example cut_then_quit :
  file_after "f" (run_editor ["one"; "two"] ["c 1 1 2"; "q"]) = text ["one"; "two"].
Proof. by vm_compute. Qed.

(** [m] on an empty file goes on with a pointer that was never set, [i- 1]
    without a text searches a space behind the argument buffer, and the end of
    the input does not end the program. *)
Example mod_empty_file : run_editor [] ["m x"] = Panic "uninitialised pointer".
Proof. by vm_compute. Qed.
Example ins_without_text : run_editor ["a"] ["i- 1"] = Panic "args overrun".
Proof. by vm_compute. Qed.
Example end_of_input :
  editor_main (λ _, true) 0 [chars "f"] 100 (ed_start [] {[chars "f" := chars "a"]}) = Fuel.
Proof. by vm_compute. Qed.
