(* ===== verification/Console.v ===== *)
(** * The console: console.c

    The state holds the text screen and its cursor, the bytes sent to the
    serial port, the input buffer with its three 32-bit indices, the
    [panicked] and [cons.locking] flags, and the calls made to other
    components, newest first.  [cons.lock] is held from [Acquire] to [Release],
    so an interrupt and each stretch of [consoleread] between two sleeps are
    one atomic step. *)
From S2P Require Import Prelude Str Printf Ring.

Inductive call := Acquire | Release | Iunlock | Ilock | Wakeup | Procdump | Cli.

Definition INPUT_BUF : nat := 128.
Definition BACKSPACE : Z := 0x100.

Record cons := Cons {
  crt : list Z; cursor : Z; uart : list Z;
  ibuf : list Z; ir : Z; iw : Z; ie : Z;
  panicked : bool; locking : bool; calls : list call }.

Definition set_screen (t : list Z) (p : Z) (c : cons) : cons :=
  Cons t p (uart c) (ibuf c) (ir c) (iw c) (ie c) (panicked c) (locking c) (calls c).
Definition set_uart (l : list Z) (c : cons) : cons :=
  Cons (crt c) (cursor c) l (ibuf c) (ir c) (iw c) (ie c) (panicked c) (locking c) (calls c).
Definition set_input (b : list Z) (r w e : Z) (c : cons) : cons :=
  Cons (crt c) (cursor c) (uart c) b r w e (panicked c) (locking c) (calls c).
Definition set_flags (p l : bool) (c : cons) : cons :=
  Cons (crt c) (cursor c) (uart c) (ibuf c) (ir c) (iw c) (ie c) p l (calls c).
Definition called (x : call) : M cons unit :=
  modify (λ c, Cons (crt c) (cursor c) (uart c) (ibuf c) (ir c) (iw c) (ie c) (panicked c) (locking c) (x :: calls c)).

(** ** Output *)

Definition uartputc (x : Z) : M cons unit := modify (λ c, set_uart (uart c ++ [u8 x]) c).

(** The cursor is the 16-bit register pair 14/15 of the CRT controller; the
    screen has 25 rows of 80 cells, a cell holding a character and a colour. *)
Definition cgaputc (x : Z) : M cons unit :=
  let! c := get in
  let pos := cursor c in
  let '(t, pos) :=
    if x =? 10 then (crt c, pos + (80 - pos `rem` 80))
    else if x =? BACKSPACE then (crt c, if 0 <? pos then pos - 1 else pos)
    else (<[Z.to_nat pos := Z.lor (Z.land x 0xff) 0x0700]> (crt c), pos + 1) in
  if (pos <? 0) || (25 * 80 <? pos) then panic "pos under/overflow" else
  let '(t, pos) :=
    if 24 <=? pos ÷ 80 then
      let t := list_inserts 0 (subarr t 80 (23 * 80)) t in
      let pos := pos - 80 in
      (list_inserts (Z.to_nat pos) (replicate (Z.to_nat (24 * 80 - pos)) 0) t, pos)
    else (t, pos) in
  modify (set_screen (<[Z.to_nat pos := Z.lor 32 0x0700]> t) (u16 pos)).

(** After a panic the CPU that prints stops for ever. *)
Definition consputc (x : Z) : M cons unit :=
  let! c := get in
  if panicked c then panic "frozen" else
  do! (if x =? BACKSPACE then do! uartputc 8 in do! uartputc 32 in uartputc 8 else uartputc x) in
  cgaputc x.

Definition print_chars (l : list Z) : M cons unit := for_each l consputc.

Definition cons_printint (xx base : Z) (sign : bool) : M cons unit :=
  match int_text lower_digits xx base sign with
  | Some t => print_chars t
  | None => panic "buf"
  end.

Section cprintf.
Context (args : nat → Z) (strs : Z → list Z).

Fixpoint cprintf_loop (fmt : list Z) (argp : nat) : M cons unit :=
  match fmt with
  | [] => ret tt
  | ch :: fmt =>
      let c := Z.land ch 0xff in
      if negb (c =? 37) then do! consputc c in cprintf_loop fmt argp
      else
        match fmt with
        | [] => ret tt
        | ch :: fmt =>
            let c := Z.land ch 0xff in
            if c =? 100 then do! cons_printint (s32 (args argp)) 10 true in cprintf_loop fmt (S argp)
            else if (c =? 120) || (c =? 112) then do! cons_printint (s32 (args argp)) 16 false in cprintf_loop fmt (S argp)
            else if c =? 115 then
              do! print_chars (if args argp =? 0 then null_text else strs (args argp)) in cprintf_loop fmt (S argp)
            else if c =? 37 then do! consputc 37 in cprintf_loop fmt argp
            else do! consputc 37 in do! consputc c in cprintf_loop fmt argp
        end
  end.

Definition cprintf (fmt : option (list Z)) : M cons unit :=
  let! lk := gets locking in
  do! (if lk : bool then called Acquire else ret tt) in
  match fmt with
  | None => panic "null fmt"
  | Some fmt =>
      do! cprintf_loop fmt 0 in
      if lk : bool then called Release else ret tt
  end.
End cprintf.

(** [panic], up to the endless loop at its end: the lapic number and the
    caller's return addresses are printed, then every other printing CPU is
    frozen. *)
Definition cons_panic (s : list Z) (lapicid : Z) (pcs : list Z) : M cons unit :=
  do! called Cli in
  do! modify (λ c, set_flags (panicked c) false c) in
  do! cprintf (λ _, lapicid) (λ _, []) (Some (chars "lapicid %d: panic: ")) in
  do! cprintf (λ _, 0) (λ _, []) (Some s) in
  do! cprintf (λ _, 0) (λ _, []) (Some [10]) in
  do! for_each pcs (λ pc, cprintf (λ _, pc) (λ _, []) (Some (chars " %p"))) in
  modify (λ c, set_flags true (locking c) c).

(** ** Input *)

Definition in_slot (x : Z) : nat := Z.to_nat (x `mod` INPUT_BUF).

(** The loop of Control-U: at most as many turns as bytes being edited. *)
Fixpoint kill_loop (fuel : nat) : M cons unit :=
  match fuel with
  | O => λ _, Fuel
  | S fuel =>
      let! c := get in
      if negb (ie c =? iw c) && negb (nth (in_slot (u32 (ie c - 1))) (ibuf c) 0 =? 10) then
        do! modify (set_input (ibuf c) (ir c) (iw c) (u32 (ie c - 1))) in
        do! consputc BACKSPACE in
        kill_loop fuel
      else ret tt
  end.

(** One character of [consoleintr]; [true] when it asks for a process listing.
    C('P') is 16, C('U') 21, C('H') 8 and C('D') 4. *)
Definition intr_char (x : Z) : M cons bool :=
  if x =? 16 then ret true
  else if x =? 21 then do! kill_loop (S INPUT_BUF) in ret false
  else if (x =? 8) || (x =? 127) then
    let! c := get in
    if negb (ie c =? iw c) then
      do! modify (set_input (ibuf c) (ir c) (iw c) (u32 (ie c - 1))) in
      do! consputc BACKSPACE in ret false
    else ret false
  else
    let! c := get in
    if negb (x =? 0) && (u32 (ie c - ir c) <? INPUT_BUF) then
      let x := if x =? 13 then 10 else x in
      do! modify (set_input (<[in_slot (ie c) := u8 x]> (ibuf c)) (ir c) (iw c) (u32 (ie c + 1))) in
      do! consputc x in
      let! c := get in
      if (x =? 10) || (x =? 4) || (ie c =? u32 (ir c + INPUT_BUF)) then
        do! modify (set_input (ibuf c) (ir c) (ie c) (ie c)) in
        do! called Wakeup in ret false
      else ret false
    else ret false.

(** [while((c = getc()) >= 0)]: the values [getc] gives. *)
Fixpoint intr_loop (getc : list Z) (dump : bool) : M cons bool :=
  match getc with
  | [] => ret dump
  | x :: getc =>
      if x <? 0 then ret dump
      else let! d := intr_char x in intr_loop getc (dump || d)
  end.

Definition consoleintr (getc : list Z) : M cons unit :=
  do! called Acquire in
  let! dump := intr_loop getc false in
  do! called Release in
  if dump : bool then called Procdump else ret tt.

(** [consoleread] up to its return, or up to a sleep with [n] bytes still
    wanted and [acc] stored at [dst] so far. *)
Inductive read_out :=
| RRet (r : Z) (stored : list Z)
| RSleep (n : Z) (stored : list Z).

Fixpoint read_loop (killed : bool) (target n : Z) (acc : list Z) (fuel : nat) : M cons read_out :=
  match fuel with
  | O => λ _, Fuel
  | S fuel =>
      if n <=? 0 then
        do! called Release in do! called Ilock in ret (RRet (target - n) acc)
      else
        let! c := get in
        if ir c =? iw c then
          if killed then do! called Release in do! called Ilock in ret (RRet (-1) acc)
          else ret (RSleep n acc)
        else
          let x := nth (in_slot (ir c)) (ibuf c) 0 in
          do! modify (set_input (ibuf c) (u32 (ir c + 1)) (iw c) (ie c)) in
          if x =? 4 then
            do! (if n <? u32 target then modify (λ c, set_input (ibuf c) (u32 (ir c - 1)) (iw c) (ie c) c) else ret tt) in
            do! called Release in do! called Ilock in ret (RRet (target - n) acc)
          else
            let acc := acc ++ [x] in
            let n := n - 1 in
            if x =? 10 then do! called Release in do! called Ilock in ret (RRet (target - n) acc)
            else read_loop killed target n acc fuel
  end.

(** At most [INPUT_BUF] bytes can be taken between two sleeps. *)
Definition READ_FUEL : nat := S (S INPUT_BUF).
Definition consoleread (killed : bool) (n : Z) : M cons read_out :=
  do! called Iunlock in
  do! called Acquire in
  read_loop killed n n [] READ_FUEL.
(** The code after the sleep. *)
Definition consoleread_resume (killed : bool) (target n : Z) (acc : list Z) : M cons read_out :=
  read_loop killed target n acc READ_FUEL.

Definition consolewrite (buf : list Z) : M cons Z :=
  do! called Iunlock in
  do! called Acquire in
  do! for_each buf (λ x, consputc (Z.land x 0xff)) in
  do! called Release in
  do! called Ilock in
  ret (Z.of_nat (length buf)).

(** [consoleinit] apart from the device table and the interrupt routing. *)
Definition consoleinit : M cons unit := modify (λ c, set_flags (panicked c) true c).

(** ** The screen never overflows *)

(** The cursor stays in the first 24 rows. *)
Definition screen_ok (c : cons) : Prop :=
  length (crt c) = (25 * 80)%nat ∧ 0 ≤ cursor c < 24 * 80 ∧ panicked c = false.

(** The output functions touch the screen and the serial port only. *)
Definition same_input (c c' : cons) : Prop :=
  ibuf c' = ibuf c ∧ ir c' = ir c ∧ iw c' = iw c ∧ ie c' = ie c ∧ calls c' = calls c ∧ locking c' = locking c.

#[global] Instance same_input_preorder : PreOrder same_input.
Proof.
  split; unfold same_input; [done|]. intros x y z (?&?&?&?&?&?) (?&?&?&?&?&?). split_and!; congruence.
Qed.

Lemma cgaputc_ok x c : screen_ok c → ∃ c', cgaputc x c = Ok tt c' ∧ screen_ok c' ∧ same_input c c' ∧ uart c' = uart c.
Proof.
  intros (Hl & Hp & Hn). unfold cgaputc, bind, get.
  assert (∃ t pos, (if x =? 10 then (crt c, cursor c + (80 - cursor c `rem` 80))
    else if x =? BACKSPACE then (crt c, if 0 <? cursor c then cursor c - 1 else cursor c)
    else (<[Z.to_nat (cursor c) := Z.lor (Z.land x 0xff) 0x0700]> (crt c), cursor c + 1)) = (t, pos) ∧
    length t = (25 * 80)%nat ∧ 0 ≤ pos ≤ 24 * 80) as (t & pos & -> & Ht & Hpos).
  { destruct (x =? 10); [|destruct (x =? BACKSPACE)].
    - eexists _, _. split; [done|]. split; [done|]. rewrite Z.rem_mod_nonneg by lia. Z.div_mod_to_equations. lia.
    - eexists _, _. split; [done|]. split; [done|]. destruct (Z.ltb_spec 0 (cursor c)); lia.
    - eexists _, _. split; [done|]. split; [by rewrite length_insert|]. lia. }
  assert ((pos <? 0) || (25 * 80 <? pos) = false) as -> by (zcases; lia).
  rewrite Z.quot_div_nonneg by lia.
  destruct (Z.leb_spec 24 (pos / 80)) as [H24|H24]; eexists; (split; [reflexivity|]); (split; [|done]);
    (split; [|split; [|done]]); cbn [crt cursor set_screen].
  - by rewrite length_insert, !length_inserts.
  - rewrite u16_small; unfold is_u16; Z.div_mod_to_equations; lia.
  - by rewrite length_insert.
  - rewrite u16_small; unfold is_u16; Z.div_mod_to_equations; lia.
Qed.

Lemma consputc_ok x c : screen_ok c → ∃ c', consputc x c = Ok tt c' ∧ screen_ok c' ∧ same_input c c'.
Proof.
  intros Hc. destruct Hc as (Hl & Hp & Hn). unfold consputc. rewrite bind_Ok with (a := c) (s' := c) by done. rewrite Hn.
  assert (∃ c1, (if x =? BACKSPACE then do! uartputc 8 in do! uartputc 32 in uartputc 8 else uartputc x) c = Ok tt c1 ∧
    screen_ok c1 ∧ same_input c c1) as (c1 & R & H1 & S1).
  { destruct (x =? BACKSPACE); eexists; (split; [reflexivity|]); done. }
  erewrite bind_Ok by exact R. destruct (cgaputc_ok x c1 H1) as (c2 & R2 & H2 & S2 & _).
  exists c2. split; [done|]. split; [done|]. by etrans.
Qed.

(** Everything [consolewrite] and [cprintf] send is shown without a panic. *)
Lemma print_chars_ok l c : screen_ok c → ∃ c', print_chars l c = Ok tt c' ∧ screen_ok c' ∧ same_input c c'.
Proof.
  intros Hc. destruct (for_each_inv consputc (λ _ c', screen_ok c' ∧ same_input c c') l c) as (c' & R & H); [by split| |by exists c'].
  intros _ x _ c1 _ [H1 S1]. destruct (consputc_ok x c1 H1) as (c2 & R2 & H2 & S2). exists c2. split; [done|].
  split; [done|by etrans].
Qed.

(** ** The line discipline, abstractly *)

(** Bytes a reader may take, bytes still being edited, and the calls made. *)
Record line := Line { committed : list Z; editing : list Z; made : list call }.

Definition a_char (x : Z) (a : line) : line * bool :=
  if x =? 16 then (a, true)
  else if x =? 21 then (Line (committed a) [] (made a), false)
  else if (x =? 8) || (x =? 127) then (Line (committed a) (removelast (editing a)) (made a), false)
  else if negb (x =? 0) && (length (committed a ++ editing a) <? INPUT_BUF)%nat then
    let x := if x =? 13 then 10 else x in
    let ed := editing a ++ [x] in
    if (x =? 10) || (x =? 4) || (length (committed a ++ ed) =? INPUT_BUF)%nat
    then (Line (committed a ++ ed) [] (Wakeup :: made a), false)
    else (Line (committed a) ed (made a), false)
  else (a, false).

Fixpoint a_chars (getc : list Z) (dump : bool) (a : line) : line * bool :=
  match getc with
  | [] => (a, dump)
  | x :: getc =>
      if x <? 0 then (a, dump)
      else let '(a, d) := a_char x a in a_chars getc (dump || d) a
  end.

Definition push (x : call) (a : line) : line := Line (committed a) (editing a) (x :: made a).

Definition a_intr (getc : list Z) (a : line) : line :=
  let '(a, dump) := a_chars getc false (push Acquire a) in
  let a := push Release a in if dump : bool then push Procdump a else a.

(** A read takes committed bytes up to and including a newline; Control-D ends
    it, and stays for the next read unless nothing was read before it. *)
Fixpoint a_take (killed : bool) (target n : Z) (acc com : list Z) : read_out * list Z :=
  if n <=? 0 then (RRet (target - n) acc, com) else
  match com with
  | [] => (if killed then RRet (-1) acc else RSleep n acc, [])
  | x :: rest =>
      if x =? 4 then (RRet (target - n) acc, if n <? target then com else rest)
      else if x =? 10 then (RRet (target - (n - 1)) (acc ++ [x]), rest)
      else a_take killed target (n - 1) (acc ++ [x]) rest
  end.

(** A read that returns releases the lock and locks the inode again. *)
Definition a_read (killed : bool) (target n : Z) (acc : list Z) (a : line) : read_out * line :=
  let '(r, com) := a_take killed target n acc (committed a) in
  let a := Line com (editing a) (made a) in
  (r, match r with RRet _ _ => push Ilock (push Release a) | RSleep _ _ => a end).

(** ** The simulation *)

Record represents (c : cons) (a : line) : Prop := {
  rp_screen : screen_ok c;
  rp_ring : ring_rep INPUT_BUF (ibuf c) (ir c) (committed a ++ editing a);
  rp_r : is_u32 (ir c);
  rp_w : iw c = u32 (ir c + length (committed a));
  rp_e : ie c = u32 (ir c + length (committed a ++ editing a));
  rp_line : 10 ∉ editing a;
  rp_calls : calls c = made a }.

Lemma input_divides : (Z.of_nat INPUT_BUF | 2 ^ 32).
Proof. by exists 33554432. Qed.
Lemma input_pos : (0 < INPUT_BUF)%nat.
Proof. unfold INPUT_BUF. lia. Qed.

Lemma rp_bound c a : represents c a → (length (committed a) + length (editing a) ≤ 128)%nat.
Proof. intros H. destruct (rp_ring _ _ H) as [_ Hb _]. by rewrite length_app in Hb. Qed.

Lemma represents_same c c' a : represents c a → screen_ok c' → same_input c c' → represents c' a.
Proof. intros [] Hs (H1 & H2 & H3 & H4 & H5 & _). split; rewrite ?H1, ?H2, ?H3, ?H4, ?H5; done. Qed.

Lemma represents_call x c a : represents c a → ∃ c', called x c = Ok tt c' ∧ represents c' (push x a).
Proof. intros []. eexists. split; [reflexivity|]. split; cbn; try done. by rewrite rp_calls0. Qed.

Lemma edit_empty c a : represents c a → (ie c =? iw c) = bool_decide (editing a = []).
Proof.
  intros H. pose proof (rp_bound c a H). destruct H. rewrite rp_e0, rp_w0. apply eq_true_iff_eq.
  rewrite Z.eqb_eq, bool_decide_eq_true, length_app. split.
  - intros E%u32_add_inj; [|lia..]. destruct (editing a); [done|]. simpl in E. lia.
  - intros ->. f_equal. simpl. lia.
Qed.

Lemma read_empty c a : represents c a → (ir c =? iw c) = bool_decide (committed a = []).
Proof.
  intros H. pose proof (rp_bound c a H). destruct H. rewrite rp_w0. apply eq_true_iff_eq.
  rewrite Z.eqb_eq, bool_decide_eq_true. split.
  - intros E. rewrite <- (u32_small (ir c)) in E at 1 by done. rewrite <- (Z.add_0_r (ir c)) in E at 1.
    apply u32_add_inj in E; [|lia..]. destruct (committed a); [done|]. simpl in E. lia.
  - intros ->. simpl. rewrite Z.add_0_r. symmetry. by apply u32_small.
Qed.

(** Taking back the last byte being edited. *)
Lemma represents_erase c com ed x m : represents c (Line com (ed ++ [x]) m) →
  nth (in_slot (u32 (ie c - 1))) (ibuf c) 0 = x ∧
  represents (set_input (ibuf c) (ir c) (iw c) (u32 (ie c - 1)) c) (Line com ed m).
Proof.
  intros []. cbn in *. rewrite app_assoc in rp_ring0, rp_e0. split.
  - rewrite rp_e0. exact (queue_last INPUT_BUF input_pos input_divides _ _ _ _ rp_ring0).
  - split; cbn; try done.
    + eapply queue_drop; eauto using input_pos, input_divides.
    + rewrite rp_e0, u32_pred_add. f_equal. rewrite !length_app. simpl. lia.
    + set_solver.
Qed.

(** Appending a byte to the line being edited. *)
Lemma represents_store c com ed x m : represents c (Line com ed m) → (length (com ++ ed) < INPUT_BUF)%nat →
  is_u8 x → x ≠ 10 →
  represents (set_input (<[in_slot (ie c) := u8 x]> (ibuf c)) (ir c) (iw c) (u32 (ie c + 1)) c) (Line com (ed ++ [x]) m).
Proof.
  intros [] Hlt Hx Hnl. cbn in *. rewrite u8_small by done. split; cbn; try done.
  - rewrite rp_e0, app_assoc. by apply (queue_push INPUT_BUF input_pos input_divides).
  - rewrite rp_e0, u32_succ_add. f_equal. rewrite !length_app. simpl. lia.
  - set_solver.
Qed.

(** Storing a byte and committing the line. *)
Lemma represents_commit c com ed x m : represents c (Line com ed m) → (length (com ++ ed) < INPUT_BUF)%nat → is_u8 x →
  let c1 := set_input (<[in_slot (ie c) := u8 x]> (ibuf c)) (ir c) (iw c) (u32 (ie c + 1)) c in
  represents (set_input (ibuf c1) (ir c1) (ie c1) (ie c1) c1) (Line (com ++ ed ++ [x]) [] m).
Proof.
  intros [] Hlt Hx. cbn in *. rewrite u8_small by done. split; cbn; try done.
  - rewrite rp_e0, app_nil_r, app_assoc. by apply (queue_push INPUT_BUF input_pos input_divides).
  - rewrite rp_e0, u32_succ_add. f_equal. rewrite !length_app. simpl. lia.
  - rewrite rp_e0, u32_succ_add. f_equal. rewrite !length_app. simpl. lia.
  - set_solver.
Qed.

Lemma consputc_represents x c a : represents c a → ∃ c', consputc x c = Ok tt c' ∧ represents c' a ∧ same_input c c'.
Proof.
  intros H. destruct (consputc_ok x c (rp_screen _ _ H)) as (c' & R & Hs & Hi). exists c'. split; [done|].
  split; [by eapply represents_same|done].
Qed.

Lemma kill_loop_spec fuel c com ed m : represents c (Line com ed m) → (length ed < fuel)%nat →
  ∃ c', kill_loop fuel c = Ok tt c' ∧ represents c' (Line com [] m).
Proof.
  revert c ed. induction fuel as [|fuel IH]; intros c ed Hr Hf; [lia|]. cbn [kill_loop]. unfold bind at 1, get.
  rewrite (edit_empty c _ Hr). cbn [editing]. destruct ed as [|x ed _] using rev_ind; [rewrite bool_decide_true by done; by exists c|].
  rewrite bool_decide_false by (by destruct ed). cbn [negb andb].
  destruct (represents_erase c com ed x m Hr) as [Hx Hr']. rewrite Hx.
  assert (x ≠ 10) by (pose proof (rp_line _ _ Hr); cbn in *; set_solver).
  destruct (Z.eqb_spec x 10); [done|]. cbn [negb]. rewrite bind_modify.
  destruct (consputc_represents BACKSPACE _ _ Hr') as (c' & R & H' & _). erewrite bind_Ok by exact R.
  apply (IH c' ed H'). rewrite length_app in Hf. simpl in Hf. lia.
Qed.

Lemma removelast_snoc (l : list Z) x : removelast (l ++ [x]) = l.
Proof. apply removelast_last. Qed.

Lemma intr_char_spec x c a : represents c a → 0 ≤ x < 256 →
  ∃ c', intr_char x c = Ok (a_char x a).2 c' ∧ represents c' (a_char x a).1.
Proof.
  intros Hr Hx. destruct a as [com ed m]. unfold intr_char, a_char. cbn [committed editing made].
  destruct (x =? 16); [by exists c|]. destruct (x =? 21).
  { destruct (kill_loop_spec (S INPUT_BUF) c com ed m Hr) as (c' & R & H').
    { pose proof (rp_bound _ _ Hr). cbn in *. unfold INPUT_BUF. lia. }
    exists c'. erewrite bind_Ok by exact R. done. }
  destruct ((x =? 8) || (x =? 127)).
  { unfold bind at 1, get. rewrite (edit_empty c _ Hr). cbn [editing]. destruct ed as [|y ed _] using rev_ind; [rewrite bool_decide_true by done; by exists c|].
    rewrite bool_decide_false by (by destruct ed). cbn [negb]. rewrite bind_modify, removelast_snoc.
    destruct (represents_erase c com ed y m Hr) as [_ Hr'].
    destruct (consputc_represents BACKSPACE _ _ Hr') as (c' & R & H' & _). exists c'. erewrite bind_Ok by exact R. done. }
  unfold bind at 1, get. pose proof (rp_bound _ _ Hr) as Hb. cbn in Hb.
  assert ((u32 (ie c - ir c) <? INPUT_BUF) = (length (com ++ ed) <? INPUT_BUF)%nat) as ->.
  { rewrite (rp_e _ _ Hr). cbn [committed editing]. rewrite u32_diff by (rewrite length_app; lia).
    destruct (Z.ltb_spec (length (com ++ ed)) INPUT_BUF), (Nat.ltb_spec (length (com ++ ed)) INPUT_BUF); (done || lia). }
  destruct (negb (x =? 0) && _) eqn:Hc; [|by exists c]. apply andb_true_iff in Hc as [Hx0 Hlt%Nat.ltb_lt].
  set (y := if x =? 13 then 10 else x). assert (is_u8 y) as Hy by (unfold is_u8, y; destruct (x =? 13); lia).
  cbn zeta. rewrite bind_modify. set (c1 := set_input _ _ _ _ c).
  pose proof (represents_commit c com ed y m Hr Hlt Hy) as Hcommit. cbn zeta in Hcommit. fold c1 in Hcommit.
  destruct (consputc_ok y c1) as (c2 & R & Hs2 & Hi2); [by apply Hr|]. erewrite bind_Ok by exact R.
  unfold bind at 1, get. pose proof Hi2 as (I1 & I2 & I3 & I4 & I5 & _).
  assert ((ie c2 =? u32 (ir c2 + INPUT_BUF)) = (length (com ++ ed ++ [y]) =? INPUT_BUF)%nat) as ->.
  { rewrite I4, I2. cbn. rewrite (rp_e _ _ Hr), u32_succ_add. cbn [committed editing]. rewrite !length_app in *. cbn [length].
    apply eq_true_iff_eq. rewrite Z.eqb_eq, Nat.eqb_eq. unfold INPUT_BUF in *. split; [intros E%u32_add_inj; lia|intros E; f_equal; lia]. }
  destruct (_ || _) eqn:Hcond.
  - rewrite bind_modify. eexists. split; [reflexivity|].
    assert (represents (set_input (ibuf c2) (ir c2) (ie c2) (ie c2) c2) (Line (com ++ ed ++ [y]) [] m)) as H2.
    { eapply represents_same; [exact Hcommit|exact Hs2|]. unfold same_input. cbn. rewrite I1, I2, I4, I5. split_and!; try done. apply Hi2. }
    destruct (represents_call Wakeup _ _ H2) as (c3 & [= <-] & H3). exact H3.
  - assert (y ≠ 10) by (intros E; rewrite E in Hcond; discriminate).
    eexists. split; [reflexivity|]. eapply represents_same; [|exact Hs2|exact Hi2]. by apply represents_store.
Qed.

Lemma intr_loop_spec getc dump c a : represents c a → Forall (λ x, x < 256) getc →
  ∃ c', intr_loop getc dump c = Ok (a_chars getc dump a).2 c' ∧ represents c' (a_chars getc dump a).1.
Proof.
  intros Hr Hg. revert dump c a Hr. induction Hg as [|x getc Hx Hg IH]; intros dump c a Hr; cbn [intr_loop a_chars]; [by exists c|].
  destruct (Z.ltb_spec x 0); [by exists c|]. destruct (intr_char_spec x c a Hr) as (c1 & R & H1); [lia|].
  erewrite bind_Ok by exact R. destruct (a_char x a) as [a1 d]. by apply IH.
Qed.

Lemma consoleintr_spec getc c a : represents c a → Forall (λ x, x < 256) getc →
  ∃ c', consoleintr getc c = Ok tt c' ∧ represents c' (a_intr getc a).
Proof.
  intros Hr Hg. unfold consoleintr, a_intr. destruct (represents_call Acquire c a Hr) as (c1 & R1 & H1).
  erewrite bind_Ok by exact R1. destruct (intr_loop_spec getc false c1 _ H1 Hg) as (c2 & R2 & H2).
  erewrite bind_Ok by exact R2. destruct (a_chars getc false (push Acquire a)) as [a2 dump]. cbn [fst snd] in *.
  destruct (represents_call Release c2 a2 H2) as (c3 & R3 & H3). erewrite bind_Ok by exact R3.
  destruct dump; [by apply represents_call|by exists c3].
Qed.

(** Taking the oldest committed byte. *)
Lemma represents_take c x com ed m : represents c (Line (x :: com) ed m) →
  nth (in_slot (ir c)) (ibuf c) 0 = x ∧
  represents (set_input (ibuf c) (u32 (ir c + 1)) (iw c) (ie c) c) (Line com ed m).
Proof.
  intros []. cbn in *. split; [exact (queue_front INPUT_BUF _ _ _ _ rp_ring0)|].
  split; cbn; try done.
  - exact (queue_pop INPUT_BUF input_pos input_divides _ _ _ _ rp_ring0).
  - apply u32_range.
  - rewrite rp_w0. unfold u32. rewrite Zplus_mod_idemp_l. f_equal. lia.
  - rewrite rp_e0. unfold u32. rewrite Zplus_mod_idemp_l. f_equal. lia.
Qed.

Lemma read_return {A} (r : A) c a : represents c a →
  ∃ c', (do! called Release in do! called Ilock in ret r) c = Ok r c' ∧ represents c' (push Ilock (push Release a)).
Proof.
  intros Hr. destruct (represents_call Release c a Hr) as (c1 & R1 & H1). destruct (represents_call Ilock c1 _ H1) as (c2 & R2 & H2).
  exists c2. erewrite bind_Ok by exact R1. erewrite bind_Ok by exact R2. done.
Qed.

Lemma cons_read_spec killed target n acc fuel c com ed m :
  represents c (Line com ed m) → n ≤ target → is_s32 target → (length com + 1 < fuel)%nat →
  ∃ c', read_loop killed target n acc fuel c = Ok (a_read killed target n acc (Line com ed m)).1 c' ∧
    represents c' (a_read killed target n acc (Line com ed m)).2.
Proof.
  revert n acc c com. induction fuel as [|fuel IH]; intros n acc c com Hr Hn Ht Hf; [lia|]. cbn [read_loop].
  unfold a_read. cbn [committed editing made]. destruct com as [|x com]; cbn [a_take];
    (destruct (Z.leb_spec n 0); [by apply read_return|]); unfold bind at 1, get; rewrite (read_empty c _ Hr); cbn [committed].
  - rewrite bool_decide_true by done. destruct killed; [by apply read_return|by exists c].
  - rewrite bool_decide_false by done. destruct (represents_take c x com ed m Hr) as [Hx Hr']. rewrite Hx, bind_modify.
    destruct (x =? 4).
    + unfold is_s32 in Ht. rewrite u32_small by (unfold is_u32; lia). destruct (n <? target).
      * rewrite bind_modify. apply read_return. cbn [set_input ibuf ir iw ie].
        replace (u32 (u32 (ir c + 1) - 1)) with (ir c); [by destruct Hr; split|].
        rewrite u32_pred_add, Z.add_0_r. symmetry. apply u32_small. apply Hr.
      * rewrite bind_ret. by apply read_return.
    + destruct (x =? 10); [by apply read_return|].
      destruct (IH (n - 1) (acc ++ [x]) _ com Hr') as (c' & R & H'); [lia|done|simpl in Hf; lia|].
      exists c'. exact (conj R H').
Qed.

(** ** Sequences of interrupts and reads *)

Inductive op :=
| OIntr (getc : list Z)
| ORead (killed : bool) (n : Z)
| OResume (killed : bool) (target n : Z) (acc : list Z).

Definition op_ok (o : op) : Prop :=
  match o with
  | OIntr getc => Forall (λ x, x < 256) getc
  | ORead _ n => is_s32 n
  | OResume _ target n _ => n ≤ target ∧ is_s32 target
  end.

Definition do_op (o : op) : M cons (option read_out) :=
  match o with
  | OIntr getc => do! consoleintr getc in ret None
  | ORead killed n => let! r := consoleread killed n in ret (Some r)
  | OResume killed target n acc => let! r := consoleread_resume killed target n acc in ret (Some r)
  end.
Fixpoint do_ops (l : list op) : M cons (list (option read_out)) :=
  match l with
  | [] => ret []
  | o :: l => let! r := do_op o in let! rs := do_ops l in ret (r :: rs)
  end.

Definition spec_op (o : op) (a : line) : option read_out * line :=
  match o with
  | OIntr getc => (None, a_intr getc a)
  | ORead killed n => let '(r, a) := a_read killed n n [] (push Acquire (push Iunlock a)) in (Some r, a)
  | OResume killed target n acc => let '(r, a) := a_read killed target n acc a in (Some r, a)
  end.
Fixpoint spec_ops (l : list op) (a : line) : list (option read_out) * line :=
  match l with
  | [] => ([], a)
  | o :: l => let '(r, a) := spec_op o a in let '(rs, a) := spec_ops l a in (r :: rs, a)
  end.

Lemma committed_fuel c a : represents c a → (length (committed a) + 1 < READ_FUEL)%nat.
Proof. intros H. pose proof (rp_bound c a H). unfold READ_FUEL, INPUT_BUF. lia. Qed.

Lemma do_op_spec o c a : represents c a → op_ok o →
  ∃ c', do_op o c = Ok (spec_op o a).1 c' ∧ represents c' (spec_op o a).2.
Proof.
  intros Hr Ho. destruct o as [getc|killed n|killed target n acc]; cbn [do_op spec_op op_ok] in *.
  - destruct (consoleintr_spec getc c a Hr Ho) as (c' & R & H'). exists c'. erewrite bind_Ok by exact R. done.
  - unfold consoleread. destruct (represents_call Iunlock c a Hr) as (c1 & R1 & H1).
    destruct (represents_call Acquire c1 _ H1) as (c2 & R2 & H2). pose proof (committed_fuel _ _ H2) as Hf.
    destruct (cons_read_spec killed n n [] READ_FUEL c2 _ _ _ H2 ltac:(lia) Ho Hf) as (c' & R & H').
    exists c'. rewrite bind_assoc. erewrite bind_Ok by exact R1. rewrite bind_assoc. erewrite bind_Ok by exact R2.
    erewrite bind_Ok by exact R. unfold push in *. cbn [committed editing made] in *.
    by destruct (a_read killed n n [] _).
  - destruct Ho as [Hn Ht]. destruct a as [com ed m]. pose proof (committed_fuel _ _ Hr) as Hf.
    destruct (cons_read_spec killed target n acc READ_FUEL c com ed m Hr Hn Ht Hf) as (c' & R & H').
    exists c'. unfold consoleread_resume. erewrite bind_Ok by exact R. by destruct (a_read killed target n acc _).
Qed.

(** C27: the console refines a line discipline on lists.  From a state that
    stands for the committed bytes, the bytes being edited and the calls made,
    every sequence of keyboard interrupts, reads and resumed reads, with
    indices that wrap around at 2^32, runs without a panic and gives the
    results, the queues and the calls (locking, wakeups) of the list
    specification. *)
Theorem console_refines_lines ops c a :
  represents c a → Forall op_ok ops →
  ∃ c', do_ops ops c = Ok (spec_ops ops a).1 c' ∧ represents c' (spec_ops ops a).2.
Proof.
  intros Hr Ho. revert c a Hr. induction Ho as [|o ops Ho Hos IH]; intros c a Hr; cbn [do_ops spec_ops]; [by exists c|].
  destruct (do_op_spec o c a Hr Ho) as (c1 & R1 & H1). erewrite bind_Ok by exact R1.
  destruct (spec_op o a) as [r a1]. destruct (IH c1 a1 H1) as (c2 & R2 & H2). erewrite bind_Ok by exact R2.
  destruct (spec_ops ops a1) as [rs a2]. exists c2. split; [reflexivity|done].
Qed.

(** The console at boot, with indices about to wrap around. *)
Definition cons_boot (r : Z) : cons := Cons (replicate 2000 0) 0 [] (replicate 128 0) r r r false true [].

Lemma cons_boot_represents r : is_u32 r → represents (cons_boot r) (Line [] [] []).
Proof.
  intros Hr. assert (r = u32 (r + 0)) as E by (rewrite Z.add_0_r; symmetry; by apply u32_small).
  split; cbn; try done; [|set_solver]. split; cbn; [done|lia|done].
Qed.

(** Typing "ab", backspace, "c" and return; a read of 10 bytes gets "ac\n". *)
Lemma console_refines_lines_witness :
  ∃ c', do_ops [OIntr [97; 98; 8; 99; 13]; ORead false 10] (cons_boot (2 ^ 32 - 1)) = Ok [None; Some (RRet 3 [97; 99; 10])] c'.
Proof.
  destruct (console_refines_lines [OIntr [97; 98; 8; 99; 13]; ORead false 10] (cons_boot (2 ^ 32 - 1)) (Line [] [] [])) as (c' & R & _).
  - apply cons_boot_represents. split; [discriminate|reflexivity].
  - repeat constructor; discriminate.
  - exists c'. exact R.
Defined.
