(* ===== verification/Procdump.v ===== *)
(** * The process listing and the first return of a process: proc.c

    procdump prints the process table on the console, with the return addresses
    on the stack of a process that sleeps, without taking a lock.  forkret is
    where a new process starts: it releases the lock of the scheduler, and the
    first one initializes the file system.  The theorem gives the text procdump
    sends; it is proved from the text cprintf sends for any format. *)
From S2P Require Import Prelude Str Printf Spinlock Proc Console.

Definition states (st : procstate) : list Z :=
  match st with
  | UNUSED => chars "unused" | EMBRYO => chars "embryo" | SLEEPING => chars "sleep " | RUNNABLE => chars "runble" | RUNNING => chars "run   " | ZOMBIE => chars "zombie"
  end.

(** The bytes of a C string in an array. *)
Fixpoint cstring (l : list Z) : list Z := match l with [] => [] | x :: l => if x =? 0 then [] else x :: cstring l end.

(** [for(i = 0; i < 10 && pc[i] != 0; i++)] *)
Fixpoint dump_pcs (pcs : list Z) : M cons unit :=
  match pcs with
  | [] => ret tt
  | pc :: pcs => if pc =? 0 then ret tt else do! cprintf (λ _, pc) (λ _, []) (Some (chars " %p")) in dump_pcs pcs
  end.

(** The strings are addressed by 1 and 2. *)
Definition dump_args (pid : Z) (i : nat) : Z := match i with O => pid | S O => 1 | _ => 2 end.
Definition dump_one (rd : Z → Z) (p : proc) : M cons unit :=
  if bool_decide (p_state p = UNUSED) then ret tt else
  do! cprintf (dump_args (p_pid p)) (λ a, if a =? 1 then states (p_state p) else cstring (p_name p)) (Some (chars "%d %s %s")) in
  do! (if bool_decide (p_state p = SLEEPING) then dump_pcs (getcallerpcs rd (u32 (c_ebp (p_context p) + 8))) else ret tt) in
  cprintf (λ _, 0) (λ _, []) (Some [10]).

Definition procdump (rd : Z → Z) (table : list proc) : M cons unit := for_each table (dump_one rd).

(** ** forkret *)

Definition ROOTDEV : Z := 1.
Record fret (E : Type) := mkFret { fr_first : bool; fr_lock : sst; fr_env : E }.
Arguments mkFret {E}.
Arguments fr_first {E}.
Arguments fr_lock {E}.
Arguments fr_env {E}.

Section forkret.
(** The initialization of the file system and of the log. *)
Context {E : Type} (me : nat) (iinit initlog : Z → M E unit).
Definition on_env {A} (m : M E A) : M (fret E) A := zoom fr_env (λ e s, mkFret (fr_first s) (fr_lock s) e) m.
Definition forkret : M (fret E) unit :=
  do! zoom fr_lock (λ k s, mkFret (fr_first s) k (fr_env s)) (release me) in
  let! first := gets fr_first in
  if first : bool then
    do! modify (λ s, mkFret false (fr_lock s) (fr_env s)) in
    do! on_env (iinit ROOTDEV) in
    on_env (initlog ROOTDEV)
  else ret tt.
End forkret.

(** ** What cprintf sends *)

(** The text of a number, in base 10 with its sign or in base 16. *)
Definition num_text (x base : Z) (sign : bool) : list Z := default [] (int_text lower_digits x base sign).

Fixpoint ctext (args : nat → Z) (strs : Z → list Z) (fmt : list Z) (argp : nat) : list Z :=
  match fmt with
  | [] => []
  | ch :: fmt =>
      let c := Z.land ch 0xff in
      if negb (c =? 37) then c :: ctext args strs fmt argp
      else
        match fmt with
        | [] => []
        | ch :: fmt =>
            let c := Z.land ch 0xff in
            if c =? 100 then num_text (s32 (args argp)) 10 true ++ ctext args strs fmt (S argp)
            else if (c =? 120) || (c =? 112) then num_text (s32 (args argp)) 16 false ++ ctext args strs fmt (S argp)
            else if c =? 115 then (if args argp =? 0 then null_text else strs (args argp)) ++ ctext args strs fmt (S argp)
            else if c =? 37 then 37 :: ctext args strs fmt argp
            else 37 :: c :: ctext args strs fmt argp
        end
  end.

(** The serial line gets the text; the screen stays usable. *)
Definition sends (c c' : cons) (t : list Z) : Prop := screen_ok c' ∧ uart c' = uart c ++ (u8 <$> t) ∧ locking c' = locking c.

Lemma sends_trans c1 c2 c3 t1 t2 : sends c1 c2 t1 → sends c2 c3 t2 → sends c1 c3 (t1 ++ t2).
Proof. intros (_ & U1 & L1) (H2 & U2 & L2). split; [done|]. split; [by rewrite U2, U1, fmap_app, app_assoc|congruence]. Qed.
Lemma sends_nil c : screen_ok c → sends c c [].
Proof. intros Hc. split; [done|]. by rewrite app_nil_r. Qed.

Lemma consputc_sends x c : screen_ok c → x ≠ BACKSPACE → ∃ c', consputc x c = Ok tt c' ∧ sends c c' [x].
Proof.
  intros (Hl & Hp & Hn) Hx. unfold consputc. erewrite (bind_Ok get) by reflexivity. rewrite Hn, (proj2 (Z.eqb_neq _ _) Hx). unfold uartputc. rewrite bind_modify.
  destruct (cgaputc_ok x (set_uart (uart c ++ [u8 x]) c)) as (c' & R & H1 & H2 & H3); [done|]. exists c'. split; [done|]. split; [done|]. split; [by rewrite H3|]. by destruct H2 as (_ & _ & _ & _ & _ & ->).
Qed.
Lemma print_sends l c : screen_ok c → Forall (λ x, x ≠ BACKSPACE) l → ∃ c', print_chars l c = Ok tt c' ∧ sends c c' l.
Proof.
  intros Hc Hl. revert c Hc. induction Hl as [|x l Hx _ IH]; intros c Hc; [exists c; split; [done|by apply sends_nil]|].
  destruct (consputc_sends x c Hc Hx) as (c1 & R1 & S1). destruct (IH c1 (proj1 S1)) as (c2 & R2 & S2). exists c2. split; [|exact (sends_trans _ _ _ _ _ S1 S2)].
  unfold print_chars. cbn [for_each]. mstep R1. exact R2.
Qed.

(** A 32-bit number has at most 16 digits. *)
Lemma digits_some base : 10 ≤ base ≤ 16 → ∀ (n : nat) x, 0 ≤ x < base ^ n → (0 < n)%nat → ∃ ds, digit_loop lower_digits base x n = Some ds ∧ (length ds ≤ n)%nat ∧ Forall (λ d, d ≠ BACKSPACE) ds.
Proof.
  intros Hb. assert (∀ i, nth i lower_digits 0 ≠ BACKSPACE) as Hd by (intros i; do 17 (destruct i as [|i]; [done|]); done).
  induction n as [|n IH]; intros x Hx Hn; [lia|]. cbn [digit_loop]. destruct (Z.eqb_spec (x / base) 0) as [H0|H0].
  { eexists. split; [done|]. split; [cbn; lia|]. constructor; [apply Hd|constructor]. }
  rewrite Nat2Z.inj_succ, Z.pow_succ_r in Hx by lia. assert (0 ≤ x / base < base ^ n) as Hq by (split; [apply Z.div_pos; lia|apply Z.div_lt_upper_bound; lia]).
  destruct (IH (x / base) Hq) as (ds & R & Hl & Hf).
  { destruct n; [|lia]. change (base ^ 0%nat) with 1 in Hq. lia. }
  rewrite R. eexists. split; [reflexivity|]. split; [cbn; lia|]. constructor; [apply Hd|done].
Qed.
Lemma digits_fit base x : 10 ≤ base ≤ 16 → is_u32 x → ∃ ds, digit_loop lower_digits base x BUFSIZE = Some ds ∧ (length ds < BUFSIZE)%nat ∧ Forall (λ d, d ≠ BACKSPACE) ds.
Proof.
  intros Hb Hx. assert (2 ^ 32 ≤ base ^ 15%nat) as Hp by (transitivity (10 ^ 15); [done|apply Z.pow_le_mono_l; lia]).
  destruct (digits_some base Hb 15 x) as (ds & R & Hl & Hf); [unfold is_u32 in Hx; lia|lia|]. exists ds. split; [|split; [unfold BUFSIZE; lia|done]].
  assert (∀ n x ds, digit_loop lower_digits base x n = Some ds → digit_loop lower_digits base x (S n) = Some ds) as Hmono.
  { clear. induction n as [|n IH]; intros x ds; [done|]. intros H. change (digit_loop lower_digits base x (S (S n))) with (let d := nth (Z.to_nat (x `mod` base)) lower_digits 0 in
      if x / base =? 0 then Some [d] else (λ l, d :: l) <$> digit_loop lower_digits base (x / base) (S n)). cbn [digit_loop] in H. cbn zeta. destruct (_ =? _); [done|].
    destruct (digit_loop lower_digits base (x / base) n) as [l|] eqn:E; [|done]. by rewrite (IH _ _ E). }
  by apply (Hmono 15%nat).
Qed.
Lemma printint_sends x base sign c : screen_ok c → 10 ≤ base ≤ 16 → is_s32 x → ∃ c', cons_printint x base sign c = Ok tt c' ∧ sends c c' (num_text x base sign).
Proof.
  intros Hc Hb Hx. unfold cons_printint, num_text, int_text. set (neg := sign && (x <? 0)).
  destruct (digits_fit base (if neg then u32 (- x) else u32 x) Hb) as (ds & R & Hl & Hf); [destruct neg; apply u32_range|]. rewrite R. cbn [mbind option_bind].
  destruct neg; [rewrite (proj2 (Nat.ltb_lt _ _) Hl)|]; cbn [from_option id]; (apply print_sends; [done|]); apply Forall_rev; [|done].
  apply list.Forall_app. split; [done|]. constructor; [done|constructor].
Qed.

(** Every string that may be printed is without the backspace code. *)
Lemma cprintf_loop_sends args strs : (∀ a, Forall (λ x, x ≠ BACKSPACE) (strs a)) → ∀ n fmt, (length fmt ≤ n)%nat → ∀ c argp, screen_ok c →
  ∃ c', cprintf_loop args strs fmt argp c = Ok tt c' ∧ sends c c' (ctext args strs fmt argp).
Proof.
  intros Hs. assert (∀ ch, Z.land ch 0xff ≠ BACKSPACE) as Hch.
  { intros ch. change 0xff with (Z.ones 8). rewrite Z.land_ones by lia. pose proof (Z.mod_pos_bound ch (2 ^ 8) ltac:(lia)). unfold BACKSPACE. lia. }
  induction n as [|n IH]; intros [|ch fmt] Hn c argp Hc; cbn [length] in Hn; try lia; try (exists c; split; [done|by apply sends_nil]).
  cbn [cprintf_loop ctext]. destruct (Z.eqb_spec (Z.land ch 0xff) 37) as [E|E]; cbn [negb].
  2:{ destruct (consputc_sends _ c Hc (Hch ch)) as (c1 & R1 & S1). mstep R1. destruct (IH fmt ltac:(lia) c1 argp (proj1 S1)) as (c2 & R2 & S2).
      exists c2. split; [done|]. exact (sends_trans _ _ _ _ _ S1 S2). }
  destruct fmt as [|ch2 fmt]; [exists c; split; [done|by apply sends_nil]|]. cbn [length] in Hn.
  assert (∀ m t ap, (∃ c1, m c = Ok tt c1 ∧ sends c c1 t) → ∃ c', bind m (λ _, cprintf_loop args strs fmt ap) c = Ok tt c' ∧ sends c c' (t ++ ctext args strs fmt ap)) as Hgo.
  { intros m t ap (c1 & R1 & S1). mstep R1. destruct (IH fmt ltac:(lia) c1 ap (proj1 S1)) as (c2 & R2 & S2). exists c2. split; [done|]. exact (sends_trans _ _ _ _ _ S1 S2). }
  assert (∀ x, is_s32 (s32 x)) as Hs32 by (intros x; apply s32_range).
  destruct (Z.land ch2 0xff =? 100); [apply Hgo, printint_sends; [done|lia|done]|].
  destruct ((Z.land ch2 0xff =? 120) || (Z.land ch2 0xff =? 112)); [apply Hgo, printint_sends; [done|lia|done]|].
  destruct (Z.land ch2 0xff =? 115).
  { apply Hgo, print_sends; [done|]. destruct (args argp =? 0); [|apply Hs]. apply (bool_decide_unpack _). vm_compute. reflexivity. }
  destruct (Z.land ch2 0xff =? 37); [apply (Hgo _ [37]), consputc_sends; done|].
  destruct (consputc_sends 37 c Hc ltac:(done)) as (c1 & R1 & S1). mstep R1. destruct (consputc_sends _ c1 (proj1 S1) (Hch ch2)) as (c2 & R2 & S2). mstep R2.
  destruct (IH fmt ltac:(lia) c2 argp (proj1 S2)) as (c3 & R3 & S3). exists c3. split; [done|]. exact (sends_trans _ _ _ _ _ S1 (sends_trans _ _ _ _ _ S2 S3)).
Qed.
Lemma cprintf_sends args strs fmt c : screen_ok c → (∀ a, Forall (λ x, x ≠ BACKSPACE) (strs a)) →
  ∃ c', cprintf args strs (Some fmt) c = Ok tt c' ∧ sends c c' (ctext args strs fmt 0).
Proof.
  intros Hc Hs. unfold cprintf. rewrite bind_gets. set (lkd := locking c).
  assert (∃ c1, (if lkd then called Acquire else ret tt) c = Ok tt c1 ∧ screen_ok c1 ∧ uart c1 = uart c ∧ locking c1 = locking c) as (c1 & R1 & H1 & U1 & L1).
  { destruct lkd; eexists; (split; [reflexivity|]); done. }
  mstep R1. destruct (cprintf_loop_sends args strs Hs (length fmt) fmt ltac:(done) c1 0%nat H1) as (c2 & R2 & S2 & U2 & L2). mstep R2.
  assert (∃ c3, (if lkd then called Release else ret tt) c2 = Ok tt c3 ∧ screen_ok c3 ∧ uart c3 = uart c2 ∧ locking c3 = locking c2) as (c3 & R3 & H3 & U3 & L3).
  { destruct lkd; eexists; (split; [reflexivity|]); done. }
  exists c3. split; [done|]. split; [done|]. split; [congruence|congruence].
Qed.

Lemma pc_format pc strs : ctext (λ _, pc) strs (chars " %p") 0 = chars " " ++ num_text (s32 pc) 16 false.
Proof. transitivity (chars " " ++ num_text (s32 pc) 16 false ++ []); [reflexivity|by rewrite app_nil_r]. Qed.
Lemma line_format pid (st nm : list Z) : ctext (dump_args pid) (λ a, if a =? 1 then st else nm) (chars "%d %s %s") 0 = num_text (s32 pid) 10 true ++ chars " " ++ st ++ chars " " ++ nm.
Proof. transitivity (num_text (s32 pid) 10 true ++ chars " " ++ st ++ chars " " ++ nm ++ []); [reflexivity|by rewrite app_nil_r]. Qed.

(** ** The listing *)

Fixpoint pcs_text (pcs : list Z) : list Z :=
  match pcs with [] => [] | pc :: pcs => if pc =? 0 then [] else chars " " ++ num_text (s32 pc) 16 false ++ pcs_text pcs end.
Definition proc_line (rd : Z → Z) (p : proc) : list Z :=
  if bool_decide (p_state p = UNUSED) then [] else
  num_text (s32 (p_pid p)) 10 true ++ chars " " ++ states (p_state p) ++ chars " " ++ cstring (p_name p) ++
  (if bool_decide (p_state p = SLEEPING) then pcs_text (getcallerpcs rd (u32 (c_ebp (p_context p) + 8))) else []) ++ [10].

Lemma dump_pcs_sends pcs : ∀ c, screen_ok c → ∃ c', dump_pcs pcs c = Ok tt c' ∧ sends c c' (pcs_text pcs).
Proof.
  induction pcs as [|pc pcs IH]; intros c Hc; cbn [dump_pcs pcs_text]; [exists c; split; [done|by apply sends_nil]|].
  destruct (pc =? 0); [exists c; split; [done|by apply sends_nil]|].
  destruct (cprintf_sends (λ _, pc) (λ _, []) (chars " %p") c Hc ltac:(intros; constructor)) as (c1 & R1 & S1). mstep R1. destruct (IH c1 (proj1 S1)) as (c2 & R2 & S2).
  exists c2. split; [exact R2|]. rewrite pc_format in S1. rewrite app_assoc. exact (sends_trans _ _ _ _ _ S1 S2).
Qed.

Lemma cstring_in l x : x ∈ cstring l → x ∈ l.
Proof. induction l as [|y l IH]; cbn; [done|]. destruct (y =? 0); [intros H; by apply not_elem_of_nil in H|]. rewrite !elem_of_cons. tauto. Qed.

Lemma dump_one_sends rd p c : screen_ok c → Forall is_u8 (p_name p) → ∃ c', dump_one rd p c = Ok tt c' ∧ sends c c' (proc_line rd p).
Proof.
  intros Hc Hn. unfold dump_one, proc_line. case_bool_decide as Hu; [exists c; split; [done|by apply sends_nil]|].
  destruct (cprintf_sends (dump_args (p_pid p)) (λ a, if a =? 1 then states (p_state p) else cstring (p_name p)) (chars "%d %s %s") c Hc) as (c1 & R1 & S1).
  { intros a. destruct (a =? 1).
    - apply (bool_decide_unpack _). destruct (p_state p); vm_compute; reflexivity.
    - apply list.Forall_forall. intros x Hx%cstring_in. rewrite list.Forall_forall in Hn. specialize (Hn x Hx). unfold is_u8, BACKSPACE in *. lia. }
  mstep R1. set (pcs := getcallerpcs _ _).
  assert (∃ c2, (if bool_decide (p_state p = SLEEPING) then dump_pcs pcs else ret tt) c1 = Ok tt c2 ∧ sends c1 c2 (if bool_decide (p_state p = SLEEPING) then pcs_text pcs else [])) as (c2 & R2 & S2).
  { case_bool_decide; [apply dump_pcs_sends, S1|]. exists c1. split; [done|apply sends_nil, S1]. }
  mstep R2. destruct (cprintf_sends (λ _, 0) (λ _, []) [10] c2 (proj1 S2) ltac:(intros; constructor)) as (c3 & R3 & S3). exists c3. split; [done|].
  rewrite line_format in S1. change (ctext (λ _, 0) (λ _, []) [10] 0) with [10] in S3. pose proof (sends_trans _ _ _ _ _ S1 (sends_trans _ _ _ _ _ S2 S3)) as S.
  by rewrite <- !app_assoc in S.
Qed.

(** procdump lists the processes in use, one line each, in the order of the table. *)
Lemma procdump_lists rd table c : screen_ok c → Forall (λ p, Forall is_u8 (p_name p)) table →
  ∃ c', procdump rd table c = Ok tt c' ∧ sends c c' (concat (proc_line rd <$> table)).
Proof.
  intros Hc Ht. revert c Hc. induction Ht as [|p table Hp _ IH]; intros c Hc; [exists c; split; [done|by apply sends_nil]|].
  destruct (dump_one_sends rd p c Hc Hp) as (c1 & R1 & S1). destruct (IH c1 (proj1 S1)) as (c2 & R2 & S2). exists c2. split; [|exact (sends_trans _ _ _ _ _ S1 S2)].
  unfold procdump. cbn [for_each]. mstep R1. exact R2.
Qed.

(** The file system is initialized by the first process that returns, and by no
    other. *)
Lemma forkret_once {E} me (iinit initlog : Z → M E unit) s s' : forkret me iinit initlog s = Ok tt s' →
  fr_first s' = false ∧ (if fr_first s then ∃ e, iinit ROOTDEV (fr_env s) = Ok tt e ∧ initlog ROOTDEV e = Ok tt (fr_env s') else fr_env s' = fr_env s).
Proof.
  intros R. unfold forkret in R. apply bind_Ok_inv in R as ([] & s1 & R1 & R). unfold zoom in R1. destruct (release me (fr_lock s)) as [[] k| | |]; try done. injection R1 as <-.
  rewrite bind_gets in R. cbn [fr_first] in R. destruct (fr_first s) eqn:Ef; [|by injection R as <-]. rewrite bind_modify in R. cbn [fr_lock fr_env] in R.
  apply bind_Ok_inv in R as ([] & s2 & R2 & R). unfold on_env, zoom in R, R2. cbn [fr_env fr_first fr_lock] in R2. destruct (iinit ROOTDEV (fr_env s)) as [[] e| | |] eqn:Ei; try done. injection R2 as <-.
  cbn [fr_env fr_first fr_lock] in R. destruct (initlog ROOTDEV e) as [[] e2| | |] eqn:El; try done. injection R as <-. split; [done|]. by exists e.
Qed.
