(* ===== verification/Kbd.v ===== *)
(** * The keyboard: kbd.c and kbd.h

    The translation of scan codes to characters with its modifier state, and
    its use as the [getc] of the console's interrupt handler.  What the
    controller's two ports give is an argument. *)
From S2P Require Import Prelude Str Printf Ring Console.

Definition KBS_DIB : Z := 0x01.
Definition NO : Z := 0.
Definition SHIFT : Z := 1.
Definition CTL : Z := 2.
Definition ALT : Z := 4.
Definition CAPSLOCK : Z := 8.
Definition NUMLOCK : Z := 16.
Definition SCROLLLOCK : Z := 32.
Definition E0ESC : Z := 64.

(** A table of 256 bytes: the first entries, then single ones. *)
Definition key_table (first : list Z) (others : list (Z * Z)) : list Z :=
  foldl (λ t x, <[Z.to_nat x.1 := u8 x.2]> t) (first ++ replicate (256 - length first) NO) others.

Definition shiftcode : list Z :=
  key_table [] [(0x1D, CTL); (0x2A, SHIFT); (0x36, SHIFT); (0x38, ALT); (0x9D, CTL); (0xB8, ALT)].
Definition togglecode : list Z :=
  key_table [] [(0x3A, CAPSLOCK); (0x45, NUMLOCK); (0x46, SCROLLLOCK)].

(** Arrows and the like; the same in the three maps. *)
Definition special_keys : list (Z * Z) :=
  [(0xC8, 0xE2); (0xD0, 0xE3); (0xC9, 0xE6); (0xD1, 0xE7); (0xCB, 0xE4); (0xCD, 0xE5);
   (0x97, 0xE0); (0xCF, 0xE1); (0xD2, 0xE8); (0xD3, 0xE9)].

(** The keys 0x37 to 0x57: the numeric pad. *)
Definition keypad : list Z :=
  [42; NO; 32] ++ replicate 13 NO ++ chars "789-456+1230." ++ replicate 4 NO.
Definition normalmap : list Z :=
  key_table ([NO; 0x1B] ++ chars "1234567890-=" ++ [8; 9] ++ chars "qwertyuiop[]" ++ [10; NO] ++
             chars "asdfghjkl;'`" ++ [NO; 92] ++ chars "zxcvbnm,./" ++ [NO] ++ keypad)
            ((0x9C, 10) :: (0xB5, 47) :: special_keys).
Definition shiftmap : list Z :=
  key_table ([NO; 0x1B] ++ chars "!@#$%^&*()_+" ++ [8; 9] ++ chars "QWERTYUIOP{}" ++ [10; NO] ++
             chars "ASDFGHJKL:" ++ [34; 126; NO] ++ chars "|ZXCVBNM<>?" ++ [NO] ++ keypad)
            ((0x9C, 10) :: (0xB5, 47) :: special_keys).
(** [C(x)], stored in an unsigned byte. *)
Definition ctl (x : Z) : Z := u8 (x - 64).
Definition ctlmap : list Z :=
  key_table (replicate 16 NO ++ (ctl <$> chars "QWERTYUIOP") ++ [NO; NO; 13; NO] ++ (ctl <$> chars "ASDFGHJKL") ++
             [NO; NO; NO; NO] ++ (ctl <$> [92] ++ chars "ZXCVBNM") ++ [NO; NO; ctl 47; NO; NO])
            ((0x9C, 13) :: (0xB5, ctl 47) :: special_keys).

Definition entry (t : list Z) (i : Z) : Z := nth (Z.to_nat i) t 0.
Definition charcode (i : Z) : list Z := if i =? 0 then normalmap else if i =? 1 then shiftmap else ctlmap.

(** [kbdgetc]: the character and the new modifier state, from the status and
    data ports. *)
Definition kbdgetc (shift st data : Z) : Z * Z :=
  if Z.land st KBS_DIB =? 0 then (-1, shift)
  else if data =? 0xE0 then (0, Z.lor shift E0ESC)
  else if truthy (Z.land data 0x80) then
    let data := if truthy (Z.land shift E0ESC) then data else Z.land data 0x7F in
    (0, Z.ldiff shift (Z.lor (entry shiftcode data) E0ESC))
  else
    let '(data, shift) :=
      if truthy (Z.land shift E0ESC) then (Z.lor data 0x80, Z.ldiff shift E0ESC) else (data, shift) in
    let shift := Z.lor shift (entry shiftcode data) in
    let shift := Z.lxor shift (entry togglecode data) in
    let c := entry (charcode (Z.land shift (Z.lor CTL SHIFT))) data in
    let c :=
      if truthy (Z.land shift CAPSLOCK) then
        if (97 <=? c) && (c <=? 122) then u32 (c + (65 - 97))
        else if (65 <=? c) && (c <=? 90) then u32 (c + (97 - 65))
        else c
      else c in
    (c, shift).

(** The characters of a series of port readings, and the state after it. *)
Fixpoint kbd_chars (shift : Z) (ports : list (Z * Z)) : list Z * Z :=
  match ports with
  | [] => ([], shift)
  | (st, data) :: ports =>
      let '(c, shift) := kbdgetc shift st data in
      let '(cs, shift) := kbd_chars shift ports in (c :: cs, shift)
  end.

Definition kbdintr (shift : Z) (ports : list (Z * Z)) : M cons Z :=
  let '(cs, shift) := kbd_chars shift ports in
  do! consoleintr cs in ret shift.

(** ** Properties *)

Lemma entry_byte t i : is_bytes t → is_u8 (entry t i).
Proof.
  intros Ht. unfold entry. rewrite nth_lookup. destruct (t !! Z.to_nat i) eqn:E; [|cbn; unfold is_u8; lia].
  by eapply Forall_lookup_1 in Ht.
Qed.

Lemma maps_bytes i : is_bytes (charcode i).
Proof.
  unfold charcode. assert (∀ t, forallb (λ x, (0 <=? x) && (x <? 256)) t = true → is_bytes t) as H.
  { intros t Ht. apply Forall_forall. intros x Hx. rewrite forallb_forall in Ht. specialize (Ht x Hx).
    unfold is_u8. apply andb_true_iff in Ht as [?%Z.leb_le ?%Z.ltb_lt]. lia. }
  destruct (i =? 0); [|destruct (i =? 1)]; apply H; vm_compute; reflexivity.
Qed.

Lemma kbdgetc_range shift st data : -1 ≤ (kbdgetc shift st data).1 < 256.
Proof.
  unfold kbdgetc. destruct (_ =? 0); [cbn; lia|]. destruct (_ =? 224); [cbn; lia|]. destruct (truthy _); [cbn; lia|].
  destruct (if truthy _ then _ else _) as [d s]. cbn [fst].
  pose proof (entry_byte _ d (maps_bytes (Z.land (Z.lxor (Z.lor s (entry shiftcode d)) (entry togglecode d)) (Z.lor CTL SHIFT)))) as He.
  set (c := entry _ d) in *. unfold is_u8 in He. destruct (truthy _); [|lia].
  destruct ((97 <=? c) && (c <=? 122)) eqn:E1; bool_to_prop; [rewrite u32_small by (unfold is_u32; lia); lia|].
  destruct ((65 <=? c) && (c <=? 90)) eqn:E2; bool_to_prop; [rewrite u32_small by (unfold is_u32; lia); lia|lia].
Qed.

Lemma kbd_chars_range shift ports : Forall (λ x, x < 256) (kbd_chars shift ports).1.
Proof.
  revert shift. induction ports as [|[st data] ports IH]; intros shift; cbn [kbd_chars]; [constructor|].
  pose proof (kbdgetc_range shift st data) as Hc. destruct (kbdgetc shift st data) as [c s]. specialize (IH s).
  destruct (kbd_chars s ports) as [cs s']. constructor; [apply Hc|done].
Qed.

(** The keyboard and the console together: whatever the controller delivers,
    the interrupt handler refines the line discipline on the translated
    characters. *)
Lemma kbdintr_refines shift ports c a : represents c a →
  ∃ c', kbdintr shift ports c = Ok (kbd_chars shift ports).2 c' ∧ represents c' (a_intr (kbd_chars shift ports).1 a).
Proof.
  intros Hr. unfold kbdintr. pose proof (kbd_chars_range shift ports) as Hg. destruct (kbd_chars shift ports) as [cs s].
  destruct (consoleintr_spec cs c a Hr Hg) as (c' & R & H'). exists c'. erewrite bind_Ok by exact R. done.
Qed.

(** Shift-a, then caps lock and a, then caps lock with shift and a. *)
Lemma kbd_example :
  (kbd_chars 0 ((λ d, (1, d)) <$> [0x2A; 0x1E; 0xAA; 0x1E; 0x3A; 0x1E; 0x2A; 0x1E])).1 = [0; 65; 0; 97; 0; 65; 0; 97].
Proof. reflexivity. Qed.

(** Control-slash has no control character: [C('/')] is negative and the byte
    table turns it into 239. *)
Lemma ctl_slash : (kbd_chars 0 ((λ d, (1, d)) <$> [0x1D; 0x35])).1 = [0; 239].
Proof. reflexivity. Qed.
