(* ===== verification/Umalloc.v ===== *)
(** * The user memory allocator: umalloc.c

    The free list is a circular list of headers in address order; a header is
    8 bytes and block sizes count headers.  The model keeps the header at every
    address, the [freep] pointer and the process's break; [sbrk] is the system
    call, of which only its documented behaviour is used: it fails, or returns
    the old break and moves it.  Sizes and pointers are 32-bit. *)
From S2P Require Import Prelude Str.

Record hdr := Hdr { h_ptr : Z; h_size : Z }.
Record ust := Ust { hd : Z → hdr; freep : Z; brk : Z }.

Definition set_hdr (a : Z) (x : hdr) : M ust unit :=
  modify (λ s, Ust (λ y, if y =? a then x else hd s y) (freep s) (brk s)).
Definition get_hdr (a : Z) : M ust hdr := gets (λ s, hd s a).
Definition set_freep (p : Z) : M ust unit := modify (λ s, Ust (hd s) p (brk s)).

(** [p + n] for a header pointer. *)
Definition plus (p n : Z) : Z := u32 (p + 8 * n).

Section umalloc.
(** The address of the static header [base], and whether [sbrk] can grow the
    process from a break by some amount. *)
Context (base : Z) (sbrk_ok : Z → Z → bool).

Definition sbrk (n : Z) : M ust Z := λ s,
  if sbrk_ok (brk s) n then Ok (brk s) (Ust (hd s) (freep s) (brk s + n)) else Ok (-1) s.

(** The loop of [free] that looks for the place of [bp]. *)
Fixpoint free_scan (bp p : Z) (fuel : nat) : M ust Z :=
  match fuel with
  | O => λ _, Fuel
  | S fuel =>
      let! x := get_hdr p in
      if (p <? bp) && (bp <? h_ptr x) then ret p
      else if (h_ptr x <=? p) && ((p <? bp) || (bp <? h_ptr x)) then ret p
      else free_scan bp (h_ptr x) fuel
  end.

Definition free_at (fuel : nat) (ap : Z) : M ust unit :=
  let bp := ap - 8 in
  let! s := get in
  let! p := free_scan bp (freep s) fuel in
  let! b := get_hdr bp in
  let! x := get_hdr p in
  do! (if plus bp (h_size b) =? h_ptr x then
         let! y := get_hdr (h_ptr x) in
         set_hdr bp (Hdr (h_ptr y) (u32 (h_size b + h_size y)))
       else set_hdr bp (Hdr (h_ptr x) (h_size b))) in
  let! b := get_hdr bp in
  let! x := get_hdr p in
  do! (if plus p (h_size x) =? bp then
         set_hdr p (Hdr (h_ptr b) (u32 (h_size x + h_size b)))
       else set_hdr p (Hdr bp (h_size x))) in
  set_freep p.

(** [0] when [sbrk] fails. *)
Definition morecore (fuel : nat) (nu : Z) : M ust Z :=
  let nu := if nu <? 4096 then 4096 else nu in
  let! p := sbrk (s32 (u32 (nu * 8))) in
  if p =? -1 then ret 0 else
  let! x := get_hdr p in
  do! set_hdr p (Hdr (h_ptr x) nu) in
  do! free_at fuel (plus p 1) in
  gets freep.

Fixpoint malloc_loop (nunits prevp p : Z) (fuel : nat) : M ust Z :=
  match fuel with
  | O => λ _, Fuel
  | S fuel =>
      let! x := get_hdr p in
      if nunits <=? h_size x then
        if h_size x =? nunits then
          let! y := get_hdr prevp in
          do! set_hdr prevp (Hdr (h_ptr x) (h_size y)) in
          do! set_freep prevp in
          ret (plus p 1)
        else
          do! set_hdr p (Hdr (h_ptr x) (u32 (h_size x - nunits))) in
          let q := plus p (u32 (h_size x - nunits)) in
          let! y := get_hdr q in
          do! set_hdr q (Hdr (h_ptr y) nunits) in
          do! set_freep prevp in
          ret (plus q 1)
      else
        let! s := get in
        if p =? freep s then
          let! p := morecore fuel nunits in
          if p =? 0 then ret 0 else
          let! x := get_hdr p in
          malloc_loop nunits p (h_ptr x) fuel
        else malloc_loop nunits p (h_ptr x) fuel
  end.

Definition malloc_units (nbytes : Z) : Z := u32 (u32 (nbytes + 8 - 1) / 8 + 1).

Definition malloc_at (fuel : nat) (nbytes : Z) : M ust Z :=
  let nunits := malloc_units nbytes in
  let! s := get in
  do! (if freep s =? 0 then do! set_hdr base (Hdr base 0) in set_freep base else ret tt) in
  let! s := get in
  let! x := get_hdr (freep s) in
  malloc_loop nunits (freep s) (h_ptr x) fuel.

(** Every node of the list but [base] covers 8 bytes at least, so the address
    range bounds the walks around it. *)
Definition heap_fuel (s : ust) : nat := 3 * Z.to_nat (brk s) + 20.
Definition malloc (nbytes : Z) : M ust Z := λ s, malloc_at (heap_fuel s) nbytes s.
Definition free (ap : Z) : M ust unit := λ s, free_at (heap_fuel s) ap s.
End umalloc.

(** ** Blocks and list segments *)

Abbreviation block := (Z * Z)%type.
Definition bytes_of (b : block) : list Z := seqZ b.1 (8 * b.2).
Definition cover (l : list block) : list Z := concat (bytes_of <$> l).

Lemma cover_app l1 l2 : cover (l1 ++ l2) = cover l1 ++ cover l2.
Proof. unfold cover. by rewrite fmap_app, concat_app. Qed.
Lemma cover_cons b l : cover (b :: l) = bytes_of b ++ cover l.
Proof. done. Qed.
Lemma bytes_of_join a n m : 0 ≤ n → 0 ≤ m → bytes_of (a, n + m) = bytes_of (a, n) ++ bytes_of (a + 8 * n, m).
Proof. intros. unfold bytes_of. cbn. rewrite Z.mul_add_distr_l. apply seqZ_app; lia. Qed.
Lemma elem_of_cover x l : x ∈ cover l ↔ ∃ b, b ∈ l ∧ b.1 ≤ x < b.1 + 8 * b.2.
Proof.
  unfold cover. rewrite list_elem_of_In, in_concat. split.
  - intros (y & Hy & Hx). apply list_elem_of_In, list_elem_of_fmap in Hy as (b & -> & Hb). exists b. split; [done|].
    apply list_elem_of_In, elem_of_seqZ in Hx. done.
  - intros (b & Hb & Hx). exists (bytes_of b). split; [by apply list_elem_of_In, list_elem_of_fmap_2|].
    apply list_elem_of_In, elem_of_seqZ. done.
Qed.

(** Headers from [p] on, with the sizes of the blocks, up to the pointer [q]. *)
Fixpoint lseg (h : Z → hdr) (p : Z) (l : list block) (q : Z) : Prop :=
  match l with
  | [] => p = q
  | b :: l => p = b.1 ∧ h_size (h p) = b.2 ∧ lseg h (h_ptr (h p)) l q
  end.

Lemma lseg_app h p l1 l2 q : lseg h p (l1 ++ l2) q ↔ ∃ m, lseg h p l1 m ∧ lseg h m l2 q.
Proof.
  revert p. induction l1 as [|b l1 IH]; intros p; simpl; [naive_solver|]. rewrite IH. naive_solver.
Qed.

Lemma lseg_frame h h' p l q : lseg h p l q → (∀ a, a ∈ l.*1 → h' a = h a) → lseg h' p l q.
Proof.
  revert p. induction l as [|b l IH]; intros p; simpl; [done|]. intros (-> & Hs & Hl) Hh.
  rewrite Hh by set_solver. split; [done|]. split; [done|]. apply IH; [done|]. intros a Ha. apply Hh. set_solver.
Qed.

(** The free blocks in address order, with a gap before each of them: adjacent
    free blocks have been joined. *)
Fixpoint sep (lo : Z) (l : list block) : Prop :=
  match l with
  | [] => True
  | b :: l => lo < b.1 ∧ 0 < b.2 ∧ sep (b.1 + 8 * b.2) l
  end.
Fixpoint end_of (lo : Z) (l : list block) : Z :=
  match l with
  | [] => lo
  | b :: l => end_of (b.1 + 8 * b.2) l
  end.

Lemma sep_app lo l1 l2 : sep lo (l1 ++ l2) ↔ sep lo l1 ∧ sep (end_of lo l1) l2.
Proof. revert lo. induction l1 as [|b l1 IH]; intros lo; simpl; [naive_solver|]. rewrite IH. naive_solver. Qed.
Lemma end_of_snoc lo l b : end_of lo (l ++ [b]) = b.1 + 8 * b.2.
Proof. revert lo. induction l as [|c l IH]; intros lo; simpl; [done|]. apply IH. Qed.
Lemma sep_lt lo l b : sep lo l → b ∈ l → lo < b.1 ∧ 0 < b.2.
Proof.
  revert lo. induction l as [|c l IH]; intros lo; simpl; [by intros _ ?%not_elem_of_nil|].
  intros (H1 & H2 & H3) [->|Hb]%elem_of_cons; [done|]. destruct (IH _ H3 Hb). split; [lia|done].
Qed.
Lemma sep_end lo l b : sep lo l → b ∈ l → b.1 + 8 * b.2 ≤ end_of lo l.
Proof.
  revert lo. induction l as [|c l IH]; intros lo; simpl; [by intros _ ?%not_elem_of_nil|].
  intros (H1 & H2 & H3) [->|Hb]%elem_of_cons; [|by apply IH].
  clear -H3. revert H3. generalize (c.1 + 8 * c.2). induction l as [|d l IH]; intros lo; simpl; [lia|].
  intros (H1 & H2 & H3). specialize (IH _ H3). lia.
Qed.
Lemma sep_end_le lo l : sep lo l → lo ≤ end_of lo l.
Proof. revert lo. induction l as [|b l IH]; intros lo; simpl; [lia|]. intros (H1 & H2 & H3). specialize (IH _ H3). lia. Qed.
Lemma sep_weaken lo lo' l : sep lo l → lo' ≤ lo → sep lo' l.
Proof. destruct l as [|b l]; simpl; [done|]. intros (H1 & H2 & H3) ?. split; [lia|done]. Qed.

(** The place of a block among the free ones. *)
Lemma sep_split lo l bp n : sep lo l → 0 < n → lo < bp →
  (∀ b, b ∈ l → b.1 + 8 * b.2 ≤ bp ∨ bp + 8 * n ≤ b.1) →
  ∃ l1 l2, l = l1 ++ l2 ∧ end_of lo l1 ≤ bp ∧ (∀ b, b ∈ l2 → bp + 8 * n ≤ b.1).
Proof.
  intros Hs Hn. revert lo Hs. induction l as [|b l IH]; intros lo Hs Hlo Hd; simpl in *.
  { exists [], []. split; [done|]. split; [simpl; lia|]. by intros b ?%not_elem_of_nil. }
  destruct Hs as (H1 & H2 & H3). destruct (Hd b ltac:(set_solver)) as [Hb|Hb].
  - destruct (decide (b.1 + 8 * b.2 < bp)) as [Hlt|Hge].
    + destruct (IH _ H3 Hlt) as (l1 & l2 & -> & He & Hl2); [set_solver|]. by exists (b :: l1), l2.
    + exists [b], l. split; [done|]. split; [done|]. intros c Hc. destruct (sep_lt _ _ _ H3 Hc).
      destruct (Hd c ltac:(set_solver)); lia.
  - exists [], (b :: l). split; [done|]. split; [simpl; lia|]. intros c [->|Hc]%elem_of_cons; [lia|].
    destruct (sep_lt _ _ _ H3 Hc). lia.
Qed.

Fixpoint asc (l : list block) : Prop :=
  match l with
  | a :: ((b :: _) as l) => a.1 < b.1 ∧ asc l
  | _ => True
  end.

Lemma sep_asc x l : 0 ≤ x.2 → sep (x.1 + 8 * x.2) l → asc (x :: l).
Proof.
  revert x. induction l as [|b l IH]; intros x Hx; [done|]. intros (H1 & H2 & H3). split; [lia|]. apply IH; [lia|done].
Qed.
Lemma asc_app l1 l2 : asc (l1 ++ l2) → asc l2.
Proof. induction l1 as [|a l1 IH]; [done|]. cbn [app]. intros H. apply IH. destruct (l1 ++ l2); [done|apply H]. Qed.
Lemma asc_lt a l b : asc (a :: l) → b ∈ l → a.1 < b.1.
Proof.
  revert a. induction l as [|c l IH]; intros a; [by intros _ ?%not_elem_of_nil|].
  intros [H1 H2] [->|Hb]%elem_of_cons; [done|]. specialize (IH c H2 Hb). lia.
Qed.

Section invariant.
Context (base : Z) (sbrk_ok : Z → Z → bool).

(** The search for a block's place, from the nodes below it and above it. *)
Lemma scan_low bp p ps post pre a s fuel :
  lseg (hd s) a (pre ++ (p, ps) :: post) base → asc (pre ++ (p, ps) :: post) →
  (∀ b, b ∈ pre → b.1 < bp) → p < bp → (∀ b, b ∈ post → bp < b.1) → base ≤ p → (length pre < fuel)%nat →
  free_scan bp a fuel s = Ok p s.
Proof.
  revert a fuel. induction pre as [|b pre IH]; intros a fuel Hl Ha Hpre Hp Hpost Hb Hf;
    (destruct fuel as [|fuel]; [simpl in Hf; lia|]); cbn [free_scan]; unfold get_hdr; rewrite bind_gets.
  - destruct Hl as (-> & _ & Hl). cbn [fst] in *. rewrite (proj2 (Z.ltb_lt p bp)) by done. destruct post as [|c post].
    + simpl in Hl. rewrite Hl. destruct (Z.ltb_spec bp base); [lia|]. cbn. by rewrite (proj2 (Z.leb_le base p)).
    + destruct Hl as (-> & _). by rewrite (proj2 (Z.ltb_lt bp c.1)) by (apply Hpost; set_solver).
  - destruct Hl as (-> & _ & Hl). cbn [app] in Ha.
    assert (∃ c l', pre ++ (p, ps) :: post = c :: l' ∧ c.1 < bp) as (c & l' & E & Hc).
    { destruct pre as [|c pre]; [by eexists (p, ps), _|]. eexists c, _. split; [done|]. apply Hpre. set_solver. }
    assert (h_ptr (hd s b.1) = c.1) as Hn by (rewrite E in Hl; apply Hl). rewrite Hn.
    assert (b.1 < c.1) as Hlt by (rewrite E in Ha; apply Ha).
    destruct (Z.ltb_spec bp c.1); [lia|]. rewrite andb_false_r. destruct (Z.leb_spec c.1 b.1); [lia|]. cbn [andb].
    rewrite <- Hn. apply IH; try done; [by apply (asc_app [b])|intros d Hd; apply Hpre; set_solver|simpl in Hf; lia].
Qed.

Lemma scan_high bp post a s fuel :
  lseg (hd s) a post base → post ≠ [] → asc post → (∀ b, b ∈ post → bp < b.1) → base < bp →
  free_scan bp a (length post + fuel) s = free_scan bp base fuel s.
Proof.
  revert a. induction post as [|b post IH]; intros a Hl Hne Ha Hpost Hb; [done|]. cbn [length Nat.add free_scan].
  unfold get_hdr. rewrite bind_gets. destruct Hl as (-> & _ & Hl). pose proof (Hpost b ltac:(set_solver)).
  destruct (Z.ltb_spec b.1 bp); [lia|]. cbn [andb orb]. destruct post as [|c post].
  - simpl in Hl. rewrite Hl. destruct (Z.ltb_spec bp base); [lia|]. by rewrite andb_false_r.
  - destruct (Z.leb_spec (h_ptr (hd s b.1)) b.1) as [Hle|Hle].
    + exfalso. destruct Hl as (Hl & _). destruct Ha as [Ha _]. lia.
    + cbn [andb]. apply IH; try done; [by apply (asc_app [b])|intros d Hd; apply Hpost; set_solver].
Qed.

Record inv (s : ust) (fl used : list block) (owned : list Z) : Prop := {
  i_base : 0 < base;
  i_brk : base + 8 ≤ brk s ≤ 2 ^ 31;
  i_list : lseg (hd s) base ((base, 0) :: fl) base;
  i_freep : freep s ∈ ((base, 0) :: fl).*1;
  i_sep : sep base fl;
  i_cover : cover (fl ++ used) ≡ₚ owned;
  i_nodup : NoDup owned;
  i_range : ∀ x, x ∈ owned → base + 8 ≤ x < brk s;
  i_used : ∀ b, b ∈ used → 0 < b.2 ∧ h_size (hd s b.1) = b.2 }.

Lemma inv_block s fl used owned b : inv s fl used owned → b ∈ fl ++ used →
  0 < b.2 ∧ base + 8 ≤ b.1 ∧ b.1 + 8 * b.2 ≤ brk s.
Proof.
  intros H Hb. assert (0 < b.2) as Hpos.
  { apply elem_of_app in Hb as [Hb|Hb]; [by eapply sep_lt; [apply H|]|by apply (i_used _ _ _ _ H)]. }
  assert (∀ x, b.1 ≤ x < b.1 + 8 * b.2 → x ∈ owned) as Hx.
  { intros x Hx. rewrite <- (i_cover _ _ _ _ H). apply elem_of_cover. eauto. }
  pose proof (i_range _ _ _ _ H b.1 (Hx b.1 ltac:(lia))).
  pose proof (i_range _ _ _ _ H (b.1 + 8 * b.2 - 1) (Hx (b.1 + 8 * b.2 - 1) ltac:(lia))). lia.
Qed.

(** Two lists of blocks without a common byte. *)
Lemma cover_disjoint l1 l2 b c : NoDup (cover (l1 ++ l2)) → b ∈ l1 → c ∈ l2 → 0 < b.2 → 0 < c.2 →
  b.1 + 8 * b.2 ≤ c.1 ∨ c.1 + 8 * c.2 ≤ b.1.
Proof.
  intros Hn Hb Hc Hb0 Hc0. rewrite cover_app in Hn. apply list.NoDup_app in Hn as (_ & Hn & _).
  destruct (decide (b.1 + 8 * b.2 ≤ c.1)); [by left|]. destruct (decide (c.1 + 8 * c.2 ≤ b.1)); [by right|]. exfalso.
  apply (Hn (Z.max b.1 c.1)); apply elem_of_cover; [exists b|exists c]; (split; [done|lia]).
Qed.

Lemma inv_nodup s fl used owned : inv s fl used owned → NoDup (cover (fl ++ used)).
Proof. intros H. rewrite (i_cover _ _ _ _ H). apply H. Qed.

Lemma plus_small s fl used owned a n : inv s fl used owned → 0 ≤ a → 0 ≤ n → a + 8 * n ≤ brk s → plus a n = a + 8 * n.
Proof. intros H ? ? ?. pose proof (i_brk _ _ _ _ H). apply u32_small. unfold is_u32. lia. Qed.

Definition upd (h : Z → hdr) (a : Z) (x : hdr) : Z → hdr := λ y, if y =? a then x else h y.
Lemma upd_here h a x : upd h a x a = x.
Proof. unfold upd. by rewrite Z.eqb_refl. Qed.
Lemma upd_other h a x y : y ≠ a → upd h a x y = h y.
Proof. unfold upd. intros. by destruct (Z.eqb_spec y a). Qed.

(** The search ends at the last node below the block, wherever it starts. *)
Lemma free_scan_spec bp p ps pre post a s fuel :
  let N := pre ++ (p, ps) :: post in
  lseg (hd s) base N base → asc N → (∀ b, b ∈ pre → b.1 < bp) → p < bp → (∀ b, b ∈ post → bp < b.1) →
  base ≤ p → base < bp → a ∈ N.*1 → (2 * length N ≤ fuel)%nat → free_scan bp a fuel s = Ok p s.
Proof.
  intros N Hl Ha Hpre Hp Hpost Hb Hbp Hin Hf. apply list_elem_of_fmap in Hin as (x & -> & Hx).
  unfold N in *. rewrite length_app in Hf. simpl in Hf.
  replace (pre ++ (p, ps) :: post) with ((pre ++ [(p, ps)]) ++ post) in * by (by rewrite <- app_assoc).
  apply elem_of_app in Hx as [Hx|Hx]; apply list_elem_of_split in Hx as (u & v & E).
  - destruct (exists_last (l := x :: v)) as (w & y & Ew); [done|]. rewrite Ew, app_assoc in E.
    apply app_inj_tail in E as [Epre Ey]. rewrite Epre, <- Ey in *. rewrite <- !app_assoc in Hl, Ha. cbn [app] in Hl, Ha.
    apply lseg_app in Hl as (m & _ & Hl). assert (m = x.1) as ->.
    { destruct w as [|z w]; cbn [app] in Hl, Ew; injection Ew as -> _; apply Hl. }
    apply asc_app in Ha. rewrite length_app in Hf.
    eapply (scan_low bp p ps post w); try done; [intros b Hbw; apply Hpre; set_solver|lia].
  - rewrite E in *. assert (lseg (hd s) x.1 (x :: v) base) as Hx.
    { rewrite app_assoc in Hl. apply lseg_app in Hl as (m & _ & Hl). pose proof Hl as [-> _]. exact Hl. }
    rewrite length_app in Hf. cbn [length] in Hf.
    replace fuel with (length (x :: v) + (fuel - length (x :: v)))%nat by (simpl; lia).
    assert (∀ b, b ∈ x :: v → bp < b.1) as Hv by (intros b Hbv; apply Hpost; set_solver).
    rewrite scan_high; try done; [|rewrite app_assoc in Ha; by apply asc_app in Ha].
    rewrite <- app_assoc in Hl, Ha. cbn [app] in Hl, Ha.
    eapply scan_low; try done. simpl. lia.
Qed.

(** The block joins the free block behind it, or is linked in front of it. *)
Lemma join_right h nx bp n lo fl2 :
  lseg h nx fl2 base → sep lo fl2 → (∀ b, b ∈ fl2 → bp + 8 * n ≤ b.1) → 0 < n → base < bp →
  ∃ m r2, n ≤ m ∧ (length r2 ≤ length fl2)%nat ∧ sep (bp + 8 * m) r2 ∧
    cover ((bp, m) :: r2) = bytes_of (bp, n) ++ cover fl2 ∧
    let h1 := if bp + 8 * n =? nx then upd h bp (Hdr (h_ptr (h nx)) (n + h_size (h nx))) else upd h bp (Hdr nx n) in
    lseg h1 bp ((bp, m) :: r2) base.
Proof.
  intros Hl Hs Hgt Hn Hb. destruct fl2 as [|b fl2].
  - simpl in Hl. subst nx. destruct (Z.eqb_spec (bp + 8 * n) base); [lia|].
    exists n, []. split; [lia|]. split; [done|]. split; [done|]. split; [done|]. cbn. by rewrite !upd_here.
  - destruct Hl as (-> & Hsz & Hl). destruct Hs as (H1 & H2 & H3).
    assert (∀ a, a ∈ fl2.*1 → a ≠ bp) as Hne.
    { intros a Ha ->. apply list_elem_of_fmap in Ha as (c & E & Hc). specialize (Hgt c ltac:(set_solver)). lia. }
    destruct (Z.eqb_spec (bp + 8 * n) b.1) as [E|E].
    + exists (n + b.2), fl2. split; [lia|]. split; [simpl; lia|].
      split; [by replace (bp + 8 * (n + b.2)) with (b.1 + 8 * b.2) by lia|].
      split. { rewrite !cover_cons, bytes_of_join, <- app_assoc, E by lia. by destruct b. }
      cbn. rewrite upd_here. cbn. split; [done|]. split; [lia|]. eapply lseg_frame; [exact Hl|]. intros a Ha. apply upd_other. auto.
    + exists n, (b :: fl2). specialize (Hgt b ltac:(set_solver)). split; [lia|]. split; [done|].
      split; [split; [lia|done]|]. split; [done|]. cbn. rewrite upd_here. cbn. split; [done|]. split; [done|]. split; [done|].
      rewrite upd_other by lia. split; [done|]. eapply lseg_frame; [exact Hl|]. intros a Ha. apply upd_other. auto.
Qed.

(** The block joins the free block in front of it, or is linked behind it. *)
Lemma join_left h h1 nx bp m p ps pre l1 r2 :
  (base, 0) :: l1 = pre ++ [(p, ps)] → lseg h base (pre ++ [(p, ps)]) nx → sep base l1 → end_of base l1 ≤ bp →
  base < bp → (∀ a, a ≠ bp → h1 a = h a) → lseg h1 bp ((bp, m) :: r2) base → sep (bp + 8 * m) r2 → 0 < m →
  let h2 := if p + 8 * ps =? bp then upd h1 p (Hdr (h_ptr (h1 bp)) (ps + m)) else upd h1 p (Hdr bp ps) in
  ∃ fl', lseg h2 base ((base, 0) :: fl') base ∧ sep base fl' ∧ cover fl' = cover l1 ++ cover ((bp, m) :: r2) ∧
    p ∈ ((base, 0) :: fl').*1 ∧ (length fl' ≤ length l1 + S (length r2))%nat ∧ (∃ b, b ∈ fl' ∧ m ≤ b.2) ∧
    (∀ a, a ≠ p → h2 a = h1 a).
Proof.
  intros Epre Hl Hs He Hb Hh1 Hr Hsr Hm h2. destruct Hr as (_ & Hsz & Hr). cbn [fst snd] in *.
  assert (∀ b, b ∈ r2 → bp < b.1) as Hr2 by (intros b Hbr; destruct (sep_lt _ _ _ Hsr Hbr); lia).
  assert (∀ a, a ≠ p → h2 a = h1 a) as Hh2 by (intros a Ha; unfold h2; destruct (_ =? bp); by apply upd_other).
  assert (p < bp → lseg h2 (h_ptr (h1 bp)) r2 base) as Hr'.
  { intros Hp. eapply lseg_frame; [exact Hr|]. intros a Ha. apply Hh2. intros ->.
    apply list_elem_of_fmap in Ha as (c & E & Hc). specialize (Hr2 c Hc). lia. }
  destruct l1 as [|[p' ps'] l1' _] using rev_ind.
  - destruct pre as [|? [|]]; try done. injection Epre as <- <-.
    assert (h2 base = Hdr bp 0) as E2.
    { unfold h2. destruct (Z.eqb_spec (base + 8 * 0) bp); [lia|]. apply upd_here. }
    exists ((bp, m) :: r2). split.
    { cbn. rewrite E2. cbn. split; [done|]. split; [done|]. rewrite Hh2 by lia. split; [done|]. split; [done|]. by apply Hr'. }
    split; [split; [done|by split]|]. split; [done|]. split; [set_solver|]. split; [simpl; lia|]. split; [|done].
    exists (bp, m). split; [set_solver|simpl; lia].
  - rewrite app_comm_cons in Epre. apply app_inj_tail in Epre as [<- [= -> ->]].
    rewrite end_of_snoc in He. cbn [fst snd] in He. apply sep_app in Hs as [Hs1 Hs2]. destruct Hs2 as (Hp1 & Hp2 & _). cbn [fst snd] in Hp1, Hp2.
    pose proof (sep_end_le _ _ Hs1) as Hle.
    apply lseg_app in Hl as (q & Hl & (-> & Hps & _)). cbn [fst snd] in Hps.
    assert (lseg h2 base ((base, 0) :: l1') p) as Hl2.
    { eapply lseg_frame; [exact Hl|]. intros a Ha. assert (a < p) as Halt.
      { apply list_elem_of_fmap in Ha as (c & -> & [->|Hc]%elem_of_cons); [simpl; lia|].
        pose proof (sep_end _ _ _ Hs1 Hc). pose proof (sep_lt _ _ _ Hs1 Hc). lia. }
      rewrite Hh2 by lia. apply Hh1. lia. }
    unfold h2 in *. destruct (Z.eqb_spec (p + 8 * ps) bp) as [E|E].
    + exists (l1' ++ (p, ps + m) :: r2). split.
      { rewrite app_comm_cons. apply lseg_app. exists p. split; [done|]. cbn [lseg fst snd]. rewrite upd_here. cbn [h_ptr h_size].
        split; [done|]. split; [done|]. apply Hr'. lia. }
      split. { apply sep_app. split; [done|]. split; [done|]. split; [simpl; lia|]. cbn [fst snd].
        by replace (p + 8 * (ps + m)) with (bp + 8 * m) by lia. }
      split. { rewrite !cover_app, !cover_cons, bytes_of_join, E by lia. unfold cover at 4. cbn [fmap list_fmap concat]. by rewrite app_nil_r, <- !app_assoc. }
      split; [rewrite fmap_cons, fmap_app; set_solver|]. split; [rewrite !length_app; simpl; lia|]. split; [|done].
      exists (p, ps + m). split; [set_solver|simpl; lia].
    + exists (l1' ++ (p, ps) :: (bp, m) :: r2). split.
      { rewrite app_comm_cons. apply lseg_app. exists p. split; [done|]. cbn [lseg fst snd]. rewrite upd_here. cbn [h_ptr h_size].
        rewrite upd_other by lia. split; [done|]. split; [done|]. split; [done|]. split; [done|]. apply Hr'. lia. }
      split. { apply sep_app. split; [done|]. split; [done|]. split; [done|]. cbn [fst snd]. split; [simpl; lia|]. by split. }
      split. { rewrite !cover_app, !cover_cons. unfold cover at 4. cbn [fmap list_fmap concat]. by rewrite app_nil_r, <- !app_assoc. }
      split; [rewrite fmap_cons, fmap_app; set_solver|]. split; [rewrite !length_app; simpl; lia|]. split; [|done].
      exists (bp, m). split; [set_solver|simpl; lia].
Qed.

(** The stores of [free], once the place [p] is known. *)
Lemma free_stores fuel bp p s :
  free_scan bp (freep s) fuel s = Ok p s → p ≠ bp →
  let b := hd s bp in
  let x := hd s p in
  let h1 := if plus bp (h_size b) =? h_ptr x
            then upd (hd s) bp (Hdr (h_ptr (hd s (h_ptr x))) (u32 (h_size b + h_size (hd s (h_ptr x)))))
            else upd (hd s) bp (Hdr (h_ptr x) (h_size b)) in
  let h2 := if plus p (h_size x) =? bp
            then upd h1 p (Hdr (h_ptr (h1 bp)) (u32 (h_size x + h_size (h1 bp))))
            else upd h1 p (Hdr bp (h_size x)) in
  free_at fuel (bp + 8) s = Ok tt (Ust h2 p (brk s)).
Proof.
  intros Hscan Hne. unfold free_at. replace (bp + 8 - 8) with bp by lia. unfold bind at 1, get. erewrite bind_Ok by exact Hscan.
  unfold bind, get_hdr, set_hdr, set_freep, gets, modify. cbn beta zeta. fold upd.
  destruct (plus bp (h_size (hd s bp)) =? h_ptr (hd s p)); cbn [hd freep brk];
    (replace (p =? bp) with false by (symmetry; by apply Z.eqb_neq)); destruct (plus p (h_size (hd s p)) =? bp); reflexivity.
Qed.

Lemma free_spec s fl used owned bp n fuel :
  inv s fl ((bp, n) :: used) owned → (2 * length fl + 2 ≤ fuel)%nat →
  ∃ s' fl', free_at fuel (bp + 8) s = Ok tt s' ∧ inv s' fl' used owned ∧ brk s' = brk s ∧
    (length fl' ≤ S (length fl))%nat ∧ ∃ b, b ∈ fl' ∧ n ≤ b.2.
Proof.
  intros H Hf. destruct (inv_block s fl _ owned (bp, n) H ltac:(set_solver)) as (Hn & Hbp & Hend). cbn [fst snd] in *.
  pose proof (i_brk _ _ _ _ H) as Hbrk. pose proof (i_base _ _ _ _ H) as Hbase.
  destruct (sep_split base fl bp n (i_sep _ _ _ _ H) Hn ltac:(lia)) as (l1 & l2 & -> & He & Hl2).
  { intros b Hb. destruct (inv_block s _ _ owned b H ltac:(set_solver)).
    apply (cover_disjoint fl ((bp, n) :: used) b (bp, n)); try done; [exact (inv_nodup _ _ _ _ H)|set_solver]. }
  destruct (exists_last (l := (base, 0) :: l1)) as (pre & [p ps] & Epre); [done|].
  pose proof (i_list _ _ _ _ H) as Hl. pose proof (i_sep _ _ _ _ H) as Hs. apply sep_app in Hs as [Hs1 Hs2].
  rewrite app_comm_cons, Epre in Hl. pose proof Hl as Hl0. apply lseg_app in Hl as (nx & Hl1 & Hlr).
  assert (∀ b, b ∈ (base, 0) :: l1 → base ≤ b.1 < bp) as Hlow.
  { intros b [->|Hb]%elem_of_cons; [simpl; lia|]. pose proof (sep_lt _ _ _ Hs1 Hb). pose proof (sep_end _ _ _ Hs1 Hb). lia. }
  assert (base ≤ p < bp) as Hp by (apply (Hlow (p, ps)); rewrite Epre; set_solver).
  assert (hd s p = Hdr nx ps) as Ep.
  { apply lseg_app in Hl1 as (q & _ & (-> & Hps & Hnx)). cbn [fst snd] in *. destruct (hd s p). cbn in *. by subst. }
  pose proof (free_scan_spec bp p ps pre l2 (freep s) s fuel) as Hscan. cbn zeta in Hscan.
  rewrite <- app_assoc in Hl0. cbn [app] in Hl0.
  specialize (Hscan Hl0).
  assert ((base, 0) :: l1 ++ l2 = pre ++ (p, ps) :: l2) as EN by (by rewrite app_comm_cons, Epre, <- app_assoc).
  rewrite <- EN in Hscan.
  assert (free_scan bp (freep s) fuel s = Ok p s) as Hfs.
  { apply Hscan; try lia.
    - apply sep_asc; [done|]. cbn [fst snd]. replace (base + 8 * 0) with base by lia. apply H.
    - intros b Hb. apply Hlow. rewrite Epre. set_solver.
    - intros b Hb. specialize (Hl2 b Hb). lia.
    - apply H.
    - cbn [length]. lia. }
  pose proof (free_stores fuel bp p s Hfs ltac:(lia)) as R. cbn zeta in R. rewrite Ep in R. cbn [h_ptr h_size] in R.
  destruct (i_used _ _ _ _ H (bp, n) ltac:(set_solver)) as [_ Hsz]. cbn [fst snd] in Hsz. rewrite Hsz in R.
  rewrite (plus_small s _ _ _ bp n H ltac:(lia) ltac:(lia) Hend) in R.
  destruct (join_right (hd s) nx bp n _ l2 Hlr Hs2 Hl2 Hn ltac:(lia)) as (m & r2 & Hnm & Hlen & Hsr & Hcov & Hlr2). cbn zeta in Hlr2.
  set (h1 := if bp + 8 * n =? nx then _ else _) in Hlr2.
  assert (bp + 8 * m ≤ brk s) as Hm.
  { assert (bp + 8 * m - 1 ∈ owned) as Hx; [|pose proof (i_range _ _ _ _ H _ Hx); lia].
    assert (bp + 8 * m - 1 ∈ cover ((bp, m) :: r2)) as Hx by (apply elem_of_cover; exists (bp, m); split; [set_solver|simpl; lia]).
    rewrite <- (i_cover _ _ _ _ H), !cover_app, cover_cons. rewrite Hcov in Hx. set_solver. }
  assert (h_size (h1 bp) = m) as Eh1 by apply Hlr2.
  assert (0 ≤ ps ∧ p + 8 * ps ≤ bp) as Hps.
  { destruct l1 as [|c l1' _] using rev_ind.
    - destruct pre as [|? [|]]; try done. injection Epre as <- <-. simpl in He. lia.
    - rewrite app_comm_cons in Epre. apply app_inj_tail in Epre as [_ ->]. rewrite end_of_snoc in He.
      apply sep_app in Hs1 as [_ (_ & Hc & _)]. cbn [fst snd] in *. lia. }
  assert ((if bp + 8 * n =? nx then upd (hd s) bp (Hdr (h_ptr (hd s nx)) (u32 (n + h_size (hd s nx))))
           else upd (hd s) bp (Hdr nx n)) = h1) as Eh.
  { unfold h1 in *. destruct (_ =? nx); [|done]. rewrite upd_here in Eh1. cbn in Eh1.
    by rewrite u32_small by (unfold is_u32; lia). }
  rewrite Eh, Eh1, (plus_small s _ _ _ p ps H) in R by lia. rewrite (u32_small (ps + m)) in R by (unfold is_u32; lia).
  destruct (join_left (hd s) h1 nx bp m p ps pre l1 r2) as (fl' & Hl' & Hs' & Hc' & Hp' & Hlen' & Hbig & Hh2); try done; try lia.
  { intros a Ha. unfold h1. destruct (_ =? nx); by apply upd_other. }
  eexists _, fl'. split; [exact R|]. cbn [brk]. split; [|split; [done|]; split; [rewrite length_app; lia|]].
  - split; cbn [hd freep brk]; try done; [| |by apply (i_range _ _ _ _ H)|].
    + rewrite <- (i_cover _ _ _ _ H), !cover_app, Hc', Hcov, cover_cons. solve_Permutation.
    + apply H.
    + intros b Hb. destruct (i_used _ _ _ _ H b ltac:(set_solver)) as [Hb0 Hbs]. split; [done|].
      destruct (inv_block _ _ _ _ b H ltac:(set_solver)) as (_ & Hb1 & _).
      assert (b.1 ≠ bp) as Hne.
      { pose proof (inv_nodup _ _ _ _ H) as Hnd. rewrite cover_app in Hnd. apply list.NoDup_app in Hnd as (_ & _ & Hnd).
        destruct (cover_disjoint [(bp, n)] used (bp, n) b Hnd) as [?|?]; cbn [fst snd] in *; try done; try lia; set_solver. }
      rewrite Hh2.
      * unfold h1. destruct (_ =? nx); by rewrite upd_other.
      * intros Heq. assert ((p, ps) = (base, 0) ∨ (p, ps) ∈ l1) as [[= -> ->]|Hpl].
        { assert ((p, ps) ∈ (base, 0) :: l1) as Hin by (rewrite Epre; set_solver). apply elem_of_cons in Hin as [->|Hin]; [by left|by right]. }
        -- lia.
        -- destruct (inv_block _ _ _ _ (p, ps) H ltac:(set_solver)) as (Hps0 & _).
           destruct (cover_disjoint (l1 ++ l2) ((bp, n) :: used) (p, ps) b (inv_nodup _ _ _ _ H)) as [?|?]; cbn [fst snd] in *; try done; try lia; set_solver.
  - destruct Hbig as (b & ? & ?). exists b. split; [done|lia].
Qed.

Lemma lseg_next h p l q i z : lseg h p l q → l !! i = Some z →
  h_ptr (h z.1) = match l !! S i with Some c => c.1 | None => q end.
Proof.
  revert p i. induction l as [|b l IH]; intros p i; simpl; [done|]. intros (-> & _ & Hl) Hi.
  destruct i as [|i]; [injection Hi as <-|by eapply IH]. destruct l as [|c l]; [done|]. apply Hl.
Qed.

Lemma sep_nodup x l : 0 ≤ x.2 → sep (x.1 + 8 * x.2) l → NoDup ((x :: l).*1).
Proof.
  revert x. induction l as [|b l IH]; intros x Hx Hs; [apply NoDup_singleton|].
  apply list.NoDup_cons. split; [|apply IH; [destruct Hs as (_ & ? & _); lia|apply Hs]].
  intros Hin. change (x.1 ∈ (b :: l).*1) in Hin. apply list_elem_of_fmap in Hin as (c & E & Hc). destruct (sep_lt _ _ _ Hs Hc). lia.
Qed.

Lemma inv_nodes s fl used owned : inv s fl used owned → NoDup (((base, 0) :: fl).*1).
Proof. intros H. apply sep_nodup; [done|]. cbn [fst snd]. replace (base + 8 * 0) with base by lia. apply H. Qed.

(** A node in front of a free block, in the address order. *)
Lemma inv_pred s fl used owned z y : inv s fl used owned → z ∈ (base, 0) :: fl → y ∈ fl → h_ptr (hd s z.1) = y.1 →
  ∃ l1 l2 pre, fl = l1 ++ y :: l2 ∧ (base, 0) :: l1 = pre ++ [z].
Proof.
  intros H Hz Hy Hn. pose proof (inv_nodes _ _ _ _ H) as Hnd. pose proof (i_list _ _ _ _ H) as Hl.
  apply list_elem_of_lookup in Hz as [i Hi]. rewrite (lseg_next _ _ _ _ _ _ Hl Hi) in Hn.
  destruct (((base, 0) :: fl) !! S i) as [c|] eqn:Hc.
  2:{ destruct (sep_lt _ _ _ (i_sep _ _ _ _ H) Hy). lia. }
  assert (c = y) as ->.
  { apply list_elem_of_lookup in Hy as [j Hj]. assert (S i = S j) as E.
    { eapply (NoDup_lookup _ _ _ (y.1)); [exact Hnd|rewrite list_lookup_fmap, Hc; simpl; by f_equal|].
      rewrite list_lookup_fmap. simpl. by rewrite Hj. }
    rewrite E in Hc. simpl in Hc. congruence. }
  simpl in Hc. exists (take i fl), (drop (S i) fl), (take i ((base, 0) :: fl)). split; [by rewrite take_drop_middle|].
  rewrite <- (take_S_r ((base, 0) :: fl) i z Hi). done.
Qed.

(** What [malloc] stores when the block [y] behind the node [z] is large enough. *)
Lemma malloc_take nunits z y s fuel : nunits ≤ h_size (hd s y) →
  malloc_loop sbrk_ok nunits z y (S fuel) s =
  if h_size (hd s y) =? nunits
  then Ok (plus y 1) (Ust (upd (hd s) z (Hdr (h_ptr (hd s y)) (h_size (hd s z)))) z (brk s))
  else let q := plus y (u32 (h_size (hd s y) - nunits)) in
       let h1 := upd (hd s) y (Hdr (h_ptr (hd s y)) (u32 (h_size (hd s y) - nunits))) in
       Ok (plus q 1) (Ust (upd h1 q (Hdr (h_ptr (h1 q)) nunits)) z (brk s)).
Proof.
  intros Hfit. cbn [malloc_loop]. unfold get_hdr at 1. rewrite bind_gets. rewrite (proj2 (Z.leb_le _ _) Hfit).
  destruct (h_size (hd s y) =? nunits); reflexivity.
Qed.

Lemma used_apart s fl used owned b a : inv s fl used owned → b ∈ used → a ∈ ((base, 0) :: fl).*1 → b.1 ≠ a.
Proof.
  intros H Hb Ha. destruct (inv_block _ _ _ _ b H ltac:(set_solver)) as (Hb0 & Hb1 & _).
  apply list_elem_of_fmap in Ha as (c & -> & [->|Hc]%elem_of_cons); [simpl; lia|].
  destruct (inv_block _ _ _ _ c H ltac:(set_solver)) as (Hc0 & _).
  destruct (cover_disjoint fl used c b (inv_nodup _ _ _ _ H)); (done || lia).
Qed.

Lemma take_spec s fl used owned nunits z y fuel :
  inv s fl used owned → z ∈ (base, 0) :: fl → y ∈ fl → h_ptr (hd s z.1) = y.1 → 0 < nunits ≤ y.2 →
  ∃ s' fl' q, malloc_loop sbrk_ok nunits z.1 y.1 (S fuel) s = Ok (q + 8) s' ∧ inv s' fl' ((q, nunits) :: used) owned ∧
    brk s' = brk s ∧ base < q.
Proof.
  intros H Hz Hy Hn Hfit. destruct (inv_block _ _ _ _ y H ltac:(set_solver)) as (Hy0 & Hy1 & Hy2).
  pose proof (i_brk _ _ _ _ H) as Hbrk. pose proof (i_base _ _ _ _ H) as Hbase.
  pose proof (inv_nodes _ _ _ _ H) as Hnd. pose proof (i_list _ _ _ _ H) as Hl.
  assert (∀ b a, b ∈ used → a ∈ ((base, 0) :: fl).*1 → b.1 ≠ a) as Hapart by (intros; by eapply used_apart).
  destruct (inv_pred _ _ _ _ z y H Hz Hy Hn) as (l1 & l2 & pre & Efl & Epre).
  assert ((base, 0) :: fl = pre ++ z :: y :: l2) as EN by (by rewrite Efl, app_comm_cons, Epre, <- app_assoc).
  pose proof Hl as Hl'. rewrite EN in Hl'. apply lseg_app in Hl' as (a & Hlp & (-> & Hzs & Hly)). rewrite Hn in Hly.
  destruct Hly as (_ & Hys & Hl2). pose proof (i_sep _ _ _ _ H) as Hs. rewrite Efl in Hs. apply sep_app in Hs as [Hs1 (Hs2 & _ & Hs3)].
  rewrite EN in Hnd. rewrite fmap_app, !fmap_cons in Hnd. apply list.NoDup_app in Hnd as (_ & Hnd1 & Hnd2).
  apply list.NoDup_cons in Hnd2 as [Hnz [Hny _]%list.NoDup_cons].
  rewrite malloc_take by lia. rewrite Hys.
  destruct (Z.eqb_spec y.2 nunits) as [E|E].
  - eexists _, (l1 ++ l2), y.1. rewrite (plus_small s _ _ _ y.1 1 H) by lia. split; [done|]. split; [|split; [done|lia]].
    split; cbn [hd freep brk]; try done; [| | | |apply H|by apply (i_range _ _ _ _ H)|].
    + rewrite app_comm_cons, Epre, <- app_assoc. apply lseg_app. exists z.1. split.
      { eapply lseg_frame; [exact Hlp|]. intros a Ha. apply upd_other. intros ->. apply (Hnd1 z.1); set_solver. }
      cbn [app lseg]. rewrite upd_here. cbn [h_ptr h_size]. split; [done|]. split; [done|].
      eapply lseg_frame; [exact Hl2|]. intros a Ha. apply upd_other. intros ->. set_solver.
    + rewrite app_comm_cons, Epre, fmap_app, fmap_app. set_solver.
    + apply sep_app. split; [done|]. eapply sep_weaken; [exact Hs3|]. lia.
    + rewrite <- (i_cover _ _ _ _ H), Efl, !cover_app, !cover_cons, <- E. destruct y. cbn [fst snd]. solve_Permutation.
    + intros b [->|Hb]%elem_of_cons; cbn [fst snd].
      * split; [lia|]. rewrite upd_other by set_solver. lia.
      * destruct (i_used _ _ _ _ H b Hb). split; [done|]. rewrite upd_other; [done|]. apply Hapart; [done|]. rewrite EN, fmap_app. set_solver.
  - rewrite (u32_small (y.2 - nunits)) by (unfold is_u32; lia). cbn zeta.
    rewrite (plus_small s _ _ _ y.1 (y.2 - nunits) H) by lia. set (q := y.1 + 8 * (y.2 - nunits)).
    rewrite (plus_small s _ _ _ q 1 H) by lia. eexists _, (l1 ++ (y.1, y.2 - nunits) :: l2), q. split; [done|]. split; [|split; [done|lia]].
    assert (∀ a, a ∈ ((base, 0) :: fl).*1 → a ≠ q) as Hq.
    { intros a Ha. apply list_elem_of_fmap in Ha as (c & -> & [->|Hc]%elem_of_cons); [simpl; lia|]. rewrite Efl in Hc.
      apply elem_of_app in Hc as [Hc|[->|Hc]%elem_of_cons]; [|lia|pose proof (sep_lt _ _ _ Hs3 Hc); lia].
      pose proof (sep_end _ _ _ Hs1 Hc). pose proof (sep_lt _ _ _ Hs1 Hc). lia. }
    assert (∀ b, b ∈ used → b.1 ≠ q) as Hqu.
    { intros b Hb. destruct (i_used _ _ _ _ H b Hb). destruct (cover_disjoint fl used y b (inv_nodup _ _ _ _ H)); try done; lia. }
    set (h2 := upd (upd (hd s) y.1 _) q _).
    assert (∀ a, a ≠ y.1 → a ≠ q → h2 a = hd s a) as Hh2 by (intros a Ha1 Ha2; unfold h2; by rewrite !upd_other).
    assert (∀ a, a ∈ ((base, 0) :: fl).*1 → a ≠ y.1 → h2 a = hd s a) as Hh3 by (intros; apply Hh2; [done|by apply Hq]).
    assert (h2 y.1 = Hdr (h_ptr (hd s y.1)) (y.2 - nunits)) as Ey by (unfold h2; rewrite upd_other, upd_here by lia; done).
    rewrite EN, fmap_app, !fmap_cons in Hh3.
    split; cbn [hd freep brk]; try done; [| | | |apply H|by apply (i_range _ _ _ _ H)|].
    + rewrite app_comm_cons, Epre, <- app_assoc. apply lseg_app. exists z.1. split.
      { eapply lseg_frame; [exact Hlp|]. intros a Ha. apply Hh3; [set_solver|]. intros ->. apply (Hnd1 y.1); set_solver. }
      cbn [app lseg fst snd]. rewrite Hh3, Hn, Ey by set_solver. cbn [h_ptr h_size]. split_and!; try done.
      eapply lseg_frame; [exact Hl2|]. intros a Ha. apply Hh3; [set_solver|]. by intros ->.
    + rewrite app_comm_cons, Epre, !fmap_app. set_solver.
    + apply sep_app. split; [done|]. split; [done|]. split; [simpl; lia|]. cbn [fst snd]. eapply sep_weaken; [exact Hs3|]. lia.
    + rewrite <- (i_cover _ _ _ _ H), Efl, !cover_app, !cover_cons.
      assert (bytes_of y = bytes_of (y.1, y.2 - nunits) ++ bytes_of (q, nunits)) as ->; [|solve_Permutation].
      unfold q. rewrite <- bytes_of_join by lia. destruct y. cbn. by rewrite Z.sub_add.
    + intros b [->|Hb]%elem_of_cons; cbn [fst snd].
      * split; [lia|]. unfold h2. by rewrite upd_here.
      * destruct (i_used _ _ _ _ H b Hb). split; [done|]. rewrite Hh2; [done| |by apply Hqu]. apply Hapart; [done|].
        rewrite EN, fmap_app. set_solver.
Qed.

(** What [sbrk] promises: the process does not grow into the kernel's half. *)
Context (sbrk_limit : ∀ b n, sbrk_ok b n = true → b + n ≤ 2 ^ 31).

(** New memory at the break, as a block in use. *)
Lemma inv_grow s fl used owned nu x : inv s fl used owned → 0 < nu → brk s + 8 * nu ≤ 2 ^ 31 →
  inv (Ust (upd (hd s) (brk s) (Hdr x nu)) (freep s) (brk s + 8 * nu)) fl ((brk s, nu) :: used) (bytes_of (brk s, nu) ++ owned).
Proof.
  intros H Hnu Hb. pose proof (i_brk _ _ _ _ H) as Hbrk.
  assert (∀ b, b ∈ fl ++ used → b.1 ≠ brk s) as Hne by (intros b Hbl; destruct (inv_block _ _ _ _ b H Hbl) as (? & ? & ?); lia).
  split; cbn [hd freep brk]; [apply H|lia| |apply H|apply H| | | |].
  - eapply lseg_frame; [apply H|]. intros a Ha. apply upd_other.
    apply list_elem_of_fmap in Ha as (c & -> & [->|Hc]%elem_of_cons); [simpl; lia|]. apply Hne. set_solver.
  - rewrite <- (i_cover _ _ _ _ H), !cover_app, cover_cons. solve_Permutation.
  - apply list.NoDup_app. split; [apply NoDup_seqZ|]. split; [|apply H]. intros y Hy1 Hy2.
    apply elem_of_seqZ in Hy1. pose proof (i_range _ _ _ _ H y Hy2). cbn in Hy1. lia.
  - intros y [Hy|Hy]%elem_of_app; [apply elem_of_seqZ in Hy; cbn in Hy; lia|]. pose proof (i_range _ _ _ _ H y Hy). lia.
  - intros b [->|Hbu]%elem_of_cons; cbn [fst snd]; [split; [done|by rewrite upd_here]|].
    destruct (i_used _ _ _ _ H b Hbu). split; [done|]. rewrite upd_other; [done|]. apply Hne. set_solver.
Qed.

Lemma morecore_spec s fl used owned nu fuel :
  inv s fl used owned → 0 < nu < 2 ^ 28 → (2 * length fl + 2 ≤ fuel)%nat →
  morecore sbrk_ok fuel nu s = Ok 0 s ∨
  ∃ s' fl' owned', morecore sbrk_ok fuel nu s = Ok (freep s') s' ∧ inv s' fl' used owned' ∧
    brk s ≤ brk s' ∧ (length fl' ≤ S (length fl))%nat ∧ ∃ b, b ∈ fl' ∧ nu ≤ b.2.
Proof.
  intros H Hnu Hf. unfold morecore. set (nu' := if nu <? 4096 then 4096 else nu).
  assert (nu ≤ nu' < 2 ^ 28) as Hnu' by (unfold nu'; destruct (Z.ltb_spec nu 4096); lia).
  rewrite u32_small, s32_small by (unfold is_s32, is_u32; lia).
  pose proof (i_brk _ _ _ _ H) as Hbrk. pose proof (i_base _ _ _ _ H).
  destruct (sbrk_ok (brk s) (nu' * 8)) eqn:Hok; [|left; unfold bind at 1, sbrk; by rewrite Hok].
  right. pose proof (sbrk_limit _ _ Hok).
  pose proof (inv_grow s fl used owned nu' (h_ptr (hd s (brk s))) H ltac:(lia) ltac:(lia)) as Hg.
  destruct (free_spec _ fl used _ (brk s) nu' fuel Hg Hf) as (s' & fl' & R & H' & Hb' & Hlen & b & Hbf & Hbn).
  exists s', fl', (bytes_of (brk s, nu') ++ owned). split.
  - unfold bind at 1, sbrk. rewrite Hok. destruct (Z.eqb_spec (brk s) (-1)); [lia|].
    unfold get_hdr at 1. rewrite bind_gets. unfold set_hdr at 1. rewrite bind_modify. cbn [hd freep brk].
    rewrite (plus_small _ _ _ _ (brk s) 1 Hg) by (cbn; lia). rewrite Z.mul_1_r. rewrite Z.mul_comm.
    erewrite bind_Ok by exact R. reflexivity.
  - split; [done|]. split; [rewrite Hb'; cbn; lia|]. split; [done|]. exists b. split; [done|lia].
Qed.

(** One turn around the list: a block that fits, or none. *)
Lemma malloc_scan nunits s x r z r1 r2 fuel :
  lseg (hd s) x.1 (x :: r) x.1 → freep s = x.1 → NoDup ((x :: r).*1) → x :: r = r1 ++ z :: r2 → (length r2 < fuel)%nat →
  (∃ z' y fuel', z' ∈ x :: r ∧ y ∈ x :: r ∧ h_ptr (hd s z'.1) = y.1 ∧ nunits ≤ y.2 ∧
     malloc_loop sbrk_ok nunits z.1 (h_ptr (hd s z.1)) fuel s = malloc_loop sbrk_ok nunits z'.1 y.1 (S fuel') s) ∨
  ((∀ y, y ∈ r2 ++ [x] → y.2 < nunits) ∧ ∃ fuel', fuel = (fuel' + length r2 + 1)%nat ∧
     malloc_loop sbrk_ok nunits z.1 (h_ptr (hd s z.1)) fuel s =
     (let! p := morecore sbrk_ok fuel' nunits in
      if p =? 0 then ret 0 else
      let! x := get_hdr p in malloc_loop sbrk_ok nunits p (h_ptr x) fuel') s).
Proof.
  intros Hl Hfp Hnd. revert r1 z fuel. induction r2 as [|y r2 IH]; intros r1 z fuel E Hf.
  all: (destruct fuel as [|fuel]; [lia|]).
  all: assert (z ∈ x :: r) as Hz by (rewrite E; set_solver).
  all: assert ((x :: r) !! length r1 = Some z) as Hzi by (rewrite E; by apply list_lookup_middle).
  all: pose proof (lseg_next _ _ _ _ _ _ Hl Hzi) as Hnx.
  - rewrite (lookup_ge_None_2 _ (S (length r1))) in Hnx by (rewrite E, length_app; simpl; lia).
    rewrite Hnx. destruct (decide (nunits ≤ x.2)) as [Hfit|Hfit].
    + left. exists z, x, fuel. split_and!; try done. set_solver.
    + right. split; [intros y Hy; apply list_elem_of_singleton in Hy as ->; lia|]. exists fuel. split; [simpl; lia|].
      cbn [malloc_loop]. unfold get_hdr at 1. rewrite bind_gets.
      assert (h_size (hd s x.1) = x.2) as -> by apply Hl. destruct (Z.leb_spec nunits x.2); [lia|].
      unfold bind at 1, get. by rewrite Hfp, Z.eqb_refl.
  - assert ((x :: r) !! S (length r1) = Some y) as Hyi.
    { rewrite E. rewrite lookup_app_r by lia. by replace (S (length r1) - length r1)%nat with 1%nat by lia. }
    rewrite Hyi in Hnx. rewrite Hnx. assert (h_size (hd s y.1) = y.2) as Hys.
    { rewrite E in Hl. apply lseg_app in Hl as (m & _ & (_ & _ & Hl)). destruct Hl as (E1 & E2 & _). by rewrite <- E1. }
    destruct (decide (nunits ≤ y.2)) as [Hfit|Hfit].
    + left. exists z, y, fuel. split_and!; try done. by eapply list_elem_of_lookup_2.
    + assert (y.1 ≠ x.1) as Hne.
      { intros Eyx. assert (S (length r1) = 0%nat); [|done]. eapply (NoDup_lookup _ _ _ x.1); [exact Hnd| |done].
        rewrite list_lookup_fmap, Hyi. simpl. by f_equal. }
      assert (malloc_loop sbrk_ok nunits z.1 y.1 (S fuel) s = malloc_loop sbrk_ok nunits y.1 (h_ptr (hd s y.1)) fuel s) as Hstep
        by (cbn [malloc_loop]; unfold get_hdr at 1; rewrite bind_gets, Hys; destruct (Z.leb_spec nunits y.2); [lia|];
            unfold bind at 1, get; rewrite Hfp; by rewrite (proj2 (Z.eqb_neq _ _) Hne)).
      destruct (IH (r1 ++ [z]) y fuel) as [(z' & y' & f' & Hz' & Hy' & H1 & H2 & H3)|(Hall & f' & -> & H3)].
      { rewrite E, <- app_assoc. done. } { simpl in Hf. lia. }
      * left. exists z', y', f'. rewrite Hstep. done.
      * right. split; [intros b [->|Hb]%elem_of_cons; [lia|by apply Hall]|]. exists f'. split; [simpl; lia|]. by rewrite Hstep.
Qed.

Lemma scan_around s fl used owned nunits fuel : inv s fl used owned → 0 < nunits → (length fl < fuel)%nat →
  (∃ s' fl' q, malloc_loop sbrk_ok nunits (freep s) (h_ptr (hd s (freep s))) fuel s = Ok (q + 8) s' ∧
     inv s' fl' ((q, nunits) :: used) owned ∧ brk s' = brk s ∧ base < q) ∨
  ((∀ y, y ∈ fl → y.2 < nunits) ∧ ∃ fuel', fuel = (fuel' + length fl + 1)%nat ∧
     malloc_loop sbrk_ok nunits (freep s) (h_ptr (hd s (freep s))) fuel s =
     (let! p := morecore sbrk_ok fuel' nunits in
      if p =? 0 then ret 0 else
      let! x := get_hdr p in malloc_loop sbrk_ok nunits p (h_ptr x) fuel') s).
Proof.
  intros H Hn Hf. pose proof (i_freep _ _ _ _ H) as Hfp. pose proof (i_list _ _ _ _ H) as Hl. pose proof (inv_nodes _ _ _ _ H) as Hnd.
  apply list_elem_of_fmap in Hfp as (x & Efp & Hx). apply list_elem_of_split in Hx as (u & v & E).
  rewrite E in Hl, Hnd. apply lseg_app in Hl as (m & Hlu & Hlv). assert (m = x.1) as -> by apply Hlv.
  assert (x :: v ++ u ≡ₚ (base, 0) :: fl) as Hp by (rewrite E; solve_Permutation).
  assert (length (v ++ u) = length fl) as Hlen by (apply Permutation_length in Hp; simpl in Hp; lia).
  destruct (malloc_scan nunits s x (v ++ u) x [] (v ++ u) fuel) as [(z & y & f' & Hz & Hy & H1 & H2 & H3)|(Hall & f' & -> & H3)]; try done.
  - rewrite app_comm_cons. apply lseg_app. by exists base.
  - by rewrite Hp, <- E in * || (rewrite Hp, E; done).
  - lia.
  - left. rewrite Hp in Hz, Hy. apply elem_of_cons in Hy as [->|Hy]; [simpl in H2; lia|].
    destruct (take_spec s fl used owned nunits z y f' H Hz Hy H1 ltac:(lia)) as (s' & fl' & q & R & H' & Hb & Hq).
    exists s', fl', q. rewrite Efp, H3. done.
  - right. split.
    + intros y Hy. apply Hall. assert (y ∈ x :: v ++ u) as Hin by (rewrite Hp; set_solver). set_solver.
    + exists f'. rewrite <- Hlen, Efp. done.
Qed.

Lemma malloc_loop_spec s fl used owned nunits fuel :
  inv s fl used owned → 0 < nunits < 2 ^ 28 → (3 * length fl + 5 ≤ fuel)%nat →
  ∃ p s' fl' used' owned', malloc_loop sbrk_ok nunits (freep s) (h_ptr (hd s (freep s))) fuel s = Ok p s' ∧
    inv s' fl' used' owned' ∧ brk s ≤ brk s' ∧
    (p = 0 ∧ used' = used ∨ ∃ q, p = q + 8 ∧ base < q ∧ used' = (q, nunits) :: used).
Proof.
  intros H Hn Hf. destruct (scan_around s fl used owned nunits fuel H ltac:(lia) ltac:(lia))
    as [(s' & fl' & q & R & H' & Hb & Hq)|(Hall & f' & -> & R)].
  - exists (q + 8), s', fl', ((q, nunits) :: used), owned. split; [done|]. split; [done|]. split; [lia|]. right. by exists q.
  - rewrite R. destruct (morecore_spec s fl used owned nunits f' H ltac:(lia) ltac:(lia))
      as [Hm|(s1 & fl1 & owned1 & Hm & H1 & Hb1 & Hlen1 & b & Hb & Hbn)]; erewrite bind_Ok by exact Hm.
    + exists 0, s, fl, used, owned. split; [done|]. split; [done|]. split; [lia|]. by left.
    + assert (0 < freep s1) as Hfp.
      { pose proof (i_freep _ _ _ _ H1) as Hin. pose proof (i_base _ _ _ _ H1).
        apply list_elem_of_fmap in Hin as (c & -> & [->|Hc]%elem_of_cons); [done|].
        destruct (sep_lt _ _ _ (i_sep _ _ _ _ H1) Hc). lia. }
      destruct (Z.eqb_spec (freep s1) 0); [lia|]. unfold get_hdr. rewrite bind_gets.
      destruct (scan_around s1 fl1 used owned1 nunits f' H1 ltac:(lia) ltac:(lia))
        as [(s' & fl' & q & R' & H' & Hb' & Hq)|(Hall' & _)]; [|specialize (Hall' b Hb); lia].
      exists (q + 8), s', fl', ((q, nunits) :: used), owned1. split; [done|]. split; [done|]. split; [lia|]. right. by exists q.
Qed.

Lemma sep_length lo l : sep lo l → lo + length l ≤ end_of lo l.
Proof. revert lo. induction l as [|b l IH]; intros lo; simpl; [lia|]. intros (H1 & H2 & H3). specialize (IH _ H3). lia. Qed.

Lemma heap_fuel_enough s fl used owned : inv s fl used owned → (3 * length fl + 5 ≤ heap_fuel s)%nat.
Proof.
  intros H. pose proof (sep_length _ _ (i_sep _ _ _ _ H)) as Hlen. pose proof (i_base _ _ _ _ H). pose proof (i_brk _ _ _ _ H).
  assert (end_of base fl ≤ brk s) as He.
  { destruct fl as [|b fl' _] using rev_ind; [simpl; lia|]. rewrite end_of_snoc.
    destruct (inv_block _ _ _ _ b H ltac:(set_solver)) as (_ & _ & ?). done. }
  unfold heap_fuel. lia.
Qed.

(** ** Sequences of calls *)

(** The pointers handed out and not yet freed, with the sizes asked for. *)
Definition blocks_of (used live : list block) : Prop :=
  Forall2 (λ u l : block, l.1 = u.1 + 8 ∧ l.2 ≤ 8 * (u.2 - 1)) used live.

Definition heap_ok (s : ust) (live : list block) : Prop :=
  (freep s = 0 ∧ live = [] ∧ 0 < base ∧ base + 8 ≤ brk s ≤ 2 ^ 31) ∨
  ∃ fl used owned, inv s fl used owned ∧ freep s ≠ 0 ∧ blocks_of used live.

Lemma inv_freep s fl used owned : inv s fl used owned → freep s ≠ 0.
Proof.
  intros H. pose proof (i_freep _ _ _ _ H) as Hin. pose proof (i_base _ _ _ _ H).
  apply list_elem_of_fmap in Hin as (c & -> & [->|Hc]%elem_of_cons); [simpl; lia|].
  destruct (sep_lt _ _ _ (i_sep _ _ _ _ H) Hc). lia.
Qed.

Lemma malloc_units_small nb : 0 ≤ nb ≤ 2 ^ 31 - 32 → 0 < malloc_units nb < 2 ^ 28 ∧ nb ≤ 8 * (malloc_units nb - 1).
Proof.
  intros H. unfold malloc_units. rewrite (u32_small (nb + 8 - 1)) by (unfold is_u32; lia).
  rewrite u32_small by (unfold is_u32; Z.div_mod_to_equations; lia). Z.div_mod_to_equations. lia.
Qed.

(** An empty list with [base] on it, as the first call makes. *)
Lemma inv_init s : 0 < base → base + 8 ≤ brk s ≤ 2 ^ 31 → inv (Ust (upd (hd s) base (Hdr base 0)) base (brk s)) [] [] [].
Proof.
  intros Hb Hk. split; cbn; try done; [by rewrite upd_here|set_solver|constructor|by intros x ?%not_elem_of_nil|by intros b ?%not_elem_of_nil].
Qed.

Lemma malloc_ok nb s live : heap_ok s live → 0 ≤ nb ≤ 2 ^ 31 - 32 →
  ∃ p s', malloc base sbrk_ok nb s = Ok p s' ∧ heap_ok s' (if p =? 0 then live else (p, nb) :: live).
Proof.
  intros Hs Hnb. destruct (malloc_units_small nb Hnb) as [Hu Hnbu].
  assert (∃ s1 fl used owned, (if freep s =? 0 then do! set_hdr base (Hdr base 0) in set_freep base else ret tt) s = Ok tt s1 ∧
    inv s1 fl used owned ∧ blocks_of used live ∧ brk s1 = brk s) as (s1 & fl & used & owned & R1 & H1 & Hlv & Hb1).
  { destruct Hs as [(Hf & -> & Hb & Hk)|(fl & used & owned & H & Hf & Hlv)].
    - rewrite Hf. eexists _, [], [], []. split; [reflexivity|]. split; [exact (inv_init s Hb Hk)|]. split; [constructor|done].
    - rewrite (proj2 (Z.eqb_neq _ _) Hf). by exists s, fl, used, owned. }
  pose proof (heap_fuel_enough s1 fl used owned H1) as Hfuel.
  assert (heap_fuel s1 = heap_fuel s) as Ef by (unfold heap_fuel; by rewrite Hb1). rewrite Ef in Hfuel.
  destruct (malloc_loop_spec s1 fl used owned (malloc_units nb) (heap_fuel s) H1 Hu Hfuel)
    as (p & s' & fl' & used' & owned' & R & H' & _ & Hp).
  exists p, s'. split.
  - unfold malloc, malloc_at. unfold bind at 1, get. erewrite bind_Ok by exact R1. unfold bind at 1, get. unfold get_hdr. rewrite bind_gets. exact R.
  - pose proof (inv_freep _ _ _ _ H'). destruct Hp as [[-> ->]|(q & -> & Hq & ->)].
    + right. by exists fl', used, owned'.
    + destruct (Z.eqb_spec (q + 8) 0); [pose proof (i_base _ _ _ _ H'); lia|]. right.
      exists fl', ((q, malloc_units nb) :: used), owned'. split; [done|]. split; [done|]. constructor; [|done]. cbn. lia.
Qed.

Lemma inv_perm s fl used used' owned : inv s fl used owned → used ≡ₚ used' → inv s fl used' owned.
Proof.
  intros [] Hp. split; try done.
  - rewrite <- i_cover0, !cover_app. f_equiv. clear -Hp. induction Hp; rewrite ?cover_cons; [done|by f_equiv|solve_Permutation|by etrans].
  - intros b Hb. apply i_used0. by rewrite Hp.
Qed.

Lemma free_ok k p n s live : heap_ok s live → live !! k = Some (p, n) →
  ∃ s', free p s = Ok tt s' ∧ heap_ok s' (delete k live).
Proof.
  intros Hs Hk. destruct Hs as [(_ & -> & _)|(fl & used & owned & H & Hf & Hlv)]; [done|].
  destruct (Forall2_lookup_r _ _ _ _ _ Hlv Hk) as ([bp m] & Hu & Hp & Hn). cbn [fst snd] in *. subst p.
  pose proof (inv_perm _ _ _ _ _ H (delete_Permutation _ _ _ Hu)) as H'. pose proof (heap_fuel_enough _ _ _ _ H) as Hfuel.
  destruct (free_spec s fl (delete k used) owned bp m (heap_fuel s) H' ltac:(lia)) as (s' & fl' & R & H2 & _).
  exists s'. split; [exact R|]. right. exists fl', (delete k used), owned. split; [done|]. split; [by eapply inv_freep|].
  by apply Forall2_delete.
Qed.

(** Blocks handed out lie in the heap and do not overlap. *)
Lemma heap_ok_disjoint s live i j b c : heap_ok s live → live !! i = Some b → live !! j = Some c → i ≠ j →
  base + 8 ≤ b.1 ∧ b.1 + b.2 ≤ brk s ∧ (b.1 + b.2 ≤ c.1 ∨ c.1 + c.2 ≤ b.1).
Proof.
  intros Hs Hi Hj Hne. destruct Hs as [(_ & -> & _)|(fl & used & owned & H & Hf & Hlv)]; [done|].
  destruct (Forall2_lookup_r _ _ _ _ _ Hlv Hi) as (u & Hu & Hu1 & Hu2). destruct (Forall2_lookup_r _ _ _ _ _ Hlv Hj) as (v & Hv & Hv1 & Hv2).
  pose proof (list_elem_of_lookup_2 _ _ _ Hu) as Iu. pose proof (list_elem_of_lookup_2 _ _ _ Hv) as Iv.
  destruct (inv_block _ _ _ _ u H ltac:(set_solver)) as (U0 & U1 & U2). destruct (inv_block _ _ _ _ v H ltac:(set_solver)) as (V0 & _).
  pose proof (inv_perm _ _ _ _ _ H (delete_Permutation _ _ _ Hu)) as H'. pose proof (inv_nodup _ _ _ _ H') as Hnd.
  rewrite cover_app in Hnd. apply list.NoDup_app in Hnd as (_ & _ & Hnd).
  assert (v ∈ delete i used) as Ivd.
  { destruct (decide (j < i)%nat).
    - eapply (list_elem_of_lookup_2 _ j). by rewrite list_lookup_delete_lt.
    - eapply (list_elem_of_lookup_2 _ (j - 1)). rewrite list_lookup_delete_ge by lia. by replace (S (j - 1)) with j by lia. }
  destruct (cover_disjoint [u] (delete i used) u v Hnd) as [?|?]; try done; [set_solver|lia|lia].
Qed.

(** Calls of a program: [UFree k] frees the [k]-th live block. *)
Inductive uop := UMalloc (nb : Z) | UFree (k : nat).

Fixpoint urun (ops : list uop) (live : list block) : M ust (list block) :=
  match ops with
  | [] => ret live
  | UMalloc nb :: ops =>
      let! p := malloc base sbrk_ok nb in
      urun ops (if p =? 0 then live else (p, nb) :: live)
  | UFree k :: ops =>
      match live !! k with
      | Some (p, _) => do! free p in urun ops (delete k live)
      | None => urun ops live
      end
  end.
End invariant.

(** C26: the allocator is safe.  From an unused heap, every sequence of [malloc]
    calls of less than 2 GB and [free] calls of live pointers returns, and the
    live blocks, each of the size asked for, lie between the static header and
    the break and are pairwise disjoint. *)
Theorem umalloc_safe base sbrk_ok (sbrk_limit : ∀ b n, sbrk_ok b n = true → b + n ≤ 2 ^ 31) ops s :
  0 < base → base + 8 ≤ brk s ≤ 2 ^ 31 → freep s = 0 →
  (∀ nb, UMalloc nb ∈ ops → 0 ≤ nb ≤ 2 ^ 31 - 32) →
  ∃ live s', urun base sbrk_ok ops [] s = Ok live s' ∧
    ∀ i j b c, live !! i = Some b → live !! j = Some c → i ≠ j →
      base + 8 ≤ b.1 ∧ b.1 + b.2 ≤ brk s' ∧ (b.1 + b.2 ≤ c.1 ∨ c.1 + c.2 ≤ b.1).
Proof.
  intros Hb Hk Hf Hops.
  assert (∀ live s, heap_ok base s live → ∃ live' s', urun base sbrk_ok ops live s = Ok live' s' ∧ heap_ok base s' live') as Hrun.
  { induction ops as [|[nb|k] ops IH]; intros live s1 Hs; cbn [urun]; [by exists live, s1|..].
    - destruct (malloc_ok base sbrk_ok sbrk_limit nb s1 live Hs) as (p & s2 & R & H2); [apply Hops; set_solver|].
      erewrite bind_Ok by exact R. apply IH; [|done]. intros; apply Hops; set_solver.
    - assert (∀ nb, UMalloc nb ∈ ops → 0 ≤ nb ≤ 2 ^ 31 - 32) as Hops' by (intros; apply Hops; set_solver).
      destruct (live !! k) as [[p n]|] eqn:E; [|by apply IH].
      destruct (free_ok base sbrk_ok sbrk_limit k p n s1 live Hs E) as (s2 & R & H2). erewrite bind_Ok by exact R. by apply IH. }
  destruct (Hrun [] s) as (live & s' & R & H'); [by left|]. exists live, s'. split; [done|].
  intros i j b c Hi Hj Hne. by eapply heap_ok_disjoint.
Qed.

Lemma umalloc_safe_witness :
  ∃ live s', urun 512 (λ b n, b + n <=? 2 ^ 31) [UMalloc 100; UMalloc 24; UFree 1; UMalloc 8] [] (Ust (λ _, Hdr 0 0) 0 4096) = Ok live s' ∧
    ∀ i j b c, live !! i = Some b → live !! j = Some c → i ≠ j →
      512 + 8 ≤ b.1 ∧ b.1 + b.2 ≤ brk s' ∧ (b.1 + b.2 ≤ c.1 ∨ c.1 + c.2 ≤ b.1).
Proof.
  apply (umalloc_safe 512 (λ b n, b + n <=? 2 ^ 31)).
  - intros b n. apply Z.leb_le.
  - lia.
  - cbn. lia.
  - reflexivity.
  - intros nb Hin. repeat (apply elem_of_cons in Hin as [Hin|Hin]; [injection Hin as -> || discriminate Hin; lia|]).
    by apply not_elem_of_nil in Hin.
Defined.

(** A request close to 4 GB wraps around in the computation of the number of
    units: the caller gets a block of no bytes instead of a failure. *)
Lemma malloc_wraps : malloc_units (2 ^ 32 - 1) = 1.
Proof. reflexivity. Qed.
