(* ===== verification/Lapic.v ===== *)
(** * The local APIC and the CMOS clock: lapic.c

    The interrupt controller inside a CPU, programmed through memory-mapped
    registers, and the clock behind ports 0x70 and 0x71.  The code is written
    against [PortIO]; [LocalApic] and [CmosClock] state what it relies on of the
    two devices.  [microdelay] does nothing in the source and is left out.
    [lapic], the address of the registers, is a variable that mpinit sets; 0
    means that there is no APIC. *)
From S2P Require Import Prelude Str Kalloc Port.

(** Registers, as indices of 32-bit words, and their bits. *)
Definition ID : Z := 0x20 / 4.
Definition VER : Z := 0x30 / 4.
Definition TPR : Z := 0x80 / 4.
Definition EOI : Z := 0xb0 / 4.
Definition SVR : Z := 0xf0 / 4.
Definition ENABLE : Z := 0x100.
Definition ESR : Z := 0x280 / 4.
Definition ICRLO : Z := 0x300 / 4.
Definition INIT : Z := 0x500.
Definition STARTUP : Z := 0x600.
Definition DELIVS : Z := 0x1000.
Definition ASSERT : Z := 0x4000.
Definition LEVEL : Z := 0x8000.
Definition BCAST : Z := 0x80000.
Definition ICRHI : Z := 0x310 / 4.
Definition TIMER : Z := 0x320 / 4.
Definition X1 : Z := 0xb.
Definition PERIODIC : Z := 0x20000.
Definition PCINT : Z := 0x340 / 4.
Definition LINT0 : Z := 0x350 / 4.
Definition LINT1 : Z := 0x360 / 4.
Definition ERROR : Z := 0x370 / 4.
Definition MASKED : Z := 0x10000.
Definition TICR : Z := 0x380 / 4.
Definition TDCR : Z := 0x3e0 / 4.

Definition CMOS_PORT : Z := 0x70.
Definition CMOS_RETURN : Z := 0x71.
Definition CMOS_STATA : Z := 0x0a.
Definition CMOS_STATB : Z := 0x0b.
Definition CMOS_UIP : Z := Z.shiftl 1 7.
Definition SECS : Z := 0.
Definition MINS : Z := 2.
Definition HOURS : Z := 4.
Definition DAY : Z := 7.
Definition MONTH : Z := 8.
Definition YEAR : Z := 9.

Record rtcdate := mkDate { second : Z; minute : Z; hour : Z; day : Z; month : Z; year : Z }.
#[export] Instance rtcdate_eq_dec : EqDecision rtcdate.
Proof. solve_decision. Defined.

(** The kernel's memory beside the device, for the warm reset vector. *)
Record lapst (D : Type) := mkLap { lp_mem : mem; lp_dev : D }.
Arguments mkLap {D}.
Arguments lp_mem {D}.
Arguments lp_dev {D}.

Section code.
Context {D : Type} {P : PortIO D}.
Context (lapic : Z).

Definition lapicr (index : Z) : M D Z := p_load (lapic + 4 * index).
Definition lapicw (index value : Z) : M D unit :=
  do! p_store (lapic + 4 * index) (u32 value) in
  let! _ := lapicr ID in
  ret tt.

(** [while(lapic[ICRLO] & DELIVS)] *)
Fixpoint delivs_loop (fuel : nat) : M D unit :=
  match fuel with
  | O => λ _, Fuel
  | S fuel =>
      let! x := lapicr ICRLO in
      if truthy (Z.land x DELIVS) then delivs_loop fuel else ret tt
  end.

Definition lapicinit (fuel : nat) : M D unit :=
  if negb (truthy lapic) then ret tt else
  do! lapicw SVR (Z.lor ENABLE (T_IRQ0 + IRQ_SPURIOUS)) in
  do! lapicw TDCR X1 in
  do! lapicw TIMER (Z.lor PERIODIC (T_IRQ0 + IRQ_TIMER)) in
  do! lapicw TICR 10000000 in
  do! lapicw LINT0 MASKED in
  do! lapicw LINT1 MASKED in
  let! v := lapicr VER in
  do! (if 4 <=? Z.land (Z.shiftr v 16) 0xff then lapicw PCINT MASKED else ret tt) in
  do! lapicw ERROR (T_IRQ0 + IRQ_ERROR) in
  do! lapicw ESR 0 in
  do! lapicw ESR 0 in
  do! lapicw EOI 0 in
  do! lapicw ICRHI 0 in
  do! lapicw ICRLO (Z.lor (Z.lor BCAST INIT) LEVEL) in
  do! delivs_loop fuel in
  lapicw TPR 0.

Definition lapicid : M D Z :=
  if negb (truthy lapic) then ret 0 else
  let! x := lapicr ID in
  ret (s32 (Z.shiftr x 24)).

Definition lapiceoi : M D unit := if truthy lapic then lapicw EOI 0 else ret tt.

(** The body of the loop that sends the start-up interrupt. *)
Definition startup_ipi (apicid addr : Z) : M D unit :=
  do! lapicw ICRHI (Z.shiftl apicid 24) in
  lapicw ICRLO (Z.lor STARTUP (Z.shiftr addr 12)).

Definition dev {A} (m : M D A) : M (lapst D) A := zoom lp_dev (λ d s, mkLap (lp_mem s) d) m.
Definition st16 (m : mem) (a x : Z) : mem := st8 (st8 m a (u8 x)) (a + 1) (u8 (Z.shiftr x 8)).

Definition lapicstartap (apicid addr : Z) : M (lapst D) unit :=
  do! dev (outb CMOS_PORT 0xf) in
  do! dev (outb (CMOS_PORT + 1) 0x0a) in
  let wrv := P2V (Z.lor (Z.shiftl 0x40 4) 0x67) in
  do! modify (λ s, mkLap (st16 (lp_mem s) wrv 0) (lp_dev s)) in
  do! modify (λ s, mkLap (st16 (lp_mem s) (wrv + 2) (Z.shiftr addr 4)) (lp_dev s)) in
  do! dev (lapicw ICRHI (Z.shiftl apicid 24)) in
  do! dev (lapicw ICRLO (Z.lor (Z.lor INIT LEVEL) ASSERT)) in
  do! dev (lapicw ICRLO (Z.lor INIT LEVEL)) in
  do! dev (startup_ipi apicid addr) in
  dev (startup_ipi apicid addr).

Definition cmos_read (reg : Z) : M D Z :=
  do! outb CMOS_PORT reg in
  inb CMOS_RETURN.

Definition fill_rtcdate : M D rtcdate :=
  let! s := cmos_read SECS in
  let! m := cmos_read MINS in
  let! h := cmos_read HOURS in
  let! d := cmos_read DAY in
  let! mo := cmos_read MONTH in
  let! y := cmos_read YEAR in
  ret (mkDate s m h d mo y).

(** [for(;;)]: two equal readings outside an update.  The structures have six
    words and no padding: [memcmp] compares the fields. *)
Fixpoint time_loop (fuel : nat) : M D rtcdate :=
  match fuel with
  | O => λ _, Fuel
  | S fuel =>
      let! t1 := fill_rtcdate in
      let! a := cmos_read CMOS_STATA in
      if truthy (Z.land a CMOS_UIP) then time_loop fuel else
      let! t2 := fill_rtcdate in
      if bool_decide (t1 = t2) then ret t1 else time_loop fuel
  end.

Definition CONV (x : Z) : Z := u32 (Z.shiftr x 4 * 10 + Z.land x 0xf).

Definition cmostime (fuel : nat) : M D rtcdate :=
  let! sb := cmos_read CMOS_STATB in
  let bcd := Z.land sb (Z.shiftl 1 2) =? 0 in
  let! t1 := time_loop fuel in
  let t1 :=
    if bcd then mkDate (CONV (second t1)) (CONV (minute t1)) (CONV (hour t1)) (CONV (day t1)) (CONV (month t1)) (CONV (year t1))
    else t1 in
  ret (mkDate (second t1) (minute t1) (hour t1) (day t1) (month t1) (u32 (year t1 + 2000))).
End code.

(** ** The devices *)

(** A local APIC: its registers, the interprocessor interrupts it was told to
    send (the two words of the command), how long sending takes, how many
    readings until the last one is delivered, and the machine's shutdown code
    behind the CMOS index register. *)
Record apic := mkApic {
  ap_regs : gmap Z Z; ap_sent : list (Z * Z); ap_busy : nat; ap_latency : nat;
  ap_index : Z; ap_cmos : gmap Z Z }.

Definition areg (a : apic) (i : Z) : Z := default 0 (ap_regs a !! i).
Definition apic_store (i v : Z) (a : apic) : apic :=
  if i =? ICRLO then
    mkApic (<[i := v]> (ap_regs a)) (ap_sent a ++ [(areg a ICRHI, v)]) (ap_latency a) (ap_latency a) (ap_index a) (ap_cmos a)
  else mkApic (<[i := v]> (ap_regs a)) (ap_sent a) (ap_busy a) (ap_latency a) (ap_index a) (ap_cmos a).
Definition apic_load (i : Z) (a : apic) : Z :=
  if i =? ICRLO then Z.lor (Z.ldiff (areg a i) DELIVS) (if (0 <? ap_busy a)%nat then DELIVS else 0) else areg a i.
Definition apic_loaded (i : Z) (a : apic) : apic :=
  if i =? ICRLO then mkApic (ap_regs a) (ap_sent a) (pred (ap_busy a)) (ap_latency a) (ap_index a) (ap_cmos a) else a.
Definition apic_cmos (port v : Z) (a : apic) : apic :=
  if port =? CMOS_PORT then mkApic (ap_regs a) (ap_sent a) (ap_busy a) (ap_latency a) v (ap_cmos a)
  else mkApic (ap_regs a) (ap_sent a) (ap_busy a) (ap_latency a) (ap_index a) (<[ap_index a := v]> (ap_cmos a)).

Class LocalApic (D : Type) {P : PortIO D} (lapic : Z) := {
  la_rep : D → apic → Prop;
  la_store_ok d a i v : la_rep d a → 0 ≤ i < 1024 →
    ∃ d', p_store (lapic + 4 * i) v d = Ok tt d' ∧ la_rep d' (apic_store i v a);
  la_load_ok d a i : la_rep d a → 0 ≤ i < 1024 →
    ∃ d', p_load (lapic + 4 * i) d = Ok (apic_load i a) d' ∧ la_rep d' (apic_loaded i a);
  la_cmos_ok d a port v : la_rep d a → port ∈ [CMOS_PORT; CMOS_PORT + 1] →
    ∃ d', p_out port v d = Ok tt d' ∧ la_rep d' (apic_cmos port v a) }.

(** A clock: [ck_time i r] is what register [r] shows at reading [i], so that
    the time may change between any two readings. *)
Record clock := mkClock { ck_time : nat → Z → Z; ck_now : nat; ck_reg : Z }.

Class CmosClock (D : Type) {P : PortIO D} := {
  ck_rep : D → clock → Prop;
  ck_out_ok d c r : ck_rep d c → ∃ d', p_out CMOS_PORT r d = Ok tt d' ∧ ck_rep d' (mkClock (ck_time c) (ck_now c) r);
  ck_in_ok d c : ck_rep d c →
    ∃ d', p_in CMOS_RETURN d = Ok (ck_time c (ck_now c) (ck_reg c)) d' ∧ ck_rep d' (mkClock (ck_time c) (S (ck_now c)) (ck_reg c)) }.

Section instances.
Definition apic_port (lapic : Z) : PortIO apic := {|
  p_in := λ _, panic "no such port"; p_out := λ port v, modify (apic_cmos port v);
  p_ins := λ _ _, panic "no such port"; p_outs := λ _ _, panic "no such port";
  p_load := λ x a, Ok (apic_load ((x - lapic) / 4) a) (apic_loaded ((x - lapic) / 4) a);
  p_store := λ x v, modify (apic_store ((x - lapic) / 4) v) |}.

#[program] Definition apic_apic (lapic : Z) : @LocalApic apic (apic_port lapic) lapic := {| la_rep := eq |}.
Next Obligation. intros lapic d a i v -> Hi. eexists. split; [reflexivity|]. cbn. by replace ((lapic + 4 * i - lapic) / 4) with i by (apply (Z.div_unique_pos _ _ _ 0); lia). Qed.
Next Obligation. intros lapic d a i -> Hi. eexists. cbn. replace ((lapic + 4 * i - lapic) / 4) with i by (apply (Z.div_unique_pos _ _ _ 0); lia). done. Qed.
Next Obligation. intros lapic d a port v -> _. by eexists. Qed.

Definition clock_port : PortIO clock := {|
  p_in := λ _ c, Ok (ck_time c (ck_now c) (ck_reg c)) (mkClock (ck_time c) (S (ck_now c)) (ck_reg c));
  p_out := λ _ r c, Ok tt (mkClock (ck_time c) (ck_now c) r);
  p_ins := λ _ _, panic "no such port"; p_outs := λ _ _, panic "no such port";
  p_load := λ _, panic "no register"; p_store := λ _ _, panic "no register" |}.
#[program] Definition clock_clock : @CmosClock clock clock_port := {| ck_rep := eq |}.
Next Obligation. intros d c r ->. by eexists. Qed.
Next Obligation. intros d c ->. by eexists. Qed.
End instances.

(** ** The time *)

(** A field of a date as the clock stores it. *)
Definition enc (bcd : bool) (x : Z) : Z := if bcd then 16 * (x / 10) + x `mod` 10 else x.
Definition map_date (f : Z → Z) (t : rtcdate) : rtcdate :=
  mkDate (f (second t)) (f (minute t)) (f (hour t)) (f (day t)) (f (month t)) (f (year t)).
Definition date_all (Q : Z → Prop) (t : rtcdate) : Prop :=
  Q (second t) ∧ Q (minute t) ∧ Q (hour t) ∧ Q (day t) ∧ Q (month t) ∧ Q (year t).

(** The registers at reading [i] show [date i]. *)
Definition shows (T : nat → Z → Z) (bcd : bool) (date : nat → rtcdate) : Prop := ∀ i,
  date_all (λ x, 0 ≤ x < 100) (date i) ∧
  map_date (enc bcd) (date i) = mkDate (u8 (T i SECS)) (u8 (T i MINS)) (u8 (T i HOURS)) (u8 (T i DAY)) (u8 (T i MONTH)) (u8 (T i YEAR)).

Lemma CONV_enc x : 0 ≤ x < 100 → CONV (enc true x) = x.
Proof.
  intros Hx. assert (∀ y, y ∈ seqZ 0 100 → CONV (enc true y) = y) as H.
  { apply list.Forall_forall. apply (bool_decide_unpack _). vm_compute. reflexivity. }
  apply H. apply elem_of_seqZ. lia.
Qed.

Section time.
Context {D : Type} {P : PortIO D} {C : CmosClock D}.
Context (T : nat → Z → Z) (bcd : bool) (date : nat → rtcdate).
Context (Hshow : shows T bcd date).
(** Two changes of the date are not within two readings of the clock. *)
Context (Hslow : ∀ i, ∃ j, (∀ k, (i ≤ k < j)%nat → date k = date i) ∧ (∀ k, (j ≤ k < i + 13)%nat → date k = date (i + 12)%nat)).

Definition at_time (d : D) (n : nat) : Prop := ∃ r, ck_rep d (mkClock T n r).

Lemma cmos_read_spec d n r : at_time d n → 0 ≤ r < 256 → ∃ d', cmos_read r d = Ok (u8 (T n r)) d' ∧ at_time d' (S n).
Proof.
  intros [r0 H] Hr. unfold cmos_read, outb, inb. change (u16 CMOS_PORT) with CMOS_PORT. change (u16 CMOS_RETURN) with CMOS_RETURN.
  assert (u8 r = r) as -> by (by apply Z.mod_small). destruct (ck_out_ok d _ r H) as (d1 & R1 & H1). mstep R1.
  destruct (ck_in_ok d1 _ H1) as (d2 & R2 & H2). cbn [ck_time ck_now ck_reg] in *. mstep R2. exists d2. split; [done|]. by exists r.
Qed.

(** The date put together from six readings. *)
Definition read_at (n : nat) : rtcdate :=
  mkDate (u8 (T n SECS)) (u8 (T (1 + n)%nat MINS)) (u8 (T (2 + n)%nat HOURS)) (u8 (T (3 + n)%nat DAY)) (u8 (T (4 + n)%nat MONTH)) (u8 (T (5 + n)%nat YEAR)).

Lemma fill_spec d n : at_time d n → ∃ d', fill_rtcdate d = Ok (read_at n) d' ∧ at_time d' (6 + n).
Proof.
  intros H. unfold fill_rtcdate.
  do 6 (match goal with H : at_time ?d1 ?n1 |- context [cmos_read ?r] =>
    destruct (cmos_read_spec d1 n1 r H ltac:(done)) as (?d' & ?R & ?H'); mstep R; clear R H end).
  eexists. split; [reflexivity|done].
Qed.

(** When the date does not change meanwhile, it is what is read. *)
Lemma read_at_stable n i : (∀ k, (n ≤ k < n + 6)%nat → date k = date i) → read_at n = map_date (enc bcd) (date i).
Proof.
  intros Hk. assert (∀ k, (n ≤ k < n + 6)%nat → map_date (enc bcd) (date i) =
    mkDate (u8 (T k SECS)) (u8 (T k MINS)) (u8 (T k HOURS)) (u8 (T k DAY)) (u8 (T k MONTH)) (u8 (T k YEAR))) as Hs.
  { intros k Hn. rewrite <- (Hk k Hn). apply Hshow. }
  destruct (map_date (enc bcd) (date i)) as [a b c e f g]. unfold read_at.
  f_equal; match goal with |- u8 (T ?k _) = _ => by injection (Hs k ltac:(lia)) end.
Qed.

(** A pair of equal readings is a date the clock showed. *)
Lemma read_twice n : read_at n = read_at (7 + n) → ∃ i, (n ≤ i ≤ n + 12)%nat ∧ read_at n = map_date (enc bcd) (date i).
Proof.
  intros He. destruct (Hslow n) as (j & H1 & H2). destruct (decide (j ≤ n + 6)%nat).
  - exists (n + 12)%nat. split; [lia|]. rewrite He. apply read_at_stable. intros k Hk. apply H2. lia.
  - exists n. split; [lia|]. apply read_at_stable. intros k Hk. apply H1. lia.
Qed.

(** No change of the date and no update during 26 readings from [m] on. *)
Definition quiet (m : nat) : Prop := ∀ i, (m ≤ i < m + 26)%nat → date i = date m ∧ Z.land (u8 (T i CMOS_STATA)) CMOS_UIP = 0.

Lemma time_loop_spec m fuel : quiet m → ∀ d n, at_time d n → (n < m + 13)%nat → (m - n < fuel)%nat →
  ∃ d' n' i, time_loop fuel d = Ok (map_date (enc bcd) (date i)) d' ∧ at_time d' n' ∧ (n ≤ i < n')%nat.
Proof.
  intros Hq. induction fuel as [|fuel IH]; intros d n Hn Hm Hf; [lia|]. cbn [time_loop].
  destruct (fill_spec d n Hn) as (d1 & R1 & H1). mstep R1. destruct (cmos_read_spec d1 _ CMOS_STATA H1 ltac:(done)) as (d2 & R2 & H2). mstep R2.
  assert (∀ d n', at_time d n' → (n + 7 ≤ n' ≤ n + 13)%nat → (n < m)%nat →
    ∃ d' n'' i, time_loop fuel d = Ok (map_date (enc bcd) (date i)) d' ∧ at_time d' n'' ∧ (n ≤ i < n'')%nat) as Hagain.
  { intros d3 n3 H3 Hn3 Hlt. destruct (IH d3 n3 H3 ltac:(lia) ltac:(lia)) as (d' & n' & i & R & H' & Hi). exists d', n', i. split; [done|]. split; [done|lia]. }
  destruct (truthy _) eqn:Hu.
  - apply (Hagain d2 _ H2); [lia|]. destruct (decide (n < m)%nat) as [|Hge]; [done|]. exfalso.
    destruct (Hq (6 + n)%nat ltac:(lia)) as [_ E]. by rewrite E in Hu.
  - destruct (fill_spec d2 _ H2) as (d3 & R3 & H3). mstep R3. case_bool_decide as He.
    + destruct (read_twice n He) as (i & Hi & E). exists d3, (6 + S (6 + n))%nat, i. rewrite E. split; [done|]. split; [done|lia].
    + apply (Hagain d3 _ H3); [lia|]. destruct (decide (n < m)%nat) as [|Hge]; [done|]. destruct He.
      rewrite (read_at_stable n m), (read_at_stable (S (6 + n)) m); [done| |]; intros k Hk; apply Hq; lia.
Qed.

Definition from2000 (t : rtcdate) : rtcdate := mkDate (second t) (minute t) (hour t) (day t) (month t) (2000 + year t).

Lemma cmostime_run d n m fuel : at_time d n → quiet m → (n ≤ m)%nat → (m - n < fuel)%nat → bcd = (Z.land (u8 (T n CMOS_STATB)) 4 =? 0) →
  ∃ d' n' i, cmostime fuel d = Ok (from2000 (date i)) d' ∧ at_time d' n' ∧ (n ≤ i < n')%nat.
Proof.
  intros Hn Hq Hm Hf Hb. unfold cmostime. destruct (cmos_read_spec d n CMOS_STATB Hn ltac:(done)) as (d1 & R1 & H1). mstep R1.
  change (Z.shiftl 1 2) with 4. rewrite <- Hb.
  destruct (time_loop_spec m fuel Hq d1 (S n) H1 ltac:(lia) ltac:(lia)) as (d2 & n2 & i & R2 & H2 & Hi). mstep R2.
  exists d2, n2, i. split; [|split; [done|lia]]. destruct (Hshow i) as [(H3 & H4 & H5 & H6 & H7 & H8) _]. unfold ret, from2000, map_date. f_equal.
  destruct bcd; cbn [second minute hour day month year]; rewrite ?CONV_enc by done; unfold enc; f_equal; rewrite u32_small by (unfold is_u32; lia); lia.
Qed.

(** Reading the clock.  The time may change between any two readings of the
    registers, but not twice within two readings of the date, and at some point
    [m] it stays put for a while.  Then [cmostime] ends and returns a date that
    the clock showed, as a whole, at one moment during the call, decoded from
    BCD where the clock says so, with the century added. *)
Lemma cmostime_correct d n m fuel : at_time d n → quiet m → (n ≤ m)%nat → (m - n < fuel)%nat → bcd = (Z.land (u8 (T n CMOS_STATB)) 4 =? 0) →
  ∃ d' n' i, cmostime fuel d = Ok (from2000 (date i)) d' ∧ at_time d' n' ∧ (n ≤ i < n')%nat.
Proof. apply cmostime_run. Qed.
End time.

(** ** Programming the controller *)

(** What a command word means: INIT to a CPU, asserted or not, or the address at
    which a CPU starts. *)
Inductive ipi := IInit (dest : Z) (assert : bool) | IStart (dest addr : Z).
Definition decode_ipi (c : Z * Z) : option ipi :=
  let dest := Z.shiftr c.1 24 in
  let mode := Z.land (Z.shiftr c.2 8) 7 in
  if mode =? 5 then Some (IInit dest (Z.testbit c.2 14))
  else if mode =? 6 then Some (IStart dest (Z.shiftl (Z.land c.2 0xff) 12)) else None.

Lemma areg_store i v a j : areg (apic_store i v a) j = if decide (i = j) then v else areg a j.
Proof.
  unfold areg, apic_store. destruct (i =? ICRLO); cbn [ap_regs]; (destruct (decide (i = j)) as [->|]; [by rewrite lookup_insert_eq|by rewrite lookup_insert_ne]).
Qed.
Lemma sent_store i v a : ap_sent (apic_store i v a) = ap_sent a ++ (if i =? ICRLO then [(areg a ICRHI, v)] else []).
Proof. unfold apic_store. case_match; cbn [ap_sent]; [done|by rewrite app_nil_r]. Qed.
Lemma cmos_store i v a : ap_cmos (apic_store i v a) = ap_cmos a.
Proof. unfold apic_store. by case_match. Qed.
Lemma latency_store i v a : ap_latency (apic_store i v a) = ap_latency a.
Proof. unfold apic_store. by case_match. Qed.

Section apic.
Context {D : Type} {P : PortIO D} (lapic : Z) {A : LocalApic D lapic}.
Context (Hlapic : lapic ≠ 0).
Implicit Types (d : D) (a : apic).

Lemma lapicr_spec d a i : la_rep d a → 0 ≤ i < 1024 → i ≠ ICRLO → ∃ d', lapicr lapic i d = Ok (areg a i) d' ∧ la_rep d' a.
Proof.
  intros Hr Hi Hne%Z.eqb_neq. destruct (la_load_ok d a i Hr Hi) as (d' & R & H'). unfold apic_load, apic_loaded in *. rewrite Hne in *. by exists d'.
Qed.
Lemma lapicw_spec d a i v : la_rep d a → 0 ≤ i < 1024 → ∃ d', lapicw lapic i v d = Ok tt d' ∧ la_rep d' (apic_store i (u32 v) a).
Proof.
  intros Hr Hi. unfold lapicw. destruct (la_store_ok d a i (u32 v) Hr Hi) as (d1 & R1 & H1). mstep R1.
  destruct (lapicr_spec d1 _ ID H1 ltac:(done) ltac:(done)) as (d2 & R2 & H2). mstep R2. by exists d2.
Qed.

Lemma delivs_spec fuel : ∀ d a, la_rep d a → (ap_busy a < fuel)%nat → ∃ d', delivs_loop lapic fuel d = Ok tt d' ∧
  la_rep d' (mkApic (ap_regs a) (ap_sent a) 0 (ap_latency a) (ap_index a) (ap_cmos a)).
Proof.
  induction fuel as [|fuel IH]; intros d a Hr Hb; [lia|]. cbn [delivs_loop]. destruct (la_load_ok d a ICRLO Hr ltac:(done)) as (d1 & R1 & H1). mstep R1.
  unfold apic_load, apic_loaded in *. rewrite Z.eqb_refl in *. rewrite Z.land_lor_distr_l, Z.land_ldiff, Z.lor_0_l.
  destruct (ap_busy a) as [|n]; cbn [Nat.ltb Nat.leb].
  - change (truthy (Z.land 0 DELIVS)) with false. by exists d1.
  - change (truthy (Z.land DELIVS DELIVS)) with true. cbn iota. destruct (IH d1 _ H1) as (d2 & R2 & H2); [cbn; lia|]. by exists d2.
Qed.

(** One write of a sequence. *)
Ltac write := match goal with H : la_rep ?d1 ?a1 |- context [lapicw lapic ?i ?v] =>
  destruct (lapicw_spec d1 a1 i v H ltac:(done)) as (?d' & ?R & ?H'); mstep R; clear R H end.
Ltac areg := rewrite ?areg_store; repeat first [rewrite decide_False by done | rewrite decide_True by done].

Ltac sent := rewrite ?sent_store;
  repeat match goal with |- context [?x =? ICRLO] => let b := eval vm_compute in (x =? ICRLO) in change (x =? ICRLO) with b end;
  cbn iota; rewrite ?app_nil_r.

(** The settings of a CPU's controller: interrupts on with their vectors, the
    timer periodic, the local lines masked. *)
Record configured (a : apic) : Prop := {
  cf_svr : areg a SVR = Z.lor ENABLE (T_IRQ0 + IRQ_SPURIOUS);
  cf_timer : areg a TIMER = Z.lor PERIODIC (T_IRQ0 + IRQ_TIMER) ∧ areg a TDCR = X1 ∧ areg a TICR = 10000000;
  cf_lint : areg a LINT0 = MASKED ∧ areg a LINT1 = MASKED;
  cf_error : areg a ERROR = T_IRQ0 + IRQ_ERROR ∧ areg a ESR = 0;
  cf_tpr : areg a TPR = 0 }.

(** The delivered command leaves the registers. *)
Definition delivered (a : apic) : apic := mkApic (ap_regs a) (ap_sent a) 0 (ap_latency a) (ap_index a) (ap_cmos a).
Lemma areg_delivered a j : areg (delivered a) j = areg a j.
Proof. done. Qed.

(** The first settings, up to the version register. *)
Definition init_first (a : apic) : apic :=
  apic_store LINT1 (u32 MASKED) (apic_store LINT0 (u32 MASKED) (apic_store TICR (u32 10000000) (apic_store TIMER (u32 (Z.lor PERIODIC (T_IRQ0 + IRQ_TIMER)))
    (apic_store TDCR (u32 X1) (apic_store SVR (u32 (Z.lor ENABLE (T_IRQ0 + IRQ_SPURIOUS))) a))))).
(** The ones after it. *)
Definition init_rest (a : apic) : apic :=
  apic_store TPR (u32 0) (delivered (apic_store ICRLO (u32 (Z.lor (Z.lor BCAST INIT) LEVEL)) (apic_store ICRHI (u32 0) (apic_store EOI (u32 0)
    (apic_store ESR (u32 0) (apic_store ESR (u32 0) (apic_store ERROR (u32 (T_IRQ0 + IRQ_ERROR)) a))))))).

Lemma init_configured a a1 : a1 = init_first a ∨ a1 = apic_store PCINT (u32 MASKED) (init_first a) →
  configured (init_rest a1) ∧ ap_busy (init_rest a1) = 0%nat ∧ areg (init_rest a1) PCINT = areg a1 PCINT ∧ areg (init_rest a1) ID = areg a ID ∧
  ap_sent (init_rest a1) = ap_sent a ++ [(0, Z.lor (Z.lor BCAST INIT) LEVEL)].
Proof.
  intros Ha. assert (ap_sent a1 = ap_sent a) as Es by (destruct Ha as [->| ->]; unfold init_first; by sent).
  assert (ap_sent (init_rest a1) = ap_sent a1 ++ [(0, Z.lor (Z.lor BCAST INIT) LEVEL)]) as Es'.
  { unfold init_rest. rewrite sent_store. cbn [Z.eqb ICRLO]. rewrite app_nil_r. unfold delivered at 1. cbn [ap_sent]. sent. by areg. }
  assert (areg (init_rest a1) PCINT = areg a1 PCINT) as Ep by (unfold init_rest; rewrite areg_store, areg_delivered; by areg).
  assert (areg (init_rest a1) ID = areg a ID) as Ei.
  { transitivity (areg a1 ID); [unfold init_rest; rewrite areg_store, areg_delivered; by areg|]. destruct Ha as [->| ->]; unfold init_first; by areg. }
  rewrite Es', Es. split; [|done].
  destruct Ha as [->| ->]; unfold init_rest, init_first; split; rewrite ?areg_store, ?areg_delivered; by areg.
Qed.

Lemma lapicinit_spec d a fuel : la_rep d a → (ap_latency a < fuel)%nat →
  ∃ d' a', lapicinit lapic fuel d = Ok tt d' ∧ la_rep d' a' ∧ configured a' ∧ ap_busy a' = 0%nat ∧
  (4 ≤ Z.land (Z.shiftr (areg a VER) 16) 0xff → areg a' PCINT = MASKED) ∧ areg a' ID = areg a ID ∧
  ap_sent a' = ap_sent a ++ [(0, Z.lor (Z.lor BCAST INIT) LEVEL)].
Proof.
  intros Hr Hf. unfold lapicinit. unfold truthy. rewrite (proj2 (Z.eqb_neq _ _) Hlapic). cbn [negb].
  do 6 write. match goal with H : la_rep ?d1 ?a1 |- _ => change (la_rep d1 (init_first a)) in H; destruct (lapicr_spec d1 _ VER H ltac:(done) ltac:(done)) as (d1' & R1 & H1); mstep R1; clear R1 H end.
  replace (areg (init_first a) VER) with (areg a VER) by (unfold init_first; by areg).
  set (new := 4 <=? Z.land (Z.shiftr (areg a VER) 16) 0xff).
  assert (∃ d2, (if new then lapicw lapic PCINT MASKED else ret tt) d1' = Ok tt d2 ∧ la_rep d2 (if new then apic_store PCINT (u32 MASKED) (init_first a) else init_first a))
    as (d2 & R2 & H2) by (destruct new; [by apply lapicw_spec|by exists d1']).
  mstep R2. clear R2 H1. set (a1 := if new then _ else _) in H2. do 6 write.
  match goal with H : la_rep ?d1 ?a1 |- _ => destruct (delivs_spec fuel d1 a1 H) as (d3 & R3 & H3); [|mstep R3; clear R3 H] end.
  { change (ap_busy (apic_store ICRLO _ ?x)) with (ap_latency x). rewrite !latency_store. unfold a1, init_first. destruct new; by rewrite !latency_store. }
  destruct (lapicw_spec d3 _ TPR 0 H3 ltac:(done)) as (d4 & R4 & H4). exists d4, (init_rest a1).
  destruct (init_configured a a1) as (E1 & E2 & E3 & E5 & E4); [unfold a1; destruct new; auto|].
  split; [done|]. split; [done|]. split; [done|]. split; [done|]. split; [|done]. intros Hn%Z.leb_le. rewrite E3. unfold a1, new. rewrite Hn. by rewrite areg_store, decide_True.
Qed.

(** ** Starting a CPU *)

Lemma dest_decode x : 0 ≤ x < 256 → Z.shiftr (u32 (Z.shiftl x 24)) 24 = x.
Proof.
  intros Hx. assert (∀ y, y ∈ seqZ 0 256 → Z.shiftr (u32 (Z.shiftl y 24)) 24 = y) as H.
  { apply list.Forall_forall. apply (bool_decide_unpack _). vm_compute. reflexivity. }
  apply H. apply elem_of_seqZ. lia.
Qed.
Lemma startup_decode hi addr : 0 ≤ addr < 2 ^ 20 → addr `mod` 4096 = 0 →
  decode_ipi (hi, u32 (Z.lor STARTUP (Z.shiftr addr 12))) = Some (IStart (Z.shiftr hi 24) addr).
Proof.
  intros Ha Hm. rewrite Z.shiftr_div_pow2 by lia. change (2 ^ 12) with 4096.
  assert (∀ k, k ∈ seqZ 0 256 → Z.land (Z.shiftr (u32 (Z.lor STARTUP k)) 8) 7 = 6 ∧ Z.land (u32 (Z.lor STARTUP k)) 0xff = k) as H.
  { apply list.Forall_forall. apply (bool_decide_unpack _). vm_compute. reflexivity. }
  destruct (H (addr / 4096)) as [H1 H2]; [apply elem_of_seqZ; split; [apply Z.div_pos|apply Z.div_lt_upper_bound]; lia|].
  unfold decode_ipi. cbn [fst snd]. rewrite H1, H2. cbn [Z.eqb Pos.eqb]. do 2 f_equal. rewrite Z.shiftl_mul_pow2 by lia. change (2 ^ 12) with 4096.
  pose proof (Z.div_mod addr 4096). lia.
Qed.

(** The commands [lapicstartap] sends. *)
Definition start_cmds (apicid addr : Z) : list (Z * Z) :=
  let hi := u32 (Z.shiftl apicid 24) in
  [(hi, Z.lor (Z.lor INIT LEVEL) ASSERT); (hi, Z.lor INIT LEVEL);
   (hi, u32 (Z.lor STARTUP (Z.shiftr addr 12))); (hi, u32 (Z.lor STARTUP (Z.shiftr addr 12)))].

Lemma dev_write (s : lapst D) a i v : la_rep (lp_dev s) a → 0 ≤ i < 1024 →
  ∃ s', dev (lapicw lapic i v) s = Ok tt s' ∧ la_rep (lp_dev s') (apic_store i (u32 v) a) ∧ lp_mem s' = lp_mem s.
Proof.
  intros Hr Hi. destruct (lapicw_spec _ a i v Hr Hi) as (d' & R & H'). exists (mkLap (lp_mem s) d'). split; [|done]. unfold dev, zoom. by rewrite R.
Qed.
Lemma dev_startup (s : lapst D) a apicid addr : la_rep (lp_dev s) a →
  ∃ s', dev (startup_ipi lapic apicid addr) s = Ok tt s' ∧ lp_mem s' = lp_mem s ∧
  la_rep (lp_dev s') (apic_store ICRLO (u32 (Z.lor STARTUP (Z.shiftr addr 12))) (apic_store ICRHI (u32 (Z.shiftl apicid 24)) a)).
Proof.
  intros Hr. unfold startup_ipi. destruct (lapicw_spec _ a ICRHI (Z.shiftl apicid 24) Hr ltac:(done)) as (d1 & R1 & H1).
  destruct (lapicw_spec d1 _ ICRLO (Z.lor STARTUP (Z.shiftr addr 12)) H1 ltac:(done)) as (d2 & R2 & H2).
  exists (mkLap (lp_mem s) d2). split; [|done]. unfold dev, zoom. erewrite bind_Ok by exact R1. by rewrite R2.
Qed.
Lemma dev_cmos (s : lapst D) a port v : la_rep (lp_dev s) a → port ∈ [CMOS_PORT; CMOS_PORT + 1] →
  ∃ s', dev (outb port v) s = Ok tt s' ∧ la_rep (lp_dev s') (apic_cmos port (u8 v) a) ∧ lp_mem s' = lp_mem s.
Proof.
  intros Hr Hp. unfold outb. assert (u16 port = port) as -> by (revert Hp; rewrite !list_elem_of_In; cbn; intuition (by subst)).
  destruct (la_cmos_ok _ a port (u8 v) Hr Hp) as (d' & R & H'). exists (mkLap (lp_mem s) d'). split; [|done]. unfold dev, zoom. by rewrite R.
Qed.

(** The warm reset vector, a far pointer: offset, then segment. *)
Definition reset_vector (m : mem) : Z := (m (KERNBASE + 0x467) + 256 * m (KERNBASE + 0x468)) + 16 * (m (KERNBASE + 0x469) + 256 * m (KERNBASE + 0x46a)).

Lemma reset_vector_set m addr : 0 ≤ addr < 2 ^ 20 → addr `mod` 16 = 0 →
  reset_vector (st16 (st16 m (KERNBASE + 0x467) 0) (KERNBASE + 0x467 + 2) (Z.shiftr addr 4)) = addr.
Proof.
  intros Ha Hm. unfold reset_vector, st16, st8. zcases; try lia. rewrite !Z.shiftr_div_pow2 by lia. unfold u8.
  change (0 / 2 ^ 8) with 0. change (2 ^ 8) with 256. change (2 ^ 4) with 16. Z.to_euclidean_division_equations; lia.
Qed.

Lemma lapicstartap_spec (s : lapst D) a apicid addr : la_rep (lp_dev s) a → 0 ≤ apicid < 256 → 0 ≤ addr < 2 ^ 20 → addr `mod` 4096 = 0 →
  ∃ s' a', lapicstartap lapic apicid addr s = Ok tt s' ∧ la_rep (lp_dev s') a' ∧
  ap_sent a' = ap_sent a ++ start_cmds apicid addr ∧
  decode_ipi <$> start_cmds apicid addr = Some <$> [IInit apicid true; IInit apicid false; IStart apicid addr; IStart apicid addr] ∧
  ap_cmos a' !! 0xf = Some 0x0a ∧ reset_vector (lp_mem s') = addr ∧ areg a' ID = areg a ID ∧
  ∀ x, x < KERNBASE + 0x467 ∨ KERNBASE + 0x46b ≤ x → lp_mem s' x = lp_mem s x.
Proof.
  intros Hr Hid Ha Hm. unfold lapicstartap.
  destruct (dev_cmos s a CMOS_PORT 0xf Hr ltac:(set_solver)) as (s1 & R1 & H1 & M1). mstep R1.
  destruct (dev_cmos s1 _ (CMOS_PORT + 1) 0xa H1 ltac:(set_solver)) as (s2 & R2 & H2 & M2). mstep R2. rewrite !bind_modify.
  set (a2 := apic_cmos _ _ _) in H2. change (P2V (Z.lor (Z.shiftl 64 4) 103)) with (KERNBASE + 0x467). cbn [lp_mem lp_dev].
  set (m2 := st16 _ _ _). set (s3 := mkLap m2 _). 
  destruct (dev_write s3 a2 ICRHI (Z.shiftl apicid 24) H2 ltac:(done)) as (s4 & R4 & H4 & M4). mstep R4.
  destruct (dev_write s4 _ ICRLO (Z.lor (Z.lor INIT LEVEL) ASSERT) H4 ltac:(done)) as (s5 & R5 & H5 & M5). mstep R5.
  destruct (dev_write s5 _ ICRLO (Z.lor INIT LEVEL) H5 ltac:(done)) as (s6 & R6 & H6 & M6). mstep R6.
  destruct (dev_startup s6 _ apicid addr H6) as (s7 & R7 & M7 & H7). mstep R7.
  destruct (dev_startup s7 _ apicid addr H7) as (s8 & R8 & M8 & H8).
  exists s8. eexists. split; [exact R8|]. split; [exact H8|]. split.
  { sent. areg. unfold start_cmds. by rewrite <- !app_assoc. }
  split.
  { unfold start_cmds. cbn [fmap list_fmap]. rewrite !startup_decode by done. unfold decode_ipi. cbn [fst]. by rewrite dest_decode by done. }
  split; [rewrite !cmos_store; exact (lookup_insert_eq (ap_cmos a) 0xf 0x0a)|]. assert (lp_mem s8 = m2) as -> by (by rewrite M8, M7, M6, M5, M4). split.
  - unfold m2. rewrite M2, M1. apply reset_vector_set; [done|]. revert Hm. Z.to_euclidean_division_equations; lia.
  - split; [rewrite !areg_store; by repeat (rewrite decide_False by done)|]. intros x Hx. unfold m2. rewrite M2, M1. unfold st16, st8. zcases; (done || lia).
Qed.
End apic.

(** An hour that ends during the first reading of the date. *)
Definition noon (i : nat) : rtcdate := if (i <? 4)%nat then mkDate 59 59 12 31 8 26 else mkDate 0 0 13 31 8 26.
Definition noon_regs (i : nat) (r : Z) : Z :=
  let t := map_date (enc true) (noon i) in
  if r =? SECS then second t else if r =? MINS then minute t else if r =? HOURS then hour t else
  if r =? DAY then day t else if r =? MONTH then month t else if r =? YEAR then year t else 2.

Lemma cmostime_correct_witness : ∃ d' n' i,
  @cmostime clock clock_port 5 (mkClock noon_regs 0 0) = Ok (from2000 (noon i)) d' ∧ @at_time clock clock_port clock_clock noon_regs d' n' ∧ (0 ≤ i < n')%nat.
Proof.
  apply (@cmostime_correct clock clock_port clock_clock noon_regs true noon) with (m := 4%nat).
  - intros i. unfold noon_regs, noon. destruct (i <? 4)%nat; (split; [unfold date_all; cbn; lia|reflexivity]).
  - intros i. destruct (decide (i < 4)%nat) as [Hi|Hi].
    + exists 4%nat. split; intros k Hk; unfold noon; repeat case_match; try done; rewrite ?Nat.ltb_lt, ?Nat.ltb_ge in *; lia.
    + exists (i + 13)%nat. split; intros k Hk; [|lia]. unfold noon. repeat case_match; try done; rewrite ?Nat.ltb_lt, ?Nat.ltb_ge in *; lia.
  - by exists 0.
  - intros i Hi. split; [|reflexivity]. unfold noon. rewrite (proj2 (Nat.ltb_ge _ _)) by lia. done.
  - lia.
  - lia.
  - reflexivity.
Defined.
