(* ===== verification/Ioapic.v ===== *)
(** * Interrupt routing: ioapic.c and picirq.c

    The I/O APIC turns interrupt lines into interrupts of CPUs, by a table of
    two registers per line behind an index and a data register.  The code is
    written against [PortIO]; [IoApic] states what it relies on.  The message
    that ioapicinit prints is its result. *)
From S2P Require Import Prelude Port.

Definition IOAPIC : Z := 0xfec00000.
Definition REG_ID : Z := 0.
Definition REG_VER : Z := 1.
Definition REG_TABLE : Z := 0x10.
Definition INT_DISABLED : Z := 0x10000.
Definition IO_PIC1 : Z := 0x20.
Definition IO_PIC2 : Z := 0xa0.

Definition not_mp : string := "ioapicinit: id isn't equal to ioapicid; not a MP".

Section code.
Context {D : Type} {P : PortIO D}.

(** [struct ioapic]: the index register at offset 0, the data at 16. *)
Definition io_reg : Z := IOAPIC.
Definition io_data : Z := IOAPIC + 16.

Definition ioapicread (reg : Z) : M D Z :=
  do! p_store io_reg (u32 reg) in
  p_load io_data.
Definition ioapicwrite (reg data : Z) : M D unit :=
  do! p_store io_reg (u32 reg) in
  p_store io_data (u32 data).

(** [for(i = 0; i <= maxintr; i++)] *)
Definition disable (i : nat) : M D unit :=
  do! ioapicwrite (REG_TABLE + 2 * i) (Z.lor INT_DISABLED (T_IRQ0 + i)) in
  ioapicwrite (REG_TABLE + 2 * i + 1) 0.

Definition ioapicinit (ioapicid : Z) : M D (option string) :=
  let! v := ioapicread REG_VER in
  let maxintr := Z.land (Z.shiftr v 16) 0xff in
  let! x := ioapicread REG_ID in
  let id := Z.shiftr x 24 in
  do! for_each (seq 0 (Z.to_nat (maxintr + 1))) disable in
  ret (if negb (id =? ioapicid) then Some not_mp else None).

Definition ioapicenable (irq cpunum : Z) : M D unit :=
  do! ioapicwrite (REG_TABLE + 2 * irq) (T_IRQ0 + irq) in
  ioapicwrite (REG_TABLE + 2 * irq + 1) (Z.shiftl cpunum 24).

Definition picinit : M D unit :=
  do! outb (IO_PIC1 + 1) 0xff in
  outb (IO_PIC2 + 1) 0xff.
End code.

(** ** The device *)

Record ioapic := mkIo { io_index : Z; io_regs : gmap Z Z }.
Definition ireg (a : ioapic) (r : Z) : Z := default 0 (io_regs a !! r).

(** The registers that may be written are those of the table. *)
Class IoApic (D : Type) {P : PortIO D} := {
  io_rep : D → ioapic → Prop;
  io_index_ok d a r : io_rep d a → ∃ d', p_store io_reg r d = Ok tt d' ∧ io_rep d' (mkIo r (io_regs a));
  io_load_ok d a : io_rep d a → ∃ d', p_load io_data d = Ok (ireg a (io_index a)) d' ∧ io_rep d' a;
  io_store_ok d a v : io_rep d a → REG_TABLE ≤ io_index a →
    ∃ d', p_store io_data v d = Ok tt d' ∧ io_rep d' (mkIo (io_index a) (<[io_index a := v]> (io_regs a))) }.

#[export] Instance ioapic_port : PortIO ioapic := {|
  p_in := λ _, panic "no such port"; p_out := λ _ _, panic "no such port";
  p_ins := λ _ _, panic "no such port"; p_outs := λ _ _, panic "no such port";
  p_load := λ x a, if x =? io_data then Ok (ireg a (io_index a)) a else Panic "no such register";
  p_store := λ x v a, if x =? io_reg then Ok tt (mkIo v (io_regs a))
    else if (x =? io_data) && (REG_TABLE <=? io_index a) then Ok tt (mkIo (io_index a) (<[io_index a := v]> (io_regs a)))
    else Panic "no such register" |}.
#[export] Program Instance ioapic_ioapic : IoApic ioapic := {| io_rep := eq |}.
Next Obligation. intros d a r ->. by eexists. Qed.
Next Obligation. intros d a ->. by eexists. Qed.
Next Obligation.
  intros d a v -> Hi. eexists. split; [|reflexivity]. cbn [p_store ioapic_port]. by rewrite (proj2 (Z.leb_le _ _) Hi).
Qed.

(** ** Routes *)

(** What the table says of a line: nowhere, or a vector and a CPU. *)
Inductive route := Masked | Routed (vector cpu : Z).
Definition route_of (a : ioapic) (irq : Z) : option route :=
  let lo := ireg a (REG_TABLE + 2 * irq) in
  let hi := ireg a (REG_TABLE + 2 * irq + 1) in
  if Z.testbit lo 16 then Some Masked
  else if Z.shiftr lo 8 =? 0 then Some (Routed lo (Z.shiftr hi 24)) else None.
(** The number of lines. *)
Definition lines (a : ioapic) : Z := Z.land (Z.shiftr (ireg a REG_VER) 16) 0xff + 1.

(** The route of a line after some calls of [ioapicenable]. *)
Definition enabled (calls : list (Z * Z)) (irq : Z) : route :=
  foldl (λ r c, if decide (c.1 = irq) then Routed (T_IRQ0 + irq) c.2 else r) Masked calls.

Section routes.
Context {D : Type} {P : PortIO D} {A : IoApic D}.
Implicit Types (d : D) (a : ioapic).

Definition put_reg (r v : Z) (a : ioapic) : ioapic := mkIo r (<[r := v]> (io_regs a)).
Lemma ireg_put r v a r' : ireg (put_reg r v a) r' = if decide (r = r') then v else ireg a r'.
Proof. unfold ireg, put_reg. cbn. destruct (decide (r = r')) as [->|]; [by rewrite lookup_insert_eq|by rewrite lookup_insert_ne]. Qed.

Lemma ioapicread_spec d a r : io_rep d a → is_u32 r → ∃ d', ioapicread r d = Ok (ireg a r) d' ∧ io_rep d' (mkIo r (io_regs a)).
Proof.
  intros Hr Hu. unfold ioapicread. rewrite u32_small by done. destruct (io_index_ok d a r Hr) as (d1 & R1 & H1). mstep R1.
  destruct (io_load_ok d1 _ H1) as (d2 & R2 & H2). by exists d2.
Qed.
Lemma ioapicwrite_spec d a r v : io_rep d a → REG_TABLE ≤ r < 2 ^ 32 → ∃ d', ioapicwrite r v d = Ok tt d' ∧ io_rep d' (put_reg r (u32 v) a).
Proof.
  intros Hr Hu. unfold ioapicwrite. rewrite (u32_small r) by (unfold is_u32, REG_TABLE in *; lia). destruct (io_index_ok d a r Hr) as (d1 & R1 & H1). mstep R1.
  destruct (io_store_ok d1 _ (u32 v) H1 (proj1 Hu)) as (d2 & R2 & H2). by exists d2.
Qed.

Lemma ireg_pair r lo hi : ireg (mkIo 0 {[r := lo; r + 1 := hi]}) r = lo ∧ ireg (mkIo 0 {[r := lo; r + 1 := hi]}) (r + 1) = hi.
Proof. unfold ireg. cbn [io_regs]. split; [by rewrite lookup_insert_eq|]. rewrite lookup_insert_ne by lia. by rewrite lookup_singleton_eq. Qed.

(** A line whose two registers are written, and the others. *)
Definition set_line (irq lo hi : Z) (a : ioapic) : ioapic := put_reg (REG_TABLE + 2 * irq + 1) hi (put_reg (REG_TABLE + 2 * irq) lo a).
Lemma route_set_line irq lo hi a irq' : route_of (set_line irq lo hi a) irq' =
  if decide (irq = irq') then route_of (mkIo 0 {[REG_TABLE + 2 * irq := lo; REG_TABLE + 2 * irq + 1 := hi]}) irq else route_of a irq'.
Proof.
  unfold route_of, set_line. destruct (decide (irq = irq')) as [<-|Hne].
  - rewrite !ireg_put. rewrite (decide_False (P := REG_TABLE + 2 * irq + 1 = REG_TABLE + 2 * irq)), !decide_True by lia.
    by destruct (ireg_pair (REG_TABLE + 2 * irq) lo hi) as [-> ->].
  - rewrite !ireg_put. by rewrite !decide_False by lia.
Qed.
Lemma lines_set_line irq lo hi a : 0 ≤ irq → lines (set_line irq lo hi a) = lines a.
Proof. intros Hi. unfold lines, set_line. rewrite !ireg_put, !decide_False by (unfold REG_TABLE, REG_VER; lia). done. Qed.

Lemma disable_spec d a (i : nat) : io_rep d a → (i < 256)%nat → ∃ d', disable i d = Ok tt d' ∧ io_rep d' (set_line i (u32 (Z.lor INT_DISABLED (T_IRQ0 + i))) (u32 0) a).
Proof.
  intros Hr Hi. unfold disable. destruct (ioapicwrite_spec d a (REG_TABLE + 2 * i) (Z.lor INT_DISABLED (T_IRQ0 + i)) Hr) as (d1 & R1 & H1); [unfold REG_TABLE; lia|]. mstep R1.
  apply ioapicwrite_spec; [done|unfold REG_TABLE; lia].
Qed.
Lemma enable_spec d a irq cpu : io_rep d a → 0 ≤ irq < 256 → ∃ d', ioapicenable irq cpu d = Ok tt d' ∧ io_rep d' (set_line irq (u32 (T_IRQ0 + irq)) (u32 (Z.shiftl cpu 24)) a).
Proof.
  intros Hr Hi. unfold ioapicenable. destruct (ioapicwrite_spec d a (REG_TABLE + 2 * irq) (T_IRQ0 + irq) Hr) as (d1 & R1 & H1); [unfold REG_TABLE; lia|]. mstep R1.
  apply ioapicwrite_spec; [done|unfold REG_TABLE; lia].
Qed.

(** The meaning of what is written. *)
Lemma route_disabled (i : nat) hi : (i < 256)%nat →
  route_of (mkIo 0 {[REG_TABLE + 2 * i := u32 (Z.lor INT_DISABLED (T_IRQ0 + i)); REG_TABLE + 2 * i + 1 := hi]}) i = Some Masked.
Proof.
  intros Hi. unfold route_of. rewrite (proj1 (ireg_pair _ _ _)).
  assert (∀ j : nat, j ∈ seq 0 256 → Z.testbit (u32 (Z.lor INT_DISABLED (T_IRQ0 + j))) 16 = true) as H.
  { apply list.Forall_forall. apply (bool_decide_unpack _). vm_compute. reflexivity. }
  by rewrite H by (apply elem_of_seq; lia).
Qed.
Lemma route_enabled irq cpu : 0 ≤ irq < 224 → 0 ≤ cpu < 256 →
  route_of (mkIo 0 {[REG_TABLE + 2 * irq := u32 (T_IRQ0 + irq); REG_TABLE + 2 * irq + 1 := u32 (Z.shiftl cpu 24)]}) irq = Some (Routed (T_IRQ0 + irq) cpu).
Proof.
  intros Hi Hc. unfold route_of. destruct (ireg_pair (REG_TABLE + 2 * irq) (u32 (T_IRQ0 + irq)) (u32 (Z.shiftl cpu 24))) as [-> ->]. unfold T_IRQ0.
  rewrite (u32_small (32 + irq)) by (unfold is_u32; lia).
  assert (∀ j, j ∈ seqZ 0 224 → Z.testbit (32 + j) 16 = false ∧ Z.shiftr (32 + j) 8 = 0) as H.
  { apply list.Forall_forall. apply (bool_decide_unpack _). vm_compute. reflexivity. }
  destruct (H irq) as [-> ->]; [apply elem_of_seqZ; lia|]. cbn [Z.eqb]. do 2 f_equal.
  rewrite Z.shiftl_mul_pow2, u32_small, Z.shiftr_div_pow2 by (unfold is_u32; lia). apply Z.div_mul. lia.
Qed.

Lemma ioapicinit_spec d a ioapicid : io_rep d a → ∃ d' a', ioapicinit ioapicid d =
  Ok (if negb (Z.shiftr (ireg a REG_ID) 24 =? ioapicid) then Some not_mp else None) d' ∧
  io_rep d' a' ∧ lines a' = lines a ∧ ∀ irq, 0 ≤ irq < lines a → route_of a' irq = Some Masked.
Proof.
  intros Hr. unfold ioapicinit. destruct (ioapicread_spec d a REG_VER Hr ltac:(done)) as (d1 & R1 & H1). mstep R1.
  destruct (ioapicread_spec d1 _ REG_ID H1 ltac:(done)) as (d2 & R2 & H2). mstep R2. cbn [io_regs] in H2. fold (lines a).
  assert (0 ≤ Z.land (Z.shiftr (ireg a REG_VER) 16) 255 < 256) as Hl.
  { change 255 with (Z.ones 8). rewrite Z.land_ones by lia. apply Z.mod_pos_bound. lia. }
  destruct (for_seq_inv disable (λ k d, ∃ a', io_rep d a' ∧ lines a' = lines a ∧ ∀ irq, 0 ≤ irq < k → route_of a' irq = Some Masked)
    (Z.to_nat (lines a)) d2) as (d3 & R3 & a3 & H3 & L3 & M3).
  - eexists. split; [exact H2|]. split; [done|]. intros irq Hi. lia.
  - intros k d' Hk (a' & H' & L' & M'). unfold lines in Hk. destruct (disable_spec d' a' k H' ltac:(lia)) as (d'' & R'' & H''). exists d''. split; [done|].
    eexists. split; [exact H''|]. split; [by rewrite lines_set_line by lia|]. intros irq Hi. rewrite route_set_line. case_decide as He; [|apply M'; lia].
    apply route_disabled. lia.
  - unfold lines in R3. mstep R3. exists d3, a3. split; [done|]. split; [done|]. split; [done|]. intros irq Hi. apply M3. unfold lines in *. lia.
Qed.

Lemma enable_all calls : ∀ d a r0, io_rep d a → lines a ≤ 224 → Forall (λ c, 0 ≤ c.1 < lines a ∧ 0 ≤ c.2 < 256) calls →
  (∀ irq, 0 ≤ irq < lines a → route_of a irq = Some (r0 irq)) →
  ∃ d' a', for_each calls (λ c, ioapicenable c.1 c.2) d = Ok tt d' ∧ io_rep d' a' ∧ lines a' = lines a ∧
  ∀ irq, 0 ≤ irq < lines a → route_of a' irq = Some (foldl (λ r c, if decide (c.1 = irq) then Routed (T_IRQ0 + irq) c.2 else r) (r0 irq) calls).
Proof.
  induction calls as [|[irq cpu] calls IH]; intros d a r0 Hr Hl Hc Hr0; [by exists d, a|].
  apply list.Forall_cons in Hc as [[Hi Hcpu] Hc]. cbn [fst snd] in *. cbn [for_each].
  destruct (enable_spec d a irq cpu Hr ltac:(lia)) as (d1 & R1 & H1). erewrite bind_Ok by exact R1. cbn [fst snd].
  set (a1 := set_line _ _ _ _) in H1. assert (lines a1 = lines a) as L1 by (apply lines_set_line; lia).
  destruct (IH d1 a1 (λ i, if decide (irq = i) then Routed (T_IRQ0 + i) cpu else r0 i) H1) as (d2 & a2 & R2 & H2 & L2 & M2).
  - by rewrite L1.
  - by rewrite L1.
  - intros i Hi'. unfold a1. rewrite route_set_line. case_decide as He; [subst i; apply route_enabled; lia|apply Hr0; by rewrite L1 in Hi'].
  - exists d2, a2. split; [done|]. split; [done|]. split; [by rewrite L2|]. intros i Hi'. rewrite M2 by (by rewrite L1). done.
Qed.

(** Interrupt routing.  After [ioapicinit] and any calls of [ioapicenable] for
    lines the controller has, every line that was enabled is routed, with the
    vector [T_IRQ0 + irq], to the CPU of the last call for it, and every other
    line is masked. *)
Lemma ioapic_routes d a ioapicid calls : io_rep d a → lines a ≤ 224 → Forall (λ c, 0 ≤ c.1 < lines a ∧ 0 ≤ c.2 < 256) calls →
  ∃ d' a', (do! ioapicinit ioapicid in for_each calls (λ c, ioapicenable c.1 c.2)) d = Ok tt d' ∧ io_rep d' a' ∧
  ∀ irq, 0 ≤ irq < lines a → route_of a' irq = Some (enabled calls irq).
Proof.
  intros Hr Hl Hc. destruct (ioapicinit_spec d a ioapicid Hr) as (d1 & a1 & R1 & H1 & L1 & M1). mstep R1.
  rewrite <- L1 in Hl, Hc, M1 |- *. destruct (enable_all calls d1 a1 (λ _, Masked) H1 Hl Hc M1) as (d2 & a2 & R2 & H2 & _ & M2). by exists d2, a2.
Qed.
End routes.

(** The machine's I/O APIC has 24 lines; keyboard, disk and serial port. *)
Lemma ioapic_routes_witness : ∃ d' a',
  (do! ioapicinit 0 in for_each [(IRQ_KBD, 0); (IRQ_IDE, 1); (IRQ_COM1, 0); (IRQ_IDE, 3)] (λ c, ioapicenable c.1 c.2)) (mkIo 0 {[REG_VER := 0x170011]}) = Ok tt d' ∧ io_rep d' a' ∧
  route_of a' IRQ_IDE = Some (Routed 46 3) ∧ route_of a' IRQ_TIMER = Some Masked.
Proof.
  destruct (ioapic_routes (mkIo 0 {[REG_VER := 0x170011]}) (mkIo 0 {[REG_VER := 0x170011]}) 0 [(IRQ_KBD, 0); (IRQ_IDE, 1); (IRQ_COM1, 0); (IRQ_IDE, 3)]) as (d' & a' & R & H & M).
  - reflexivity.
  - vm_compute. done.
  - repeat constructor; vm_compute; done.
  - exists d', a'. split; [exact R|]. split; [exact H|].
    change (lines (mkIo 0 {[REG_VER := 0x170011]})) with 24 in M. split.
    + rewrite (M IRQ_IDE ltac:(unfold IRQ_IDE; lia)). reflexivity.
    + rewrite (M IRQ_TIMER ltac:(unfold IRQ_TIMER; lia)). reflexivity.
Defined.
