(* ===== verification/Uart.v ===== *)
(** * The serial port: uart.c

    The code is written against [PortIO]; [Serial] states what it relies on of
    an 8250 serial port.  [uart], whether there is a port, is part of the state.
    The interrupt handler hands what the port has received to the console:
    [uartintr] runs on the port and the console of Console together; the echo
    of the console is the output of Console. *)
From S2P Require Import Prelude Str Printf Ring Port Ioapic Console.

Definition COM1 : Z := 0x3f8.

Record ust (D : Type) := mkU { ua_uart : bool; ua_dev : D }.
Arguments mkU {D}.
Arguments ua_uart {D}.
Arguments ua_dev {D}.

Section code.
Context {D : Type} {P : PortIO D}.

Definition udev {A} (m : M D A) : M (ust D) A := zoom ua_dev (λ d s, mkU (ua_uart s) d) m.

(** [for(i = 0; i < 128 && !(inb(COM1+5) & 0x20); i++)]: [k] is [128 - i]. *)
Fixpoint tx_wait (k : nat) : M D unit :=
  match k with
  | O => ret tt
  | S k =>
      let! x := inb (COM1 + 5) in
      if negb (truthy (Z.land x 0x20)) then tx_wait k else ret tt
  end.

Definition uartputc (c : Z) : M (ust D) unit :=
  let! s := get in
  if negb (ua_uart s) then ret tt else
  udev (do! tx_wait 128 in outb (COM1 + 0) c).

Definition uartinit : M (ust D) unit :=
  do! udev (outb (COM1 + 2) 0) in
  do! udev (outb (COM1 + 3) 0x80) in
  do! udev (outb (COM1 + 0) (115200 / 9600)) in
  do! udev (outb (COM1 + 1) 0) in
  do! udev (outb (COM1 + 3) 0x03) in
  do! udev (outb (COM1 + 4) 0) in
  do! udev (outb (COM1 + 1) 0x01) in
  let! x := udev (inb (COM1 + 5)) in
  if x =? 0xff then ret tt else
  do! modify (λ s, mkU true (ua_dev s)) in
  let! _ := udev (inb (COM1 + 2)) in
  let! _ := udev (inb (COM1 + 0)) in
  do! udev (ioapicenable IRQ_COM1 0) in
  for_each (chars "xv6..." ++ [10]) uartputc.

Definition uartgetc : M (ust D) Z :=
  let! s := get in
  if negb (ua_uart s) then ret (-1) else
  let! x := udev (inb (COM1 + 5)) in
  if negb (truthy (Z.land x 0x01)) then ret (-1) else
  udev (inb (COM1 + 0)).

(** The values [uartgetc] gives to consoleintr, up to the -1 that ends its
    loop. *)
Fixpoint getc_values (fuel : nat) : M (ust D) (list Z) :=
  match fuel with
  | O => λ _, Fuel
  | S fuel =>
      let! c := uartgetc in
      if c <? 0 then ret [c] else
      let! l := getc_values fuel in
      ret (c :: l)
  end.

Definition uartintr (fuel : nat) : M (ust D * cons) unit :=
  let! l := zoom fst (λ u s, (u, s.2)) (getc_values fuel) in
  zoom snd (λ c s, (s.1, c)) (consoleintr l).
End code.

(** ** The device *)

(** What was received and not yet read, what was transmitted, how many readings
    of the status until the transmitter is free, how long a byte takes, and
    whether the divisor is unlocked. *)
Record serial := mkSer { s_rx : list Z; s_tx : list Z; s_busy : nat; s_time : nat; s_dlab : bool }.

Definition ser_polled (u : serial) : serial := mkSer (s_rx u) (s_tx u) (pred (s_busy u)) (s_time u) (s_dlab u).
Definition ser_read (u : serial) : serial := mkSer (tail (s_rx u)) (s_tx u) (s_busy u) (s_time u) (s_dlab u).
Definition ser_send (v : Z) (u : serial) : serial :=
  if s_dlab u then u else mkSer (s_rx u) (s_tx u ++ [v]) (s_time u) (s_time u) false.
Definition ser_line (v : Z) (u : serial) : serial := mkSer (s_rx u) (s_tx u) (s_busy u) (s_time u) (Z.testbit v 7).

Class Serial (D : Type) {P : PortIO D} := {
  ser_rep : D → serial → Prop;
  ser_status_ok d u : ser_rep d u → ∃ v d', p_in (COM1 + 5) d = Ok v d' ∧ ser_rep d' (ser_polled u) ∧
    0 ≤ v < 255 ∧ Z.testbit v 0 = negb (bool_decide (s_rx u = [])) ∧ Z.testbit v 5 = (s_busy u =? 0)%nat;
  ser_in_ok d u : ser_rep d u → ∃ v d', p_in (COM1 + 0) d = Ok v d' ∧ ser_rep d' (ser_read u) ∧ ∀ x, head (s_rx u) = Some x → v = x;
  ser_iir_ok d u : ser_rep d u → ∃ v d', p_in (COM1 + 2) d = Ok v d' ∧ ser_rep d' u;
  ser_out_ok d u v : ser_rep d u → s_dlab u = true ∨ s_busy u = O → ∃ d', p_out (COM1 + 0) v d = Ok tt d' ∧ ser_rep d' (ser_send v u);
  ser_lcr_ok d u v : ser_rep d u → ∃ d', p_out (COM1 + 3) v d = Ok tt d' ∧ ser_rep d' (ser_line v u);
  ser_other_ok d u port v : ser_rep d u → port ∈ [COM1 + 1; COM1 + 2; COM1 + 4] → ∃ d', p_out port v d = Ok tt d' ∧ ser_rep d' u;
  ser_store_ok d u x v : ser_rep d u → ∃ d', p_store x v d = Ok tt d' ∧ ser_rep d' u }.

#[export] Instance serial_port : PortIO serial := {|
  p_in := λ port u,
    if port =? COM1 + 5 then Ok (Z.lor (if decide (s_rx u = []) then 0 else 1) (if (s_busy u =? 0)%nat then 0x60 else 0)) (ser_polled u)
    else if port =? COM1 then Ok (default 0 (head (s_rx u))) (ser_read u) else Ok 1 u;
  p_out := λ port v u,
    if port =? COM1 then Ok tt (ser_send v u) else if port =? COM1 + 3 then Ok tt (ser_line v u) else Ok tt u;
  p_ins := λ _ _, panic "no such port"; p_outs := λ _ _, panic "no such port";
  p_load := λ _, panic "no register"; p_store := λ _ _ u, Ok tt u |}.
#[export] Program Instance serial_serial : Serial serial := {| ser_rep := eq |}.
Next Obligation.
  intros d u ->. eexists _, _. split; [reflexivity|]. split; [reflexivity|].
  destruct (decide (s_rx u = [])) as [E|E]; [rewrite bool_decide_true by done|rewrite bool_decide_false by done];
    (destruct (s_busy u =? 0)%nat; (split; [vm_compute; done|done])).
Qed.
Next Obligation. intros d u ->. eexists _, _. split; [reflexivity|]. split; [done|]. by intros x ->. Qed.
Next Obligation. intros d u ->. eexists _, _. done. Qed.
Next Obligation. intros d u v -> _. by eexists. Qed.
Next Obligation. intros d u v ->. by eexists. Qed.
Next Obligation. intros d u port v -> Hp. eexists. split; [|done]. revert Hp. rewrite !list_elem_of_In. cbn [In]. intros [<-|[<-|[<-|[]]]]; reflexivity. Qed.
Next Obligation. intros d u x v ->. by eexists. Qed.

(** ** Output and input *)

Section serial.
Context {D : Type} {P : PortIO D} {A : Serial D}.
Implicit Types (s : ust D) (u : serial).

Lemma bit_test v n : 0 ≤ n → truthy (Z.land v (2 ^ n)) = Z.testbit v n.
Proof.
  intros Hn. unfold truthy. destruct (Z.testbit v n) eqn:E.
  - destruct (Z.eqb_spec (Z.land v (2 ^ n)) 0) as [H0|]; [|done]. assert (Z.testbit (Z.land v (2 ^ n)) n = false) as H1 by (by rewrite H0, Z.bits_0).
    by rewrite Z.land_spec, Z.pow2_bits_true, E in H1.
  - assert (Z.land v (2 ^ n) = 0) as ->; [|done]. apply Z.bits_inj'. intros m Hm. rewrite Z.land_spec, Z.pow2_bits_eqb, Z.bits_0 by done.
    destruct (Z.eqb_spec n m) as [<-|]; [by rewrite E|by rewrite andb_false_r].
Qed.

Lemma udev_run {B} (m : M D B) s x d' : m (ua_dev s) = Ok x d' → udev m s = Ok x (mkU (ua_uart s) d').
Proof. intros R. unfold udev, zoom. by rewrite R. Qed.

Lemma status_spec (d : D) u : ser_rep d u → ∃ v d', inb (COM1 + 5) d = Ok v d' ∧ ser_rep d' (ser_polled u) ∧ v ≠ 0xff ∧
  truthy (Z.land v 0x01) = negb (bool_decide (s_rx u = [])) ∧ truthy (Z.land v 0x20) = (s_busy u =? 0)%nat.
Proof.
  intros Hr. destruct (ser_status_ok d u Hr) as (v & d' & R & H' & Hv & H0 & H5). exists v, d'. split.
  { unfold inb. change (u16 (COM1 + 5)) with (COM1 + 5). mstep R. unfold ret. f_equal. apply Z.mod_small. lia. }
  split; [done|]. split; [lia|]. rewrite <- H0, <- H5. split; [exact (bit_test v 0 ltac:(done))|exact (bit_test v 5 ltac:(done))].
Qed.

Lemma tx_wait_spec k : ∀ (d : D) u, ser_rep d u → (s_busy u < k)%nat →
  ∃ d' u', tx_wait k d = Ok tt d' ∧ ser_rep d' u' ∧ u' = mkSer (s_rx u) (s_tx u) 0 (s_time u) (s_dlab u).
Proof.
  induction k as [|k IH]; intros d u Hr Hb; [lia|]. cbn [tx_wait]. destruct (status_spec d u Hr) as (v & d1 & R1 & H1 & _ & _ & H5). mstep R1. rewrite H5.
  unfold ser_polled in *. destruct (s_busy u) as [|n]; cbn [Nat.eqb negb].
  - eexists d1, _. done.
  - destruct (IH d1 _ H1) as (d2 & u2 & R2 & H2 & E2); [cbn; lia|]. exists d2, u2. done.
Qed.

(** A byte leaves once, after those before it. *)
Lemma uartputc_spec s u c : ua_uart s = true → ser_rep (ua_dev s) u → s_dlab u = false → (s_busy u < 128)%nat →
  ∃ s', uartputc c s = Ok tt s' ∧ ua_uart s' = true ∧ ser_rep (ua_dev s') (mkSer (s_rx u) (s_tx u ++ [u8 c]) (s_time u) (s_time u) false).
Proof.
  intros Hu Hr Hd Hb. unfold uartputc. erewrite (bind_Ok get) by reflexivity. rewrite Hu. cbn [negb].
  destruct (tx_wait_spec 128 _ u Hr Hb) as (d1 & u1 & R1 & H1 & ->).
  destruct (ser_out_ok d1 _ (u8 c) H1 ltac:(by right)) as (d2 & R2 & H2). exists (mkU true d2). split; [|split; [done|]].
  - rewrite <- Hu. apply udev_run. erewrite bind_Ok by exact R1. exact R2.
  - unfold ser_send in H2. cbn in H2. by rewrite Hd in H2.
Qed.

Lemma uartputs_spec l : ∀ s u, ua_uart s = true → ser_rep (ua_dev s) u → s_dlab u = false → (s_busy u < 128)%nat → (s_time u < 128)%nat →
  ∃ s' b, for_each l uartputc s = Ok tt s' ∧ ua_uart s' = true ∧ (b < 128)%nat ∧ ser_rep (ua_dev s') (mkSer (s_rx u) (s_tx u ++ (u8 <$> l)) b (s_time u) false).
Proof.
  induction l as [|c l IH]; intros s u Hu Hr Hd Hb Ht.
  - exists s, (s_busy u). split; [done|]. split; [done|]. split; [done|]. cbn. rewrite app_nil_r, <- Hd. by destruct u.
  - cbn [for_each]. destruct (uartputc_spec s u c Hu Hr Hd Hb) as (s1 & R1 & U1 & H1). mstep R1.
    destruct (IH s1 _ U1 H1 eq_refl Ht Ht) as (s2 & b & R2 & U2 & B2 & H2). exists s2, b. split; [done|]. split; [done|]. split; [done|].
    cbn [s_rx s_tx s_time] in H2. by rewrite <- app_assoc in H2.
Qed.

Lemma uartgetc_spec s u : ua_uart s = true → ser_rep (ua_dev s) u → Forall (λ x, 0 ≤ x < 256) (s_rx u) →
  ∃ s' b, ua_uart s' = true ∧ ser_rep (ua_dev s') (mkSer (tail (s_rx u)) (s_tx u) b (s_time u) (s_dlab u)) ∧ (b ≤ s_busy u)%nat ∧
  uartgetc s = Ok (default (-1) (head (s_rx u))) s'.
Proof.
  intros Hu Hr Hx. unfold uartgetc. erewrite (bind_Ok get) by reflexivity. rewrite Hu. cbn [negb].
  destruct (status_spec _ u Hr) as (v & d1 & R1 & H1 & _ & H0 & _). mstep (udev_run _ _ _ _ R1). rewrite H0, negb_involutive. unfold ser_polled in H1.
  case_bool_decide as He.
  - exists (mkU (ua_uart s) d1), (pred (s_busy u)). rewrite He in *. split; [done|]. split; [done|]. split; [lia|]. done.
  - destruct (s_rx u) as [|x l] eqn:El; [done|]. apply list.Forall_cons in Hx as [Hx _]. destruct (ser_in_ok d1 _ H1) as (y & d2 & R2 & H2 & E2).
    rewrite (E2 x eq_refl) in R2. exists (mkU (ua_uart s) d2), (pred (s_busy u)). split; [done|]. split; [exact H2|]. split; [lia|].
    apply (udev_run _ (mkU (ua_uart s) d1)). unfold inb. change (u16 (COM1 + 0)) with (COM1 + 0). mstep R2. unfold ret. f_equal. apply Z.mod_small. exact Hx.
Qed.

(** Everything received, in order. *)
Lemma getc_values_spec fuel : ∀ s u, ua_uart s = true → ser_rep (ua_dev s) u → Forall (λ x, 0 ≤ x < 256) (s_rx u) → (length (s_rx u) < fuel)%nat →
  ∃ s' b, getc_values fuel s = Ok (s_rx u ++ [-1]) s' ∧ ua_uart s' = true ∧ ser_rep (ua_dev s') (mkSer [] (s_tx u) b (s_time u) (s_dlab u)) ∧ (b ≤ s_busy u)%nat.
Proof.
  induction fuel as [|fuel IH]; intros s u Hu Hr Hx Hf; [lia|]. cbn [getc_values]. destruct (uartgetc_spec s u Hu Hr Hx) as (s1 & b & U1 & H1 & B1 & R1). mstep R1.
  destruct (s_rx u) as [|x l]; cbn [head from_option tail id] in *.
  - exists s1, b. done.
  - apply list.Forall_cons in Hx as [Hx Hl]. change (default (-1) (Some x)) with x; rewrite (proj2 (Z.ltb_ge x 0)) by apply Hx. destruct (IH s1 _ U1 H1 Hl) as (s2 & b2 & R2 & U2 & H2 & B2); [cbn [s_rx length] in *; lia|].
    cbn [s_rx s_tx s_time s_dlab s_busy] in *. mstep R2. exists s2, b2. split; [done|]. split; [done|]. split; [done|lia].
Qed.

Lemma enable_other (d : D) u irq cpu : ser_rep d u → ∃ d', ioapicenable irq cpu d = Ok tt d' ∧ ser_rep d' u.
Proof.
  intros H. assert (∀ d r v, ser_rep d u → ∃ d', ioapicwrite r v d = Ok tt d' ∧ ser_rep d' u) as Hw.
  { intros d0 r v H0. unfold ioapicwrite. destruct (ser_store_ok d0 u io_reg (u32 r) H0) as (d1 & R1 & H1). mstep R1. by apply ser_store_ok. }
  unfold ioapicenable. destruct (Hw d (REG_TABLE + 2 * irq) (T_IRQ0 + irq) H) as (d1 & R1 & H1). mstep R1. by apply Hw.
Qed.

(** Start-up, on a machine that has the port. *)
Lemma uartinit_spec s u : ser_rep (ua_dev s) u → (s_busy u < 128)%nat → (s_time u < 128)%nat →
  ∃ s' b, uartinit s = Ok tt s' ∧ ua_uart s' = true ∧ (b < 128)%nat ∧
  ser_rep (ua_dev s') (mkSer (tail (s_rx u)) (s_tx u ++ chars "xv6..." ++ [10]) b (s_time u) false).
Proof.
  intros Hr Hb Ht. unfold uartinit.
  assert (∀ s u port v, ser_rep (ua_dev s) u → port ∈ [COM1 + 1; COM1 + 2; COM1 + 4] → ∃ d', udev (outb port v) s = Ok tt (mkU (ua_uart s) d') ∧ ser_rep d' u) as Hother.
  { intros s0 u0 port v H0 Hp. destruct (ser_other_ok _ u0 port (u8 v) H0 Hp) as (d' & R & H'). exists d'. split; [|done]. apply udev_run. unfold outb.
    revert Hp R. rewrite !list_elem_of_In. cbn [In]. by intros [<-|[<-|[<-|[]]]] R. }
  assert (∀ s u v, ser_rep (ua_dev s) u → ∃ d', udev (outb (COM1 + 3) v) s = Ok tt (mkU (ua_uart s) d') ∧ ser_rep d' (ser_line (u8 v) u)) as Hlcr.
  { intros s0 u0 v H0. destruct (ser_lcr_ok _ u0 (u8 v) H0) as (d' & R & H'). exists d'. split; [|done]. by apply udev_run. }
  destruct (Hother s u (COM1 + 2) 0 Hr ltac:(set_solver)) as (d1 & R1 & H1). mstep R1.
  destruct (Hlcr (mkU (ua_uart s) d1) u 0x80 H1) as (d2 & R2 & H2). mstep R2.
  destruct (ser_out_ok d2 _ (u8 (115200 / 9600)) H2 ltac:(by left)) as (d3 & R3 & H3). mstep (udev_run (outb (COM1 + 0) (115200 / 9600)) (mkU (ua_uart s) d2) _ _ R3).
  change (ser_send (u8 (115200 / 9600)) (ser_line (u8 128) u)) with (ser_line (u8 128) u) in H3.
  destruct (Hother (mkU (ua_uart s) d3) _ (COM1 + 1) 0 H3 ltac:(set_solver)) as (d4 & R4 & H4). mstep R4.
  destruct (Hlcr (mkU (ua_uart s) d4) _ 0x03 H4) as (d5 & R5 & H5). mstep R5.
  destruct (Hother (mkU (ua_uart s) d5) _ (COM1 + 4) 0 H5 ltac:(set_solver)) as (d6 & R6 & H6). mstep R6.
  destruct (Hother (mkU (ua_uart s) d6) _ (COM1 + 1) 1 H6 ltac:(set_solver)) as (d7 & R7 & H7). mstep R7.
  destruct (status_spec d7 _ H7) as (v & d8 & R8 & H8 & Hv & _). mstep (udev_run _ (mkU (ua_uart s) d7) _ _ R8).
  rewrite (proj2 (Z.eqb_neq _ _) Hv), bind_modify. cbn [ua_dev].
  destruct (ser_iir_ok d8 _ H8) as (w & d9 & R9 & H9).
  erewrite bind_Ok; [|apply (udev_run (inb (COM1 + 2)) (mkU true d8)); unfold inb; change (u16 (COM1 + 2)) with (COM1 + 2); mstep R9; reflexivity].
  destruct (ser_in_ok d9 _ H9) as (w' & d10 & R10 & H10 & _).
  erewrite bind_Ok; [|apply (udev_run (inb (COM1 + 0)) (mkU true d9)); unfold inb; change (u16 (COM1 + 0)) with (COM1 + 0); mstep R10; reflexivity].
  destruct (enable_other d10 _ IRQ_COM1 0 H10) as (d11 & R11 & H11).
  mstep (udev_run _ (mkU true d10) _ _ R11).
  destruct (uartputs_spec (chars "xv6..." ++ [10]) (mkU true d11) _ eq_refl H11 eq_refl) as (s' & b & R & U & B & H'); [cbn; lia|done|].
  exists s', b. split; [exact R|]. split; [done|]. split; [done|]. exact H'.
Qed.

(** The serial port as a console line.  An interrupt hands every byte the
    port has received to the console, in order, and none twice: afterwards the
    receiver is empty, what was transmitted is unchanged, and the console
    represents its lines with exactly these bytes typed. *)
Lemma uartintr_lines s u c a fuel : ua_uart s = true → ser_rep (ua_dev s) u → Forall (λ x, 0 ≤ x < 256) (s_rx u) → (length (s_rx u) < fuel)%nat →
  represents c a →
  ∃ s' b c', uartintr fuel (s, c) = Ok tt (s', c') ∧ ua_uart s' = true ∧ ser_rep (ua_dev s') (mkSer [] (s_tx u) b (s_time u) (s_dlab u)) ∧
  represents c' (a_intr (s_rx u ++ [-1]) a).
Proof.
  intros Hu Hr Hx Hf Hc. destruct (getc_values_spec fuel s u Hu Hr Hx Hf) as (s1 & b & R1 & U1 & H1 & _).
  destruct (consoleintr_spec (s_rx u ++ [-1]) c a Hc) as (c' & R2 & H2).
  { apply list.Forall_app. split; [|repeat constructor]. eapply list.Forall_impl; [exact Hx|]. intros x ?; cbn in *; lia. }
  exists s1, b, c'. split; [|done]. unfold uartintr. erewrite bind_Ok; [|unfold zoom; cbn [fst]; rewrite R1; reflexivity]. unfold zoom. cbn [fst snd]. by rewrite R2.
Qed.
End serial.

(** "ab", backspace, "c" and return arrive on an idle line. *)
Lemma uartintr_lines_witness : ∃ s' b c',
  uartintr 9 (mkU true (mkSer [97; 98; 8; 99; 13] [] 0 10 false), cons_boot 5) = Ok tt (s', c') ∧ ua_uart s' = true ∧
  ser_rep (ua_dev s') (mkSer [] [] b 10 false) ∧ represents c' (a_intr ([97; 98; 8; 99; 13] ++ [-1]) (Line [] [] [])).
Proof.
  apply (uartintr_lines (mkU true (mkSer [97; 98; 8; 99; 13] [] 0 10 false)) (mkSer [97; 98; 8; 99; 13] [] 0 10 false) (cons_boot 5) (Line [] [] []) 9).
  - reflexivity.
  - reflexivity.
  - repeat constructor; discriminate.
  - cbn. lia.
  - apply cons_boot_represents. split; [discriminate|reflexivity].
Defined.
