(* ===== verification/Usys.v ===== *)
(** * User programs as interaction trees

    A user program is a tree of system calls: [fileE] are the calls on files,
    [procE] those on processes.  [printf] and [stat] of the user library are
    programs over them.  The calls on files have their meaning on a [world] of
    files and descriptors, the view that the theorems on the kernel's file
    system justify; calls on processes stay visible, and [exit] ends a run with
    the world it leaves.  A chunk of a file is what one read can deliver: pipes
    and consoles give short reads, a regular file is one chunk. *)
From ITree Require Import ITree ITreeFacts Events.State Events.StateFacts.
From S2P Require Import Prelude Str Printf Grep.

Declare Scope prog_scope.
Delimit Scope prog_scope with prog.
Notation "'let*' x := t 'in' k" := (ITree.bind t (λ x, k))
  (at level 10, x pattern, t at level 100, k at level 200, format "'[v' 'let*'  x  :=  t  'in' '/' k ']'") : prog_scope.
Notation "'do*' t 'in' k" := (ITree.bind t (λ _, k))
  (at level 10, t at level 100, k at level 200, format "'[v' 'do*'  t  'in' '/' k ']'") : prog_scope.
Open Scope prog_scope.

(** [fstat] gives type, inode number and size. *)
Variant fileE : Type → Type :=
| FOpen (path : list Z) (mode : Z) : fileE Z
| FRead (fd n : Z) : fileE (Z * list Z)
| FWrite (fd : Z) (data : list Z) : fileE Z
| FClose (fd : Z) : fileE Z
| FFstat (fd : Z) : fileE (option (Z * Z * Z))
| FLink (old new : list Z) : fileE Z
| FUnlink (path : list Z) : fileE Z
| FMkdir (path : list Z) : fileE Z
| FExit : fileE void.

(** [fork] returns twice: the tree has a branch for every result.  [exec]
    returns only when it fails. *)
Variant procE : Type → Type :=
| PFork : procE Z
| PExec (path : list Z) (argv : list (list Z)) : procE Z
| PWait : procE Z
| PKill (pid : Z) : procE Z
| PSleep (n : Z) : procE Z
| PMknod (path : list Z) (major minor : Z) : procE Z
| PDup (fd : Z) : procE Z.

Abbreviation sysE := (sum1 fileE procE).
Definition file_call {T} (e : fileE T) : itree sysE T := ITree.trigger (inl1 e).
Definition proc_call {T} (e : procE T) : itree sysE T := ITree.trigger (inr1 e).

(** ** The user library *)

Definition exit {A} : itree sysE A := let* x := file_call FExit in match (x : void) with end.

(** [printf(fd, ...)] writes its text byte by byte. *)
Fixpoint putcs (fd : Z) (text : list Z) : itree sysE unit :=
  match text with
  | [] => Ret tt
  | c :: text => do* file_call (FWrite fd [c]) in putcs fd text
  end.
Definition print_text (fd : Z) (text : option (list Z)) : itree sysE unit := putcs fd (default [] text).
(** A format without directives, and one with a string. *)
Definition prints (fd : Z) (fmt : list Z) : itree sysE unit := print_text fd (printf (λ _, 0) (λ _, []) fmt).
Definition prints1 (fd : Z) (fmt s : list Z) : itree sysE unit := print_text fd (printf (λ _, 1) (λ _, s) fmt).

Definition stat (n : list Z) : itree sysE (option (Z * Z * Z)) :=
  let* fd := file_call (FOpen n 0) in
  if fd <? 0 then Ret None else
  let* r := file_call (FFstat fd) in
  do* file_call (FClose fd) in
  Ret r.

(** ** The world *)

Record file := mkFile { f_chunks : list (list Z); f_stat : Z * Z * Z }.
Record world := mkWorld {
  w_files : gmap (list Z) file;
  w_fds : gmap Z file;
  w_writable : gset Z;
  w_out : list (Z * list Z) }.

Definition set_fds (f : gmap Z file) (w : world) : world := mkWorld (w_files w) f (w_writable w) (w_out w).
Definition set_files (f : gmap (list Z) file) (w : world) : world := mkWorld f (w_fds w) (w_writable w) (w_out w).
Definition log_out (fd : Z) (data : list Z) (w : world) : world := mkWorld (w_files w) (w_fds w) (w_writable w) (w_out w ++ [(fd, data)]).

Definition MAXFD : nat := 16.
(** The lowest descriptor that is not open. *)
Definition free_fd (w : world) : option Z :=
  head (filter (λ fd, w_fds w !! fd = None ∧ fd ∉ w_writable w) (Z.of_nat <$> seq 0 MAXFD)).

Definition do_open (path : list Z) (w : world) : world * Z :=
  match w_files w !! path, free_fd w with
  | Some f, Some fd => (set_fds (<[fd := f]> (w_fds w)) w, fd)
  | _, _ => (w, -1)
  end.
Definition do_read (fd n : Z) (w : world) : world * (Z * list Z) :=
  match w_fds w !! fd with
  | None => (w, (-1, []))
  | Some f =>
      let '(data, rest) := fd_read (f_chunks f) (Z.to_nat n) in
      (set_fds (<[fd := mkFile rest (f_stat f)]> (w_fds w)) w, (Z.of_nat (length data), data))
  end.
Definition do_write (fd : Z) (data : list Z) (w : world) : world * Z :=
  if decide (fd ∈ w_writable w) then (log_out fd data w, Z.of_nat (length data)) else (w, -1).
Definition do_link (old new : list Z) (w : world) : world * Z :=
  match w_files w !! old, w_files w !! new with
  | Some f, None => (set_files (<[new := f]> (w_files w)) w, 0)
  | _, _ => (w, -1)
  end.
Definition do_unlink (path : list Z) (w : world) : world * Z :=
  match w_files w !! path with Some _ => (set_files (delete path (w_files w)) w, 0) | None => (w, -1) end.
Definition do_mkdir (path : list Z) (w : world) : world * Z :=
  match w_files w !! path with Some _ => (w, -1) | None => (set_files (<[path := mkFile [] (1, 0, 0)]> (w_files w)) w, 0) end.

(** What is left visible: the end of the program, and calls on processes. *)
Variant endE : Type → Type := Ended (w : world) : endE void.
Abbreviation outE := (sum1 endE procE).
Definition serve : ∀ T, sysE T → Monads.stateT world (itree outE) T := λ T e,
  match e with
  | inl1 e =>
      match e in fileE T return Monads.stateT world (itree outE) T with
      | FOpen path _ => λ w, Ret (do_open path w)
      | FRead fd n => λ w, Ret (do_read fd n w)
      | FWrite fd data => λ w, Ret (do_write fd data w)
      | FClose fd => λ w, Ret (set_fds (delete fd (w_fds w)) w, 0)
      | FFstat fd => λ w, Ret (w, f_stat <$> w_fds w !! fd)
      | FLink old new => λ w, Ret (do_link old new w)
      | FUnlink path => λ w, Ret (do_unlink path w)
      | FMkdir path => λ w, Ret (do_mkdir path w)
      | FExit => λ w, let* x := ITree.trigger (inl1 (Ended w)) in Ret (w, x)
      end
  | inr1 e => λ w, let* r := ITree.trigger (inr1 e) in Ret (w, r)
  end.

(** ** Runs *)

(** A program that returns, and one that ends. *)
Definition returns {A} (t : itree sysE A) (w : world) (a : A) (w' : world) : Prop :=
  eutt eq (interp_state serve t w) (Ret (w', a)).
Definition ended {A} (w : world) : itree outE A := Vis (inl1 (Ended w)) (λ x : void, match x with end).
Definition exits {A} (t : itree sysE A) (w w' : world) : Prop := eutt eq (interp_state serve t w) (ended w').

Section runs.
Context {A B : Type}.
Implicit Types (t : itree sysE A) (k : A → itree sysE B) (w : world).

Lemma returns_ret (a : A) w : returns (Ret a) w a w.
Proof. unfold returns. rewrite interp_state_ret. reflexivity. Qed.
Lemma returns_bind t k w a w1 b w2 : returns t w a w1 → returns (k a) w1 b w2 → returns (ITree.bind t k) w b w2.
Proof. unfold returns. intros H1 H2. rewrite interp_state_bind, H1, bind_ret_l. exact H2. Qed.
Lemma exits_bind t k w a w1 w2 : returns t w a w1 → exits (k a) w1 w2 → exits (ITree.bind t k) w w2.
Proof. unfold returns, exits. intros H1 H2. rewrite interp_state_bind, H1, bind_ret_l. exact H2. Qed.
(** What follows an exit does not matter. *)
Lemma exits_early t k w w' : exits t w w' → exits (ITree.bind t k) w w'.
Proof.
  unfold exits. intros H. rewrite interp_state_bind, H. unfold ended. rewrite bind_vis. apply eqit_Vis. intros [].
Qed.
Lemma exits_exit w : exits (exit (A := A)) w w.
Proof.
  unfold exits, exit, file_call. rewrite interp_state_bind, interp_state_trigger. cbn. rewrite bind_bind.
  unfold ended. rewrite bind_trigger. apply eqit_Vis. intros [].
Qed.
Lemma returns_file (e : fileE A) w a w' : serve A (inl1 e) w = Ret (w', a) → returns (file_call e) w a w'.
Proof. unfold returns, file_call. intros H. rewrite interp_state_trigger. cbn in *. rewrite H. reflexivity. Qed.
End runs.

(** One more iteration of a loop, and the last one. *)
Lemma returns_iter_again {I R} (body : I → itree sysE (I + R)) i w i' w1 r w2 :
  returns (body i) w (inl i') w1 → returns (ITree.iter body i') w1 r w2 → returns (ITree.iter body i) w r w2.
Proof.
  unfold returns. intros H1 H2. rewrite unfold_iter, interp_state_bind, H1, bind_ret_l. cbn. rewrite interp_state_tau, tau_eutt. exact H2.
Qed.
Lemma returns_iter_stop {I R} (body : I → itree sysE (I + R)) i w r w1 : returns (body i) w (inr r) w1 → returns (ITree.iter body i) w r w1.
Proof. unfold returns. intros H1. rewrite unfold_iter, interp_state_bind, H1, bind_ret_l. cbn. rewrite interp_state_ret. reflexivity. Qed.
Lemma exits_iter {I R} (body : I → itree sysE (I + R)) i w w' : exits (body i) w w' → exits (ITree.iter body i) w w'.
Proof.
  unfold exits. intros H. rewrite unfold_iter, interp_state_bind, H. unfold ended. rewrite bind_vis. apply eqit_Vis. intros [].
Qed.
