(* ===== verification/UserProgs.v ===== *)
(** * Small user programs: cat, wc, echo, echo_reversal, ls, ln, rm, mkdir, kill

    The programs as trees of system calls (Usys), and what they do to a world of
    files.  [argv] is given without the program's name; arguments are C strings,
    the lists of their bytes. *)
From ITree Require Import ITree ITreeFacts Events.State Events.StateFacts.
From S2P Require Import Prelude Str Printf Grep Usys.

Definition nl : list Z := [10].
Definition BUF : Z := 512.

(** The loop of the main functions of cat.c and wc.c over their arguments. *)
Fixpoint each_file (msg : list Z) (work : Z → list Z → itree sysE unit) (files : list (list Z)) : itree sysE unit :=
  match files with
  | [] => exit
  | f :: files =>
      let* fd := file_call (FOpen f 0) in
      if fd <? 0 then do* prints1 1 msg f in exit else
      do* work fd f in
      do* file_call (FClose fd) in
      each_file msg work files
  end.

(** ** cat.c *)

(** [while((n = read(fd, buf, sizeof(buf))) > 0)]: the last [n]. *)
Definition cat_loop (fd : Z) : itree sysE Z :=
  ITree.iter (λ _ : unit,
    let* r := file_call (FRead fd BUF) in
    if 0 <? r.1 then
      let* m := file_call (FWrite 1 (take (Z.to_nat r.1) r.2)) in
      if negb (m =? r.1) then do* prints 1 (chars "cat: write error" ++ nl) in exit else Ret (inl tt)
    else Ret (inr r.1)) tt.
Definition cat (fd : Z) : itree sysE unit :=
  let* n := cat_loop fd in
  if n <? 0 then do* prints 1 (chars "cat: read error" ++ nl) in exit else Ret tt.

Definition cat_files (files : list (list Z)) : itree sysE unit := each_file (chars "cat: cannot open %s" ++ nl) (λ fd _, cat fd) files.
Definition cat_main (argv : list (list Z)) : itree sysE unit :=
  match argv with
  | [] => do* cat 0 in exit
  | _ => cat_files argv
  end.

(** ** wc.c *)

Record counts := mkCounts { c_l : Z; c_w : Z; c_c : Z; c_inword : bool }.

(** The white space of [strchr(" \r\t\n\v", buf[i])]. *)
Definition blanks : list Z := [32; 13; 9; 10; 11].
Definition is_blank (c : Z) : bool := match strchr (cstr blanks) c 6 with Some (Some _) => true | _ => false end.

Definition count1 (s : counts) (c : Z) : counts :=
  let n := c_c s + 1 in
  let l := if c =? 10 then c_l s + 1 else c_l s in
  if is_blank c then mkCounts l (c_w s) n false
  else if negb (c_inword s) then mkCounts l (c_w s + 1) n true
  else mkCounts l (c_w s) n (c_inword s).

(** One read and the inner loop over what it gave. *)
Definition wc_body (fd : Z) (s : counts) : itree sysE (counts + counts * Z) :=
  let* r := file_call (FRead fd BUF) in
  if 0 <? r.1 then Ret (inl (foldl count1 s (take (Z.to_nat r.1) r.2))) else Ret (inr (s, r.1)).
(** The loops of [wc]: the counts, and the last [n]. *)
Definition wc_loop (fd : Z) : itree sysE (counts * Z) := ITree.iter (wc_body fd) (mkCounts 0 0 0 false).

(** The words after the format of [printf(1, "%d %d %d %s\n", ...)]. *)
Definition four (a b c d : Z) (i : nat) : Z := nth i [a; b; c; d] 0.
Definition wc (fd : Z) (name : list Z) : itree sysE unit :=
  let* x := wc_loop fd in
  let s := x.1 in
  if x.2 <? 0 then do* prints 1 (chars "wc: read error" ++ nl) in exit else
  print_text 1 (printf (four (c_l s) (c_w s) (c_c s) 1) (λ _, name) (chars "%d %d %d %s" ++ nl)).

Definition wc_files (files : list (list Z)) : itree sysE unit := each_file (chars "wc: cannot open %s" ++ nl) wc files.
Definition wc_main (argv : list (list Z)) : itree sysE unit :=
  match argv with
  | [] => do* wc 0 [] in exit
  | _ => wc_files argv
  end.

(** ** echo.c and echo_reversal.c *)

(** [printf(1, "%s%s", argv[i], i+1 < argc ? " " : "\n")] *)
Definition echo_sep (rest : list (list Z)) : list Z := match rest with [] => nl | _ => [32] end.
Fixpoint echo_args (argv : list (list Z)) : itree sysE unit :=
  match argv with
  | [] => exit
  | a :: rest =>
      do* print_text 1 (printf (four 1 2 0 0) (λ p, if p =? 1 then a else echo_sep rest) (chars "%s%s")) in
      echo_args rest
  end.
Definition echo_main (argv : list (list Z)) : itree sysE unit := echo_args argv.

(** [while(1)]: the index of the NUL of an argument in memory. *)
Fixpoint arg_end (p : nat → Z) (count fuel : nat) : option nat :=
  match fuel with
  | O => None
  | S fuel => if p count =? 0 then Some count else arg_end p (S count) fuel
  end.
(** [for(int j=count-1;j>=0;j--)]: [n] is [j + 1]. *)
Fixpoint print_back (p : nat → Z) (n : nat) : itree sysE unit :=
  match n with
  | O => Ret tt
  | S j => do* print_text 1 (printf (λ _, p j) (λ _, []) (chars "%c")) in print_back p j
  end.
Fixpoint reversal_args (argv : list (list Z)) : itree sysE unit :=
  match argv with
  | [] => exit
  | a :: rest =>
      do* print_back (cstr a) (default O (arg_end (cstr a) 0 (S (length a)))) in
      do* prints1 1 (chars "%s") (echo_sep rest) in
      reversal_args rest
  end.

(** ** ls.c *)

Definition DIRSIZ : nat := 14.
(** [for(p=path+strlen(path); p >= path && *p != '/'; p--)], then [p++]: [n] is
    [p - path + 1], so that the result is the index of the name. *)
Fixpoint name_start (path : list Z) (n : nat) : nat :=
  match n with
  | O => O
  | S i => if nth i path 0 =? 47 then S i else name_start path i
  end.
(** The static buffer has a NUL at its end. *)
Definition fmtname (path : list Z) : list Z :=
  let p := drop (name_start path (S (length path))) path in
  if (DIRSIZ <=? length p)%nat then p else p ++ replicate (DIRSIZ - length p) 32.

(** [printf(1, "%s %d %d %d\n", fmtname(path), st.type, st.ino, st.size)] *)
Definition ls_line (path : list Z) (st : Z * Z * Z) : itree sysE unit :=
  print_text 1 (printf (four 1 st.1.1 st.1.2 st.2) (λ _, fmtname path) (chars "%s %d %d %d" ++ nl)).

(** One entry of a directory: inode number and name. *)
Definition de_inum (de : list Z) : Z := rd16 de 0.
Definition de_name (de : list Z) : list Z := cprefix (cstr (subarr de 2 DIRSIZ)) DIRSIZ.

(** [while(read(fd, &de, sizeof(de)) == sizeof(de))] *)
Definition ls_entries (fd : Z) (path : list Z) : itree sysE unit :=
  ITree.iter (λ _ : unit,
    let* r := file_call (FRead fd 16) in
    if negb (r.1 =? 16) then Ret (inr tt) else
    if de_inum r.2 =? 0 then Ret (inl tt) else
    let buf := path ++ [47] ++ de_name r.2 in
    let* st := stat buf in
    match st with
    | None => do* prints1 1 (chars "ls: cannot stat %s" ++ nl) buf in Ret (inl tt)
    | Some st => do* ls_line buf st in Ret (inl tt)
    end) tt.

Definition ls (path : list Z) : itree sysE unit :=
  let* fd := file_call (FOpen path 0) in
  if fd <? 0 then prints1 2 (chars "ls: cannot open %s" ++ nl) path else
  let* st := file_call (FFstat fd) in
  match st with
  | None =>
      do* prints1 2 (chars "ls: cannot stat %s" ++ nl) path in
      do* file_call (FClose fd) in Ret tt
  | Some st =>
      do* (if st.1.1 =? 2 then ls_line path st
           else if st.1.1 =? 1 then
             if (512 <? length path + 1 + DIRSIZ + 1)%nat then prints 1 (chars "ls: path too long" ++ nl)
             else ls_entries fd path
           else Ret tt) in
      do* file_call (FClose fd) in Ret tt
  end.

Fixpoint ls_args (argv : list (list Z)) : itree sysE unit :=
  match argv with [] => exit | a :: rest => do* ls a in ls_args rest end.
Definition ls_main (argv : list (list Z)) : itree sysE unit :=
  match argv with
  | [] => do* ls (chars ".") in exit
  | _ => ls_args argv
  end.

(** ** ln.c, rm.c, mkdir.c and kill.c *)

Definition ln_main (argv : list (list Z)) : itree sysE unit :=
  match argv with
  | [old; new] =>
      let* r := file_call (FLink old new) in
      do* (if r <? 0 then print_text 2 (printf (four 1 2 0 0) (λ p, if p =? 1 then old else new) (chars "link %s %s: failed" ++ nl)) else Ret tt) in
      exit
  | _ => do* prints 2 (chars "Usage: ln old new" ++ nl) in exit
  end.

Fixpoint rm_args (argv : list (list Z)) : itree sysE unit :=
  match argv with
  | [] => exit
  | a :: rest =>
      let* r := file_call (FUnlink a) in
      if r <? 0 then do* prints1 2 (chars "rm: %s failed to delete" ++ nl) a in exit else rm_args rest
  end.
Definition rm_main (argv : list (list Z)) : itree sysE unit :=
  match argv with [] => do* prints 2 (chars "Usage: rm files..." ++ nl) in exit | _ => rm_args argv end.

Fixpoint mkdir_args (argv : list (list Z)) : itree sysE unit :=
  match argv with
  | [] => exit
  | a :: rest =>
      let* r := file_call (FMkdir a) in
      if r <? 0 then do* prints1 2 (chars "mkdir: %s failed to create" ++ nl) a in exit else mkdir_args rest
  end.
Definition mkdir_main (argv : list (list Z)) : itree sysE unit :=
  match argv with [] => do* prints 2 (chars "Usage: mkdir files..." ++ nl) in exit | _ => mkdir_args argv end.

Fixpoint kill_args (argv : list (list Z)) : itree sysE unit :=
  match argv with
  | [] => exit
  | a :: rest => do* proc_call (PKill (default 0 (atoi (cstr a) (S (length a))))) in kill_args rest
  end.
Definition kill_main (argv : list (list Z)) : itree sysE unit :=
  match argv with [] => do* prints 2 (chars "usage: kill pid..." ++ nl) in exit | _ => kill_args argv end.

(** ** Output *)

(** What was written to a descriptor. *)
Definition output (fd : Z) (w : world) : list Z := concat (snd <$> filter (λ p, p.1 = fd) (w_out w)).

(** Only output happened: [text] on [fd]. *)
Record printed (fd : Z) (text : list Z) (w w' : world) : Prop := {
  pr_files : w_files w' = w_files w;
  pr_writable : w_writable w' = w_writable w;
  pr_out : output fd w' = output fd w ++ text;
  pr_other fd' : fd' ≠ fd → output fd' w' = output fd' w }.

Lemma printed_trans fd t1 t2 w w1 w2 : printed fd t1 w w1 → printed fd t2 w1 w2 → printed fd (t1 ++ t2) w w2.
Proof.
  intros [F1 W1 O1 X1] [F2 W2 O2 X2]. split; [by rewrite F2|by rewrite W2|by rewrite O2, O1, app_assoc|].
  intros fd' Hne. by rewrite X2, X1.
Qed.
Lemma printed_fds fd w f : printed fd [] w (set_fds f w).
Proof. split; [done|done|by rewrite app_nil_r|done]. Qed.
Lemma printed_refl fd w : printed fd [] w w.
Proof. split; [done|done|by rewrite app_nil_r|done]. Qed.

Lemma output_log fd fd' data w : output fd' (log_out fd data w) = output fd' w ++ (if decide (fd = fd') then data else []).
Proof.
  unfold output, log_out. cbn [w_out]. rewrite list.filter_app, fmap_app, concat_app. f_equal. rewrite list.filter_cons, list.filter_nil. cbn [fst].
  repeat case_decide; try done. cbn. by rewrite app_nil_r.
Qed.
Lemma printed_log fd data w : printed fd data w (log_out fd data w).
Proof. split; [done|done|by rewrite output_log, decide_True|]. intros fd' Hne. by rewrite output_log, decide_False, app_nil_r. Qed.

Lemma fwrite_spec fd data w : fd ∈ w_writable w → returns (file_call (FWrite fd data)) w (Z.of_nat (length data)) (log_out fd data w).
Proof. intros H. apply returns_file. cbn. unfold do_write. by rewrite decide_True. Qed.

Lemma putcs_spec fd text : ∀ w, fd ∈ w_writable w → ∃ w', returns (putcs fd text) w tt w' ∧ printed fd text w w' ∧ w_fds w' = w_fds w.
Proof.
  induction text as [|c text IH]; intros w Hw; [exists w; split; [apply returns_ret|]; split; [apply printed_refl|done]|].
  destruct (IH (log_out fd [c] w) Hw) as (w' & R & Hp & Hf). exists w'. split; [|split; [|done]].
  - cbn [putcs]. eapply returns_bind; [by apply fwrite_spec|exact R].
  - apply (printed_trans fd [c] text w _ _ (printed_log fd [c] w) Hp).
Qed.
Lemma print_text_spec fd t text w : t = Some text → fd ∈ w_writable w → ∃ w', returns (print_text fd t) w tt w' ∧ printed fd text w w' ∧ w_fds w' = w_fds w.
Proof. intros ->. apply putcs_spec. Qed.

Definition decimal (n : Z) : list Z := default [] (printint n 10 true).
Lemma decimal_spec n : is_s32 n → printint n 10 true = Some (decimal n).
Proof. intros H. unfold decimal. by destruct (printint_decimal n H) as (ds & -> & _). Qed.

(** The directives of printf, one at a time. *)
Section directives.
Context (args : nat → Z) (strs : Z → list Z).
Abbreviation P fmt ap := (printf_loop args strs fmt false ap).

Lemma printf_char c fmt ap : c ≠ 37 → 0 ≤ c < 256 → P (c :: fmt) ap = cons c <$> P fmt ap.
Proof.
  intros Hc Hr. cbn [printf_loop negb]. assert (Z.land c 255 = c) as ->.
  { change 255 with (Z.ones 8). rewrite Z.land_ones by lia. by apply Z.mod_small. }
  rewrite (proj2 (Z.eqb_neq _ _) Hc). assert (u8 c = c) as -> by (by apply Z.mod_small). done.
Qed.
Lemma printf_d fmt ap n : args ap = n → is_s32 n → P (37 :: 100 :: fmt) ap = app (decimal n) <$> P fmt (S ap).
Proof.
  intros Ha Hn. cbn [printf_loop negb]. change (Z.land 37 255 =? 37) with true. change (Z.land 100 255 =? 100) with true. cbn iota.
  rewrite Ha, (s32_small n Hn), (decimal_spec n Hn). reflexivity.
Qed.
Lemma printf_s fmt ap p : args ap = p → p ≠ 0 → P (37 :: 115 :: fmt) ap = app (strs p) <$> P fmt (S ap).
Proof.
  intros Ha Hp%Z.eqb_neq. cbn [printf_loop negb]. change (Z.land 37 255 =? 37) with true. change (Z.land 115 255 =? 100) with false.
  change (Z.land 115 255 =? 120) with false. change (Z.land 115 255 =? 112) with false. change (Z.land 115 255 =? 115) with true. cbn [orb]. cbn iota.
  by rewrite Ha, Hp.
Qed.
Lemma printf_c fmt ap x : args ap = x → 0 ≤ x < 256 → P (37 :: 99 :: fmt) ap = cons x <$> P fmt (S ap).
Proof.
  intros Ha Hx. cbn [printf_loop negb]. change (Z.land 37 255 =? 37) with true. change (Z.land 99 255 =? 100) with false.
  change (Z.land 99 255 =? 120) with false. change (Z.land 99 255 =? 112) with false. change (Z.land 99 255 =? 115) with false.
  change (Z.land 99 255 =? 99) with true. cbn [orb]. cbn iota. rewrite Ha. assert (u8 x = x) as -> by (by apply Z.mod_small). done.
Qed.
Lemma printf_end ap : P [] ap = Some [].
Proof. done. Qed.
End directives.

(** ** Descriptors *)

Lemma free_fd_spec w fd : free_fd w = Some fd → 0 ≤ fd ∧ w_fds w !! fd = None ∧ fd ∉ w_writable w.
Proof.
  unfold free_fd. intros H. assert (fd ∈ filter (λ fd, w_fds w !! fd = None ∧ fd ∉ w_writable w) (Z.of_nat <$> seq 0 MAXFD)) as Hin.
  { destruct (filter _ _) as [|x l]; [done|]. injection H as ->. apply list_elem_of_here. }
  apply list_elem_of_filter in Hin as [[H1 H2] Hin]. apply list_elem_of_fmap in Hin as (n & -> & _). split; [lia|done].
Qed.
Lemma free_fd_same w w' : w_fds w' = w_fds w → w_writable w' = w_writable w → free_fd w' = free_fd w.
Proof. unfold free_fd. by intros -> ->. Qed.

Lemma open_spec w path f fd : w_files w !! path = Some f → free_fd w = Some fd →
  returns (file_call (FOpen path 0)) w fd (set_fds (<[fd := f]> (w_fds w)) w).
Proof. intros Hp Hf. apply returns_file. cbn. unfold do_open. by rewrite Hp, Hf. Qed.
Lemma close_spec w fd : returns (file_call (FClose fd)) w 0 (set_fds (delete fd (w_fds w)) w).
Proof. by apply returns_file. Qed.

(** Reads deliver the file piece by piece. *)
Definition good (f : file) : Prop := Forall (λ c, c ≠ []) (f_chunks f).
Definition content (f : file) : list Z := concat (f_chunks f).

Lemma fd_read_good chunks n : (0 < n)%nat → Forall (λ c, c ≠ []) chunks → let '(data, rest) := fd_read chunks n in
  concat chunks = data ++ concat rest ∧ Forall (λ c, c ≠ []) rest ∧ (data = [] → chunks = []).
Proof.
  intros Hn Hc. destruct chunks as [|c cs]; [done|]. apply list.Forall_cons in Hc as [Hc Hcs]. cbn.
  rewrite <- (take_drop n c) at 1. rewrite <- app_assoc. split; [|split].
  - destruct (drop n c); done.
  - destruct (drop n c) eqn:E; [done|]. by apply list.Forall_cons.
  - destruct c; [done|]. destruct n; [lia|done].
Qed.

(** One read of a file: at its end, or some bytes of it. *)
Lemma read_spec w fd f (n : Z) : w_fds w !! fd = Some f → good f → 0 < n → ∃ data f', 
  returns (file_call (FRead fd n)) w (Z.of_nat (length data), data) (set_fds (<[fd := f']> (w_fds w)) w) ∧
  good f' ∧ f_stat f' = f_stat f ∧ content f = data ++ content f' ∧ (data = [] → content f = []).
Proof.
  intros Hf Hg Hn. pose proof (fd_read_good (f_chunks f) (Z.to_nat n) ltac:(lia) Hg) as H. destruct (fd_read _ _) as [data rest] eqn:E.
  destruct H as (H1 & H2 & H3). exists data, (mkFile rest (f_stat f)). split; [|split; [done|]; split; [done|]; split; [done|]].
  - apply returns_file. cbn. unfold do_read. rewrite Hf, E. done.
  - intros ->. unfold content. by rewrite H3.
Qed.

(** ** cat *)

(** A file open at [fd], read to its end. *)
Definition at_end (fd : Z) (w w' : world) : Prop := ∃ f, w_fds w' = <[fd := f]> (w_fds w).

Lemma cat_loop_spec n : ∀ w fd f, w_fds w !! fd = Some f → good f → 1 ∈ w_writable w → (length (content f) < n)%nat →
  ∃ w', returns (cat_loop fd) w 0 w' ∧ printed 1 (content f) w w' ∧ at_end fd w w'.
Proof.
  induction n as [|n IH]; intros w fd f Hf Hg Hw Hn; [lia|].
  destruct (read_spec w fd f BUF Hf Hg ltac:(done)) as (data & f' & R & Hg' & _ & Hc & He).
  set (w1 := set_fds (<[fd := f']> (w_fds w)) w) in *. destruct data as [|x data].
  - rewrite (He eq_refl) in *. exists w1. split; [|split; [apply printed_fds|by exists f']].
    unfold cat_loop. apply returns_iter_stop. eapply returns_bind; [exact R|]. apply returns_ret.
  - set (w2 := log_out 1 (x :: data) w1). destruct (IH w2 fd f') as (w' & R' & Hp & (f2 & Hend)).
    + apply lookup_insert_eq.
    + done.
    + done.
    + rewrite Hc, length_app in Hn. cbn [length] in Hn. lia.
    + exists w'. split; [|split].
      * unfold cat_loop in *. eapply returns_iter_again; [|exact R']. eapply returns_bind; [exact R|]. cbn [fst snd].
        rewrite (proj2 (Z.ltb_lt _ _)) by (cbn [length]; lia). rewrite Nat2Z.id, take_ge by done.
        eapply returns_bind; [apply fwrite_spec; exact Hw|]. rewrite Z.eqb_refl. cbn [negb]. apply returns_ret.
      * rewrite Hc. exact (printed_trans 1 [] _ w w1 w' (printed_fds 1 w _) (printed_trans 1 _ _ w1 w2 w' (printed_log 1 (x :: data) w1) Hp)).
      * exists f2. rewrite Hend. cbn. by rewrite insert_insert_eq.
Qed.
Lemma cat_spec w fd f : w_fds w !! fd = Some f → good f → 1 ∈ w_writable w →
  ∃ w', returns (cat fd) w tt w' ∧ printed 1 (content f) w w' ∧ at_end fd w w'.
Proof.
  intros Hf Hg Hw. destruct (cat_loop_spec (S (length (content f))) w fd f Hf Hg Hw ltac:(lia)) as (w' & R & Hp & He). exists w'. split; [|done].
  unfold cat. eapply returns_bind; [exact R|]. apply returns_ret.
Qed.

(** The files named, and what is in them. *)
Definition readable (w : world) (files : list (list Z)) : Prop := Forall (λ p, ∃ f, w_files w !! p = Some f ∧ good f) files.
Definition contents (w : world) (files : list (list Z)) : list Z :=
  concat ((λ p, default [] (content <$> w_files w !! p)) <$> files).

(** Open, work, close: the descriptor table is as before. *)
Lemma closed_again w w2 fd f f2 : free_fd w = Some fd → w_fds w2 = <[fd := f2]> (<[fd := f]> (w_fds w)) → delete fd (w_fds w2) = w_fds w.
Proof.
  intros (_ & Hn & _)%free_fd_spec ->. rewrite delete_insert_eq, delete_insert_eq. by apply delete_id.
Qed.

(** The text that the work on a file writes. *)
Definition works (work : Z → list Z → itree sysE unit) (ok : file → Prop) (text : file → list Z → list Z) : Prop :=
  ∀ w fd f name, w_fds w !! fd = Some f → ok f → 1 ∈ w_writable w →
  ∃ w', returns (work fd name) w tt w' ∧ printed 1 (text f name) w w' ∧ at_end fd w w'.
Definition texts (w : world) (text : file → list Z → list Z) (files : list (list Z)) : list Z :=
  concat ((λ p, match w_files w !! p with Some f => text f p | None => [] end) <$> files).

(** [pre]: arguments that name files, before one that does not, or the end. *)
Lemma each_file_spec msg err work ok text (Hmsg : ∀ p, printf (λ _, 1) (λ _, p) msg = Some (err p)) (Hwork : works work ok text) pre : ∀ w post,
  Forall (λ p, ∃ f, w_files w !! p = Some f ∧ ok f) pre → from_option (λ p, w_files w !! p = None) True (head post) →
  1 ∈ w_writable w → free_fd w ≠ None →
  ∃ w', exits (each_file msg work (pre ++ post)) w w' ∧ printed 1 (texts w text pre ++ default [] (err <$> head post)) w w' ∧ w_fds w' = w_fds w.
Proof.
  induction pre as [|p pre IH]; intros w post Hr Hpost Hw Hfree.
  - destruct post as [|p post]; cbn [app head from_option] in *.
    + exists w. split; [apply exits_exit|]. split; [apply printed_refl|done].
    + destruct (print_text_spec 1 _ (err p) w (Hmsg p) Hw) as (w' & R & Hp & Hf). exists w'. split; [|split; [exact Hp|done]].
      cbn [each_file]. eapply exits_bind; [apply (returns_file (FOpen p 0) w (-1) w); cbn; unfold do_open; by rewrite Hpost|].
      change (-1 <? 0) with true. cbn iota. eapply exits_bind; [exact R|apply exits_exit].
  - apply list.Forall_cons in Hr as [(f & Hp & Hg) Hr]. destruct (free_fd w) as [fd|] eqn:Efd; [|done].
    pose proof (free_fd_spec _ _ Efd) as (H0 & _ & _). set (w1 := set_fds (<[fd := f]> (w_fds w)) w).
    destruct (Hwork w1 fd f p (lookup_insert_eq _ _ _) Hg Hw) as (w2 & R2 & P2 & (f2 & E2)).
    set (w3 := set_fds (delete fd (w_fds w2)) w2).
    assert (w_fds w3 = w_fds w) as E3 by exact (closed_again w w2 fd f f2 Efd E2).
    assert (printed 1 (text f p) w w3) as P3.
    { rewrite <- (app_nil_r (text f p)). exact (printed_trans 1 [] _ w w1 w3 (printed_fds 1 w _) (printed_trans 1 _ _ w1 w2 w3 P2 (printed_fds 1 w2 _))). }
    destruct (IH w3 post) as (w4 & R4 & P4 & E4).
    + by rewrite (pr_files _ _ _ _ P3).
    + by rewrite (pr_files _ _ _ _ P3).
    + by rewrite (pr_writable _ _ _ _ P3).
    + rewrite (free_fd_same w w3), Efd; [done|done|by apply P3].
    + exists w4. split; [|split; [|by rewrite E4]].
      * cbn [app each_file]. eapply exits_bind; [by apply open_spec|]. rewrite (proj2 (Z.ltb_ge _ _)) by lia.
        eapply exits_bind; [exact R2|]. eapply exits_bind; [apply close_spec|exact R4].
      * unfold texts in *. rewrite (pr_files _ _ _ _ P3) in P4. cbn [fmap list_fmap concat]. rewrite Hp, <- app_assoc.
        eapply printed_trans; [exact P3|exact P4].
Qed.

Definition cannot_open (prog : string) (p : list Z) : list Z := chars prog ++ chars ": cannot open " ++ p ++ nl.
Lemma cat_message p : printf (λ _, 1) (λ _, p) (chars "cat: cannot open %s" ++ nl) = Some (cannot_open "cat" p).
Proof. reflexivity. Qed.
Lemma wc_message p : printf (λ _, 1) (λ _, p) (chars "wc: cannot open %s" ++ nl) = Some (cannot_open "wc" p).
Proof. reflexivity. Qed.

(** Cat copies.  Whatever the sizes of the reads, cat writes the contents of
    the files it is given, in order and without anything else, to its standard
    output, leaves files and descriptors as they were, and exits; it stops with
    a message at the first argument that cannot be opened. *)
Lemma cat_copies w files rest : files ++ rest ≠ [] → readable w files → from_option (λ p, w_files w !! p = None) True (head rest) →
  1 ∈ w_writable w → free_fd w ≠ None →
  ∃ w', exits (cat_main (files ++ rest)) w w' ∧ w_fds w' = w_fds w ∧
  printed 1 (contents w files ++ default [] (cannot_open "cat" <$> head rest)) w w'.
Proof.
  intros Hne Hr Hrest Hw Hfree. destruct (each_file_spec _ _ (λ fd _, cat fd) good (λ f _, content f) cat_message) with (pre := files) (w := w) (post := rest)
    as (w' & R & Hp & Hf); [|done..|].
  - intros w0 fd f name. apply cat_spec.
  - exists w'. split; [|split; [done|]].
    + unfold cat_main, cat_files. by destruct (files ++ rest).
    + unfold texts, contents in *. replace ((λ p, default [] (content <$> w_files w !! p)) <$> files) with
        ((λ p, match w_files w !! p with Some f => content f | None => [] end) <$> files); [done|].
      apply list_fmap_ext. intros i p _. by destruct (w_files w !! p).
Qed.

(** ** wc *)

(** A word starts at a character that is not blank, at the beginning or after a
    blank. *)
Definition word_start (l : list Z) (i : nat) : bool :=
  match l !! i with
  | Some c => negb (is_blank c) && match i with O => true | S j => default true (is_blank <$> l !! j) end
  | None => false
  end.
Definition newlines (l : list Z) : nat := length (filter (λ c, c = 10) l).
Definition words (l : list Z) : nat := length (filter (λ i, word_start l i = true) (seq 0 (length l))).
Definition in_word (l : list Z) : bool := match list.last l with Some c => negb (is_blank c) | None => false end.
Definition tally (l : list Z) : counts := mkCounts (newlines l) (words l) (length l) (in_word l).

Lemma filter_ext_in {A} (p q : A → bool) (l : list A) : (∀ x, x ∈ l → p x = q x) → filter (λ x, p x = true) l = filter (λ x, q x = true) l.
Proof.
  induction l as [|x l IH]; intros H; [done|]. rewrite !list.filter_cons, (H x (list_elem_of_here x l)), IH; [done|]. intros y Hy. apply H. by apply list_elem_of_further.
Qed.
Lemma words_snoc l c : words (l ++ [c]) = (words l + (if negb (is_blank c) && negb (in_word l) then 1 else 0))%nat.
Proof.
  unfold words. rewrite length_app. cbn [length]. rewrite seq_app, list.filter_app, length_app. f_equal.
  - f_equal. apply filter_ext_in. intros i Hi%elem_of_seq. unfold word_start.
    rewrite lookup_app_l by lia. destruct i as [|j]; [done|]. by rewrite lookup_app_l by lia.
  - cbn [seq]. rewrite list.filter_cons, list.filter_nil. assert (word_start (l ++ [c]) (0 + length l) = negb (is_blank c) && negb (in_word l)) as ->.
    { unfold word_start, in_word. cbn [Nat.add]. rewrite list_lookup_middle by done. f_equal. rewrite last_lookup.
      destruct (length l) as [|j] eqn:El; [by destruct l|]. cbn [pred]. rewrite lookup_app_l by lia. destruct (lookup_lt_is_Some_2 l j) as [x ->]; [lia|]. cbn. by rewrite negb_involutive. }
    destruct (negb (is_blank c) && negb (in_word l)); [by rewrite decide_True|by rewrite decide_False].
Qed.

Lemma count1_tally l c : count1 (tally l) c = tally (l ++ [c]).
Proof.
  unfold count1, tally. cbn [c_l c_w c_c c_inword]. rewrite words_snoc, length_app.
  assert (in_word (l ++ [c]) = negb (is_blank c)) as -> by (unfold in_word; by rewrite last_snoc).
  assert (Z.of_nat (newlines (l ++ [c])) = if c =? 10 then newlines l + 1 else newlines l) as ->.
  { unfold newlines. rewrite list.filter_app, length_app, list.filter_cons, list.filter_nil. destruct (Z.eqb_spec c 10); [rewrite decide_True by done|rewrite decide_False by done]; cbn; lia. }
  destruct (is_blank c), (in_word l); cbn [negb andb length]; f_equal; lia.
Qed.
Lemma fold_tally data : ∀ l, foldl count1 (tally l) data = tally (l ++ data).
Proof.
  induction data as [|c data IH]; intros l; cbn [foldl]; [by rewrite app_nil_r|]. rewrite count1_tally, IH. by rewrite <- app_assoc.
Qed.

Lemma wc_loop_spec n : ∀ w fd f l, w_fds w !! fd = Some f → good f → (length (content f) < n)%nat →
  ∃ w', returns (ITree.iter (wc_body fd) (tally l)) w (tally (l ++ content f), 0) w' ∧ printed 1 [] w w' ∧ at_end fd w w'.
Proof.
  induction n as [|n IH]; intros w fd f l Hf Hg Hn; [lia|].
  destruct (read_spec w fd f BUF Hf Hg ltac:(done)) as (data & f' & R & Hg' & _ & Hc & He).
  set (w1 := set_fds (<[fd := f']> (w_fds w)) w) in *. destruct data as [|x data].
  - rewrite (He eq_refl), app_nil_r in *. exists w1. split; [|split; [apply printed_fds|by exists f']].
    apply returns_iter_stop. eapply returns_bind; [exact R|]. apply returns_ret.
  - destruct (IH w1 fd f' (l ++ x :: data)) as (w' & R' & Hp & (f2 & Hend)); [apply lookup_insert_eq|done| |].
    + rewrite Hc, length_app in Hn. cbn [length] in Hn. lia.
    + exists w'. rewrite Hc, app_assoc. split; [|split].
      * eapply returns_iter_again; [|exact R']. eapply returns_bind; [exact R|]. cbn [fst snd].
        rewrite (proj2 (Z.ltb_lt _ _)) by (cbn [length]; lia). rewrite Nat2Z.id, take_ge, fold_tally by done. apply returns_ret.
      * exact (printed_trans 1 [] _ w w1 w' (printed_fds 1 w _) Hp).
      * exists f2. rewrite Hend. cbn. by rewrite insert_insert_eq.
Qed.

(** The line wc prints for a file. *)
Definition wc_text (l name : list Z) : list Z :=
  decimal (newlines l) ++ [32] ++ decimal (words l) ++ [32] ++ decimal (length l) ++ [32] ++ name ++ nl.

Lemma wc_format a b c name : is_s32 a → is_s32 b → is_s32 c →
  printf (four a b c 1) (λ _, name) (chars "%d %d %d %s" ++ nl) = Some (decimal a ++ [32] ++ decimal b ++ [32] ++ decimal c ++ [32] ++ name ++ nl).
Proof.
  intros Ha Hb Hc. unfold printf. change (chars "%d %d %d %s" ++ nl) with [37; 100; 32; 37; 100; 32; 37; 100; 32; 37; 115; 10].
  rewrite (printf_d (four a b c 1) _ _ 0 a eq_refl Ha), printf_char, (printf_d (four a b c 1) _ _ 1 b eq_refl Hb), printf_char, (printf_d (four a b c 1) _ _ 2 c eq_refl Hc), printf_char by lia.
  rewrite (printf_s (four a b c 1) _ _ 3 1 eq_refl), printf_char by lia. reflexivity.
Qed.

Lemma newlines_le l : (newlines l ≤ length l)%nat.
Proof. apply length_filter. Qed.
Lemma words_le l : (words l ≤ length l)%nat.
Proof. unfold words. etransitivity; [apply length_filter|]. by rewrite length_seq. Qed.

Lemma wc_spec w fd f name : w_fds w !! fd = Some f → good f → 1 ∈ w_writable w → Z.of_nat (length (content f)) < 2 ^ 31 →
  ∃ w', returns (wc fd name) w tt w' ∧ printed 1 (wc_text (content f) name) w w' ∧ at_end fd w w'.
Proof.
  intros Hf Hg Hw Hl. destruct (wc_loop_spec (S (length (content f))) w fd f [] Hf Hg ltac:(lia)) as (w1 & R1 & P1 & (f1 & E1)). rewrite app_nil_l in R1.
  pose proof (newlines_le (content f)). pose proof (words_le (content f)).
  destruct (print_text_spec 1 _ _ w1 (wc_format (newlines (content f)) (words (content f)) (length (content f)) name
    ltac:(unfold is_s32; lia) ltac:(unfold is_s32; lia) ltac:(unfold is_s32; lia))) as (w2 & R2 & P2 & E2); [by rewrite (pr_writable _ _ _ _ P1)|].
  exists w2. split; [|split; [exact (printed_trans 1 [] _ w w1 w2 P1 P2)|exists f1; by rewrite E2]].
  unfold wc. eapply returns_bind; [exact R1|]. cbn [fst snd]. exact R2.
Qed.

(** wc counts.  For every file it is given, read in pieces of any size, wc
    prints the number of newlines, the number of words (maximal runs without a
    blank, counted where they start) and the number of bytes, with the name,
    and stops with a message at the first argument that cannot be opened. *)
Lemma wc_counts w files rest : files ++ rest ≠ [] →
  Forall (λ p, ∃ f, w_files w !! p = Some f ∧ good f ∧ Z.of_nat (length (content f)) < 2 ^ 31) files →
  from_option (λ p, w_files w !! p = None) True (head rest) → 1 ∈ w_writable w → free_fd w ≠ None →
  ∃ w', exits (wc_main (files ++ rest)) w w' ∧ w_fds w' = w_fds w ∧
  printed 1 (texts w (λ f p, wc_text (content f) p) files ++ default [] (cannot_open "wc" <$> head rest)) w w'.
Proof.
  intros Hne Hr Hrest Hw Hfree. destruct (each_file_spec _ _ wc (λ f, good f ∧ Z.of_nat (length (content f)) < 2 ^ 31) (λ f p, wc_text (content f) p) wc_message)
    with (pre := files) (w := w) (post := rest) as (w' & R & Hp & Hf); [|done..|].
  - intros w0 fd f name H1 [H2 H3] H4. by apply wc_spec.
  - exists w'. split; [|split; done]. unfold wc_main, wc_files. by destruct (files ++ rest).
Qed.

(** A world with two files and the standard output, for the examples. *)
Definition demo_world : world :=
  mkWorld {[chars "a" := mkFile [chars "one tw"; chars "o" ++ nl] (2, 3, 8); chars "b" := mkFile [chars "x" ++ nl ++ nl] (2, 4, 3)]} ∅ {[1; 2]} [].

Lemma cat_copies_witness : ∃ w', exits (cat_main [chars "a"; chars "b"; chars "c"]) demo_world w' ∧
  output 1 w' = chars "one two" ++ nl ++ chars "x" ++ nl ++ nl ++ chars "cat: cannot open c" ++ nl.
Proof.
  destruct (cat_copies demo_world [chars "a"; chars "b"] [chars "c"]) as (w' & R & _ & Hp); [done| |done|set_solver|done|].
  - repeat (apply list.Forall_cons; split; [eexists; split; [vm_compute; reflexivity|by repeat constructor]|]). by apply list.Forall_nil.
  - exists w'. split; [exact R|]. rewrite (pr_out _ _ _ _ Hp). vm_compute. reflexivity.
Defined.

Lemma wc_counts_witness : ∃ w', exits (wc_main [chars "a"; chars "b"]) demo_world w' ∧
  output 1 w' = chars "1 2 8 a" ++ nl ++ chars "2 1 3 b" ++ nl.
Proof.
  destruct (wc_counts demo_world [chars "a"; chars "b"] []) as (w' & R & _ & Hp); [done| |done|set_solver|done|].
  - repeat (apply list.Forall_cons; split; [eexists; split; [vm_compute; reflexivity|split; [by repeat constructor|vm_compute; done]]|]). by apply list.Forall_nil.
  - exists w'. split; [exact R|]. rewrite (pr_out _ _ _ _ Hp). vm_compute. reflexivity.
Defined.

(** ** echo *)

(** The arguments with a blank between them and a newline at the end. *)
Fixpoint spaced (argv : list (list Z)) : list Z :=
  match argv with [] => [] | [a] => a ++ nl | a :: rest => a ++ [32] ++ spaced rest end.
Lemma spaced_cons a rest : spaced (a :: rest) = a ++ echo_sep rest ++ spaced rest.
Proof. destruct rest; [by rewrite app_nil_r|done]. Qed.

Lemma echo_spec argv : ∀ w, 1 ∈ w_writable w → ∃ w', exits (echo_main argv) w w' ∧ printed 1 (spaced argv) w w' ∧ w_fds w' = w_fds w.
Proof.
  induction argv as [|a rest IH]; intros w Hw; [exists w; split; [apply exits_exit|split; [apply printed_refl|done]]|].
  assert (printf (four 1 2 0 0) (λ p, if p =? 1 then a else echo_sep rest) (chars "%s%s") = Some (a ++ echo_sep rest)) as E.
  { unfold printf. change (chars "%s%s") with [37; 115; 37; 115]. rewrite (printf_s (four 1 2 0 0) _ _ 0 1 eq_refl), (printf_s (four 1 2 0 0) _ _ 1 2 eq_refl) by lia.
    cbn. by rewrite app_nil_r. }
  destruct (print_text_spec 1 _ _ w E Hw) as (w1 & R1 & P1 & F1). destruct (IH w1) as (w2 & R2 & P2 & F2); [by rewrite (pr_writable _ _ _ _ P1)|].
  exists w2. split; [|split; [|by rewrite F2]].
  - unfold echo_main. cbn [echo_args]. eapply exits_bind; [exact R1|exact R2].
  - rewrite spaced_cons, app_assoc. eapply printed_trans; [exact P1|exact P2].
Qed.

Lemma arg_end_spec a : Forall (λ c, c ≠ 0) a → ∀ k fuel, (k ≤ length a)%nat → (length a - k < fuel)%nat → arg_end (cstr a) k fuel = Some (length a).
Proof.
  intros Ha k fuel. revert k. induction fuel as [|fuel IH]; intros k Hk Hf; [lia|]. cbn [arg_end]. unfold cstr in *.
  destruct (decide (k = length a)) as [->|Hne].
  - by rewrite nth_overflow.
  - destruct (Z.eqb_spec (nth k a 0) 0) as [E|_]; [|apply IH; lia]. rewrite list.Forall_forall in Ha. destruct (Ha (nth k a 0)); [|done].
    apply list_elem_of_In, nth_In. lia.
Qed.
Lemma print_back_spec a n : Forall (λ c, 0 < c < 256) a → (n ≤ length a)%nat → ∀ w, 1 ∈ w_writable w →
  ∃ w', returns (print_back (cstr a) n) w tt w' ∧ printed 1 (rev (take n a)) w w' ∧ w_fds w' = w_fds w.
Proof.
  intros Ha. induction n as [|n IH]; intros Hn w Hw.
  - exists w. split; [apply returns_ret|]. split; [apply printed_refl|done].
  - destruct (lookup_lt_is_Some_2 a n) as [x Hx]; [lia|]. assert (0 < x < 256) as Hx2 by (by eapply (list.Forall_lookup_1 _ _ _ _ Ha)).
    assert (printf (λ _, cstr a n) (λ _, []) (chars "%c") = Some [x]) as E.
    { unfold printf. change (chars "%c") with [37; 99]. rewrite (printf_c (λ _, cstr a n) _ _ 0 x); [done| |lia]. unfold cstr. by apply nth_lookup_Some. }
    destruct (print_text_spec 1 _ _ w E Hw) as (w1 & R1 & P1 & F1). destruct (IH ltac:(lia) w1) as (w2 & R2 & P2 & F2); [by rewrite (pr_writable _ _ _ _ P1)|].
    exists w2. split; [|split; [|by rewrite F2]].
    + cbn [print_back]. eapply returns_bind; [exact R1|exact R2].
    + rewrite (take_S_r a n x Hx), rev_app_distr. exact (printed_trans 1 _ _ w w1 w2 P1 P2).
Qed.

(** echo_reversal prints every argument backwards. *)
Lemma reversal_spec argv : Forall (Forall (λ c, 0 < c < 256)) argv → ∀ w, 1 ∈ w_writable w →
  ∃ w', exits (reversal_args argv) w w' ∧ printed 1 (spaced (@rev Z <$> argv)) w w' ∧ w_fds w' = w_fds w.
Proof.
  induction argv as [|a rest IH]; intros Ha w Hw; [exists w; split; [apply exits_exit|split; [apply printed_refl|done]]|].
  apply list.Forall_cons in Ha as [Ha Hrest].
  destruct (print_back_spec a (length a) Ha ltac:(done) w Hw) as (w1 & R1 & P1 & F1). rewrite take_ge in P1 by done.
  assert (printf (λ _, 1) (λ _, echo_sep rest) (chars "%s") = Some (echo_sep rest)) as E by (unfold printf; cbn; by rewrite app_nil_r).
  destruct (print_text_spec 1 _ _ w1 E) as (w2 & R2 & P2 & F2); [by rewrite (pr_writable _ _ _ _ P1)|].
  destruct (IH Hrest w2) as (w3 & R3 & P3 & F3); [by rewrite (pr_writable _ _ _ _ P2), (pr_writable _ _ _ _ P1)|].
  exists w3. split; [|split; [|by rewrite F3, F2]].
  - cbn [reversal_args]. rewrite (arg_end_spec a); [| |lia|lia].
    + eapply exits_bind; [exact R1|]. eapply exits_bind; [exact R2|exact R3].
    + eapply list.Forall_impl; [exact Ha|]. intros c ?; cbn in *; lia.
  - cbn [fmap list_fmap]. rewrite spaced_cons. replace (echo_sep (@rev Z <$> rest)) with (echo_sep rest) by (by destruct rest).
    eapply printed_trans; [exact P1|]. eapply printed_trans; [exact P2|exact P3].
Qed.

(** ** ls *)

Lemma name_start_spec dir name n : 47 ∉ name → dir = [] ∨ list.last dir = Some 47 → (length dir ≤ n ≤ length (dir ++ name))%nat → name_start (dir ++ name) n = length dir.
Proof.
  intros Hn Hd. induction n as [|n IH]; intros Hl; cbn [name_start].
  - destruct dir; [done|cbn in Hl; lia].
  - destruct (decide (S n = length dir)) as [E|Hne].
    + destruct Hd as [->|Hd]; [done|]. rewrite last_lookup, <- E in Hd. cbn [pred] in Hd.
      rewrite (nth_lookup_Some (dir ++ name) n 0 47) by (rewrite lookup_app_l; [done|lia]). by rewrite E.
    + rewrite length_app in Hl. destruct (Z.eqb_spec (nth n (dir ++ name) 0) 47) as [E|_]; [|apply IH; rewrite length_app; lia].
      rewrite app_nth2 in E by lia. destruct Hn. rewrite <- E. apply list_elem_of_In, nth_In. lia.
Qed.

(** The name after the last slash, padded to the width of a directory entry. *)
Lemma fmtname_spec dir name : 47 ∉ name → dir = [] ∨ list.last dir = Some 47 →
  fmtname (dir ++ name) = name ++ replicate (DIRSIZ - length name) 32.
Proof.
  intros Hn Hd. unfold fmtname. assert (name_start (dir ++ name) (S (length (dir ++ name))) = length dir) as ->.
  { cbn [name_start]. rewrite nth_overflow by done. apply name_start_spec; [done|done|]. rewrite length_app. lia. }
  rewrite drop_app_length. destruct (Nat.leb_spec DIRSIZ (length name)) as [Hl|Hl]; [|done].
  replace (DIRSIZ - length name)%nat with O by lia. by rewrite app_nil_r.
Qed.

(** The line for a file. *)
Definition ls_text (path : list Z) (st : Z * Z * Z) : list Z :=
  fmtname path ++ [32] ++ decimal (st.1.1) ++ [32] ++ decimal (st.1.2) ++ [32] ++ decimal (st.2) ++ nl.
Definition stat_ok (st : Z * Z * Z) : Prop := is_s32 (st.1.1) ∧ is_s32 (st.1.2) ∧ is_s32 (st.2).

Lemma ls_line_spec w path st : stat_ok st → 1 ∈ w_writable w →
  ∃ w', returns (ls_line path st) w tt w' ∧ printed 1 (ls_text path st) w w' ∧ w_fds w' = w_fds w.
Proof.
  intros (H1 & H2 & H3) Hw. apply print_text_spec; [|done]. destruct st as [[a b] c]. cbn [fst snd] in *. unfold printf.
  change (chars "%s %d %d %d" ++ nl) with [37; 115; 32; 37; 100; 32; 37; 100; 32; 37; 100; 10].
  rewrite (printf_s (four 1 a b c) _ _ 0 1 eq_refl), printf_char, (printf_d (four 1 a b c) _ _ 1 a eq_refl H1), printf_char by lia.
  rewrite (printf_d (four 1 a b c) _ _ 2 b eq_refl H2), printf_char, (printf_d (four 1 a b c) _ _ 3 c eq_refl H3), printf_char by lia. reflexivity.
Qed.

(** [stat] leaves the descriptors as they were. *)
Lemma stat_spec w path f : w_files w !! path = Some f → free_fd w ≠ None →
  ∃ w', returns (stat path) w (Some (f_stat f)) w' ∧ printed 1 [] w w' ∧ w_fds w' = w_fds w.
Proof.
  intros Hp Hfree. destruct (free_fd w) as [fd|] eqn:Efd; [|done]. pose proof (free_fd_spec _ _ Efd) as (H0 & H1 & _).
  set (w1 := set_fds (<[fd := f]> (w_fds w)) w). exists (set_fds (delete fd (w_fds w1)) w1). split; [|split].
  - unfold stat. eapply returns_bind; [by apply open_spec|]. rewrite (proj2 (Z.ltb_ge _ _)) by lia.
    eapply returns_bind; [apply (returns_file (FFstat fd) w1 (Some (f_stat f)) w1); cbn; by rewrite lookup_insert_eq|].
    eapply returns_bind; [apply close_spec|apply returns_ret].
  - exact (printed_trans 1 [] [] w w1 _ (printed_fds 1 w _) (printed_fds 1 w1 _)).
  - cbn. rewrite delete_insert_eq. by apply delete_id.
Qed.

(** A directory of entries in one piece; each is free or names a file. *)
Definition entry_ok (w : world) (path de : list Z) : Prop :=
  length de = 16%nat ∧ (de_inum de ≠ 0 → ∃ f, w_files w !! (path ++ [47] ++ de_name de) = Some f ∧ stat_ok (f_stat f)).
Definition entry_text (w : world) (path de : list Z) : list Z :=
  if de_inum de =? 0 then [] else
  match w_files w !! (path ++ [47] ++ de_name de) with Some f => ls_text (path ++ [47] ++ de_name de) (f_stat f) | None => [] end.
Definition dir_chunks (des : list (list Z)) : list (list Z) := match des with [] => [] | _ => [concat des] end.

Lemma dir_read de des : Forall (λ d, length d = 16%nat) (de :: des) → fd_read (dir_chunks (de :: des)) 16 = (de, dir_chunks des).
Proof.
  intros [Hl Hr]%list.Forall_cons. cbn [dir_chunks fd_read concat]. rewrite take_app_length' by done. rewrite drop_app_length' by done.
  destruct des as [|d des]; [done|]. apply list.Forall_cons in Hr as [Hd _]. cbn [concat dir_chunks]. by destruct d.
Qed.

Lemma ls_entries_spec des st : ∀ w fd path, w_fds w !! fd = Some (mkFile (dir_chunks des) st) → Forall (entry_ok w path) des →
  1 ∈ w_writable w → free_fd w ≠ None →
  ∃ w', returns (ls_entries fd path) w tt w' ∧ printed 1 (concat (entry_text w path <$> des)) w w' ∧ at_end fd w w'.
Proof.
  induction des as [|de des IH]; intros w fd path Hf Hok Hw Hfree; unfold ls_entries in *.
  - eexists. split; [|split; [apply printed_fds|by eexists]]. apply returns_iter_stop.
    eapply returns_bind; [apply (returns_file (FRead fd 16)); cbn; unfold do_read; rewrite Hf; reflexivity|]. cbn [fst snd]. apply returns_ret.
  - set (w1 := set_fds (<[fd := mkFile (dir_chunks des) st]> (w_fds w)) w).
    assert (Forall (λ d, length d = 16%nat) (de :: des)) as Hlen by (eapply list.Forall_impl; [exact Hok|by intros d [? _]]).
    apply list.Forall_cons in Hok as [[Hl Hde] Hok].
    assert (returns (file_call (FRead fd 16)) w (16, de) w1) as R1.
    { apply (returns_file (FRead fd 16)). cbn. unfold do_read. rewrite Hf. cbn [f_chunks]. change (Z.to_nat 16) with 16%nat. rewrite (dir_read de des Hlen), Hl. done. }
    assert (free_fd w1 ≠ None) as Hfree1.
    { replace (free_fd w1) with (free_fd w); [done|]. unfold free_fd. f_equal. apply (list_filter_iff _ _). intros x. cbn. rewrite lookup_insert_None. naive_solver congruence. }
    assert (∃ w2, returns (if de_inum de =? 0 then Ret (inl tt) else
        let* s := stat (path ++ [47] ++ de_name de) in
        match s with
        | None => do* prints1 1 (chars "ls: cannot stat %s" ++ nl) (path ++ [47] ++ de_name de) in Ret (inl tt)
        | Some s => do* ls_line (path ++ [47] ++ de_name de) s in Ret (inl tt)
        end) w1 (@inl unit unit tt) w2 ∧ printed 1 (entry_text w path de) w w2 ∧ w_fds w2 = w_fds w1) as (w2 & R2 & P2 & F2).
    { unfold entry_text. destruct (Z.eqb_spec (de_inum de) 0) as [E|E].
      - exists w1. split; [apply returns_ret|]. split; [apply printed_fds|done].
      - destruct (Hde E) as (f & Hp & Hs). destruct (stat_spec w1 _ f Hp Hfree1) as (w2 & R2 & P2 & F2).
        destruct (ls_line_spec w2 (path ++ [47] ++ de_name de) _ Hs) as (w3 & R3 & P3 & F3); [by rewrite (pr_writable _ _ _ _ P2)|]. exists w3. split; [|split; [|by rewrite F3]].
        + eapply returns_bind; [exact R2|]. cbn beta iota. eapply returns_bind; [exact R3|apply returns_ret].
        + rewrite Hp. exact (printed_trans 1 [] _ w w1 w3 (printed_fds 1 w _) (printed_trans 1 [] _ w1 w2 w3 P2 P3)). }
    destruct (IH w2 fd path) as (w3 & R3 & P3 & (f3 & F3)).
    + rewrite F2. apply lookup_insert_eq.
    + unfold entry_ok in *. by rewrite (pr_files _ _ _ _ P2).
    + by rewrite (pr_writable _ _ _ _ P2).
    + rewrite (free_fd_same w1 w2); [done|done|]. by rewrite (pr_writable _ _ _ _ P2).
    + exists w3. split; [|split].
      * eapply returns_iter_again; [|exact R3]. eapply returns_bind; [exact R1|]. cbn [fst snd]. change (negb (16 =? 16)) with false. cbn iota. exact R2.
      * cbn [fmap list_fmap concat]. eapply printed_trans; [exact P2|].
        unfold entry_text in *. by rewrite (pr_files _ _ _ _ P2) in P3.
      * exists f3. rewrite F3, F2. cbn. by rewrite insert_insert_eq.
Qed.

(** Listing a directory. *)
Lemma ls_dir_spec w path des ino size fd : w_files w !! path = Some (mkFile (dir_chunks des) (1, ino, size)) → (length path + 1 + DIRSIZ + 1 ≤ 512)%nat →
  Forall (entry_ok w path) des → 1 ∈ w_writable w → free_fd w = Some fd → (∀ f, free_fd (set_fds (<[fd := f]> (w_fds w)) w) ≠ None) →
  ∃ w', exits (ls_main [path]) w w' ∧ printed 1 (concat (entry_text w path <$> des)) w w' ∧ w_fds w' = w_fds w.
Proof.
  intros Hp Hl Hok Hw Efd Hfree. pose proof (free_fd_spec _ _ Efd) as (H0 & _ & _). set (f := mkFile _ _) in *.
  set (w1 := set_fds (<[fd := f]> (w_fds w)) w).
  destruct (ls_entries_spec des (1, ino, size) w1 fd path (lookup_insert_eq _ _ _) Hok Hw (Hfree f)) as (w2 & R2 & P2 & (f2 & F2)).
  set (w3 := set_fds (delete fd (w_fds w2)) w2). exists w3. split; [|split].
  - unfold ls_main. cbn [ls_args]. eapply exits_bind; [|apply exits_exit]. unfold ls. eapply returns_bind; [by apply open_spec|].
    rewrite (proj2 (Z.ltb_ge _ _)) by lia. eapply returns_bind; [apply (returns_file (FFstat fd) w1 (Some (1, ino, size)) w1); cbn; by rewrite lookup_insert_eq|].
    cbn [fst snd]. change (1 =? 2) with false. change (1 =? 1) with true. cbn iota. rewrite (proj2 (Nat.ltb_ge _ _) Hl).
    eapply returns_bind; [exact R2|]. eapply returns_bind; [apply close_spec|apply returns_ret].
  - rewrite <- (app_nil_r (concat _)). exact (printed_trans 1 [] _ w w1 w3 (printed_fds 1 w _) (printed_trans 1 _ _ w1 w2 w3 P2 (printed_fds 1 w2 _))).
  - exact (closed_again w w2 fd f f2 Efd F2).
Qed.

(** ** rm *)

(** rm deletes its arguments up to the first that does not exist. *)
Fixpoint unlinked (fs : gmap (list Z) file) (argv : list (list Z)) : gmap (list Z) file * option (list Z) :=
  match argv with
  | [] => (fs, None)
  | a :: rest => match fs !! a with Some _ => unlinked (delete a fs) rest | None => (fs, Some a) end
  end.
Lemma rm_spec argv : argv ≠ [] → ∀ w, 2 ∈ w_writable w →
  ∃ w', exits (rm_main argv) w w' ∧ w_files w' = (unlinked (w_files w) argv).1 ∧ w_fds w' = w_fds w ∧
  output 2 w' = output 2 w ++ match (unlinked (w_files w) argv).2 with Some a => chars "rm: " ++ a ++ chars " failed to delete" ++ nl | None => [] end.
Proof.
  intros Hne. assert (rm_main argv = rm_args argv) as -> by (by destruct argv). clear Hne. induction argv as [|a rest IH]; intros w Hw.
  - exists w. split; [apply exits_exit|]. by rewrite app_nil_r.
  - cbn [rm_args unlinked]. destruct (w_files w !! a) as [f|] eqn:E.
    + destruct (IH (set_files (delete a (w_files w)) w) Hw) as (w' & R & F & D & O). exists w'. split; [|done].
      eapply exits_bind; [apply (returns_file (FUnlink a)); cbn; unfold do_unlink; rewrite E; reflexivity|]. exact R.
    + assert (printf (λ _, 1) (λ _, a) (chars "rm: %s failed to delete" ++ nl) = Some (chars "rm: " ++ a ++ chars " failed to delete" ++ nl)) as Ep by reflexivity.
      destruct (print_text_spec 2 _ _ w Ep Hw) as (w' & R & Hp & F). exists w'. split; [|by rewrite (pr_files _ _ _ _ Hp), (pr_out _ _ _ _ Hp)].
      eapply exits_bind; [apply (returns_file (FUnlink a)); cbn; unfold do_unlink; rewrite E; reflexivity|]. eapply exits_bind; [exact R|apply exits_exit].
Qed.
