(* ===== verification/Init.v ===== *)
(** * The first process: init.c, and zombie.c

    init never ends: it keeps a shell running and collects the children of dead
    processes.  It is an infinite tree of system calls (Usys); what it may do is
    a machine over these calls, and conformance to it is a coinductive predicate
    on trees, for every answer the kernel can give. *)
From Paco Require Import paco.
From ITree Require Import ITree ITreeFacts.
From S2P Require Import Prelude Str Printf Grep Usys UserProgs.

Definition sh : list Z := chars "sh".
Definition console : list Z := chars "console".

(** The two nested loops as one: [None] is the head of the outer loop, [Some pid]
    the test of the inner one. *)
Definition init_step (at_ : option Z) : itree sysE (option Z + void) :=
  match at_ with
  | None =>
      do* prints 1 (chars "init: starting sh" ++ nl) in
      let* pid := proc_call PFork in
      if pid <? 0 then do* prints 1 (chars "init: fork failed" ++ nl) in exit else
      if pid =? 0 then
        do* proc_call (PExec sh [sh]) in
        do* prints 1 (chars "init: exec sh failed" ++ nl) in
        exit
      else Ret (inl (Some pid))
  | Some pid =>
      let* wpid := proc_call PWait in
      if (0 <=? wpid) && negb (wpid =? pid) then do* prints 1 (chars "zombie!" ++ nl) in Ret (inl (Some pid))
      else Ret (inl None)
  end.
Definition init_loop (at_ : option Z) : itree sysE void := ITree.iter init_step at_.

Definition init_main : itree sysE void :=
  let* r := file_call (FOpen console 2) in
  do* (if r <? 0 then
         do* proc_call (PMknod console 1 1) in
         do* file_call (FOpen console 2) in Ret tt
       else Ret tt) in
  do* proc_call (PDup 0) in
  do* proc_call (PDup 0) in
  init_loop None.

Definition zombie_main : itree sysE unit :=
  let* r := proc_call PFork in
  do* (if 0 <? r then do* proc_call (PSleep 5) in Ret tt else Ret tt) in
  exit.

(** ** What init may do *)

(** Before the first shell, without a shell, with shell [pid] running, in the
    child before exec, after a failure. *)
Inductive istate := Booting | NoShell | Shell (pid : Z) | InChild | Failed.

Definition forked (pid : Z) : istate := if pid <? 0 then Failed else if pid =? 0 then InChild else Shell pid.
Definition reaped (pid wpid : Z) : istate := if (0 <=? wpid) && negb (wpid =? pid) then Shell pid else NoShell.

Inductive allowedF (r : istate → itree sysE void → Prop) : istate → itree' sysE void → Prop :=
| a_tau s t : r s t → allowedF r s (TauF t)
| a_message s data k : (∀ n, r s (k n)) → allowedF r s (VisF (inl1 (FWrite 1 data)) k)
| a_console k : (∀ fd, r Booting (k fd)) → allowedF r Booting (VisF (inl1 (FOpen console 2)) k)
| a_mknod k : (∀ x, r Booting (k x)) → allowedF r Booting (VisF (inr1 (PMknod console 1 1)) k)
| a_dup k : (∀ x, r Booting (k x)) → allowedF r Booting (VisF (inr1 (PDup 0)) k)
| a_fork s k : s = Booting ∨ s = NoShell → (∀ pid, r (forked pid) (k pid)) → allowedF r s (VisF (inr1 PFork) k)
| a_exec k : (∀ x, r Failed (k x)) → allowedF r InChild (VisF (inr1 (PExec sh [sh])) k)
| a_wait pid k : (∀ w, r (reaped pid w) (k w)) → allowedF r (Shell pid) (VisF (inr1 PWait) k)
| a_exit k : allowedF r Failed (VisF (inl1 FExit) k).

Definition allowed_ (r : istate → itree sysE void → Prop) (s : istate) (t : itree sysE void) : Prop := allowedF r s (observe t).
Lemma allowed_mon : monotone2 allowed_.
Proof. intros s t r r' H LE. unfold allowed_ in *. destruct H; econstructor; eauto. Qed.
#[local] Hint Resolve allowed_mon : paco.
Definition allowed (s : istate) (t : itree sysE void) : Prop := paco2 allowed_ bot2 s t.

(** Only what can be observed of a tree counts. *)
Lemma allowed_observe r s (t t' : itree sysE void) : observe t = observe t' → paco2 allowed_ r s t' → paco2 allowed_ r s t.
Proof. intros E H. punfold H. pfold. unfold allowed_ in *. by rewrite E. Qed.

(** A message, then the rest, inside a loop. *)
Lemma allowed_putcs {A} r s text (F : unit → itree sysE A) (K : A → itree sysE void) :
  paco2 allowed_ r s (ITree.bind (F tt) K) → paco2 allowed_ r s (ITree.bind (ITree.bind (putcs 1 text) F) K).
Proof.
  intros H. induction text as [|c text IH]; [by eapply allowed_observe; [|exact H]|].
  pfold. unfold allowed_. cbn. apply a_message. intros n. left. eapply allowed_observe; [|exact IH]. reflexivity.
Qed.

(** Where the loop is, and what that means. *)
Definition stands (at_ : option Z) (s : istate) : Prop :=
  match at_ with None => s = Booting ∨ s = NoShell | Some pid => s = Shell pid end.

(** The next thing a tree does. *)
#[local] Ltac step := pfold; match goal with |- allowed_ ?R ?s ?t => change (allowedF R s (observe t)) end; cbn -[Z.leb Z.eqb Z.ltb andb negb prints].

Lemma init_loop_allowed at_ s : stands at_ s → allowed s (init_loop at_).
Proof.
  unfold allowed. revert at_ s. pcofix CIH. intros at_ s Hs.
  assert (∀ s a, stands a s → paco2 allowed_ r s (Tau (init_loop a))) as Hback.
  { intros s' a Ha. step. apply a_tau. right. by apply CIH. }
  set (K := λ lr : option Z + void, match lr with inl l => Tau (init_loop l) | inr x => Ret x end).
  assert (∀ s' text, s' = Failed → paco2 allowed_ r s' (ITree.bind (ITree.bind (putcs 1 text) (λ _, exit)) K)) as Hfail.
  { intros s' text ->. apply allowed_putcs. step. apply a_exit. }
  destruct at_ as [pid|]; cbn [stands] in Hs.
  - subst s. step. apply a_wait. intros w. left.
    apply (allowed_observe r _ _ (ITree.bind (if (0 <=? w) && negb (w =? pid) then do* prints 1 (chars "zombie!" ++ nl) in Ret (inl (Some pid)) else Ret (inl None)) K)); [reflexivity|].
    unfold reaped. destruct ((0 <=? w) && negb (w =? pid)).
    + apply allowed_putcs. apply (allowed_observe r _ _ (Tau (init_loop (Some pid)))); [reflexivity|]. by apply Hback.
    + apply (allowed_observe r _ _ (Tau (init_loop None))); [reflexivity|]. apply Hback. by right.
  - set (F := λ _ : unit, ITree.bind (U := option Z + void) (proc_call PFork) (λ pid,
      if pid <? 0 then do* prints 1 (chars "init: fork failed" ++ nl) in exit else
      if pid =? 0 then do* proc_call (PExec sh [sh]) in do* prints 1 (chars "init: exec sh failed" ++ nl) in exit else Ret (inl (Some pid)))).
    apply (allowed_observe r _ _ (ITree.bind (ITree.bind (prints 1 (chars "init: starting sh" ++ nl)) F) K)); [reflexivity|].
    apply allowed_putcs. step. apply a_fork; [done|]. intros pid. left.
    apply (allowed_observe r _ _ (ITree.bind (if pid <? 0 then do* prints 1 (chars "init: fork failed" ++ nl) in exit else
      if pid =? 0 then do* proc_call (PExec sh [sh]) in do* prints 1 (chars "init: exec sh failed" ++ nl) in exit else Ret (inl (Some pid))) K)); [reflexivity|].
    unfold forked. destruct (pid <? 0); [by apply Hfail|]. destruct (pid =? 0).
    + step. apply a_exec. intros x. left.
      apply (allowed_observe r _ _ (ITree.bind (ITree.bind (prints 1 (chars "init: exec sh failed" ++ nl)) (λ _, exit)) K)); [reflexivity|]. by apply Hfail.
    + apply (allowed_observe r _ _ (Tau (init_loop (Some pid)))); [reflexivity|]. by apply Hback.
Qed.

(** C39: init keeps one shell running.  For every sequence of answers of the
    kernel: after setting up its descriptors on the console init starts a shell,
    waits until that shell is gone, and only then starts another; it never
    returns, and it exits only when fork fails (or, in the child, exec). *)
Theorem init_supervises : allowed Booting init_main.
Proof.
  unfold init_main. step. apply a_console. intros fd. left.
  apply (allowed_observe bot2 _ _ (ITree.bind (if fd <? 0 then do* proc_call (PMknod console 1 1) in do* file_call (FOpen console 2) in Ret tt else Ret tt)
    (λ _, do* proc_call (PDup 0) in do* proc_call (PDup 0) in init_loop None))); [reflexivity|].
  assert (paco2 allowed_ bot2 Booting (do* proc_call (PDup 0) in do* proc_call (PDup 0) in init_loop None)) as Hrest.
  { step. apply a_dup. intros x. left. apply (allowed_observe bot2 _ _ (do* proc_call (PDup 0) in init_loop None)); [reflexivity|].
    step. apply a_dup. intros y. left. apply (allowed_observe bot2 _ _ (init_loop None)); [reflexivity|]. apply init_loop_allowed. by left. }
  destruct (fd <? 0).
  - step. apply a_mknod. intros x. left. step. apply a_console. intros y. left. eapply allowed_observe; [|exact Hrest]. reflexivity.
  - eapply allowed_observe; [|exact Hrest]. reflexivity.
Qed.

(** The parent sleeps before it exits, the child does not. *)
Lemma zombie_run : eutt eq zombie_main (let* r := proc_call PFork in if 0 <? r then do* proc_call (PSleep 5) in exit else exit).
Proof.
  unfold zombie_main. apply eutt_clo_bind with (UU := eq); [reflexivity|]. intros r r' <-. destruct (0 <? r).
  - rewrite bind_bind. apply eutt_clo_bind with (UU := eq); [reflexivity|]. intros x y _. rewrite bind_ret_l. reflexivity.
  - rewrite bind_ret_l. reflexivity.
Qed.
