(* ===== verification/Cpu.v ===== *)
(** * Per-CPU state: descriptors, task state and the running CPU

    The segment and gate descriptors of mmu.h, seginit, switchuvm, switchkvm and
    kvmalloc of vm.c, tvinit and idtinit of trap.c, mycpu, cpuid and myproc of
    proc.c, with the registers that lgdt, lidt, ltr and lcr3 of x86.h load.  The
    way the processor uses the tables, for an [int] instruction or an interrupt,
    is written out as [hw_int], from the words in memory; the theorems show where
    a user program can enter the kernel, and on which stack. *)
From S2P Require Import Prelude Str Spinlock Kalloc Vm Proc Port Lapic.

Definition SEG_KCODE : Z := 1.
Definition SEG_KDATA : Z := 2.
Definition SEG_UCODE : Z := 3.
Definition SEG_UDATA : Z := 4.
Definition SEG_TSS : Z := 5.
Definition NSEGS : nat := 6.
Definition STA_X : Z := 8.
Definition STA_W : Z := 2.
Definition STA_R : Z := 2.
Definition STS_T32A : Z := 9.
Definition STS_IG32 : Z := 14.
Definition STS_TG32 : Z := 15.
Definition DPL_USER : Z := 3.
Definition T_SYSCALL : nat := 64.

(** ** Descriptors *)

(** [struct segdesc] *)
Record segdesc := mkSeg {
  lim_15_0 : Z; base_15_0 : Z; base_23_16 : Z; sd_type : Z; sd_s : Z; sd_dpl : Z; sd_p : Z;
  lim_19_16 : Z; sd_avl : Z; sd_rsv1 : Z; sd_db : Z; sd_g : Z; base_31_24 : Z }.

(** The fields have 16, 16, 8, 4, 1, 2, 1, 4, 1, 1, 1, 1 and 8 bits. *)
Definition bits (n x : Z) : Z := x `mod` 2 ^ n.
Definition SEG (type base lim dpl : Z) : segdesc :=
  mkSeg (Z.land (Z.shiftr lim 12) 0xffff) (Z.land (u32 base) 0xffff) (Z.land (Z.shiftr (u32 base) 16) 0xff)
    (bits 4 type) 1 (bits 2 dpl) 1 (bits 4 (Z.shiftr (u32 lim) 28)) 0 0 1 1 (bits 8 (Z.shiftr (u32 base) 24)).
Definition SEG16 (type base lim dpl : Z) : segdesc :=
  mkSeg (Z.land lim 0xffff) (Z.land (u32 base) 0xffff) (Z.land (Z.shiftr (u32 base) 16) 0xff)
    (bits 4 type) 1 (bits 2 dpl) 1 (bits 4 (Z.shiftr (u32 lim) 16)) 0 0 1 0 (bits 8 (Z.shiftr (u32 base) 24)).
Definition null_seg : segdesc := mkSeg 0 0 0 0 0 0 0 0 0 0 0 0 0.
Definition set_s (x : Z) (d : segdesc) : segdesc :=
  mkSeg (lim_15_0 d) (base_15_0 d) (base_23_16 d) (sd_type d) x (sd_dpl d) (sd_p d) (lim_19_16 d) (sd_avl d) (sd_rsv1 d) (sd_db d) (sd_g d) (base_31_24 d).
Definition set_type (x : Z) (d : segdesc) : segdesc :=
  mkSeg (lim_15_0 d) (base_15_0 d) (base_23_16 d) x (sd_s d) (sd_dpl d) (sd_p d) (lim_19_16 d) (sd_avl d) (sd_rsv1 d) (sd_db d) (sd_g d) (base_31_24 d).

(** [struct gatedesc] *)
Record gatedesc := mkGate {
  off_15_0 : Z; gd_cs : Z; gd_args : Z; gd_rsv1 : Z; gd_type : Z; gd_s : Z; gd_dpl : Z; gd_p : Z; off_31_16 : Z }.
Definition SETGATE (istrap : bool) (sel off d : Z) : gatedesc :=
  mkGate (Z.land (u32 off) 0xffff) (bits 16 sel) 0 0 (if istrap then STS_TG32 else STS_IG32) 0 (bits 2 d) 1 (bits 16 (Z.shiftr (u32 off) 16)).

(** The eight bytes of a descriptor as one number. *)
Definition pack (l : list (Z * Z)) : Z := foldr (λ f r, f.2 + 2 ^ f.1 * r) 0 l.
Definition seg_word (d : segdesc) : Z :=
  pack [(16, lim_15_0 d); (16, base_15_0 d); (8, base_23_16 d); (4, sd_type d); (1, sd_s d); (2, sd_dpl d); (1, sd_p d);
        (4, lim_19_16 d); (1, sd_avl d); (1, sd_rsv1 d); (1, sd_db d); (1, sd_g d); (8, base_31_24 d)].
Definition gate_word (g : gatedesc) : Z :=
  pack [(16, off_15_0 g); (16, gd_cs g); (5, gd_args g); (3, gd_rsv1 g); (4, gd_type g); (1, gd_s g); (2, gd_dpl g); (1, gd_p g); (16, off_31_16 g)].

(** ** The state of the CPUs *)

(** [struct taskstate]: the fields the kernel sets; the others stay as they are. *)
Record taskstate := mkTs { ts_esp0 : Z; ts_ss0 : Z; ts_iomb : Z }.

(** The table registers with limit and base, the task register, CR3. *)
Record regs := mkRegs { r_gdtr : Z * Z; r_idtr : Z * Z; r_tr : Z; r_cr3 : Z }.

(** [struct cpu], with the CPU's registers; the fields the locks use are those
    of Spinlock. *)
Record cpu_full := mkCf {
  cf_apicid : Z; cf_ts : taskstate; cf_gdt : list segdesc; cf_started : Z; cf_cli : cpu; cf_proc : option nat; cf_regs : regs }.

Definition set_ts t c := mkCf (cf_apicid c) t (cf_gdt c) (cf_started c) (cf_cli c) (cf_proc c) (cf_regs c).
Definition set_gdt g c := mkCf (cf_apicid c) (cf_ts c) g (cf_started c) (cf_cli c) (cf_proc c) (cf_regs c).
Definition set_started x c := mkCf (cf_apicid c) (cf_ts c) (cf_gdt c) x (cf_cli c) (cf_proc c) (cf_regs c).
Definition set_cli x c := mkCf (cf_apicid c) (cf_ts c) (cf_gdt c) (cf_started c) x (cf_proc c) (cf_regs c).
Definition set_regs r c := mkCf (cf_apicid c) (cf_ts c) (cf_gdt c) (cf_started c) (cf_cli c) (cf_proc c) r.

Record cpust (D : Type) := mkCs { cs_cpus : list cpu_full; cs_idt : list gatedesc; cs_kpgdir : Z; cs_kmem : kmem; cs_dev : D }.
Arguments mkCs {D}.
Arguments cs_cpus {D}.
Arguments cs_idt {D}.
Arguments cs_kpgdir {D}.
Arguments cs_kmem {D}.
Arguments cs_dev {D}.

Section code.
Context {D : Type} {P : PortIO D}.
(** Where the tables are; the CPU that runs the code. *)
Context (lapic idt_addr : Z) (gdt_addr ts_addr : nat → Z) (vectors : nat → Z) (self : nat).

Definition set_cpus (l : list cpu_full) (s : cpust D) : cpust D := mkCs l (cs_idt s) (cs_kpgdir s) (cs_kmem s) (cs_dev s).
Definition upd_cpu (i : nat) (f : cpu_full → cpu_full) : M (cpust D) unit := modify (λ s, set_cpus (alter f i (cs_cpus s)) s).
Definition no_cli : cpu := mkCpu 0 false false.
Definition my_cli (s : cpust D) : cpu := default no_cli (cf_cli <$> cs_cpus s !! self).

(** pushcli and popcli act on the running CPU. *)
Definition on_cli {A} (m : M sst A) : M (cpust D) A :=
  zoom (λ s, mkSst (my_cli s) initlock) (λ t s, set_cpus (alter (set_cli (this t)) self (cs_cpus s)) s) m.

(** [for(i = 0; i < ncpu; ++i)] *)
Fixpoint find_cpu (apicid : Z) (i : nat) (l : list cpu_full) : option nat :=
  match l with
  | [] => None
  | c :: l => if cf_apicid c =? apicid then Some i else find_cpu apicid (S i) l
  end.

Definition mycpu : M (cpust D) nat :=
  let! c := gets my_cli in
  if fl_if c then panic "mycpu called with interrupts enabled" else
  let! apicid := zoom cs_dev (λ d s, mkCs (cs_cpus s) (cs_idt s) (cs_kpgdir s) (cs_kmem s) d) (lapicid lapic) in
  let! s := get in
  match find_cpu apicid 0 (cs_cpus s) with
  | Some i => ret i
  | None => panic "unknown apicid"
  end.
Definition cpuid : M (cpust D) nat := mycpu.

Definition myproc : M (cpust D) (option nat) :=
  do! on_cli pushcli in
  let! c := mycpu in
  let! p := gets (λ s, cs_cpus s !! c ≫= cf_proc) in
  do! on_cli popcli in
  ret p.

(** The instructions of x86.h: the limit and base they load. *)
Definition upd_regs (f : regs → regs) : M (cpust D) unit := upd_cpu self (λ c, set_regs (f (cf_regs c)) c).
Definition pseudo (p size : Z) : Z * Z := (u16 (size - 1), u16 p + 2 ^ 16 * u16 (Z.shiftr p 16)).
Definition lgdt (p size : Z) : M (cpust D) unit := upd_regs (λ r, mkRegs (pseudo p size) (r_idtr r) (r_tr r) (r_cr3 r)).
Definition lidt (p size : Z) : M (cpust D) unit := upd_regs (λ r, mkRegs (r_gdtr r) (pseudo p size) (r_tr r) (r_cr3 r)).
Definition lcr3 (v : Z) : M (cpust D) unit := upd_regs (λ r, mkRegs (r_gdtr r) (r_idtr r) (r_tr r) (u32 v)).
(** Loading the task register marks the descriptor busy. *)
Definition ltr (sel : Z) : M (cpust D) unit :=
  do! upd_regs (λ r, mkRegs (r_gdtr r) (r_idtr r) (u16 sel) (r_cr3 r)) in
  upd_cpu self (λ c, set_gdt (alter (λ d, set_type (Z.lor (sd_type d) 2) d) (Z.to_nat (sel / 8)) (cf_gdt c)) c).

Definition set_seg (i : Z) (d : segdesc) (c : cpu_full) : cpu_full := set_gdt (<[Z.to_nat i := d]> (cf_gdt c)) c.
Definition seginit : M (cpust D) unit :=
  let! c := cpuid in
  do! upd_cpu c (set_seg SEG_KCODE (SEG (Z.lor STA_X STA_R) 0 0xffffffff 0)) in
  do! upd_cpu c (set_seg SEG_KDATA (SEG STA_W 0 0xffffffff 0)) in
  do! upd_cpu c (set_seg SEG_UCODE (SEG (Z.lor STA_X STA_R) 0 0xffffffff DPL_USER)) in
  do! upd_cpu c (set_seg SEG_UDATA (SEG STA_W 0 0xffffffff DPL_USER)) in
  lgdt (gdt_addr c) (8 * NSEGS).

Definition tvinit : M (cpust D) unit :=
  modify (λ s, mkCs (cs_cpus s)
    (<[T_SYSCALL := SETGATE true (Z.shiftl SEG_KCODE 3) (vectors T_SYSCALL) DPL_USER]>
       ((λ i, SETGATE false (Z.shiftl SEG_KCODE 3) (vectors i) 0) <$> seq 0 256)) (cs_kpgdir s) (cs_kmem s) (cs_dev s)).
Definition idtinit : M (cpust D) unit := lidt idt_addr (8 * 256).

Definition switchkvm : M (cpust D) unit :=
  let! s := get in
  lcr3 (V2P (cs_kpgdir s)).
Definition kvmalloc (kend kdata : Z) : M (cpust D) unit :=
  let! d := zoom cs_kmem (λ k s, mkCs (cs_cpus s) (cs_idt s) (cs_kpgdir s) k (cs_dev s)) (setupkvm kend kdata) in
  do! modify (λ s, mkCs (cs_cpus s) (cs_idt s) d (cs_kmem s) (cs_dev s)) in
  switchkvm.

(** The size of [struct taskstate] is 104.  mycpu() stands before every access;
    with interrupts off it gives the same CPU each time. *)
Definition switchuvm (p : option proc) : M (cpust D) unit :=
  match p with
  | None => panic "switchuvm: no process"
  | Some p =>
      if p_kstack p =? 0 then panic "switchuvm: no kstack" else
      if p_pgdir p =? 0 then panic "switchuvm: no pgdir" else
      do! on_cli pushcli in
      let! c := mycpu in
      do! upd_cpu c (set_seg SEG_TSS (SEG16 STS_T32A (ts_addr c) (104 - 1) 0)) in
      do! upd_cpu c (λ x, set_gdt (alter (set_s 0) (Z.to_nat SEG_TSS) (cf_gdt x)) x) in
      do! upd_cpu c (λ x, set_ts (mkTs (ts_esp0 (cf_ts x)) (Z.shiftl SEG_KDATA 3) (ts_iomb (cf_ts x))) x) in
      do! upd_cpu c (λ x, set_ts (mkTs (u32 (p_kstack p + KSTACKSIZE)) (ts_ss0 (cf_ts x)) (ts_iomb (cf_ts x))) x) in
      do! upd_cpu c (λ x, set_ts (mkTs (ts_esp0 (cf_ts x)) (ts_ss0 (cf_ts x)) 0xffff) x) in
      do! ltr (Z.shiftl SEG_TSS 3) in
      do! lcr3 (V2P (p_pgdir p)) in
      on_cli popcli
  end.
End code.

(** ** What the processor does with the tables *)

Definition field (w lo n : Z) : Z := (w / 2 ^ lo) `mod` 2 ^ n.

(** A segment descriptor. *)
Definition hw_base (w : Z) : Z := field w 16 24 + 2 ^ 24 * field w 56 8.
Definition hw_limit (w : Z) : Z :=
  let l := field w 0 16 + 2 ^ 16 * field w 48 4 in if field w 55 1 =? 1 then 4096 * l + 4095 else l.
Definition hw_type (w : Z) : Z := field w 40 4.
Definition hw_s (w : Z) : Z := field w 44 1.
Definition hw_dpl (w : Z) : Z := field w 45 2.
Definition hw_p (w : Z) : Z := field w 47 1.
(** A gate. *)
Definition hw_offset (w : Z) : Z := field w 0 16 + 2 ^ 16 * field w 48 16.
Definition hw_sel (w : Z) : Z := field w 16 16.

(** The entry into the kernel: instruction and stack pointer, selectors, and
    whether interrupts stay as they were. *)
Record entry := mkEntry { en_eip : Z; en_cs : Z; en_esp : Z; en_ss : Z; en_keeps_if : bool }.

Section hardware.
Context {D : Type} (idt_addr : Z) (gdt_addr ts_addr : nat → Z) (self : nat).

Definition gdt_entry (c : cpu_full) (sel : Z) : option Z :=
  if (snd (r_gdtr (cf_regs c)) =? gdt_addr self) && (8 * (sel / 8) + 7 <=? fst (r_gdtr (cf_regs c)))
  then seg_word <$> cf_gdt c !! Z.to_nat (sel / 8) else None.
Definition idt_entry (s : cpust D) (c : cpu_full) (n : nat) : option Z :=
  if (snd (r_idtr (cf_regs c)) =? idt_addr) && (8 * n + 7 <=? fst (r_idtr (cf_regs c))) then gate_word <$> cs_idt s !! n else None.
(** The stack for privilege level 0, from the task state. *)
Definition tss_stack (c : cpu_full) : option (Z * Z) :=
  match gdt_entry c (r_tr (cf_regs c)) with
  | Some w => if (hw_s w =? 0) && (hw_type w =? 11) && (hw_p w =? 1) && (hw_base w =? ts_addr self) && (103 <=? hw_limit w)
              then Some (ts_esp0 (cf_ts c), ts_ss0 (cf_ts c)) else None
  | None => None
  end.

(** Interrupt [n] in user mode, privilege level 3: by an [int] instruction, or by
    a device or a fault.  [None]: the kernel is not entered, the processor raises
    a protection fault. *)
Definition hw_int (s : cpust D) (n : nat) (software : bool) : option entry :=
  c ← cs_cpus s !! self;
  g ← idt_entry s c n;
  if negb (hw_p g =? 1) || negb ((hw_type g =? 14) || (hw_type g =? 15)) || negb (hw_s g =? 0) then None else
  if software && (hw_dpl g <? 3) then None else
  w ← gdt_entry c (hw_sel g);
  if negb (hw_p w =? 1) || negb (hw_s w =? 1) || negb (Z.testbit (hw_type w) 3) || negb (hw_dpl w =? 0) then None else
  st ← tss_stack c;
  Some (mkEntry (hw_base w + hw_offset g) (hw_sel g) (st.1) (st.2) (hw_type g =? 15)).
End hardware.

(** ** Descriptors as the processor reads them *)

Lemma field_here x n r : 0 ≤ n → 0 ≤ x < 2 ^ n → field (x + 2 ^ n * r) 0 n = x.
Proof.
  intros Hn Hx. unfold field. rewrite Z.div_1_r. rewrite (Z.mul_comm (2 ^ n)), Z.mod_add by lia. by apply Z.mod_small.
Qed.
Lemma field_skip x n r k m : 0 ≤ n → 0 ≤ k → 0 ≤ x < 2 ^ n → field (x + 2 ^ n * r) (n + k) m = field r k m.
Proof.
  intros Hn Hk Hx. unfold field. rewrite Z.pow_add_r, <- Z.div_div by lia. rewrite (Z.mul_comm (2 ^ n) r), Z.div_add, (Z.div_small x) by lia. done.
Qed.
Lemma field_two x n r m : 0 ≤ n → 0 ≤ m → 0 ≤ x < 2 ^ n → field (x + 2 ^ n * r) 0 (n + m) = x + 2 ^ n * field r 0 m.
Proof.
  intros Hn Hm Hx. unfold field. rewrite !Z.div_1_r, Z.pow_add_r by lia. rewrite Z.rem_mul_r by lia.
  rewrite (Z.mul_comm (2 ^ n) r), Z.mod_add, Z.div_add, (Z.mod_small x), (Z.div_small x) by lia. f_equal.
Qed.

(** Walk to a field of a packed word. *)
Ltac to_field := repeat first
  [ rewrite field_here by lia
  | match goal with |- context [field (?x + 2 ^ ?n * ?r) ?k ?m] =>
      let d := eval vm_compute in (k - n) in change (field (x + 2 ^ n * r) k m) with (field (x + 2 ^ n * r) (n + d) m);
      rewrite (field_skip x n r d m) by lia end ].

Lemma halves x : 0 ≤ x < 2 ^ 32 → Z.land (u32 x) 0xffff + 2 ^ 16 * bits 16 (Z.shiftr (u32 x) 16) = x.
Proof.
  intros Hx. rewrite u32_small by done. change 0xffff with (Z.ones 16). rewrite Z.land_ones, Z.shiftr_div_pow2 by lia. unfold bits.
  rewrite (Z.mod_small (x / 2 ^ 16)) by (split; [apply Z.div_pos|apply Z.div_lt_upper_bound]; lia). pose proof (Z.div_mod x (2 ^ 16)). lia.
Qed.

Lemma gate_decode istrap sel off d : is_u32 off → 0 ≤ sel < 2 ^ 16 → 0 ≤ d < 4 →
  let w := gate_word (SETGATE istrap sel off d) in
  hw_offset w = off ∧ hw_sel w = sel ∧ hw_p w = 1 ∧ hw_s w = 0 ∧ hw_dpl w = d ∧ hw_type w = if istrap then 15 else 14.
Proof.
  intros Ho Hs Hd. unfold gate_word, SETGATE, pack. cbn [foldr fst snd off_15_0 gd_cs gd_args gd_rsv1 gd_type gd_s gd_dpl gd_p off_31_16].
  pose proof (halves off Ho) as Hh. set (lo := Z.land (u32 off) 0xffff) in *. set (hi := bits 16 (Z.shiftr (u32 off) 16)) in *.
  assert (0 ≤ lo < 2 ^ 16) by (unfold lo; change 0xffff with (Z.ones 16); rewrite Z.land_ones by lia; apply Z.mod_pos_bound; lia).
  assert (0 ≤ hi < 2 ^ 16) by (apply Z.mod_pos_bound; lia).
  assert (bits 16 sel = sel) as -> by (by apply Z.mod_small). assert (bits 2 d = d) as -> by (by apply Z.mod_small).
  assert (0 ≤ (if istrap then STS_TG32 else STS_IG32) < 2 ^ 4) as Ht by (by destruct istrap). set (t := if istrap then STS_TG32 else STS_IG32) in *.
  unfold hw_offset, hw_sel, hw_p, hw_s, hw_dpl, hw_type. to_field. split; [exact Hh|]. repeat (split; [done|]). by destruct istrap.
Qed.

(** The task state descriptor after ltr. *)
Definition tss_desc (a : Z) : segdesc := let d := set_s 0 (SEG16 STS_T32A a (104 - 1) 0) in set_type (Z.lor (sd_type d) 2) d.
Lemma bytes3 x : is_u32 x → Z.land (u32 x) 0xffff + 2 ^ 16 * Z.land (Z.shiftr (u32 x) 16) 0xff + 2 ^ 24 * bits 8 (Z.shiftr (u32 x) 24) = x ∧
  0 ≤ Z.land (u32 x) 0xffff < 2 ^ 16 ∧ 0 ≤ Z.land (Z.shiftr (u32 x) 16) 0xff < 2 ^ 8.
Proof.
  intros Hx. rewrite u32_small by done. change 0xffff with (Z.ones 16). change 0xff with (Z.ones 8). rewrite !Z.land_ones, !Z.shiftr_div_pow2 by lia. unfold bits.
  unfold is_u32 in Hx. change (2 ^ 32) with 4294967296 in *. change (2 ^ 24) with 16777216. change (2 ^ 16) with 65536. change (2 ^ 8) with 256.
  split; [|split; apply Z.mod_pos_bound; lia]. Z.to_euclidean_division_equations; lia.
Qed.
Lemma tss_decode a : is_u32 a → let w := seg_word (tss_desc a) in
  hw_base w = a ∧ hw_limit w = 103 ∧ hw_s w = 0 ∧ hw_type w = 11 ∧ hw_p w = 1.
Proof.
  intros Ha. unfold seg_word, tss_desc, SEG16, set_s, set_type, pack. cbn [foldr fst snd lim_15_0 base_15_0 base_23_16 sd_type sd_s sd_dpl sd_p lim_19_16 sd_avl sd_rsv1 sd_db sd_g base_31_24].
  destruct (bytes3 a Ha) as (Hb & H1 & H2). set (b0 := Z.land (u32 a) 0xffff) in *. set (b2 := Z.land (Z.shiftr (u32 a) 16) 0xff) in *. set (b3 := bits 8 (Z.shiftr (u32 a) 24)) in *.
  assert (0 ≤ b3 < 2 ^ 8) as H3 by (apply Z.mod_pos_bound; lia).
  change (Z.land (104 - 1) 65535) with 103. change (Z.lor (bits 4 STS_T32A) 2) with 11. change (bits 2 0) with 0. change (bits 4 (Z.shiftr (u32 (104 - 1)) 16)) with 0.
  unfold hw_base, hw_limit, hw_s, hw_type, hw_p.
  match goal with |- context [field ?w 16 24] => assert (field w 16 24 = b0 + 2 ^ 16 * b2) as -> end.
  { rewrite (field_skip 103 16 _ 0 24) by lia. change 24 with (16 + 8). rewrite field_two by lia. by rewrite field_here by lia. }
  to_field. split; [lia|]. split; [reflexivity|done].
Qed.

(** ** Code on a CPU *)

Section running.
Context {D : Type} {P : PortIO D} (lapic idt_addr : Z) (gdt_addr ts_addr : nat → Z) (vectors : nat → Z) (self : nat).
Context {A : LocalApic D lapic} (Hlapic : lapic ≠ 0).
Implicit Types (s : cpust D) (c : cpu_full).

(** The code runs on CPU [self], whose controller has the number recorded for it,
    with interrupts off. *)
Record running s c : Prop := {
  ru_cpu : cs_cpus s !! self = Some c;
  ru_if : fl_if (cf_cli c) = false;
  ru_ids : NoDup (cf_apicid <$> cs_cpus s);
  ru_apic : ∃ a, la_rep (cs_dev s) a ∧ Z.shiftr (areg a ID) 24 = cf_apicid c ∧ 0 ≤ cf_apicid c < 256 }.

(** Nothing but this CPU changes. *)
Definition others s s' : Prop := cs_idt s' = cs_idt s ∧ cs_kpgdir s' = cs_kpgdir s ∧ cs_kmem s' = cs_kmem s ∧ ∀ j, j ≠ self → cs_cpus s' !! j = cs_cpus s !! j.
Lemma others_trans s s1 s2 : others s s1 → others s1 s2 → others s s2.
Proof. intros (E1 & E2 & E3 & E4) (F1 & F2 & F3 & F4). unfold others. rewrite F1, F2, F3. do 3 (split; [done|]). intros j Hj. by rewrite F4, E4. Qed.

Lemma find_cpu_spec l : ∀ i k c, NoDup (cf_apicid <$> l) → l !! k = Some c → find_cpu (cf_apicid c) i l = Some (i + k)%nat.
Proof.
  induction l as [|x l IH]; intros i k c Hn Hk; [done|]. cbn [fmap list_fmap] in Hn. apply list.NoDup_cons in Hn as [Hx Hn]. cbn [find_cpu]. destruct k as [|k].
  - injection Hk as ->. rewrite Z.eqb_refl. f_equal. lia.
  - cbn in Hk. destruct (Z.eqb_spec (cf_apicid x) (cf_apicid c)) as [E|_].
    + destruct Hx. rewrite E. apply list_elem_of_fmap_2. by eapply list_elem_of_lookup_2.
    + rewrite (IH (S i) k c Hn Hk). f_equal. lia.
Qed.

(** mycpu finds the CPU that runs. *)
Lemma mycpu_run s c a : cs_cpus s !! self = Some c → fl_if (cf_cli c) = false → NoDup (cf_apicid <$> cs_cpus s) →
  la_rep (cs_dev s) a → Z.shiftr (areg a ID) 24 = cf_apicid c → 0 ≤ cf_apicid c < 256 →
  ∃ d', mycpu lapic self s = Ok self (mkCs (cs_cpus s) (cs_idt s) (cs_kpgdir s) (cs_kmem s) d') ∧ la_rep d' a.
Proof.
  intros Hc Hi Hn Ha Hid Hr. unfold mycpu. rewrite bind_gets.
  assert (my_cli self s = cf_cli c) as -> by (unfold my_cli; by rewrite Hc). rewrite Hi.
  destruct (lapicr_spec lapic (cs_dev s) a ID Ha ltac:(done) ltac:(done)) as (d' & R & H').
  assert (lapicid lapic (cs_dev s) = Ok (cf_apicid c) d') as E.
  { unfold lapicid, truthy. rewrite (proj2 (Z.eqb_neq _ _) Hlapic). cbn [negb]. mstep R. unfold ret. rewrite Hid. rewrite s32_small by (unfold is_s32; lia). done. }
  erewrite bind_Ok; [|unfold zoom; rewrite E; reflexivity]. erewrite (bind_Ok get) by reflexivity. cbn [cs_cpus].
  rewrite (find_cpu_spec _ 0 self c Hn Hc). by exists d'.
Qed.
Lemma mycpu_spec s c : running s c → ∃ s', mycpu lapic self s = Ok self s' ∧ running s' c ∧ others s s'.
Proof.
  intros [Hc Hi Hn (a & Ha & Hid & Hr)]. destruct (mycpu_run s c a Hc Hi Hn Ha Hid Hr) as (d' & R & H'). eexists. split; [exact R|]. split; [|done].
  split; [done|done|done|]. by exists a.
Qed.

Lemma alter_ids (l : list cpu_full) c f : l !! self = Some c → cf_apicid (f c) = cf_apicid c → cf_apicid <$> alter f self l = cf_apicid <$> l.
Proof.
  intros Hc Hid. apply list_eq. intros j. rewrite !list_lookup_fmap. destruct (decide (j = self)) as [->|Hne].
  - rewrite list_lookup_alter_eq, Hc. cbn. by rewrite Hid.
  - by rewrite list_lookup_alter_ne.
Qed.
(** A change of this CPU that keeps its number and its interrupts off. *)
Lemma upd_run s c f : running s c → cf_apicid (f c) = cf_apicid c → fl_if (cf_cli (f c)) = false →
  ∃ s', upd_cpu self f s = Ok tt s' ∧ running s' (f c) ∧ others s s'.
Proof.
  intros [Hc Hi Hn Ha] Hid Hif. eexists. split; [reflexivity|]. split.
  - split; cbn [set_cpus cs_cpus cs_dev]; [by rewrite list_lookup_alter_eq, Hc|done|by rewrite (alter_ids _ c)|by rewrite Hid].
  - do 3 (split; [done|]). intros j Hj. cbn [set_cpus cs_cpus]. by rewrite list_lookup_alter_ne.
Qed.

Lemma cli_run s c (m : M sst unit) x : running s c → m (mkSst (cf_cli c) initlock) = Ok tt (mkSst x initlock) → fl_if x = false →
  ∃ s', on_cli self m s = Ok tt s' ∧ running s' (set_cli x c) ∧ others s s'.
Proof.
  intros Hr Hm Hx. destruct (upd_run s c (set_cli x) Hr eq_refl Hx) as (s' & R & H' & Ho). exists s'. split; [|done].
  unfold on_cli, zoom. assert (my_cli self s = cf_cli c) as -> by (unfold my_cli; by rewrite (ru_cpu _ _ Hr)). rewrite Hm. exact R.
Qed.

(** pushcli and popcli around code with interrupts off. *)
Definition pushed (x : cpu) : cpu := mkCpu (ncli x + 1) (if ncli x =? 0 then false else intena x) false.
Definition popped (x : cpu) : cpu := mkCpu (ncli x - 1) (intena x) false.
Lemma push_run s c : running s c → ∃ s', on_cli self pushcli s = Ok tt s' ∧ running s' (set_cli (pushed (cf_cli c)) c) ∧ others s s'.
Proof.
  intros Hr. apply cli_run; [done| |done]. pose proof (ru_if _ _ Hr) as Hi. destruct (cf_cli c) as [n i f]. cbn in Hi. subst f. unfold pushcli, pushed. cbn.
  destruct (n =? 0); reflexivity.
Qed.
Lemma pop_run s c : running s c → 0 < ncli (cf_cli c) → (ncli (cf_cli c) = 1 → intena (cf_cli c) = false) →
  ∃ s', on_cli self popcli s = Ok tt s' ∧ running s' (set_cli (popped (cf_cli c)) c) ∧ others s s'.
Proof.
  intros Hr Hn H1. apply cli_run; [done| |done]. pose proof (ru_if _ _ Hr) as Hi. destruct (cf_cli c) as [n i f]. cbn in Hi, Hn, H1. subst f. unfold popcli, popped, readeflags_if.
  rewrite bind_gets. cbn [fl_if this]. rewrite bind_modify. erewrite (bind_Ok get) by reflexivity. cbn [this set_this ncli intena].
  rewrite (proj2 (Z.ltb_ge _ _)) by lia. destruct (Z.eqb_spec (n - 1) 0); [|reflexivity]. rewrite H1 by lia. reflexivity.
Qed.

(** myproc gives the process of this CPU, and the interrupt nesting back. *)
Lemma myproc_spec s c : running s c → 0 ≤ ncli (cf_cli c) → ∃ s', myproc lapic self s = Ok (cf_proc c) s' ∧
  running s' (set_cli (popped (pushed (cf_cli c))) c) ∧ others s s'.
Proof.
  intros Hr Hn. unfold myproc. destruct (push_run s c Hr) as (s1 & R1 & H1 & O1). mstep R1. destruct (mycpu_spec s1 _ H1) as (s2 & R2 & H2 & O2). mstep R2.
  rewrite bind_gets, (ru_cpu _ _ H2). cbn [mbind option_bind]. destruct (pop_run s2 _ H2) as (s3 & R3 & H3 & O3); [cbn; lia| |].
  { cbn. destruct (Z.eqb_spec (ncli (cf_cli c)) 0); [done|]. lia. }
  mstep R3. exists s3. split; [done|]. split; [exact H3|]. eapply others_trans; [exact O1|]. eapply others_trans; [exact O2|exact O3].
Qed.

(** The CPU after seginit and after switchuvm. *)
Definition with_segs c : cpu_full :=
  let c := set_seg SEG_UDATA (SEG STA_W 0 0xffffffff DPL_USER) (set_seg SEG_UCODE (SEG (Z.lor STA_X STA_R) 0 0xffffffff DPL_USER)
    (set_seg SEG_KDATA (SEG STA_W 0 0xffffffff 0) (set_seg SEG_KCODE (SEG (Z.lor STA_X STA_R) 0 0xffffffff 0) c))) in
  let r := cf_regs c in set_regs (mkRegs (pseudo (gdt_addr self) (8 * NSEGS)) (r_idtr r) (r_tr r) (r_cr3 r)) c.
Definition with_idt c : cpu_full := let r := cf_regs c in set_regs (mkRegs (r_gdtr r) (pseudo idt_addr (8 * 256)) (r_tr r) (r_cr3 r)) c.
Definition with_task (p : proc) c : cpu_full :=
  mkCf (cf_apicid c) (mkTs (u32 (p_kstack p + KSTACKSIZE)) (Z.shiftl SEG_KDATA 3) 0xffff) (<[5%nat := tss_desc (ts_addr self)]> (cf_gdt c)) (cf_started c)
    (popped (pushed (cf_cli c))) (cf_proc c) (mkRegs (r_gdtr (cf_regs c)) (r_idtr (cf_regs c)) (Z.shiftl SEG_TSS 3) (u32 (V2P (p_pgdir p)))).

Ltac upd := match goal with H : running ?s0 ?c0 |- context [upd_cpu self ?f] =>
  destruct (upd_run s0 c0 f H eq_refl (ru_if _ _ H)) as (?s1 & ?R & ?H1 & ?O); mstep R; clear R H end.

Lemma seginit_spec s c : running s c → ∃ s', seginit lapic gdt_addr self s = Ok tt s' ∧ running s' (with_segs c) ∧ others s s'.
Proof.
  intros Hr. unfold seginit, cpuid. destruct (mycpu_spec s c Hr) as (s1 & R1 & H1 & O1). mstep R1. clear Hr. do 4 upd. unfold lgdt, upd_regs.
  match goal with H : running ?s0 ?c0 |- context [upd_cpu self ?f] => destruct (upd_run s0 c0 f H eq_refl (ru_if _ _ H)) as (s6 & R & H6 & O6); rewrite R end.
  exists s6. split; [done|]. split; [exact H6|]. repeat first [assumption | eapply others_trans; [eassumption|]].
Qed.

(** The descriptor written by switchuvm and marked by ltr. *)
Lemma tss_entry (g : list segdesc) : (5 < length g)%nat →
  alter (λ d, set_type (Z.lor (sd_type d) 2) d) (Z.to_nat (Z.shiftl SEG_TSS 3 / 8)) (alter (set_s 0) (Z.to_nat SEG_TSS)
    (<[Z.to_nat SEG_TSS := SEG16 STS_T32A (ts_addr self) (104 - 1) 0]> g)) = <[5%nat := tss_desc (ts_addr self)]> g.
Proof.
  intros Hg. change (Z.to_nat SEG_TSS) with 5%nat. change (Z.to_nat (Z.shiftl SEG_TSS 3 / 8)) with 5%nat.
  apply list_eq. intros j. destruct (decide (j = 5%nat)) as [->|Hne].
  - rewrite !list_lookup_alter_eq, !list_lookup_insert_eq by done. reflexivity.
  - rewrite !list_lookup_alter_ne, !list_lookup_insert_ne by done. done.
Qed.
Lemma switchuvm_spec s c p : running s c → p_kstack p ≠ 0 → p_pgdir p ≠ 0 → 0 ≤ ncli (cf_cli c) → (5 < length (cf_gdt c))%nat →
  ∃ s', switchuvm lapic ts_addr self (Some p) s = Ok tt s' ∧ running s' (with_task p c) ∧ others s s'.
Proof.
  intros Hr Hk%Z.eqb_neq Hd%Z.eqb_neq Hn Hg. unfold switchuvm. rewrite Hk, Hd. destruct (push_run s c Hr) as (s1 & R1 & H1 & O1). mstep R1. clear Hr.
  destruct (mycpu_spec s1 _ H1) as (s2 & R2 & H2 & O2). mstep R2. clear H1. do 5 upd. unfold ltr, lcr3, upd_regs. rewrite bind_assoc. do 3 upd.
  match goal with H : running ?s0 ?c0 |- _ => destruct (pop_run s0 c0 H) as (se & Re & He & Oe); [change (0 < ncli (cf_cli c) + 1); lia| |] end.
  { change (ncli (cf_cli c) + 1 = 1 → (if ncli (cf_cli c) =? 0 then false else intena (cf_cli c)) = false). destruct (Z.eqb_spec (ncli (cf_cli c)) 0); [done|]. lia. }
  exists se. split; [exact Re|]. split.
  - match goal with H : running se ?x |- _ => replace (with_task p c) with x; [exact H|] end.
    unfold with_task. rewrite <- (tss_entry (cf_gdt c) Hg). reflexivity.
  - repeat first [assumption | eapply others_trans; [eassumption|]].
Qed.

Lemma pseudo_spec a size : is_u32 a → 1 ≤ size ≤ 2 ^ 16 → pseudo a size = (size - 1, a).
Proof.
  intros Ha Hs. unfold pseudo. f_equal; [apply Z.mod_small; lia|]. unfold u16. rewrite Z.shiftr_div_pow2 by lia. unfold is_u32 in Ha.
  rewrite (Z.mod_small (a / 2 ^ 16)) by (split; [apply Z.div_pos|apply Z.div_lt_upper_bound]; lia). pose proof (Z.div_mod a (2 ^ 16)). lia.
Qed.

(** The vector table. *)
Definition idt_table : list gatedesc :=
  <[T_SYSCALL := SETGATE true (Z.shiftl SEG_KCODE 3) (vectors T_SYSCALL) DPL_USER]>
    ((λ i, SETGATE false (Z.shiftl SEG_KCODE 3) (vectors i) 0) <$> seq 0 256).
Lemma idt_table_lookup n : (n < 256)%nat → idt_table !! n = Some (SETGATE (n =? 64)%nat 8 (vectors n) (if (n =? 64)%nat then 3 else 0)).
Proof.
  intros Hn. unfold idt_table. destruct (Nat.eqb_spec n 64) as [->|Hne].
  - by rewrite list_lookup_insert_eq by (by rewrite length_fmap, length_seq).
  - rewrite list_lookup_insert_ne by done. rewrite list_lookup_fmap, lookup_seq_lt by done. done.
Qed.

(** The tables as set up on this CPU for process [p]. *)
Definition set_up (p : proc) c : cpu_full := with_task p (with_idt (with_segs c)).

Lemma gdt_kcode p c : length (cf_gdt c) = NSEGS → is_u32 (gdt_addr self) →
  gdt_entry gdt_addr self (set_up p c) 8 = Some (seg_word (SEG (Z.lor STA_X STA_R) 0 0xffffffff 0)).
Proof.
  intros Hl Hg. unfold gdt_entry, set_up. cbn -[pseudo seg_word SEG tss_desc Z.div]. rewrite pseudo_spec by (done || (cbn; lia)). cbn [fst snd].
  rewrite Z.eqb_refl. change (8 * (8 / 8) + 7 <=? 8 * 6 - 1) with true. cbn [andb]. change (Z.to_nat (8 / 8)) with 1%nat.
  rewrite !list_lookup_insert_ne by done. rewrite list_lookup_insert_eq; [done|]. rewrite Hl. unfold NSEGS, SEG_KCODE. lia.
Qed.
Lemma gdt_tss p c : length (cf_gdt c) = NSEGS → is_u32 (gdt_addr self) → is_u32 (ts_addr self) →
  tss_stack gdt_addr ts_addr self (set_up p c) = Some (u32 (p_kstack p + KSTACKSIZE), 16).
Proof.
  intros Hl Hg Ht. unfold tss_stack. change (r_tr (cf_regs (set_up p c))) with 40.
  assert (gdt_entry gdt_addr self (set_up p c) 40 = Some (seg_word (tss_desc (ts_addr self)))) as ->.
  { unfold gdt_entry, set_up. cbn -[pseudo seg_word SEG tss_desc Z.div]. rewrite pseudo_spec by (done || (cbn; lia)). cbn [fst snd].
    rewrite Z.eqb_refl. change (8 * (40 / 8) + 7 <=? 8 * 6 - 1) with true. cbn [andb]. change (Z.to_nat (40 / 8)) with 5%nat.
    rewrite list_lookup_insert_eq by (rewrite !length_insert, Hl; unfold NSEGS; lia). done. }
  destruct (tss_decode (ts_addr self) Ht) as (-> & -> & -> & -> & ->). rewrite !Z.eqb_refl. reflexivity.
Qed.

Lemma entry_spec s p c n soft : cs_cpus s !! self = Some (set_up p c) → cs_idt s = idt_table → (n < 256)%nat → length (cf_gdt c) = NSEGS →
  is_u32 (gdt_addr self) → is_u32 (ts_addr self) → is_u32 idt_addr → is_u32 (vectors n) →
  hw_int idt_addr gdt_addr ts_addr self s n soft =
    if soft && negb (n =? 64)%nat then None else Some (mkEntry (vectors n) 8 (u32 (p_kstack p + KSTACKSIZE)) 16 (n =? 64)%nat).
Proof.
  intros Hc Hi Hn Hl Hg Ht Hidt Hv. unfold hw_int. rewrite Hc. cbn [mbind option_bind].
  assert (idt_entry idt_addr s (set_up p c) n = Some (gate_word (SETGATE (n =? 64)%nat 8 (vectors n) (if (n =? 64)%nat then 3 else 0)))) as ->.
  { unfold idt_entry, set_up. cbn -[pseudo gate_word SETGATE]. rewrite pseudo_spec by (done || lia). cbn [fst snd]. rewrite Z.eqb_refl.
    rewrite (proj2 (Z.leb_le _ _)) by lia. cbn [andb]. by rewrite Hi, idt_table_lookup. }
  cbn [mbind option_bind].
  destruct (gate_decode (n =? 64)%nat 8 (vectors n) (if (n =? 64)%nat then 3 else 0) Hv ltac:(lia) ltac:(destruct (n =? 64)%nat; lia)) as (-> & -> & -> & -> & -> & ->).
  rewrite (gdt_kcode p c Hl Hg), (gdt_tss p c Hl Hg Ht). cbn [mbind option_bind]. destruct (n =? 64)%nat, soft; reflexivity.
Qed.

(** C14: Entering the kernel.  Once the tables of a CPU are set up (seginit, tvinit,
    idtinit) and process [p] is switched to (switchuvm), a user program can enter
    the kernel by an [int] instruction only for a system call: every other vector
    faults.  That call, and every interrupt or fault, continues at the address of
    its vector in the kernel's code segment, on the top of the kernel stack of
    [p]; only a system call keeps interrupts as they were. *)
Theorem kernel_entry s c p : running s c → 0 ≤ ncli (cf_cli c) → length (cf_gdt c) = NSEGS → p_kstack p ≠ 0 → p_pgdir p ≠ 0 →
  is_u32 (gdt_addr self) → is_u32 (ts_addr self) → is_u32 idt_addr → (∀ n, is_u32 (vectors n)) →
  ∃ s', (do! seginit lapic gdt_addr self in do! tvinit vectors in do! idtinit idt_addr self in switchuvm lapic ts_addr self (Some p)) s = Ok tt s' ∧
  (r_cr3 ∘ cf_regs <$> cs_cpus s' !! self) = Some (V2P (p_pgdir p)) ∧
  ∀ n soft, (n < 256)%nat → hw_int idt_addr gdt_addr ts_addr self s' n soft =
    if soft && negb (n =? 64)%nat then None else Some (mkEntry (vectors n) 8 (u32 (p_kstack p + KSTACKSIZE)) 16 (n =? 64)%nat).
Proof.
  intros Hr Hn Hl Hk Hd Hg Ht Hi Hv. destruct (seginit_spec s c Hr) as (s1 & R1 & H1 & O1). mstep R1. unfold tvinit. rewrite bind_modify. fold idt_table.
  set (s2 := mkCs _ idt_table _ _ _). assert (running s2 (with_segs c)) as H2 by (destruct H1; by split).
  unfold idtinit, lidt, upd_regs. upd. match goal with H : running ?s3 _ |- _ => rename s3 into s3'; change (running s3' (with_idt (with_segs c))) in H; rename H into H3 end.
  destruct (switchuvm_spec s3' _ p H3 Hk Hd Hn) as (s4 & R4 & H4 & O4).
  { cbn. rewrite !length_insert, Hl. unfold NSEGS. lia. }
  exists s4. split; [exact R4|]. assert (cs_idt s4 = idt_table) as Ei.
  { destruct O4 as (-> & _). match goal with O : others s2 s3' |- _ => by destruct O as (-> & _) end. }
  split; [|intros n soft Hlt; exact (entry_spec s4 p c n soft (ru_cpu _ _ H4) Ei Hlt Hl Hg Ht Hi (Hv n))].
  rewrite (ru_cpu _ _ H4). cbn -[u32 V2P]. f_equal. apply u32_small. apply u32_range.
Qed.
End running.

(** The second of two CPUs. *)
Definition demo_cpu (id : Z) : cpu_full :=
  mkCf id (mkTs 0 0 0) (replicate 6 null_seg) 0 (mkCpu 0 false false) None (mkRegs (0, 0) (0, 0) 0 0).
Definition demo_apic : apic := mkApic {[ID := Z.shiftl 7 24]} [] 0 0 0 ∅.
Definition demo_cpus : cpust apic := mkCs [demo_cpu 3; demo_cpu 7] [] 0 (mkKmem (λ _, 0) 0 0 0) demo_apic.
Definition demo_proc : proc :=
  mkProc 4096 0x80400000 0x80500000 RUNNING 1 None (mkTf 0 0 0 0 0 0 0 0 0 0 0 0 0 0 0 0 0 0 0) (mkCtx 0 0 0 0 0) 0 None 0 [] None [].
Definition demo_vectors (n : nat) : Z := 0x80106000 + 8 * Z.of_nat (n `mod` 256)%nat.

Lemma kernel_entry_witness : let P := apic_port 0xfee00000 in ∃ s',
  (do! seginit 0xfee00000 (λ i, 0x80112000 + Z.of_nat i `mod` 8 * 176) 1 in do! tvinit demo_vectors in do! idtinit 0x80115000 1 in
   switchuvm 0xfee00000 (λ i, 0x80112800 + Z.of_nat i `mod` 8 * 176) 1 (Some demo_proc)) demo_cpus = Ok tt s' ∧
  hw_int 0x80115000 (λ i, 0x80112000 + Z.of_nat i `mod` 8 * 176) (λ i, 0x80112800 + Z.of_nat i `mod` 8 * 176) 1 s' 64 true =
    Some (mkEntry 0x80106200 8 0x80501000 16 true) ∧
  hw_int 0x80115000 (λ i, 0x80112000 + Z.of_nat i `mod` 8 * 176) (λ i, 0x80112800 + Z.of_nat i `mod` 8 * 176) 1 s' 13 true = None.
Proof.
  intros P. destruct (@kernel_entry apic P 0xfee00000 0x80115000 (λ i, 0x80112000 + Z.of_nat i `mod` 8 * 176) (λ i, 0x80112800 + Z.of_nat i `mod` 8 * 176)
    demo_vectors 1 (apic_apic 0xfee00000) ltac:(done) demo_cpus (demo_cpu 7) demo_proc) as (s' & R & _ & E).
  - split; [reflexivity|reflexivity| |].
    + apply (bool_decide_unpack _). vm_compute. reflexivity.
    + exists demo_apic. split; [reflexivity|]. split; [vm_compute; reflexivity|cbn; lia].
  - cbn. lia.
  - reflexivity.
  - done.
  - done.
  - vm_compute. done.
  - vm_compute. done.
  - vm_compute. done.
  - intros n. unfold demo_vectors, is_u32. pose proof (Nat.mod_upper_bound n 256 ltac:(done)). lia.
  - exists s'. split; [exact R|]. split; [rewrite (E 64%nat true) by lia|rewrite (E 13%nat true) by lia]; reflexivity.
Defined.
