(* ===== verification/Main.v ===== *)
(** * Starting the CPUs: main.c

    [boot_memory] is the start of [main], up to the kernel's page table.
    startothers gives every other CPU its stack and start address in the page
    the start-up code is in, starts it through the local APIC and waits until it
    says that it runs; mpenter and mpmain are what such a CPU does.  What the
    other CPUs do while the boot CPU waits is an argument [tick].  The rest of
    the initialization calls in [main] and the message of mpmain are not
    modelled.  [entrypgdir] is the page table both kinds of CPU start on. *)
From S2P Require Import Prelude Str Spinlock Kalloc Vm VmSpace Proc Port Lapic Cpu.

(** ** The first page table *)

Definition PTE_PS : Z := 0x80.
Definition PDXSHIFT : Z := 22.
Definition big_entry : Z := Z.lor (Z.lor (Z.lor 0 PTE_P) PTE_W) PTE_PS.
Definition entrypgdir_table : list Z := <[Z.to_nat (Z.shiftr KERNBASE PDXSHIFT) := big_entry]> (<[0%nat := big_entry]> (replicate NPDENTRIES 0)).

(** Translation with pages of 4 MB. *)
Definition big_translate (pgdir : list Z) (va : Z) : option Z :=
  let e := nth (Z.to_nat (PDX va)) pgdir 0 in
  if truthy (Z.land e PTE_P) && truthy (Z.land e PTE_PS) then Some (Z.land e 0xffc00000 + va `mod` 2 ^ PDXSHIFT) else None.

Section code.
Context {D : Type} {P : PortIO D}.
Context (lapic idt_addr : Z) (gdt_addr : nat → Z) (self : nat).
(** The start-up code (entryother.S) and its size, the addresses of mpenter and
    of entrypgdir; what the other CPUs do meanwhile. *)
Context (entryother size mpenter_addr entrypgdir : Z) (tick : nat → M (cpust D) unit).

Definition on_kmem {B} (m : M kmem B) : M (cpust D) B :=
  zoom cs_kmem (λ k s, mkCs (cs_cpus s) (cs_idt s) (cs_kpgdir s) k (cs_dev s)) m.
Definition on_lapic {B} (m : M (lapst D) B) : M (cpust D) B :=
  zoom (λ s, mkLap (km_mem (cs_kmem s)) (cs_dev s)) (λ t s, mkCs (cs_cpus s) (cs_idt s) (cs_kpgdir s) (set_mem (lp_mem t) (cs_kmem s)) (lp_dev t)) m.

Definition code : Z := P2V 0x7000.

(** [while(c->started == 0)] *)
Fixpoint wait_started (i fuel : nat) : M (cpust D) unit :=
  match fuel with
  | O => λ _, Fuel
  | S fuel =>
      let! x := gets (λ s, default 0 (cf_started <$> cs_cpus s !! i)) in
      if x =? 0 then do! tick i in wait_started i fuel else ret tt
  end.

(** The body of the loop over the CPUs. *)
Definition start_one (fuel i : nat) : M (cpust D) unit :=
  let! me := mycpu lapic self in
  if (i =? me)%nat then ret tt else
  let! stack := on_kmem kalloc in
  do! on_kmem (store32 (code - 4) (u32 (stack + KSTACKSIZE))) in
  do! on_kmem (store32 (code - 8) mpenter_addr) in
  do! on_kmem (store32 (code - 12) (V2P entrypgdir)) in
  let! s := get in
  do! on_lapic (lapicstartap lapic (default 0 (cf_apicid <$> cs_cpus s !! i)) (V2P code)) in
  wait_started i fuel.

Definition startothers (fuel : nat) : M (cpust D) unit :=
  do! on_kmem (on_mem (λ m, memmove m code entryother size)) in
  let! s := get in
  for_each (seq 0 (length (cs_cpus s))) (start_one fuel).

(** The first two calls of main: the allocator gets the memory up to 4 MB, then
    the kernel builds its page table from it and switches to it. *)
Definition boot_memory (kend kdata : Z) : M (cpust D) unit :=
  do! on_kmem (kinit1 kend kend (P2V (4 * 1024 * 1024))) in
  kvmalloc self kend kdata.

(** Up to the call of scheduler(). *)
Definition mpmain : M (cpust D) unit :=
  do! idtinit idt_addr self in
  let! c := mycpu lapic self in
  upd_cpu c (set_started 1).
Definition mpenter (fuel : nat) : M (cpust D) unit :=
  do! switchkvm self in
  do! seginit lapic gdt_addr self in
  do! zoom cs_dev (λ d s, mkCs (cs_cpus s) (cs_idt s) (cs_kpgdir s) (cs_kmem s) d) (lapicinit lapic fuel) in
  mpmain.
End code.

(** ** The theorems *)

(** While the CPU starts, the low 4 MB of memory are at their physical address
    and at the kernel's. *)
Lemma entrypgdir_maps va : 0 ≤ va < 2 ^ 22 →
  big_translate entrypgdir_table va = Some va ∧ big_translate entrypgdir_table (KERNBASE + va) = Some va.
Proof.
  intros Hva. unfold big_translate, PDX, PDXSHIFT. rewrite !Z.shiftr_div_pow2 by lia.
  replace (va / 2 ^ 22) with 0 by (symmetry; apply Z.div_small; lia).
  replace ((KERNBASE + va) / 2 ^ 22) with 512 by (apply (Z.div_unique_pos _ _ _ va); unfold KERNBASE; lia).
  rewrite (Z.mod_small va) by lia. replace ((KERNBASE + va) `mod` 2 ^ 22) with va by (apply (Z.mod_unique_pos _ _ 512); unfold KERNBASE; lia).
  change (nth (Z.to_nat (Z.land 0 1023)) entrypgdir_table 0) with big_entry. change (nth (Z.to_nat (Z.land 512 1023)) entrypgdir_table 0) with big_entry.
  split; reflexivity.
Qed.

(** The kernel's page table is complete, and the processor uses it: 65 pages are
    enough, and every other page below 4 MB is free for what comes next. *)
Section boot.
Context {D : Type} (self : nat) (kend kdata : Z).
Hypothesis Hkend : KERNBASE < kend ∧ kend + 66 * PGSIZE ≤ KERNBASE + 0x400000.
Hypothesis Hdata : kdata `mod` PGSIZE = 0 ∧ KERNLINK < kdata < KERNBASE + PHYSTOP.

Lemma boot_memory_spec (s : cpust D) c : cs_cpus s !! self = Some c → km_freelist (cs_kmem s) = 0 →
  ∃ s' l0 l tabs, boot_memory self kend kdata s = Ok tt s' ∧ (∀ v, v ∈ l0 ↔ v `mod` PGSIZE = 0 ∧ kend ≤ v ∧ v + PGSIZE ≤ KERNBASE + 0x400000) ∧
  space kend (cs_kmem s') l (cs_kpgdir s') tabs ∅ (klook (kmap kdata)) ∧ l ++ ptpages (cs_kpgdir s') tabs ≡ₚ l0 ∧
  (length l0 ≤ length l + 65)%nat ∧ (r_cr3 ∘ cf_regs <$> cs_cpus s' !! self) = Some (V2P (cs_kpgdir s')).
Proof.
  intros Hc Hfl. destruct Hkend as [Hk1 Hk2]. unfold boot_memory. change (P2V (4 * 1024 * 1024)) with (KERNBASE + 0x400000).
  destruct (kinit1_frees_range kend kend (KERNBASE + 0x400000) (cs_kmem s)) as (k1 & l0 & R1 & _ & F1 & Hl0);
    [unfold KERNBASE, PHYSTOP, PGSIZE in *; lia..|done|].
  erewrite bind_Ok by (unfold on_kmem, zoom; rewrite R1; reflexivity). unfold kvmalloc. cbn [cs_cpus cs_idt cs_kpgdir cs_kmem cs_dev].
  assert (65 ≤ length l0)%nat as Hlen.
  { destruct (PGROUNDUP_spec kend) as [H1 H2]; [unfold KERNBASE in *; lia|unfold KERNBASE, PGSIZE in *; lia|].
    transitivity (length ((λ k, PGROUNDUP kend + 4096 * k) <$> seqZ 0 65)); [by rewrite length_fmap, length_seqZ|]. apply submseteq_length, NoDup_submseteq.
    - apply NoDup_fmap_2; [|apply NoDup_seqZ]. intros x y. lia.
    - intros v (k & -> & Hk)%list_elem_of_fmap. apply elem_of_seqZ in Hk. apply Hl0. unfold PGSIZE in *. split; [|lia]. Z.to_euclidean_division_equations. lia. }
  destruct (setupkvm_spec kend Hk1 kdata Hdata k1 l0 F1) as (d & k2 & l & R2 & [(_ & _ & _ & H)|(Hnz & tabs & S2 & V2 & Hds)]); [lia|].
  erewrite bind_Ok by (unfold zoom; cbn [cs_kmem]; rewrite R2; reflexivity). rewrite bind_modify. unfold switchkvm. erewrite (bind_Ok get) by reflexivity.
  eexists _, l0, l, tabs. split; [reflexivity|]. cbn [cs_cpus cs_idt cs_kpgdir cs_kmem cs_dev set_cpus]. split; [done|]. split; [exact S2|]. split; [apply V2|]. split.
  - pose proof (tabs_in tabs kdirs Hds) as Ht. change (length kdirs) with 64%nat in Ht. rewrite <- (Permutation_length (proj1 V2)), length_app. cbn [ptpages length]. lia.
  - rewrite list_lookup_alter_eq, Hc. cbn -[u32 V2P]. f_equal. apply u32_small, u32_range.
Qed.
End boot.

(** A CPU that enters by mpenter ends with its controller programmed, the kernel's
    page table, its segments and the interrupt table loaded, and reports. *)
Section enter.
Context {D : Type} {P : PortIO D} (lapic idt_addr : Z) (gdt_addr : nat → Z) (self : nat) {A : LocalApic D lapic} (Hlapic : lapic ≠ 0).

Definition entered (k : Z) (c : cpu_full) : cpu_full :=
  let r := cf_regs c in
  set_started 1 (with_idt idt_addr (with_segs gdt_addr self (set_regs (mkRegs (r_gdtr r) (r_idtr r) (r_tr r) (u32 (V2P k))) c))).

Lemma mpenter_spec (s : cpust D) c fuel : running lapic self s c → (∀ d a, la_rep d a → (ap_latency a < fuel)%nat) →
  ∃ s' a', mpenter lapic idt_addr gdt_addr self fuel s = Ok tt s' ∧ cs_cpus s' !! self = Some (entered (cs_kpgdir s) c) ∧ others self s s' ∧
  la_rep (cs_dev s') a' ∧ configured a'.
Proof.
  intros Hr Hf. unfold mpenter, switchkvm, lcr3, upd_regs. rewrite bind_assoc. erewrite (bind_Ok get) by reflexivity.
  match goal with |- context [upd_cpu self ?f] => destruct (upd_run lapic self s c f Hr eq_refl (ru_if _ _ _ _ Hr)) as (s1 & R1 & H1 & O1) end. mstep R1.
  destruct (seginit_spec lapic gdt_addr self Hlapic s1 _ H1) as (s2 & R2 & H2 & O2). mstep R2.
  destruct H2 as [Hc2 Hi2 Hn2 (a & Ha & Hid & Hrng)]. set (c2 := with_segs _ _ _) in *.
  destruct (lapicinit_spec lapic Hlapic (cs_dev s2) a fuel Ha (Hf _ _ Ha)) as (d3 & a3 & R3 & Ha3 & Hcf & _ & _ & Hid3 & _).
  erewrite bind_Ok by (unfold zoom; rewrite R3; reflexivity). unfold mpmain, idtinit, lidt, upd_regs. erewrite bind_Ok by reflexivity.
  set (s4 := set_cpus _ _).
  assert (cs_cpus s4 !! self = Some (with_idt idt_addr c2)) as Hc4 by (unfold s4; cbn [set_cpus cs_cpus]; by rewrite list_lookup_alter_eq, Hc2).
  destruct (mycpu_run lapic self Hlapic s4 _ a3 Hc4) as (d5 & R5 & Ha5); [done| |exact Ha3|by rewrite Hid3|exact Hrng|].
  { unfold s4. cbn [set_cpus cs_cpus]. by rewrite (alter_ids self _ c2). }
  mstep R5. eexists _, a3. split; [reflexivity|]. split; [|split; [|by split]].
  - cbn [set_cpus cs_cpus]. change (alter (set_started 1) self (cs_cpus s4) !! self = Some (set_started 1 (with_idt idt_addr c2))). by rewrite list_lookup_alter_eq, Hc4.
  - eapply others_trans; [exact O1|]. eapply others_trans; [exact O2|]. do 3 (split; [done|]). intros j Hj. unfold s4. cbn [set_cpus cs_cpus].
    by rewrite !list_lookup_alter_ne by done.
Qed.
End enter.

Section start.
Context {D : Type} {P : PortIO D} (lapic : Z) (self : nat) {A : LocalApic D lapic} (Hlapic : lapic ≠ 0).
Context (entryother size mpenter_addr entrypgdir kend : Z) (tick : nat → M (cpust D) unit).
(** What a CPU has done, given its stack, when it says that it runs. *)
Context (up : Z → cpu_full → Prop).
(** The CPUs' controller numbers, the record of the boot CPU, the start-up code. *)
Context (ids : list Z) (c0 : cpu_full) (image : Z → Z).
Implicit Types (s : cpust D) (c : cpu_full).

(** What a CPU finds when it starts: the start-up code, in front of it its stack,
    the address to continue at and its page table; and the start-up interrupts
    as the last ones sent. *)
Definition start_ready (id stack : Z) s : Prop :=
  let m := km_mem (cs_kmem s) in
  ld32 m (code - 4) = u32 (stack + KSTACKSIZE) ∧ ld32 m (code - 8) = mpenter_addr ∧ ld32 m (code - 12) = V2P entrypgdir ∧
  (∀ k, 0 ≤ k < size → m (code + k) = image k) ∧
  ∃ a pre, la_rep (cs_dev s) a ∧ ap_sent a = pre ++ start_cmds id 0x7000.

Hypothesis Hsize : 0 ≤ size ≤ 4096.
Hypothesis Hmpenter : is_u32 mpenter_addr.
(** The free pages are above the low megabyte, where the start-up code is. *)
Hypothesis Hend : KERNBASE + 0x100000 ≤ kend.
Hypothesis Hids : NoDup ids ∧ Forall (λ id, 0 ≤ id < 256) ids.
Hypothesis Hc0 : ids !! self = Some (cf_apicid c0) ∧ fl_if (cf_cli c0) = false.
(** A CPU started that way reports, and changes none of the others. *)
Hypothesis Htick : ∀ i s c stack, cs_cpus s !! i = Some c → i ≠ self → start_ready (cf_apicid c) stack s → page_ok kend stack →
  ∃ c', tick i s = Ok tt (set_cpus (<[i := c']> (cs_cpus s)) s) ∧ cf_started c' ≠ 0 ∧ cf_apicid c' = cf_apicid c ∧ up stack c'.

(** The state of the boot CPU, its controller and the free pages. *)
Record booted (sent : list (Z * Z)) (l : list Z) s : Prop := {
  bo_ids : cf_apicid <$> cs_cpus s = ids;
  bo_cpu : cs_cpus s !! self = Some c0;
  bo_free : free_pages kend (cs_kmem s) l;
  bo_code : ∀ k, 0 ≤ k < size → km_mem (cs_kmem s) (code + k) = image k;
  bo_apic : ∃ a, la_rep (cs_dev s) a ∧ Z.shiftr (areg a ID) 24 = cf_apicid c0 ∧ ap_sent a = sent }.

Lemma free_low m' k l : (∀ x, kend ≤ x → m' x = km_mem k x) → free_pages kend k l → free_pages kend (set_mem m' k) l.
Proof.
  intros Hm (Hfl & Hnd & Hok). split; [|done]. cbn. eapply (fl_ext kend ltac:(unfold KERNBASE in *; lia)); [|exact Hfl]. intros v Hv x Hx. apply Hm.
  rewrite list.Forall_forall in Hok. destruct (Hok v Hv) as (_ & ? & _). lia.
Qed.

Lemma wait_spec fuel i s c stack : (1 < fuel)%nat → cs_cpus s !! i = Some c → cf_started c = 0 → i ≠ self → start_ready (cf_apicid c) stack s → page_ok kend stack →
  ∃ c', wait_started tick i fuel s = Ok tt (set_cpus (<[i := c']> (cs_cpus s)) s) ∧ cf_started c' ≠ 0 ∧ cf_apicid c' = cf_apicid c ∧ up stack c'.
Proof.
  intros Hf Hc E Hi Hr Hp. destruct fuel as [|[|fuel]]; [lia..|]. cbn [wait_started]. rewrite bind_gets, Hc. cbn [fmap option_fmap option_map].
  change (default 0 (Some (cf_started c))) with (cf_started c). rewrite E, Z.eqb_refl.
  destruct (Htick i s c stack Hc Hi Hr Hp) as (c' & R & Hs & Hid & Hu). exists c'. split; [|done]. mstep R. rewrite bind_gets. cbn [cs_cpus set_cpus].
  rewrite list_lookup_insert_eq by (by eapply lookup_lt_Some). cbn [fmap option_fmap option_map]. change (default 0 (Some (cf_started c'))) with (cf_started c').
  by rewrite (proj2 (Z.eqb_neq _ _) Hs).
Qed.

(** The three words in front of the code. *)
Definition args (m : mem) (stack : Z) : mem :=
  st32 (st32 (st32 m (code - 4) (u32 (stack + KSTACKSIZE))) (code - 8) mpenter_addr) (code - 12) (V2P entrypgdir).
Lemma args_spec m stack : ld32 (args m stack) (code - 4) = u32 (stack + KSTACKSIZE) ∧ ld32 (args m stack) (code - 8) = mpenter_addr ∧
  ld32 (args m stack) (code - 12) = V2P entrypgdir ∧ ∀ x, x < code - 12 ∨ code ≤ x → args m stack x = m x.
Proof.
  unfold args. split; [|split; [|split]].
  - rewrite !ld32_st32_ne by lia. apply ld32_st32, u32_range.
  - rewrite ld32_st32_ne by lia. by apply ld32_st32.
  - apply ld32_st32, u32_range.
  - intros x Hx. by rewrite !st32_out by lia.
Qed.

(** One of the other CPUs. *)
Lemma start_one_spec fuel i s c sent stack l : (1 < fuel)%nat → booted sent (stack :: l) s → cs_cpus s !! i = Some c → cf_started c = 0 → i ≠ self →
  ∃ s' c', start_one lapic self mpenter_addr entrypgdir tick fuel i s = Ok tt s' ∧
  booted (sent ++ start_cmds (cf_apicid c) 0x7000) l s' ∧ cs_cpus s' = <[i := c']> (cs_cpus s) ∧ cf_started c' ≠ 0 ∧ up stack c'.
Proof.
  intros Hf [Bi Bc Bf Bm (a & Ha & Hid & Hs)] Hc Hst Hne. destruct Hids as [Hnd Hall], Hc0 as [H0 Hif].
  assert (0 ≤ cf_apicid c0 < 256) as Hr0 by (rewrite list.Forall_forall in Hall; apply Hall; by eapply list_elem_of_lookup_2).
  assert (0 ≤ cf_apicid c < 256) as Hr.
  { rewrite list.Forall_forall in Hall. apply Hall. rewrite <- Bi. apply list_elem_of_fmap_2. by eapply list_elem_of_lookup_2. }
  destruct (mycpu_run lapic self Hlapic s c0 a Bc Hif ltac:(by rewrite Bi) Ha Hid Hr0) as (d1 & R1 & H1). unfold start_one. mstep R1.
  rewrite (proj2 (Nat.eqb_neq _ _) Hne).
  pose proof (proj2 (proj2 Bf)) as Hok. inversion_clear Hok as [|? ? Hstack _].
  destruct (kalloc_spec kend ltac:(unfold KERNBASE in *; lia) (cs_kmem s) (stack :: l) Bf) as (k2 & R2 & Bf2 & M2).
  erewrite bind_Ok by (unfold on_kmem, zoom; cbn [cs_kmem]; rewrite R2; reflexivity).
  do 3 (erewrite bind_Ok by reflexivity). cbn [cs_cpus cs_idt cs_kpgdir cs_kmem cs_dev set_mem km_mem].
  set (k3 := set_mem _ (set_mem _ _)). assert (km_mem k3 = args (km_mem (cs_kmem s)) stack) as M3 by (cbn; unfold args; by rewrite M2).
  destruct (args_spec (km_mem (cs_kmem s)) stack) as (A1 & A2 & A3 & A4). rewrite <- M3 in A1, A2, A3, A4.
  assert (code = KERNBASE + 0x7000) as Ecode by reflexivity.
  assert (free_pages kend k3 l) as Bf3 by (apply (free_low (km_mem k3) k2 l); [intros x Hx; rewrite A4 by (unfold KERNBASE in *; lia); by rewrite M2|done]).
  erewrite (bind_Ok get) by reflexivity. cbn [cs_cpus]. rewrite Hc. cbn [fmap option_fmap option_map]. change (default 0 (Some (cf_apicid c))) with (cf_apicid c).
  change (V2P code) with 0x7000.
  destruct (lapicstartap_spec lapic Hlapic (mkLap (km_mem k3) d1) a (cf_apicid c) 0x7000 H1 Hr ltac:(lia) eq_refl) as (t & a' & R4 & H4 & S4 & _ & _ & _ & I4 & M4).
  erewrite bind_Ok by (unfold on_lapic, zoom; cbn [cs_kmem cs_dev]; rewrite R4; reflexivity). cbn [cs_cpus cs_idt cs_kpgdir cs_kmem cs_dev lp_mem] in *.
  set (s5 := mkCs _ _ _ _ _).
  assert (∀ x, x < KERNBASE + 0x467 ∨ KERNBASE + 0x46b ≤ x → km_mem (cs_kmem s5) x = km_mem k3 x) as M5 by exact M4.
  assert (∀ k, 0 ≤ k < size → km_mem (cs_kmem s5) (code + k) = image k) as Bm5 by (intros k Hk; rewrite M5, A4, Bm by lia; done).
  assert (start_ready (cf_apicid c) stack s5) as Hready.
  { split; [|split; [|split; [|split; [done|]]]]; [rewrite <- A1|rewrite <- A2|rewrite <- A3|by exists a', sent; rewrite <- Hs]; apply ld32_ext; intros x Hx; apply M5; lia. }
  destruct (wait_spec fuel i s5 c stack Hf Hc Hst Hne Hready Hstack) as (c' & R6 & Hst' & Hid' & Hu). exists (set_cpus (<[i:=c']> (cs_cpus s5)) s5), c'.
  split; [exact R6|]. split; [|done]. split; cbn [set_cpus cs_cpus cs_kmem cs_dev].
  - rewrite list_fmap_insert, Hid'. rewrite <- Bi. apply list_insert_id. change (cs_cpus s5) with (cs_cpus s). by rewrite list_lookup_fmap, Hc.
  - by rewrite list_lookup_insert_ne by done.
  - apply (free_low (lp_mem t) k3 l); [|done]. intros x Hx. apply M4. unfold KERNBASE in *. lia.
  - exact Bm5.
  - exists a'. split; [exact H4|]. split; [by rewrite I4|]. by rewrite S4, Hs.
Qed.

Definition rest_of (js : list nat) : list nat := filter (λ i, i ≠ self) js.
Definition cmds_for (js : list nat) : list (Z * Z) := concat ((λ i, start_cmds (nth i ids 0) 0x7000) <$> rest_of js).
Lemma rest_length n : (self < n)%nat → length (rest_of (seq 0 n)) = (n - 1)%nat.
Proof.
  intros Hs. replace n with (self + (1 + (n - self - 1)))%nat at 1 by lia. unfold rest_of. rewrite !seq_app. cbn [seq app Nat.add].
  assert (∀ i k, (∀ j, (i ≤ j < i + k)%nat → j ≠ self) → filter (λ i, i ≠ self) (seq i k) = seq i k) as H.
  { intros i k; revert i; induction k as [|k IH]; intros i Hk; [done|]. cbn [seq]. rewrite list.filter_cons_True by (apply Hk; lia). f_equal. apply IH. intros; apply Hk; lia. }
  rewrite list.filter_app, list.filter_cons_False by (by intros Hn). rewrite !H by (intros; lia). rewrite length_app, !length_seq. lia.
Qed.
(** The CPUs [js] run, each with its stack. *)
Definition all_up (js : list nat) (stacks : list Z) s : Prop :=
  Forall2 (λ i stack, ∃ c, cs_cpus s !! i = Some c ∧ cf_started c ≠ 0 ∧ up stack c) js stacks.

(** The turn of the boot CPU itself. *)
Lemma start_one_self fuel s sent l : booted sent l s → ∃ s', start_one lapic self mpenter_addr entrypgdir tick fuel self s = Ok tt s' ∧ booted sent l s' ∧ cs_cpus s' = cs_cpus s.
Proof.
  intros [Bi Bc Bf Bm (a & Ha & Hid & Hs)]. destruct Hids as [Hnd Hall], Hc0 as [H0 Hif].
  assert (0 ≤ cf_apicid c0 < 256) as Hr0 by (rewrite list.Forall_forall in Hall; apply Hall; by eapply list_elem_of_lookup_2).
  destruct (mycpu_run lapic self Hlapic s c0 a Bc Hif ltac:(by rewrite Bi) Ha Hid Hr0) as (d1 & R1 & H1). unfold start_one. mstep R1.
  rewrite Nat.eqb_refl. eexists. split; [reflexivity|]. split; [|done]. split; [done..|]. by exists a.
Qed.

Lemma start_all fuel js : (1 < fuel)%nat → ∀ s sent l, NoDup js → booted sent l s → (length (rest_of js) ≤ length l)%nat →
  (∀ i, i ∈ js → i ≠ self → ∃ c, cs_cpus s !! i = Some c ∧ cf_started c = 0) →
  ∃ s' stacks free, for_each js (start_one lapic self mpenter_addr entrypgdir tick fuel) s = Ok tt s' ∧ l = stacks ++ free ∧
  booted (sent ++ cmds_for js) free s' ∧ all_up (rest_of js) stacks s' ∧ ∀ j, j ∉ js → cs_cpus s' !! j = cs_cpus s !! j.
Proof.
  intros Hf. induction js as [|i js IH]; intros s sent l Hn Hb Hlen Hst.
  { exists s, [], l. unfold cmds_for. cbn. rewrite app_nil_r. split; [done|]. split; [done|]. split; [done|]. split; [by apply list.Forall2_nil|done]. }
  apply list.NoDup_cons in Hn as [Hi Hn]. unfold cmds_for, rest_of in *. rewrite list.filter_cons in *. cbn [for_each].
  destruct (decide (i ≠ self)) as [Hne|Hself%dec_stable].
  - destruct l as [|stack l]; [cbn in Hlen; lia|]. destruct (Hst i ltac:(apply list_elem_of_here) Hne) as (c & Hc & H0).
    destruct (start_one_spec fuel i s c sent stack l Hf Hb Hc H0 Hne) as (s1 & c' & R1 & B1 & E1 & St1 & U1). mstep R1.
    destruct (IH s1 _ l Hn B1) as (s2 & stacks & free & R2 & -> & B2 & U2 & E2); [cbn in Hlen; lia| |].
    { intros j Hj Hjs. rewrite E1, list_lookup_insert_ne by set_solver. apply Hst; [by apply list_elem_of_further|done]. }
    exists s2, (stack :: stacks), free. split; [done|]. split; [done|]. split; [|split].
    + cbn [fmap list_fmap concat]. assert (nth i ids 0 = cf_apicid c) as ->; [|by rewrite app_assoc].
      apply nth_lookup_Some. rewrite <- (bo_ids _ _ _ Hb), list_lookup_fmap, Hc. done.
    + apply list.Forall2_cons. split; [|done]. exists c'. rewrite E2, E1 by done. rewrite list_lookup_insert_eq by (by eapply lookup_lt_Some). done.
    + intros j Hj. apply not_elem_of_cons in Hj as [Hj1 Hj2]. by rewrite E2, E1, list_lookup_insert_ne by done.
  - subst i. destruct (start_one_self fuel s sent l Hb) as (s1 & R1 & B1 & E1). mstep R1.
    destruct (IH s1 _ l Hn B1 Hlen) as (s2 & stacks & free & R2 & E & B2 & U2 & E2).
    { intros j Hj Hjs. rewrite E1. apply Hst; [by apply list_elem_of_further|done]. }
    exists s2, stacks, free. do 4 (split; [done|]). intros j Hj. apply not_elem_of_cons in Hj as [_ Hj]. by rewrite E2, E1.
Qed.

(** C15: Starting the other CPUs.  The boot CPU runs [startothers] with enough free
    pages, on a machine where a CPU that is sent the start-up interrupts for
    address 0x7000, and finds there the start-up code and in front of it a stack,
    [mpenter] and the first page table, reports in the end.  Then [startothers]
    ends; every other CPU has reported, each was given a kernel stack of its own
    from the free pages, and each was sent INIT and two start-up interrupts, in
    the order of the CPUs; the boot CPU got nothing. *)
Theorem startothers_starts s a l fuel : (1 < fuel)%nat →
  cf_apicid <$> cs_cpus s = ids → cs_cpus s !! self = Some c0 → (∀ i c, cs_cpus s !! i = Some c → i ≠ self → cf_started c = 0) →
  free_pages kend (cs_kmem s) l → (length ids ≤ S (length l))%nat →
  (∀ k, image k = km_mem (cs_kmem s) (entryother + k)) →
  la_rep (cs_dev s) a → Z.shiftr (areg a ID) 24 = cf_apicid c0 →
  let js := filter (λ i, i ≠ self) (seq 0 (length ids)) in
  ∃ s' stacks free a', startothers lapic self entryother size mpenter_addr entrypgdir tick fuel s = Ok tt s' ∧
  l = stacks ++ free ∧ NoDup stacks ∧ free_pages kend (cs_kmem s') free ∧
  Forall2 (λ i stack, ∃ c, cs_cpus s' !! i = Some c ∧ cf_started c ≠ 0 ∧ up stack c) js stacks ∧
  cs_cpus s' !! self = Some c0 ∧
  la_rep (cs_dev s') a' ∧ ap_sent a' = ap_sent a ++ concat ((λ i, start_cmds (nth i ids 0) 0x7000) <$> js).
Proof.
  intros Hf Hi Hc Hst Hl Hlen Him Ha Hid js. unfold startothers.
  erewrite bind_Ok by reflexivity. erewrite (bind_Ok get) by reflexivity. cbn [cs_cpus].
  set (s1 := mkCs _ _ _ _ _). assert (∀ x, km_mem (cs_kmem s1) x = blit (km_mem (cs_kmem s)) code entryother size x) as M1 by exact (memmove_correct (km_mem (cs_kmem s)) code entryother size (proj1 Hsize)).
  assert (booted (ap_sent a) l s1) as B1.
  { split; [done|done| | |by exists a].
    - apply (free_low (km_mem (cs_kmem s1)) (cs_kmem s) l); [|done]. intros x Hx. rewrite M1. unfold blit. rewrite (proj2 (Z.ltb_ge x _)), andb_false_r; [done|]. unfold code. change (P2V 0x7000) with (KERNBASE + 0x7000). unfold KERNBASE in *. lia.
    - intros k Hk. rewrite M1. unfold blit. rewrite (proj2 (Z.leb_le _ _)), (proj2 (Z.ltb_lt _ _)) by lia. rewrite Him. cbn [andb]. f_equal. lia. }
  destruct (start_all fuel (seq 0 (length (cs_cpus s))) Hf s1 (ap_sent a) l) as (s2 & stacks & free & R2 & E & [B1' B2 B3 B4 (a' & Ha' & Hi' & Hs')] & U & _);
    [apply NoDup_seq|exact B1| | |].
  { assert (length (cs_cpus s) = length ids) as -> by (by rewrite <- Hi, length_fmap). rewrite rest_length; [lia|]. rewrite <- Hi, length_fmap. by eapply lookup_lt_Some. }
  { intros i [_ Hlt]%elem_of_seq Hne. destruct (lookup_lt_is_Some_2 (cs_cpus s) i Hlt) as [c Hci]. exists c. split; [done|]. by eapply Hst. }
  assert (length (cs_cpus s) = length ids) as El by (by rewrite <- Hi, length_fmap). rewrite El in *.
  exists s2, stacks, free, a'. split; [exact R2|]. split; [done|]. split.
  { destruct Hl as (_ & Hnd & _). rewrite E in Hnd. by apply list.NoDup_app in Hnd as [? _]. }
  split; [done|]. split; [exact U|]. split; [done|]. split; [done|exact Hs'].
Qed.
End start.

(** A CPU that starts: it takes the stack and the page table from in front of the
    code and reports. *)
Definition demo_start (m : mem) (c : cpu_full) : cpu_full :=
  let r := cf_regs c in
  set_started 1 (set_regs (mkRegs (r_gdtr r) (r_idtr r) (r_tr r) (ld32 m (code - 12))) (set_ts (mkTs (ld32 m (code - 4)) (ts_ss0 (cf_ts c)) (ts_iomb (cf_ts c))) c)).
Definition demo_tick (i : nat) : M (cpust apic) unit := modify (λ s, set_cpus (alter (demo_start (km_mem (cs_kmem s))) i (cs_cpus s)) s).
(** CPU 1 boots; one page is free. *)
Definition demo_boot : cpust apic := mkCs [demo_cpu 3; demo_cpu 7] [] 0 (mkKmem (λ _, 0) 0 0x80400000 0) demo_apic.

Lemma startothers_starts_witness : let P := apic_port 0xfee00000 in ∃ s' c a',
  startothers 0xfee00000 1 0x80108000 100 0x80103000 0x80109000 demo_tick 2 demo_boot = Ok tt s' ∧
  cs_cpus s' !! 0%nat = Some c ∧ cf_started c ≠ 0 ∧ ts_esp0 (cf_ts c) = 0x80401000 ∧ r_cr3 (cf_regs c) = 0x109000 ∧
  @la_rep apic P 0xfee00000 (apic_apic 0xfee00000) (cs_dev s') a' ∧ ap_sent a' = start_cmds 3 0x7000.
Proof.
  intros P. destruct (@startothers_starts apic P 0xfee00000 1 (apic_apic 0xfee00000) ltac:(done) 0x80108000 100 0x80103000 0x80109000 0x80200000 demo_tick
    (λ stack c, ts_esp0 (cf_ts c) = u32 (stack + KSTACKSIZE) ∧ r_cr3 (cf_regs c) = 0x109000) [3; 7] (demo_cpu 7) (λ _, 0)
    ltac:(lia) ltac:(vm_compute; done) ltac:(vm_compute; done)) with (s := demo_boot) (a := demo_apic) (l := [0x80400000]) (fuel := 2%nat)
    as (s' & stacks & free & a' & R & E & _ & _ & U & _ & Ha & Hs).
  - split; [apply (bool_decide_unpack _); vm_compute; reflexivity|]. repeat constructor; cbn; lia.
  - split; reflexivity.
  - intros i s c stack Hc _ (H4 & _ & H12 & _) _. exists (demo_start (km_mem (cs_kmem s)) c). split.
    + unfold demo_tick, modify. do 2 f_equal. apply list_eq. intros j. destruct (decide (j = i)) as [->|Hne].
      * by rewrite list_lookup_alter_eq, Hc, list_lookup_insert_eq by (by eapply lookup_lt_Some).
      * by rewrite list_lookup_alter_ne, list_lookup_insert_ne by done.
    + split; [done|]. split; [done|]. split; [exact H4|exact H12].
  - lia.
  - reflexivity.
  - reflexivity.
  - intros [|[|i]] c Hc Hne; cbn in Hc; by simplify_eq/=.
  - split; [split; [reflexivity|reflexivity]|]. split; [apply (bool_decide_unpack _); vm_compute; reflexivity|]. constructor; [|constructor]. split_and!; vm_compute; done.
  - cbn. lia.
  - reflexivity.
  - reflexivity.
  - vm_compute. reflexivity.
  - cbn in U. inversion U as [|? stack ? ? (c & Hc & Hst & Hu & Hr) U']; subst. inversion U'; subst. cbn in E. injection E as <- <-.
    exists s', c, a'. split; [exact R|]. split; [done|]. split; [done|]. split; [exact Hu|]. split; [exact Hr|]. split; [exact Ha|]. exact Hs.
Defined.
